(* ===== verification/_CoqProject ===== *)
-Q . S2P
Prelude.v
TimeArith.v
Flags.v
Protos.v
ProtoExt.v
CoreProtos.v
ActivityTasks.v
Retry.v
Fsm.v
TimerMachine.v
ActivityMachine.v
ChildWorkflowMachine.v
NexusMachine.v
LocalActivityMachine.v
WorkflowTaskMachine.v
UpdateMachine.v
ExternalMachines.v
TerminalMachines.v
SideMachines.v
LocalActs.v
LocalActManager.v
LocalActManagerFacts.v
LocalActManagerExamples.v
HeartbeatManager.v
HeartbeatFacts.v
ActivityManager.v
ActivityManagerFacts.v
ActivityManagerExamples.v
DrivenWorkflow.v
Machines.v
MachinePanics.v
MachineCalls.v
HistoryUpdate.v
WMState.v
WorkflowMachines.v
WMSafety.v
WMRun.v
WMLoops.v
WMReplay.v
WMCommands.v
WorkflowTasks.v
ManagedRun.v
ManagedRunFacts.v
ManagedRunSafety.v
ManagedRunExamples.v
RunCache.v
WorkflowStream.v
WorkflowStreamFacts.v
ManagedStream.v
StreamExamples.v
Workflows.v
JsonData.v
NativeConverter.v
PayloadConverters.v
PayloadConverterFacts.v
ElixirClient.v
NativeClient.v
NativeWorker.v
NativeWorkerFacts.v
ElixirFacts.v
ElixirExamples.v
NexusManager.v
NexusManagerFacts.v
ServerRetry.v
Permits.v
PollBuffer.v
PollBufferFacts.v
WorkerRegistry.v
