(* ===== verification/Prelude.v ===== *)
(** * Verification of the Temporal SDK for Elixir

    The repository is an Elixir SDK for Temporal.  An Elixir library
    (lib/temporal) gives programs a client process; its native functions
    (native/temporal_nif) are written in Rust over the vendored [sdk-core], a
    library that polls the Temporal server for tasks, replays the history of each
    workflow run through state machines, hands activations and activities to
    the language SDK ("lang") and turns lang's answers into commands and
    reports for the server.  This library models the code that decides what
    happens and proves what makes it correct.

    ** How the program is cut up

    A workflow task arrives with a part of the run's history.  The paginator
    fetches the missing pages and cuts the events into the sequences of single
    workflow tasks (worker/workflow/history_update.rs).  The stream of inputs
    (worker/workflow/workflow_stream.rs) gives the task to the managed run of
    its workflow, which it finds or creates in the cache of runs, or lets it wait
    for a slot of the cache.  A managed run (managed_run.rs) serves one
    activation at a time and drives the workflow machines
    (machines/workflow_machines.rs), which apply one sequence at a time: each
    event goes to the state machine it belongs to, the machines answer with
    responses that become jobs for lang, protocol messages, commands or local
    activity requests.  Lang's commands create or cancel machines, whose
    commands are prepared for the server; the completion is reported
    (worker/workflow/mod.rs) and the stream is told.  Local activities go
    through a manager of their own (worker/activities/local_activities.rs), and
    activities that the server starts through another (worker/activities.rs) with
    the manager of their heartbeats, and Nexus tasks through a third
    (worker/nexus.rs).

    Tasks come from buffers that poll the server (pollers/poll_buffer.rs): a
    permit for a slot (abstractions.rs) is taken before a poll and goes with the
    task, and the number of polls follows the server's suggestions.  The client
    retries calls that fail (client/src/retry.rs), and lets a workflow it starts
    begin on a worker that has a slot (client/src/worker_registry).

    On the Elixir side the client process connects and makes requests; terms
    become payloads in Elixir, cross the native interface as maps, and become the
    requests of core.  Results of queries come back through converters of the
    native side.  A native worker polls core and hands its tasks to Elixir.

    ** Files

    Shared:
    - [Prelude]: outcomes of Rust calls, the state-and-error monad, tactics.
    - [TimeArith]: durations and IEEE double precision; [Retry]: retry_logic.rs.
    - [Flags]: internal_flags.rs, the flags recorded in a history.
    - [Protos], [ProtoExt], [CoreProtos], [ActivityTasks]: the protocol buffer
      messages, the conversions of sdk-core-protos/src/lib.rs, the validated
      forms of core/src/protosext, activity tasks and task tokens.

    State machines:
    - [Fsm]: the code the [fsm!] macro generates (fsm/rustfsm_procmacro,
      rustfsm_trait) and [TemporalStateMachine] (machines/mod.rs).
    - [TimerMachine], [ActivityMachine], [ChildWorkflowMachine], [NexusMachine],
      [LocalActivityMachine], [WorkflowTaskMachine], [UpdateMachine],
      [ExternalMachines], [TerminalMachines], [SideMachines]: the sixteen state
      machines, one Module for each *_state_machine.rs, with its states, its
      shared state, the transition table, the handlers and the public methods.

    A run and its machines:
    - [LocalActs], [DrivenWorkflow]: the local activity bookkeeping
      (workflow_machines/local_acts.rs) and the channel to lang
      (driven_workflow.rs) of a run.
    - [Machines]: the sum of the machines, its dispatch, the slot map.
    - [HistoryUpdate]: history_update.rs.
    - [WMState], [WorkflowMachines]: the state and the operations of
      workflow_machines.rs.
    - [MachinePanics], [MachineCalls], [WMSafety], [WMRun], [WMLoops],
      [WMReplay], [WMCommands]: what holds of the workflow machines.

    A worker's workflows:
    - [WorkflowTasks]: tasks, activations, their buffering and validation
      (worker/workflow/mod.rs).
    - [ManagedRun], [ManagedRunFacts], [ManagedRunSafety], [ManagedRunExamples]:
      managed_run.rs, over the operations of the workflow machines.
    - [RunCache]: run_cache.rs; the LRU cache and the runs are interfaces.
    - [WorkflowStream], [WorkflowStreamFacts]: wft_extraction.rs and
      workflow_stream.rs, over the interface of runs; [ManagedStream]: managed
      runs implement it; [StreamExamples].
    - [Workflows]: completion and reporting (worker/workflow/mod.rs,
      wft_poller.rs, worker/client.rs).

    A worker's activities:
    - [LocalActManager], [LocalActManagerFacts], [LocalActManagerExamples]:
      local_activities.rs.
    - [HeartbeatManager], [HeartbeatFacts]: activity_heartbeat_manager.rs.
    - [ActivityManager], [ActivityManagerFacts], [ActivityManagerExamples]:
      worker/activities.rs, over the heartbeat manager.

    - [NexusManager], [NexusManagerFacts]: worker/nexus.rs.

    Polling and the client of the server:
    - [Permits]: abstractions.rs, the dealers of permits over the interface of
      slot suppliers, and worker/tuner/fixed_size.rs.
    - [ServerRetry]: client/src/retry.rs and the retry settings of
      client/src/lib.rs.
    - [PollBuffer], [PollBufferFacts]: pollers/poll_buffer.rs, over the dealer
      and the retries.
    - [WorkerRegistry]: client/src/worker_registry/mod.rs,
      worker/slot_provider.rs and the eager start of client/src/raw.rs.

    Elixir and its native functions:
    - [JsonData]: sorting, maps from strings, values of serde_json.
    - [NativeConverter]: native/temporal_nif/src/converter.rs.
    - [PayloadConverters], [PayloadConverterFacts]:
      lib/temporal/payload_converter.ex and payload_converter/.
    - [ElixirClient]: lib/temporal/client.ex and client/config.ex.
    - [NativeClient], [NativeWorker], [NativeWorkerFacts]: lib.rs, client.rs and
      worker.rs of native/temporal_nif/src.
    - [ElixirFacts]: what holds from Elixir to the requests of core;
      [ElixirExamples]: instances of the interfaces and witnesses.

    ** How the code is modelled

    A method that mutates [self] is a function on the state; where it can fail
    it is a computation of the monad [M], which keeps the state reached when an
    error or a panic ends the call, as Rust does.  [Ok], [Err] and [Panic] are
    the three ways a call ends; an Elixir exception is a [Panic].  A handler of a
    machine takes the shared state and the flags of the run and returns the new
    ones with its [TransitionResult].  Integers are [Z]; conversions that wrap or
    saturate in Rust are written out.  Times and durations are nanoseconds in
    [Z].  Strings are byte strings.  [HashMap] and [HashSet] are [gmap] and
    [gset]; the order of an iteration that the code can observe is a parameter.
    Readings of the clock are arguments.

    Asynchronous code is a step relation or a state with one function for each
    stretch of code between two points at which it waits: the tasks it spawns,
    its channels, timers and notifications are part of the state, and a theorem
    over all sequences of steps covers every interleaving.  So are modelled the
    stream of workflow inputs, the local activity manager, the heartbeat manager,
    the activity and Nexus managers and the poll buffer.  In [Permits], whose code
    runs on several threads, the accesses of atomics are the points at which
    calls interleave.

    Parameters, with the laws a theorem needs as hypotheses: the JSON and
    protobuf codecs and the conversions of [prost_types] ([Json], [WktTime],
    [UpdateEncode], [AnyRequest], bundled in [Externs]), SipHash, the slot map
    ([SlotMap], [SlotMapLaws]; [counted_map] is an instance), the LRU cache
    ([LruCache]), what a managed run needs of its surroundings ([RunEnv]), the
    server's pages of history and its answers ([WorkflowsEnv]), the iteration
    order of maps ([HashIter], [DashIter]), [powi] and Unicode tables
    ([StdTables], [ElixirText]), base64, serde_json, Jason and Protobuf
    ([Base64], [SerdeJson], [ElixirLibs]), the decoders of Rustler ([Rustler]),
    the exponential backoff ([Backoff]), suppliers of slots ([SlotSupplier],
    [SlotCount]; the fixed-size supplier is an instance).
    Each theorem with such a hypothesis is applied to concrete instances in its
    witness.

    [dbg_panic!] only logs in a release build and is modelled so.  Where an error
    message holds a [Debug] dump of a message, the dump is left out.  Logging,
    tracing, telemetry and metrics are not modelled.

    ** Bounds

    Recursion that is not structural has a bound, and a theorem that it is
    enough: [process_machine_responses] calls itself at most two deep
    ([WMLoops.process_at_depth]); the loop of [prepare_commands] runs once per
    queued command ([WMLoops.prepare_commands_terminates]); counting sequences
    in [from_events] needs at most one round per event
    ([HistoryUpdate.from_events_cuts]); fetching ends when the pages end
    ([HistoryUpdate.extract_next_update_terminates]); the functions of a managed
    run, which call each other, return within a bound given by the tasks that are
    buffered ([ManagedRunFacts.run_calls_return]), and the loop that applies
    tasks of the history within one round per known event
    ([ManagedRunSafety.replay_loop_ends]).

    ** What is proved

    - Histories: pagination and sequencing lose, repeat and reorder no event;
      what a cut can strand is characterised.
    - Machines: each resolves lang at most once, in any order of events,
      commands and cancellations; what each cancellation mode does; that
      machines do not panic; replays of recorded local activity results agree
      with the execution that recorded them, and when they do not.
    - Encodings: markers of patches and local activities decode to what was
      encoded; the flags a replay knows are those the execution knew; payloads
      of Elixir terms and of JSON values are read back.
    - Workflow machines: over any sequence of operations, stored keys do not
      dangle and ids name machines of their type; workflow time does not go
      back; events are applied in order and once; commands are sent in the order
      lang issued them and matched with events in that order; a replay sends no
      messages; the loops end.
    - Managed runs and the stream: one activation at a time, every completion
      answered once, no more runs cached than allowed, waiting polls resumed,
      shutdown only without pending work; and, composed, the machines of every
      cached run are driven only by their own operations
      ([ManagedStream.stream_drives_machines]).
    - Local activities, activities and heartbeats: under any interleaving each
      activity is accounted for and reported or resolved once; heartbeats are
      throttled and the last details kept; the activity manager keeps the
      contract of the heartbeat manager; shutdown is woken; Nexus tasks are
      answered once.
    - Polling: the counters of permits are exact and bounded by the slots
      whatever threads do; a buffer loses no task and no permit, keeps to its
      number of polls, and is empty when it says that it has ended; what becomes
      of an error between the retries of the client and the scaler.
    - The client of the server: calls are tried no more often than configured
      and retried for the documented reasons; the registry has one worker for a
      queue; an eager start uses or releases its slot.
    - Elixir: a client makes requests only with its connection; the arguments of
      a workflow arrive in the request for the server; which settings reach the
      connection; workers start core once and hand over its tasks with times that
      do not overflow.

    Theorems that show the code deviating from its documentation are named in
    the findings of the manifest.

    ** What is not modelled

    The network client and its interceptors, telemetry and metrics, the tuners
    that read system resources, the C bridge, the Rust SDK and the servers and
    histories used in tests: input and output, or code that no part of the Elixir
    SDK decides with.  What joins the managers of a worker (worker/mod.rs) appears
    as the order of their inputs; the managers take their permits as given, and
    the activity manager closes its dealer in one step, which
    [Permits.closing_waits_for_permits] justifies where no reservation is under
    way.  The delay before a poll (rate limit, balance of pollers) is any wait.
    In Elixir, custom converters and the supervision tree.  Polls of one native
    worker are taken one after the other, as its lock enforces.
    [reset_last_started_id] is modelled but is not among the operations of
    [WMRun]: it drops machines, and whether stored keys stay valid depends on
    what the dropped task created. *)

From Stdlib Require Import ZArith Lia.
From stdpp Require Import base option list strings gmap pretty.

(** ** Outcomes

    A Rust call returns a value, returns an error of its [Result], or panics
    ([unwrap], [expect], [panic!], [unreachable!]). *)
Inductive outcome (E A : Type) : Type :=
| Ok (a : A)
| Err (e : E)
| Panic (msg : string).
Arguments Ok {E A} a.
Arguments Err {E A} e.
Arguments Panic {E A} msg.

#[global] Instance outcome_ret {E} : MRet (outcome E) := fun A a => Ok a.
#[global] Instance outcome_bind {E} : MBind (outcome E) := fun A B f m =>
  match m with
  | Ok a => f a
  | Err e => Err e
  | Panic msg => Panic msg
  end.

Definition map_err {E F A} (f : E -> F) (m : outcome E A) : outcome F A :=
  match m with
  | Ok a => Ok a
  | Err e => Err (f e)
  | Panic msg => Panic msg
  end.

(** Stateful fallible code: the state reached is kept on an error or a panic,
    because Rust mutations made before the [?] are not undone. *)
Definition M (S E A : Type) : Type := S -> S * outcome E A.

#[global] Instance M_ret {S E} : MRet (M S E) := fun A a s => (s, Ok a).
#[global] Instance M_bind {S E} : MBind (M S E) := fun A B f m s =>
  match m s with
  | (s', Ok a) => f a s'
  | (s', Err e) => (s', Err e)
  | (s', Panic msg) => (s', Panic msg)
  end.

Definition get {S E} : M S E S := fun s => (s, Ok s).
Definition put {S E} (s : S) : M S E unit := fun _ => (s, Ok tt).
Definition modify {S E} (f : S -> S) : M S E unit := fun s => (f s, Ok tt).
Definition throw {S E A} (e : E) : M S E A := fun s => (s, Err e).
Definition panic {S E A} (msg : string) : M S E A := fun s => (s, Panic msg).
Definition lift {S E A} (m : outcome E A) : M S E A := fun s => (s, m).

(** A [for] loop that returns at the first error. *)
Fixpoint for_each {S E A} (f : A -> M S E unit) (l : list A) : M S E unit :=
  match l with
  | [] => mret tt
  | x :: l => f x ≫= fun _ => for_each f l
  end.

Lemma outcome_bind_Ok {E A B} (m : outcome E A) (f : A -> outcome E B) b :
  (m ≫= f) = Ok b <-> exists a, m = Ok a /\ f a = Ok b.
Proof. destruct m; simpl; naive_solver. Qed.

(** ** Reasoning about sequences of calls *)

Lemma get_bind {S E B} (f : S -> M S E B) s : (get ≫= f) s = f s s.
Proof. done. Qed.

Lemma modify_bind {S E B} (g : S -> S) (f : unit -> M S E B) s : (modify g ≫= f) s = f tt (g s).
Proof. done. Qed.

Lemma Ok_bind {S E A B} (m : M S E A) (f : A -> M S E B) s s' a :
  m s = (s', Ok a) -> (m ≫= f) s = f a s'.
Proof. intros Hm. unfold mbind, M_bind. by rewrite Hm. Qed.

Lemma bind_Ok_inv {S E A B} (m : M S E A) (f : A -> M S E B) s s' b :
  (m ≫= f) s = (s', Ok b) -> exists s1 a, m s = (s1, Ok a) /\ f a s1 = (s', Ok b).
Proof. unfold mbind, M_bind. destruct (m s) as [s1 []]; naive_solver. Qed.

Lemma M_bind_ext {S E A B} (m : M S E A) (f g : A -> M S E B) s :
  (forall a s', m s = (s', Ok a) -> f a s' = g a s') -> (m ≫= f) s = (m ≫= g) s.
Proof. unfold mbind, M_bind. destruct (m s) as [s' []]; auto. Qed.

Lemma for_each_ext {S E A} (f g : A -> M S E unit) l s :
  (forall a s, a ∈ l -> f a s = g a s) -> for_each f l s = for_each g l s.
Proof.
  revert s. induction l as [|a l IH]; intros s Hf; simpl; [done|].
  unfold mbind, M_bind. rewrite (Hf a s) by (by left).
  destruct (g a s) as [s' []]; [|done..]. apply IH. intros b s'' Hb. apply Hf. by right.
Qed.

(** ** Weakest preconditions

    What holds of the value, of the error or of the panic that a call ends with,
    and of the state it leaves. *)
Definition wp {S E A} (m : M S E A) (Q : A -> S -> Prop) (Er : E -> S -> Prop)
    (Pa : string -> S -> Prop) (s : S) : Prop :=
  match m s with
  | (s', Ok a) => Q a s'
  | (s', Err e) => Er e s'
  | (s', Panic msg) => Pa msg s'
  end.

Section wp.
  Context {S E : Type}.
  Implicit Types (s : S).

Lemma wp_bind {A B} (m : M S E A) (f : A -> M S E B) Q Er Pa s :
  wp m (fun a => wp (f a) Q Er Pa) Er Pa s -> wp (m ≫= f) Q Er Pa s.
Proof. unfold wp, mbind, M_bind. by destruct (m s) as [s' []]. Qed.

Lemma wp_ret {A} (a : A) Q (Er : E -> S -> Prop) Pa s : Q a s -> wp (mret a) Q Er Pa s.
Proof. done. Qed.

Lemma wp_throw {A} (e : E) (Q : A -> S -> Prop) Er Pa s : Er e s -> wp (throw e) Q Er Pa s.
Proof. done. Qed.

Lemma wp_panic {A} msg (Q : A -> S -> Prop) (Er : E -> S -> Prop) Pa s :
  Pa msg s -> wp (panic msg) Q Er Pa s.
Proof. done. Qed.

Lemma wp_mono {A} (m : M S E A) (Q Q' : A -> S -> Prop) (Er Er' : E -> S -> Prop) Pa Pa' s :
  wp m Q Er Pa s -> (forall a s', Q a s' -> Q' a s') -> (forall e s', Er e s' -> Er' e s') ->
  (forall msg s', Pa msg s' -> Pa' msg s') -> wp m Q' Er' Pa' s.
Proof. unfold wp. destruct (m s) as [s' []]; auto. Qed.

Lemma wp_for_each {A} (f : A -> M S E unit) (I : S -> Prop) Er Pa l s :
  (forall a s, I s -> wp (f a) (fun _ => I) Er Pa s) -> I s ->
  wp (for_each f l) (fun _ => I) Er Pa s.
Proof.
  intros Hf. revert s. induction l as [|a l IH]; intros s Hs; simpl; [done|].
  apply wp_bind. eapply wp_mono; [by apply Hf|simpl; auto..].
Qed.

End wp.

Lemma sum_list_with_one {A} (l : list A) : sum_list_with (fun _ => 1) l = length l.
Proof. induction l; simpl; congruence. Qed.

(** ** Machine integers used by the code *)
Definition u32_max : Z := 4294967295.
Definition i64_max : Z := 9223372036854775807.
Definition i64_min : Z := -9223372036854775808.

Definition is_u32 (z : Z) : Prop := (0 <= z <= u32_max)%Z.
Definition is_i64 (z : Z) : Prop := (i64_min <= z <= i64_max)%Z.

(** [ToString] of an integer: its decimal digits. *)
Definition to_string (z : Z) : string := pretty z.

Lemma to_string_inj (a b : Z) : to_string a = to_string b -> a = b.
Proof. unfold to_string. apply (inj pretty). Qed.

(** ** Tactics *)

(** Case analysis on the scrutinee of a match in the goal. *)
Ltac case_match_goal :=
  match goal with
  | |- context [match ?x with _ => _ end] => destruct x eqn:?; simplify_eq/=
  end.

(** The same in a hypothesis. *)
Ltac case_match_in H :=
  match type of H with
  | context [match ?x with _ => _ end] => destruct x eqn:?; simplify_eq/=
  end.

(** Opens every [x ← m; k = Ok _] in the context. *)
Ltac bind_Ok :=
  repeat match goal with
  | H : (_ ≫= _) = Ok _ |- _ =>
      apply outcome_bind_Ok in H;
      let a := fresh "a" in let Ha := fresh "Ha" in destruct H as (a & Ha & H)
  end.

(** Unfolds the combinators of the state and error monad. *)
Tactic Notation "unfold_M" "in" hyp(H) :=
  cbv [mbind M_bind mret M_ret lift get put modify throw panic] in H.

Lemma pair3_eta {A B C} (x : (A * B) * C) : x = ((x.1.1, x.1.2), x.2).
Proof. by destruct x as [[a b] c]. Qed.

Create HintDb sdk.
