(* ===== verification/TimeArith.v ===== *)
(** * Durations and floating point

    Durations and instants are nanosecond counts.  The conversions of [Duration]
    through [f32] and [f64] are those of the standard library: the seconds as a
    float, and back with rounding to the nearest nanosecond. *)
From Stdlib Require Import ZArith Lia SpecFloat.
From stdpp Require Import base strings.
From S2P Require Import Prelude.

Definition NANOS_PER_SEC : Z := 1000000000.
Definition u64_max : Z := 18446744073709551615.

(** [Duration::MAX] *)
Definition duration_max : Z := u64_max * NANOS_PER_SEC + 999999999.

Definition saturating_mul (d n : Z) : Z := Z.min (d * n) duration_max.
Definition saturating_sub (a b : Z) : Z := Z.max 0 (a - b).

(** The integer nearest to [n / d], ties to even. *)
Definition div_round_even (n d : Z) : Z :=
  let q := (n / d)%Z in
  match Z.compare (2 * (n mod d)) d with
  | Lt => q
  | Gt => q + 1
  | Eq => if Z.even q then q else q + 1
  end%Z.

Section format.
  Context (prec emax : Z).

Definition float_from (z : Z) : spec_float := binary_normalize prec emax z 0 false.

Definition as_secs (d : Z) : spec_float :=
  SFadd prec emax (float_from (d / NANOS_PER_SEC))
    (SFdiv prec emax (float_from (d mod NANOS_PER_SEC)) (float_from NANOS_PER_SEC)).
End format.

Definition from_secs {E} (x : spec_float) : outcome E Z :=
  match x with
  | S754_zero _ => Ok 0%Z
  | S754_finite false m e =>
      let n := (Z.pos m * NANOS_PER_SEC)%Z in
      let nanos := if (0 <=? e)%Z then (n * 2 ^ e)%Z else div_round_even n (2 ^ (- e)) in
      if (nanos / NANOS_PER_SEC <=? u64_max)%Z then Ok nanos
      else Panic "cannot convert float seconds to Duration: value is either too big or NaN"
  | S754_finite true _ _ => Panic "cannot convert float seconds to Duration: value is negative"
  | _ => Panic "cannot convert float seconds to Duration: value is either too big or NaN"
  end.

(** ** Single precision *)
Definition as_secs_f32 : Z -> spec_float := as_secs 24 128.

Definition mul_f32 {E} (d : Z) (rhs : spec_float) : outcome E Z :=
  from_secs (SFmul 24 128 rhs (as_secs_f32 d)).

(** ** Double precision *)
Definition f64_from : Z -> spec_float := float_from 53 1024.
Definition f64_mul : spec_float -> spec_float -> spec_float := SFmul 53 1024.
Definition as_secs_f64 : Z -> spec_float := as_secs 53 1024.

(** [f64::from_bits] *)
Definition f64_from_bits (bits : Z) : spec_float :=
  let s := Z.testbit bits 63 in
  let ex := Z.land (Z.shiftr bits 52) 2047 in
  let mant := Z.land bits (2 ^ 52 - 1) in
  if (ex =? 0)%Z then
    match mant with Zpos m => S754_finite s m (-1074) | _ => S754_zero s end
  else if (ex =? 2047)%Z then
    if (mant =? 0)%Z then S754_infinity s else S754_nan
  else
    match (mant + 2 ^ 52)%Z with
    | Zpos m => S754_finite s m (ex - 1075)
    | _ => S754_nan
    end.

(** ** Instants *)

(** [Instant + Duration]; the seconds of an instant are an [i64]. *)
Definition instant_add {E} (t d : Z) : outcome E Z :=
  if ((t + d) / NANOS_PER_SEC <=? i64_max)%Z then Ok (t + d)%Z
  else Panic "overflow when adding duration to instant".

(** [time.elapsed().unwrap_or_default()] of a [SystemTime] when the clock reads [now]. *)
Definition elapsed_or_zero (now t : Z) : Z := saturating_sub now t.

Lemma from_secs_no_err {E} x (e : E) : from_secs x <> Err e.
Proof. unfold from_secs. repeat case_match; done. Qed.

Lemma mul_f32_no_err {E} d x (e : E) : mul_f32 d x <> Err e.
Proof. apply from_secs_no_err. Qed.

Lemma div_round_even_nonneg n d : (0 <= n)%Z -> (0 < d)%Z -> (0 <= div_round_even n d)%Z.
Proof.
  intros Hn Hd. unfold div_round_even. pose proof (Z.div_pos n d Hn Hd).
  repeat case_match; lia.
Qed.

(** What [from_secs] returns is a duration. *)
Lemma from_secs_range {E} x d :
  from_secs (E := E) x = Ok d -> (0 <= d <= duration_max)%Z.
Proof.
  unfold from_secs, duration_max. intros Hx.
  assert (forall n, (0 <= n)%Z -> (n / NANOS_PER_SEC <=? u64_max)%Z = true ->
    (0 <= n <= u64_max * NANOS_PER_SEC + 999999999)%Z) as Hr.
  { intros n Hn Hle. apply Z.leb_le in Hle. pose proof (Z.div_mod n NANOS_PER_SEC).
    pose proof (Z.mod_pos_bound n NANOS_PER_SEC). unfold NANOS_PER_SEC, u64_max in *. lia. }
  destruct x as [s|s| |[] m e]; simplify_eq; [unfold NANOS_PER_SEC, u64_max; lia|].
  case_match; [simplify_eq|done]. apply Hr; [|done]. unfold NANOS_PER_SEC.
  destruct (Z.leb_spec 0 e).
  - pose proof (Z.pow_nonneg 2 e). nia.
  - apply div_round_even_nonneg; [lia|]. apply Z.pow_pos_nonneg; lia.
Qed.
