(* ===== verification/Flags.v ===== *)
(** * Internal flags (core/src/internal_flags.rs)

    Flags recorded in workflow task completions.  One [InternalFlags] value is
    shared by all machines of a run; the machines that consult it thread it
    explicitly. *)
From Stdlib Require Import ZArith Lia.
From stdpp Require Import base option list strings gmap sorting.
From S2P Require Import Prelude.

Inductive CoreInternalFlags :=
| IdAndTypeDeterminismChecks
| UpsertSearchAttributeOnPatch
| MoveTerminalCommands
| TooHigh.

#[global] Instance CoreInternalFlags_eq_dec : EqDecision CoreInternalFlags.
Proof. solve_decision. Defined.

(** The discriminants, [flag as u32]. *)
Definition as_u32 (f : CoreInternalFlags) : Z :=
  match f with
  | IdAndTypeDeterminismChecks => 1
  | UpsertSearchAttributeOnPatch => 2
  | MoveTerminalCommands => 3
  | TooHigh => u32_max
  end.

Definition from_u32 (v : Z) : CoreInternalFlags :=
  match v with
  | 1%Z => IdAndTypeDeterminismChecks
  | 2%Z => UpsertSearchAttributeOnPatch
  | 3%Z => MoveTerminalCommands
  | _ => TooHigh
  end.

Lemma from_u32_as_u32 f : from_u32 (as_u32 f) = f.
Proof. by destruct f. Qed.

#[global] Program Instance CoreInternalFlags_countable : Countable CoreInternalFlags :=
  inj_countable' as_u32 from_u32 from_u32_as_u32.

(** [temporal.api.sdk.v1.WorkflowTaskCompletedMetadata]. *)
Record WorkflowTaskCompletedMetadata := {
  core_used_flags : list Z;
  lang_used_flags : list Z;
  md_sdk_name : string;
  md_sdk_version : string;
}.

Definition WorkflowTaskCompletedMetadata_default : WorkflowTaskCompletedMetadata :=
  {| core_used_flags := []; lang_used_flags := []; md_sdk_name := ""; md_sdk_version := "" |}.

Record EnabledFlags := {
  core : gset CoreInternalFlags;
  lang : gset Z;
  core_since_last_complete : gset CoreInternalFlags;
  lang_since_last_complete : gset Z;
  last_sdk_name : string;
  last_sdk_version : string;
  sdk_name : string;
  sdk_version : string;
}.

Inductive InternalFlags :=
| Enabled (f : EnabledFlags)
| Disabled.

(** [InternalFlags::new]: [sdk_metadata] is the server capability read. *)
Definition InternalFlags_new (sdk_metadata : bool) (name version : string) : InternalFlags :=
  if sdk_metadata then
    Enabled {| core := ∅; lang := ∅;
               core_since_last_complete := ∅; lang_since_last_complete := ∅;
               last_sdk_name := ""; last_sdk_version := "";
               sdk_name := name; sdk_version := version |}
  else Disabled.

(** [sdk_metadata] is the field of [WorkflowTaskCompletedEventAttributes]. *)
Definition add_from_complete (sdk_metadata : option WorkflowTaskCompletedMetadata)
    (fl : InternalFlags) : InternalFlags :=
  match fl, sdk_metadata with
  | Enabled f, Some md =>
      Enabled {| core := f.(core) ∪ list_to_set (from_u32 <$> md.(core_used_flags));
                 lang := f.(lang) ∪ list_to_set md.(lang_used_flags);
                 core_since_last_complete := f.(core_since_last_complete);
                 lang_since_last_complete := f.(lang_since_last_complete);
                 last_sdk_name :=
                   if String.eqb md.(md_sdk_name) "" then f.(last_sdk_name) else md.(md_sdk_name);
                 last_sdk_version :=
                   if String.eqb md.(md_sdk_version) "" then f.(last_sdk_version)
                   else md.(md_sdk_version);
                 sdk_name := f.(sdk_name); sdk_version := f.(sdk_version) |}
  | _, _ => fl
  end.

Definition with_core_since (f : EnabledFlags) (s : gset CoreInternalFlags) : EnabledFlags :=
  {| core := f.(core); lang := f.(lang);
     core_since_last_complete := s;
     lang_since_last_complete := f.(lang_since_last_complete);
     last_sdk_name := f.(last_sdk_name); last_sdk_version := f.(last_sdk_version);
     sdk_name := f.(sdk_name); sdk_version := f.(sdk_version) |}.

Definition add_lang_used (flags : list Z) (fl : InternalFlags) : InternalFlags :=
  match fl with
  | Enabled f =>
      Enabled {| core := f.(core); lang := f.(lang);
                 core_since_last_complete := f.(core_since_last_complete);
                 lang_since_last_complete := f.(lang_since_last_complete) ∪ list_to_set flags;
                 last_sdk_name := f.(last_sdk_name); last_sdk_version := f.(last_sdk_version);
                 sdk_name := f.(sdk_name); sdk_version := f.(sdk_version) |}
  | Disabled => Disabled
  end.

Definition try_use (flag : CoreInternalFlags) (should_record : bool) (fl : InternalFlags)
  : InternalFlags * bool :=
  match fl with
  | Enabled f =>
      if should_record
      then (Enabled (with_core_since f ({[flag]} ∪ f.(core_since_last_complete))), true)
      else (fl, bool_decide (flag ∈ f.(core)))
  | Disabled => (fl, false)
  end.

(** [enum_iterator::all] minus [TooHigh], in declaration order. *)
Definition all_except_too_high : list CoreInternalFlags :=
  filter (fun f => f <> TooHigh)
    [IdAndTypeDeterminismChecks; UpsertSearchAttributeOnPatch; MoveTerminalCommands; TooHigh].

Definition write_all_known (fl : InternalFlags) : InternalFlags :=
  match fl with
  | Enabled f =>
      Enabled (with_core_since f (f.(core_since_last_complete) ∪ list_to_set all_except_too_high))
  | Disabled => Disabled
  end.

Definition all_lang (fl : InternalFlags) : list Z :=
  match fl with
  | Enabled f => merge_sort Z.le (elements f.(lang))
  | Disabled => []
  end.

Section gather.
  (** The iteration orders of the two [HashSet]s, which Rust leaves open. *)
  Variable iter_core : gset CoreInternalFlags -> list CoreInternalFlags.
  Variable iter_lang : gset Z -> list Z.

Definition gather_for_wft_complete (fl : InternalFlags)
  : InternalFlags * WorkflowTaskCompletedMetadata :=
  match fl with
  | Enabled f =>
      (Enabled {| core := f.(core) ∪ f.(core_since_last_complete);
                  lang := f.(lang) ∪ f.(lang_since_last_complete);
                  core_since_last_complete := f.(core_since_last_complete);
                  lang_since_last_complete := f.(lang_since_last_complete);
                  last_sdk_name := f.(last_sdk_name); last_sdk_version := f.(last_sdk_version);
                  sdk_name := f.(sdk_name); sdk_version := f.(sdk_version) |},
       {| core_used_flags :=
            as_u32 <$> filter (fun c => c ∉ f.(core)) (iter_core f.(core_since_last_complete));
          lang_used_flags :=
            filter (fun l => l ∉ f.(lang)) (iter_lang f.(lang_since_last_complete));
          md_sdk_name :=
            if String.eqb f.(last_sdk_name) f.(sdk_name) then "" else f.(sdk_name);
          md_sdk_version :=
            if String.eqb f.(last_sdk_version) f.(sdk_version) then "" else f.(sdk_version) |})
  | Disabled => (Disabled, WorkflowTaskCompletedMetadata_default)
  end.

End gather.

(** ** Properties *)

(** One workflow task of a live worker: the core flags it may use (recorded),
    the flags lang reports, then the completion. *)
Record TaskUse := { used_core : list CoreInternalFlags; used_lang : list Z }.

Definition use_all (t : TaskUse) (fl : InternalFlags) : InternalFlags :=
  add_lang_used t.(used_lang)
    (foldl (fun acc c => (try_use c true acc).1) fl t.(used_core)).

Section replay.
  Variable iter_core : gset CoreInternalFlags -> list CoreInternalFlags.
  Variable iter_lang : gset Z -> list Z.

  (** The metadata sent by a sequence of completed tasks. *)
Fixpoint live_run (ts : list TaskUse) (fl : InternalFlags)
  : InternalFlags * list WorkflowTaskCompletedMetadata :=
  match ts with
  | [] => (fl, [])
  | t :: ts =>
      let '(fl1, md) := gather_for_wft_complete iter_core iter_lang (use_all t fl) in
      let '(fl2, mds) := live_run ts fl1 in
      (fl2, md :: mds)
  end.

  (** What a worker that replays the history learns. *)
Definition replay_run (mds : list WorkflowTaskCompletedMetadata) (fl : InternalFlags)
  : InternalFlags :=
  foldl (fun acc md => add_from_complete (Some md) acc) fl mds.

End replay.

Definition core_known (fl : InternalFlags) : gset CoreInternalFlags :=
  match fl with Enabled f => f.(core) | Disabled => ∅ end.

Definition lang_known (fl : InternalFlags) : gset Z :=
  match fl with Enabled f => f.(lang) | Disabled => ∅ end.

Definition is_enabled (fl : InternalFlags) : bool :=
  match fl with Enabled _ => true | Disabled => false end.

Lemma use_all_known t fl :
  core_known (use_all t fl) = core_known fl /\
  lang_known (use_all t fl) = lang_known fl /\
  is_enabled (use_all t fl) = is_enabled fl.
Proof.
  unfold use_all. generalize (used_lang t) as ls. generalize (used_core t) as cs.
  intros cs; revert fl; induction cs as [|c cs IH]; intros fl ls; simpl.
  - by destruct fl.
  - destruct (IH (try_use c true fl).1 ls) as (-> & -> & ->). by destruct fl.
Qed.

Lemma from_u32_list (l : list CoreInternalFlags) : from_u32 <$> (as_u32 <$> l) = l.
Proof. induction l as [|c l IH]; csimpl; [done|]. by rewrite from_u32_as_u32, IH. Qed.

Section replay_proofs.
  Variable iter_core : gset CoreInternalFlags -> list CoreInternalFlags.
  Variable iter_lang : gset Z -> list Z.
  Hypothesis iter_core_elements : forall s, iter_core s ≡ₚ elements s.
  Hypothesis iter_lang_elements : forall s, iter_lang s ≡ₚ elements s.

Lemma gather_absorbed fl r fl' md :
  gather_for_wft_complete iter_core iter_lang fl = (fl', md) ->
  core_known fl = core_known r -> lang_known fl = lang_known r ->
  is_enabled fl = is_enabled r ->
  core_known fl' = core_known (add_from_complete (Some md) r) /\
  lang_known fl' = lang_known (add_from_complete (Some md) r) /\
  is_enabled fl' = is_enabled (add_from_complete (Some md) r).
Proof.
  destruct fl as [f|], r as [g|]; simpl; intros [= <- <-] Hc Hl He; try done.
  simpl. rewrite from_u32_list, <- Hc, <- Hl. split_and!; [| |done].
  - apply set_eq; intros c. rewrite !elem_of_union, elem_of_list_to_set, list_elem_of_filter.
    rewrite (iter_core_elements _), elem_of_elements. destruct (decide (c ∈ core f)); tauto.
  - apply set_eq; intros c. rewrite !elem_of_union, elem_of_list_to_set, list_elem_of_filter.
    rewrite (iter_lang_elements _), elem_of_elements. destruct (decide (c ∈ lang f)); tauto.
Qed.

Lemma live_run_absorbed ts fl r fl' mds :
  live_run iter_core iter_lang ts fl = (fl', mds) ->
  core_known fl = core_known r -> lang_known fl = lang_known r ->
  is_enabled fl = is_enabled r ->
  core_known fl' = core_known (replay_run mds r) /\
  lang_known fl' = lang_known (replay_run mds r) /\
  is_enabled fl' = is_enabled (replay_run mds r).
Proof.
  revert fl r fl' mds. induction ts as [|t ts IH]; intros fl r fl' mds; simpl.
  - by intros [= <- <-].
  - destruct (gather_for_wft_complete _ _ _) as [fl1 md] eqn:Hg.
    destruct (live_run _ _ ts fl1) as [fl2 mds'] eqn:Hl. intros [= <- <-] Hc Hla He.
    destruct (use_all_known t fl) as (Hc' & Hl' & He').
    destruct (gather_absorbed _ r _ _ Hg) as (? & ? & ?); [congruence..|].
    by apply (IH fl1 (add_from_complete (Some md) r)).
Qed.

(** C29 (determinism of flags): after any sequence of live workflow tasks, a worker
    that replays the recorded completions knows exactly the core and lang flags
    the live worker knew, so every flag check made while replaying is answered
    as after the live tasks. *)
Theorem replayed_flags_agree name version ts live mds flag :
  live_run iter_core iter_lang ts (InternalFlags_new true name version) = (live, mds) ->
  let replayed := replay_run mds (InternalFlags_new true name version) in
  core_known replayed = core_known live /\
  all_lang replayed = all_lang live /\
  (try_use flag false replayed).2 = (try_use flag false live).2.
Proof.
  intros H replayed.
  destruct (live_run_absorbed _ _ _ _ _ H eq_refl eq_refl eq_refl) as (Hc & Hl & He).
  subst replayed. revert Hc Hl He. generalize (replay_run mds (InternalFlags_new true name version)).
  intros [g|]; destruct live as [f|]; simpl; intros Hc Hl He; try done.
  rewrite Hc, Hl. split_and!; done.
Qed.

End replay_proofs.

Lemma replayed_flags_agree_witness :
  let r := replay_run
    [{| core_used_flags := [3%Z]; lang_used_flags := [7%Z]; md_sdk_name := "n"; md_sdk_version := "v" |}]
    (InternalFlags_new true "n" "v") in
  (try_use MoveTerminalCommands false r).2 = true /\ all_lang r = [7%Z].
Proof.
  pose (ts := [{| used_core := [MoveTerminalCommands]; used_lang := [7%Z] |}]).
  destruct (replayed_flags_agree elements elements (fun _ => reflexivity _) (fun _ => reflexivity _)
    "n" "v" ts _ _ MoveTerminalCommands eq_refl) as (_ & Hl & Hu).
  split; [exact Hu | exact Hl].
Defined.
