(* ===== verification/Protos.v ===== *)
(** * Protocol messages (sdk-core-protos/protos)

    The protobuf messages the state machines read and build, field by field.
    A singular message field is an [option], a repeated field a [list], a map
    a [gmap], bytes are byte strings, a [double] is its 64-bit pattern as a [Z]
    and an enum field its raw [i32], converted with [*_try_from].  Fields whose
    types no modelled code touches (some deprecated version stamps, callbacks, links,
    reset points, versioning overrides, metering) are left out.  [*_default] is
    prost's [Default]. *)
From Stdlib Require Import ZArith.
From stdpp Require Import base option list strings gmap.
From S2P Require Import Prelude Flags.

(** ** Well-known types *)
Record Duration := { Duration_seconds : Z; Duration_nanos : Z }.
Record Timestamp := { Timestamp_seconds : Z; Timestamp_nanos : Z }.
Record Any := { Any_type_url : string; Any_value : string }.

Record Payload := { Payload_metadata : gmap string string; Payload_data : string }.
Record Payloads := { Payloads_payloads : list Payload }.

(** ** Enumerations *)

Inductive EventType :=
| ET_Unspecified
| ET_WorkflowExecutionStarted
| ET_WorkflowExecutionCompleted
| ET_WorkflowExecutionFailed
| ET_WorkflowExecutionTimedOut
| ET_WorkflowTaskScheduled
| ET_WorkflowTaskStarted
| ET_WorkflowTaskCompleted
| ET_WorkflowTaskTimedOut
| ET_WorkflowTaskFailed
| ET_ActivityTaskScheduled
| ET_ActivityTaskStarted
| ET_ActivityTaskCompleted
| ET_ActivityTaskFailed
| ET_ActivityTaskTimedOut
| ET_ActivityTaskCancelRequested
| ET_ActivityTaskCanceled
| ET_TimerStarted
| ET_TimerFired
| ET_TimerCanceled
| ET_WorkflowExecutionCancelRequested
| ET_WorkflowExecutionCanceled
| ET_RequestCancelExternalWorkflowExecutionInitiated
| ET_RequestCancelExternalWorkflowExecutionFailed
| ET_ExternalWorkflowExecutionCancelRequested
| ET_MarkerRecorded
| ET_WorkflowExecutionSignaled
| ET_WorkflowExecutionTerminated
| ET_WorkflowExecutionContinuedAsNew
| ET_StartChildWorkflowExecutionInitiated
| ET_StartChildWorkflowExecutionFailed
| ET_ChildWorkflowExecutionStarted
| ET_ChildWorkflowExecutionCompleted
| ET_ChildWorkflowExecutionFailed
| ET_ChildWorkflowExecutionCanceled
| ET_ChildWorkflowExecutionTimedOut
| ET_ChildWorkflowExecutionTerminated
| ET_SignalExternalWorkflowExecutionInitiated
| ET_SignalExternalWorkflowExecutionFailed
| ET_ExternalWorkflowExecutionSignaled
| ET_UpsertWorkflowSearchAttributes
| ET_WorkflowExecutionUpdateAdmitted
| ET_WorkflowExecutionUpdateAccepted
| ET_WorkflowExecutionUpdateRejected
| ET_WorkflowExecutionUpdateCompleted
| ET_WorkflowPropertiesModifiedExternally
| ET_ActivityPropertiesModifiedExternally
| ET_WorkflowPropertiesModified
| ET_NexusOperationScheduled
| ET_NexusOperationStarted
| ET_NexusOperationCompleted
| ET_NexusOperationFailed
| ET_NexusOperationCanceled
| ET_NexusOperationTimedOut
| ET_NexusOperationCancelRequested
| ET_WorkflowExecutionOptionsUpdated
| ET_NexusOperationCancelRequestCompleted
| ET_NexusOperationCancelRequestFailed.

#[global] Instance EventType_eq_dec : EqDecision EventType.
Proof. solve_decision. Defined.

Definition EventType_as_i32 (x : EventType) : Z :=
  match x with
  | ET_Unspecified => 0
  | ET_WorkflowExecutionStarted => 1
  | ET_WorkflowExecutionCompleted => 2
  | ET_WorkflowExecutionFailed => 3
  | ET_WorkflowExecutionTimedOut => 4
  | ET_WorkflowTaskScheduled => 5
  | ET_WorkflowTaskStarted => 6
  | ET_WorkflowTaskCompleted => 7
  | ET_WorkflowTaskTimedOut => 8
  | ET_WorkflowTaskFailed => 9
  | ET_ActivityTaskScheduled => 10
  | ET_ActivityTaskStarted => 11
  | ET_ActivityTaskCompleted => 12
  | ET_ActivityTaskFailed => 13
  | ET_ActivityTaskTimedOut => 14
  | ET_ActivityTaskCancelRequested => 15
  | ET_ActivityTaskCanceled => 16
  | ET_TimerStarted => 17
  | ET_TimerFired => 18
  | ET_TimerCanceled => 19
  | ET_WorkflowExecutionCancelRequested => 20
  | ET_WorkflowExecutionCanceled => 21
  | ET_RequestCancelExternalWorkflowExecutionInitiated => 22
  | ET_RequestCancelExternalWorkflowExecutionFailed => 23
  | ET_ExternalWorkflowExecutionCancelRequested => 24
  | ET_MarkerRecorded => 25
  | ET_WorkflowExecutionSignaled => 26
  | ET_WorkflowExecutionTerminated => 27
  | ET_WorkflowExecutionContinuedAsNew => 28
  | ET_StartChildWorkflowExecutionInitiated => 29
  | ET_StartChildWorkflowExecutionFailed => 30
  | ET_ChildWorkflowExecutionStarted => 31
  | ET_ChildWorkflowExecutionCompleted => 32
  | ET_ChildWorkflowExecutionFailed => 33
  | ET_ChildWorkflowExecutionCanceled => 34
  | ET_ChildWorkflowExecutionTimedOut => 35
  | ET_ChildWorkflowExecutionTerminated => 36
  | ET_SignalExternalWorkflowExecutionInitiated => 37
  | ET_SignalExternalWorkflowExecutionFailed => 38
  | ET_ExternalWorkflowExecutionSignaled => 39
  | ET_UpsertWorkflowSearchAttributes => 40
  | ET_WorkflowExecutionUpdateAdmitted => 47
  | ET_WorkflowExecutionUpdateAccepted => 41
  | ET_WorkflowExecutionUpdateRejected => 42
  | ET_WorkflowExecutionUpdateCompleted => 43
  | ET_WorkflowPropertiesModifiedExternally => 44
  | ET_ActivityPropertiesModifiedExternally => 45
  | ET_WorkflowPropertiesModified => 46
  | ET_NexusOperationScheduled => 48
  | ET_NexusOperationStarted => 49
  | ET_NexusOperationCompleted => 50
  | ET_NexusOperationFailed => 51
  | ET_NexusOperationCanceled => 52
  | ET_NexusOperationTimedOut => 53
  | ET_NexusOperationCancelRequested => 54
  | ET_WorkflowExecutionOptionsUpdated => 55
  | ET_NexusOperationCancelRequestCompleted => 56
  | ET_NexusOperationCancelRequestFailed => 57
  end.

Definition EventType_try_from (z : Z) : option EventType :=
  match z with
  | 0%Z => Some ET_Unspecified
  | 1%Z => Some ET_WorkflowExecutionStarted
  | 2%Z => Some ET_WorkflowExecutionCompleted
  | 3%Z => Some ET_WorkflowExecutionFailed
  | 4%Z => Some ET_WorkflowExecutionTimedOut
  | 5%Z => Some ET_WorkflowTaskScheduled
  | 6%Z => Some ET_WorkflowTaskStarted
  | 7%Z => Some ET_WorkflowTaskCompleted
  | 8%Z => Some ET_WorkflowTaskTimedOut
  | 9%Z => Some ET_WorkflowTaskFailed
  | 10%Z => Some ET_ActivityTaskScheduled
  | 11%Z => Some ET_ActivityTaskStarted
  | 12%Z => Some ET_ActivityTaskCompleted
  | 13%Z => Some ET_ActivityTaskFailed
  | 14%Z => Some ET_ActivityTaskTimedOut
  | 15%Z => Some ET_ActivityTaskCancelRequested
  | 16%Z => Some ET_ActivityTaskCanceled
  | 17%Z => Some ET_TimerStarted
  | 18%Z => Some ET_TimerFired
  | 19%Z => Some ET_TimerCanceled
  | 20%Z => Some ET_WorkflowExecutionCancelRequested
  | 21%Z => Some ET_WorkflowExecutionCanceled
  | 22%Z => Some ET_RequestCancelExternalWorkflowExecutionInitiated
  | 23%Z => Some ET_RequestCancelExternalWorkflowExecutionFailed
  | 24%Z => Some ET_ExternalWorkflowExecutionCancelRequested
  | 25%Z => Some ET_MarkerRecorded
  | 26%Z => Some ET_WorkflowExecutionSignaled
  | 27%Z => Some ET_WorkflowExecutionTerminated
  | 28%Z => Some ET_WorkflowExecutionContinuedAsNew
  | 29%Z => Some ET_StartChildWorkflowExecutionInitiated
  | 30%Z => Some ET_StartChildWorkflowExecutionFailed
  | 31%Z => Some ET_ChildWorkflowExecutionStarted
  | 32%Z => Some ET_ChildWorkflowExecutionCompleted
  | 33%Z => Some ET_ChildWorkflowExecutionFailed
  | 34%Z => Some ET_ChildWorkflowExecutionCanceled
  | 35%Z => Some ET_ChildWorkflowExecutionTimedOut
  | 36%Z => Some ET_ChildWorkflowExecutionTerminated
  | 37%Z => Some ET_SignalExternalWorkflowExecutionInitiated
  | 38%Z => Some ET_SignalExternalWorkflowExecutionFailed
  | 39%Z => Some ET_ExternalWorkflowExecutionSignaled
  | 40%Z => Some ET_UpsertWorkflowSearchAttributes
  | 47%Z => Some ET_WorkflowExecutionUpdateAdmitted
  | 41%Z => Some ET_WorkflowExecutionUpdateAccepted
  | 42%Z => Some ET_WorkflowExecutionUpdateRejected
  | 43%Z => Some ET_WorkflowExecutionUpdateCompleted
  | 44%Z => Some ET_WorkflowPropertiesModifiedExternally
  | 45%Z => Some ET_ActivityPropertiesModifiedExternally
  | 46%Z => Some ET_WorkflowPropertiesModified
  | 48%Z => Some ET_NexusOperationScheduled
  | 49%Z => Some ET_NexusOperationStarted
  | 50%Z => Some ET_NexusOperationCompleted
  | 51%Z => Some ET_NexusOperationFailed
  | 52%Z => Some ET_NexusOperationCanceled
  | 53%Z => Some ET_NexusOperationTimedOut
  | 54%Z => Some ET_NexusOperationCancelRequested
  | 55%Z => Some ET_WorkflowExecutionOptionsUpdated
  | 56%Z => Some ET_NexusOperationCancelRequestCompleted
  | 57%Z => Some ET_NexusOperationCancelRequestFailed
  | _ => None
  end.

(** Display of the variant, as [derive(Debug)] prints it. *)
Definition EventType_debug (x : EventType) : string :=
  match x with
  | ET_Unspecified => "Unspecified"
  | ET_WorkflowExecutionStarted => "WorkflowExecutionStarted"
  | ET_WorkflowExecutionCompleted => "WorkflowExecutionCompleted"
  | ET_WorkflowExecutionFailed => "WorkflowExecutionFailed"
  | ET_WorkflowExecutionTimedOut => "WorkflowExecutionTimedOut"
  | ET_WorkflowTaskScheduled => "WorkflowTaskScheduled"
  | ET_WorkflowTaskStarted => "WorkflowTaskStarted"
  | ET_WorkflowTaskCompleted => "WorkflowTaskCompleted"
  | ET_WorkflowTaskTimedOut => "WorkflowTaskTimedOut"
  | ET_WorkflowTaskFailed => "WorkflowTaskFailed"
  | ET_ActivityTaskScheduled => "ActivityTaskScheduled"
  | ET_ActivityTaskStarted => "ActivityTaskStarted"
  | ET_ActivityTaskCompleted => "ActivityTaskCompleted"
  | ET_ActivityTaskFailed => "ActivityTaskFailed"
  | ET_ActivityTaskTimedOut => "ActivityTaskTimedOut"
  | ET_ActivityTaskCancelRequested => "ActivityTaskCancelRequested"
  | ET_ActivityTaskCanceled => "ActivityTaskCanceled"
  | ET_TimerStarted => "TimerStarted"
  | ET_TimerFired => "TimerFired"
  | ET_TimerCanceled => "TimerCanceled"
  | ET_WorkflowExecutionCancelRequested => "WorkflowExecutionCancelRequested"
  | ET_WorkflowExecutionCanceled => "WorkflowExecutionCanceled"
  | ET_RequestCancelExternalWorkflowExecutionInitiated => "RequestCancelExternalWorkflowExecutionInitiated"
  | ET_RequestCancelExternalWorkflowExecutionFailed => "RequestCancelExternalWorkflowExecutionFailed"
  | ET_ExternalWorkflowExecutionCancelRequested => "ExternalWorkflowExecutionCancelRequested"
  | ET_MarkerRecorded => "MarkerRecorded"
  | ET_WorkflowExecutionSignaled => "WorkflowExecutionSignaled"
  | ET_WorkflowExecutionTerminated => "WorkflowExecutionTerminated"
  | ET_WorkflowExecutionContinuedAsNew => "WorkflowExecutionContinuedAsNew"
  | ET_StartChildWorkflowExecutionInitiated => "StartChildWorkflowExecutionInitiated"
  | ET_StartChildWorkflowExecutionFailed => "StartChildWorkflowExecutionFailed"
  | ET_ChildWorkflowExecutionStarted => "ChildWorkflowExecutionStarted"
  | ET_ChildWorkflowExecutionCompleted => "ChildWorkflowExecutionCompleted"
  | ET_ChildWorkflowExecutionFailed => "ChildWorkflowExecutionFailed"
  | ET_ChildWorkflowExecutionCanceled => "ChildWorkflowExecutionCanceled"
  | ET_ChildWorkflowExecutionTimedOut => "ChildWorkflowExecutionTimedOut"
  | ET_ChildWorkflowExecutionTerminated => "ChildWorkflowExecutionTerminated"
  | ET_SignalExternalWorkflowExecutionInitiated => "SignalExternalWorkflowExecutionInitiated"
  | ET_SignalExternalWorkflowExecutionFailed => "SignalExternalWorkflowExecutionFailed"
  | ET_ExternalWorkflowExecutionSignaled => "ExternalWorkflowExecutionSignaled"
  | ET_UpsertWorkflowSearchAttributes => "UpsertWorkflowSearchAttributes"
  | ET_WorkflowExecutionUpdateAdmitted => "WorkflowExecutionUpdateAdmitted"
  | ET_WorkflowExecutionUpdateAccepted => "WorkflowExecutionUpdateAccepted"
  | ET_WorkflowExecutionUpdateRejected => "WorkflowExecutionUpdateRejected"
  | ET_WorkflowExecutionUpdateCompleted => "WorkflowExecutionUpdateCompleted"
  | ET_WorkflowPropertiesModifiedExternally => "WorkflowPropertiesModifiedExternally"
  | ET_ActivityPropertiesModifiedExternally => "ActivityPropertiesModifiedExternally"
  | ET_WorkflowPropertiesModified => "WorkflowPropertiesModified"
  | ET_NexusOperationScheduled => "NexusOperationScheduled"
  | ET_NexusOperationStarted => "NexusOperationStarted"
  | ET_NexusOperationCompleted => "NexusOperationCompleted"
  | ET_NexusOperationFailed => "NexusOperationFailed"
  | ET_NexusOperationCanceled => "NexusOperationCanceled"
  | ET_NexusOperationTimedOut => "NexusOperationTimedOut"
  | ET_NexusOperationCancelRequested => "NexusOperationCancelRequested"
  | ET_WorkflowExecutionOptionsUpdated => "WorkflowExecutionOptionsUpdated"
  | ET_NexusOperationCancelRequestCompleted => "NexusOperationCancelRequestCompleted"
  | ET_NexusOperationCancelRequestFailed => "NexusOperationCancelRequestFailed"
  end.

(** prost [as_str_name]: the name in the .proto file. *)
Definition EventType_as_str_name (x : EventType) : string :=
  match x with
  | ET_Unspecified => "EVENT_TYPE_UNSPECIFIED"
  | ET_WorkflowExecutionStarted => "EVENT_TYPE_WORKFLOW_EXECUTION_STARTED"
  | ET_WorkflowExecutionCompleted => "EVENT_TYPE_WORKFLOW_EXECUTION_COMPLETED"
  | ET_WorkflowExecutionFailed => "EVENT_TYPE_WORKFLOW_EXECUTION_FAILED"
  | ET_WorkflowExecutionTimedOut => "EVENT_TYPE_WORKFLOW_EXECUTION_TIMED_OUT"
  | ET_WorkflowTaskScheduled => "EVENT_TYPE_WORKFLOW_TASK_SCHEDULED"
  | ET_WorkflowTaskStarted => "EVENT_TYPE_WORKFLOW_TASK_STARTED"
  | ET_WorkflowTaskCompleted => "EVENT_TYPE_WORKFLOW_TASK_COMPLETED"
  | ET_WorkflowTaskTimedOut => "EVENT_TYPE_WORKFLOW_TASK_TIMED_OUT"
  | ET_WorkflowTaskFailed => "EVENT_TYPE_WORKFLOW_TASK_FAILED"
  | ET_ActivityTaskScheduled => "EVENT_TYPE_ACTIVITY_TASK_SCHEDULED"
  | ET_ActivityTaskStarted => "EVENT_TYPE_ACTIVITY_TASK_STARTED"
  | ET_ActivityTaskCompleted => "EVENT_TYPE_ACTIVITY_TASK_COMPLETED"
  | ET_ActivityTaskFailed => "EVENT_TYPE_ACTIVITY_TASK_FAILED"
  | ET_ActivityTaskTimedOut => "EVENT_TYPE_ACTIVITY_TASK_TIMED_OUT"
  | ET_ActivityTaskCancelRequested => "EVENT_TYPE_ACTIVITY_TASK_CANCEL_REQUESTED"
  | ET_ActivityTaskCanceled => "EVENT_TYPE_ACTIVITY_TASK_CANCELED"
  | ET_TimerStarted => "EVENT_TYPE_TIMER_STARTED"
  | ET_TimerFired => "EVENT_TYPE_TIMER_FIRED"
  | ET_TimerCanceled => "EVENT_TYPE_TIMER_CANCELED"
  | ET_WorkflowExecutionCancelRequested => "EVENT_TYPE_WORKFLOW_EXECUTION_CANCEL_REQUESTED"
  | ET_WorkflowExecutionCanceled => "EVENT_TYPE_WORKFLOW_EXECUTION_CANCELED"
  | ET_RequestCancelExternalWorkflowExecutionInitiated => "EVENT_TYPE_REQUEST_CANCEL_EXTERNAL_WORKFLOW_EXECUTION_INITIATED"
  | ET_RequestCancelExternalWorkflowExecutionFailed => "EVENT_TYPE_REQUEST_CANCEL_EXTERNAL_WORKFLOW_EXECUTION_FAILED"
  | ET_ExternalWorkflowExecutionCancelRequested => "EVENT_TYPE_EXTERNAL_WORKFLOW_EXECUTION_CANCEL_REQUESTED"
  | ET_MarkerRecorded => "EVENT_TYPE_MARKER_RECORDED"
  | ET_WorkflowExecutionSignaled => "EVENT_TYPE_WORKFLOW_EXECUTION_SIGNALED"
  | ET_WorkflowExecutionTerminated => "EVENT_TYPE_WORKFLOW_EXECUTION_TERMINATED"
  | ET_WorkflowExecutionContinuedAsNew => "EVENT_TYPE_WORKFLOW_EXECUTION_CONTINUED_AS_NEW"
  | ET_StartChildWorkflowExecutionInitiated => "EVENT_TYPE_START_CHILD_WORKFLOW_EXECUTION_INITIATED"
  | ET_StartChildWorkflowExecutionFailed => "EVENT_TYPE_START_CHILD_WORKFLOW_EXECUTION_FAILED"
  | ET_ChildWorkflowExecutionStarted => "EVENT_TYPE_CHILD_WORKFLOW_EXECUTION_STARTED"
  | ET_ChildWorkflowExecutionCompleted => "EVENT_TYPE_CHILD_WORKFLOW_EXECUTION_COMPLETED"
  | ET_ChildWorkflowExecutionFailed => "EVENT_TYPE_CHILD_WORKFLOW_EXECUTION_FAILED"
  | ET_ChildWorkflowExecutionCanceled => "EVENT_TYPE_CHILD_WORKFLOW_EXECUTION_CANCELED"
  | ET_ChildWorkflowExecutionTimedOut => "EVENT_TYPE_CHILD_WORKFLOW_EXECUTION_TIMED_OUT"
  | ET_ChildWorkflowExecutionTerminated => "EVENT_TYPE_CHILD_WORKFLOW_EXECUTION_TERMINATED"
  | ET_SignalExternalWorkflowExecutionInitiated => "EVENT_TYPE_SIGNAL_EXTERNAL_WORKFLOW_EXECUTION_INITIATED"
  | ET_SignalExternalWorkflowExecutionFailed => "EVENT_TYPE_SIGNAL_EXTERNAL_WORKFLOW_EXECUTION_FAILED"
  | ET_ExternalWorkflowExecutionSignaled => "EVENT_TYPE_EXTERNAL_WORKFLOW_EXECUTION_SIGNALED"
  | ET_UpsertWorkflowSearchAttributes => "EVENT_TYPE_UPSERT_WORKFLOW_SEARCH_ATTRIBUTES"
  | ET_WorkflowExecutionUpdateAdmitted => "EVENT_TYPE_WORKFLOW_EXECUTION_UPDATE_ADMITTED"
  | ET_WorkflowExecutionUpdateAccepted => "EVENT_TYPE_WORKFLOW_EXECUTION_UPDATE_ACCEPTED"
  | ET_WorkflowExecutionUpdateRejected => "EVENT_TYPE_WORKFLOW_EXECUTION_UPDATE_REJECTED"
  | ET_WorkflowExecutionUpdateCompleted => "EVENT_TYPE_WORKFLOW_EXECUTION_UPDATE_COMPLETED"
  | ET_WorkflowPropertiesModifiedExternally => "EVENT_TYPE_WORKFLOW_PROPERTIES_MODIFIED_EXTERNALLY"
  | ET_ActivityPropertiesModifiedExternally => "EVENT_TYPE_ACTIVITY_PROPERTIES_MODIFIED_EXTERNALLY"
  | ET_WorkflowPropertiesModified => "EVENT_TYPE_WORKFLOW_PROPERTIES_MODIFIED"
  | ET_NexusOperationScheduled => "EVENT_TYPE_NEXUS_OPERATION_SCHEDULED"
  | ET_NexusOperationStarted => "EVENT_TYPE_NEXUS_OPERATION_STARTED"
  | ET_NexusOperationCompleted => "EVENT_TYPE_NEXUS_OPERATION_COMPLETED"
  | ET_NexusOperationFailed => "EVENT_TYPE_NEXUS_OPERATION_FAILED"
  | ET_NexusOperationCanceled => "EVENT_TYPE_NEXUS_OPERATION_CANCELED"
  | ET_NexusOperationTimedOut => "EVENT_TYPE_NEXUS_OPERATION_TIMED_OUT"
  | ET_NexusOperationCancelRequested => "EVENT_TYPE_NEXUS_OPERATION_CANCEL_REQUESTED"
  | ET_WorkflowExecutionOptionsUpdated => "EVENT_TYPE_WORKFLOW_EXECUTION_OPTIONS_UPDATED"
  | ET_NexusOperationCancelRequestCompleted => "EVENT_TYPE_NEXUS_OPERATION_CANCEL_REQUEST_COMPLETED"
  | ET_NexusOperationCancelRequestFailed => "EVENT_TYPE_NEXUS_OPERATION_CANCEL_REQUEST_FAILED"
  end.

Inductive CommandType :=
| CT_Unspecified
| CT_ScheduleActivityTask
| CT_RequestCancelActivityTask
| CT_StartTimer
| CT_CompleteWorkflowExecution
| CT_FailWorkflowExecution
| CT_CancelTimer
| CT_CancelWorkflowExecution
| CT_RequestCancelExternalWorkflowExecution
| CT_RecordMarker
| CT_ContinueAsNewWorkflowExecution
| CT_StartChildWorkflowExecution
| CT_SignalExternalWorkflowExecution
| CT_UpsertWorkflowSearchAttributes
| CT_ProtocolMessage
| CT_ModifyWorkflowProperties
| CT_ScheduleNexusOperation
| CT_RequestCancelNexusOperation.

#[global] Instance CommandType_eq_dec : EqDecision CommandType.
Proof. solve_decision. Defined.

Definition CommandType_as_i32 (x : CommandType) : Z :=
  match x with
  | CT_Unspecified => 0
  | CT_ScheduleActivityTask => 1
  | CT_RequestCancelActivityTask => 2
  | CT_StartTimer => 3
  | CT_CompleteWorkflowExecution => 4
  | CT_FailWorkflowExecution => 5
  | CT_CancelTimer => 6
  | CT_CancelWorkflowExecution => 7
  | CT_RequestCancelExternalWorkflowExecution => 8
  | CT_RecordMarker => 9
  | CT_ContinueAsNewWorkflowExecution => 10
  | CT_StartChildWorkflowExecution => 11
  | CT_SignalExternalWorkflowExecution => 12
  | CT_UpsertWorkflowSearchAttributes => 13
  | CT_ProtocolMessage => 14
  | CT_ModifyWorkflowProperties => 16
  | CT_ScheduleNexusOperation => 17
  | CT_RequestCancelNexusOperation => 18
  end.

Definition CommandType_try_from (z : Z) : option CommandType :=
  match z with
  | 0%Z => Some CT_Unspecified
  | 1%Z => Some CT_ScheduleActivityTask
  | 2%Z => Some CT_RequestCancelActivityTask
  | 3%Z => Some CT_StartTimer
  | 4%Z => Some CT_CompleteWorkflowExecution
  | 5%Z => Some CT_FailWorkflowExecution
  | 6%Z => Some CT_CancelTimer
  | 7%Z => Some CT_CancelWorkflowExecution
  | 8%Z => Some CT_RequestCancelExternalWorkflowExecution
  | 9%Z => Some CT_RecordMarker
  | 10%Z => Some CT_ContinueAsNewWorkflowExecution
  | 11%Z => Some CT_StartChildWorkflowExecution
  | 12%Z => Some CT_SignalExternalWorkflowExecution
  | 13%Z => Some CT_UpsertWorkflowSearchAttributes
  | 14%Z => Some CT_ProtocolMessage
  | 16%Z => Some CT_ModifyWorkflowProperties
  | 17%Z => Some CT_ScheduleNexusOperation
  | 18%Z => Some CT_RequestCancelNexusOperation
  | _ => None
  end.

(** Display of the variant, as [derive(Debug)] prints it. *)
Definition CommandType_debug (x : CommandType) : string :=
  match x with
  | CT_Unspecified => "Unspecified"
  | CT_ScheduleActivityTask => "ScheduleActivityTask"
  | CT_RequestCancelActivityTask => "RequestCancelActivityTask"
  | CT_StartTimer => "StartTimer"
  | CT_CompleteWorkflowExecution => "CompleteWorkflowExecution"
  | CT_FailWorkflowExecution => "FailWorkflowExecution"
  | CT_CancelTimer => "CancelTimer"
  | CT_CancelWorkflowExecution => "CancelWorkflowExecution"
  | CT_RequestCancelExternalWorkflowExecution => "RequestCancelExternalWorkflowExecution"
  | CT_RecordMarker => "RecordMarker"
  | CT_ContinueAsNewWorkflowExecution => "ContinueAsNewWorkflowExecution"
  | CT_StartChildWorkflowExecution => "StartChildWorkflowExecution"
  | CT_SignalExternalWorkflowExecution => "SignalExternalWorkflowExecution"
  | CT_UpsertWorkflowSearchAttributes => "UpsertWorkflowSearchAttributes"
  | CT_ProtocolMessage => "ProtocolMessage"
  | CT_ModifyWorkflowProperties => "ModifyWorkflowProperties"
  | CT_ScheduleNexusOperation => "ScheduleNexusOperation"
  | CT_RequestCancelNexusOperation => "RequestCancelNexusOperation"
  end.

Inductive ActivityCancellationType :=
| ACT_TryCancel
| ACT_WaitCancellationCompleted
| ACT_Abandon.

#[global] Instance ActivityCancellationType_eq_dec : EqDecision ActivityCancellationType.
Proof. solve_decision. Defined.

Definition ActivityCancellationType_as_i32 (x : ActivityCancellationType) : Z :=
  match x with
  | ACT_TryCancel => 0
  | ACT_WaitCancellationCompleted => 1
  | ACT_Abandon => 2
  end.

Definition ActivityCancellationType_try_from (z : Z) : option ActivityCancellationType :=
  match z with
  | 0%Z => Some ACT_TryCancel
  | 1%Z => Some ACT_WaitCancellationCompleted
  | 2%Z => Some ACT_Abandon
  | _ => None
  end.

Inductive ChildWorkflowCancellationType :=
| CWCT_Abandon
| CWCT_TryCancel
| CWCT_WaitCancellationCompleted
| CWCT_WaitCancellationRequested.

#[global] Instance ChildWorkflowCancellationType_eq_dec : EqDecision ChildWorkflowCancellationType.
Proof. solve_decision. Defined.

Definition ChildWorkflowCancellationType_as_i32 (x : ChildWorkflowCancellationType) : Z :=
  match x with
  | CWCT_Abandon => 0
  | CWCT_TryCancel => 1
  | CWCT_WaitCancellationCompleted => 2
  | CWCT_WaitCancellationRequested => 3
  end.

Definition ChildWorkflowCancellationType_try_from (z : Z) : option ChildWorkflowCancellationType :=
  match z with
  | 0%Z => Some CWCT_Abandon
  | 1%Z => Some CWCT_TryCancel
  | 2%Z => Some CWCT_WaitCancellationCompleted
  | 3%Z => Some CWCT_WaitCancellationRequested
  | _ => None
  end.

Inductive NexusOperationCancellationType :=
| NOCT_WaitCancellationCompleted
| NOCT_Abandon
| NOCT_TryCancel
| NOCT_WaitCancellationRequested.

#[global] Instance NexusOperationCancellationType_eq_dec : EqDecision NexusOperationCancellationType.
Proof. solve_decision. Defined.

Definition NexusOperationCancellationType_as_i32 (x : NexusOperationCancellationType) : Z :=
  match x with
  | NOCT_WaitCancellationCompleted => 0
  | NOCT_Abandon => 1
  | NOCT_TryCancel => 2
  | NOCT_WaitCancellationRequested => 3
  end.

Definition NexusOperationCancellationType_try_from (z : Z) : option NexusOperationCancellationType :=
  match z with
  | 0%Z => Some NOCT_WaitCancellationCompleted
  | 1%Z => Some NOCT_Abandon
  | 2%Z => Some NOCT_TryCancel
  | 3%Z => Some NOCT_WaitCancellationRequested
  | _ => None
  end.

Inductive RetryState :=
| RetryState_Unspecified
| RetryState_InProgress
| RetryState_NonRetryableFailure
| RetryState_Timeout
| RetryState_MaximumAttemptsReached
| RetryState_RetryPolicyNotSet
| RetryState_InternalServerError
| RetryState_CancelRequested.

#[global] Instance RetryState_eq_dec : EqDecision RetryState.
Proof. solve_decision. Defined.

Definition RetryState_as_i32 (x : RetryState) : Z :=
  match x with
  | RetryState_Unspecified => 0
  | RetryState_InProgress => 1
  | RetryState_NonRetryableFailure => 2
  | RetryState_Timeout => 3
  | RetryState_MaximumAttemptsReached => 4
  | RetryState_RetryPolicyNotSet => 5
  | RetryState_InternalServerError => 6
  | RetryState_CancelRequested => 7
  end.

Definition RetryState_try_from (z : Z) : option RetryState :=
  match z with
  | 0%Z => Some RetryState_Unspecified
  | 1%Z => Some RetryState_InProgress
  | 2%Z => Some RetryState_NonRetryableFailure
  | 3%Z => Some RetryState_Timeout
  | 4%Z => Some RetryState_MaximumAttemptsReached
  | 5%Z => Some RetryState_RetryPolicyNotSet
  | 6%Z => Some RetryState_InternalServerError
  | 7%Z => Some RetryState_CancelRequested
  | _ => None
  end.

Inductive TimeoutType :=
| TimeoutType_Unspecified
| TimeoutType_StartToClose
| TimeoutType_ScheduleToStart
| TimeoutType_ScheduleToClose
| TimeoutType_Heartbeat.

#[global] Instance TimeoutType_eq_dec : EqDecision TimeoutType.
Proof. solve_decision. Defined.

Definition TimeoutType_as_i32 (x : TimeoutType) : Z :=
  match x with
  | TimeoutType_Unspecified => 0
  | TimeoutType_StartToClose => 1
  | TimeoutType_ScheduleToStart => 2
  | TimeoutType_ScheduleToClose => 3
  | TimeoutType_Heartbeat => 4
  end.

Definition TimeoutType_try_from (z : Z) : option TimeoutType :=
  match z with
  | 0%Z => Some TimeoutType_Unspecified
  | 1%Z => Some TimeoutType_StartToClose
  | 2%Z => Some TimeoutType_ScheduleToStart
  | 3%Z => Some TimeoutType_ScheduleToClose
  | 4%Z => Some TimeoutType_Heartbeat
  | _ => None
  end.

Inductive StartChildWorkflowExecutionFailedCause :=
| SCWFC_Unspecified
| SCWFC_WorkflowAlreadyExists
| SCWFC_NamespaceNotFound.

#[global] Instance StartChildWorkflowExecutionFailedCause_eq_dec : EqDecision StartChildWorkflowExecutionFailedCause.
Proof. solve_decision. Defined.

Definition StartChildWorkflowExecutionFailedCause_as_i32 (x : StartChildWorkflowExecutionFailedCause) : Z :=
  match x with
  | SCWFC_Unspecified => 0
  | SCWFC_WorkflowAlreadyExists => 1
  | SCWFC_NamespaceNotFound => 2
  end.

Definition StartChildWorkflowExecutionFailedCause_try_from (z : Z) : option StartChildWorkflowExecutionFailedCause :=
  match z with
  | 0%Z => Some SCWFC_Unspecified
  | 1%Z => Some SCWFC_WorkflowAlreadyExists
  | 2%Z => Some SCWFC_NamespaceNotFound
  | _ => None
  end.

Inductive CancelExternalWorkflowExecutionFailedCause :=
| CEWFC_Unspecified
| CEWFC_ExternalWorkflowExecutionNotFound
| CEWFC_NamespaceNotFound.

#[global] Instance CancelExternalWorkflowExecutionFailedCause_eq_dec : EqDecision CancelExternalWorkflowExecutionFailedCause.
Proof. solve_decision. Defined.

Definition CancelExternalWorkflowExecutionFailedCause_as_i32 (x : CancelExternalWorkflowExecutionFailedCause) : Z :=
  match x with
  | CEWFC_Unspecified => 0
  | CEWFC_ExternalWorkflowExecutionNotFound => 1
  | CEWFC_NamespaceNotFound => 2
  end.

Definition CancelExternalWorkflowExecutionFailedCause_try_from (z : Z) : option CancelExternalWorkflowExecutionFailedCause :=
  match z with
  | 0%Z => Some CEWFC_Unspecified
  | 1%Z => Some CEWFC_ExternalWorkflowExecutionNotFound
  | 2%Z => Some CEWFC_NamespaceNotFound
  | _ => None
  end.

(** Display of the variant, as [derive(Debug)] prints it. *)
Definition CancelExternalWorkflowExecutionFailedCause_debug (x : CancelExternalWorkflowExecutionFailedCause) : string :=
  match x with
  | CEWFC_Unspecified => "Unspecified"
  | CEWFC_ExternalWorkflowExecutionNotFound => "ExternalWorkflowExecutionNotFound"
  | CEWFC_NamespaceNotFound => "NamespaceNotFound"
  end.

Inductive SignalExternalWorkflowExecutionFailedCause :=
| SEWFC_Unspecified
| SEWFC_ExternalWorkflowExecutionNotFound
| SEWFC_NamespaceNotFound
| SEWFC_SignalCountLimitExceeded.

#[global] Instance SignalExternalWorkflowExecutionFailedCause_eq_dec : EqDecision SignalExternalWorkflowExecutionFailedCause.
Proof. solve_decision. Defined.

Definition SignalExternalWorkflowExecutionFailedCause_as_i32 (x : SignalExternalWorkflowExecutionFailedCause) : Z :=
  match x with
  | SEWFC_Unspecified => 0
  | SEWFC_ExternalWorkflowExecutionNotFound => 1
  | SEWFC_NamespaceNotFound => 2
  | SEWFC_SignalCountLimitExceeded => 3
  end.

Definition SignalExternalWorkflowExecutionFailedCause_try_from (z : Z) : option SignalExternalWorkflowExecutionFailedCause :=
  match z with
  | 0%Z => Some SEWFC_Unspecified
  | 1%Z => Some SEWFC_ExternalWorkflowExecutionNotFound
  | 2%Z => Some SEWFC_NamespaceNotFound
  | 3%Z => Some SEWFC_SignalCountLimitExceeded
  | _ => None
  end.

(** Display of the variant, as [derive(Debug)] prints it. *)
Definition SignalExternalWorkflowExecutionFailedCause_debug (x : SignalExternalWorkflowExecutionFailedCause) : string :=
  match x with
  | SEWFC_Unspecified => "Unspecified"
  | SEWFC_ExternalWorkflowExecutionNotFound => "ExternalWorkflowExecutionNotFound"
  | SEWFC_NamespaceNotFound => "NamespaceNotFound"
  | SEWFC_SignalCountLimitExceeded => "SignalCountLimitExceeded"
  end.

Inductive WorkflowTaskFailedCause :=
| WTFC_Unspecified
| WTFC_UnhandledCommand
| WTFC_BadScheduleActivityAttributes
| WTFC_BadRequestCancelActivityAttributes
| WTFC_BadStartTimerAttributes
| WTFC_BadCancelTimerAttributes
| WTFC_BadRecordMarkerAttributes
| WTFC_BadCompleteWorkflowExecutionAttributes
| WTFC_BadFailWorkflowExecutionAttributes
| WTFC_BadCancelWorkflowExecutionAttributes
| WTFC_BadRequestCancelExternalWorkflowExecutionAttributes
| WTFC_BadContinueAsNewAttributes
| WTFC_StartTimerDuplicateId
| WTFC_ResetStickyTaskQueue
| WTFC_WorkflowWorkerUnhandledFailure
| WTFC_BadSignalWorkflowExecutionAttributes
| WTFC_BadStartChildExecutionAttributes
| WTFC_ForceCloseCommand
| WTFC_FailoverCloseCommand
| WTFC_BadSignalInputSize
| WTFC_ResetWorkflow
| WTFC_BadBinary
| WTFC_ScheduleActivityDuplicateId
| WTFC_BadSearchAttributes
| WTFC_NonDeterministicError
| WTFC_BadModifyWorkflowPropertiesAttributes
| WTFC_PendingChildWorkflowsLimitExceeded
| WTFC_PendingActivitiesLimitExceeded
| WTFC_PendingSignalsLimitExceeded
| WTFC_PendingRequestCancelLimitExceeded
| WTFC_BadUpdateWorkflowExecutionMessage
| WTFC_UnhandledUpdate
| WTFC_BadScheduleNexusOperationAttributes
| WTFC_PendingNexusOperationsLimitExceeded
| WTFC_BadRequestCancelNexusOperationAttributes
| WTFC_FeatureDisabled
| WTFC_GrpcMessageTooLarge.

#[global] Instance WorkflowTaskFailedCause_eq_dec : EqDecision WorkflowTaskFailedCause.
Proof. solve_decision. Defined.

Definition WorkflowTaskFailedCause_as_i32 (x : WorkflowTaskFailedCause) : Z :=
  match x with
  | WTFC_Unspecified => 0
  | WTFC_UnhandledCommand => 1
  | WTFC_BadScheduleActivityAttributes => 2
  | WTFC_BadRequestCancelActivityAttributes => 3
  | WTFC_BadStartTimerAttributes => 4
  | WTFC_BadCancelTimerAttributes => 5
  | WTFC_BadRecordMarkerAttributes => 6
  | WTFC_BadCompleteWorkflowExecutionAttributes => 7
  | WTFC_BadFailWorkflowExecutionAttributes => 8
  | WTFC_BadCancelWorkflowExecutionAttributes => 9
  | WTFC_BadRequestCancelExternalWorkflowExecutionAttributes => 10
  | WTFC_BadContinueAsNewAttributes => 11
  | WTFC_StartTimerDuplicateId => 12
  | WTFC_ResetStickyTaskQueue => 13
  | WTFC_WorkflowWorkerUnhandledFailure => 14
  | WTFC_BadSignalWorkflowExecutionAttributes => 15
  | WTFC_BadStartChildExecutionAttributes => 16
  | WTFC_ForceCloseCommand => 17
  | WTFC_FailoverCloseCommand => 18
  | WTFC_BadSignalInputSize => 19
  | WTFC_ResetWorkflow => 20
  | WTFC_BadBinary => 21
  | WTFC_ScheduleActivityDuplicateId => 22
  | WTFC_BadSearchAttributes => 23
  | WTFC_NonDeterministicError => 24
  | WTFC_BadModifyWorkflowPropertiesAttributes => 25
  | WTFC_PendingChildWorkflowsLimitExceeded => 26
  | WTFC_PendingActivitiesLimitExceeded => 27
  | WTFC_PendingSignalsLimitExceeded => 28
  | WTFC_PendingRequestCancelLimitExceeded => 29
  | WTFC_BadUpdateWorkflowExecutionMessage => 30
  | WTFC_UnhandledUpdate => 31
  | WTFC_BadScheduleNexusOperationAttributes => 32
  | WTFC_PendingNexusOperationsLimitExceeded => 33
  | WTFC_BadRequestCancelNexusOperationAttributes => 34
  | WTFC_FeatureDisabled => 35
  | WTFC_GrpcMessageTooLarge => 36
  end.

Definition WorkflowTaskFailedCause_try_from (z : Z) : option WorkflowTaskFailedCause :=
  match z with
  | 0%Z => Some WTFC_Unspecified
  | 1%Z => Some WTFC_UnhandledCommand
  | 2%Z => Some WTFC_BadScheduleActivityAttributes
  | 3%Z => Some WTFC_BadRequestCancelActivityAttributes
  | 4%Z => Some WTFC_BadStartTimerAttributes
  | 5%Z => Some WTFC_BadCancelTimerAttributes
  | 6%Z => Some WTFC_BadRecordMarkerAttributes
  | 7%Z => Some WTFC_BadCompleteWorkflowExecutionAttributes
  | 8%Z => Some WTFC_BadFailWorkflowExecutionAttributes
  | 9%Z => Some WTFC_BadCancelWorkflowExecutionAttributes
  | 10%Z => Some WTFC_BadRequestCancelExternalWorkflowExecutionAttributes
  | 11%Z => Some WTFC_BadContinueAsNewAttributes
  | 12%Z => Some WTFC_StartTimerDuplicateId
  | 13%Z => Some WTFC_ResetStickyTaskQueue
  | 14%Z => Some WTFC_WorkflowWorkerUnhandledFailure
  | 15%Z => Some WTFC_BadSignalWorkflowExecutionAttributes
  | 16%Z => Some WTFC_BadStartChildExecutionAttributes
  | 17%Z => Some WTFC_ForceCloseCommand
  | 18%Z => Some WTFC_FailoverCloseCommand
  | 19%Z => Some WTFC_BadSignalInputSize
  | 20%Z => Some WTFC_ResetWorkflow
  | 21%Z => Some WTFC_BadBinary
  | 22%Z => Some WTFC_ScheduleActivityDuplicateId
  | 23%Z => Some WTFC_BadSearchAttributes
  | 24%Z => Some WTFC_NonDeterministicError
  | 25%Z => Some WTFC_BadModifyWorkflowPropertiesAttributes
  | 26%Z => Some WTFC_PendingChildWorkflowsLimitExceeded
  | 27%Z => Some WTFC_PendingActivitiesLimitExceeded
  | 28%Z => Some WTFC_PendingSignalsLimitExceeded
  | 29%Z => Some WTFC_PendingRequestCancelLimitExceeded
  | 30%Z => Some WTFC_BadUpdateWorkflowExecutionMessage
  | 31%Z => Some WTFC_UnhandledUpdate
  | 32%Z => Some WTFC_BadScheduleNexusOperationAttributes
  | 33%Z => Some WTFC_PendingNexusOperationsLimitExceeded
  | 34%Z => Some WTFC_BadRequestCancelNexusOperationAttributes
  | 35%Z => Some WTFC_FeatureDisabled
  | 36%Z => Some WTFC_GrpcMessageTooLarge
  | _ => None
  end.

Inductive VersioningIntent :=
| VI_Unspecified
| VI_Compatible
| VI_Default.

#[global] Instance VersioningIntent_eq_dec : EqDecision VersioningIntent.
Proof. solve_decision. Defined.

Definition VersioningIntent_as_i32 (x : VersioningIntent) : Z :=
  match x with
  | VI_Unspecified => 0
  | VI_Compatible => 1
  | VI_Default => 2
  end.

Definition VersioningIntent_try_from (z : Z) : option VersioningIntent :=
  match z with
  | 0%Z => Some VI_Unspecified
  | 1%Z => Some VI_Compatible
  | 2%Z => Some VI_Default
  | _ => None
  end.

(** ** Failures *)

Record ApplicationFailureInfo := {
  ApplicationFailureInfo_type : string;
  ApplicationFailureInfo_non_retryable : bool;
  ApplicationFailureInfo_details : option Payloads;
  ApplicationFailureInfo_next_retry_delay : option Duration;
  ApplicationFailureInfo_category : Z;
}.
Definition ApplicationFailureInfo_default : ApplicationFailureInfo :=
  {| ApplicationFailureInfo_type := "";
     ApplicationFailureInfo_non_retryable := false;
     ApplicationFailureInfo_details := None;
     ApplicationFailureInfo_next_retry_delay := None;
     ApplicationFailureInfo_category := 0%Z |}.

Record TimeoutFailureInfo := {
  TimeoutFailureInfo_timeout_type : Z;
  TimeoutFailureInfo_last_heartbeat_details : option Payloads;
}.

Record CanceledFailureInfo := {
  CanceledFailureInfo_details : option Payloads;
}.

Record TerminatedFailureInfo : Set := { }.

Record ServerFailureInfo := {
  ServerFailureInfo_non_retryable : bool;
}.

Record ResetWorkflowFailureInfo := {
  ResetWorkflowFailureInfo_last_heartbeat_details : option Payloads;
}.

Record ActivityType := {
  ActivityType_name : string;
}.

Record ActivityFailureInfo := {
  ActivityFailureInfo_scheduled_event_id : Z;
  ActivityFailureInfo_started_event_id : Z;
  ActivityFailureInfo_identity : string;
  ActivityFailureInfo_activity_type : option ActivityType;
  ActivityFailureInfo_activity_id : string;
  ActivityFailureInfo_retry_state : Z;
}.
Definition ActivityFailureInfo_default : ActivityFailureInfo :=
  {| ActivityFailureInfo_scheduled_event_id := 0%Z;
     ActivityFailureInfo_started_event_id := 0%Z;
     ActivityFailureInfo_identity := "";
     ActivityFailureInfo_activity_type := None;
     ActivityFailureInfo_activity_id := "";
     ActivityFailureInfo_retry_state := 0%Z |}.

Record WorkflowExecution := {
  WorkflowExecution_workflow_id : string;
  WorkflowExecution_run_id : string;
}.

Record WorkflowType := {
  WorkflowType_name : string;
}.

Record ChildWorkflowExecutionFailureInfo := {
  ChildWorkflowExecutionFailureInfo_namespace : string;
  ChildWorkflowExecutionFailureInfo_workflow_execution : option WorkflowExecution;
  ChildWorkflowExecutionFailureInfo_workflow_type : option WorkflowType;
  ChildWorkflowExecutionFailureInfo_initiated_event_id : Z;
  ChildWorkflowExecutionFailureInfo_started_event_id : Z;
  ChildWorkflowExecutionFailureInfo_retry_state : Z;
}.
Definition ChildWorkflowExecutionFailureInfo_default : ChildWorkflowExecutionFailureInfo :=
  {| ChildWorkflowExecutionFailureInfo_namespace := "";
     ChildWorkflowExecutionFailureInfo_workflow_execution := None;
     ChildWorkflowExecutionFailureInfo_workflow_type := None;
     ChildWorkflowExecutionFailureInfo_initiated_event_id := 0%Z;
     ChildWorkflowExecutionFailureInfo_started_event_id := 0%Z;
     ChildWorkflowExecutionFailureInfo_retry_state := 0%Z |}.

Record NexusOperationFailureInfo := {
  NexusOperationFailureInfo_scheduled_event_id : Z;
  NexusOperationFailureInfo_endpoint : string;
  NexusOperationFailureInfo_service : string;
  NexusOperationFailureInfo_operation : string;
  NexusOperationFailureInfo_operation_id : string;
  NexusOperationFailureInfo_operation_token : string;
}.
Definition NexusOperationFailureInfo_default : NexusOperationFailureInfo :=
  {| NexusOperationFailureInfo_scheduled_event_id := 0%Z;
     NexusOperationFailureInfo_endpoint := "";
     NexusOperationFailureInfo_service := "";
     NexusOperationFailureInfo_operation := "";
     NexusOperationFailureInfo_operation_id := "";
     NexusOperationFailureInfo_operation_token := "" |}.

Record NexusHandlerFailureInfo := {
  NexusHandlerFailureInfo_type : string;
  NexusHandlerFailureInfo_retry_behavior : Z;
}.

Inductive FailureInfo :=
| FI_Application (v : ApplicationFailureInfo)
| FI_Timeout (v : TimeoutFailureInfo)
| FI_Canceled (v : CanceledFailureInfo)
| FI_Terminated (v : TerminatedFailureInfo)
| FI_Server (v : ServerFailureInfo)
| FI_ResetWorkflow (v : ResetWorkflowFailureInfo)
| FI_Activity (v : ActivityFailureInfo)
| FI_ChildWorkflowExecution (v : ChildWorkflowExecutionFailureInfo)
| FI_NexusOperationExecution (v : NexusOperationFailureInfo)
| FI_NexusHandler (v : NexusHandlerFailureInfo).

Inductive Failure := mkFailure {
  Failure_message : string;
  Failure_source : string;
  Failure_stack_trace : string;
  Failure_encoded_attributes : option Payload;
  Failure_cause : option Failure;
  Failure_failure_info : option FailureInfo;
}.

Definition Failure_default : Failure := mkFailure "" "" "" None None None.

(** ** History events *)

Record RetryPolicy := {
  RetryPolicy_initial_interval : option Duration;
  RetryPolicy_backoff_coefficient : Z;
  RetryPolicy_maximum_interval : option Duration;
  RetryPolicy_maximum_attempts : Z;
  RetryPolicy_non_retryable_error_types : list string;
}.
Definition RetryPolicy_default : RetryPolicy :=
  {| RetryPolicy_initial_interval := None;
     RetryPolicy_backoff_coefficient := 0%Z;
     RetryPolicy_maximum_interval := None;
     RetryPolicy_maximum_attempts := 0%Z;
     RetryPolicy_non_retryable_error_types := [] |}.

Record ActivityPropertiesModifiedExternallyEventAttributes := {
  ActivityPropertiesModifiedExternallyEv_scheduled_event_id : Z;
  ActivityPropertiesModifiedExternallyEv_new_retry_policy : option RetryPolicy;
}.

Record ActivityTaskCancelRequestedEventAttributes := {
  ActivityTaskCancelRequestedEv_scheduled_event_id : Z;
  ActivityTaskCancelRequestedEv_workflow_task_completed_event_id : Z;
}.

Record ActivityTaskCanceledEventAttributes := {
  ActivityTaskCanceledEv_details : option Payloads;
  ActivityTaskCanceledEv_latest_cancel_requested_event_id : Z;
  ActivityTaskCanceledEv_scheduled_event_id : Z;
  ActivityTaskCanceledEv_started_event_id : Z;
  ActivityTaskCanceledEv_identity : string;
}.

Record ActivityTaskCompletedEventAttributes := {
  ActivityTaskCompletedEv_result : option Payloads;
  ActivityTaskCompletedEv_scheduled_event_id : Z;
  ActivityTaskCompletedEv_started_event_id : Z;
  ActivityTaskCompletedEv_identity : string;
}.

Record ActivityTaskFailedEventAttributes := {
  ActivityTaskFailedEv_failure : option Failure;
  ActivityTaskFailedEv_scheduled_event_id : Z;
  ActivityTaskFailedEv_started_event_id : Z;
  ActivityTaskFailedEv_identity : string;
  ActivityTaskFailedEv_retry_state : Z;
}.

Record Header := {
  Header_fields : gmap string Payload;
}.

Record Priority := {
  Priority_priority_key : Z;
}.

Record TaskQueue := {
  TaskQueue_name : string;
  TaskQueue_kind : Z;
  TaskQueue_normal_name : string;
}.

Record ActivityTaskScheduledEventAttributes := {
  ActivityTaskScheduledEv_activity_id : string;
  ActivityTaskScheduledEv_activity_type : option ActivityType;
  ActivityTaskScheduledEv_task_queue : option TaskQueue;
  ActivityTaskScheduledEv_header : option Header;
  ActivityTaskScheduledEv_input : option Payloads;
  ActivityTaskScheduledEv_schedule_to_close_timeout : option Duration;
  ActivityTaskScheduledEv_schedule_to_start_timeout : option Duration;
  ActivityTaskScheduledEv_start_to_close_timeout : option Duration;
  ActivityTaskScheduledEv_heartbeat_timeout : option Duration;
  ActivityTaskScheduledEv_workflow_task_completed_event_id : Z;
  ActivityTaskScheduledEv_retry_policy : option RetryPolicy;
  ActivityTaskScheduledEv_use_workflow_build_id : bool;
  ActivityTaskScheduledEv_priority : option Priority;
}.

Record ActivityTaskStartedEventAttributes := {
  ActivityTaskStartedEv_scheduled_event_id : Z;
  ActivityTaskStartedEv_identity : string;
  ActivityTaskStartedEv_request_id : string;
  ActivityTaskStartedEv_attempt : Z;
  ActivityTaskStartedEv_last_failure : option Failure;
  ActivityTaskStartedEv_build_id_redirect_counter : Z;
}.

Record ActivityTaskTimedOutEventAttributes := {
  ActivityTaskTimedOutEv_failure : option Failure;
  ActivityTaskTimedOutEv_scheduled_event_id : Z;
  ActivityTaskTimedOutEv_started_event_id : Z;
  ActivityTaskTimedOutEv_retry_state : Z;
}.

Record ChildWorkflowExecutionCanceledEventAttributes := {
  ChildWorkflowExecutionCanceledEv_details : option Payloads;
  ChildWorkflowExecutionCanceledEv_namespace : string;
  ChildWorkflowExecutionCanceledEv_namespace_id : string;
  ChildWorkflowExecutionCanceledEv_workflow_execution : option WorkflowExecution;
  ChildWorkflowExecutionCanceledEv_workflow_type : option WorkflowType;
  ChildWorkflowExecutionCanceledEv_initiated_event_id : Z;
  ChildWorkflowExecutionCanceledEv_started_event_id : Z;
}.

Record ChildWorkflowExecutionCompletedEventAttributes := {
  ChildWorkflowExecutionCompletedEv_result : option Payloads;
  ChildWorkflowExecutionCompletedEv_namespace : string;
  ChildWorkflowExecutionCompletedEv_namespace_id : string;
  ChildWorkflowExecutionCompletedEv_workflow_execution : option WorkflowExecution;
  ChildWorkflowExecutionCompletedEv_workflow_type : option WorkflowType;
  ChildWorkflowExecutionCompletedEv_initiated_event_id : Z;
  ChildWorkflowExecutionCompletedEv_started_event_id : Z;
}.

Record ChildWorkflowExecutionFailedEventAttributes := {
  ChildWorkflowExecutionFailedEv_failure : option Failure;
  ChildWorkflowExecutionFailedEv_namespace : string;
  ChildWorkflowExecutionFailedEv_namespace_id : string;
  ChildWorkflowExecutionFailedEv_workflow_execution : option WorkflowExecution;
  ChildWorkflowExecutionFailedEv_workflow_type : option WorkflowType;
  ChildWorkflowExecutionFailedEv_initiated_event_id : Z;
  ChildWorkflowExecutionFailedEv_started_event_id : Z;
  ChildWorkflowExecutionFailedEv_retry_state : Z;
}.

Record ChildWorkflowExecutionStartedEventAttributes := {
  ChildWorkflowExecutionStartedEv_namespace : string;
  ChildWorkflowExecutionStartedEv_namespace_id : string;
  ChildWorkflowExecutionStartedEv_initiated_event_id : Z;
  ChildWorkflowExecutionStartedEv_workflow_execution : option WorkflowExecution;
  ChildWorkflowExecutionStartedEv_workflow_type : option WorkflowType;
  ChildWorkflowExecutionStartedEv_header : option Header;
}.

Record ChildWorkflowExecutionTerminatedEventAttributes := {
  ChildWorkflowExecutionTerminatedEv_namespace : string;
  ChildWorkflowExecutionTerminatedEv_namespace_id : string;
  ChildWorkflowExecutionTerminatedEv_workflow_execution : option WorkflowExecution;
  ChildWorkflowExecutionTerminatedEv_workflow_type : option WorkflowType;
  ChildWorkflowExecutionTerminatedEv_initiated_event_id : Z;
  ChildWorkflowExecutionTerminatedEv_started_event_id : Z;
}.

Record ChildWorkflowExecutionTimedOutEventAttributes := {
  ChildWorkflowExecutionTimedOutEv_namespace : string;
  ChildWorkflowExecutionTimedOutEv_namespace_id : string;
  ChildWorkflowExecutionTimedOutEv_workflow_execution : option WorkflowExecution;
  ChildWorkflowExecutionTimedOutEv_workflow_type : option WorkflowType;
  ChildWorkflowExecutionTimedOutEv_initiated_event_id : Z;
  ChildWorkflowExecutionTimedOutEv_started_event_id : Z;
  ChildWorkflowExecutionTimedOutEv_retry_state : Z;
}.

Record ExternalWorkflowExecutionCancelRequestedEventAttributes := {
  ExternalWorkflowExecutionCancelRequestedEv_initiated_event_id : Z;
  ExternalWorkflowExecutionCancelRequestedEv_namespace : string;
  ExternalWorkflowExecutionCancelRequestedEv_namespace_id : string;
  ExternalWorkflowExecutionCancelRequestedEv_workflow_execution : option WorkflowExecution;
}.

Record ExternalWorkflowExecutionSignaledEventAttributes := {
  ExternalWorkflowExecutionSignaledEv_initiated_event_id : Z;
  ExternalWorkflowExecutionSignaledEv_namespace : string;
  ExternalWorkflowExecutionSignaledEv_namespace_id : string;
  ExternalWorkflowExecutionSignaledEv_workflow_execution : option WorkflowExecution;
  ExternalWorkflowExecutionSignaledEv_control : string;
}.

Record MarkerRecordedEventAttributes := {
  MarkerRecordedEv_marker_name : string;
  MarkerRecordedEv_details : gmap string Payloads;
  MarkerRecordedEv_workflow_task_completed_event_id : Z;
  MarkerRecordedEv_header : option Header;
  MarkerRecordedEv_failure : option Failure;
}.

Record NexusOperationCancelRequestCompletedEventAttributes := {
  NexusOperationCancelRequestCompletedEv_requested_event_id : Z;
  NexusOperationCancelRequestCompletedEv_workflow_task_completed_event_id : Z;
  NexusOperationCancelRequestCompletedEv_scheduled_event_id : Z;
}.

Record NexusOperationCancelRequestFailedEventAttributes := {
  NexusOperationCancelRequestFailedEv_requested_event_id : Z;
  NexusOperationCancelRequestFailedEv_workflow_task_completed_event_id : Z;
  NexusOperationCancelRequestFailedEv_failure : option Failure;
  NexusOperationCancelRequestFailedEv_scheduled_event_id : Z;
}.

Record NexusOperationCancelRequestedEventAttributes := {
  NexusOperationCancelRequestedEv_scheduled_event_id : Z;
  NexusOperationCancelRequestedEv_workflow_task_completed_event_id : Z;
}.

Record NexusOperationCanceledEventAttributes := {
  NexusOperationCanceledEv_scheduled_event_id : Z;
  NexusOperationCanceledEv_failure : option Failure;
  NexusOperationCanceledEv_request_id : string;
}.

Record NexusOperationCompletedEventAttributes := {
  NexusOperationCompletedEv_scheduled_event_id : Z;
  NexusOperationCompletedEv_result : option Payload;
  NexusOperationCompletedEv_request_id : string;
}.

Record NexusOperationFailedEventAttributes := {
  NexusOperationFailedEv_scheduled_event_id : Z;
  NexusOperationFailedEv_failure : option Failure;
  NexusOperationFailedEv_request_id : string;
}.

Record NexusOperationScheduledEventAttributes := {
  NexusOperationScheduledEv_endpoint : string;
  NexusOperationScheduledEv_service : string;
  NexusOperationScheduledEv_operation : string;
  NexusOperationScheduledEv_input : option Payload;
  NexusOperationScheduledEv_schedule_to_close_timeout : option Duration;
  NexusOperationScheduledEv_nexus_header : gmap string string;
  NexusOperationScheduledEv_workflow_task_completed_event_id : Z;
  NexusOperationScheduledEv_request_id : string;
  NexusOperationScheduledEv_endpoint_id : string;
}.

Record NexusOperationStartedEventAttributes := {
  NexusOperationStartedEv_scheduled_event_id : Z;
  NexusOperationStartedEv_operation_id : string;
  NexusOperationStartedEv_request_id : string;
  NexusOperationStartedEv_operation_token : string;
}.

Record NexusOperationTimedOutEventAttributes := {
  NexusOperationTimedOutEv_scheduled_event_id : Z;
  NexusOperationTimedOutEv_failure : option Failure;
  NexusOperationTimedOutEv_request_id : string;
}.

Record RequestCancelExternalWorkflowExecutionFailedEventAttributes := {
  RequestCancelExternalWorkflowExecutionFailedEv_cause : Z;
  RequestCancelExternalWorkflowExecutionFailedEv_workflow_task_completed_event_id : Z;
  RequestCancelExternalWorkflowExecutionFailedEv_namespace : string;
  RequestCancelExternalWorkflowExecutionFailedEv_namespace_id : string;
  RequestCancelExternalWorkflowExecutionFailedEv_workflow_execution : option WorkflowExecution;
  RequestCancelExternalWorkflowExecutionFailedEv_initiated_event_id : Z;
  RequestCancelExternalWorkflowExecutionFailedEv_control : string;
}.

Record RequestCancelExternalWorkflowExecutionInitiatedEventAttributes := {
  RequestCancelExternalWorkflowExecutionInitiatedEv_workflow_task_completed_event_id : Z;
  RequestCancelExternalWorkflowExecutionInitiatedEv_namespace : string;
  RequestCancelExternalWorkflowExecutionInitiatedEv_namespace_id : string;
  RequestCancelExternalWorkflowExecutionInitiatedEv_workflow_execution : option WorkflowExecution;
  RequestCancelExternalWorkflowExecutionInitiatedEv_control : string;
  RequestCancelExternalWorkflowExecutionInitiatedEv_child_workflow_only : bool;
  RequestCancelExternalWorkflowExecutionInitiatedEv_reason : string;
}.

Record SignalExternalWorkflowExecutionFailedEventAttributes := {
  SignalExternalWorkflowExecutionFailedEv_cause : Z;
  SignalExternalWorkflowExecutionFailedEv_workflow_task_completed_event_id : Z;
  SignalExternalWorkflowExecutionFailedEv_namespace : string;
  SignalExternalWorkflowExecutionFailedEv_namespace_id : string;
  SignalExternalWorkflowExecutionFailedEv_workflow_execution : option WorkflowExecution;
  SignalExternalWorkflowExecutionFailedEv_initiated_event_id : Z;
  SignalExternalWorkflowExecutionFailedEv_control : string;
}.

Record SignalExternalWorkflowExecutionInitiatedEventAttributes := {
  SignalExternalWorkflowExecutionInitiatedEv_workflow_task_completed_event_id : Z;
  SignalExternalWorkflowExecutionInitiatedEv_namespace : string;
  SignalExternalWorkflowExecutionInitiatedEv_namespace_id : string;
  SignalExternalWorkflowExecutionInitiatedEv_workflow_execution : option WorkflowExecution;
  SignalExternalWorkflowExecutionInitiatedEv_signal_name : string;
  SignalExternalWorkflowExecutionInitiatedEv_input : option Payloads;
  SignalExternalWorkflowExecutionInitiatedEv_control : string;
  SignalExternalWorkflowExecutionInitiatedEv_child_workflow_only : bool;
  SignalExternalWorkflowExecutionInitiatedEv_header : option Header;
}.

Record StartChildWorkflowExecutionFailedEventAttributes := {
  StartChildWorkflowExecutionFailedEv_namespace : string;
  StartChildWorkflowExecutionFailedEv_namespace_id : string;
  StartChildWorkflowExecutionFailedEv_workflow_id : string;
  StartChildWorkflowExecutionFailedEv_workflow_type : option WorkflowType;
  StartChildWorkflowExecutionFailedEv_cause : Z;
  StartChildWorkflowExecutionFailedEv_control : string;
  StartChildWorkflowExecutionFailedEv_initiated_event_id : Z;
  StartChildWorkflowExecutionFailedEv_workflow_task_completed_event_id : Z;
}.

Record Memo := {
  Memo_fields : gmap string Payload;
}.

Record SearchAttributes := {
  SearchAttributes_indexed_fields : gmap string Payload;
}.

Record StartChildWorkflowExecutionInitiatedEventAttributes := {
  StartChildWorkflowExecutionInitiatedEv_namespace : string;
  StartChildWorkflowExecutionInitiatedEv_namespace_id : string;
  StartChildWorkflowExecutionInitiatedEv_workflow_id : string;
  StartChildWorkflowExecutionInitiatedEv_workflow_type : option WorkflowType;
  StartChildWorkflowExecutionInitiatedEv_task_queue : option TaskQueue;
  StartChildWorkflowExecutionInitiatedEv_input : option Payloads;
  StartChildWorkflowExecutionInitiatedEv_workflow_execution_timeout : option Duration;
  StartChildWorkflowExecutionInitiatedEv_workflow_run_timeout : option Duration;
  StartChildWorkflowExecutionInitiatedEv_workflow_task_timeout : option Duration;
  StartChildWorkflowExecutionInitiatedEv_parent_close_policy : Z;
  StartChildWorkflowExecutionInitiatedEv_control : string;
  StartChildWorkflowExecutionInitiatedEv_workflow_task_completed_event_id : Z;
  StartChildWorkflowExecutionInitiatedEv_workflow_id_reuse_policy : Z;
  StartChildWorkflowExecutionInitiatedEv_retry_policy : option RetryPolicy;
  StartChildWorkflowExecutionInitiatedEv_cron_schedule : string;
  StartChildWorkflowExecutionInitiatedEv_header : option Header;
  StartChildWorkflowExecutionInitiatedEv_memo : option Memo;
  StartChildWorkflowExecutionInitiatedEv_search_attributes : option SearchAttributes;
  StartChildWorkflowExecutionInitiatedEv_inherit_build_id : bool;
  StartChildWorkflowExecutionInitiatedEv_priority : option Priority;
}.

Record TimerCanceledEventAttributes := {
  TimerCanceledEv_timer_id : string;
  TimerCanceledEv_started_event_id : Z;
  TimerCanceledEv_workflow_task_completed_event_id : Z;
  TimerCanceledEv_identity : string;
}.

Record TimerFiredEventAttributes := {
  TimerFiredEv_timer_id : string;
  TimerFiredEv_started_event_id : Z;
}.
Definition TimerFiredEventAttributes_default : TimerFiredEventAttributes :=
  {| TimerFiredEv_timer_id := ""; TimerFiredEv_started_event_id := 0%Z |}.

Record TimerStartedEventAttributes := {
  TimerStartedEv_timer_id : string;
  TimerStartedEv_start_to_fire_timeout : option Duration;
  TimerStartedEv_workflow_task_completed_event_id : Z;
}.

Record UpsertWorkflowSearchAttributesEventAttributes := {
  UpsertWorkflowSearchAttributesEv_workflow_task_completed_event_id : Z;
  UpsertWorkflowSearchAttributesEv_search_attributes : option SearchAttributes;
}.

Record UserMetadata := {
  UserMetadata_summary : option Payload;
  UserMetadata_details : option Payload;
}.

Record WorkflowExecutionCancelRequestedEventAttributes := {
  WorkflowExecutionCancelRequestedEv_cause : string;
  WorkflowExecutionCancelRequestedEv_external_initiated_event_id : Z;
  WorkflowExecutionCancelRequestedEv_external_workflow_execution : option WorkflowExecution;
  WorkflowExecutionCancelRequestedEv_identity : string;
}.

Record WorkflowExecutionCanceledEventAttributes := {
  WorkflowExecutionCanceledEv_workflow_task_completed_event_id : Z;
  WorkflowExecutionCanceledEv_details : option Payloads;
}.

Record WorkflowExecutionCompletedEventAttributes := {
  WorkflowExecutionCompletedEv_result : option Payloads;
  WorkflowExecutionCompletedEv_workflow_task_completed_event_id : Z;
  WorkflowExecutionCompletedEv_new_execution_run_id : string;
}.

Record WorkflowExecutionContinuedAsNewEventAttributes := {
  WorkflowExecutionContinuedAsNewEv_new_execution_run_id : string;
  WorkflowExecutionContinuedAsNewEv_workflow_type : option WorkflowType;
  WorkflowExecutionContinuedAsNewEv_task_queue : option TaskQueue;
  WorkflowExecutionContinuedAsNewEv_input : option Payloads;
  WorkflowExecutionContinuedAsNewEv_workflow_run_timeout : option Duration;
  WorkflowExecutionContinuedAsNewEv_workflow_task_timeout : option Duration;
  WorkflowExecutionContinuedAsNewEv_workflow_task_completed_event_id : Z;
  WorkflowExecutionContinuedAsNewEv_backoff_start_interval : option Duration;
  WorkflowExecutionContinuedAsNewEv_initiator : Z;
  WorkflowExecutionContinuedAsNewEv_failure : option Failure;
  WorkflowExecutionContinuedAsNewEv_last_completion_result : option Payloads;
  WorkflowExecutionContinuedAsNewEv_header : option Header;
  WorkflowExecutionContinuedAsNewEv_memo : option Memo;
  WorkflowExecutionContinuedAsNewEv_search_attributes : option SearchAttributes;
  WorkflowExecutionContinuedAsNewEv_inherit_build_id : bool;
}.

Record WorkflowExecutionFailedEventAttributes := {
  WorkflowExecutionFailedEv_failure : option Failure;
  WorkflowExecutionFailedEv_retry_state : Z;
  WorkflowExecutionFailedEv_workflow_task_completed_event_id : Z;
  WorkflowExecutionFailedEv_new_execution_run_id : string;
}.

Record WorkflowExecutionOptionsUpdatedEventAttributes := {
  WorkflowExecutionOptionsUpdatedEv_unset_versioning_override : bool;
  WorkflowExecutionOptionsUpdatedEv_attached_request_id : string;
}.

Record WorkflowExecutionSignaledEventAttributes := {
  WorkflowExecutionSignaledEv_signal_name : string;
  WorkflowExecutionSignaledEv_input : option Payloads;
  WorkflowExecutionSignaledEv_identity : string;
  WorkflowExecutionSignaledEv_header : option Header;
  WorkflowExecutionSignaledEv_skip_generate_workflow_task : bool;
  WorkflowExecutionSignaledEv_external_workflow_execution : option WorkflowExecution;
}.

Record api_WorkerDeploymentVersion := {
  api_WorkerDeploymentVersion_build_id : string;
  api_WorkerDeploymentVersion_deployment_name : string;
}.

Record WorkflowExecutionStartedEventAttributes := {
  WorkflowExecutionStartedEv_workflow_type : option WorkflowType;
  WorkflowExecutionStartedEv_parent_workflow_namespace : string;
  WorkflowExecutionStartedEv_parent_workflow_namespace_id : string;
  WorkflowExecutionStartedEv_parent_workflow_execution : option WorkflowExecution;
  WorkflowExecutionStartedEv_parent_initiated_event_id : Z;
  WorkflowExecutionStartedEv_task_queue : option TaskQueue;
  WorkflowExecutionStartedEv_input : option Payloads;
  WorkflowExecutionStartedEv_workflow_execution_timeout : option Duration;
  WorkflowExecutionStartedEv_workflow_run_timeout : option Duration;
  WorkflowExecutionStartedEv_workflow_task_timeout : option Duration;
  WorkflowExecutionStartedEv_continued_execution_run_id : string;
  WorkflowExecutionStartedEv_initiator : Z;
  WorkflowExecutionStartedEv_continued_failure : option Failure;
  WorkflowExecutionStartedEv_last_completion_result : option Payloads;
  WorkflowExecutionStartedEv_original_execution_run_id : string;
  WorkflowExecutionStartedEv_identity : string;
  WorkflowExecutionStartedEv_first_execution_run_id : string;
  WorkflowExecutionStartedEv_retry_policy : option RetryPolicy;
  WorkflowExecutionStartedEv_attempt : Z;
  WorkflowExecutionStartedEv_workflow_execution_expiration_time : option Timestamp;
  WorkflowExecutionStartedEv_cron_schedule : string;
  WorkflowExecutionStartedEv_first_workflow_task_backoff : option Duration;
  WorkflowExecutionStartedEv_memo : option Memo;
  WorkflowExecutionStartedEv_search_attributes : option SearchAttributes;
  WorkflowExecutionStartedEv_header : option Header;
  WorkflowExecutionStartedEv_parent_initiated_event_version : Z;
  WorkflowExecutionStartedEv_workflow_id : string;
  WorkflowExecutionStartedEv_root_workflow_execution : option WorkflowExecution;
  WorkflowExecutionStartedEv_inherited_build_id : string;
  WorkflowExecutionStartedEv_parent_pinned_worker_deployment_version : string;
  WorkflowExecutionStartedEv_priority : option Priority;
  WorkflowExecutionStartedEv_inherited_pinned_version : option api_WorkerDeploymentVersion;
}.

Record WorkflowExecutionTerminatedEventAttributes := {
  WorkflowExecutionTerminatedEv_reason : string;
  WorkflowExecutionTerminatedEv_details : option Payloads;
  WorkflowExecutionTerminatedEv_identity : string;
}.

Record WorkflowExecutionTimedOutEventAttributes := {
  WorkflowExecutionTimedOutEv_retry_state : Z;
  WorkflowExecutionTimedOutEv_new_execution_run_id : string;
}.

Record Input := {
  Input_header : option Header;
  Input_name : string;
  Input_args : option Payloads;
}.

Record Meta := {
  Meta_update_id : string;
  Meta_identity : string;
}.

Record Request := {
  Request_meta : option Meta;
  Request_input : option Input;
}.

Record WorkflowExecutionUpdateAcceptedEventAttributes := {
  WorkflowExecutionUpdateAcceptedEv_protocol_instance_id : string;
  WorkflowExecutionUpdateAcceptedEv_accepted_request_message_id : string;
  WorkflowExecutionUpdateAcceptedEv_accepted_request_sequencing_event_id : Z;
  WorkflowExecutionUpdateAcceptedEv_accepted_request : option Request;
}.

Record WorkflowExecutionUpdateAdmittedEventAttributes := {
  WorkflowExecutionUpdateAdmittedEv_request : option Request;
  WorkflowExecutionUpdateAdmittedEv_origin : Z;
}.

Inductive Outcome_Value :=
| Outcome_Success (v : Payloads)
| Outcome_Failure (v : Failure).

Record Outcome := {
  Outcome_value : option Outcome_Value;
}.

Record WorkflowExecutionUpdateCompletedEventAttributes := {
  WorkflowExecutionUpdateCompletedEv_meta : option Meta;
  WorkflowExecutionUpdateCompletedEv_accepted_event_id : Z;
  WorkflowExecutionUpdateCompletedEv_outcome : option Outcome;
}.

Record WorkflowExecutionUpdateRejectedEventAttributes := {
  WorkflowExecutionUpdateRejectedEv_protocol_instance_id : string;
  WorkflowExecutionUpdateRejectedEv_rejected_request_message_id : string;
  WorkflowExecutionUpdateRejectedEv_rejected_request_sequencing_event_id : Z;
  WorkflowExecutionUpdateRejectedEv_rejected_request : option Request;
  WorkflowExecutionUpdateRejectedEv_failure : option Failure;
}.

Record WorkflowPropertiesModifiedEventAttributes := {
  WorkflowPropertiesModifiedEv_workflow_task_completed_event_id : Z;
  WorkflowPropertiesModifiedEv_upserted_memo : option Memo;
}.

Record WorkflowPropertiesModifiedExternallyEventAttributes := {
  WorkflowPropertiesModifiedExternallyEv_new_task_queue : string;
  WorkflowPropertiesModifiedExternallyEv_new_workflow_task_timeout : option Duration;
  WorkflowPropertiesModifiedExternallyEv_new_workflow_run_timeout : option Duration;
  WorkflowPropertiesModifiedExternallyEv_new_workflow_execution_timeout : option Duration;
  WorkflowPropertiesModifiedExternallyEv_upserted_memo : option Memo;
}.

Record WorkerVersionStamp := {
  WorkerVersionStamp_build_id : string;
  WorkerVersionStamp_use_versioning : bool;
}.

Record WorkflowTaskCompletedEventAttributes := {
  WorkflowTaskCompletedEv_scheduled_event_id : Z;
  WorkflowTaskCompletedEv_started_event_id : Z;
  WorkflowTaskCompletedEv_identity : string;
  WorkflowTaskCompletedEv_binary_checksum : string;
  WorkflowTaskCompletedEv_worker_version : option WorkerVersionStamp;
  WorkflowTaskCompletedEv_sdk_metadata : option WorkflowTaskCompletedMetadata;
  WorkflowTaskCompletedEv_versioning_behavior : Z;
  WorkflowTaskCompletedEv_worker_deployment_version : string;
  WorkflowTaskCompletedEv_worker_deployment_name : string;
  WorkflowTaskCompletedEv_deployment_version : option api_WorkerDeploymentVersion;
}.

Record WorkflowTaskFailedEventAttributes := {
  WorkflowTaskFailedEv_scheduled_event_id : Z;
  WorkflowTaskFailedEv_started_event_id : Z;
  WorkflowTaskFailedEv_cause : Z;
  WorkflowTaskFailedEv_failure : option Failure;
  WorkflowTaskFailedEv_identity : string;
  WorkflowTaskFailedEv_base_run_id : string;
  WorkflowTaskFailedEv_new_run_id : string;
  WorkflowTaskFailedEv_fork_event_version : Z;
  WorkflowTaskFailedEv_binary_checksum : string;
}.

Record WorkflowTaskScheduledEventAttributes := {
  WorkflowTaskScheduledEv_task_queue : option TaskQueue;
  WorkflowTaskScheduledEv_start_to_close_timeout : option Duration;
  WorkflowTaskScheduledEv_attempt : Z;
}.

Record WorkflowTaskStartedEventAttributes := {
  WorkflowTaskStartedEv_scheduled_event_id : Z;
  WorkflowTaskStartedEv_identity : string;
  WorkflowTaskStartedEv_request_id : string;
  WorkflowTaskStartedEv_suggest_continue_as_new : bool;
  WorkflowTaskStartedEv_history_size_bytes : Z;
  WorkflowTaskStartedEv_build_id_redirect_counter : Z;
}.

Record WorkflowTaskTimedOutEventAttributes := {
  WorkflowTaskTimedOutEv_scheduled_event_id : Z;
  WorkflowTaskTimedOutEv_started_event_id : Z;
  WorkflowTaskTimedOutEv_timeout_type : Z;
}.

Inductive HistAttributes :=
| HA_WorkflowExecutionStarted (v : WorkflowExecutionStartedEventAttributes)
| HA_WorkflowExecutionCompleted (v : WorkflowExecutionCompletedEventAttributes)
| HA_WorkflowExecutionFailed (v : WorkflowExecutionFailedEventAttributes)
| HA_WorkflowExecutionTimedOut (v : WorkflowExecutionTimedOutEventAttributes)
| HA_WorkflowTaskScheduled (v : WorkflowTaskScheduledEventAttributes)
| HA_WorkflowTaskStarted (v : WorkflowTaskStartedEventAttributes)
| HA_WorkflowTaskCompleted (v : WorkflowTaskCompletedEventAttributes)
| HA_WorkflowTaskTimedOut (v : WorkflowTaskTimedOutEventAttributes)
| HA_WorkflowTaskFailed (v : WorkflowTaskFailedEventAttributes)
| HA_ActivityTaskScheduled (v : ActivityTaskScheduledEventAttributes)
| HA_ActivityTaskStarted (v : ActivityTaskStartedEventAttributes)
| HA_ActivityTaskCompleted (v : ActivityTaskCompletedEventAttributes)
| HA_ActivityTaskFailed (v : ActivityTaskFailedEventAttributes)
| HA_ActivityTaskTimedOut (v : ActivityTaskTimedOutEventAttributes)
| HA_TimerStarted (v : TimerStartedEventAttributes)
| HA_TimerFired (v : TimerFiredEventAttributes)
| HA_ActivityTaskCancelRequested (v : ActivityTaskCancelRequestedEventAttributes)
| HA_ActivityTaskCanceled (v : ActivityTaskCanceledEventAttributes)
| HA_TimerCanceled (v : TimerCanceledEventAttributes)
| HA_MarkerRecorded (v : MarkerRecordedEventAttributes)
| HA_WorkflowExecutionSignaled (v : WorkflowExecutionSignaledEventAttributes)
| HA_WorkflowExecutionTerminated (v : WorkflowExecutionTerminatedEventAttributes)
| HA_WorkflowExecutionCancelRequested (v : WorkflowExecutionCancelRequestedEventAttributes)
| HA_WorkflowExecutionCanceled (v : WorkflowExecutionCanceledEventAttributes)
| HA_RequestCancelExternalWorkflowExecutionInitiated (v : RequestCancelExternalWorkflowExecutionInitiatedEventAttributes)
| HA_RequestCancelExternalWorkflowExecutionFailed (v : RequestCancelExternalWorkflowExecutionFailedEventAttributes)
| HA_ExternalWorkflowExecutionCancelRequested (v : ExternalWorkflowExecutionCancelRequestedEventAttributes)
| HA_WorkflowExecutionContinuedAsNew (v : WorkflowExecutionContinuedAsNewEventAttributes)
| HA_StartChildWorkflowExecutionInitiated (v : StartChildWorkflowExecutionInitiatedEventAttributes)
| HA_StartChildWorkflowExecutionFailed (v : StartChildWorkflowExecutionFailedEventAttributes)
| HA_ChildWorkflowExecutionStarted (v : ChildWorkflowExecutionStartedEventAttributes)
| HA_ChildWorkflowExecutionCompleted (v : ChildWorkflowExecutionCompletedEventAttributes)
| HA_ChildWorkflowExecutionFailed (v : ChildWorkflowExecutionFailedEventAttributes)
| HA_ChildWorkflowExecutionCanceled (v : ChildWorkflowExecutionCanceledEventAttributes)
| HA_ChildWorkflowExecutionTimedOut (v : ChildWorkflowExecutionTimedOutEventAttributes)
| HA_ChildWorkflowExecutionTerminated (v : ChildWorkflowExecutionTerminatedEventAttributes)
| HA_SignalExternalWorkflowExecutionInitiated (v : SignalExternalWorkflowExecutionInitiatedEventAttributes)
| HA_SignalExternalWorkflowExecutionFailed (v : SignalExternalWorkflowExecutionFailedEventAttributes)
| HA_ExternalWorkflowExecutionSignaled (v : ExternalWorkflowExecutionSignaledEventAttributes)
| HA_UpsertWorkflowSearchAttributes (v : UpsertWorkflowSearchAttributesEventAttributes)
| HA_WorkflowExecutionUpdateAccepted (v : WorkflowExecutionUpdateAcceptedEventAttributes)
| HA_WorkflowExecutionUpdateRejected (v : WorkflowExecutionUpdateRejectedEventAttributes)
| HA_WorkflowExecutionUpdateCompleted (v : WorkflowExecutionUpdateCompletedEventAttributes)
| HA_WorkflowPropertiesModifiedExternally (v : WorkflowPropertiesModifiedExternallyEventAttributes)
| HA_ActivityPropertiesModifiedExternally (v : ActivityPropertiesModifiedExternallyEventAttributes)
| HA_WorkflowPropertiesModified (v : WorkflowPropertiesModifiedEventAttributes)
| HA_WorkflowExecutionUpdateAdmitted (v : WorkflowExecutionUpdateAdmittedEventAttributes)
| HA_NexusOperationScheduled (v : NexusOperationScheduledEventAttributes)
| HA_NexusOperationStarted (v : NexusOperationStartedEventAttributes)
| HA_NexusOperationCompleted (v : NexusOperationCompletedEventAttributes)
| HA_NexusOperationFailed (v : NexusOperationFailedEventAttributes)
| HA_NexusOperationCanceled (v : NexusOperationCanceledEventAttributes)
| HA_NexusOperationTimedOut (v : NexusOperationTimedOutEventAttributes)
| HA_NexusOperationCancelRequested (v : NexusOperationCancelRequestedEventAttributes)
| HA_WorkflowExecutionOptionsUpdated (v : WorkflowExecutionOptionsUpdatedEventAttributes)
| HA_NexusOperationCancelRequestCompleted (v : NexusOperationCancelRequestCompletedEventAttributes)
| HA_NexusOperationCancelRequestFailed (v : NexusOperationCancelRequestFailedEventAttributes).

Record HistoryEvent := {
  HistoryEvent_event_id : Z;
  HistoryEvent_event_time : option Timestamp;
  HistoryEvent_event_type : Z;
  HistoryEvent_version : Z;
  HistoryEvent_task_id : Z;
  HistoryEvent_worker_may_ignore : bool;
  HistoryEvent_user_metadata : option UserMetadata;
  HistoryEvent_attributes : option HistAttributes;
}.
Definition HistoryEvent_default : HistoryEvent :=
  {| HistoryEvent_event_id := 0%Z;
     HistoryEvent_event_time := None;
     HistoryEvent_event_type := 0%Z;
     HistoryEvent_version := 0%Z;
     HistoryEvent_task_id := 0%Z;
     HistoryEvent_worker_may_ignore := false;
     HistoryEvent_user_metadata := None;
     HistoryEvent_attributes := None |}.

(** ** Commands sent to the server *)

Record CancelTimerCommandAttributes := {
  CancelTimerCmd_timer_id : string;
}.

Record CancelWorkflowExecutionCommandAttributes := {
  CancelWorkflowExecutionCmd_details : option Payloads;
}.

Record CompleteWorkflowExecutionCommandAttributes := {
  CompleteWorkflowExecutionCmd_result : option Payloads;
}.

Record ContinueAsNewWorkflowExecutionCommandAttributes := {
  ContinueAsNewWorkflowExecutionCmd_workflow_type : option WorkflowType;
  ContinueAsNewWorkflowExecutionCmd_task_queue : option TaskQueue;
  ContinueAsNewWorkflowExecutionCmd_input : option Payloads;
  ContinueAsNewWorkflowExecutionCmd_workflow_run_timeout : option Duration;
  ContinueAsNewWorkflowExecutionCmd_workflow_task_timeout : option Duration;
  ContinueAsNewWorkflowExecutionCmd_backoff_start_interval : option Duration;
  ContinueAsNewWorkflowExecutionCmd_retry_policy : option RetryPolicy;
  ContinueAsNewWorkflowExecutionCmd_initiator : Z;
  ContinueAsNewWorkflowExecutionCmd_failure : option Failure;
  ContinueAsNewWorkflowExecutionCmd_last_completion_result : option Payloads;
  ContinueAsNewWorkflowExecutionCmd_cron_schedule : string;
  ContinueAsNewWorkflowExecutionCmd_header : option Header;
  ContinueAsNewWorkflowExecutionCmd_memo : option Memo;
  ContinueAsNewWorkflowExecutionCmd_search_attributes : option SearchAttributes;
  ContinueAsNewWorkflowExecutionCmd_inherit_build_id : bool;
}.
Definition ContinueAsNewWorkflowExecutionCommandAttributes_default : ContinueAsNewWorkflowExecutionCommandAttributes :=
  {| ContinueAsNewWorkflowExecutionCmd_workflow_type := None;
     ContinueAsNewWorkflowExecutionCmd_task_queue := None;
     ContinueAsNewWorkflowExecutionCmd_input := None;
     ContinueAsNewWorkflowExecutionCmd_workflow_run_timeout := None;
     ContinueAsNewWorkflowExecutionCmd_workflow_task_timeout := None;
     ContinueAsNewWorkflowExecutionCmd_backoff_start_interval := None;
     ContinueAsNewWorkflowExecutionCmd_retry_policy := None;
     ContinueAsNewWorkflowExecutionCmd_initiator := 0%Z;
     ContinueAsNewWorkflowExecutionCmd_failure := None;
     ContinueAsNewWorkflowExecutionCmd_last_completion_result := None;
     ContinueAsNewWorkflowExecutionCmd_cron_schedule := "";
     ContinueAsNewWorkflowExecutionCmd_header := None;
     ContinueAsNewWorkflowExecutionCmd_memo := None;
     ContinueAsNewWorkflowExecutionCmd_search_attributes := None;
     ContinueAsNewWorkflowExecutionCmd_inherit_build_id := false |}.

Record FailWorkflowExecutionCommandAttributes := {
  FailWorkflowExecutionCmd_failure : option Failure;
}.

Record ModifyWorkflowPropertiesCommandAttributes := {
  ModifyWorkflowPropertiesCmd_upserted_memo : option Memo;
}.

Record ProtocolMessageCommandAttributes := {
  ProtocolMessageCmd_message_id : string;
}.

Record RecordMarkerCommandAttributes := {
  RecordMarkerCmd_marker_name : string;
  RecordMarkerCmd_details : gmap string Payloads;
  RecordMarkerCmd_header : option Header;
  RecordMarkerCmd_failure : option Failure;
}.

Record RequestCancelActivityTaskCommandAttributes := {
  RequestCancelActivityTaskCmd_scheduled_event_id : Z;
}.

Record RequestCancelExternalWorkflowExecutionCommandAttributes := {
  RequestCancelExternalWorkflowExecutionCmd_namespace : string;
  RequestCancelExternalWorkflowExecutionCmd_workflow_id : string;
  RequestCancelExternalWorkflowExecutionCmd_run_id : string;
  RequestCancelExternalWorkflowExecutionCmd_control : string;
  RequestCancelExternalWorkflowExecutionCmd_child_workflow_only : bool;
  RequestCancelExternalWorkflowExecutionCmd_reason : string;
}.

Record RequestCancelNexusOperationCommandAttributes := {
  RequestCancelNexusOperationCmd_scheduled_event_id : Z;
}.

Record ScheduleActivityTaskCommandAttributes := {
  ScheduleActivityTaskCmd_activity_id : string;
  ScheduleActivityTaskCmd_activity_type : option ActivityType;
  ScheduleActivityTaskCmd_task_queue : option TaskQueue;
  ScheduleActivityTaskCmd_header : option Header;
  ScheduleActivityTaskCmd_input : option Payloads;
  ScheduleActivityTaskCmd_schedule_to_close_timeout : option Duration;
  ScheduleActivityTaskCmd_schedule_to_start_timeout : option Duration;
  ScheduleActivityTaskCmd_start_to_close_timeout : option Duration;
  ScheduleActivityTaskCmd_heartbeat_timeout : option Duration;
  ScheduleActivityTaskCmd_retry_policy : option RetryPolicy;
  ScheduleActivityTaskCmd_request_eager_execution : bool;
  ScheduleActivityTaskCmd_use_workflow_build_id : bool;
  ScheduleActivityTaskCmd_priority : option Priority;
}.

Record ScheduleNexusOperationCommandAttributes := {
  ScheduleNexusOperationCmd_endpoint : string;
  ScheduleNexusOperationCmd_service : string;
  ScheduleNexusOperationCmd_operation : string;
  ScheduleNexusOperationCmd_input : option Payload;
  ScheduleNexusOperationCmd_schedule_to_close_timeout : option Duration;
  ScheduleNexusOperationCmd_nexus_header : gmap string string;
}.

Record SignalExternalWorkflowExecutionCommandAttributes := {
  SignalExternalWorkflowExecutionCmd_namespace : string;
  SignalExternalWorkflowExecutionCmd_execution : option WorkflowExecution;
  SignalExternalWorkflowExecutionCmd_signal_name : string;
  SignalExternalWorkflowExecutionCmd_input : option Payloads;
  SignalExternalWorkflowExecutionCmd_control : string;
  SignalExternalWorkflowExecutionCmd_child_workflow_only : bool;
  SignalExternalWorkflowExecutionCmd_header : option Header;
}.

Record StartChildWorkflowExecutionCommandAttributes := {
  StartChildWorkflowExecutionCmd_namespace : string;
  StartChildWorkflowExecutionCmd_workflow_id : string;
  StartChildWorkflowExecutionCmd_workflow_type : option WorkflowType;
  StartChildWorkflowExecutionCmd_task_queue : option TaskQueue;
  StartChildWorkflowExecutionCmd_input : option Payloads;
  StartChildWorkflowExecutionCmd_workflow_execution_timeout : option Duration;
  StartChildWorkflowExecutionCmd_workflow_run_timeout : option Duration;
  StartChildWorkflowExecutionCmd_workflow_task_timeout : option Duration;
  StartChildWorkflowExecutionCmd_parent_close_policy : Z;
  StartChildWorkflowExecutionCmd_control : string;
  StartChildWorkflowExecutionCmd_workflow_id_reuse_policy : Z;
  StartChildWorkflowExecutionCmd_retry_policy : option RetryPolicy;
  StartChildWorkflowExecutionCmd_cron_schedule : string;
  StartChildWorkflowExecutionCmd_header : option Header;
  StartChildWorkflowExecutionCmd_memo : option Memo;
  StartChildWorkflowExecutionCmd_search_attributes : option SearchAttributes;
  StartChildWorkflowExecutionCmd_inherit_build_id : bool;
  StartChildWorkflowExecutionCmd_priority : option Priority;
}.

Record StartTimerCommandAttributes := {
  StartTimerCmd_timer_id : string;
  StartTimerCmd_start_to_fire_timeout : option Duration;
}.

Record UpsertWorkflowSearchAttributesCommandAttributes := {
  UpsertWorkflowSearchAttributesCmd_search_attributes : option SearchAttributes;
}.

Inductive Attributes :=
| CA_ScheduleActivityTask (v : ScheduleActivityTaskCommandAttributes)
| CA_StartTimer (v : StartTimerCommandAttributes)
| CA_CompleteWorkflowExecution (v : CompleteWorkflowExecutionCommandAttributes)
| CA_FailWorkflowExecution (v : FailWorkflowExecutionCommandAttributes)
| CA_RequestCancelActivityTask (v : RequestCancelActivityTaskCommandAttributes)
| CA_CancelTimer (v : CancelTimerCommandAttributes)
| CA_CancelWorkflowExecution (v : CancelWorkflowExecutionCommandAttributes)
| CA_RequestCancelExternalWorkflowExecution (v : RequestCancelExternalWorkflowExecutionCommandAttributes)
| CA_RecordMarker (v : RecordMarkerCommandAttributes)
| CA_ContinueAsNewWorkflowExecution (v : ContinueAsNewWorkflowExecutionCommandAttributes)
| CA_StartChildWorkflowExecution (v : StartChildWorkflowExecutionCommandAttributes)
| CA_SignalExternalWorkflowExecution (v : SignalExternalWorkflowExecutionCommandAttributes)
| CA_UpsertWorkflowSearchAttributes (v : UpsertWorkflowSearchAttributesCommandAttributes)
| CA_ProtocolMessage (v : ProtocolMessageCommandAttributes)
| CA_ModifyWorkflowProperties (v : ModifyWorkflowPropertiesCommandAttributes)
| CA_ScheduleNexusOperation (v : ScheduleNexusOperationCommandAttributes)
| CA_RequestCancelNexusOperation (v : RequestCancelNexusOperationCommandAttributes).

Record Command := {
  Command_command_type : Z;
  Command_user_metadata : option UserMetadata;
  Command_attributes : option Attributes;
}.

(** ** Commands from lang *)

Record CancelChildWorkflowExecution := {
  CancelChildWorkflowExecution_child_workflow_seq : Z;
  CancelChildWorkflowExecution_reason : string;
}.

Record CancelSignalWorkflow := {
  CancelSignalWorkflow_seq : Z;
}.

Record CancelTimer := {
  CancelTimer_seq : Z;
}.

Record CancelWorkflowExecution : Set := { }.

Record CompleteWorkflowExecution := {
  CompleteWorkflowExecution_result : option Payload;
}.

Record ContinueAsNewWorkflowExecution := {
  ContinueAsNewWorkflowExecution_workflow_type : string;
  ContinueAsNewWorkflowExecution_task_queue : string;
  ContinueAsNewWorkflowExecution_arguments : list Payload;
  ContinueAsNewWorkflowExecution_workflow_run_timeout : option Duration;
  ContinueAsNewWorkflowExecution_workflow_task_timeout : option Duration;
  ContinueAsNewWorkflowExecution_memo : gmap string Payload;
  ContinueAsNewWorkflowExecution_headers : gmap string Payload;
  ContinueAsNewWorkflowExecution_search_attributes : gmap string Payload;
  ContinueAsNewWorkflowExecution_retry_policy : option RetryPolicy;
  ContinueAsNewWorkflowExecution_versioning_intent : Z;
}.

Record FailWorkflowExecution := {
  FailWorkflowExecution_failure : option Failure;
}.

Record ModifyWorkflowProperties := {
  ModifyWorkflowProperties_upserted_memo : option Memo;
}.

Record QuerySuccess := {
  QuerySuccess_response : option Payload;
}.

Inductive QueryResult_Variant :=
| QueryResult_Succeeded (v : QuerySuccess)
| QueryResult_Failed (v : Failure).

Record QueryResult := {
  QueryResult_query_id : string;
  QueryResult_variant : option QueryResult_Variant;
}.

Record RequestCancelActivity := {
  RequestCancelActivity_seq : Z;
}.

Record NamespacedWorkflowExecution := {
  NamespacedWorkflowExecution_namespace : string;
  NamespacedWorkflowExecution_workflow_id : string;
  NamespacedWorkflowExecution_run_id : string;
}.

Record RequestCancelExternalWorkflowExecution := {
  RequestCancelExternalWorkflowExecution_seq : Z;
  RequestCancelExternalWorkflowExecution_workflow_execution : option NamespacedWorkflowExecution;
  RequestCancelExternalWorkflowExecution_reason : string;
}.

Record RequestCancelLocalActivity := {
  RequestCancelLocalActivity_seq : Z;
}.

Record RequestCancelNexusOperation := {
  RequestCancelNexusOperation_seq : Z;
}.

Record ScheduleActivity := {
  ScheduleActivity_seq : Z;
  ScheduleActivity_activity_id : string;
  ScheduleActivity_activity_type : string;
  ScheduleActivity_task_queue : string;
  ScheduleActivity_headers : gmap string Payload;
  ScheduleActivity_arguments : list Payload;
  ScheduleActivity_schedule_to_close_timeout : option Duration;
  ScheduleActivity_schedule_to_start_timeout : option Duration;
  ScheduleActivity_start_to_close_timeout : option Duration;
  ScheduleActivity_heartbeat_timeout : option Duration;
  ScheduleActivity_retry_policy : option RetryPolicy;
  ScheduleActivity_cancellation_type : Z;
  ScheduleActivity_do_not_eagerly_execute : bool;
  ScheduleActivity_versioning_intent : Z;
  ScheduleActivity_priority : option Priority;
}.
Definition ScheduleActivity_default : ScheduleActivity :=
  {| ScheduleActivity_seq := 0%Z;
     ScheduleActivity_activity_id := "";
     ScheduleActivity_activity_type := "";
     ScheduleActivity_task_queue := "";
     ScheduleActivity_headers := ∅;
     ScheduleActivity_arguments := [];
     ScheduleActivity_schedule_to_close_timeout := None;
     ScheduleActivity_schedule_to_start_timeout := None;
     ScheduleActivity_start_to_close_timeout := None;
     ScheduleActivity_heartbeat_timeout := None;
     ScheduleActivity_retry_policy := None;
     ScheduleActivity_cancellation_type := 0%Z;
     ScheduleActivity_do_not_eagerly_execute := false;
     ScheduleActivity_versioning_intent := 0%Z;
     ScheduleActivity_priority := None |}.

Record ScheduleLocalActivity := {
  ScheduleLocalActivity_seq : Z;
  ScheduleLocalActivity_activity_id : string;
  ScheduleLocalActivity_activity_type : string;
  ScheduleLocalActivity_attempt : Z;
  ScheduleLocalActivity_original_schedule_time : option Timestamp;
  ScheduleLocalActivity_headers : gmap string Payload;
  ScheduleLocalActivity_arguments : list Payload;
  ScheduleLocalActivity_schedule_to_close_timeout : option Duration;
  ScheduleLocalActivity_schedule_to_start_timeout : option Duration;
  ScheduleLocalActivity_start_to_close_timeout : option Duration;
  ScheduleLocalActivity_retry_policy : option RetryPolicy;
  ScheduleLocalActivity_local_retry_threshold : option Duration;
  ScheduleLocalActivity_cancellation_type : Z;
}.
Definition ScheduleLocalActivity_default : ScheduleLocalActivity :=
  {| ScheduleLocalActivity_seq := 0%Z;
     ScheduleLocalActivity_activity_id := "";
     ScheduleLocalActivity_activity_type := "";
     ScheduleLocalActivity_attempt := 0%Z;
     ScheduleLocalActivity_original_schedule_time := None;
     ScheduleLocalActivity_headers := ∅;
     ScheduleLocalActivity_arguments := [];
     ScheduleLocalActivity_schedule_to_close_timeout := None;
     ScheduleLocalActivity_schedule_to_start_timeout := None;
     ScheduleLocalActivity_start_to_close_timeout := None;
     ScheduleLocalActivity_retry_policy := None;
     ScheduleLocalActivity_local_retry_threshold := None;
     ScheduleLocalActivity_cancellation_type := 0%Z |}.

Record ScheduleNexusOperation := {
  ScheduleNexusOperation_seq : Z;
  ScheduleNexusOperation_endpoint : string;
  ScheduleNexusOperation_service : string;
  ScheduleNexusOperation_operation : string;
  ScheduleNexusOperation_input : option Payload;
  ScheduleNexusOperation_schedule_to_close_timeout : option Duration;
  ScheduleNexusOperation_nexus_header : gmap string string;
  ScheduleNexusOperation_cancellation_type : Z;
}.
Definition ScheduleNexusOperation_default : ScheduleNexusOperation :=
  {| ScheduleNexusOperation_seq := 0%Z;
     ScheduleNexusOperation_endpoint := "";
     ScheduleNexusOperation_service := "";
     ScheduleNexusOperation_operation := "";
     ScheduleNexusOperation_input := None;
     ScheduleNexusOperation_schedule_to_close_timeout := None;
     ScheduleNexusOperation_nexus_header := ∅;
     ScheduleNexusOperation_cancellation_type := 0%Z |}.

Record SetPatchMarker := {
  SetPatchMarker_patch_id : string;
  SetPatchMarker_deprecated : bool;
}.

Inductive SignalExternalWorkflowExecution_Target :=
| SignalExternalWorkflowExecution_WorkflowExecution (v : NamespacedWorkflowExecution)
| SignalExternalWorkflowExecution_ChildWorkflowId (v : string).

Record SignalExternalWorkflowExecution := {
  SignalExternalWorkflowExecution_seq : Z;
  SignalExternalWorkflowExecution_target : option SignalExternalWorkflowExecution_Target;
  SignalExternalWorkflowExecution_signal_name : string;
  SignalExternalWorkflowExecution_args : list Payload;
  SignalExternalWorkflowExecution_headers : gmap string Payload;
}.

Record StartChildWorkflowExecution := {
  StartChildWorkflowExecution_seq : Z;
  StartChildWorkflowExecution_namespace : string;
  StartChildWorkflowExecution_workflow_id : string;
  StartChildWorkflowExecution_workflow_type : string;
  StartChildWorkflowExecution_task_queue : string;
  StartChildWorkflowExecution_input : list Payload;
  StartChildWorkflowExecution_workflow_execution_timeout : option Duration;
  StartChildWorkflowExecution_workflow_run_timeout : option Duration;
  StartChildWorkflowExecution_workflow_task_timeout : option Duration;
  StartChildWorkflowExecution_parent_close_policy : Z;
  StartChildWorkflowExecution_workflow_id_reuse_policy : Z;
  StartChildWorkflowExecution_retry_policy : option RetryPolicy;
  StartChildWorkflowExecution_cron_schedule : string;
  StartChildWorkflowExecution_headers : gmap string Payload;
  StartChildWorkflowExecution_memo : gmap string Payload;
  StartChildWorkflowExecution_search_attributes : gmap string Payload;
  StartChildWorkflowExecution_cancellation_type : Z;
  StartChildWorkflowExecution_versioning_intent : Z;
  StartChildWorkflowExecution_priority : option Priority;
}.
Definition StartChildWorkflowExecution_default : StartChildWorkflowExecution :=
  {| StartChildWorkflowExecution_seq := 0%Z;
     StartChildWorkflowExecution_namespace := "";
     StartChildWorkflowExecution_workflow_id := "";
     StartChildWorkflowExecution_workflow_type := "";
     StartChildWorkflowExecution_task_queue := "";
     StartChildWorkflowExecution_input := [];
     StartChildWorkflowExecution_workflow_execution_timeout := None;
     StartChildWorkflowExecution_workflow_run_timeout := None;
     StartChildWorkflowExecution_workflow_task_timeout := None;
     StartChildWorkflowExecution_parent_close_policy := 0%Z;
     StartChildWorkflowExecution_workflow_id_reuse_policy := 0%Z;
     StartChildWorkflowExecution_retry_policy := None;
     StartChildWorkflowExecution_cron_schedule := "";
     StartChildWorkflowExecution_headers := ∅;
     StartChildWorkflowExecution_memo := ∅;
     StartChildWorkflowExecution_search_attributes := ∅;
     StartChildWorkflowExecution_cancellation_type := 0%Z;
     StartChildWorkflowExecution_versioning_intent := 0%Z;
     StartChildWorkflowExecution_priority := None |}.

Record StartTimer := {
  StartTimer_seq : Z;
  StartTimer_start_to_fire_timeout : option Duration;
}.

Inductive UpdateResponse_Response :=
| UpdateResponse_Accepted (v : unit)
| UpdateResponse_Rejected (v : Failure)
| UpdateResponse_Completed (v : Payload).

Record UpdateResponse := {
  UpdateResponse_protocol_instance_id : string;
  UpdateResponse_response : option UpdateResponse_Response;
}.

Record UpsertWorkflowSearchAttributes := {
  UpsertWorkflowSearchAttributes_search_attributes : gmap string Payload;
}.

Inductive WorkflowCommandVariant :=
| WC_StartTimer (v : StartTimer)
| WC_ScheduleActivity (v : ScheduleActivity)
| WC_RespondToQuery (v : QueryResult)
| WC_RequestCancelActivity (v : RequestCancelActivity)
| WC_CancelTimer (v : CancelTimer)
| WC_CompleteWorkflowExecution (v : CompleteWorkflowExecution)
| WC_FailWorkflowExecution (v : FailWorkflowExecution)
| WC_ContinueAsNewWorkflowExecution (v : ContinueAsNewWorkflowExecution)
| WC_CancelWorkflowExecution (v : CancelWorkflowExecution)
| WC_SetPatchMarker (v : SetPatchMarker)
| WC_StartChildWorkflowExecution (v : StartChildWorkflowExecution)
| WC_CancelChildWorkflowExecution (v : CancelChildWorkflowExecution)
| WC_RequestCancelExternalWorkflowExecution (v : RequestCancelExternalWorkflowExecution)
| WC_SignalExternalWorkflowExecution (v : SignalExternalWorkflowExecution)
| WC_CancelSignalWorkflow (v : CancelSignalWorkflow)
| WC_ScheduleLocalActivity (v : ScheduleLocalActivity)
| WC_RequestCancelLocalActivity (v : RequestCancelLocalActivity)
| WC_UpsertWorkflowSearchAttributes (v : UpsertWorkflowSearchAttributes)
| WC_ModifyWorkflowProperties (v : ModifyWorkflowProperties)
| WC_UpdateResponse (v : UpdateResponse)
| WC_ScheduleNexusOperation (v : ScheduleNexusOperation)
| WC_RequestCancelNexusOperation (v : RequestCancelNexusOperation).

Record WorkflowCommand := {
  WorkflowCommand_user_metadata : option UserMetadata;
  WorkflowCommand_variant : option WorkflowCommandVariant;
}.

(** ** Activations *)

Record WorkerDeploymentVersion := {
  WorkerDeploymentVersion_deployment_name : string;
  WorkerDeploymentVersion_build_id : string;
}.

Record CancelWorkflow := {
  CancelWorkflow_reason : string;
}.

Record DoUpdate := {
  DoUpdate_id : string;
  DoUpdate_protocol_instance_id : string;
  DoUpdate_name : string;
  DoUpdate_input : list Payload;
  DoUpdate_headers : gmap string Payload;
  DoUpdate_meta : option Meta;
  DoUpdate_run_validator : bool;
}.

Record FireTimer := {
  FireTimer_seq : Z;
}.

Record InitializeWorkflow := {
  InitializeWorkflow_workflow_type : string;
  InitializeWorkflow_workflow_id : string;
  InitializeWorkflow_arguments : list Payload;
  InitializeWorkflow_randomness_seed : Z;
  InitializeWorkflow_headers : gmap string Payload;
  InitializeWorkflow_identity : string;
  InitializeWorkflow_parent_workflow_info : option NamespacedWorkflowExecution;
  InitializeWorkflow_workflow_execution_timeout : option Duration;
  InitializeWorkflow_workflow_run_timeout : option Duration;
  InitializeWorkflow_workflow_task_timeout : option Duration;
  InitializeWorkflow_continued_from_execution_run_id : string;
  InitializeWorkflow_continued_initiator : Z;
  InitializeWorkflow_continued_failure : option Failure;
  InitializeWorkflow_last_completion_result : option Payloads;
  InitializeWorkflow_first_execution_run_id : string;
  InitializeWorkflow_retry_policy : option RetryPolicy;
  InitializeWorkflow_attempt : Z;
  InitializeWorkflow_cron_schedule : string;
  InitializeWorkflow_workflow_execution_expiration_time : option Timestamp;
  InitializeWorkflow_cron_schedule_to_schedule_interval : option Duration;
  InitializeWorkflow_memo : option Memo;
  InitializeWorkflow_search_attributes : option SearchAttributes;
  InitializeWorkflow_start_time : option Timestamp;
  InitializeWorkflow_root_workflow : option WorkflowExecution;
  InitializeWorkflow_priority : option Priority;
}.

Record NotifyHasPatch := {
  NotifyHasPatch_patch_id : string;
}.

Record QueryWorkflow := {
  QueryWorkflow_query_id : string;
  QueryWorkflow_query_type : string;
  QueryWorkflow_arguments : list Payload;
  QueryWorkflow_headers : gmap string Payload;
}.

Record RemoveFromCache := {
  RemoveFromCache_message : string;
  RemoveFromCache_reason : Z;
}.

Record DoBackoff := {
  DoBackoff_attempt : Z;
  DoBackoff_backoff_duration : option Duration;
  DoBackoff_original_schedule_time : option Timestamp;
}.

Record ar_Cancellation := {
  ar_Cancellation_failure : option Failure;
}.

Record ar_Failure := {
  ar_Failure_failure : option Failure;
}.

Record ar_Success := {
  ar_Success_result : option Payload;
}.

Inductive ActivityResolution_Status :=
| ActivityResolution_Completed (v : ar_Success)
| ActivityResolution_Failed (v : ar_Failure)
| ActivityResolution_Cancelled (v : ar_Cancellation)
| ActivityResolution_Backoff (v : DoBackoff).

Record ActivityResolution := {
  ActivityResolution_status : option ActivityResolution_Status;
}.

Record ResolveActivity := {
  ResolveActivity_seq : Z;
  ResolveActivity_result : option ActivityResolution;
  ResolveActivity_is_local : bool;
}.

Record cw_Cancellation := {
  cw_Cancellation_failure : option Failure;
}.

Record cw_Failure := {
  cw_Failure_failure : option Failure;
}.

Record cw_Success := {
  cw_Success_result : option Payload;
}.

Inductive ChildWorkflowResult_Status :=
| ChildWorkflowResult_Completed (v : cw_Success)
| ChildWorkflowResult_Failed (v : cw_Failure)
| ChildWorkflowResult_Cancelled (v : cw_Cancellation).

Record ChildWorkflowResult := {
  ChildWorkflowResult_status : option ChildWorkflowResult_Status;
}.

Record ResolveChildWorkflowExecution := {
  ResolveChildWorkflowExecution_seq : Z;
  ResolveChildWorkflowExecution_result : option ChildWorkflowResult;
}.

Record ResolveChildWorkflowExecutionStartCancelled := {
  ResolveChildWorkflowExecutionStartCancelled_failure : option Failure;
}.

Record ResolveChildWorkflowExecutionStartFailure := {
  ResolveChildWorkflowExecutionStartFailure_workflow_id : string;
  ResolveChildWorkflowExecutionStartFailure_workflow_type : string;
  ResolveChildWorkflowExecutionStartFailure_cause : Z;
}.

Record ResolveChildWorkflowExecutionStartSuccess := {
  ResolveChildWorkflowExecutionStartSuccess_run_id : string;
}.

Inductive ResolveChildWorkflowExecutionStart_Status :=
| ResolveChildWorkflowExecutionStart_Succeeded (v : ResolveChildWorkflowExecutionStartSuccess)
| ResolveChildWorkflowExecutionStart_Failed (v : ResolveChildWorkflowExecutionStartFailure)
| ResolveChildWorkflowExecutionStart_Cancelled (v : ResolveChildWorkflowExecutionStartCancelled).

Record ResolveChildWorkflowExecutionStart := {
  ResolveChildWorkflowExecutionStart_seq : Z;
  ResolveChildWorkflowExecutionStart_status : option ResolveChildWorkflowExecutionStart_Status;
}.

Inductive NexusOperationResult_Status :=
| NexusOperationResult_Completed (v : Payload)
| NexusOperationResult_Failed (v : Failure)
| NexusOperationResult_Cancelled (v : Failure)
| NexusOperationResult_TimedOut (v : Failure).

Record NexusOperationResult := {
  NexusOperationResult_status : option NexusOperationResult_Status;
}.

Record ResolveNexusOperation := {
  ResolveNexusOperation_seq : Z;
  ResolveNexusOperation_result : option NexusOperationResult;
}.

Inductive ResolveNexusOperationStart_Status :=
| ResolveNexusOperationStart_OperationToken (v : string)
| ResolveNexusOperationStart_StartedSync (v : bool)
| ResolveNexusOperationStart_Failed (v : Failure).

Record ResolveNexusOperationStart := {
  ResolveNexusOperationStart_seq : Z;
  ResolveNexusOperationStart_status : option ResolveNexusOperationStart_Status;
}.

Record ResolveRequestCancelExternalWorkflow := {
  ResolveRequestCancelExternalWorkflow_seq : Z;
  ResolveRequestCancelExternalWorkflow_failure : option Failure;
}.

Record ResolveSignalExternalWorkflow := {
  ResolveSignalExternalWorkflow_seq : Z;
  ResolveSignalExternalWorkflow_failure : option Failure;
}.

Record SignalWorkflow := {
  SignalWorkflow_signal_name : string;
  SignalWorkflow_input : list Payload;
  SignalWorkflow_identity : string;
  SignalWorkflow_headers : gmap string Payload;
}.

Record UpdateRandomSeed := {
  UpdateRandomSeed_randomness_seed : Z;
}.

Inductive JobVariant :=
| J_InitializeWorkflow (v : InitializeWorkflow)
| J_FireTimer (v : FireTimer)
| J_UpdateRandomSeed (v : UpdateRandomSeed)
| J_QueryWorkflow (v : QueryWorkflow)
| J_CancelWorkflow (v : CancelWorkflow)
| J_SignalWorkflow (v : SignalWorkflow)
| J_ResolveActivity (v : ResolveActivity)
| J_NotifyHasPatch (v : NotifyHasPatch)
| J_ResolveChildWorkflowExecutionStart (v : ResolveChildWorkflowExecutionStart)
| J_ResolveChildWorkflowExecution (v : ResolveChildWorkflowExecution)
| J_ResolveSignalExternalWorkflow (v : ResolveSignalExternalWorkflow)
| J_ResolveRequestCancelExternalWorkflow (v : ResolveRequestCancelExternalWorkflow)
| J_DoUpdate (v : DoUpdate)
| J_ResolveNexusOperationStart (v : ResolveNexusOperationStart)
| J_ResolveNexusOperation (v : ResolveNexusOperation)
| J_RemoveFromCache (v : RemoveFromCache).

Record WorkflowActivationJob := {
  WorkflowActivationJob_variant : option JobVariant;
}.

Record WorkflowActivation := {
  WorkflowActivation_run_id : string;
  WorkflowActivation_timestamp : option Timestamp;
  WorkflowActivation_is_replaying : bool;
  WorkflowActivation_history_length : Z;
  WorkflowActivation_jobs : list WorkflowActivationJob;
  WorkflowActivation_available_internal_flags : list Z;
  WorkflowActivation_history_size_bytes : Z;
  WorkflowActivation_continue_as_new_suggested : bool;
  WorkflowActivation_deployment_version_for_current_task : option WorkerDeploymentVersion;
}.

(** ** Update protocol and marker data *)

Inductive Message_SequencingId :=
| Message_EventId (v : Z)
| Message_CommandIndex (v : Z).

Record Message := {
  Message_id : string;
  Message_protocol_instance_id : string;
  Message_sequencing_id : option Message_SequencingId;
  Message_body : option Any;
}.

Record Acceptance := {
  Acceptance_accepted_request_message_id : string;
  Acceptance_accepted_request_sequencing_event_id : Z;
  Acceptance_accepted_request : option Request;
}.

Record Rejection := {
  Rejection_rejected_request_message_id : string;
  Rejection_rejected_request_sequencing_event_id : Z;
  Rejection_rejected_request : option Request;
  Rejection_failure : option Failure;
}.

Record Response := {
  Response_meta : option Meta;
  Response_outcome : option Outcome;
}.

Record LocalActivityMarkerData := {
  LocalActivityMarkerData_seq : Z;
  LocalActivityMarkerData_attempt : Z;
  LocalActivityMarkerData_activity_id : string;
  LocalActivityMarkerData_activity_type : string;
  LocalActivityMarkerData_complete_time : option Timestamp;
  LocalActivityMarkerData_backoff : option Duration;
  LocalActivityMarkerData_original_schedule_time : option Timestamp;
}.

Record PatchedMarkerData := {
  PatchedMarkerData_id : string;
  PatchedMarkerData_deprecated : bool;
}.

Record WillCompleteAsync : Set := { }.

Inductive ActivityExecutionResult_Status :=
| ActivityExecutionResult_Completed (v : ar_Success)
| ActivityExecutionResult_Failed (v : ar_Failure)
| ActivityExecutionResult_Cancelled (v : ar_Cancellation)
| ActivityExecutionResult_WillCompleteAsync (v : WillCompleteAsync).

Record ActivityExecutionResult := {
  ActivityExecutionResult_status : option ActivityExecutionResult_Status;
}.
