(* ===== verification/ProtoExt.v ===== *)
(** * Extensions of the protocol messages (sdk-core-protos/src/lib.rs)

    Classification of history events, conversions from the commands of lang to
    the commands of the server, payload and failure helpers, and the marker
    details of patches and local activities.  [serde_json] is the interface
    [Json]. *)
From Stdlib Require Import ZArith Lia.
From stdpp Require Import base option list strings gmap.
From S2P Require Import Prelude Flags Protos.

(** ** History events *)

(** prost's getter: an unknown number reads as the default variant. *)
Definition event_type (e : HistoryEvent) : EventType :=
  default ET_Unspecified (EventType_try_from e.(HistoryEvent_event_type)).

(** [Display for HistoryEvent]. *)
Definition HistoryEvent_display (e : HistoryEvent) : string :=
  "HistoryEvent(id: " +:+ to_string e.(HistoryEvent_event_id) +:+ ", "
    +:+ EventType_debug (event_type e) +:+ ")".

Definition is_command_event (e : HistoryEvent) : bool :=
  match EventType_try_from e.(HistoryEvent_event_type) with
  | None => false
  | Some et =>
      match et with
      | ET_ActivityTaskScheduled
      | ET_ActivityTaskCancelRequested
      | ET_MarkerRecorded
      | ET_RequestCancelExternalWorkflowExecutionInitiated
      | ET_SignalExternalWorkflowExecutionInitiated
      | ET_StartChildWorkflowExecutionInitiated
      | ET_TimerCanceled
      | ET_TimerStarted
      | ET_UpsertWorkflowSearchAttributes
      | ET_WorkflowPropertiesModified
      | ET_NexusOperationScheduled
      | ET_NexusOperationCancelRequested
      | ET_WorkflowExecutionCanceled
      | ET_WorkflowExecutionCompleted
      | ET_WorkflowExecutionContinuedAsNew
      | ET_WorkflowExecutionFailed
      | ET_WorkflowExecutionUpdateAccepted
      | ET_WorkflowExecutionUpdateRejected
      | ET_WorkflowExecutionUpdateCompleted => true
      | _ => false
      end
  end.

Definition get_initial_command_event_id (e : HistoryEvent) : option Z :=
  a ← e.(HistoryEvent_attributes);
  match a with
  | HA_ActivityTaskStarted a => Some a.(ActivityTaskStartedEv_scheduled_event_id)
  | HA_ActivityTaskCompleted a => Some a.(ActivityTaskCompletedEv_scheduled_event_id)
  | HA_ActivityTaskFailed a => Some a.(ActivityTaskFailedEv_scheduled_event_id)
  | HA_ActivityTaskTimedOut a => Some a.(ActivityTaskTimedOutEv_scheduled_event_id)
  | HA_ActivityTaskCancelRequested a => Some a.(ActivityTaskCancelRequestedEv_scheduled_event_id)
  | HA_ActivityTaskCanceled a => Some a.(ActivityTaskCanceledEv_scheduled_event_id)
  | HA_TimerFired a => Some a.(TimerFiredEv_started_event_id)
  | HA_TimerCanceled a => Some a.(TimerCanceledEv_started_event_id)
  | HA_RequestCancelExternalWorkflowExecutionFailed a => Some a.(RequestCancelExternalWorkflowExecutionFailedEv_initiated_event_id)
  | HA_ExternalWorkflowExecutionCancelRequested a => Some a.(ExternalWorkflowExecutionCancelRequestedEv_initiated_event_id)
  | HA_StartChildWorkflowExecutionFailed a => Some a.(StartChildWorkflowExecutionFailedEv_initiated_event_id)
  | HA_ChildWorkflowExecutionStarted a => Some a.(ChildWorkflowExecutionStartedEv_initiated_event_id)
  | HA_ChildWorkflowExecutionCompleted a => Some a.(ChildWorkflowExecutionCompletedEv_initiated_event_id)
  | HA_ChildWorkflowExecutionFailed a => Some a.(ChildWorkflowExecutionFailedEv_initiated_event_id)
  | HA_ChildWorkflowExecutionCanceled a => Some a.(ChildWorkflowExecutionCanceledEv_initiated_event_id)
  | HA_ChildWorkflowExecutionTimedOut a => Some a.(ChildWorkflowExecutionTimedOutEv_initiated_event_id)
  | HA_ChildWorkflowExecutionTerminated a => Some a.(ChildWorkflowExecutionTerminatedEv_initiated_event_id)
  | HA_SignalExternalWorkflowExecutionFailed a => Some a.(SignalExternalWorkflowExecutionFailedEv_initiated_event_id)
  | HA_ExternalWorkflowExecutionSignaled a => Some a.(ExternalWorkflowExecutionSignaledEv_initiated_event_id)
  | HA_WorkflowTaskStarted a => Some a.(WorkflowTaskStartedEv_scheduled_event_id)
  | HA_WorkflowTaskCompleted a => Some a.(WorkflowTaskCompletedEv_scheduled_event_id)
  | HA_WorkflowTaskTimedOut a => Some a.(WorkflowTaskTimedOutEv_scheduled_event_id)
  | HA_WorkflowTaskFailed a => Some a.(WorkflowTaskFailedEv_scheduled_event_id)
  | HA_NexusOperationStarted a => Some a.(NexusOperationStartedEv_scheduled_event_id)
  | HA_NexusOperationCompleted a => Some a.(NexusOperationCompletedEv_scheduled_event_id)
  | HA_NexusOperationFailed a => Some a.(NexusOperationFailedEv_scheduled_event_id)
  | HA_NexusOperationTimedOut a => Some a.(NexusOperationTimedOutEv_scheduled_event_id)
  | HA_NexusOperationCanceled a => Some a.(NexusOperationCanceledEv_scheduled_event_id)
  | HA_NexusOperationCancelRequested a => Some a.(NexusOperationCancelRequestedEv_scheduled_event_id)
  | HA_NexusOperationCancelRequestCompleted a => Some a.(NexusOperationCancelRequestCompletedEv_scheduled_event_id)
  | HA_NexusOperationCancelRequestFailed a => Some a.(NexusOperationCancelRequestFailedEv_scheduled_event_id)
  | _ => None
  end.

Definition get_protocol_instance_id (e : HistoryEvent) : option string :=
  a ← e.(HistoryEvent_attributes);
  match a with
  | HA_WorkflowExecutionUpdateAccepted a =>
      Some a.(WorkflowExecutionUpdateAcceptedEv_protocol_instance_id)
  | _ => None
  end.

Definition is_final_wf_execution_event (e : HistoryEvent) : bool :=
  match event_type e with
  | ET_WorkflowExecutionCompleted => true
  | ET_WorkflowExecutionCanceled => true
  | ET_WorkflowExecutionFailed => true
  | ET_WorkflowExecutionTimedOut => true
  | ET_WorkflowExecutionContinuedAsNew => true
  | ET_WorkflowExecutionTerminated => true
  | _ => false
  end.

Definition is_wft_closed_event (e : HistoryEvent) : bool :=
  match event_type e with
  | ET_WorkflowTaskCompleted => true
  | ET_WorkflowTaskFailed => true
  | ET_WorkflowTaskTimedOut => true
  | _ => false
  end.

(** [Attributes::event_type]. *)
Definition attributes_event_type (a : HistAttributes) : EventType :=
  match a with
  | HA_WorkflowExecutionStarted _ => ET_WorkflowExecutionStarted
  | HA_WorkflowExecutionCompleted _ => ET_WorkflowExecutionCompleted
  | HA_WorkflowExecutionFailed _ => ET_WorkflowExecutionFailed
  | HA_WorkflowExecutionTimedOut _ => ET_WorkflowExecutionTimedOut
  | HA_WorkflowTaskScheduled _ => ET_WorkflowTaskScheduled
  | HA_WorkflowTaskStarted _ => ET_WorkflowTaskStarted
  | HA_WorkflowTaskCompleted _ => ET_WorkflowTaskCompleted
  | HA_WorkflowTaskTimedOut _ => ET_WorkflowTaskTimedOut
  | HA_WorkflowTaskFailed _ => ET_WorkflowTaskFailed
  | HA_ActivityTaskScheduled _ => ET_ActivityTaskScheduled
  | HA_ActivityTaskStarted _ => ET_ActivityTaskStarted
  | HA_ActivityTaskCompleted _ => ET_ActivityTaskCompleted
  | HA_ActivityTaskFailed _ => ET_ActivityTaskFailed
  | HA_ActivityTaskTimedOut _ => ET_ActivityTaskTimedOut
  | HA_TimerStarted _ => ET_TimerStarted
  | HA_TimerFired _ => ET_TimerFired
  | HA_ActivityTaskCancelRequested _ => ET_ActivityTaskCancelRequested
  | HA_ActivityTaskCanceled _ => ET_ActivityTaskCanceled
  | HA_TimerCanceled _ => ET_TimerCanceled
  | HA_MarkerRecorded _ => ET_MarkerRecorded
  | HA_WorkflowExecutionSignaled _ => ET_WorkflowExecutionSignaled
  | HA_WorkflowExecutionTerminated _ => ET_WorkflowExecutionTerminated
  | HA_WorkflowExecutionCancelRequested _ => ET_WorkflowExecutionCancelRequested
  | HA_WorkflowExecutionCanceled _ => ET_WorkflowExecutionCanceled
  | HA_RequestCancelExternalWorkflowExecutionInitiated _ => ET_RequestCancelExternalWorkflowExecutionInitiated
  | HA_RequestCancelExternalWorkflowExecutionFailed _ => ET_RequestCancelExternalWorkflowExecutionFailed
  | HA_ExternalWorkflowExecutionCancelRequested _ => ET_ExternalWorkflowExecutionCancelRequested
  | HA_WorkflowExecutionContinuedAsNew _ => ET_WorkflowExecutionContinuedAsNew
  | HA_StartChildWorkflowExecutionInitiated _ => ET_StartChildWorkflowExecutionInitiated
  | HA_StartChildWorkflowExecutionFailed _ => ET_StartChildWorkflowExecutionFailed
  | HA_ChildWorkflowExecutionStarted _ => ET_ChildWorkflowExecutionStarted
  | HA_ChildWorkflowExecutionCompleted _ => ET_ChildWorkflowExecutionCompleted
  | HA_ChildWorkflowExecutionFailed _ => ET_ChildWorkflowExecutionFailed
  | HA_ChildWorkflowExecutionCanceled _ => ET_ChildWorkflowExecutionCanceled
  | HA_ChildWorkflowExecutionTimedOut _ => ET_ChildWorkflowExecutionTimedOut
  | HA_ChildWorkflowExecutionTerminated _ => ET_ChildWorkflowExecutionTerminated
  | HA_SignalExternalWorkflowExecutionInitiated _ => ET_SignalExternalWorkflowExecutionInitiated
  | HA_SignalExternalWorkflowExecutionFailed _ => ET_SignalExternalWorkflowExecutionFailed
  | HA_ExternalWorkflowExecutionSignaled _ => ET_ExternalWorkflowExecutionSignaled
  | HA_UpsertWorkflowSearchAttributes _ => ET_UpsertWorkflowSearchAttributes
  | HA_WorkflowExecutionUpdateAccepted _ => ET_WorkflowExecutionUpdateAccepted
  | HA_WorkflowExecutionUpdateRejected _ => ET_WorkflowExecutionUpdateRejected
  | HA_WorkflowExecutionUpdateCompleted _ => ET_WorkflowExecutionUpdateCompleted
  | HA_WorkflowPropertiesModifiedExternally _ => ET_WorkflowPropertiesModifiedExternally
  | HA_ActivityPropertiesModifiedExternally _ => ET_ActivityPropertiesModifiedExternally
  | HA_WorkflowPropertiesModified _ => ET_WorkflowPropertiesModified
  | HA_WorkflowExecutionUpdateAdmitted _ => ET_WorkflowExecutionUpdateAdmitted
  | HA_NexusOperationScheduled _ => ET_NexusOperationScheduled
  | HA_NexusOperationStarted _ => ET_NexusOperationStarted
  | HA_NexusOperationCompleted _ => ET_NexusOperationCompleted
  | HA_NexusOperationFailed _ => ET_NexusOperationFailed
  | HA_NexusOperationCanceled _ => ET_NexusOperationCanceled
  | HA_NexusOperationTimedOut _ => ET_NexusOperationTimedOut
  | HA_NexusOperationCancelRequested _ => ET_NexusOperationCancelRequested
  | HA_WorkflowExecutionOptionsUpdated _ => ET_WorkflowExecutionOptionsUpdated
  | HA_NexusOperationCancelRequestCompleted _ => ET_NexusOperationCancelRequestCompleted
  | HA_NexusOperationCancelRequestFailed _ => ET_NexusOperationCancelRequestFailed
  end.

(** ** Payloads *)

Definition into_payloads (l : list Payload) : option Payloads :=
  match l with
  | [] => None
  | _ => Some {| Payloads_payloads := l |}
  end.

Definition from_payloads (p : option Payloads) : list Payload :=
  match p with
  | None => []
  | Some p => p.(Payloads_payloads)
  end.

Definition Payloads_from (p : Payload) : Payloads := {| Payloads_payloads := [p] |}.

Inductive PayloadsToPayloadError := MoreThanOnePayload | NoPayload.

(** [TryFrom<Payloads> for Payload]: the vector is popped from its end. *)
Definition Payload_try_from (v : Payloads) : PayloadsToPayloadError + Payload :=
  match reverse v.(Payloads_payloads) with
  | [] => inl NoPayload
  | p :: rest => match rest with [] => inr p | _ => inl MoreThanOnePayload end
  end.

(** [Option<Payloads>::try_into_or_none], from utilities.rs. *)
Definition try_into_or_none (v : option Payloads) : option Payload :=
  p ← v;
  match Payload_try_from p with
  | inl _ => None
  | inr x => Some x
  end.

Definition TaskQueue_from (name : string) : TaskQueue :=
  {| TaskQueue_name := name; TaskQueue_kind := 1; TaskQueue_normal_name := "" |}.

Definition Header_from (m : gmap string Payload) : Header := {| Header_fields := m |}.
Definition Memo_from (m : gmap string Payload) : Memo := {| Memo_fields := m |}.
Definition SearchAttributes_from (m : gmap string Payload) : SearchAttributes :=
  {| SearchAttributes_indexed_fields := m |}.

(** ** Commands *)

(** [CommandAttributesExt::as_type]. *)
Definition as_type (a : Attributes) : CommandType :=
  match a with
  | CA_ScheduleActivityTask _ => CT_ScheduleActivityTask
  | CA_StartTimer _ => CT_StartTimer
  | CA_CompleteWorkflowExecution _ => CT_CompleteWorkflowExecution
  | CA_FailWorkflowExecution _ => CT_FailWorkflowExecution
  | CA_RequestCancelActivityTask _ => CT_RequestCancelActivityTask
  | CA_CancelTimer _ => CT_CancelTimer
  | CA_CancelWorkflowExecution _ => CT_CancelWorkflowExecution
  | CA_RequestCancelExternalWorkflowExecution _ => CT_RequestCancelExternalWorkflowExecution
  | CA_RecordMarker _ => CT_RecordMarker
  | CA_ContinueAsNewWorkflowExecution _ => CT_ContinueAsNewWorkflowExecution
  | CA_StartChildWorkflowExecution _ => CT_StartChildWorkflowExecution
  | CA_SignalExternalWorkflowExecution _ => CT_SignalExternalWorkflowExecution
  | CA_UpsertWorkflowSearchAttributes _ => CT_UpsertWorkflowSearchAttributes
  | CA_ProtocolMessage _ => CT_ProtocolMessage
  | CA_ModifyWorkflowProperties _ => CT_ModifyWorkflowProperties
  | CA_ScheduleNexusOperation _ => CT_ScheduleNexusOperation
  | CA_RequestCancelNexusOperation _ => CT_RequestCancelNexusOperation
  end.

Definition mk_command (ct : CommandType) (a : Attributes) : Command :=
  {| Command_command_type := CommandType_as_i32 ct;
     Command_user_metadata := None;
     Command_attributes := Some a |}.

(** [From<command::Attributes> for Command]: some kinds are [unimplemented!]. *)
Definition Command_from {E} (c : Attributes) : outcome E Command :=
  match c with
  | CA_StartTimer _ => Ok (mk_command CT_StartTimer c)
  | CA_CancelTimer _ => Ok (mk_command CT_CancelTimer c)
  | CA_CompleteWorkflowExecution _ => Ok (mk_command CT_CompleteWorkflowExecution c)
  | CA_FailWorkflowExecution _ => Ok (mk_command CT_FailWorkflowExecution c)
  | CA_ScheduleActivityTask _ => Ok (mk_command CT_ScheduleActivityTask c)
  | CA_RequestCancelActivityTask _ => Ok (mk_command CT_RequestCancelActivityTask c)
  | CA_ContinueAsNewWorkflowExecution _ => Ok (mk_command CT_ContinueAsNewWorkflowExecution c)
  | CA_CancelWorkflowExecution _ => Ok (mk_command CT_CancelWorkflowExecution c)
  | CA_RecordMarker _ => Ok (mk_command CT_RecordMarker c)
  | CA_ProtocolMessage _ => Ok (mk_command CT_ProtocolMessage c)
  | CA_RequestCancelNexusOperation _ => Ok (mk_command CT_RequestCancelNexusOperation c)
  | _ => Panic "not implemented"
  end.

(** [From<workflow_commands::_> for command::Attributes] and its relatives. *)
Definition start_timer_into (s : StartTimer) : Attributes :=
  CA_StartTimer {| StartTimerCmd_timer_id := to_string s.(StartTimer_seq);
                   StartTimerCmd_start_to_fire_timeout := s.(StartTimer_start_to_fire_timeout) |}.

Definition upsert_search_attributes_into (s : UpsertWorkflowSearchAttributes) : Attributes :=
  CA_UpsertWorkflowSearchAttributes
    {| UpsertWorkflowSearchAttributesCmd_search_attributes :=
         Some (SearchAttributes_from s.(UpsertWorkflowSearchAttributes_search_attributes)) |}.

Definition modify_workflow_properties_into (s : ModifyWorkflowProperties) : Attributes :=
  CA_ModifyWorkflowProperties
    {| ModifyWorkflowPropertiesCmd_upserted_memo :=
         s.(ModifyWorkflowProperties_upserted_memo) |}.

Definition cancel_timer_into (s : CancelTimer) : Attributes :=
  CA_CancelTimer {| CancelTimerCmd_timer_id := to_string s.(CancelTimer_seq) |}.

Definition schedule_activity_cmd_to_api (s : ScheduleActivity) (use_workflow_build_id : bool)
  : Attributes :=
  CA_ScheduleActivityTask
    {| ScheduleActivityTaskCmd_activity_id := s.(ScheduleActivity_activity_id);
       ScheduleActivityTaskCmd_activity_type :=
         Some {| ActivityType_name := s.(ScheduleActivity_activity_type) |};
       ScheduleActivityTaskCmd_task_queue := Some (TaskQueue_from s.(ScheduleActivity_task_queue));
       ScheduleActivityTaskCmd_header := Some (Header_from s.(ScheduleActivity_headers));
       ScheduleActivityTaskCmd_input := into_payloads s.(ScheduleActivity_arguments);
       ScheduleActivityTaskCmd_schedule_to_close_timeout :=
         s.(ScheduleActivity_schedule_to_close_timeout);
       ScheduleActivityTaskCmd_schedule_to_start_timeout :=
         s.(ScheduleActivity_schedule_to_start_timeout);
       ScheduleActivityTaskCmd_start_to_close_timeout :=
         s.(ScheduleActivity_start_to_close_timeout);
       ScheduleActivityTaskCmd_heartbeat_timeout := s.(ScheduleActivity_heartbeat_timeout);
       ScheduleActivityTaskCmd_retry_policy := s.(ScheduleActivity_retry_policy);
       ScheduleActivityTaskCmd_request_eager_execution :=
         negb s.(ScheduleActivity_do_not_eagerly_execute);
       ScheduleActivityTaskCmd_use_workflow_build_id := use_workflow_build_id;
       ScheduleActivityTaskCmd_priority := s.(ScheduleActivity_priority) |}.

Definition start_child_workflow_cmd_to_api (s : StartChildWorkflowExecution)
    (inherit_build_id : bool) : Attributes :=
  CA_StartChildWorkflowExecution
    {| StartChildWorkflowExecutionCmd_namespace := s.(StartChildWorkflowExecution_namespace);
       StartChildWorkflowExecutionCmd_workflow_id := s.(StartChildWorkflowExecution_workflow_id);
       StartChildWorkflowExecutionCmd_workflow_type :=
         Some {| WorkflowType_name := s.(StartChildWorkflowExecution_workflow_type) |};
       StartChildWorkflowExecutionCmd_task_queue :=
         Some (TaskQueue_from s.(StartChildWorkflowExecution_task_queue));
       StartChildWorkflowExecutionCmd_input := into_payloads s.(StartChildWorkflowExecution_input);
       StartChildWorkflowExecutionCmd_workflow_execution_timeout :=
         s.(StartChildWorkflowExecution_workflow_execution_timeout);
       StartChildWorkflowExecutionCmd_workflow_run_timeout :=
         s.(StartChildWorkflowExecution_workflow_run_timeout);
       StartChildWorkflowExecutionCmd_workflow_task_timeout :=
         s.(StartChildWorkflowExecution_workflow_task_timeout);
       StartChildWorkflowExecutionCmd_parent_close_policy :=
         s.(StartChildWorkflowExecution_parent_close_policy);
       StartChildWorkflowExecutionCmd_control := "";
       StartChildWorkflowExecutionCmd_workflow_id_reuse_policy :=
         s.(StartChildWorkflowExecution_workflow_id_reuse_policy);
       StartChildWorkflowExecutionCmd_retry_policy := s.(StartChildWorkflowExecution_retry_policy);
       StartChildWorkflowExecutionCmd_cron_schedule :=
         s.(StartChildWorkflowExecution_cron_schedule);
       StartChildWorkflowExecutionCmd_header :=
         Some (Header_from s.(StartChildWorkflowExecution_headers));
       StartChildWorkflowExecutionCmd_memo := Some (Memo_from s.(StartChildWorkflowExecution_memo));
       StartChildWorkflowExecutionCmd_search_attributes :=
         Some (SearchAttributes_from s.(StartChildWorkflowExecution_search_attributes));
       StartChildWorkflowExecutionCmd_inherit_build_id := inherit_build_id;
       StartChildWorkflowExecutionCmd_priority := s.(StartChildWorkflowExecution_priority) |}.

Definition complete_workflow_into (c : CompleteWorkflowExecution) : Attributes :=
  CA_CompleteWorkflowExecution
    {| CompleteWorkflowExecutionCmd_result :=
         Payloads_from <$> c.(CompleteWorkflowExecution_result) |}.

Definition fail_workflow_into (c : FailWorkflowExecution) : Attributes :=
  CA_FailWorkflowExecution
    {| FailWorkflowExecutionCmd_failure := c.(FailWorkflowExecution_failure) |}.

Definition some_unless_empty {A} (f : gmap string Payload -> A) (m : gmap string Payload)
  : option A :=
  if decide (m = ∅) then None else Some (f m).

Definition continue_as_new_cmd_to_api (c : ContinueAsNewWorkflowExecution)
    (inherit_build_id : bool) : Attributes :=
  CA_ContinueAsNewWorkflowExecution
    {| ContinueAsNewWorkflowExecutionCmd_workflow_type :=
         Some {| WorkflowType_name := c.(ContinueAsNewWorkflowExecution_workflow_type) |};
       ContinueAsNewWorkflowExecutionCmd_task_queue :=
         Some (TaskQueue_from c.(ContinueAsNewWorkflowExecution_task_queue));
       ContinueAsNewWorkflowExecutionCmd_input :=
         into_payloads c.(ContinueAsNewWorkflowExecution_arguments);
       ContinueAsNewWorkflowExecutionCmd_workflow_run_timeout :=
         c.(ContinueAsNewWorkflowExecution_workflow_run_timeout);
       ContinueAsNewWorkflowExecutionCmd_workflow_task_timeout :=
         c.(ContinueAsNewWorkflowExecution_workflow_task_timeout);
       ContinueAsNewWorkflowExecutionCmd_backoff_start_interval := None;
       ContinueAsNewWorkflowExecutionCmd_retry_policy :=
         c.(ContinueAsNewWorkflowExecution_retry_policy);
       ContinueAsNewWorkflowExecutionCmd_initiator := 0;
       ContinueAsNewWorkflowExecutionCmd_failure := None;
       ContinueAsNewWorkflowExecutionCmd_last_completion_result := None;
       ContinueAsNewWorkflowExecutionCmd_cron_schedule := "";
       ContinueAsNewWorkflowExecutionCmd_header :=
         some_unless_empty Header_from c.(ContinueAsNewWorkflowExecution_headers);
       ContinueAsNewWorkflowExecutionCmd_memo :=
         some_unless_empty Memo_from c.(ContinueAsNewWorkflowExecution_memo);
       ContinueAsNewWorkflowExecutionCmd_search_attributes :=
         some_unless_empty SearchAttributes_from
           c.(ContinueAsNewWorkflowExecution_search_attributes);
       ContinueAsNewWorkflowExecutionCmd_inherit_build_id := inherit_build_id |}.

Definition cancel_workflow_into (_ : CancelWorkflowExecution) : Attributes :=
  CA_CancelWorkflowExecution {| CancelWorkflowExecutionCmd_details := None |}.

Definition schedule_nexus_operation_into (c : ScheduleNexusOperation) : Attributes :=
  CA_ScheduleNexusOperation
    {| ScheduleNexusOperationCmd_endpoint := c.(ScheduleNexusOperation_endpoint);
       ScheduleNexusOperationCmd_service := c.(ScheduleNexusOperation_service);
       ScheduleNexusOperationCmd_operation := c.(ScheduleNexusOperation_operation);
       ScheduleNexusOperationCmd_input := c.(ScheduleNexusOperation_input);
       ScheduleNexusOperationCmd_schedule_to_close_timeout :=
         c.(ScheduleNexusOperation_schedule_to_close_timeout);
       ScheduleNexusOperationCmd_nexus_header := c.(ScheduleNexusOperation_nexus_header) |}.

(** ** Failures *)

(** prost getter of [TimeoutFailureInfo::timeout_type]. *)
Definition timeout_type (t : TimeoutFailureInfo) : TimeoutType :=
  default TimeoutType_Unspecified (TimeoutType_try_from t.(TimeoutFailureInfo_timeout_type)).

Definition is_timeout (f : Failure) : option TimeoutType :=
  match f.(Failure_failure_info) with
  | Some (FI_Timeout ti) => Some (timeout_type ti)
  | _ => None
  end.

Definition application_failure (message : string) (non_retryable : bool) : Failure :=
  mkFailure message "" "" None None
    (Some (FI_Application
       {| ApplicationFailureInfo_type := "";
          ApplicationFailureInfo_non_retryable := non_retryable;
          ApplicationFailureInfo_details := None;
          ApplicationFailureInfo_next_retry_delay := None;
          ApplicationFailureInfo_category := 0 |})).

(** [Failure::timeout]. *)
Definition Failure_timeout (t : TimeoutType) : Failure :=
  mkFailure "Activity timed out" "" "" None
    (Some (mkFailure "Activity timed out" "" "" None None
       (Some (FI_Timeout {| TimeoutFailureInfo_timeout_type := TimeoutType_as_i32 t;
                            TimeoutFailureInfo_last_heartbeat_details := None |}))))
    (Some (FI_Activity ActivityFailureInfo_default)).

Definition maybe_application_failure (f : Failure) : option ApplicationFailureInfo :=
  match f.(Failure_failure_info) with
  | Some (FI_Application a) => Some a
  | _ => None
  end.

(** [ApplicationErrorCategory::Benign] is 1. *)
Definition is_benign_application_failure (f : Failure) : bool :=
  match maybe_application_failure f with
  | Some a => (a.(ApplicationFailureInfo_category) =? 1)%Z
  | None => false
  end.

(** [Cancellation::from_details]. *)
Definition Cancellation_from_details (details : option Payload) : ar_Cancellation :=
  {| ar_Cancellation_failure :=
       Some (mkFailure "Activity cancelled" "" "" None None
         (Some (FI_Canceled {| CanceledFailureInfo_details := Payloads_from <$> details |}))) |}.

(** ** Activation jobs built from events *)

Definition signal_workflow_from (a : WorkflowExecutionSignaledEventAttributes) : SignalWorkflow :=
  {| SignalWorkflow_signal_name := a.(WorkflowExecutionSignaledEv_signal_name);
     SignalWorkflow_input := from_payloads a.(WorkflowExecutionSignaledEv_input);
     SignalWorkflow_identity := a.(WorkflowExecutionSignaledEv_identity);
     SignalWorkflow_headers :=
       default ∅ (Header_fields <$> a.(WorkflowExecutionSignaledEv_header)) |}.

Definition cancel_workflow_from (a : WorkflowExecutionCancelRequestedEventAttributes)
  : CancelWorkflow :=
  {| CancelWorkflow_reason := a.(WorkflowExecutionCancelRequestedEv_cause) |}.

Definition start_workflow_from_attribs (attrs : WorkflowExecutionStartedEventAttributes)
    (workflow_id : string) (randomness_seed : Z) (start_time : Timestamp) : InitializeWorkflow :=
  {| InitializeWorkflow_workflow_type :=
       default "" (WorkflowType_name <$> attrs.(WorkflowExecutionStartedEv_workflow_type));
     InitializeWorkflow_workflow_id := workflow_id;
     InitializeWorkflow_arguments := from_payloads attrs.(WorkflowExecutionStartedEv_input);
     InitializeWorkflow_randomness_seed := randomness_seed;
     InitializeWorkflow_headers :=
       default ∅ (Header_fields <$> attrs.(WorkflowExecutionStartedEv_header));
     InitializeWorkflow_identity := attrs.(WorkflowExecutionStartedEv_identity);
     InitializeWorkflow_parent_workflow_info :=
       (fun pe => {| NamespacedWorkflowExecution_namespace :=
                       attrs.(WorkflowExecutionStartedEv_parent_workflow_namespace);
                     NamespacedWorkflowExecution_workflow_id :=
                       pe.(WorkflowExecution_workflow_id);
                     NamespacedWorkflowExecution_run_id := pe.(WorkflowExecution_run_id) |})
         <$> attrs.(WorkflowExecutionStartedEv_parent_workflow_execution);
     InitializeWorkflow_workflow_execution_timeout :=
       attrs.(WorkflowExecutionStartedEv_workflow_execution_timeout);
     InitializeWorkflow_workflow_run_timeout :=
       attrs.(WorkflowExecutionStartedEv_workflow_run_timeout);
     InitializeWorkflow_workflow_task_timeout :=
       attrs.(WorkflowExecutionStartedEv_workflow_task_timeout);
     InitializeWorkflow_continued_from_execution_run_id :=
       attrs.(WorkflowExecutionStartedEv_continued_execution_run_id);
     InitializeWorkflow_continued_initiator := attrs.(WorkflowExecutionStartedEv_initiator);
     InitializeWorkflow_continued_failure := attrs.(WorkflowExecutionStartedEv_continued_failure);
     InitializeWorkflow_last_completion_result :=
       attrs.(WorkflowExecutionStartedEv_last_completion_result);
     InitializeWorkflow_first_execution_run_id :=
       attrs.(WorkflowExecutionStartedEv_first_execution_run_id);
     InitializeWorkflow_retry_policy := attrs.(WorkflowExecutionStartedEv_retry_policy);
     InitializeWorkflow_attempt := attrs.(WorkflowExecutionStartedEv_attempt);
     InitializeWorkflow_cron_schedule := attrs.(WorkflowExecutionStartedEv_cron_schedule);
     InitializeWorkflow_workflow_execution_expiration_time :=
       attrs.(WorkflowExecutionStartedEv_workflow_execution_expiration_time);
     InitializeWorkflow_cron_schedule_to_schedule_interval :=
       attrs.(WorkflowExecutionStartedEv_first_workflow_task_backoff);
     InitializeWorkflow_memo := attrs.(WorkflowExecutionStartedEv_memo);
     InitializeWorkflow_search_attributes :=
       attrs.(WorkflowExecutionStartedEv_search_attributes);
     InitializeWorkflow_start_time := Some start_time;
     InitializeWorkflow_root_workflow := attrs.(WorkflowExecutionStartedEv_root_workflow_execution);
     InitializeWorkflow_priority := attrs.(WorkflowExecutionStartedEv_priority) |}.

(** ** Marker details *)

(** [serde_json] on the two marker messages.  [to_json] is [to_string], which
    may fail; [of_json] is [from_str]. *)
Class Json (T : Type) := {
  to_json : T -> option string;
  of_json : string -> option T;
}.

(** UTF-8 validity, as [std::str::from_utf8] checks it: shortest encodings of
    scalar values only. *)
Definition byte_in (lo hi : nat) (a : Ascii.ascii) : bool :=
  let n := Ascii.nat_of_ascii a in (lo <=? n)%nat && (n <=? hi)%nat.

Fixpoint utf8_valid (s : string) : bool :=
  match s with
  | EmptyString => true
  | String a s1 =>
    if byte_in 0 127 a then utf8_valid s1
    else match s1 with
    | EmptyString => false
    | String b s2 =>
      if byte_in 194 223 a then byte_in 128 191 b && utf8_valid s2
      else match s2 with
      | EmptyString => false
      | String c s3 =>
        if byte_in 224 239 a then
          byte_in (if byte_in 224 224 a then 160 else 128) (if byte_in 237 237 a then 159 else 191) b
          && byte_in 128 191 c && utf8_valid s3
        else match s3 with
        | EmptyString => false
        | String d s4 =>
          byte_in 240 244 a
          && byte_in (if byte_in 240 240 a then 144 else 128)
                     (if byte_in 244 244 a then 143 else 191) b
          && byte_in 128 191 c && byte_in 128 191 d && utf8_valid s4
        end
      end
    end
  end.

Definition from_utf8 (s : string) : option string :=
  if utf8_valid s then Some s else None.

Definition is_json_payload (p : Payload) : bool :=
  match p.(Payload_metadata) !! "encoding" with
  | Some v => String.eqb v "json/plain"
  | None => false
  end.

Definition as_json_payload {T} `{Json T} (x : T) : option Payload :=
  j ← to_json x;
  Some {| Payload_metadata := {["encoding" := "json/plain"]}; Payload_data := j |}.

Definition from_json_payload {T} `{Json T} (p : Payload) : option T :=
  if is_json_payload p then from_utf8 p.(Payload_data) ≫= of_json else None.

Section markers.
  Context `{Json PatchedMarkerData} `{Json LocalActivityMarkerData}.

Definition build_has_change_marker_details (patch_id : string) (deprecated : bool)
  : option (gmap string Payloads) :=
  encoded ← as_json_payload {| PatchedMarkerData_id := patch_id;
                               PatchedMarkerData_deprecated := deprecated |};
  Some {["patch-data" := Payloads_from encoded]}.

Definition decode_change_marker_details (details : gmap string Payloads)
  : option (string * bool) :=
  match details !! "patch-data" with
  | Some cd =>
      p ← head cd.(Payloads_payloads);
      d ← from_json_payload (T := PatchedMarkerData) p;
      Some (d.(PatchedMarkerData_id), d.(PatchedMarkerData_deprecated))
  | None =>
      ids ← details !! "patch_id";
      id_entry ← head ids.(Payloads_payloads);
      deps ← details !! "deprecated";
      deprecated_entry ← head deps.(Payloads_payloads);
      name ← from_utf8 id_entry.(Payload_data);
      match deprecated_entry.(Payload_data) with
      | EmptyString => None
      | String b _ => Some (name, negb (Ascii.nat_of_ascii b =? 0)%nat)
      end
  end.

Definition build_local_activity_marker_details (metadata : LocalActivityMarkerData)
    (result : option Payload) : gmap string Payloads :=
  let hm : gmap string Payloads :=
    match as_json_payload metadata with
    | Some j => {["data" := Payloads_from j]}
    | None => ∅
    end in
  match result with
  | Some res => <["result" := Payloads_from res]> hm
  | None => hm
  end.

Definition extract_local_activity_marker_data (details : gmap string Payloads)
  : option LocalActivityMarkerData :=
  p ← details !! "data";
  p ← head p.(Payloads_payloads);
  s ← from_utf8 p.(Payload_data);
  of_json s.

(** Returns the details map without its result as well. *)
Definition extract_local_activity_marker_details (details : gmap string Payloads)
  : gmap string Payloads * (option LocalActivityMarkerData * option Payload) :=
  let data := extract_local_activity_marker_data details in
  let result := p ← details !! "result"; last p.(Payloads_payloads) in
  (delete "result" details, (data, result)).

End markers.

(** ** Properties *)

Lemma EventType_roundtrip (t : EventType) : EventType_try_from (EventType_as_i32 t) = Some t.
Proof. by destruct t. Qed.

Lemma EventType_try_from_inv (z : Z) (t : EventType) :
  EventType_try_from z = Some t -> z = EventType_as_i32 t.
Proof.
  unfold EventType_try_from. intros H. repeat case_match_in H; done.
Qed.

(** (round trip): the wire number of an event type reads back as that type, a
    number reads as at most one type, and an event whose attributes agree with
    its wire number is classified by its attributes. *)
Theorem event_type_roundtrip (t : EventType) (z : Z) :
  EventType_try_from (EventType_as_i32 t) = Some t /\
  (EventType_try_from z = Some t <-> z = EventType_as_i32 t).
Proof.
  split; [apply EventType_roundtrip|]. split; [apply EventType_try_from_inv|].
  intros ->. apply EventType_roundtrip.
Qed.

(** converting command attributes to a command either is [unimplemented!]
    or yields a command of the attributes' own type carrying them unchanged. *)
Theorem Command_from_as_type {E} (a : Attributes) (c : Command) :
  Command_from (E := E) a = Ok c ->
  c.(Command_command_type) = CommandType_as_i32 (as_type a) /\
  c.(Command_attributes) = Some a.
Proof. destruct a; simpl; intros [= <-]; done. Qed.

Lemma Command_from_as_type_witness :
  CommandType_as_i32 (as_type (cancel_timer_into {| CancelTimer_seq := 4 |})) = 6%Z.
Proof.
  exact (eq_sym (proj1 (Command_from_as_type (E := unit)
    (cancel_timer_into {| CancelTimer_seq := 4 |}) _ eq_refl))).
Defined.

(** The documented round trip of [serde_json] on these messages: [to_string]
    yields a Rust [String], hence UTF-8, which [from_str] reads back. *)
Class JsonLaws (T : Type) `{Json T} := {
  json_roundtrip : forall (x : T) s, to_json x = Some s -> of_json s = Some x;
  json_utf8 : forall (x : T) s, to_json x = Some s -> utf8_valid s = true;
}.

Lemma as_json_payload_roundtrip {T} `{JsonLaws T} (x : T) p :
  as_json_payload x = Some p -> from_json_payload p = Some x.
Proof.
  unfold as_json_payload, from_json_payload, from_utf8. intros Hp.
  destruct (to_json x) as [s|] eqn:Hs; simplify_eq/=.
  rewrite (json_utf8 _ _ Hs). simpl. apply (json_roundtrip _ _ Hs).
Qed.

Lemma change_marker_decodes `{JsonLaws PatchedMarkerData} patch_id deprecated details :
  build_has_change_marker_details patch_id deprecated = Some details ->
  decode_change_marker_details details = Some (patch_id, deprecated).
Proof.
  unfold build_has_change_marker_details, decode_change_marker_details. intros Hb.
  destruct (as_json_payload _) as [p|] eqn:Hp; [|done].
  apply as_json_payload_roundtrip in Hp. injection Hb as <-.
  rewrite lookup_singleton_eq. cbn [head Payloads_from Payloads_payloads mbind option_bind].
  by rewrite Hp.
Qed.

(** (round trip): the details written in a patch marker decode to the patch id
    and the deprecation flag they were built from. *)
Theorem change_marker_roundtrip `{JsonLaws PatchedMarkerData} patch_id deprecated details :
  build_has_change_marker_details patch_id deprecated = Some details ->
  decode_change_marker_details details = Some (patch_id, deprecated).
Proof. apply change_marker_decodes. Qed.

(** A concrete encoding of the patch data, for evaluation. *)
#[local] Instance example_patch_json : Json PatchedMarkerData :=
  {| to_json x := if utf8_valid x.(PatchedMarkerData_id)
                  then Some ((if x.(PatchedMarkerData_deprecated) then "1" else "0")
                               +:+ x.(PatchedMarkerData_id))
                  else None;
     of_json s :=
       match s with
       | String b r => Some {| PatchedMarkerData_id := r;
                               PatchedMarkerData_deprecated := bool_decide (b = Ascii.Ascii true false false false true true false false) |}
       | EmptyString => None
       end |}.

#[local] Instance example_patch_json_laws : JsonLaws PatchedMarkerData.
Proof.
  split; intros [i d] s; simpl; destruct (utf8_valid i) eqn:Hi; intros [= <-]; by destruct d.
Defined.

Lemma change_marker_roundtrip_witness :
  decode_change_marker_details
    {["patch-data" := Payloads_from {| Payload_metadata := {["encoding" := "json/plain"]};
                                       Payload_data := "1my-patch" |}]}
  = Some ("my-patch", true).
Proof. apply (change_marker_roundtrip "my-patch" true). reflexivity. Defined.

(** A concrete encoding of the marker data of the example activity. *)
Definition example_la_data : LocalActivityMarkerData :=
  {| LocalActivityMarkerData_seq := 1; LocalActivityMarkerData_attempt := 1;
     LocalActivityMarkerData_activity_id := "1"; LocalActivityMarkerData_activity_type := "t";
     LocalActivityMarkerData_complete_time := None; LocalActivityMarkerData_backoff := None;
     LocalActivityMarkerData_original_schedule_time := None |}.

#[global] Instance Timestamp_eq_dec : EqDecision Timestamp.
Proof. solve_decision. Defined.

#[global] Instance Duration_eq_dec : EqDecision Duration.
Proof. solve_decision. Defined.

#[global] Instance LocalActivityMarkerData_eq_dec : EqDecision LocalActivityMarkerData.
Proof. solve_decision. Defined.

#[local] Instance example_la_json : Json LocalActivityMarkerData :=
  {| to_json x := if decide (x = example_la_data) then Some "{}" else None;
     of_json _ := Some example_la_data |}.

#[local] Instance example_la_json_laws : JsonLaws LocalActivityMarkerData.
Proof. split; intros x s; simpl; case_decide; intros [= <-]; congruence || done. Defined.

Lemma marker_details_read `{JsonLaws LocalActivityMarkerData} md result j :
  to_json md = Some j ->
  extract_local_activity_marker_details (build_local_activity_marker_details md result)
  = ({["data" := Payloads_from {| Payload_metadata := {["encoding" := "json/plain"]};
                                  Payload_data := j |}]},
     (Some md, result)).
Proof.
  intros Hj. unfold extract_local_activity_marker_details, extract_local_activity_marker_data,
    build_local_activity_marker_details, as_json_payload, from_utf8.
  rewrite Hj; simpl. destruct result as [res|]; simpl.
  - rewrite lookup_insert_ne, lookup_insert_eq, lookup_singleton_eq by done. simpl.
    rewrite (json_utf8 _ _ Hj); simpl. rewrite (json_roundtrip _ _ Hj).
    by rewrite delete_insert_id by (by rewrite lookup_singleton_ne).
  - rewrite lookup_singleton_eq, lookup_singleton_ne, delete_id by done. simpl.
    rewrite (json_utf8 _ _ Hj); simpl. by rewrite (json_roundtrip _ _ Hj).
Qed.

(** (round trip): the data and result of a local activity marker are read back
    from the details built for them, and the result is removed from the map. *)
Theorem local_activity_marker_roundtrip `{JsonLaws LocalActivityMarkerData} md result j :
  to_json md = Some j ->
  extract_local_activity_marker_details (build_local_activity_marker_details md result)
  = ({["data" := Payloads_from {| Payload_metadata := {["encoding" := "json/plain"]};
                                  Payload_data := j |}]},
     (Some md, result)).
Proof. apply marker_details_read. Qed.

Lemma local_activity_marker_roundtrip_witness :
  (extract_local_activity_marker_details
     (build_local_activity_marker_details example_la_data None)).2
  = (Some example_la_data, None).
Proof.
  rewrite (local_activity_marker_roundtrip example_la_data None "{}"); [reflexivity|].
  vm_compute. reflexivity.
Defined.
