(* ===== verification/CoreProtos.v ===== *)
(** * Validated protocol data (core/src/protosext)

    [HistoryEventExt], the validation of local activity schedules and of
    activity completions (mod.rs), and incoming protocol messages
    (protocol_messages.rs).  Times and durations are nanosecond counts; the
    conversions of the protobuf time types belong to [prost-types] and are the
    interface [WktTime].  [anyhow] errors are their messages. *)
From Stdlib Require Import ZArith Lia.
From stdpp Require Import base option list strings gmap.
From S2P Require Import Prelude Flags Protos ProtoExt.

(** Conversions between the protobuf time types and [std::time]. *)
Class WktTime := {
  timestamp_try_into : Timestamp -> option Z;   (** [SystemTime], ns since the epoch *)
  timestamp_from : Z -> Timestamp;
  duration_try_into : Duration -> option Z;     (** [std::time::Duration], ns *)
  duration_try_from : Z -> option Duration;
}.

(** ** Marker events *)
Section history_event_ext.
  Context `{Json PatchedMarkerData} `{Json LocalActivityMarkerData}.

Definition PATCH_MARKER_NAME : string := "core_patch".
Definition LOCAL_ACTIVITY_MARKER_NAME : string := "core_local_activity".

Definition get_patch_marker_details (e : HistoryEvent) : option (string * bool) :=
  if decide (event_type e = ET_MarkerRecorded) then
    match e.(HistoryEvent_attributes) with
    | Some (HA_MarkerRecorded a) =>
        if String.eqb a.(MarkerRecordedEv_marker_name) PATCH_MARKER_NAME
        then decode_change_marker_details a.(MarkerRecordedEv_details) else None
    | _ => None
    end
  else None.

Definition is_local_activity_marker (e : HistoryEvent) : bool :=
  if decide (event_type e = ET_MarkerRecorded) then
    match e.(HistoryEvent_attributes) with
    | Some (HA_MarkerRecorded a) =>
        String.eqb a.(MarkerRecordedEv_marker_name) LOCAL_ACTIVITY_MARKER_NAME
    | _ => false
    end
  else false.

Definition event_local_activity_marker_data (e : HistoryEvent)
  : option LocalActivityMarkerData :=
  if decide (event_type e = ET_MarkerRecorded) then
    match e.(HistoryEvent_attributes) with
    | Some (HA_MarkerRecorded a) =>
        if String.eqb a.(MarkerRecordedEv_marker_name) LOCAL_ACTIVITY_MARKER_NAME
        then extract_local_activity_marker_data a.(MarkerRecordedEv_details) else None
    | _ => None
    end
  else None.

Record CompleteLocalActivityData := {
  marker_dat : LocalActivityMarkerData;
  la_result : Failure + Payload;
}.

Definition into_local_activity_marker_details (e : HistoryEvent)
  : option CompleteLocalActivityData :=
  if decide (event_type e = ET_MarkerRecorded) then
    match e.(HistoryEvent_attributes) with
    | Some (HA_MarkerRecorded a) =>
        if String.eqb a.(MarkerRecordedEv_marker_name) LOCAL_ACTIVITY_MARKER_NAME then
          let '(_, (data, ok_res)) :=
            extract_local_activity_marker_details a.(MarkerRecordedEv_details) in
          data ← data;
          let result :=
            match ok_res, a.(MarkerRecordedEv_failure) with
            | Some r, None => inr r
            | _, Some f => inl f
            | None, None => inr {| Payload_metadata := ∅; Payload_data := "" |}
            end in
          Some {| marker_dat := data; la_result := result |}
        else None
    | _ => None
    end
  else None.

End history_event_ext.

(** ** Activity completions *)

Definition validate_activity_completion (s : ActivityExecutionResult_Status)
  : outcome string unit :=
  match s with
  | ActivityExecutionResult_Completed c =>
      match c.(ar_Success_result) with
      | None => Err "Activity completions must contain a `result` payload (which may be empty)"
      | Some _ => Ok tt
      end
  | _ => Ok tt
  end.

(** [LocalActivityExecutionResult], of worker/activities/local_activities.rs. *)
Inductive LocalActivityExecutionResult :=
| LAR_Completed (s : ar_Success)
| LAR_Failed (f : ar_Failure)
| LAR_TimedOut (f : ar_Failure)
| LAR_Cancelled (c : ar_Cancellation).

Definition LocalActivityExecutionResult_try_from (s : ActivityExecutionResult_Status)
  : outcome string LocalActivityExecutionResult :=
  match s with
  | ActivityExecutionResult_Completed c => Ok (LAR_Completed c)
  | ActivityExecutionResult_Failed f =>
      match is_timeout <$> f.(ar_Failure_failure) with
      | Some (Some _) => Ok (LAR_TimedOut f)
      | _ => Ok (LAR_Failed f)
      end
  | ActivityExecutionResult_Cancelled c => Ok (LAR_Cancelled c)
  | ActivityExecutionResult_WillCompleteAsync _ =>
      Err "Local activities cannot be completed async"
  end.

(** ** Local activity schedules *)

Inductive LACloseTimeouts :=
| ScheduleOnly (d : Z)
| StartOnly (d : Z)
| Both (sched start : Z).

Definition into_sched_and_start (c : LACloseTimeouts) : option Z * option Z :=
  match c with
  | ScheduleOnly x => (Some x, None)
  | StartOnly x => (None, Some x)
  | Both sched start => (Some sched, Some start)
  end.

Record ValidScheduleLA := {
  la_seq : Z;
  la_activity_id : string;
  la_activity_type : string;
  la_attempt : Z;
  la_original_schedule_time : option Z;
  la_headers : gmap string Payload;
  la_arguments : list Payload;
  la_schedule_to_start_timeout : option Z;
  la_close_timeouts : LACloseTimeouts;
  la_retry_policy : RetryPolicy;
  la_local_retry_threshold : Z;
  la_cancellation_type : ActivityCancellationType;
}.

(** [x.map(|x| x.try_into().map_err(..)).transpose()?] *)
Definition try_map {A B} (conv : A -> option B) (msg : string) (x : option A)
  : outcome string (option B) :=
  match x with
  | None => Ok None
  | Some a => match conv a with Some b => Ok (Some b) | None => Err msg end
  end.

Lemma try_map_Ok {A B} (conv : A -> option B) msg x y :
  try_map conv msg x = Ok y -> x ≫= conv = y.
Proof. unfold try_map. destruct x; simpl; [|naive_solver]. destruct (conv a); naive_solver. Qed.

Lemma try_map_None {A B} (conv : A -> option B) msg x y :
  try_map conv msg x = Ok y -> y = None <-> x = None.
Proof. unfold try_map. destruct x; simpl; [|naive_solver]. destruct (conv a); naive_solver. Qed.

Section valid_schedule_la.
  Context `{WktTime}.

Definition from_schedule_la (v : ScheduleLocalActivity) : outcome string ValidScheduleLA :=
  original_schedule_time ←
    try_map timestamp_try_into "Could not convert original_schedule_time"
      v.(ScheduleLocalActivity_original_schedule_time);
  sched_to_close ←
    try_map duration_try_into "Could not convert schedule_to_close_timeout"
      v.(ScheduleLocalActivity_schedule_to_close_timeout);
  schedule_to_start_timeout ←
    try_map duration_try_into "Could not convert schedule_to_start_timeout"
      v.(ScheduleLocalActivity_schedule_to_start_timeout);
  let schedule_to_start_timeout :=
    match schedule_to_start_timeout, sched_to_close with
    | Some s, Some c => if (c <? s)%Z then Some c else Some s
    | s, _ => s
    end in
  start_to_close ←
    try_map duration_try_into "Could not convert start_to_close_timeout"
      v.(ScheduleLocalActivity_start_to_close_timeout);
  close_timeouts ←
    match sched_to_close, start_to_close with
    | Some sch, None => Ok (ScheduleOnly sch)
    | None, Some start => Ok (StartOnly start)
    | Some sched, Some start => Ok (Both sched (if (sched <? start)%Z then sched else start))
    | None, None =>
        Err "One or both of schedule_to_close or start_to_close timeouts must be set for local activities"
    end;
  Ok {| la_seq := v.(ScheduleLocalActivity_seq);
        la_activity_id := v.(ScheduleLocalActivity_activity_id);
        la_activity_type := v.(ScheduleLocalActivity_activity_type);
        la_attempt := v.(ScheduleLocalActivity_attempt);
        la_original_schedule_time := original_schedule_time;
        la_headers := v.(ScheduleLocalActivity_headers);
        la_arguments := v.(ScheduleLocalActivity_arguments);
        la_schedule_to_start_timeout := schedule_to_start_timeout;
        la_close_timeouts := close_timeouts;
        la_retry_policy := default RetryPolicy_default v.(ScheduleLocalActivity_retry_policy);
        la_local_retry_threshold :=
          default 60000000000%Z
            (v.(ScheduleLocalActivity_local_retry_threshold) ≫= duration_try_into);
        la_cancellation_type :=
          default ACT_WaitCancellationCompleted
            (ActivityCancellationType_try_from v.(ScheduleLocalActivity_cancellation_type)) |}.

End valid_schedule_la.

(** ** Protocol messages *)

Record UpdateRequest := { original : Request }.

Definition UpdateRequest_try_from (r : Request) : outcome string UpdateRequest :=
  match r.(Request_input) with
  | None => Err "Update request's `input` field must be populated"
  | Some _ =>
      match r.(Request_meta) with
      | None => Err "Update request's `meta` field must be populated"
      | Some _ => Ok {| original := r |}
      end
  end.

Definition expect_input {E} (u : UpdateRequest) : outcome E Input :=
  match u.(original).(Request_input) with
  | Some i => Ok i
  | None => Panic "Update request's `input` field must be populated"
  end.

Definition UpdateRequest_name {E} (u : UpdateRequest) : outcome E string :=
  i ← expect_input u; Ok i.(Input_name).

Definition UpdateRequest_headers {E} (u : UpdateRequest) : outcome E (gmap string Payload) :=
  i ← expect_input u; Ok (default ∅ (Header_fields <$> i.(Input_header))).

Definition UpdateRequest_input {E} (u : UpdateRequest) : outcome E (list Payload) :=
  i ← expect_input u; Ok (from_payloads i.(Input_args)).

Definition UpdateRequest_meta {E} (u : UpdateRequest) : outcome E Meta :=
  match u.(original).(Request_meta) with
  | Some m => Ok m
  | None => Panic "Update request's `meta` field must be populated"
  end.

Record IncomingProtocolMessage := {
  im_id : string;
  im_protocol_instance_id : string;
  im_sequencing_id : option Message_SequencingId;
  im_body : UpdateRequest;   (** [IncomingProtocolMessageBody] has one variant *)
}.

Definition processable_after_event_id (m : IncomingProtocolMessage) : option Z :=
  match m.(im_sequencing_id) with
  | None => Some 0%Z
  | Some (Message_EventId id) => Some id
  | Some (Message_CommandIndex _) => None
  end.

(** prost-wkt's [Any::unpack_as] at the update request type. *)
Class AnyRequest := { unpack_as_request : Any -> outcome string Request }.

Definition IncomingProtocolMessageBody_try_from `{AnyRequest} (v : option Any)
  : outcome string UpdateRequest :=
  match v with
  | None => Err "Protocol message body must be populated"
  | Some v =>
      if String.eqb v.(Any_type_url) "type.googleapis.com/temporal.api.update.v1.Request"
      then unpack_as_request v ≫= UpdateRequest_try_from
      else Err ("Could not understand protocol message type " +:+ v.(Any_type_url))
  end.

Definition IncomingProtocolMessage_try_from `{AnyRequest} (m : Message)
  : outcome string IncomingProtocolMessage :=
  body ← IncomingProtocolMessageBody_try_from m.(Message_body);
  Ok {| im_id := m.(Message_id);
        im_protocol_instance_id := m.(Message_protocol_instance_id);
        im_sequencing_id := m.(Message_sequencing_id);
        im_body := body |}.

(** [TryFrom<&HistoryEvent> for IncomingProtocolMessage]. *)
Definition IncomingProtocolMessage_from_event (event : HistoryEvent)
  : outcome string IncomingProtocolMessage :=
  match event.(HistoryEvent_attributes) with
  | Some (HA_WorkflowExecutionUpdateAdmitted atts) =>
      match atts.(WorkflowExecutionUpdateAdmittedEv_request) with
      | None => Err "Update admitted event must contain request"
      | Some request =>
          match request.(Request_meta) with
          | None => Err "Update request's `meta` field must be populated"
          | Some meta =>
              let pid := meta.(Meta_update_id) in
              body ← UpdateRequest_try_from request;
              Ok {| im_id := pid +:+ "/request";
                    im_protocol_instance_id := pid;
                    im_sequencing_id := Some (Message_EventId event.(HistoryEvent_event_id));
                    im_body := body |}
          end
      end
  | Some (HA_WorkflowExecutionUpdateAccepted atts) =>
      match atts.(WorkflowExecutionUpdateAcceptedEv_accepted_request) with
      | None => Err "Update accepted event must contain accepted request"
      | Some request =>
          body ← UpdateRequest_try_from request;
          Ok {| im_id := atts.(WorkflowExecutionUpdateAcceptedEv_accepted_request_message_id);
                im_protocol_instance_id :=
                  atts.(WorkflowExecutionUpdateAcceptedEv_protocol_instance_id);
                im_sequencing_id :=
                  Some (Message_EventId
                    atts.(WorkflowExecutionUpdateAcceptedEv_accepted_request_sequencing_event_id));
                im_body := body |}
      end
  | _ =>
      Err ("Cannot convert event of type " +:+ EventType_as_str_name (event_type event)
           +:+ " into protocol message. This is an sdk-core bug.")
  end.

(** ** Polled workflow tasks *)

(** temporal.api.query.v1.WorkflowQuery. *)
Record WorkflowQuery := {
  WorkflowQuery_query_type : string;
  WorkflowQuery_query_args : option Payloads;
  WorkflowQuery_header : option Header;
}.

(** [query_to_job] (sdk-core-protos/src/lib.rs). *)
Definition query_to_job (id : string) (q : WorkflowQuery) : QueryWorkflow :=
  {| QueryWorkflow_query_id := id;
     QueryWorkflow_query_type := q.(WorkflowQuery_query_type);
     QueryWorkflow_arguments := from_payloads q.(WorkflowQuery_query_args);
     QueryWorkflow_headers := default ∅ (Header_fields <$> q.(WorkflowQuery_header)) |}.

(** The fields of a poll response that [ValidPollWFTQResponse] reads. *)
Record PollWorkflowTaskQueueResponse := {
  poll_task_token : string;
  poll_workflow_execution_task_queue : option TaskQueue;
  poll_workflow_execution : option WorkflowExecution;
  poll_workflow_type : option WorkflowType;
  poll_history : option (list HistoryEvent);
  poll_next_page_token : string;
  poll_attempt : Z;
  poll_previous_started_event_id : Z;
  poll_started_event_id : Z;
  poll_query : option WorkflowQuery;
  poll_queries : gmap string WorkflowQuery;
  poll_messages : list Message;
}.

Record ValidPollWFTQResponse := {
  wft_task_token : string;
  wft_task_queue : string;
  wft_workflow_execution : WorkflowExecution;
  wft_workflow_type : string;
  wft_history : list HistoryEvent;
  wft_next_page_token : string;
  wft_attempt : Z;
  wft_previous_started_event_id : Z;
  wft_started_event_id : Z;
  wft_legacy_query : option WorkflowQuery;
  wft_query_requests : list QueryWorkflow;
  wft_messages : list IncomingProtocolMessage;
}.

(** [i32 as u32]. *)
Definition i32_as_u32 (z : Z) : Z := (z mod (u32_max + 1))%Z.

Fixpoint try_collect {E A B} (f : A -> outcome E B) (l : list A) : outcome E (list B) :=
  match l with
  | [] => Ok []
  | x :: l => y ← f x; ys ← try_collect f l; Ok (y :: ys)
  end.

(** [TryFrom<PollWorkflowTaskQueueResponse>]; the iteration order of the queries
    map is unspecified and a parameter.  A [Debug] dump is not part of the
    message. *)
Definition ValidPollWFTQResponse_try_from `{AnyRequest}
    (iter_queries : gmap string WorkflowQuery -> list (string * WorkflowQuery))
    (value : PollWorkflowTaskQueueResponse) : outcome string ValidPollWFTQResponse :=
  match value.(poll_workflow_execution_task_queue), value.(poll_workflow_execution),
        value.(poll_workflow_type), value.(poll_history) with
  | Some tq, Some workflow_execution, Some workflow_type, Some history =>
      match value.(poll_task_token) with
      | EmptyString => Err "missing task token"
      | task_token =>
          let query_requests :=
            (fun '(id, q) => query_to_job id q) <$> iter_queries value.(poll_queries) in
          messages ← try_collect IncomingProtocolMessage_try_from value.(poll_messages);
          Ok {| wft_task_token := task_token;
                wft_task_queue := tq.(TaskQueue_name);
                wft_workflow_execution := workflow_execution;
                wft_workflow_type := workflow_type.(WorkflowType_name);
                wft_history := history;
                wft_next_page_token := value.(poll_next_page_token);
                wft_attempt := i32_as_u32 value.(poll_attempt);
                wft_previous_started_event_id := value.(poll_previous_started_event_id);
                wft_started_event_id := value.(poll_started_event_id);
                wft_legacy_query := value.(poll_query);
                wft_query_requests := query_requests;
                wft_messages := messages |}
      end
  | _, _, _, _ => Err "Unable to interpret poll response: "
  end.

(** ** Properties *)

(** (bounds): a validated local activity has at least one close timeout, its
    schedule-to-start and start-to-close timeouts never exceed its
    schedule-to-close timeout, and neither timeout is invented. *)
Theorem from_schedule_la_clamped `{WktTime} v la :
  from_schedule_la v = Ok la ->
  let '(sched, start) := into_sched_and_start la.(la_close_timeouts) in
  (sched <> None \/ start <> None) /\
  sched = v.(ScheduleLocalActivity_schedule_to_close_timeout) ≫= duration_try_into /\
  (start = None <-> v.(ScheduleLocalActivity_start_to_close_timeout) = None) /\
  (forall c s, sched = Some c ->
     start = Some s \/ la.(la_schedule_to_start_timeout) = Some s -> (s <= c)%Z).
Proof.
  unfold from_schedule_la. intros Hv. bind_Ok.
  rewrite (try_map_Ok _ _ _ _ Ha0). apply try_map_None in Ha2. injection Hv as <-.
  cbn [la_close_timeouts la_schedule_to_start_timeout].
  destruct a0 as [c|], a2 as [s|]; simplify_eq/=; (split_and!; [naive_solver..|]);
    intros c' s' [= <-] [[= <-]|Hs]; try destruct a1 as [t|]; simplify_eq/=;
    repeat case_match_goal; try (case_match_in Hs); simplify_eq/=; lia.
Qed.

(** (error): validation of a local activity fails when both close timeouts are
    missing, whatever the other fields are. *)
Theorem from_schedule_la_requires_close_timeout `{WktTime} v :
  v.(ScheduleLocalActivity_schedule_to_close_timeout) = None ->
  v.(ScheduleLocalActivity_start_to_close_timeout) = None ->
  exists msg, from_schedule_la v = Err msg.
Proof.
  intros H1 H2. unfold from_schedule_la, try_map. rewrite H1, H2.
  repeat case_match_goal; eauto.
Qed.

(** (safety): the accessors of an update request that was accepted by
    [try_from], from a message or from a history event, do not panic. *)
Theorem update_request_accessors_total {E} (r : Request) (u : UpdateRequest) :
  UpdateRequest_try_from r = Ok u ->
  (exists n, UpdateRequest_name (E := E) u = Ok n) /\
  (exists h, UpdateRequest_headers (E := E) u = Ok h) /\
  (exists i, UpdateRequest_input (E := E) u = Ok i) /\
  (exists m, UpdateRequest_meta (E := E) u = Ok m /\ r.(Request_meta) = Some m).
Proof.
  unfold UpdateRequest_try_from, UpdateRequest_name, UpdateRequest_headers, UpdateRequest_input,
    UpdateRequest_meta, expect_input.
  intros H. destruct (Request_input r) eqn:Hi, (Request_meta r) eqn:Hm; simplify_eq/=.
  rewrite Hi, Hm. simpl. split_and!; eauto.
Qed.

(** ** Examples *)

(** The exact conversions on in-range values, used by the examples. *)
Definition example_time : WktTime :=
  {| timestamp_try_into t := Some (t.(Timestamp_seconds) * 1000000000 + t.(Timestamp_nanos))%Z;
     timestamp_from z := {| Timestamp_seconds := z / 1000000000;
                            Timestamp_nanos := z mod 1000000000 |};
     duration_try_into d :=
       if ((0 <=? d.(Duration_seconds)) && (0 <=? d.(Duration_nanos)))%Z
       then Some (d.(Duration_seconds) * 1000000000 + d.(Duration_nanos))%Z else None;
     duration_try_from z := Some {| Duration_seconds := z / 1000000000;
                                    Duration_nanos := z mod 1000000000 |} |}.

Definition example_schedule_la (close start : option Duration) : ScheduleLocalActivity :=
  {| ScheduleLocalActivity_seq := 1; ScheduleLocalActivity_activity_id := "1";
     ScheduleLocalActivity_activity_type := "t"; ScheduleLocalActivity_attempt := 1;
     ScheduleLocalActivity_original_schedule_time := None;
     ScheduleLocalActivity_headers := ∅; ScheduleLocalActivity_arguments := [];
     ScheduleLocalActivity_schedule_to_close_timeout := close;
     ScheduleLocalActivity_schedule_to_start_timeout := None;
     ScheduleLocalActivity_start_to_close_timeout := start;
     ScheduleLocalActivity_retry_policy := None;
     ScheduleLocalActivity_local_retry_threshold := None;
     ScheduleLocalActivity_cancellation_type := 0 |}.

Lemma from_schedule_la_clamped_witness :
  exists la,
    from_schedule_la (H := example_time)
      (example_schedule_la (Some {| Duration_seconds := 3; Duration_nanos := 0 |})
         (Some {| Duration_seconds := 5; Duration_nanos := 0 |})) = Ok la /\
    into_sched_and_start la.(la_close_timeouts) = (Some 3000000000, Some 3000000000)%Z /\
    (3000000000 <= 3000000000)%Z.
Proof.
  eexists. split; [reflexivity|]. split; [reflexivity|].
  destruct (from_schedule_la_clamped (H := example_time)
    (example_schedule_la (Some {| Duration_seconds := 3; Duration_nanos := 0 |})
       (Some {| Duration_seconds := 5; Duration_nanos := 0 |})) _ eq_refl) as (_ & _ & _ & HT).
  apply (HT 3000000000%Z 3000000000%Z); [reflexivity | left; reflexivity].
Defined.

Lemma from_schedule_la_requires_close_timeout_witness :
  exists msg, from_schedule_la (H := example_time) (example_schedule_la None None) = Err msg.
Proof. apply from_schedule_la_requires_close_timeout; reflexivity. Defined.

Definition example_request : Request :=
  {| Request_meta := Some {| Meta_update_id := "u"; Meta_identity := "" |};
     Request_input := Some {| Input_header := None; Input_name := "n"; Input_args := None |} |}.

Lemma update_request_accessors_total_witness :
  exists n, UpdateRequest_name (E := unit) {| original := example_request |} = Ok n.
Proof.
  exact (proj1 (update_request_accessors_total (E := unit) example_request
    {| original := example_request |} eq_refl)).
Defined.
