(* ===== verification/ActivityTasks.v ===== *)
(** * Activity tasks and task tokens

    The tasks core hands to lang (activity_task.proto and their helpers in
    sdk-core-protos/src/lib.rs) and the tokens that name them
    (sdk-core-protos/src/task_token.rs).  Bytes are strings of [ascii]. *)
From Stdlib Require Import ZArith Lia Ascii String.
From stdpp Require Import base option list strings gmap.
From S2P Require Import Prelude Flags Protos.

(** ** Tasks (activity_task.proto) *)
Inductive ActivityCancelReason :=
| ACR_NotFound | ACR_Cancelled | ACR_TimedOut | ACR_WorkerShutdown | ACR_Paused | ACR_Reset.

#[global] Instance ActivityCancelReason_eq_dec : EqDecision ActivityCancelReason.
Proof. solve_decision. Defined.

Definition ActivityCancelReason_as_i32 (r : ActivityCancelReason) : Z :=
  match r with
  | ACR_NotFound => 0 | ACR_Cancelled => 1 | ACR_TimedOut => 2
  | ACR_WorkerShutdown => 3 | ACR_Paused => 4 | ACR_Reset => 5
  end.

Record ActivityCancellationDetails := {
  acd_is_not_found : bool;
  acd_is_cancelled : bool;
  acd_is_paused : bool;
  acd_is_timed_out : bool;
  acd_is_worker_shutdown : bool;
  acd_is_reset : bool;
}.

Record act_Cancel := {
  act_Cancel_reason : Z;
  act_Cancel_details : option ActivityCancellationDetails;
}.

Record act_Start := {
  act_Start_workflow_namespace : string;
  act_Start_workflow_type : string;
  act_Start_workflow_execution : option WorkflowExecution;
  act_Start_activity_id : string;
  act_Start_activity_type : string;
  act_Start_header_fields : gmap string Payload;
  act_Start_input : list Payload;
  act_Start_heartbeat_details : list Payload;
  act_Start_scheduled_time : option Timestamp;
  act_Start_current_attempt_scheduled_time : option Timestamp;
  act_Start_started_time : option Timestamp;
  act_Start_attempt : Z;
  act_Start_schedule_to_close_timeout : option Duration;
  act_Start_start_to_close_timeout : option Duration;
  act_Start_heartbeat_timeout : option Duration;
  act_Start_retry_policy : option RetryPolicy;
  act_Start_priority : option Priority;
  act_Start_is_local : bool;
}.

Inductive ActivityTask_Variant :=
| ActivityTask_Start (s : act_Start)
| ActivityTask_Cancel (c : act_Cancel).

Record ActivityTask := {
  at_task_token : string;
  at_variant : option ActivityTask_Variant;
}.

Definition cancel_from_ids (task_token : string) (reason : ActivityCancelReason)
    (details : ActivityCancellationDetails) : ActivityTask :=
  {| at_task_token := task_token;
     at_variant := Some (ActivityTask_Cancel
       {| act_Cancel_reason := ActivityCancelReason_as_i32 reason;
          act_Cancel_details := Some details |}) |}.

Definition activity_task_is_timeout (t : ActivityTask) : bool :=
  match t.(at_variant) with
  | Some (ActivityTask_Cancel c) =>
      (c.(act_Cancel_reason) =? ActivityCancelReason_as_i32 ACR_TimedOut)%Z
      || from_option acd_is_timed_out false c.(act_Cancel_details)
  | _ => false
  end.

Definition primary_reason_to_cancellation_details (reason : ActivityCancelReason)
  : ActivityCancellationDetails :=
  {| acd_is_not_found := bool_decide (reason = ACR_NotFound);
     acd_is_cancelled := bool_decide (reason = ACR_Cancelled);
     acd_is_paused := bool_decide (reason = ACR_Paused);
     acd_is_timed_out := bool_decide (reason = ACR_TimedOut);
     acd_is_worker_shutdown := bool_decide (reason = ACR_WorkerShutdown);
     acd_is_reset := bool_decide (reason = ACR_Reset) |}.

(** ** Tokens *)
Definition LOCAL_ACT_TASK_TOKEN_PREFIX : string := "local_act_".

Definition new_local_activity_token (unique_data : string) : string :=
  LOCAL_ACT_TASK_TOKEN_PREFIX +:+ unique_data.

Definition is_local_activity_task (token : string) : bool :=
  String.prefix LOCAL_ACT_TASK_TOKEN_PREFIX token.

(** [u32::to_le_bytes] *)
Definition byte_at (n i : Z) : ascii := ascii_of_N (Z.to_N (Z.land (Z.shiftr n (8 * i)) 255)).

Definition to_le_bytes (n : Z) : string :=
  String (byte_at n 0) (String (byte_at n 1) (String (byte_at n 2) (String (byte_at n 3) ""))).

Lemma byte_at_val n i :
  (0 <= n)%Z -> (0 <= i)%Z -> Z.of_N (N_of_ascii (byte_at n i)) = ((n / 2 ^ (8 * i)) mod 256)%Z.
Proof.
  intros Hn Hi. unfold byte_at.
  rewrite Z.shiftr_div_pow2 by lia. change 255%Z with (Z.ones 8). rewrite Z.land_ones by lia.
  change (2 ^ 8)%Z with 256%Z.
  pose proof (Z.mod_pos_bound (n / 2 ^ (8 * i)) 256). rewrite N_ascii_embedding by lia. lia.
Qed.

(** Different counters give different bytes. *)
Lemma to_le_bytes_inj a b : is_u32 a -> is_u32 b -> to_le_bytes a = to_le_bytes b -> a = b.
Proof.
  unfold is_u32, u32_max. intros Ha Hb [= H0 H1 H2 H3].
  apply (f_equal (fun c => Z.of_N (N_of_ascii c))) in H0, H1, H2, H3.
  rewrite !byte_at_val in H0, H1, H2, H3 by lia.
  change (2 ^ (8 * 0))%Z with 1%Z in *. change (2 ^ (8 * 1))%Z with 256%Z in *.
  change (2 ^ (8 * 2))%Z with 65536%Z in *. change (2 ^ (8 * 3))%Z with 16777216%Z in *.
  Z.to_euclidean_division_equations. lia.
Qed.

Lemma local_activity_token_inj a b :
  is_u32 a -> is_u32 b ->
  new_local_activity_token (to_le_bytes a) = new_local_activity_token (to_le_bytes b) -> a = b.
Proof. intros Ha Hb Heq. apply to_le_bytes_inj; [done..|]. by apply (inj (String.append _)) in Heq. Qed.
