(* ===== verification/Retry.v ===== *)
(** * Retry policies (core/src/retry_logic.rs)

    Whether a failed attempt is retried and after how long.  The precision of
    [f64::powi] is unspecified and [str::to_lowercase] depends on the Unicode
    tables, so both are parameters. *)
From Stdlib Require Import ZArith Lia SpecFloat.
From stdpp Require Import base option list strings.
From S2P Require Import Prelude TimeArith Flags Protos ProtoExt CoreProtos.

Class StdTables := {
  powi : spec_float -> Z -> spec_float;
  to_lowercase : string -> string;
}.

(** [usize as i32] *)
Definition as_i32 (z : Z) : Z :=
  let r := (z mod 4294967296)%Z in if (r <? 2147483648)%Z then r else (r - 4294967296)%Z.

(** [try_from_secs_f64]; [MAX_NANOS_F64] is [2^64 * 10^9]. *)
Definition MAX_NANOS_F64 : spec_float := f64_from ((u64_max + 1) * NANOS_PER_SEC).

Definition try_from_secs_f64 {E} (secs : spec_float) : outcome E (option Z) :=
  let nanos := f64_mul secs (f64_from NANOS_PER_SEC) in
  match nanos with
  | S754_infinity _ | S754_nan => Ok None
  | _ =>
      if SFleb (S754_zero false) nanos && SFltb nanos MAX_NANOS_F64
      then d ← from_secs secs; Ok (Some d)
      else Ok None
  end.

Section should_retry.
  Context `{WktTime} `{StdTables}.

Definition is_non_retryable (policy : RetryPolicy) (f : option ApplicationFailureInfo) : bool :=
  let err_type := from_option ApplicationFailureInfo_type "" f in
  existsb (fun pat => String.eqb (to_lowercase err_type) (to_lowercase pat))
    policy.(RetryPolicy_non_retryable_error_types).

(** The initial interval, one second when it is missing or not a duration. *)
Definition retry_interval (policy : RetryPolicy) : Z :=
  default NANOS_PER_SEC (policy.(RetryPolicy_initial_interval) ≫= duration_try_into).

Definition retry_max_interval (policy : RetryPolicy) : Z :=
  default (saturating_mul (retry_interval policy) 100)
    (policy.(RetryPolicy_maximum_interval) ≫= duration_try_into).

Definition retry_coefficient (policy : RetryPolicy) : spec_float :=
  let c := f64_from_bits policy.(RetryPolicy_backoff_coefficient) in
  if SFeqb c (S754_zero false) then f64_from 2 else c.

Definition should_retry {E} (policy : RetryPolicy) (attempt_number : Z)
    (f : option ApplicationFailureInfo) : outcome E (option Z) :=
  if from_option ApplicationFailureInfo_non_retryable false f then Ok None
  else
    let realmax := Z.max policy.(RetryPolicy_maximum_attempts) 0 in
    if (0 <? realmax)%Z && (realmax <=? attempt_number)%Z then Ok None
    else if is_non_retryable policy f then Ok None
    else
      match f ≫= ApplicationFailureInfo_next_retry_delay with
      | Some explicit_delay => Ok (duration_try_into explicit_delay)
      | None =>
          let interval := retry_interval policy in
          if (attempt_number =? 1)%Z then Ok (Some interval)
          else
            let max_iv := retry_max_interval policy in
            let mul_factor :=
              powi (retry_coefficient policy) (as_i32 (as_i32 attempt_number - 1)) in
            tried_mul ← try_from_secs_f64 (f64_mul mul_factor (as_secs_f64 interval));
            Ok (Some (Z.min (default max_iv tried_mul) max_iv))
      end.
End should_retry.

(** ** Rounding

    What the conversion back to a duration relies on: a product in double
    precision has a mantissa of at most 53 bits, and multiplying by [10^9] keeps
    numbers of [2^64] and above at or above [MAX_NANOS_F64]. *)
Module Rounding.
Open Scope Z_scope.

Lemma digits2_bounds m :
  2 ^ (Z.pos (digits2_pos m) - 1) <= Z.pos m < 2 ^ Z.pos (digits2_pos m).
Proof.
  induction m as [m IH|m IH|]; simpl digits2_pos; [| |simpl; lia].
  all: rewrite Pos2Z.inj_succ, Z.pow_succ_r by lia;
    replace (Z.succ (Z.pos (digits2_pos m)) - 1) with
      (Z.succ (Z.pos (digits2_pos m) - 1)) by lia;
    rewrite Z.pow_succ_r by lia; lia.
Qed.

Lemma Zdigits2_bounds m : 0 < m -> 2 ^ (Zdigits2 m - 1) <= m < 2 ^ Zdigits2 m.
Proof. destruct m; simpl Zdigits2; try lia. intros _. apply digits2_bounds. Qed.

Lemma Zdigits2_nonneg m : 0 <= Zdigits2 m.
Proof. destruct m; simpl; lia. Qed.

Lemma Zdigits2_le m n : 0 <= m < 2 ^ n -> 0 <= n -> Zdigits2 m <= n.
Proof.
  intros Hm Hn. destruct (Z.eq_dec m 0) as [->|]; [simpl; lia|].
  pose proof (Zdigits2_bounds m) as Hd. apply Z.nlt_ge. intros Hlt.
  pose proof (Z.pow_le_mono_r 2 n (Zdigits2 m - 1)). lia.
Qed.

Lemma Zdigits2_ge m n : 2 ^ n <= m -> 0 <= n -> n < Zdigits2 m.
Proof.
  intros Hm Hn. assert (0 < m) by (pose proof (Z.pow_pos_nonneg 2 n); lia).
  pose proof (Zdigits2_bounds m) as Hd. apply Z.nle_gt. intros Hle.
  pose proof (Z.pow_le_mono_r 2 (Zdigits2 m) n). lia.
Qed.

Lemma shr_1_m r : 0 <= shr_m r -> shr_m (shr_1 r) = shr_m r / 2.
Proof.
  destruct r as [[|[p|p|]|p] r s]; simpl; intros; try lia; try done.
  - rewrite Pos2Z.pos_xI. apply Z.div_unique with 1; lia.
  - rewrite Pos2Z.pos_xO. apply Z.div_unique with 0; lia.
Qed.

Lemma iter_shr_m p r : 0 <= shr_m r -> shr_m (SpecFloat.iter_pos shr_1 p r) = shr_m r / 2 ^ Z.pos p.
Proof.
  revert r. induction p as [p IH|p IH|]; intros r Hr; cbn [SpecFloat.iter_pos];
    [| |by rewrite shr_1_m].
  all: pose proof (Z.pow_pos_nonneg 2 (Z.pos p)).
  - assert (0 <= shr_m (shr_1 r)) by (rewrite shr_1_m by done; apply Z.div_pos; lia).
    assert (0 <= shr_m (SpecFloat.iter_pos shr_1 p (shr_1 r)))
      by (rewrite IH by done; apply Z.div_pos; lia).
    rewrite (IH (SpecFloat.iter_pos shr_1 p (shr_1 r))), IH, shr_1_m, !Z.div_div by lia.
    f_equal. rewrite (Pos2Z.inj_xI p), Z.pow_add_r, Z.pow_twice_r by lia. lia.
  - assert (0 <= shr_m (SpecFloat.iter_pos shr_1 p r))
      by (rewrite IH by done; apply Z.div_pos; lia).
    rewrite (IH (SpecFloat.iter_pos shr_1 p r)), IH, Z.div_div by lia.
    f_equal. rewrite (Pos2Z.inj_xO p), Z.pow_twice_r by lia. lia.
Qed.

Lemma shr_record_of_loc_m m l : shr_m (shr_record_of_loc m l) = m.
Proof. by destruct l as [|[]]. Qed.

(** A shift to the precision: what it drops and where it ends. *)
Lemma shr_fexp_spec m e l r e' :
  0 <= m -> shr_fexp 53 1024 m e l = (r, e') ->
  let k := Z.max 0 (fexp 53 1024 (Zdigits2 m + e) - e) in
  shr_m r = m / 2 ^ k /\ e' = e + k.
Proof.
  intros Hm Hs k. unfold shr_fexp, shr in Hs. subst k.
  destruct (fexp 53 1024 (Zdigits2 m + e) - e) as [|p|p] eqn:E; injection Hs as <- <-.
  - by rewrite shr_record_of_loc_m, Z.div_1_r, Z.add_0_r.
  - rewrite iter_shr_m; rewrite shr_record_of_loc_m; done.
  - by rewrite shr_record_of_loc_m, Z.div_1_r, Z.add_0_r.
Qed.

Lemma round_nearest_even_bounds m l :
  m <= round_nearest_even m l <= m + 1.
Proof. unfold round_nearest_even. repeat case_match; lia. Qed.

Lemma fexp_eq x : fexp 53 1024 x = Z.max (x - 53) (-1074).
Proof. reflexivity. Qed.

(** After a shift the mantissa fits and the exponent is at least the smallest. *)
Lemma shr_fexp_fits m e l r e' :
  0 <= m -> shr_fexp 53 1024 m e l = (r, e') ->
  0 <= shr_m r < 2 ^ 53 /\ -1074 <= e' /\ e <= e'.
Proof.
  intros Hm Hs. apply shr_fexp_spec in Hs as [Hr ->]; [|done]. rewrite fexp_eq in *.
  set (d := Zdigits2 m) in *. set (k := Z.max 0 _) in *.
  assert (0 < 2 ^ k) by (apply Z.pow_pos_nonneg; lia).
  split; [|lia]. rewrite Hr. split; [apply Z.div_pos; lia|].
  apply Z.div_lt_upper_bound; [done|]. rewrite <-Z.pow_add_r by lia.
  destruct (Z.eq_dec m 0) as [->|]; [apply Z.pow_pos_nonneg; lia|].
  pose proof (Zdigits2_bounds m) as Hd. fold d in Hd.
  pose proof (Z.pow_le_mono_r 2 d (k + 53)). lia.
Qed.

Definition round_fits (sx : bool) (x : spec_float) : Prop :=
  match x with
  | S754_finite s m e => s = sx /\ Z.pos m < 2 ^ 53 /\ -1074 <= e
  | S754_zero s | S754_infinity s => s = sx
  | S754_nan => False
  end.

Lemma round_aux_fits sx m e l : 0 <= m -> round_fits sx (binary_round_aux 53 1024 sx m e l).
Proof.
  intros Hm. unfold binary_round_aux. destruct (shr_fexp _ _ m e l) as [r1 e1] eqn:E1.
  apply shr_fexp_fits in E1 as (Hr1 & _ & _); [|done].
  destruct (shr_fexp _ _ (round_nearest_even _ _) e1 _) as [r2 e2] eqn:E2.
  pose proof (round_nearest_even_bounds (shr_m r1) (loc_of_shr_record r1)).
  apply shr_fexp_fits in E2 as (Hr2 & ? & _); [|lia].
  destruct (shr_m r2); simpl; [done| |lia]. case_match; simpl; [|done]. split_and!; [done|lia..].
Qed.

(** A product is rounded: it has the sign of the factors and fits. *)
Lemma f64_mul_fits x y :
  match f64_mul x y with
  | S754_finite _ m e => Z.pos m < 2 ^ 53 /\ -1074 <= e
  | _ => True
  end.
Proof.
  unfold f64_mul, SFmul. destruct x as [| | |sx mx ex], y as [| | |sy my ey]; try done.
  pose proof (round_aux_fits (xorb sx sy) (Z.pos (mx * my)) (ex + ey) loc_Exact) as Hf.
  destruct (binary_round_aux _ _ _ _ _ _); simpl in Hf; [done..|]. by apply Hf.
Qed.

(** A number of at least [2^c] whose mantissa has at least 53 bits is shifted to
    an exponent of at least [c - 52], keeping the top 53 bits. *)
Lemma shr_fexp_top m e l r e' :
  2 ^ 52 <= m -> -1021 <= Zdigits2 m + e -> shr_fexp 53 1024 m e l = (r, e') ->
  e' = Zdigits2 m + e - 53 /\ shr_m r = m / 2 ^ (Zdigits2 m - 53) /\ 2 ^ 52 <= shr_m r.
Proof.
  intros Hm He Hs. pose proof (Zdigits2_ge m 52 Hm). pose proof (Zdigits2_bounds m).
  apply shr_fexp_spec in Hs as [Hr He']; [|lia]. rewrite fexp_eq in *.
  replace (Z.max 0 _) with (Zdigits2 m - 53) in * by lia.
  split; [lia|]. split; [done|]. rewrite Hr.
  apply Z.div_le_lower_bound; [apply Z.pow_pos_nonneg; lia|].
  rewrite <-Z.pow_add_r by lia. replace (_ + 52) with (Zdigits2 m - 1) by lia. lia.
Qed.

Lemma round_aux_top m e m2 e2 :
  2 ^ 52 <= m -> -1021 <= Zdigits2 m + e ->
  binary_round_aux 53 1024 false m e loc_Exact = S754_finite false m2 e2 ->
  Zdigits2 m + e - 53 < e2 \/
  e2 = Zdigits2 m + e - 53 /\ m / 2 ^ (Zdigits2 m - 53) <= Z.pos m2.
Proof.
  intros Hm He. unfold binary_round_aux. destruct (shr_fexp _ _ m e _) as [r1 e1] eqn:E1.
  apply shr_fexp_top in E1 as (-> & Hr1 & Hr1'); [|done..]. rewrite <-Hr1.
  set (m1 := round_nearest_even _ _).
  pose proof (round_nearest_even_bounds (shr_m r1) (loc_of_shr_record r1)) as Hm1.
  fold m1 in Hm1. destruct (shr_fexp _ _ m1 _ _) as [r2 e2'] eqn:E2.
  pose proof (Zdigits2_ge m1 52).
  apply shr_fexp_top in E2 as (-> & Hr2 & _); [|lia..].
  destruct (shr_m r2) as [|p|]; [done| |done]. case_match; [|done]. intros [= <- <-].
  destruct (Z.eq_dec (Zdigits2 m1) 53) as [Ed|]; [right|left; lia].
  rewrite Ed, Z.sub_diag, Z.div_1_r in Hr2. lia.
Qed.

(** A shift by less than the number of digits leaves a digit. *)
Lemma div_pow_pos m k : 0 < m -> 0 <= k < Zdigits2 m -> 1 <= m / 2 ^ k.
Proof.
  intros Hm Hk. pose proof (Zdigits2_bounds m Hm).
  pose proof (Z.pow_le_mono_r 2 k (Zdigits2 m - 1)).
  apply Z.div_le_lower_bound; [apply Z.pow_pos_nonneg; lia|lia].
Qed.

Lemma round_aux_nonzero sx m e s :
  2 ^ 52 <= m -> -1097 <= e -> binary_round_aux 53 1024 sx m e loc_Exact <> S754_zero s.
Proof.
  intros Hm He. pose proof (Zdigits2_ge m 52 Hm). unfold binary_round_aux.
  destruct (shr_fexp _ _ m e _) as [r1 e1] eqn:E1.
  pose proof E1 as E1'. apply shr_fexp_fits in E1' as (_ & He1 & _); [|lia].
  apply shr_fexp_spec in E1 as [Hr1 _]; [|lia]. rewrite fexp_eq in Hr1.
  pose proof (div_pow_pos m (Z.max 0 (Z.max (Zdigits2 m + e - 53) (-1074) - e))).
  pose proof (round_nearest_even_bounds (shr_m r1) (loc_of_shr_record r1)).
  set (m1 := round_nearest_even _ _) in *. destruct (shr_fexp _ _ m1 e1 _) as [r2 e2] eqn:E2.
  apply shr_fexp_spec in E2 as [Hr2 _]; [|lia]. rewrite fexp_eq in Hr2.
  assert (0 < Zdigits2 m1) by (apply Zdigits2_ge; lia).
  pose proof (div_pow_pos m1 (Z.max 0 (Z.max (Zdigits2 m1 + e1 - 53) (-1074) - e1))).
  destruct (shr_m r2); [lia|case_match; done|done].
Qed.

Definition NANOS_MANTISSA : positive := 8388608000000000.

Lemma f64_nanos : f64_from NANOS_PER_SEC = S754_finite false NANOS_MANTISSA (-23).
Proof. vm_compute. reflexivity. Qed.

Lemma f64_max_nanos : MAX_NANOS_F64 = S754_finite false NANOS_MANTISSA 41.
Proof. vm_compute. reflexivity. Qed.

Lemma SFltb_max m e :
  SFltb (S754_finite false m e) MAX_NANOS_F64 = true ->
  e < 41 \/ e = 41 /\ Z.pos m < Z.pos NANOS_MANTISSA.
Proof.
  rewrite f64_max_nanos. generalize NANOS_MANTISSA. intros M. unfold SFltb, SFcompare.
  destruct (Z.compare_spec e 41) as [->| |]; [|lia|done].
  intros Hc. right. split; [done|]. fold (Pos.compare m M) in Hc.
  destruct (Pos.compare_spec m M); [done| |done]. lia.
Qed.

(** Seconds whose nanoseconds are below the bound are below [2^64]. *)
Lemma secs_below_max m e m2 e2 :
  0 <= e ->
  f64_mul (S754_finite false m e) (f64_from NANOS_PER_SEC) = S754_finite false m2 e2 ->
  SFltb (S754_finite false m2 e2) MAX_NANOS_F64 = true ->
  Z.pos m * 2 ^ e <= u64_max.
Proof.
  intros He Hmul Hlt. apply SFltb_max in Hlt. rewrite f64_nanos in Hmul.
  unfold f64_mul, SFmul in Hmul. simpl xorb in Hmul.
  set (mm := Z.pos (m * NANOS_MANTISSA)) in *.
  assert (mm = Z.pos m * Z.pos NANOS_MANTISSA) as Hmm by lia.
  assert (2 ^ 52 <= mm) as Hb by (unfold NANOS_MANTISSA in *; lia).
  pose proof (Zdigits2_ge mm 52 Hb) as Hd52.
  pose proof (Zdigits2_bounds mm) as Hd.
  apply round_aux_top in Hmul; [|lia..]. set (d := Zdigits2 mm) in *.
  apply Z.nlt_ge. intros Hbig.
  assert (Z.pos NANOS_MANTISSA * 2 ^ 64 <= mm * 2 ^ e) as Hge
    by (unfold u64_max, NANOS_MANTISSA in *; lia).
  assert (2 ^ 116 < 2 ^ (d + e)) as Hp.
  { rewrite Z.pow_add_r by lia. pose proof (Z.pow_pos_nonneg 2 e).
    unfold NANOS_MANTISSA in *. nia. }
  apply Z.pow_lt_mono_r_iff in Hp; [|lia..].
  assert (d + e = 117) as Hde by lia.
  assert (Z.pos NANOS_MANTISSA <= mm / 2 ^ (d - 53)); [|lia].
  apply Z.div_le_lower_bound; [apply Z.pow_pos_nonneg; lia|].
  replace 64 with (e + (d - 53)) in Hge by lia. rewrite Z.pow_add_r in Hge by lia.
  pose proof (Z.pow_pos_nonneg 2 e). nia.
Qed.

Lemma from_secs_small {E} m e :
  (e < 0 -> Z.pos m < 2 ^ 53) -> (0 <= e -> Z.pos m * 2 ^ e <= u64_max) ->
  exists d, from_secs (E := E) (S754_finite false m e) = Ok d.
Proof.
  intros Hneg Hpos. unfold from_secs. case_match eqn:Eb; [eauto|].
  apply Z.leb_nle in Eb. exfalso. apply Eb. clear Eb. destruct (Z.leb_spec 0 e) as [He|He].
  - replace (_ * _ * _) with (Z.pos m * 2 ^ e * NANOS_PER_SEC) by lia.
    rewrite Z.div_mul by (unfold NANOS_PER_SEC; lia). auto.
  - assert (div_round_even (Z.pos m * NANOS_PER_SEC) (2 ^ (- e))
      <= Z.pos m * NANOS_PER_SEC) as Hle.
    { pose proof (Z.pow_le_mono_r 2 1 (- e)). unfold NANOS_PER_SEC, div_round_even.
      set (n := Z.pos m * 1000000000).
      assert (n / 2 ^ (- e) <= n / 2) by (apply Z.div_le_compat_l; lia).
      pose proof (Z.div_mod n 2). pose proof (Z.mod_pos_bound n 2). repeat case_match; lia. }
    unfold u64_max, NANOS_PER_SEC in *. specialize (Hneg He).
    apply Z.div_le_upper_bound; lia.
Qed.
End Rounding.

(** [try_from_secs_f64] of a product never panics. *)
Lemma try_from_secs_f64_total {E} x y :
  exists r, try_from_secs_f64 (E := E) (f64_mul x y) = Ok r.
Proof.
  pose proof (Rounding.f64_mul_fits x y) as Hfit.
  destruct (f64_mul x y) as [s|s| |s m e]; [eexists; reflexivity..|].
  unfold try_from_secs_f64. destruct Hfit as [Hm He].
  destruct (f64_mul (S754_finite s m e) (f64_from NANOS_PER_SEC)) as [s2|s2| |s2 m2 e2] eqn:En;
    [| eauto | eauto |].
  - exfalso. rewrite Rounding.f64_nanos in En. unfold f64_mul, SFmul in En.
    apply (Rounding.round_aux_nonzero _ _ _ _) in En; [done| |lia].
    unfold Rounding.NANOS_MANTISSA. lia.
  - case_match eqn:Eb; [|eauto]. apply andb_prop in Eb as [Hle Hlt].
    destruct s2; [done|].
    assert (s = false) as ->.
    { rewrite Rounding.f64_nanos in En. unfold f64_mul, SFmul in En.
      match type of En with binary_round_aux _ _ ?sx ?mx ?ex ?l = _ =>
        pose proof (Rounding.round_aux_fits sx mx ex l) as Hf end.
      rewrite En in Hf. simpl in Hf. destruct s; [|done]. by destruct Hf as [? _]; [lia|]. }
    destruct (Rounding.from_secs_small (E := E) m e) as [d ->]; [done| |eexists; reflexivity].
    intros. by eapply Rounding.secs_below_max.
Qed.

Section policy.
  Context `{WktTime} `{StdTables}.

(** Why a failed attempt is the last one. *)
Definition no_retry (policy : RetryPolicy) (attempt_number : Z)
    (f : option ApplicationFailureInfo) : Prop :=
  from_option ApplicationFailureInfo_non_retryable false f = true \/
  (0 < policy.(RetryPolicy_maximum_attempts) <= attempt_number)%Z \/
  is_non_retryable policy f = true \/
  (exists delay, f ≫= ApplicationFailureInfo_next_retry_delay = Some delay /\
                 duration_try_into delay = None).

Lemma should_retry_spec {E} policy attempt_number f :
  exists r, should_retry (E := E) policy attempt_number f = Ok r /\
    (r = None <-> no_retry policy attempt_number f) /\
    forall d, r = Some d ->
      match f ≫= ApplicationFailureInfo_next_retry_delay with
      | Some delay => duration_try_into delay = Some d
      | None => if (attempt_number =? 1)%Z then d = retry_interval policy
                else (d <= retry_max_interval policy)%Z
      end.
Proof.
  unfold should_retry, no_retry. case_match; [eexists; split_and!; naive_solver|].
  destruct (0 <? _)%Z eqn:Emax; [destruct (_ <=? attempt_number)%Z eqn:Eatt|]; simpl.
  { eexists; split_and!; [done| |naive_solver]. split; [intros _; right; left; lia|done]. }
  all: assert (~ (0 < policy.(RetryPolicy_maximum_attempts) <= attempt_number)%Z) by lia.
  all: destruct (is_non_retryable policy f); [eexists; split_and!; naive_solver|].
  all: destruct (f ≫= _) as [delay|]; [eexists; split_and!; [done|naive_solver..]|].
  all: destruct (attempt_number =? 1)%Z; [eexists; split_and!; naive_solver|].
  all: match goal with |- context [try_from_secs_f64 (f64_mul ?x ?y)] =>
         destruct (try_from_secs_f64_total (E := E) x y) as [r ->] end.
  all: eexists; split_and!; [reflexivity|naive_solver|intros d [= <-]; lia].
Qed.

(** C31 [should_retry] returns for every policy, attempt and failure, without a
    panic of the float conversions whatever [powi] computes.  It refuses a retry
    exactly when the failure says so, the attempts are used up, the type of the
    failure is listed, or the failure asks for a delay that is not a duration.
    Otherwise the delay is the one the failure asks for; else, for the first
    attempt, the initial interval; else at most the maximum interval. *)
Theorem retries_follow_the_policy {E} policy attempt_number f :
  exists r, should_retry (E := E) policy attempt_number f = Ok r /\
    (r = None <-> no_retry policy attempt_number f) /\
    forall d, r = Some d ->
      match f ≫= ApplicationFailureInfo_next_retry_delay with
      | Some delay => duration_try_into delay = Some d
      | None => if (attempt_number =? 1)%Z then d = retry_interval policy
                else (d <= retry_max_interval policy)%Z
      end.
Proof. exact (should_retry_spec policy attempt_number f). Qed.
End policy.
