(* ===== verification/Fsm.v ===== *)
(** * State machines (fsm/ and machines/mod.rs)

    The code generated by the [fsm!] macro (fsm/rustfsm_procmacro/src/lib.rs),
    the trait it implements (fsm/rustfsm_trait/src/lib.rs), and the blanket
    [TemporalStateMachine] implementation through which every machine handles
    commands and history events (machines/mod.rs). *)
From Stdlib Require Import ZArith Lia.
From stdpp Require Import base option list strings gmap.
From S2P Require Import Prelude Flags Protos ProtoExt CoreProtos.

(** ** Errors and responses *)

Inductive WFMachinesError :=
| Nondeterminism (msg : string)
| Fatal (msg : string).

Inductive MachineError (E : Type) :=
| InvalidTransition
| Underlying (e : E).
Arguments InvalidTransition {E}.
Arguments Underlying {E} e.

(** [From<MachineError<WFMachinesError>> for WFMachinesError]. *)
Definition WFMachinesError_from (e : MachineError WFMachinesError) : WFMachinesError :=
  match e with
  | InvalidTransition => Nondeterminism "Invalid transition in state machine"
  | Underlying e => e
  end.

Inductive MachineResponse :=
| PushWFJob (job : JobVariant)
| IssueNewCommand (c : Command)
| IssueNewMessage (m : Message)
| NewCoreOriginatedCommand (a : Attributes)
| IssueFakeLocalActivityMarker (seq : Z)
| TriggerWFTaskStarted (task_started_event_id : Z) (time : Z)
| UpdateRunIdOnWorkflowReset (run_id : string)
| QueueLocalActivity (la : ValidScheduleLA)
| RequestCancelLocalActivityResp (seq : Z)
| AbandonLocalActivity (seq : Z)
| UpdateWFTime (t : option Z).

Record HistEventData := {
  event : HistoryEvent;
  replaying : bool;
  current_task_is_last_in_history : bool;
}.

Record EventInfo := { ei_event_id : Z; ei_event_type : EventType }.

(** [Debug] of [EventInfo]. *)
Definition EventInfo_debug (i : EventInfo) : string :=
  "EventInfo { event_id: " +:+ to_string i.(ei_event_id) +:+ ", event_type: "
    +:+ EventType_debug i.(ei_event_type) +:+ " }".

(** [Debug] of a string without special characters. *)
Definition quoted (s : string) : string :=
  let q := String (Ascii.ascii_of_nat 34) EmptyString in q +:+ s +:+ q.

(** ** Transitions *)

(** What a transition handler returns; a handler may also panic. *)
Inductive TransitionResult (Cmd St : Type) :=
| TrInvalidTransition
| TrOk (commands : list Cmd) (new_state : St)
| TrErr (e : WFMachinesError)
| TrPanic (msg : string).
Arguments TrInvalidTransition {Cmd St}.
Arguments TrOk {Cmd St} commands new_state.
Arguments TrErr {Cmd St} e.
Arguments TrPanic {Cmd St} msg.

(** [TransitionResult::default] and [TransitionResult::from]: no commands. *)
Abbreviation TrTo new_state := (TrOk [] new_state).

(** [TransitionResult::into_cmd_result]. *)
Definition into_cmd_result {Cmd St} (r : TransitionResult Cmd St)
  : outcome (MachineError WFMachinesError) (list Cmd * St) :=
  match r with
  | TrOk commands new_state => Ok (commands, new_state)
  | TrInvalidTransition => Err InvalidTransition
  | TrErr e => Err (Underlying e)
  | TrPanic msg => Panic msg
  end.

(** A handler: it may mutate the shared state and the flags of the run before it
    returns. *)
Definition Handler (Sh St Cmd : Type) : Type :=
  Sh -> InternalFlags -> Sh * InternalFlags * TransitionResult Cmd St.

Definition pure_handler {Sh St Cmd} (r : TransitionResult Cmd St) : Handler Sh St Cmd :=
  fun sh fl => (sh, fl, r).

(** A handler that only reads the shared state. *)
Definition reading {Sh St Cmd} (r : Sh -> TransitionResult Cmd St) : Handler Sh St Cmd :=
  fun sh fl => (sh, fl, r sh).

(** A handler that updates the shared state first. *)
Definition updating {Sh St Cmd} (f : Sh -> Sh) (r : TransitionResult Cmd St)
  : Handler Sh St Cmd :=
  fun sh fl => (f sh, fl, r).

(** A machine definition: what [fsm!] and the implementations it refers to
    provide.  [transition s e] is [None] when the definition has no arrow for
    [e] in [s]. *)
Record StateMachine := {
  State : Type;
  SharedState : Type;
  Event : Type;
  SmCommand : Type;
  sm_name : string;
  state_display : State -> string;
  transition : State -> Event -> option (Handler SharedState State SmCommand);
  is_final : State -> bool;
}.

(** The generated struct: the state is taken out while a handler runs. *)
Record machine (SM : StateMachine) := mk_machine {
  state : option SM.(State);
  shared_state : SM.(SharedState);
}.
Arguments mk_machine {SM} state shared_state.
Arguments state {SM} m.
Arguments shared_state {SM} m.

Definition from_parts {SM} (s : SM.(State)) (sh : SM.(SharedState)) : machine SM :=
  mk_machine (Some s) sh.

(** The state of a machine together with the flags of its run. *)
Abbreviation MachineM SM A := (M (machine SM * InternalFlags) WFMachinesError A).

(** The generated [on_event]. *)
Definition on_event {SM} (ev : SM.(Event))
  : M (machine SM * InternalFlags) (MachineError WFMachinesError) (list SM.(SmCommand)) :=
  fun '(m, fl) =>
    match m.(state) with
    | None => ((m, fl), Err InvalidTransition)
    | Some s =>
        match SM.(transition) s ev with
        | None => ((m, fl), Err InvalidTransition)
        | Some h =>
            let '(sh', fl', res) := h m.(shared_state) fl in
            match into_cmd_result res with
            | Ok (cmds, s') => ((mk_machine (Some s') sh', fl'), Ok cmds)
            | Err e => ((mk_machine None sh', fl'), Err e)
            | Panic msg => ((mk_machine None sh', fl'), Panic msg)
            end
        end
    end.

(** [state()] unwraps. *)
Definition get_state {SM E} (m : machine SM) : outcome E SM.(State) :=
  match m.(state) with
  | Some s => Ok s
  | None => Panic "called `Option::unwrap()` on a `None` value"
  end.

Definition has_reached_final_state {SM E} (m : machine SM) : outcome E bool :=
  s ← get_state m; Ok (SM.(is_final) s).

(** ** The bridge to the workflow machines *)

(** What each machine provides beside its transitions: the conversions
    [TryFrom<HistEventData>] and [TryFrom<CommandType>] into its events and
    [WFMachinesAdapter::adapt_response].  The law ties the generated [is_final]
    to the transitions. *)
Class TemporalStateMachine (SM : StateMachine) := {
  try_from_hist_event : HistEventData -> outcome WFMachinesError SM.(Event);
  try_from_command_type : CommandType -> option SM.(Event);
  adapt_response : machine SM -> SM.(SmCommand) -> option EventInfo ->
                   outcome WFMachinesError (list MachineResponse);
  is_final_no_transition : forall s, SM.(is_final) s = true <-> forall ev, SM.(transition) s ev = None;
}.

Section temporal_state_machine.
  Context {SM : StateMachine} {HT : TemporalStateMachine SM}.

Fixpoint process_machine_commands (m : machine SM) (commands : list SM.(SmCommand))
    (event_info : option EventInfo) : outcome WFMachinesError (list MachineResponse) :=
  match commands with
  | [] => Ok []
  | cmd :: commands =>
      resps ← adapt_response m cmd event_info;
      more ← process_machine_commands m commands event_info;
      Ok (resps ++ more)
  end.

Definition handle_command (command_type : CommandType) : MachineM SM (list MachineResponse) :=
  fun s =>
    match try_from_command_type command_type with
    | Some converted =>
        match on_event converted s with
        | ((m, fl), Ok c) => ((m, fl), process_machine_commands m c None)
        | ((m, fl), Err InvalidTransition) =>
            ((m, fl),
             st ← get_state m;
             Err (Nondeterminism
               ("Unexpected command producing an invalid transition "
                +:+ CommandType_debug command_type +:+ " in state " +:+ SM.(state_display) st)))
        | (s', Err (Underlying e)) => (s', Err e)
        | (s', Panic msg) => (s', Panic msg)
        end
    | None =>
        (s, Err (Nondeterminism
          ("Unexpected command " +:+ CommandType_debug command_type
           +:+ " generated by a " +:+ quoted SM.(sm_name) +:+ " machine")))
    end.

Definition handle_event (event_dat : HistEventData) : MachineM SM (list MachineResponse) :=
  fun s =>
    let event_info := {| ei_event_id := event_dat.(event).(HistoryEvent_event_id);
                         ei_event_type := event_type event_dat.(event) |} in
    match try_from_hist_event event_dat with
    | Ok converted =>
        match on_event converted s with
        | ((m, fl), Ok c) => ((m, fl), process_machine_commands m c (Some event_info))
        | ((m, fl), Err InvalidTransition) =>
            ((m, fl),
             st ← get_state m;
             Err (Fatal
               (SM.(sm_name) +:+ " in state " +:+ SM.(state_display) st
                +:+ " says the transition is invalid during event "
                +:+ EventInfo_debug event_info)))
        | (s', Err (Underlying e)) => (s', Err e)
        | (s', Panic msg) => (s', Panic msg)
        end
    | Err e => (s, Err e)
    | Panic msg => (s, Panic msg)
    end.

End temporal_state_machine.

(** A history event, for evaluation. *)
Definition example_hist_event (ty : EventType) (a : option HistAttributes) : HistEventData :=
  {| event := {| HistoryEvent_event_id := 7; HistoryEvent_event_time := None;
                 HistoryEvent_event_type := EventType_as_i32 ty; HistoryEvent_version := 0;
                 HistoryEvent_task_id := 0; HistoryEvent_worker_may_ignore := false;
                 HistoryEvent_user_metadata := None; HistoryEvent_attributes := a |};
     replaying := false; current_task_is_last_in_history := true |}.

Definition example_flags : InternalFlags := InternalFlags_new true "core" "1".

(** ** What [on_event] does *)
Section on_event_facts.
  Context {SM : StateMachine}.

Definition outputs {E A} (r : outcome E (list A)) : list A :=
  match r with Ok l => l | _ => [] end.

Lemma on_event_poisoned ev m fl :
  m.(state) = None -> on_event (SM := SM) ev (m, fl) = ((m, fl), Err InvalidTransition).
Proof. intros H. unfold on_event. by rewrite H. Qed.

Lemma on_event_undefined ev m fl s :
  m.(state) = Some s -> SM.(transition) s ev = None ->
  on_event ev (m, fl) = ((m, fl), Err InvalidTransition).
Proof. intros H1 H2. unfold on_event. by rewrite H1, H2. Qed.

Lemma on_event_defined ev m fl s h :
  m.(state) = Some s -> SM.(transition) s ev = Some h ->
  on_event ev (m, fl) =
    let '(sh', fl', res) := h m.(shared_state) fl in
    match res with
    | TrOk cmds s' => ((mk_machine (Some s') sh', fl'), Ok cmds)
    | TrInvalidTransition => ((mk_machine None sh', fl'), Err InvalidTransition)
    | TrErr e => ((mk_machine None sh', fl'), Err (Underlying e))
    | TrPanic msg => ((mk_machine None sh', fl'), Panic msg)
    end.
Proof.
  intros H1 H2. unfold on_event. rewrite H1, H2.
  destruct (h _ _) as [[sh' fl'] []]; done.
Qed.

(** The shape of every result of [on_event]. *)
Lemma on_event_cases ev m fl s' r :
  on_event (SM := SM) ev (m, fl) = (s', r) ->
  (r = Err InvalidTransition /\ s' = (m, fl)) \/
  (exists s h sh' fl' res,
     m.(state) = Some s /\ SM.(transition) s ev = Some h /\
     h m.(shared_state) fl = (sh', fl', res) /\
     ((exists cmds s1, res = TrOk cmds s1 /\ r = Ok cmds /\ s' = (mk_machine (Some s1) sh', fl')) \/
      ((forall cmds, r <> Ok cmds) /\ (forall cmds s1, res <> TrOk cmds s1) /\
       s' = (mk_machine None sh', fl')))).
Proof.
  intros H. destruct (state m) as [s|] eqn:Hs; [|rewrite on_event_poisoned in H by done; naive_solver].
  destruct (transition SM s ev) as [h|] eqn:Ht;
    [|erewrite on_event_undefined in H by done; naive_solver].
  right. erewrite on_event_defined in H by done.
  destruct (h (shared_state m) fl) as [[sh' fl'] res] eqn:Hh.
  exists s, h, sh', fl', res. do 3 (split; [done|]). destruct res; naive_solver.
Qed.

End on_event_facts.

(** ** Driving a machine

    A machine is driven by commands being recorded, by history events and by the
    operations it offers to the workflow machines ([cancel] and the like), in
    any order and whatever their results. *)
Inductive input (Op : Type) :=
| InCommand (ct : CommandType)
| InEvent (d : HistEventData)
| InOp (op : Op).
Arguments InCommand {Op} ct.
Arguments InEvent {Op} d.
Arguments InOp {Op} op.

(** The operations of a machine that offers none. *)
Definition no_op {SM} (op : Empty_set)
  : M (machine SM * InternalFlags) WFMachinesError (list MachineResponse) :=
  match op with end.

Section drive.
  Context {SM : StateMachine} {HT : TemporalStateMachine SM}.
  Context {Op E : Type}.
  Variable op_sem : Op -> M (machine SM * InternalFlags) E (list MachineResponse).

Definition drive_one (i : input Op) (s : machine SM * InternalFlags)
  : (machine SM * InternalFlags) * list MachineResponse :=
  match i with
  | InCommand ct => let '(s', r) := handle_command ct s in (s', outputs r)
  | InEvent d => let '(s', r) := handle_event d s in (s', outputs r)
  | InOp op => let '(s', r) := op_sem op s in (s', outputs r)
  end.

Fixpoint drive (l : list (input Op)) (s : machine SM * InternalFlags)
  : (machine SM * InternalFlags) * list MachineResponse :=
  match l with
  | [] => (s, [])
  | i :: l =>
      let '(s1, r1) := drive_one i s in
      let '(s2, r2) := drive l s1 in
      (s2, r1 ++ r2)
  end.

  (** Amortised analysis: an invariant [I], a [budget] of each state, a [cost] of
      each machine command and the [weight] of the responses counted.  Every
      transition on an event that commands or history can deliver ([ext]) pays
      for its commands out of the budget of its source. *)
  Variable ext : SM.(Event) -> Prop.
  Variable I : SM.(State) -> SM.(SharedState) -> Prop.
  Variable budget : SM.(State) -> SM.(SharedState) -> nat.
  Variable cost : SM.(SharedState) -> SM.(SmCommand) -> nat.
  Variable weight : MachineResponse -> nat.

Definition machine_I (m : machine SM) : Prop :=
  match m.(state) with Some s => I s m.(shared_state) | None => True end.

Definition machine_budget (m : machine SM) : nat :=
  match m.(state) with Some s => budget s m.(shared_state) | None => 0 end.

  Hypothesis transition_ok : forall s ev h sh fl sh' fl' cmds s',
    ext ev -> SM.(transition) s ev = Some h -> I s sh -> h sh fl = (sh', fl', TrOk cmds s') ->
    I s' sh' /\ sum_list_with (cost sh') cmds + budget s' sh' <= budget s sh.
  Hypothesis command_ext : forall ct ev, try_from_command_type ct = Some ev -> ext ev.
  Hypothesis event_ext : forall d ev, try_from_hist_event d = Ok ev -> ext ev.
  Hypothesis adapt_ok : forall s sh cmd info resps,
    adapt_response (from_parts s sh) cmd info = Ok resps ->
    sum_list_with weight resps <= cost sh cmd.
  Hypothesis op_ok : forall op m fl m' fl' r,
    machine_I m -> op_sem op (m, fl) = ((m', fl'), r) ->
    machine_I m' /\ sum_list_with weight (outputs r) + machine_budget m' <= machine_budget m.

Lemma on_event_budget ev m fl m' fl' r :
  ext ev -> machine_I m -> on_event ev (m, fl) = ((m', fl'), r) ->
  machine_I m' /\
  sum_list_with (cost m'.(shared_state)) (outputs r) + machine_budget m' <= machine_budget m.
Proof using transition_ok.
  intros Hext HI He.
  destruct (on_event_cases _ _ _ _ _ He) as [[-> [= -> ->]]|(s & h & sh' & fl1 & res & Hs & Ht & Hh & H)];
    [done|].
  unfold machine_I, machine_budget in *. rewrite Hs in *.
  destruct H as [(cmds & s1 & -> & -> & [= -> ->])|(Hr & _ & [= -> ->])].
  - by eapply transition_ok.
  - split; [done|]. clear op_ok. destruct r as [c| |]; simpl; [by destruct (Hr c)|lia|lia].
Qed.

Lemma process_machine_commands_weight s sh cmds info :
  sum_list_with weight (outputs (process_machine_commands (from_parts s sh) cmds info))
  <= sum_list_with (cost sh) cmds.
Proof using adapt_ok.
  induction cmds as [|c cmds IH]; simpl; [lia|].
  destruct (adapt_response _ c info) as [r1| |] eqn:Ha; simpl; [|lia|lia].
  apply adapt_ok in Ha.
  destruct (process_machine_commands _ cmds info) as [r2| |]; simpl in *; [|lia|lia].
  rewrite sum_list_with_app. lia.
Qed.

(** [on_event] followed by the adaptation of its commands. *)
Lemma on_event_process_budget ev m fl m' fl' r (bad : outcome WFMachinesError (list MachineResponse)) info :
  outputs bad = [] ->
  ext ev -> machine_I m -> on_event ev (m, fl) = ((m', fl'), r) ->
  machine_I m' /\
  sum_list_with weight
    (outputs (match r with Ok c => process_machine_commands m' c info | _ => bad end))
  + machine_budget m' <= machine_budget m.
Proof using transition_ok adapt_ok.
  intros Hbad Hext HI He. destruct (on_event_budget _ _ _ _ _ _ Hext HI He) as [HI' Hb]. split; [done|].
  destruct r as [c|e|msg]; simpl in *; rewrite ?Hbad; simpl; [|lia|lia].
  destruct (state m') as [s'|] eqn:Hs'.
  - destruct m' as [st sh]; simpl in *; subst st.
    pose proof (process_machine_commands_weight s' sh c info). unfold from_parts in *. lia.
  - destruct (on_event_cases _ _ _ _ _ He)
      as [[? ?]|(? & ? & ? & ? & ? & _ & _ & _ & [(? & ? & _ & _ & [= -> _])|(Hr & _)])];
      [done|done|by destruct (Hr c)].
Qed.

Lemma drive_one_budget i m fl m' fl' resps :
  machine_I m -> drive_one i (m, fl) = ((m', fl'), resps) ->
  machine_I m' /\ sum_list_with weight resps + machine_budget m' <= machine_budget m.
Proof.
  intros HI. destruct i as [ct|d|op]; simpl.
  - unfold handle_command. destruct (try_from_command_type ct) as [ev|] eqn:Hev;
      [apply command_ext in Hev|intros [= <- <- <-]; simpl; auto with lia].
    destruct (on_event ev (m, fl)) as [[m1 fl1] r] eqn:He.
    destruct (on_event_process_budget _ _ _ _ _ _ (Panic "") None eq_refl Hev HI He).
    destruct r as [c|[|e]|msg]; intros [= <- <- <-]; try done. by destruct (get_state m1).
  - unfold handle_event. destruct (try_from_hist_event d) as [ev| |] eqn:Hev;
      [apply event_ext in Hev|intros [= <- <- <-]; simpl; auto with lia..].
    destruct (on_event ev (m, fl)) as [[m1 fl1] r] eqn:He.
    match goal with |- context [Some ?i] =>
      destruct (on_event_process_budget _ _ _ _ _ _ (Panic "") (Some i) eq_refl Hev HI He) end.
    destruct r as [c|[|e]|msg]; intros [= <- <- <-]; try done. by destruct (get_state m1).
  - destruct (op_sem op (m, fl)) as [[m1 fl1] r] eqn:Ho. intros [= <- <- <-]. by eapply op_ok.
Qed.

Lemma drive_budget l m fl m' fl' resps :
  machine_I m -> drive l (m, fl) = ((m', fl'), resps) ->
  machine_I m' /\ sum_list_with weight resps + machine_budget m' <= machine_budget m.
Proof.
  revert m fl resps. induction l as [|i l IH]; intros m fl resps HI; cbn [drive].
  - intros [= <- <- <-]. simpl. auto with lia.
  - destruct (drive_one i (m, fl)) as [[m1 fl1] r1] eqn:H1.
    destruct (drive l (m1, fl1)) as [[m2 fl2] r2] eqn:H2. intros [= <- <- <-].
    destruct (drive_one_budget _ _ _ _ _ _ HI H1) as [HI1 Hb1].
    destruct (IH _ _ _ HI1 H2) as [HI2 Hb2]. rewrite sum_list_with_app. split; [done|lia].
Qed.

End drive.

(** ** Properties of the bridge *)
Section bridge.
  Context {SM : StateMachine} {HT : TemporalStateMachine SM}.

(** (safety): a machine in a final state is inert. Every event and every
    command its definition knows is rejected, with the machine and the flags
    unchanged: an event is a fatal error, a command a nondeterminism error. *)
Theorem final_machine_rejects (m : machine SM) (fl : InternalFlags) (s : SM.(State)) dat ev ct cev :
  m.(state) = Some s -> SM.(is_final) s = true ->
  try_from_hist_event dat = Ok ev -> try_from_command_type ct = Some cev ->
  (exists msg, handle_event dat (m, fl) = ((m, fl), Err (Fatal msg))) /\
  (exists msg, handle_command ct (m, fl) = ((m, fl), Err (Nondeterminism msg))).
Proof.
  intros Hs Hf Hev Hct. pose proof (proj1 (is_final_no_transition s) Hf).
  unfold handle_event, handle_command. rewrite Hev, Hct.
  rewrite !(on_event_undefined _ m fl s) by done. unfold get_state. rewrite Hs. eauto.
Qed.

(** (error): an error raised by a transition handler is fatal for the machine
    object. The state is gone; every further event or command that converts
    makes [handle_event] or [handle_command] panic. *)
Theorem handler_error_poisons (m : machine SM) (fl : InternalFlags) ev m' fl' e dat ev' ct cev :
  on_event ev (m, fl) = ((m', fl'), Err (Underlying e)) ->
  try_from_hist_event dat = Ok ev' -> try_from_command_type ct = Some cev ->
  m'.(state) = None /\
  (exists msg, handle_event dat (m', fl') = ((m', fl'), Panic msg)) /\
  (exists msg, handle_command ct (m', fl') = ((m', fl'), Panic msg)).
Proof.
  intros He Hev Hct. assert (m'.(state) = None) as Hn.
  { destruct (on_event_cases _ _ _ _ _ He) as [[? ?]|(? & ? & ? & ? & ? & _ & _ & _ & H)]; [done|].
    destruct H as [(? & ? & _ & ? & _)|(_ & _ & [= -> _])]; done. }
  unfold handle_event, handle_command. rewrite Hev, Hct, !on_event_poisoned by done.
  unfold get_state. rewrite Hn. eauto.
Qed.

(** Responses of [process_machine_commands], when no adaptation fails. *)
Lemma process_machine_commands_app m c1 c2 info :
  process_machine_commands (SM := SM) m (c1 ++ c2) info =
    (r1 ← process_machine_commands m c1 info;
     r2 ← process_machine_commands m c2 info; Ok (r1 ++ r2)).
Proof.
  induction c1 as [|c c1 IH]; simpl; [by destruct (process_machine_commands m c2 info)|].
  destruct (adapt_response m c info); simpl; try done. rewrite IH.
  destruct (process_machine_commands m c1 info); simpl; try done.
  destruct (process_machine_commands m c2 info); simpl; try done. by rewrite app_assoc.
Qed.

(** A machine whose handlers and adapters do not panic does not panic, as long as
    it is in a state. *)
Lemma on_event_no_panic ev m fl s msg :
  m.(state) = Some s ->
  (forall ev h sh' fl' res, SM.(transition) s ev = Some h ->
     h m.(shared_state) fl = (sh', fl', res) -> (forall msg, res <> TrPanic msg) /\
     res <> TrInvalidTransition) ->
  (on_event ev (m, fl)).2 <> Panic msg /\
  ((on_event ev (m, fl)).2 = Err InvalidTransition -> (on_event ev (m, fl)).1.1.(state) = Some s).
Proof.
  intros Hs Hh. destruct (transition SM s ev) as [h|] eqn:Ht;
    [|by rewrite (on_event_undefined _ _ _ s)].
  rewrite (on_event_defined _ _ _ s h) by done.
  destruct (h _ _) as [[sh' fl'] res] eqn:He. specialize (Hh _ _ _ _ _ Ht He).
  destruct res; naive_solver.
Qed.

Lemma process_machine_commands_no_panic m cmds info msg :
  (forall c i msg, adapt_response m c i <> Panic msg) ->
  process_machine_commands (SM := SM) m cmds info <> Panic msg.
Proof.
  intros Ha. induction cmds as [|c cmds IH]; simpl; [done|].
  destruct (adapt_response m c info) eqn:Hc; simpl; [|done|by destruct (Ha c info msg0)].
  by destruct (process_machine_commands m cmds info).
Qed.

Lemma handle_command_no_panic ct m fl s msg :
  m.(state) = Some s ->
  (forall ev h sh' fl' res, SM.(transition) s ev = Some h ->
     h m.(shared_state) fl = (sh', fl', res) -> (forall msg, res <> TrPanic msg) /\
     res <> TrInvalidTransition) ->
  (forall m c i msg, adapt_response (SM := SM) m c i <> Panic msg) ->
  (handle_command ct (m, fl)).2 <> Panic msg.
Proof.
  intros Hs Hh Ha. unfold handle_command. destruct (try_from_command_type ct) as [ev|]; [|done].
  destruct (on_event_no_panic ev m fl s msg Hs Hh) as [H1 H2].
  destruct (on_event ev (m, fl)) as [[m' fl'] [c|[|e]|]]; simpl in *; [| |congruence..].
  - by apply process_machine_commands_no_panic.
  - unfold get_state. by rewrite H2.
Qed.

Lemma handle_event_no_panic d m fl s msg :
  (forall d msg, try_from_hist_event (SM := SM) d <> Panic msg) ->
  m.(state) = Some s ->
  (forall ev h sh' fl' res, SM.(transition) s ev = Some h ->
     h m.(shared_state) fl = (sh', fl', res) -> (forall msg, res <> TrPanic msg) /\
     res <> TrInvalidTransition) ->
  (forall m c i msg, adapt_response (SM := SM) m c i <> Panic msg) ->
  (handle_event d (m, fl)).2 <> Panic msg.
Proof.
  intros Hc Hs Hh Ha. unfold handle_event.
  destruct (try_from_hist_event d) as [ev| |] eqn:Hd; [|done|by apply Hc in Hd].
  destruct (on_event_no_panic ev m fl s msg Hs Hh) as [H1 H2].
  destruct (on_event ev (m, fl)) as [[m' fl'] [c|[|e]|]]; simpl in *; [| |congruence..].
  - by apply process_machine_commands_no_panic.
  - unfold get_state. by rewrite H2.
Qed.

End bridge.
