(* ===== verification/TimerMachine.v ===== *)
(** * Timers (machines/timer_state_machine.rs) *)
From Stdlib Require Import ZArith Lia.
From stdpp Require Import base option list strings gmap.
From S2P Require Import Prelude Flags Protos ProtoExt CoreProtos Fsm.

Module Timer.

Inductive TimerMachineState :=
| Created
| StartCommandCreated
| StartCommandRecorded
| CancelTimerCommandCreated
| CancelTimerCommandSent
| Canceled
| Fired.

#[global] Instance TimerMachineState_eq_dec : EqDecision TimerMachineState.
Proof. solve_decision. Defined.

Inductive TimerMachineEvents :=
| Schedule
| CommandStartTimer
| TimerStarted (id : Z)
| Cancel
| TimerFired (attrs : TimerFiredEventAttributes)
| CommandCancelTimer
| TimerCanceled.

Inductive TimerMachineCommand :=
| Complete
| IssueCancelCmd (a : Attributes).

Record SharedState := {
  attrs : StartTimer;
  cancelled_before_sent : bool;
}.

Definition state_display (s : TimerMachineState) : string :=
  match s with
  | Created => "Created"
  | StartCommandCreated => "StartCommandCreated"
  | StartCommandRecorded => "StartCommandRecorded"
  | CancelTimerCommandCreated => "CancelTimerCommandCreated"
  | CancelTimerCommandSent => "CancelTimerCommandSent"
  | Canceled => "Canceled"
  | Fired => "Fired"
  end.

Definition set_cancelled_before_sent (dat : SharedState) : SharedState :=
  {| attrs := dat.(attrs); cancelled_before_sent := true |}.

(** [StartCommandRecorded::on_timer_fired]. *)
Definition on_timer_fired (a : TimerFiredEventAttributes) (dat : SharedState)
  : TransitionResult TimerMachineCommand TimerMachineState :=
  if String.eqb (to_string dat.(attrs).(StartTimer_seq)) a.(TimerFiredEv_timer_id)
  then TrOk [Complete] Fired
  else TrErr (Nondeterminism
    ("Timer fired event did not have expected timer id "
     +:+ to_string dat.(attrs).(StartTimer_seq) +:+ ", it was "
     +:+ a.(TimerFiredEv_timer_id) +:+ "!")).

(** [StartCommandRecorded::on_cancel]. *)
Definition recorded_on_cancel (dat : SharedState)
  : TransitionResult TimerMachineCommand TimerMachineState :=
  TrOk [IssueCancelCmd (cancel_timer_into
          {| CancelTimer_seq := dat.(attrs).(StartTimer_seq) |})]
       CancelTimerCommandCreated.

Definition transition (s : TimerMachineState) (e : TimerMachineEvents)
  : option (Handler SharedState TimerMachineState TimerMachineCommand) :=
  match s, e with
  | Created, Schedule => Some (pure_handler (TrTo StartCommandCreated))
  | StartCommandCreated, CommandStartTimer => Some (pure_handler (TrTo StartCommandCreated))
  | StartCommandCreated, TimerStarted _ => Some (pure_handler (TrTo StartCommandRecorded))
  | StartCommandCreated, Cancel => Some (updating set_cancelled_before_sent (TrTo Canceled))
  | StartCommandRecorded, TimerFired a => Some (reading (on_timer_fired a))
  | StartCommandRecorded, Cancel => Some (reading recorded_on_cancel)
  | CancelTimerCommandCreated, Cancel => Some (pure_handler (TrTo CancelTimerCommandCreated))
  | CancelTimerCommandCreated, CommandCancelTimer =>
      Some (pure_handler (TrOk [] CancelTimerCommandSent))
  | CancelTimerCommandSent, TimerCanceled => Some (pure_handler (TrTo Canceled))
  | Canceled, Cancel => Some (pure_handler (TrTo Canceled))
  | Fired, Cancel => Some (pure_handler (TrTo Fired))
  | _, _ => None
  end.

(** Every state has an outgoing transition. *)
Definition is_final (s : TimerMachineState) : bool := false.

Definition TimerMachine : StateMachine :=
  {| State := TimerMachineState; Fsm.SharedState := SharedState;
     Event := TimerMachineEvents; SmCommand := TimerMachineCommand;
     sm_name := "TimerMachine"; Fsm.state_display := state_display;
     Fsm.transition := transition; Fsm.is_final := is_final |}.

(** [TryFrom<HistEventData> for TimerMachineEvents]. *)
Definition event_from_history (d : HistEventData) : outcome WFMachinesError TimerMachineEvents :=
  let e := d.(event) in
  match event_type e with
  | ET_TimerStarted => Ok (TimerStarted e.(HistoryEvent_event_id))
  | ET_TimerCanceled => Ok TimerCanceled
  | ET_TimerFired =>
      match e.(HistoryEvent_attributes) with
      | Some (HA_TimerFired attrs) => Ok (TimerFired attrs)
      | _ => Err (Fatal ("Timer fired attribs were unset: " +:+ HistoryEvent_display e))
      end
  | _ => Err (Nondeterminism
      ("Timer machine does not handle this event: " +:+ HistoryEvent_display e))
  end.

Definition event_from_command (c : CommandType) : option TimerMachineEvents :=
  match c with
  | CT_StartTimer => Some CommandStartTimer
  | CT_CancelTimer => Some CommandCancelTimer
  | _ => None
  end.

Definition adapt_response (m : machine TimerMachine) (c : TimerMachineCommand)
    (_ : option EventInfo) : outcome WFMachinesError (list MachineResponse) :=
  match c with
  | Complete =>
      Ok [PushWFJob (J_FireTimer
            {| FireTimer_seq := m.(shared_state).(attrs).(StartTimer_seq) |})]
  | IssueCancelCmd c => cmd ← Command_from c; Ok [IssueNewCommand cmd]
  end.

#[global] Instance TimerMachine_temporal : TemporalStateMachine TimerMachine.
Proof.
  refine {| try_from_hist_event := event_from_history : _ -> outcome _ (Event TimerMachine);
            try_from_command_type := event_from_command : _ -> option (Event TimerMachine);
            Fsm.adapt_response := adapt_response |}.
  intros s. split; [done|]. intros H.
  destruct s; first [discriminate (H Schedule) | discriminate (H CommandStartTimer)
    | discriminate (H Cancel) | discriminate (H TimerCanceled)].
Defined.

(** [TimerMachine::new] and [new_scheduled]. *)
Definition new (attribs : StartTimer) : machine TimerMachine :=
  from_parts (SM := TimerMachine) Created
    {| attrs := attribs; cancelled_before_sent := false |}.

Definition new_scheduled (attribs : StartTimer) (fl : InternalFlags)
  : (machine TimerMachine * InternalFlags) * outcome WFMachinesError Attributes :=
  match on_event (SM := TimerMachine) Schedule (new attribs, fl) with
  | ((m, fl), Ok _) => ((m, fl), Ok (start_timer_into m.(shared_state).(attrs)))
  | (s, _) => (s, Panic "Scheduling timers doesn't fail")
  end.

Definition cancel : M (machine TimerMachine * InternalFlags) (MachineError WFMachinesError)
                      (list MachineResponse) :=
  cmds ← on_event (SM := TimerMachine) Cancel;
  match last cmds with
  | Some (IssueCancelCmd cmd) => cmd ← lift (Command_from cmd); mret [IssueNewCommand cmd]
  | None => mret []
  | Some Complete => panic "Invalid cancel event response Complete"
  end.

Definition was_cancelled_before_sent_to_server (m : machine TimerMachine) : bool :=
  m.(shared_state).(cancelled_before_sent).

(** ** Properties *)

(** (functional): when the timer-started event has been recorded, the timer
    fired event whose id is the decimal numeral of [k] fires the timer exactly
    when [k] is the timer's sequence number: one [FireTimer] job for it.  Any
    other id is a nondeterminism error. *)
Theorem timer_fires_iff_own_id (sh : SharedState) (fl : InternalFlags) (d : HistEventData)
    (a : TimerFiredEventAttributes) (k : Z) :
  event_type d.(event) = ET_TimerFired ->
  d.(event).(HistoryEvent_attributes) = Some (HA_TimerFired a) ->
  a.(TimerFiredEv_timer_id) = to_string k ->
  let start := (from_parts (SM := TimerMachine) StartCommandRecorded sh, fl) in
  (k = sh.(attrs).(StartTimer_seq) ->
     handle_event d start =
       ((from_parts (SM := TimerMachine) Fired sh, fl),
        Ok [PushWFJob (J_FireTimer {| FireTimer_seq := k |})])) /\
  (k <> sh.(attrs).(StartTimer_seq) ->
     exists msg, handle_event d start =
       ((mk_machine (SM := TimerMachine) None sh, fl), Err (Nondeterminism msg))).
Proof.
  intros Ht Ha Hk start. unfold handle_event, start. cbn -[String.eqb].
  unfold event_from_history. rewrite Ht, Ha. cbn -[String.eqb].
  unfold reading, on_timer_fired. rewrite Hk. split.
  - intros ->. rewrite String.eqb_refl. reflexivity.
  - intros Hne. destruct (String.eqb_spec (to_string (StartTimer_seq (attrs sh))) (to_string k))
      as [He|_]; [|cbn; eauto].
    apply to_string_inj in He. congruence.
Qed.

(** Completions and cancel commands left to emit. *)
Definition budget (s : TimerMachineState) : nat :=
  match s with
  | Created | StartCommandCreated | StartCommandRecorded => 1
  | _ => 0
  end.

(** The transition a handler performed, by cases on state and event. *)
Ltac transition_cases :=
  match goal with
  | Ht : transition ?s ?e = Some ?h, Hh : ?h _ _ = (_, _, TrOk _ _) |- _ =>
      destruct s, e; simplify_eq/=;
      unfold pure_handler, updating, reading, recorded_on_cancel, on_timer_fired in *;
      repeat case_match_in Hh; simplify_eq/=
  end.

(** A timer cancelled before its command was sent is in [Canceled]. *)
Definition cancelled_inv (s : TimerMachineState) (sh : SharedState) : Prop :=
  sh.(cancelled_before_sent) = true -> s = Canceled.

Lemma timer_transition_ok s ev h sh fl sh' fl' cmds s' :
  True -> transition s ev = Some h -> cancelled_inv s sh -> h sh fl = (sh', fl', TrOk cmds s') ->
  cancelled_inv s' sh' /\ sum_list_with (fun _ => 1) cmds + budget s' <= budget s.
Proof.
  unfold cancelled_inv. intros _ Ht Hi Hh. transition_cases; (split; [naive_solver|simpl; lia]).
Qed.

Lemma timer_adapt_ok s sh cmd info resps :
  Fsm.adapt_response (SM := TimerMachine) (from_parts s sh) cmd info = Ok resps ->
  sum_list_with (fun _ => 1) resps <= 1.
Proof. destruct cmd as [|c]; simpl; [|destruct c]; intros [= <-]; simpl; lia. Qed.

(** The operation a timer offers beside commands and events. *)
Inductive TimerOp := OpCancel.

Definition op_sem (op : TimerOp) := match op with OpCancel => cancel end.

Lemma cancel_cases (m : machine TimerMachine) (fl : InternalFlags) :
  cancel (m, fl) = ((m, fl), Err InvalidTransition) \/
  exists s s' sh',
    m.(state) = Some s /\
    (cancel (m, fl)).1 = (from_parts (SM := TimerMachine) s' sh', fl) /\
    (cancelled_inv s m.(shared_state) -> cancelled_inv s' sh') /\
    (((cancel (m, fl)).2 = Ok [] /\ budget s' <= budget s) \/
     ((cancel (m, fl)).2 = Ok [IssueNewCommand (mk_command CT_CancelTimer
        (CA_CancelTimer {| CancelTimerCmd_timer_id :=
            to_string m.(shared_state).(attrs).(StartTimer_seq) |}))] /\
      budget s' < budget s)).
Proof.
  unfold cancelled_inv. destruct m as [[s|] sh]; [|by left].
  destruct s; first [by left | right; do 3 eexists; simpl; split_and!; eauto; naive_solver lia].
Qed.

Lemma timer_op_ok op m fl m' fl' r :
  machine_I (SM := TimerMachine) cancelled_inv m -> op_sem op (m, fl) = ((m', fl'), r) ->
  machine_I (SM := TimerMachine) cancelled_inv m' /\
  sum_list_with (fun _ => 1) (outputs r)
  + machine_budget (SM := TimerMachine) (fun s _ => budget s) m'
  <= machine_budget (SM := TimerMachine) (fun s _ => budget s) m.
Proof.
  intros HI. destruct op; simpl.
  destruct (cancel_cases m fl) as [->|(s & s' & sh' & Hs & H1 & H2 & H3)];
    [intros [= <- <- <-]; simpl; auto with lia|].
  intros Hc. rewrite Hc in *. simpl in *. simplify_eq/=.
  unfold machine_I, machine_budget in *. rewrite Hs in *. simpl. split; [auto|].
  destruct H3 as [[-> ?]|[-> ?]]; simpl; lia.
Qed.

Lemma drive_timer l m fl m' fl' resps :
  machine_I (SM := TimerMachine) cancelled_inv m ->
  drive (SM := TimerMachine) op_sem l (m, fl) = ((m', fl'), resps) ->
  machine_I (SM := TimerMachine) cancelled_inv m' /\
  length resps + machine_budget (SM := TimerMachine) (fun s _ => budget s) m'
  <= machine_budget (SM := TimerMachine) (fun s _ => budget s) m.
Proof.
  intros HI Hd. rewrite <- sum_list_with_one.
  by apply (drive_budget (SM := TimerMachine) op_sem (fun _ => True) cancelled_inv
    (fun s _ => budget s) (fun _ _ => 1) (fun _ => 1) timer_transition_ok
    (fun _ _ _ => Logic.I) (fun _ _ _ => Logic.I) timer_adapt_ok timer_op_ok l m fl m' fl').
Qed.

(** (safety): however a timer is driven, by recorded commands, history events
    and cancellations in any order, it produces at most one response: it fires
    at most once, asks the server to cancel it at most once, and never both. *)
Theorem timer_resolves_at_most_once (attribs : StartTimer) (fl : InternalFlags)
    (l : list (input TimerOp)) :
  length (drive (SM := TimerMachine) op_sem l (new_scheduled attribs fl).1).2 <= 1.
Proof.
  destruct (drive _ l _) as [[m' fl'] resps] eqn:Hd.
  apply drive_timer in Hd as [_ Hd]; [|by intros [=]].
  unfold machine_budget at 2 in Hd. simpl in *. lia.
Qed.

(** (invariant): however a timer has been driven, if it reports that it was
    cancelled before its command was sent to the server, it produces nothing
    whatever happens later. *)
Theorem timer_cancelled_before_sent_is_silent (attribs : StartTimer) (fl : InternalFlags)
    (l later : list (input TimerOp)) m fl' resps :
  drive (SM := TimerMachine) op_sem l (new_scheduled attribs fl).1 = ((m, fl'), resps) ->
  was_cancelled_before_sent_to_server m = true ->
  (drive (SM := TimerMachine) op_sem later (m, fl')).2 = [].
Proof.
  intros Hd Hc. apply drive_timer in Hd as [HI _]; [|by intros [=]].
  assert (machine_budget (SM := TimerMachine) (fun s _ => budget s) m = 0) as Hb.
  { unfold machine_I, machine_budget in *. destruct (state m); [|done]. by rewrite (HI Hc). }
  destruct (drive _ later _) as [[m2 fl2] resps2] eqn:Hd2.
  apply drive_timer in Hd2 as [_ Hl]; [|done]. apply nil_length_inv. simpl in *. lia.
Qed.

(** (safety): [cancel] never panics. Either the machine has no [Cancel]
    transition in its state, and it is left unchanged, or the cancellation is
    accepted with at most one response, the server command cancelling this
    timer's id. *)
Theorem timer_cancel_total (m : machine TimerMachine) (fl : InternalFlags) :
  cancel (m, fl) = ((m, fl), Err InvalidTransition) \/
  exists s' sh', (cancel (m, fl)).1 = (from_parts (SM := TimerMachine) s' sh', fl) /\
    ((cancel (m, fl)).2 = Ok [] \/
     (cancel (m, fl)).2 = Ok [IssueNewCommand (mk_command CT_CancelTimer
        (CA_CancelTimer {| CancelTimerCmd_timer_id :=
            to_string m.(shared_state).(attrs).(StartTimer_seq) |}))]).
Proof.
  destruct (cancel_cases m fl) as [?|(s & s' & sh' & _ & H1 & _ & H3)]; [by left|right].
  exists s', sh'. split; [done|]. destruct H3 as [[? _]|[? _]]; auto.
Qed.

(** ** The properties at concrete timers *)

Definition example_start : StartTimer :=
  {| StartTimer_seq := 4; StartTimer_start_to_fire_timeout := None |}.

Definition example_fired (id : string) : TimerFiredEventAttributes :=
  {| TimerFiredEv_timer_id := id; TimerFiredEv_started_event_id := 6 |}.

Definition example_shared : SharedState :=
  {| attrs := example_start; cancelled_before_sent := false |}.

Lemma timer_fires_iff_own_id_witness :
  handle_event (example_hist_event ET_TimerFired (Some (HA_TimerFired (example_fired "4"))))
    (from_parts (SM := TimerMachine) StartCommandRecorded example_shared, example_flags) =
  ((from_parts (SM := TimerMachine) Fired example_shared, example_flags),
   Ok [PushWFJob (J_FireTimer {| FireTimer_seq := 4 |})]).
Proof.
  exact (proj1 (timer_fires_iff_own_id example_shared example_flags
    (example_hist_event ET_TimerFired (Some (HA_TimerFired (example_fired "4"))))
    (example_fired "4") 4 eq_refl eq_refl eq_refl) eq_refl).
Defined.

Lemma timer_cancelled_before_sent_is_silent_witness :
  (drive (SM := TimerMachine) op_sem
     [InCommand CT_StartTimer; InEvent (example_hist_event ET_TimerStarted None)]
     (drive (SM := TimerMachine) op_sem [InOp OpCancel]
        (new_scheduled example_start example_flags).1).1).2
  = [].
Proof.
  exact (timer_cancelled_before_sent_is_silent example_start example_flags [InOp OpCancel]
    [InCommand CT_StartTimer; InEvent (example_hist_event ET_TimerStarted None)]
    (from_parts (SM := TimerMachine) Canceled
       {| attrs := example_start; cancelled_before_sent := true |})
    example_flags [] eq_refl eq_refl).
Defined.

Lemma handler_error_poisons_witness :
  exists msg, handle_command CT_CancelTimer
    (mk_machine (SM := TimerMachine) None example_shared, example_flags) =
    ((mk_machine (SM := TimerMachine) None example_shared, example_flags), Panic msg).
Proof.
  exact (proj2 (proj2 (handler_error_poisons (SM := TimerMachine)
    (from_parts (SM := TimerMachine) StartCommandRecorded example_shared) example_flags
    (TimerFired (example_fired "5")) _ _ _
    (example_hist_event ET_TimerStarted None) (TimerStarted 7) CT_CancelTimer CommandCancelTimer
    eq_refl eq_refl eq_refl))).
Defined.

End Timer.
