(* ===== verification/ActivityMachine.v ===== *)
(** * Activities (machines/activity_state_machine.rs) *)
From Stdlib Require Import ZArith Lia.
From stdpp Require Import base option list strings gmap.
From S2P Require Import Prelude Flags Protos ProtoExt CoreProtos Fsm.

Module Activity.

Inductive ActivityMachineState :=
| Created
| ScheduleCommandCreated
| ScheduledEventRecorded
| Started
| ScheduledActivityCancelCommandCreated
| ScheduledActivityCancelEventRecorded
| StartedActivityCancelCommandCreated
| StartedActivityCancelEventRecorded
| Completed
| Failed
| TimedOut
| Canceled.

#[global] Instance ActivityMachineState_eq_dec : EqDecision ActivityMachineState.
Proof. solve_decision. Defined.

Record ActTaskScheduledData := {
  sd_event_id : Z;
  sd_act_type : string;
  sd_act_id : string;
  sd_last_task_in_history : bool;
}.

Inductive ActivityMachineEvents :=
| Schedule
| CommandScheduleActivityTask
| ActivityTaskScheduled (d : ActTaskScheduledData)
| Cancel
| Abandon
| ActivityTaskStarted (event_id : Z)
| ActivityTaskTimedOut (a : ActivityTaskTimedOutEventAttributes)
| ActivityTaskCompleted (a : ActivityTaskCompletedEventAttributes)
| ActivityTaskFailed (a : ActivityTaskFailedEventAttributes)
| CommandRequestCancelActivityTask
| ActivityTaskCancelRequested
| ActivityTaskCanceled (a : ActivityTaskCanceledEventAttributes).

Inductive ActivityMachineCommand :=
| CmdComplete (result : option Payloads)
| CmdFail (f : Failure)
| CmdCancel (a : option ActivityTaskCanceledEventAttributes)
| CmdRequestCancellation (c : Command).

(** The flags the Rust struct points to are threaded by the machine model. *)
Record SharedState := {
  scheduled_event_id : Z;
  started_event_id : Z;
  attrs : ScheduleActivity;
  cancellation_type : ActivityCancellationType;
  cancelled_before_sent : bool;
}.

Definition state_display (s : ActivityMachineState) : string :=
  match s with
  | Created => "Created"
  | ScheduleCommandCreated => "ScheduleCommandCreated"
  | ScheduledEventRecorded => "ScheduledEventRecorded"
  | Started => "Started"
  | ScheduledActivityCancelCommandCreated => "ScheduledActivityCancelCommandCreated"
  | ScheduledActivityCancelEventRecorded => "ScheduledActivityCancelEventRecorded"
  | StartedActivityCancelCommandCreated => "StartedActivityCancelCommandCreated"
  | StartedActivityCancelEventRecorded => "StartedActivityCancelEventRecorded"
  | Completed => "Completed"
  | Failed => "Failed"
  | TimedOut => "TimedOut"
  | Canceled => "Canceled"
  end.

(** ** Failures reported to lang *)

Definition activity_fail_info (act_type act_id : string) (identity : option string)
    (retry_state : RetryState) (started_event_id scheduled_event_id : Z) : FailureInfo :=
  FI_Activity {| ActivityFailureInfo_scheduled_event_id := scheduled_event_id;
                 ActivityFailureInfo_started_event_id := started_event_id;
                 ActivityFailureInfo_identity := default "" identity;
                 ActivityFailureInfo_activity_type := Some {| ActivityType_name := act_type |};
                 ActivityFailureInfo_activity_id := act_id;
                 ActivityFailureInfo_retry_state := RetryState_as_i32 retry_state |}.

(** prost getter of a [retry_state] field. *)
Definition retry_state_of (z : Z) : RetryState :=
  default RetryState_Unspecified (RetryState_try_from z).

Definition new_failure (dat : SharedState) (a : ActivityTaskFailedEventAttributes) : Failure :=
  mkFailure "Activity task failed" "" "" None a.(ActivityTaskFailedEv_failure)
    (Some (activity_fail_info dat.(attrs).(ScheduleActivity_activity_type)
       dat.(attrs).(ScheduleActivity_activity_id) (Some a.(ActivityTaskFailedEv_identity))
       (retry_state_of a.(ActivityTaskFailedEv_retry_state))
       a.(ActivityTaskFailedEv_started_event_id) a.(ActivityTaskFailedEv_scheduled_event_id))).

Definition new_timeout_failure (dat : SharedState) (a : ActivityTaskTimedOutEventAttributes)
  : Failure :=
  mkFailure "Activity task timed out" "" "" None a.(ActivityTaskTimedOutEv_failure)
    (Some (activity_fail_info dat.(attrs).(ScheduleActivity_activity_type)
       dat.(attrs).(ScheduleActivity_activity_id) None
       (retry_state_of a.(ActivityTaskTimedOutEv_retry_state))
       a.(ActivityTaskTimedOutEv_started_event_id)
       a.(ActivityTaskTimedOutEv_scheduled_event_id))).

(** [ActivityTaskCanceledEventAttributes::default()]. *)
Definition canceled_default : ActivityTaskCanceledEventAttributes :=
  {| ActivityTaskCanceledEv_details := None;
     ActivityTaskCanceledEv_latest_cancel_requested_event_id := 0;
     ActivityTaskCanceledEv_scheduled_event_id := 0;
     ActivityTaskCanceledEv_started_event_id := 0;
     ActivityTaskCanceledEv_identity := "" |}.

Definition new_cancel_failure (dat : SharedState) (a : ActivityTaskCanceledEventAttributes)
  : Failure :=
  mkFailure "Activity cancelled" "" "" None
    (Some (mkFailure "" "" "" None None
       (Some (FI_Canceled {| CanceledFailureInfo_details := a.(ActivityTaskCanceledEv_details) |}))))
    (Some (activity_fail_info dat.(attrs).(ScheduleActivity_activity_type)
       dat.(attrs).(ScheduleActivity_activity_id) (Some a.(ActivityTaskCanceledEv_identity))
       RetryState_CancelRequested
       a.(ActivityTaskCanceledEv_started_event_id) a.(ActivityTaskCanceledEv_scheduled_event_id))).

(** ** Transition handlers *)

Abbreviation Tr := (TransitionResult ActivityMachineCommand ActivityMachineState).

Definition set_scheduled (dat : SharedState) (id : Z) : SharedState :=
  {| scheduled_event_id := id; started_event_id := dat.(started_event_id);
     attrs := dat.(attrs); cancellation_type := dat.(cancellation_type);
     cancelled_before_sent := dat.(cancelled_before_sent) |}.

Definition set_started (id : Z) (dat : SharedState) : SharedState :=
  {| scheduled_event_id := dat.(scheduled_event_id); started_event_id := id;
     attrs := dat.(attrs); cancellation_type := dat.(cancellation_type);
     cancelled_before_sent := dat.(cancelled_before_sent) |}.

Definition set_cancelled_before_sent (dat : SharedState) : SharedState :=
  {| scheduled_event_id := dat.(scheduled_event_id);
     started_event_id := dat.(started_event_id);
     attrs := dat.(attrs); cancellation_type := dat.(cancellation_type);
     cancelled_before_sent := true |}.

Definition notify_lang_activity_timed_out (dat : SharedState)
    (a : ActivityTaskTimedOutEventAttributes) : Tr :=
  TrOk [CmdFail (new_timeout_failure dat a)] TimedOut.

Definition notify_lang_activity_cancelled (a : option ActivityTaskCanceledEventAttributes) : Tr :=
  TrOk [CmdCancel a] Canceled.

Definition create_request_cancel_activity_task_command (next_state : ActivityMachineState)
    (dat : SharedState) : Tr :=
  TrOk [CmdRequestCancellation
          {| Command_command_type := CommandType_as_i32 CT_RequestCancelActivityTask;
             Command_user_metadata := None;
             Command_attributes := Some (CA_RequestCancelActivityTask
               {| RequestCancelActivityTaskCmd_scheduled_event_id :=
                    dat.(scheduled_event_id) |}) |}]
       next_state.

(** [notify_if_not_already_cancelled]: [target] is the default destination. *)
Definition notify_if_not_already_cancelled (target : ActivityMachineState)
    (notifier : SharedState -> Tr) (dat : SharedState) : Tr :=
  match dat.(cancellation_type) with
  | ACT_TryCancel => TrTo target
  | ACT_WaitCancellationCompleted => notifier dat
  | ACT_Abandon =>
      TrPanic "Cancellations with type Abandon should go into terminal state immediately."
  end.

Definition on_activity_task_scheduled (sched_dat : ActTaskScheduledData)
  : Handler SharedState ActivityMachineState ActivityMachineCommand :=
  fun dat fl =>
    let '(fl, checks) :=
      try_use IdAndTypeDeterminismChecks sched_dat.(sd_last_task_in_history) fl in
    if checks && negb (String.eqb sched_dat.(sd_act_id) dat.(attrs).(ScheduleActivity_activity_id))
    then (dat, fl, TrErr (Nondeterminism
      ("Activity id of scheduled event '" +:+ sched_dat.(sd_act_id)
       +:+ "' does not match activity id of activity command '"
       +:+ dat.(attrs).(ScheduleActivity_activity_id) +:+ "'")))
    else if checks
         && negb (String.eqb sched_dat.(sd_act_type) dat.(attrs).(ScheduleActivity_activity_type))
    then (dat, fl, TrErr (Nondeterminism
      ("Activity type of scheduled event '" +:+ sched_dat.(sd_act_type)
       +:+ "' does not match activity type of activity command '"
       +:+ dat.(attrs).(ScheduleActivity_activity_type) +:+ "'")))
    else (set_scheduled dat sched_dat.(sd_event_id), fl, TrTo ScheduledEventRecorded).

(** [ScheduleCommandCreated::on_canceled]; [dbg_panic!] only logs in release
    builds. *)
Definition created_on_canceled : Handler SharedState ActivityMachineState ActivityMachineCommand :=
  fun dat fl =>
    (set_cancelled_before_sent dat, fl,
     match dat.(cancellation_type) with
     | ACT_Abandon => TrTo Canceled
     | _ => notify_lang_activity_cancelled None
     end).

(** [Canceled::on_activity_task_started]. *)
Definition canceled_on_started (seq_num : Z) (dat : SharedState) : Tr :=
  if decide (dat.(cancellation_type) = ACT_Abandon) then TrTo Canceled
  else TrErr (Nondeterminism
    ("Non-Abandon cancel mode activities cannot be started after being cancelled. Seq: "
     +:+ to_string seq_num)).

(** [Canceled::on_activity_task_completed]; the [Debug] dump of the event is not
    part of the message. *)
Definition canceled_on_completed (dat : SharedState) : Tr :=
  if decide (dat.(cancellation_type) = ACT_Abandon) then TrTo Canceled
  else TrErr (Nondeterminism
    "Non-Abandon cancel mode activities cannot be completed after being cancelled: ").

Definition transition (s : ActivityMachineState) (e : ActivityMachineEvents)
  : option (Handler SharedState ActivityMachineState ActivityMachineCommand) :=
  match s, e with
  | Created, Schedule => Some (pure_handler (TrTo ScheduleCommandCreated))
  | ScheduleCommandCreated, CommandScheduleActivityTask =>
      Some (pure_handler (TrTo ScheduleCommandCreated))
  | ScheduleCommandCreated, ActivityTaskScheduled d => Some (on_activity_task_scheduled d)
  | ScheduleCommandCreated, Cancel => Some created_on_canceled
  | ScheduleCommandCreated, Abandon =>
      Some (updating set_cancelled_before_sent (notify_lang_activity_cancelled None))
  | ScheduledEventRecorded, ActivityTaskStarted id => Some (updating (set_started id) (TrTo Started))
  | ScheduledEventRecorded, ActivityTaskTimedOut a =>
      Some (reading (fun dat => notify_lang_activity_timed_out dat a))
  | ScheduledEventRecorded, Cancel =>
      Some (reading (create_request_cancel_activity_task_command
                       ScheduledActivityCancelCommandCreated))
  | ScheduledEventRecorded, Abandon => Some (pure_handler (notify_lang_activity_cancelled None))
  | Started, ActivityTaskCompleted a =>
      Some (pure_handler (TrOk [CmdComplete a.(ActivityTaskCompletedEv_result)] Completed))
  | Started, ActivityTaskFailed a =>
      Some (reading (fun dat => TrOk [CmdFail (new_failure dat a)] Failed))
  | Started, ActivityTaskTimedOut a =>
      Some (reading (fun dat => notify_lang_activity_timed_out dat a))
  | Started, Cancel =>
      Some (reading (create_request_cancel_activity_task_command
                       StartedActivityCancelCommandCreated))
  | Started, Abandon => Some (pure_handler (notify_lang_activity_cancelled None))
  | ScheduledActivityCancelCommandCreated, CommandRequestCancelActivityTask =>
      Some (pure_handler (TrTo ScheduledActivityCancelCommandCreated))
  | ScheduledActivityCancelCommandCreated, ActivityTaskCancelRequested =>
      Some (pure_handler (TrTo ScheduledActivityCancelEventRecorded))
  | ScheduledActivityCancelEventRecorded, ActivityTaskCanceled a =>
      Some (reading (notify_if_not_already_cancelled Canceled
                       (fun _ => notify_lang_activity_cancelled (Some a))))
  | ScheduledActivityCancelEventRecorded, ActivityTaskStarted _ =>
      Some (pure_handler (TrTo StartedActivityCancelEventRecorded))
  | ScheduledActivityCancelEventRecorded, ActivityTaskTimedOut a =>
      Some (reading (notify_if_not_already_cancelled TimedOut
                       (fun dat => notify_lang_activity_timed_out dat a)))
  | StartedActivityCancelCommandCreated, CommandRequestCancelActivityTask =>
      Some (pure_handler (TrTo StartedActivityCancelCommandCreated))
  | StartedActivityCancelCommandCreated, ActivityTaskCancelRequested =>
      Some (pure_handler (TrTo StartedActivityCancelEventRecorded))
  | StartedActivityCancelEventRecorded, ActivityTaskFailed a =>
      Some (reading (notify_if_not_already_cancelled Failed
                       (fun dat => TrOk [CmdFail (new_failure dat a)] Failed)))
  | StartedActivityCancelEventRecorded, ActivityTaskCompleted a =>
      Some (reading (notify_if_not_already_cancelled Completed
                       (fun _ => TrOk [CmdComplete a.(ActivityTaskCompletedEv_result)] Completed)))
  | StartedActivityCancelEventRecorded, ActivityTaskTimedOut a =>
      Some (reading (notify_if_not_already_cancelled TimedOut
                       (fun dat => notify_lang_activity_timed_out dat a)))
  | StartedActivityCancelEventRecorded, ActivityTaskCanceled a =>
      Some (reading (notify_if_not_already_cancelled Canceled
                       (fun _ => notify_lang_activity_cancelled (Some a))))
  | Canceled, ActivityTaskStarted seq => Some (reading (canceled_on_started seq))
  | Canceled, ActivityTaskCompleted _ => Some (reading canceled_on_completed)
  | _, _ => None
  end.

Definition is_final (s : ActivityMachineState) : bool :=
  match s with
  | Completed | Failed | TimedOut => true
  | _ => false
  end.

Definition ActivityMachine : StateMachine :=
  {| State := ActivityMachineState; Fsm.SharedState := SharedState;
     Event := ActivityMachineEvents; SmCommand := ActivityMachineCommand;
     sm_name := "ActivityMachine"; Fsm.state_display := state_display;
     Fsm.transition := transition; Fsm.is_final := is_final |}.

(** ** Conversions and responses *)

(** [TryFrom<HistEventData> for ActivityMachineEvents]. *)
Definition event_from_history (d : HistEventData)
  : outcome WFMachinesError ActivityMachineEvents :=
  let e := d.(event) in
  match event_type e with
  | ET_ActivityTaskScheduled =>
      match e.(HistoryEvent_attributes) with
      | Some (HA_ActivityTaskScheduled a) =>
          Ok (ActivityTaskScheduled
            {| sd_event_id := e.(HistoryEvent_event_id);
               sd_act_type :=
                 default "" (ActivityType_name <$> a.(ActivityTaskScheduledEv_activity_type));
               sd_act_id := a.(ActivityTaskScheduledEv_activity_id);
               sd_last_task_in_history := d.(current_task_is_last_in_history) |})
      | _ => Err (Fatal ("Activity scheduled attributes were unset: " +:+ HistoryEvent_display e))
      end
  | ET_ActivityTaskStarted => Ok (ActivityTaskStarted e.(HistoryEvent_event_id))
  | ET_ActivityTaskCompleted =>
      match e.(HistoryEvent_attributes) with
      | Some (HA_ActivityTaskCompleted a) => Ok (ActivityTaskCompleted a)
      | _ => Err (Fatal ("Activity completion attributes were unset: " +:+ HistoryEvent_display e))
      end
  | ET_ActivityTaskFailed =>
      match e.(HistoryEvent_attributes) with
      | Some (HA_ActivityTaskFailed a) => Ok (ActivityTaskFailed a)
      | _ => Err (Fatal ("Activity failure attributes were unset: " +:+ HistoryEvent_display e))
      end
  | ET_ActivityTaskTimedOut =>
      match e.(HistoryEvent_attributes) with
      | Some (HA_ActivityTaskTimedOut a) => Ok (ActivityTaskTimedOut a)
      | _ => Err (Fatal ("Activity timeout attributes were unset: " +:+ HistoryEvent_display e))
      end
  | ET_ActivityTaskCancelRequested => Ok ActivityTaskCancelRequested
  | ET_ActivityTaskCanceled =>
      match e.(HistoryEvent_attributes) with
      | Some (HA_ActivityTaskCanceled a) => Ok (ActivityTaskCanceled a)
      | _ => Err (Fatal ("Activity cancellation attributes were unset: " +:+ HistoryEvent_display e))
      end
  | _ => Err (Nondeterminism
      ("Activity machine does not handle this event: " +:+ HistoryEvent_display e))
  end.

Definition event_from_command (c : CommandType) : option ActivityMachineEvents :=
  match c with
  | CT_ScheduleActivityTask => Some CommandScheduleActivityTask
  | CT_RequestCancelActivityTask => Some CommandRequestCancelActivityTask
  | _ => None
  end.

(** [Display for PayloadsToPayloadError]. *)
Definition PayloadsToPayloadError_display (e : PayloadsToPayloadError) : string :=
  match e with
  | MoreThanOnePayload => "MoreThanOnePayload"
  | NoPayload => "NoPayload"
  end.

Definition option_EventInfo_debug (i : option EventInfo) : string :=
  match i with
  | Some i => "Some(" +:+ EventInfo_debug i +:+ ")"
  | None => "None"
  end.

Definition convert_payloads (event_info : option EventInfo) (result : option Payloads)
  : outcome WFMachinesError (option Payload) :=
  match result with
  | None => Ok None
  | Some p =>
      match Payload_try_from p with
      | inr x => Ok (Some x)
      | inl pe => Err (Fatal
          ("Not exactly one payload in activity result (" +:+ PayloadsToPayloadError_display pe
           +:+ ") for event: " +:+ option_EventInfo_debug event_info))
      end
  end.

Definition resolve_activity (sh : SharedState) (st : ActivityResolution_Status) : JobVariant :=
  J_ResolveActivity
    {| ResolveActivity_seq := sh.(attrs).(ScheduleActivity_seq);
       ResolveActivity_result := Some {| ActivityResolution_status := Some st |};
       ResolveActivity_is_local := false |}.

Definition create_cancelation_resolve (sh : SharedState)
    (a : option ActivityTaskCanceledEventAttributes) : JobVariant :=
  resolve_activity sh (ActivityResolution_Cancelled
    {| ar_Cancellation_failure := Some (new_cancel_failure sh (default canceled_default a)) |}).

Definition machine_responses_from_cancel_request (sh : SharedState) (cancel_cmd : Command)
  : list MachineResponse :=
  IssueNewCommand cancel_cmd ::
  (if decide (sh.(cancellation_type) = ACT_WaitCancellationCompleted) then []
   else [PushWFJob (create_cancelation_resolve sh None)]).

Definition adapt_response (m : machine ActivityMachine) (c : ActivityMachineCommand)
    (event_info : option EventInfo) : outcome WFMachinesError (list MachineResponse) :=
  let sh := m.(shared_state) in
  match c with
  | CmdComplete result =>
      p ← convert_payloads event_info result;
      Ok [PushWFJob (resolve_activity sh
            (ActivityResolution_Completed {| ar_Success_result := p |}))]
  | CmdFail failure =>
      Ok [PushWFJob (resolve_activity sh
            (ActivityResolution_Failed {| ar_Failure_failure := Some failure |}))]
  | CmdRequestCancellation c => Ok (machine_responses_from_cancel_request sh c)
  | CmdCancel a => Ok [PushWFJob (create_cancelation_resolve sh a)]
  end.

#[global] Instance ActivityMachine_temporal : TemporalStateMachine ActivityMachine.
Proof.
  refine {| try_from_hist_event := event_from_history : _ -> outcome _ (Event ActivityMachine);
            try_from_command_type := event_from_command : _ -> option (Event ActivityMachine);
            Fsm.adapt_response := adapt_response |}.
  intros s. split; [by destruct s; try done; intros _ []|]. intros H.
  destruct s; first [ done | discriminate (H Schedule) | discriminate (H CommandScheduleActivityTask)
    | discriminate (H Cancel) | discriminate (H ActivityTaskCancelRequested)
    | discriminate (H (ActivityTaskStarted 0))
    | discriminate (H (ActivityTaskCanceled canceled_default)) ].
Defined.

(** ** Operations *)

Definition new (a : ScheduleActivity) : machine ActivityMachine :=
  from_parts (SM := ActivityMachine) Created
    {| scheduled_event_id := 0; started_event_id := 0; attrs := a;
       cancellation_type :=
         default ACT_TryCancel
           (ActivityCancellationType_try_from a.(ScheduleActivity_cancellation_type));
       cancelled_before_sent := false |}.

Definition new_scheduled (a : ScheduleActivity) (use_compatible_version : bool)
    (fl : InternalFlags)
  : (machine ActivityMachine * InternalFlags) * outcome WFMachinesError Attributes :=
  match on_event (SM := ActivityMachine) Schedule (new a, fl) with
  | ((m, fl), Ok _) =>
      ((m, fl), Ok (schedule_activity_cmd_to_api m.(shared_state).(attrs) use_compatible_version))
  | (s, _) => (s, Panic "Scheduling activities doesn't fail")
  end.

(** The closure over the commands of a cancellation. *)
Fixpoint cancel_responses (sh : SharedState) (cmds : list ActivityMachineCommand)
  : outcome (MachineError WFMachinesError) (list MachineResponse) :=
  match cmds with
  | [] => Ok []
  | c :: cmds =>
      r ← match c with
          | CmdRequestCancellation cmd => Ok (machine_responses_from_cancel_request sh cmd)
          | CmdCancel details => Ok [PushWFJob (create_cancelation_resolve sh details)]
          | _ => Panic "Invalid cancel event response"
          end;
      rest ← cancel_responses sh cmds;
      Ok (r ++ rest)
  end.

Definition cancel : M (machine ActivityMachine * InternalFlags) (MachineError WFMachinesError)
                      (list MachineResponse) :=
  fun '(m, fl) =>
    match get_state m with
    | Ok (Completed | Canceled | Failed | TimedOut) => ((m, fl), Ok [])
    | Ok _ =>
        let ev := match m.(shared_state).(cancellation_type) with
                  | ACT_Abandon => Abandon
                  | _ => Cancel
                  end in
        match on_event (SM := ActivityMachine) ev (m, fl) with
        | ((m', fl'), Ok cmds) => ((m', fl'), cancel_responses m'.(shared_state) cmds)
        | (s', Err e) => (s', Err e)
        | (s', Panic msg) => (s', Panic msg)
        end
    | Err e => ((m, fl), Err e)
    | Panic msg => ((m, fl), Panic msg)
    end.

Definition was_cancelled_before_sent_to_server (m : machine ActivityMachine) : bool :=
  m.(shared_state).(cancelled_before_sent).
(** ** Properties *)

(** The operation an activity offers beside commands and events. *)
Inductive ActivityOp := OpCancel.

Definition op_sem (op : ActivityOp) := match op with OpCancel => cancel end.

(** Events that recorded commands and history deliver. *)
Definition ext (e : ActivityMachineEvents) : Prop :=
  match e with Schedule | Cancel | Abandon => False | _ => True end.

Lemma activity_command_ext ct ev : event_from_command ct = Some ev -> ext ev.
Proof. destruct ct; intros [= <-]; done. Qed.

Lemma activity_event_ext d ev : event_from_history d = Ok ev -> ext ev.
Proof. unfold event_from_history. intros H. repeat case_match_in H; done. Qed.

(** An activity cancelled before its command was sent is [Canceled], and an
    abandoned activity never waits for a cancellation. *)
Definition waits_for_cancel (s : ActivityMachineState) : bool :=
  match s with
  | ScheduledActivityCancelCommandCreated | ScheduledActivityCancelEventRecorded
  | StartedActivityCancelCommandCreated | StartedActivityCancelEventRecorded => true
  | _ => false
  end.

Definition inv (s : ActivityMachineState) (sh : SharedState) : Prop :=
  (sh.(cancelled_before_sent) = true -> s = Canceled) /\
  (sh.(cancellation_type) = ACT_Abandon -> waits_for_cancel s = false).

(** Resolutions of the activity among the responses. *)
Definition is_resolution (r : MachineResponse) : nat :=
  match r with
  | PushWFJob (J_ResolveActivity _) => 1
  | _ => 0
  end.

Definition cost (sh : SharedState) (c : ActivityMachineCommand) : nat :=
  match c with
  | CmdRequestCancellation _ =>
      if decide (sh.(cancellation_type) = ACT_WaitCancellationCompleted) then 0 else 1
  | _ => 1
  end.

(** Resolutions left to report. *)
Definition budget (s : ActivityMachineState) (sh : SharedState) : nat :=
  match s with
  | Created | ScheduleCommandCreated | ScheduledEventRecorded | Started => 1
  | Completed | Failed | TimedOut | Canceled => 0
  | _ => if decide (sh.(cancellation_type) = ACT_WaitCancellationCompleted) then 1 else 0
  end.

(** Unfolds the handler of a transition, by cases on state and event. *)
Ltac transition_cases :=
  match goal with
  | Ht : transition ?s ?e = Some ?h, Hh : ?h _ _ = (_, _, TrOk _ _) |- _ =>
      destruct s, e; simplify_eq/=;
      unfold pure_handler, updating, reading, on_activity_task_scheduled,
        created_on_canceled, canceled_on_started, canceled_on_completed,
        notify_if_not_already_cancelled, notify_lang_activity_cancelled,
        notify_lang_activity_timed_out, create_request_cancel_activity_task_command in *;
      repeat case_match_in Hh; simplify_eq/=
  end.

Lemma activity_transition_ok s ev h sh fl sh' fl' cmds s' :
  ext ev -> transition s ev = Some h -> inv s sh -> h sh fl = (sh', fl', TrOk cmds s') ->
  inv s' sh' /\ sum_list_with (cost sh') cmds + budget s' sh' <= budget s sh.
Proof.
  unfold inv. intros He Ht Hi Hh.
  transition_cases; try done; (split; [naive_solver|]); repeat case_decide; simpl; lia || congruence.
Qed.

Lemma activity_adapt_ok s sh cmd info resps :
  Fsm.adapt_response (SM := ActivityMachine) (from_parts s sh) cmd info = Ok resps ->
  sum_list_with is_resolution resps <= cost sh cmd.
Proof.
  destruct cmd; simpl; [destruct (convert_payloads _ _)|..]; intros [= <-]; simpl; try lia.
  unfold machine_responses_from_cancel_request. case_decide; simpl; lia.
Qed.

(** All cases of a cancellation: the state and the mode. *)
Ltac cancel_cases m := destruct m as [[s|] [sched started a ct sent]]; [destruct s, ct|].

Lemma activity_op_ok op m fl m' fl' r :
  machine_I (SM := ActivityMachine) inv m -> op_sem op (m, fl) = ((m', fl'), r) ->
  machine_I (SM := ActivityMachine) inv m' /\
  sum_list_with is_resolution (outputs r) + machine_budget (SM := ActivityMachine) budget m'
  <= machine_budget (SM := ActivityMachine) budget m.
Proof.
  destruct op; unfold machine_I, machine_budget, inv. simpl.
  cancel_cases m; intros HI Hc; cbn in Hc; simplify_eq; simpl in *; (split; [naive_solver|lia]).
Qed.

Lemma drive_activity l m fl m' fl' resps :
  machine_I (SM := ActivityMachine) inv m ->
  drive (SM := ActivityMachine) op_sem l (m, fl) = ((m', fl'), resps) ->
  machine_I (SM := ActivityMachine) inv m' /\
  sum_list_with is_resolution resps + machine_budget (SM := ActivityMachine) budget m'
  <= machine_budget (SM := ActivityMachine) budget m.
Proof.
  apply (drive_budget (SM := ActivityMachine) (HT := ActivityMachine_temporal) op_sem ext inv budget cost is_resolution
    activity_transition_ok activity_command_ext activity_event_ext activity_adapt_ok activity_op_ok).
Qed.

(** (safety): however an activity is driven, by recorded commands, history
    events and cancellations in any order, lang is told of its resolution
    (completed, failed, timed out or cancelled) at most once. *)
Theorem activity_resolves_at_most_once (a : ScheduleActivity) (compat : bool)
    (fl : InternalFlags) (l : list (input ActivityOp)) :
  sum_list_with is_resolution 
    (drive (SM := ActivityMachine) op_sem l (new_scheduled a compat fl).1).2 <= 1.
Proof.
  destruct (drive _ l _) as [[m' fl'] resps] eqn:Hd.
  apply drive_activity in Hd as [_ Hd]; [|by split].
  unfold machine_budget at 2 in Hd. simpl in *. lia.
Qed.

Lemma no_panic_transition s sh fl :
  inv s sh ->
  forall ev h sh' fl' res, transition s ev = Some h -> h sh fl = (sh', fl', res) ->
    (forall msg, res <> TrPanic msg) /\ res <> TrInvalidTransition.
Proof.
  intros [_ Hi] ev h sh' fl' res Ht Hh. destruct s, ev; simplify_eq/=;
    unfold pure_handler, updating, reading, on_activity_task_scheduled,
      created_on_canceled, canceled_on_started, canceled_on_completed,
      notify_if_not_already_cancelled, notify_lang_activity_cancelled,
      notify_lang_activity_timed_out, create_request_cancel_activity_task_command in *;
    repeat case_match_in Hh; simplify_eq/=; try done; by specialize (Hi eq_refl).
Qed.

Lemma adapt_no_panic m c i msg :
  Fsm.adapt_response (SM := ActivityMachine) m c i <> Panic msg.
Proof.
  destruct c; simpl; try done. unfold convert_payloads.
  destruct result; simpl; [|done]. by destruct (Payload_try_from _).
Qed.

Lemma event_from_history_no_panic d msg : event_from_history d <> Panic msg.
Proof. unfold event_from_history. by repeat case_match_goal. Qed.

(** (safety): an activity driven through its interface never reaches the
    [unreachable!] of an abandoned activity waiting for its cancellation, nor
    any other panic: as long as no error was raised, the next command, event or
    cancellation does not panic. *)
Theorem activity_never_panics (a : ScheduleActivity) (compat : bool) (fl : InternalFlags)
    (l : list (input ActivityOp)) m fl' resps s ct d :
  drive (SM := ActivityMachine) op_sem l (new_scheduled a compat fl).1 = ((m, fl'), resps) ->
  m.(state) = Some s ->
  (forall msg, (handle_command ct (m, fl')).2 <> Panic msg) /\
  (forall msg, (handle_event d (m, fl')).2 <> Panic msg) /\
  (forall msg, (cancel (m, fl')).2 <> Panic msg).
Proof.
  intros Hd Hs. apply drive_activity in Hd as [HI _]; [|by split].
  unfold machine_I in HI. rewrite Hs in HI. split_and!; intros msg.
  - apply handle_command_no_panic with s; [done|apply no_panic_transition, HI|apply adapt_no_panic].
  - apply handle_event_no_panic with s; [apply event_from_history_no_panic|done| |apply adapt_no_panic].
    apply no_panic_transition, HI.
  - destruct m as [st [sched started at' cty sent]]; simpl in *; subst st.
    by destruct s, cty.
Qed.

(** (functional): cancelling an activity that the server has scheduled, by
    cancellation mode.  [TryCancel] asks the server to cancel it and resolves it
    as cancelled at once; [WaitCancellationCompleted] only asks; [Abandon] only
    resolves it and ends the machine.  The request names the scheduled event. *)
Theorem activity_cancel_modes (sh : SharedState) (fl : InternalFlags) (started : bool) :
  let m := from_parts (SM := ActivityMachine) (if started then Started else ScheduledEventRecorded) sh in
  let waiting := if started then StartedActivityCancelCommandCreated
                 else ScheduledActivityCancelCommandCreated in
  let request := IssueNewCommand (mk_command CT_RequestCancelActivityTask
    (CA_RequestCancelActivityTask
       {| RequestCancelActivityTaskCmd_scheduled_event_id := sh.(scheduled_event_id) |})) in
  let resolved := PushWFJob (create_cancelation_resolve sh None) in
  cancel (m, fl) =
    match sh.(cancellation_type) with
    | ACT_TryCancel =>
        ((from_parts (SM := ActivityMachine) waiting sh, fl), Ok [request; resolved])
    | ACT_WaitCancellationCompleted =>
        ((from_parts (SM := ActivityMachine) waiting sh, fl), Ok [request])
    | ACT_Abandon =>
        ((from_parts (SM := ActivityMachine) Canceled sh, fl), Ok [resolved])
    end.
Proof. destruct sh as [sched st a [] sent], started; reflexivity. Qed.

(** (safety): the scheduled event is accepted exactly when the determinism
    checks are off for this run or the activity id and type of the event are
    those of the command; otherwise it is a nondeterminism error.  The checks are
    on when the task is the last of history or the flag was recorded. *)
Theorem activity_scheduled_checked (sh : SharedState) (fl : InternalFlags)
    (d : ActTaskScheduledData) :
  let checks := (try_use IdAndTypeDeterminismChecks d.(sd_last_task_in_history) fl).2 in
  let fl' := (try_use IdAndTypeDeterminismChecks d.(sd_last_task_in_history) fl).1 in
  let r := on_event (SM := ActivityMachine) (ActivityTaskScheduled d)
             (from_parts (SM := ActivityMachine) ScheduleCommandCreated sh, fl) in
  let same := d.(sd_act_id) = sh.(attrs).(ScheduleActivity_activity_id) /\
              d.(sd_act_type) = sh.(attrs).(ScheduleActivity_activity_type) in
  (checks = false \/ same ->
     r = ((from_parts (SM := ActivityMachine) ScheduledEventRecorded
             (set_scheduled sh d.(sd_event_id)), fl'), Ok [])) /\
  (checks = true -> ~ same ->
     exists msg, r = ((mk_machine (SM := ActivityMachine) None sh, fl'),
                      Err (Underlying (Nondeterminism msg)))).
Proof.
  cbn -[try_use]. unfold on_activity_task_scheduled.
  destruct (try_use _ _ _) as [fl' checks]; simpl.
  destruct (String.eqb_spec d.(sd_act_id) sh.(attrs).(ScheduleActivity_activity_id)),
    (String.eqb_spec d.(sd_act_type) sh.(attrs).(ScheduleActivity_activity_type)), checks;
    simpl; naive_solver.
Qed.

(** An activity scheduled and cancelled at once. *)
Definition example_run :=
  drive (SM := ActivityMachine) op_sem [InOp OpCancel]
    (new_scheduled ScheduleActivity_default false example_flags).1.

Lemma activity_never_panics_witness :
  example_run.1.1.(state) = Some Canceled /\
  forall msg, (cancel (example_run.1.1, example_run.1.2)).2 <> Panic msg.
Proof.
  split; [vm_compute; reflexivity|].
  refine (proj2 (proj2 (activity_never_panics ScheduleActivity_default false example_flags
    [InOp OpCancel] example_run.1.1 example_run.1.2 example_run.2 Canceled
    CT_ScheduleActivityTask (example_hist_event ET_ActivityTaskStarted None)
    (pair3_eta example_run) _))).
  vm_compute. reflexivity.
Defined.

End Activity.
