(* ===== verification/ChildWorkflowMachine.v ===== *)
(** * Child workflows (machines/child_workflow_state_machine.rs) *)
From Stdlib Require Import ZArith Lia.
From stdpp Require Import base option list strings gmap.
From S2P Require Import Prelude Flags Protos ProtoExt CoreProtos Fsm.

Module Child.

Inductive ChildWorkflowMachineState :=
| Created
| StartCommandCreated
| StartEventRecorded
| StartFailed
| Started
| Completed
| Failed
| TimedOut
| Terminated
| Cancelled (seen_cancelled_event : bool).

Record ChildWorkflowExecutionStartedEvent := {
  se_workflow_execution : WorkflowExecution;
  se_started_event_id : Z;
}.

Record ChildWorkflowInitiatedData := {
  id_event_id : Z;
  id_wf_type : string;
  id_wf_id : string;
  id_last_task_in_history : bool;
}.

Inductive ChildWorkflowMachineEvents :=
| Schedule
| CommandStartChildWorkflowExecution
| StartChildWorkflowExecutionInitiated (d : ChildWorkflowInitiatedData)
| Cancel (reason : string)
| ChildWorkflowExecutionStarted (e : ChildWorkflowExecutionStartedEvent)
| StartChildWorkflowExecutionFailed (c : StartChildWorkflowExecutionFailedCause)
| ChildWorkflowExecutionCompleted (r : option Payloads)
| ChildWorkflowExecutionFailed (a : ChildWorkflowExecutionFailedEventAttributes)
| ChildWorkflowExecutionTimedOut (r : RetryState)
| ChildWorkflowExecutionCancelled
| ChildWorkflowExecutionTerminated
| CommandRequestCancelExternalWorkflowExecution.

Inductive ChildWorkflowCommand :=
| CmdStart (we : WorkflowExecution)
| CmdComplete (r : option Payloads)
| CmdFail (f : Failure)
| CmdCancel
| CmdStartFail (c : StartChildWorkflowExecutionFailedCause)
| CmdStartCancel (f : Failure)
| CmdIssueCancelAfterStarted (reason : string).

Record SharedState := {
  initiated_event_id : Z;
  started_event_id : Z;
  lang_sequence_number : Z;
  namespace : string;
  workflow_id : string;
  run_id : string;
  workflow_type : string;
  cancelled_before_sent : bool;
  cancel_type : ChildWorkflowCancellationType;
}.

Definition abandons (sh : SharedState) : bool :=
  bool_decide (sh.(cancel_type) = CWCT_Abandon).

Definition state_display (s : ChildWorkflowMachineState) : string :=
  match s with
  | Created => "Created"
  | StartCommandCreated => "StartCommandCreated"
  | StartEventRecorded => "StartEventRecorded"
  | StartFailed => "StartFailed"
  | Started => "Started"
  | Completed => "Completed"
  | Failed => "Failed"
  | TimedOut => "TimedOut"
  | Terminated => "Terminated"
  | Cancelled _ => "Cancelled"
  end.

(** ** Transition handlers *)

Abbreviation Tr := (TransitionResult ChildWorkflowCommand ChildWorkflowMachineState).

Definition failure_info_from_state (state : SharedState) (retry_state : RetryState)
  : option FailureInfo :=
  Some (FI_ChildWorkflowExecution
    {| ChildWorkflowExecutionFailureInfo_namespace := state.(namespace);
       ChildWorkflowExecutionFailureInfo_workflow_execution :=
         Some {| WorkflowExecution_workflow_id := state.(workflow_id);
                 WorkflowExecution_run_id := state.(run_id) |};
       ChildWorkflowExecutionFailureInfo_workflow_type :=
         Some {| WorkflowType_name := state.(workflow_type) |};
       ChildWorkflowExecutionFailureInfo_initiated_event_id := state.(initiated_event_id);
       ChildWorkflowExecutionFailureInfo_started_event_id := state.(started_event_id);
       ChildWorkflowExecutionFailureInfo_retry_state := RetryState_as_i32 retry_state |}).

Definition canceled_cause : Failure :=
  mkFailure "" "" "" None None (Some (FI_Canceled {| CanceledFailureInfo_details := None |})).

Definition completion_of_not_abandoned_err : WFMachinesError :=
  Nondeterminism
    "Child workflows which don't have the ABANDON cancellation type cannot complete after being cancelled.".

(** [Cancelled::on_child_workflow_execution_cancelled]. *)
Definition cancelled_on_cancelled (seen : bool) : Tr :=
  if seen then TrErr (Fatal
    "Child workflow has already seen a ChildWorkflowExecutionCanceledEvent, and now another is being applied! This is a bug, please report.")
  else TrOk [] (Cancelled true).

(** [Cancelled::on_child_workflow_execution_{completed,failed,timed_out,terminated}]. *)
Definition cancelled_on_completion (seen : bool) (state : SharedState) : Tr :=
  if abandons state then TrOk [] (Cancelled seen) else TrErr completion_of_not_abandoned_err.

Definition set_initiated (sh : SharedState) (id : Z) : SharedState :=
  {| initiated_event_id := id; started_event_id := sh.(started_event_id);
     lang_sequence_number := sh.(lang_sequence_number); namespace := sh.(namespace);
     workflow_id := sh.(workflow_id); run_id := sh.(run_id);
     workflow_type := sh.(workflow_type);
     cancelled_before_sent := sh.(cancelled_before_sent); cancel_type := sh.(cancel_type) |}.

Definition set_cancelled_before_sent (sh : SharedState) : SharedState :=
  {| initiated_event_id := sh.(initiated_event_id); started_event_id := sh.(started_event_id);
     lang_sequence_number := sh.(lang_sequence_number); namespace := sh.(namespace);
     workflow_id := sh.(workflow_id); run_id := sh.(run_id);
     workflow_type := sh.(workflow_type);
     cancelled_before_sent := true; cancel_type := sh.(cancel_type) |}.

Definition set_started (e : ChildWorkflowExecutionStartedEvent) (sh : SharedState) : SharedState :=
  {| initiated_event_id := sh.(initiated_event_id); started_event_id := e.(se_started_event_id);
     lang_sequence_number := sh.(lang_sequence_number); namespace := sh.(namespace);
     workflow_id := sh.(workflow_id);
     run_id := e.(se_workflow_execution).(WorkflowExecution_run_id);
     workflow_type := sh.(workflow_type);
     cancelled_before_sent := sh.(cancelled_before_sent); cancel_type := sh.(cancel_type) |}.

Definition on_start_child_workflow_execution_initiated (d : ChildWorkflowInitiatedData)
  : Handler SharedState ChildWorkflowMachineState ChildWorkflowCommand :=
  fun sh fl =>
    let '(fl, checks) := try_use IdAndTypeDeterminismChecks d.(id_last_task_in_history) fl in
    if checks && negb (String.eqb d.(id_wf_id) sh.(workflow_id))
    then (sh, fl, TrErr (Nondeterminism
      ("Child workflow id of scheduled event '" +:+ d.(id_wf_id)
       +:+ "' does not match child workflow id of command '" +:+ sh.(workflow_id) +:+ "'")))
    else if checks && negb (String.eqb d.(id_wf_type) sh.(workflow_type))
    then (sh, fl, TrErr (Nondeterminism
      ("Child workflow type of scheduled event '" +:+ d.(id_wf_type)
       +:+ "' does not match child workflow type of command '" +:+ sh.(workflow_type) +:+ "'")))
    else (set_initiated sh d.(id_event_id), fl, TrTo StartEventRecorded).

(** [StartCommandCreated::on_cancelled]. *)
Definition created_on_cancelled (reason : string)
  : Handler SharedState ChildWorkflowMachineState ChildWorkflowCommand :=
  fun sh fl =>
    let sh := set_cancelled_before_sent sh in
    (sh, fl, TrOk [CmdStartCancel (mkFailure
       ("Child Workflow Execution cancelled before scheduled: " +:+ reason) "" "" None
       (Some canceled_cause) (failure_info_from_state sh RetryState_NonRetryableFailure))]
       (Cancelled false)).

(** [StartEventRecorded::on_child_workflow_execution_started]. *)
Definition on_child_workflow_execution_started (e : ChildWorkflowExecutionStartedEvent)
  : Handler SharedState ChildWorkflowMachineState ChildWorkflowCommand :=
  updating (set_started e) (TrOk [CmdStart e.(se_workflow_execution)] Started).

(** [Started::on_child_workflow_execution_failed]. *)
Definition started_on_failed (a : ChildWorkflowExecutionFailedEventAttributes) (sh : SharedState)
  : Tr :=
  TrOk [CmdFail (mkFailure "Child Workflow execution failed" "" "" None
          a.(ChildWorkflowExecutionFailedEv_failure)
          (failure_info_from_state sh
             (default RetryState_Unspecified
                (RetryState_try_from a.(ChildWorkflowExecutionFailedEv_retry_state)))))] Failed.

(** [Started::on_child_workflow_execution_timed_out]. *)
Definition started_on_timed_out (retry_state : RetryState) (sh : SharedState) : Tr :=
  TrOk [CmdFail (mkFailure "Child Workflow execution timed out" "" "" None
          (Some (mkFailure "Timed out" "" "" None None
             (Some (FI_Timeout
                {| TimeoutFailureInfo_timeout_type := TimeoutType_as_i32 TimeoutType_StartToClose;
                   TimeoutFailureInfo_last_heartbeat_details := None |}))))
          (failure_info_from_state sh retry_state))] TimedOut.

(** [Started::on_child_workflow_execution_terminated]. *)
Definition started_on_terminated (sh : SharedState) : Tr :=
  TrOk [CmdFail (mkFailure "Child Workflow execution terminated" "" "" None
          (Some (mkFailure "Terminated" "" "" None None
             (Some (FI_Terminated Build_TerminatedFailureInfo))))
          (failure_info_from_state sh RetryState_NonRetryableFailure))] Terminated.

(** [Started::on_cancelled]: two destinations. *)
Definition started_on_cancelled (reason : string) (sh : SharedState) : Tr :=
  let dest := match sh.(cancel_type) with
              | CWCT_Abandon | CWCT_TryCancel => Cancelled false
              | _ => Started
              end in
  TrOk [CmdIssueCancelAfterStarted reason] dest.

Definition transition (s : ChildWorkflowMachineState) (e : ChildWorkflowMachineEvents)
  : option (Handler SharedState ChildWorkflowMachineState ChildWorkflowCommand) :=
  match s, e with
  | Created, Schedule => Some (pure_handler (TrTo StartCommandCreated))
  | StartCommandCreated, CommandStartChildWorkflowExecution =>
      Some (pure_handler (TrTo StartCommandCreated))
  | StartCommandCreated, StartChildWorkflowExecutionInitiated d =>
      Some (on_start_child_workflow_execution_initiated d)
  | StartCommandCreated, Cancel reason => Some (created_on_cancelled reason)
  | StartEventRecorded, ChildWorkflowExecutionStarted e =>
      Some (on_child_workflow_execution_started e)
  | StartEventRecorded, StartChildWorkflowExecutionFailed c =>
      Some (pure_handler (TrOk [CmdStartFail c] StartFailed))
  | Started, ChildWorkflowExecutionCompleted r =>
      Some (pure_handler (TrOk [CmdComplete r] Completed))
  | Started, ChildWorkflowExecutionFailed a => Some (reading (started_on_failed a))
  | Started, ChildWorkflowExecutionTimedOut r => Some (reading (started_on_timed_out r))
  | Started, ChildWorkflowExecutionCancelled =>
      Some (pure_handler (TrOk [CmdCancel] (Cancelled true)))
  | Started, ChildWorkflowExecutionTerminated => Some (reading started_on_terminated)
  | Started, Cancel reason => Some (reading (started_on_cancelled reason))
  | Started, CommandRequestCancelExternalWorkflowExecution => Some (pure_handler (TrTo Started))
  | Cancelled seen, Cancel _ => Some (pure_handler (TrTo (Cancelled seen)))
  | Cancelled seen, ChildWorkflowExecutionCancelled =>
      Some (pure_handler (cancelled_on_cancelled seen))
  | Cancelled seen, ChildWorkflowExecutionCompleted _ =>
      Some (reading (cancelled_on_completion seen))
  | Cancelled seen, ChildWorkflowExecutionFailed _ => Some (reading (cancelled_on_completion seen))
  | Cancelled seen, ChildWorkflowExecutionTimedOut _ =>
      Some (reading (cancelled_on_completion seen))
  | Cancelled seen, ChildWorkflowExecutionTerminated =>
      Some (reading (cancelled_on_completion seen))
  | Failed, Cancel _ => Some (pure_handler (TrTo Failed))
  | StartFailed, Cancel _ => Some (pure_handler (TrTo StartFailed))
  | TimedOut, Cancel _ => Some (pure_handler (TrTo TimedOut))
  | Completed, Cancel _ => Some (pure_handler (TrTo Completed))
  | _, _ => None
  end.

Definition is_final (s : ChildWorkflowMachineState) : bool :=
  match s with Terminated => true | _ => false end.

Definition ChildWorkflowMachine : StateMachine :=
  {| State := ChildWorkflowMachineState; Fsm.SharedState := SharedState;
     Event := ChildWorkflowMachineEvents; SmCommand := ChildWorkflowCommand;
     sm_name := "ChildWorkflowMachine"; Fsm.state_display := state_display;
     Fsm.transition := transition; Fsm.is_final := is_final |}.

(** ** Conversions and responses *)

(** [TryFrom<HistEventData> for ChildWorkflowMachineEvents]; the [Debug] dump of an
    unexpected event is not part of the message. *)
Definition event_from_history (d : HistEventData)
  : outcome WFMachinesError ChildWorkflowMachineEvents :=
  let e := d.(event) in
  match EventType_try_from e.(HistoryEvent_event_type) with
  | Some ET_StartChildWorkflowExecutionInitiated =>
      match e.(HistoryEvent_attributes) with
      | Some (HA_StartChildWorkflowExecutionInitiated a) =>
          Ok (StartChildWorkflowExecutionInitiated
            {| id_event_id := e.(HistoryEvent_event_id);
               id_wf_type := default "" (WorkflowType_name <$>
                 a.(StartChildWorkflowExecutionInitiatedEv_workflow_type));
               id_wf_id := a.(StartChildWorkflowExecutionInitiatedEv_workflow_id);
               id_last_task_in_history := d.(current_task_is_last_in_history) |})
      | _ => Err (Fatal "StartChildWorkflowExecutionInitiated attributes were unset")
      end
  | Some ET_StartChildWorkflowExecutionFailed =>
      match e.(HistoryEvent_attributes) with
      | Some (HA_StartChildWorkflowExecutionFailed a) =>
          match StartChildWorkflowExecutionFailedCause_try_from
                  a.(StartChildWorkflowExecutionFailedEv_cause) with
          | Some c => Ok (StartChildWorkflowExecutionFailed c)
          | None => Err (Fatal "Invalid StartChildWorkflowExecutionFailedCause")
          end
      | _ => Err (Fatal "StartChildWorkflowExecutionFailed attributes were unset")
      end
  | Some ET_ChildWorkflowExecutionStarted =>
      match e.(HistoryEvent_attributes) with
      | Some (HA_ChildWorkflowExecutionStarted a) =>
          match a.(ChildWorkflowExecutionStartedEv_workflow_execution) with
          | Some we => Ok (ChildWorkflowExecutionStarted
              {| se_workflow_execution := we;
                 se_started_event_id := e.(HistoryEvent_event_id) |})
          | None => Err (Fatal "ChildWorkflowExecutionStarted attributes were unset or malformed")
          end
      | _ => Err (Fatal "ChildWorkflowExecutionStarted attributes were unset or malformed")
      end
  | Some ET_ChildWorkflowExecutionCompleted =>
      match e.(HistoryEvent_attributes) with
      | Some (HA_ChildWorkflowExecutionCompleted a) =>
          Ok (ChildWorkflowExecutionCompleted a.(ChildWorkflowExecutionCompletedEv_result))
      | _ => Err (Fatal "ChildWorkflowExecutionCompleted attributes were unset or malformed")
      end
  | Some ET_ChildWorkflowExecutionFailed =>
      match e.(HistoryEvent_attributes) with
      | Some (HA_ChildWorkflowExecutionFailed a) => Ok (ChildWorkflowExecutionFailed a)
      | _ => Err (Fatal "ChildWorkflowExecutionFailed attributes were unset")
      end
  | Some ET_ChildWorkflowExecutionTimedOut =>
      match e.(HistoryEvent_attributes) with
      | Some (HA_ChildWorkflowExecutionTimedOut a) =>
          Ok (ChildWorkflowExecutionTimedOut (default RetryState_Unspecified
            (RetryState_try_from a.(ChildWorkflowExecutionTimedOutEv_retry_state))))
      | _ => Err (Fatal "ChildWorkflowExecutionTimedOut attributes were unset or malformed")
      end
  | Some ET_ChildWorkflowExecutionTerminated => Ok ChildWorkflowExecutionTerminated
  | Some ET_ChildWorkflowExecutionCanceled => Ok ChildWorkflowExecutionCancelled
  | _ => Err (Nondeterminism "Child workflow machine does not handle this event: ")
  end.

Definition event_from_command (c : CommandType) : option ChildWorkflowMachineEvents :=
  match c with
  | CT_StartChildWorkflowExecution => Some CommandStartChildWorkflowExecution
  | CT_RequestCancelExternalWorkflowExecution =>
      Some CommandRequestCancelExternalWorkflowExecution
  | _ => None
  end.

Definition convert_payloads (event_info : option EventInfo) (result : option Payloads)
  : outcome WFMachinesError (option Payload) :=
  match result with
  | None => Ok None
  | Some p =>
      match Payload_try_from p with
      | inr x => Ok (Some x)
      | inl pe => Err (Fatal
          ("Not exactly one payload in child workflow result ("
           +:+ match pe with MoreThanOnePayload => "MoreThanOnePayload" | NoPayload => "NoPayload" end
           +:+ ") for event: "
           +:+ match event_info with
               | Some i => "Some(" +:+ EventInfo_debug i +:+ ")"
               | None => "None"
               end))
      end
  end.

Definition resolve_start (sh : SharedState) (st : ResolveChildWorkflowExecutionStart_Status)
  : MachineResponse :=
  PushWFJob (J_ResolveChildWorkflowExecutionStart
    {| ResolveChildWorkflowExecutionStart_seq := sh.(lang_sequence_number);
       ResolveChildWorkflowExecutionStart_status := Some st |}).

Definition resolve (sh : SharedState) (st : ChildWorkflowResult_Status) : MachineResponse :=
  PushWFJob (J_ResolveChildWorkflowExecution
    {| ResolveChildWorkflowExecution_seq := sh.(lang_sequence_number);
       ResolveChildWorkflowExecution_result :=
         Some {| ChildWorkflowResult_status := Some st |} |}).

Definition resolve_cancelled_msg (sh : SharedState) : MachineResponse :=
  resolve sh (ChildWorkflowResult_Cancelled
    {| cw_Cancellation_failure := Some (mkFailure "Child Workflow execution cancelled" "" "" None
         (Some canceled_cause) (failure_info_from_state sh RetryState_NonRetryableFailure)) |}).

Definition adapt_response (m : machine ChildWorkflowMachine) (c : ChildWorkflowCommand)
    (event_info : option EventInfo) : outcome WFMachinesError (list MachineResponse) :=
  let sh := m.(shared_state) in
  match c with
  | CmdStart we =>
      Ok [resolve_start sh (ResolveChildWorkflowExecutionStart_Succeeded
            {| ResolveChildWorkflowExecutionStartSuccess_run_id := we.(WorkflowExecution_run_id) |})]
  | CmdStartFail cause =>
      Ok [resolve_start sh (ResolveChildWorkflowExecutionStart_Failed
            {| ResolveChildWorkflowExecutionStartFailure_workflow_id := sh.(workflow_id);
               ResolveChildWorkflowExecutionStartFailure_workflow_type := sh.(workflow_type);
               ResolveChildWorkflowExecutionStartFailure_cause :=
                 StartChildWorkflowExecutionFailedCause_as_i32 cause |})]
  | CmdStartCancel failure =>
      Ok [resolve_start sh (ResolveChildWorkflowExecutionStart_Cancelled
            {| ResolveChildWorkflowExecutionStartCancelled_failure := Some failure |})]
  | CmdComplete result =>
      p ← convert_payloads event_info result;
      Ok [resolve sh (ChildWorkflowResult_Completed {| cw_Success_result := p |})]
  | CmdFail failure =>
      Ok [resolve sh (ChildWorkflowResult_Failed {| cw_Failure_failure := Some failure |})]
  | CmdCancel => Ok [resolve_cancelled_msg sh]
  | CmdIssueCancelAfterStarted reason =>
      Ok ((if decide (sh.(cancel_type) = CWCT_Abandon) then []
           else [NewCoreOriginatedCommand (CA_RequestCancelExternalWorkflowExecution
             {| RequestCancelExternalWorkflowExecutionCmd_namespace := sh.(namespace);
                RequestCancelExternalWorkflowExecutionCmd_workflow_id := sh.(workflow_id);
                RequestCancelExternalWorkflowExecutionCmd_run_id := sh.(run_id);
                RequestCancelExternalWorkflowExecutionCmd_control := "";
                RequestCancelExternalWorkflowExecutionCmd_child_workflow_only := true;
                RequestCancelExternalWorkflowExecutionCmd_reason := reason |})])
          ++ match sh.(cancel_type) with
             | CWCT_Abandon | CWCT_TryCancel => [resolve_cancelled_msg sh]
             | _ => []
             end)
  end.

#[global] Instance ChildWorkflowMachine_temporal : TemporalStateMachine ChildWorkflowMachine.
Proof.
  refine {| try_from_hist_event := event_from_history : _ -> outcome _ (Event ChildWorkflowMachine);
            try_from_command_type := event_from_command : _ -> option (Event ChildWorkflowMachine);
            Fsm.adapt_response := adapt_response |}.
  intros s. split; [by destruct s; try done; intros _ []|]. intros H.
  destruct s; first [ done | discriminate (H Schedule) | discriminate (H (Cancel ""))
    | discriminate (H (StartChildWorkflowExecutionFailed SCWFC_Unspecified)) ].
Defined.

(** ** Operations *)

(** The shared state of a new child; [cancellation_type()] is prost's getter. *)
Definition new (a : StartChildWorkflowExecution) : machine ChildWorkflowMachine :=
  from_parts (SM := ChildWorkflowMachine) Created
    {| initiated_event_id := 0; started_event_id := 0;
       lang_sequence_number := a.(StartChildWorkflowExecution_seq);
       namespace := a.(StartChildWorkflowExecution_namespace);
       workflow_id := a.(StartChildWorkflowExecution_workflow_id);
       run_id := "";
       workflow_type := a.(StartChildWorkflowExecution_workflow_type);
       cancelled_before_sent := false;
       cancel_type := default CWCT_Abandon (ChildWorkflowCancellationType_try_from
         a.(StartChildWorkflowExecution_cancellation_type)) |}.

Definition new_scheduled (a : StartChildWorkflowExecution) (use_compatible_version : bool)
    (fl : InternalFlags)
  : (machine ChildWorkflowMachine * InternalFlags) * outcome WFMachinesError Attributes :=
  match on_event (SM := ChildWorkflowMachine) Schedule (new a, fl) with
  | (s, Ok _) => (s, Ok (start_child_workflow_cmd_to_api a use_compatible_version))
  | (s, _) => (s, Panic "Scheduling child workflows doesn't fail")
  end.

(** The closure over the commands of a cancellation. *)
Fixpoint cancel_responses (m : machine ChildWorkflowMachine) (cmds : list ChildWorkflowCommand)
  : outcome (MachineError WFMachinesError) (list MachineResponse) :=
  match cmds with
  | [] => Ok []
  | c :: cmds =>
      r ← match c with
          | CmdStartCancel _ | CmdIssueCancelAfterStarted _ =>
              map_err Underlying (adapt_response m c None)
          | _ => Panic "Invalid cancel event response"
          end;
      rest ← cancel_responses m cmds;
      Ok (r ++ rest)
  end.

Definition cancel (reason : string)
  : M (machine ChildWorkflowMachine * InternalFlags) (MachineError WFMachinesError)
      (list MachineResponse) :=
  fun s =>
    match on_event (SM := ChildWorkflowMachine) (Cancel reason) s with
    | ((m, fl), Ok cmds) => ((m, fl), cancel_responses m cmds)
    | (s', Err e) => (s', Err e)
    | (s', Panic msg) => (s', Panic msg)
    end.

Definition was_cancelled_before_sent_to_server (m : machine ChildWorkflowMachine) : bool :=
  m.(shared_state).(cancelled_before_sent).

(** ** Properties *)

Inductive ChildOp := OpCancel (reason : string).

Definition op_sem (op : ChildOp) := match op with OpCancel reason => cancel reason end.

(** The two things lang is told about a child: how its start went, and how it
    ended. *)
Inductive phase := StartPhase | EndPhase.

Definition weight (p : phase) (r : MachineResponse) : nat :=
  match p, r with
  | StartPhase, PushWFJob (J_ResolveChildWorkflowExecutionStart _) => 1
  | EndPhase, PushWFJob (J_ResolveChildWorkflowExecution _) => 1
  | _, _ => 0
  end.

Definition immediate (sh : SharedState) : bool :=
  match sh.(cancel_type) with CWCT_Abandon | CWCT_TryCancel => true | _ => false end.

Definition cost (p : phase) (sh : SharedState) (c : ChildWorkflowCommand) : nat :=
  match p, c with
  | StartPhase, (CmdStart _ | CmdStartFail _ | CmdStartCancel _) => 1
  | EndPhase, (CmdComplete _ | CmdFail _ | CmdCancel) => 1
  | EndPhase, CmdIssueCancelAfterStarted _ => if immediate sh then 1 else 0
  | _, _ => 0
  end.

Definition budget (p : phase) (s : ChildWorkflowMachineState) : nat :=
  match p, s with
  | _, (Created | StartCommandCreated | StartEventRecorded) => 1
  | EndPhase, Started => 1
  | _, _ => 0
  end.

(** A child cancelled before its command was sent is [Cancelled]. *)
Definition inv (s : ChildWorkflowMachineState) (sh : SharedState) : Prop :=
  sh.(cancelled_before_sent) = true -> exists seen, s = Cancelled seen.

(** Unfolds the handler of a transition, by cases on state and event. *)
Ltac transition_cases :=
  match goal with
  | Ht : transition ?s ?e = Some ?h, Hh : ?h _ _ = (_, _, TrOk _ _) |- _ =>
      destruct s, e; simplify_eq/=;
      unfold on_start_child_workflow_execution_initiated,
        created_on_cancelled, on_child_workflow_execution_started, started_on_failed,
        started_on_timed_out, started_on_terminated, started_on_cancelled,
        cancelled_on_cancelled, cancelled_on_completion, immediate in *;
      unfold pure_handler, updating, reading in *;
      repeat case_match_in Hh; simplify_eq/=
  end.

Lemma child_transition_ok p s ev h sh fl sh' fl' cmds s' :
  True -> transition s ev = Some h -> inv s sh -> h sh fl = (sh', fl', TrOk cmds s') ->
  inv s' sh' /\ sum_list_with (cost p sh') cmds + budget p s' <= budget p s.
Proof.
  unfold inv. intros _ Ht Hi Hh. destruct p; transition_cases;
    (split; [first [by eauto | intros Hc; by destruct (Hi Hc)]|]); unfold immediate;
    repeat match goal with H : cancel_type _ = _ |- _ => rewrite H end; simpl; lia.
Qed.

Lemma child_adapt_ok p s sh cmd info resps :
  Fsm.adapt_response (SM := ChildWorkflowMachine) (from_parts s sh) cmd info = Ok resps ->
  sum_list_with (weight p) resps <= cost p sh cmd.
Proof.
  destruct cmd; simpl; [|destruct (convert_payloads _ _)|..]; intros [= <-];
    destruct p; simpl; unfold immediate; try lia; destruct (cancel_type sh); simpl; lia.
Qed.

Lemma child_op_ok p op m fl m' fl' r :
  machine_I (SM := ChildWorkflowMachine) inv m -> op_sem op (m, fl) = ((m', fl'), r) ->
  machine_I (SM := ChildWorkflowMachine) inv m' /\
  sum_list_with (weight p) (outputs r)
  + machine_budget (SM := ChildWorkflowMachine) (fun s _ => budget p s) m'
  <= machine_budget (SM := ChildWorkflowMachine) (fun s _ => budget p s) m.
Proof.
  unfold machine_I, machine_budget, inv. destruct op, m as [[s|] [i st lsn ns wid rid ty sent ct]];
    [destruct s, ct|]; intros HI Hc; cbn in Hc; simplify_eq; destruct p; simpl in *;
    (split; [first [by eauto | intros Hs; by destruct (HI Hs)]|lia]).
Qed.

Lemma drive_child p l m fl m' fl' resps :
  machine_I (SM := ChildWorkflowMachine) inv m ->
  drive (SM := ChildWorkflowMachine) op_sem l (m, fl) = ((m', fl'), resps) ->
  machine_I (SM := ChildWorkflowMachine) inv m' /\
  sum_list_with (weight p) resps
  + machine_budget (SM := ChildWorkflowMachine) (fun s _ => budget p s) m'
  <= machine_budget (SM := ChildWorkflowMachine) (fun s _ => budget p s) m.
Proof.
  apply (drive_budget (SM := ChildWorkflowMachine) (HT := ChildWorkflowMachine_temporal) op_sem
    (fun _ => True) inv (fun s _ => budget p s) (cost p) (weight p) (child_transition_ok p)
    (fun _ _ _ => Logic.I) (fun _ _ _ => Logic.I) (child_adapt_ok p) (child_op_ok p)).
Qed.

(** (safety): however a child workflow is driven, lang is told at most once
    how its start went and at most once how it ended. *)
Theorem child_resolves_at_most_once (p : phase) (a : StartChildWorkflowExecution)
    (compat : bool) (fl : InternalFlags) (l : list (input ChildOp)) :
  sum_list_with (weight p) 
    (drive (SM := ChildWorkflowMachine) op_sem l (new_scheduled a compat fl).1).2 <= 1.
Proof.
  destruct (drive _ l _) as [[m' fl'] resps] eqn:Hd.
  apply (drive_child p) in Hd as [_ Hd]; [|by intros [=]].
  unfold machine_budget at 2 in Hd. destruct p; simpl in *; lia.
Qed.

(** (functional): cancelling a started child, by cancellation type.
    [Abandon] reports the cancellation at once and asks nothing of the child;
    [TryCancel] asks and reports at once; both waiting types only ask and leave
    the child running.  The request names the child's execution. *)
Theorem child_cancel_modes (sh : SharedState) (fl : InternalFlags) (reason : string) :
  let request := NewCoreOriginatedCommand (CA_RequestCancelExternalWorkflowExecution
    {| RequestCancelExternalWorkflowExecutionCmd_namespace := sh.(namespace);
       RequestCancelExternalWorkflowExecutionCmd_workflow_id := sh.(workflow_id);
       RequestCancelExternalWorkflowExecutionCmd_run_id := sh.(run_id);
       RequestCancelExternalWorkflowExecutionCmd_control := "";
       RequestCancelExternalWorkflowExecutionCmd_child_workflow_only := true;
       RequestCancelExternalWorkflowExecutionCmd_reason := reason |}) in
  cancel reason (from_parts (SM := ChildWorkflowMachine) Started sh, fl) =
    match sh.(cancel_type) with
    | CWCT_Abandon =>
        ((from_parts (SM := ChildWorkflowMachine) (Cancelled false) sh, fl),
         Ok [resolve_cancelled_msg sh])
    | CWCT_TryCancel =>
        ((from_parts (SM := ChildWorkflowMachine) (Cancelled false) sh, fl),
         Ok [request; resolve_cancelled_msg sh])
    | CWCT_WaitCancellationCompleted | CWCT_WaitCancellationRequested =>
        ((from_parts (SM := ChildWorkflowMachine) Started sh, fl), Ok [request])
    end.
Proof. destruct sh as [i st lsn ns wid rid ty sent []]; reflexivity. Qed.

(** (error): a child that completes, fails, times out or is terminated after
    it was cancelled is ignored when it was abandoned, and is a nondeterminism
    error otherwise, also in the [TryCancel] mode, whose cancellation is only a
    request. *)
Theorem child_completion_after_cancel (sh : SharedState) (fl : InternalFlags) (seen : bool) ev :
  match ev with
  | ChildWorkflowExecutionCompleted _ | ChildWorkflowExecutionFailed _
  | ChildWorkflowExecutionTimedOut _ | ChildWorkflowExecutionTerminated => True
  | _ => False
  end ->
  on_event (SM := ChildWorkflowMachine) ev
    (from_parts (SM := ChildWorkflowMachine) (Cancelled seen) sh, fl) =
    if decide (sh.(cancel_type) = CWCT_Abandon)
    then ((from_parts (SM := ChildWorkflowMachine) (Cancelled seen) sh, fl), Ok [])
    else ((mk_machine (SM := ChildWorkflowMachine) None sh, fl),
          Err (Underlying completion_of_not_abandoned_err)).
Proof. destruct ev, sh as [i st lsn ns wid rid ty sent []]; try done. Qed.

(** (error): a child cannot be cancelled between the recording of its
    initiation and its start, nor after it was terminated: [cancel] is an invalid
    transition there, and is accepted in every other state after scheduling. *)
Theorem child_cancel_accepted (s : ChildWorkflowMachineState) (sh : SharedState)
    (fl : InternalFlags) (reason : string) :
  s <> Created ->
  (cancel reason (from_parts (SM := ChildWorkflowMachine) s sh, fl)).2 = Err InvalidTransition
  <-> s = StartEventRecorded \/ s = Terminated.
Proof.
  destruct s, sh as [i st lsn ns wid rid ty sent []]; cbn; naive_solver.
Qed.

Definition example_shared (ct : ChildWorkflowCancellationType) : SharedState :=
  {| initiated_event_id := 5; started_event_id := 6; lang_sequence_number := 1;
     namespace := "ns"; workflow_id := "w"; run_id := "r"; workflow_type := "t";
     cancelled_before_sent := false; cancel_type := ct |}.

Lemma child_completion_after_cancel_witness :
  (on_event (SM := ChildWorkflowMachine) ChildWorkflowExecutionTerminated
     (from_parts (SM := ChildWorkflowMachine) (Cancelled false) (example_shared CWCT_TryCancel),
      example_flags)).2 = Err (Underlying completion_of_not_abandoned_err).
Proof.
  rewrite (child_completion_after_cancel (example_shared CWCT_TryCancel) example_flags false
    ChildWorkflowExecutionTerminated Logic.I). reflexivity.
Defined.

Lemma child_cancel_accepted_witness :
  (cancel "r" (from_parts (SM := ChildWorkflowMachine) StartEventRecorded
                 (example_shared CWCT_TryCancel), example_flags)).2 = Err InvalidTransition.
Proof.
  apply (child_cancel_accepted StartEventRecorded (example_shared CWCT_TryCancel) example_flags "r");
    [discriminate | left; reflexivity].
Defined.

End Child.
