(* ===== verification/NexusMachine.v ===== *)
(** * Nexus operations (machines/nexus_operation_state_machine.rs) *)
From Stdlib Require Import ZArith Lia.
From stdpp Require Import base option list strings gmap.
From S2P Require Import Prelude Flags Protos ProtoExt CoreProtos Fsm.

Module Nexus.

Inductive NexusOperationMachineState :=
| ScheduleCommandCreated
| ScheduledEventRecorded
| Started
| Completed
| Failed
| TimedOut
| Cancelled.

#[global] Instance NexusOperationMachineState_eq_dec : EqDecision NexusOperationMachineState.
Proof. solve_decision. Defined.

(** [NexusOperationScheduled] carries [NexusOpScheduledData], an event id. *)
Inductive NexusOperationMachineEvents :=
| CommandScheduleNexusOperation
| NexusOperationScheduled (event_id : Z)
| Cancel
| CommandRequestCancelNexusOperation
| NexusOperationCancelRequested
| NexusOperationCompleted (a : NexusOperationCompletedEventAttributes)
| NexusOperationFailed (a : NexusOperationFailedEventAttributes)
| NexusOperationCanceled (a : NexusOperationCanceledEventAttributes)
| NexusOperationTimedOut (a : NexusOperationTimedOutEventAttributes)
| NexusOperationStarted (a : NexusOperationStartedEventAttributes).

Inductive NexusOperationCommand :=
| CmdStart (operation_token : string)
| CmdStartSync
| CmdFailBeforeStart (f : Failure)
| CmdComplete (p : option Payload)
| CmdFail (f : Failure)
| CmdCancel (f : Failure)
| CmdTimedOut (f : Failure)
| CmdIssueCancel.

Record SharedState := {
  lang_seq_num : Z;
  scheduled_event_id : Z;
  endpoint : string;
  service : string;
  operation : string;
  cancelled_before_sent : bool;
  cancel_sent : bool;
  cancel_type : NexusOperationCancellationType;
  operation_token : option string;
}.

Definition state_display (s : NexusOperationMachineState) : string :=
  match s with
  | ScheduleCommandCreated => "ScheduleCommandCreated"
  | ScheduledEventRecorded => "ScheduledEventRecorded"
  | Started => "Started"
  | Completed => "Completed"
  | Failed => "Failed"
  | TimedOut => "TimedOut"
  | Cancelled => "Cancelled"
  end.

(** ** Transition handlers *)

Abbreviation Tr := (TransitionResult NexusOperationCommand NexusOperationMachineState).

(** [SharedState::cancelled_failure]. *)
Definition cancelled_failure (sh : SharedState) (message : string) : Failure :=
  mkFailure message "" "" None
    (Some (mkFailure "" "" "" None None
       (Some (FI_Canceled {| CanceledFailureInfo_details := None |}))))
    (Some (FI_NexusOperationExecution
       {| NexusOperationFailureInfo_scheduled_event_id := sh.(scheduled_event_id);
          NexusOperationFailureInfo_endpoint := sh.(endpoint);
          NexusOperationFailureInfo_service := sh.(service);
          NexusOperationFailureInfo_operation := sh.(operation);
          NexusOperationFailureInfo_operation_id := "";
          NexusOperationFailureInfo_operation_token := default "" sh.(operation_token) |})).

Definition set_scheduled (id : Z) (sh : SharedState) : SharedState :=
  {| lang_seq_num := sh.(lang_seq_num); scheduled_event_id := id; endpoint := sh.(endpoint);
     service := sh.(service); operation := sh.(operation);
     cancelled_before_sent := sh.(cancelled_before_sent); cancel_sent := sh.(cancel_sent);
     cancel_type := sh.(cancel_type); operation_token := sh.(operation_token) |}.

Definition set_cancelled_before_sent (sh : SharedState) : SharedState :=
  {| lang_seq_num := sh.(lang_seq_num); scheduled_event_id := sh.(scheduled_event_id);
     endpoint := sh.(endpoint); service := sh.(service); operation := sh.(operation);
     cancelled_before_sent := true; cancel_sent := sh.(cancel_sent);
     cancel_type := sh.(cancel_type); operation_token := sh.(operation_token) |}.

Definition set_cancel_sent (sh : SharedState) : SharedState :=
  {| lang_seq_num := sh.(lang_seq_num); scheduled_event_id := sh.(scheduled_event_id);
     endpoint := sh.(endpoint); service := sh.(service); operation := sh.(operation);
     cancelled_before_sent := sh.(cancelled_before_sent); cancel_sent := true;
     cancel_type := sh.(cancel_type); operation_token := sh.(operation_token) |}.

Definition set_token (t : string) (sh : SharedState) : SharedState :=
  {| lang_seq_num := sh.(lang_seq_num); scheduled_event_id := sh.(scheduled_event_id);
     endpoint := sh.(endpoint); service := sh.(service); operation := sh.(operation);
     cancelled_before_sent := sh.(cancelled_before_sent); cancel_sent := sh.(cancel_sent);
     cancel_type := sh.(cancel_type); operation_token := Some t |}.

(** [failure.unwrap_or_else(|| Failure { message, .. })]. *)
Definition or_message (f : option Failure) (message : string) : Failure :=
  default (mkFailure message "" "" None None None) f.

Definition failed_msg : string :=
  "Nexus operation failed but failure field was not populated".
Definition cancelled_msg : string :=
  "Nexus operation was cancelled but failure field was not populated".
Definition timed_out_msg : string :=
  "Nexus operation timed out but failure field was not populated".

(** [ScheduleCommandCreated::on_cancelled]. *)
Definition created_on_cancelled
  : Handler SharedState NexusOperationMachineState NexusOperationCommand :=
  fun sh fl =>
    let sh := set_cancelled_before_sent sh in
    (sh, fl, TrOk [CmdFailBeforeStart
                     (cancelled_failure sh "Nexus Operation cancelled before scheduled")]
                  Cancelled).

(** [ScheduledEventRecorded::on_issue_cancel]. *)
Definition scheduled_on_issue_cancel
  : Handler SharedState NexusOperationMachineState NexusOperationCommand :=
  fun sh fl =>
    if sh.(cancel_sent) then (sh, fl, TrTo ScheduledEventRecorded)
    else (set_cancel_sent sh, fl, TrOk [CmdIssueCancel] ScheduledEventRecorded).

(** [Started::on_issue_cancel]: two destinations. *)
Definition started_on_issue_cancel
  : Handler SharedState NexusOperationMachineState NexusOperationCommand :=
  fun sh fl =>
    if sh.(cancel_sent) then (sh, fl, TrOk [] Started)
    else
      let dest := match sh.(cancel_type) with
                  | NOCT_Abandon | NOCT_TryCancel => Cancelled
                  | _ => Started
                  end in
      (set_cancel_sent sh, fl, TrOk [CmdIssueCancel] dest).

Definition completion_of_not_abandoned_err : WFMachinesError :=
  Nondeterminism
    "Nexus operation which don't have the ABANDON cancellation type cannot complete after being cancelled.".

(** [Cancelled::on_completed], [on_failed] and [on_timed_out]. *)
Definition cancelled_on_completion (sh : SharedState) : Tr :=
  if decide (sh.(cancel_type) = NOCT_Abandon) then TrErr completion_of_not_abandoned_err
  else TrOk [] Cancelled.

Definition transition (s : NexusOperationMachineState) (e : NexusOperationMachineEvents)
  : option (Handler SharedState NexusOperationMachineState NexusOperationCommand) :=
  match s, e with
  | ScheduleCommandCreated, CommandScheduleNexusOperation =>
      Some (pure_handler (TrTo ScheduleCommandCreated))
  | ScheduleCommandCreated, NexusOperationScheduled id =>
      Some (updating (set_scheduled id) (TrTo ScheduledEventRecorded))
  | ScheduleCommandCreated, Cancel => Some created_on_cancelled
  | ScheduledEventRecorded, Cancel => Some scheduled_on_issue_cancel
  | ScheduledEventRecorded, CommandRequestCancelNexusOperation =>
      Some (pure_handler (TrTo ScheduledEventRecorded))
  | ScheduledEventRecorded, NexusOperationCancelRequested =>
      Some (pure_handler (TrTo ScheduledEventRecorded))
  | ScheduledEventRecorded, NexusOperationCompleted a =>
      Some (pure_handler
        (TrOk [CmdStartSync; CmdComplete a.(NexusOperationCompletedEv_result)] Completed))
  | ScheduledEventRecorded, NexusOperationFailed a =>
      Some (pure_handler (TrOk [CmdFailBeforeStart
        (or_message a.(NexusOperationFailedEv_failure) failed_msg)] Failed))
  | ScheduledEventRecorded, NexusOperationCanceled a =>
      Some (pure_handler (TrOk [CmdFailBeforeStart
        (or_message a.(NexusOperationCanceledEv_failure) cancelled_msg)] Cancelled))
  | ScheduledEventRecorded, NexusOperationTimedOut a =>
      Some (pure_handler (TrOk [CmdFailBeforeStart
        (or_message a.(NexusOperationTimedOutEv_failure) timed_out_msg)] TimedOut))
  | ScheduledEventRecorded, NexusOperationStarted a =>
      Some (updating (set_token a.(NexusOperationStartedEv_operation_token))
        (TrOk [CmdStart a.(NexusOperationStartedEv_operation_token)] Started))
  | Started, Cancel => Some started_on_issue_cancel
  | Started, CommandRequestCancelNexusOperation => Some (pure_handler (TrTo Started))
  | Started, NexusOperationCancelRequested => Some (pure_handler (TrTo Started))
  | Started, NexusOperationCompleted a =>
      Some (pure_handler (TrOk [CmdComplete a.(NexusOperationCompletedEv_result)] Completed))
  | Started, NexusOperationFailed a =>
      Some (pure_handler (TrOk [CmdFail
        (or_message a.(NexusOperationFailedEv_failure) failed_msg)] Failed))
  | Started, NexusOperationCanceled a =>
      Some (pure_handler (TrOk [CmdCancel
        (or_message a.(NexusOperationCanceledEv_failure) cancelled_msg)] Cancelled))
  | Started, NexusOperationTimedOut a =>
      Some (pure_handler (TrOk [CmdTimedOut
        (or_message a.(NexusOperationTimedOutEv_failure) timed_out_msg)] TimedOut))
  | Cancelled, Cancel => Some (pure_handler (TrTo Cancelled))
  | Cancelled, CommandRequestCancelNexusOperation => Some (pure_handler (TrTo Cancelled))
  | Cancelled, NexusOperationCancelRequested => Some (pure_handler (TrTo Cancelled))
  | Cancelled, NexusOperationCompleted _ => Some (reading cancelled_on_completion)
  | Cancelled, NexusOperationFailed _ => Some (reading cancelled_on_completion)
  | Cancelled, NexusOperationTimedOut _ => Some (reading cancelled_on_completion)
  | Cancelled, NexusOperationCanceled _ => Some (pure_handler (TrTo Cancelled))
  | Completed, Cancel => Some (pure_handler (TrTo Completed))
  | Failed, Cancel => Some (pure_handler (TrTo Failed))
  | TimedOut, Cancel => Some (pure_handler (TrTo TimedOut))
  | _, _ => None
  end.

(** Every state has an outgoing transition. *)
Definition is_final (s : NexusOperationMachineState) : bool := false.

Definition NexusOperationMachine : StateMachine :=
  {| State := NexusOperationMachineState; Fsm.SharedState := SharedState;
     Event := NexusOperationMachineEvents; SmCommand := NexusOperationCommand;
     sm_name := "NexusOperationMachine"; Fsm.state_display := state_display;
     Fsm.transition := transition; Fsm.is_final := is_final |}.

(** ** Conversions and responses *)

(** [TryFrom<HistEventData>]; an unexpected event's [Debug] dump is not part of
    the message. *)
Definition event_from_history (d : HistEventData)
  : outcome WFMachinesError NexusOperationMachineEvents :=
  let e := d.(event) in
  let malformed ty :=
    Err (Nondeterminism (ty +:+ " attributes were unset or malformed")) in
  match EventType_try_from e.(HistoryEvent_event_type) with
  | Some ET_NexusOperationScheduled =>
      match e.(HistoryEvent_attributes) with
      | Some (HA_NexusOperationScheduled _) =>
          Ok (NexusOperationScheduled e.(HistoryEvent_event_id))
      | _ => malformed "NexusOperationScheduled"
      end
  | Some ET_NexusOperationStarted =>
      match e.(HistoryEvent_attributes) with
      | Some (HA_NexusOperationStarted a) => Ok (NexusOperationStarted a)
      | _ => malformed "NexusOperationStarted"
      end
  | Some ET_NexusOperationCompleted =>
      match e.(HistoryEvent_attributes) with
      | Some (HA_NexusOperationCompleted a) => Ok (NexusOperationCompleted a)
      | _ => malformed "NexusOperationCompleted"
      end
  | Some ET_NexusOperationFailed =>
      match e.(HistoryEvent_attributes) with
      | Some (HA_NexusOperationFailed a) => Ok (NexusOperationFailed a)
      | _ => malformed "NexusOperationFailed"
      end
  | Some ET_NexusOperationCanceled =>
      match e.(HistoryEvent_attributes) with
      | Some (HA_NexusOperationCanceled a) => Ok (NexusOperationCanceled a)
      | _ => malformed "NexusOperationCanceled"
      end
  | Some ET_NexusOperationTimedOut =>
      match e.(HistoryEvent_attributes) with
      | Some (HA_NexusOperationTimedOut a) => Ok (NexusOperationTimedOut a)
      | _ => malformed "NexusOperationTimedOut"
      end
  | Some ET_NexusOperationCancelRequested => Ok NexusOperationCancelRequested
  | _ => Err (Nondeterminism "Nexus operation machine does not handle this event: ")
  end.

Definition event_from_command (c : CommandType) : option NexusOperationMachineEvents :=
  match c with
  | CT_ScheduleNexusOperation => Some CommandScheduleNexusOperation
  | CT_RequestCancelNexusOperation => Some CommandRequestCancelNexusOperation
  | _ => None
  end.

Definition resolve_start (sh : SharedState) (st : ResolveNexusOperationStart_Status)
  : MachineResponse :=
  PushWFJob (J_ResolveNexusOperationStart
    {| ResolveNexusOperationStart_seq := sh.(lang_seq_num);
       ResolveNexusOperationStart_status := Some st |}).

Definition resolve (sh : SharedState) (st : NexusOperationResult_Status) : MachineResponse :=
  PushWFJob (J_ResolveNexusOperation
    {| ResolveNexusOperation_seq := sh.(lang_seq_num);
       ResolveNexusOperation_result := Some {| NexusOperationResult_status := Some st |} |}).

Definition adapt_response (m : machine NexusOperationMachine) (c : NexusOperationCommand)
    (_ : option EventInfo) : outcome WFMachinesError (list MachineResponse) :=
  let sh := m.(shared_state) in
  match c with
  | CmdStartSync => Ok [resolve_start sh (ResolveNexusOperationStart_StartedSync true)]
  | CmdStart token => Ok [resolve_start sh (ResolveNexusOperationStart_OperationToken token)]
  | CmdFailBeforeStart f => Ok [resolve_start sh (ResolveNexusOperationStart_Failed f)]
  | CmdComplete p =>
      Ok [resolve sh (NexusOperationResult_Completed
            (default {| Payload_metadata := ∅; Payload_data := "" |} p))]
  | CmdFail f => Ok [resolve sh (NexusOperationResult_Failed f)]
  | CmdCancel f => Ok [resolve sh (NexusOperationResult_Cancelled f)]
  | CmdTimedOut f => Ok [resolve sh (NexusOperationResult_TimedOut f)]
  | CmdIssueCancel =>
      req ← (if decide (sh.(cancel_type) = NOCT_Abandon) then Ok []
             else cmd ← Command_from (CA_RequestCancelNexusOperation
                    {| RequestCancelNexusOperationCmd_scheduled_event_id :=
                         sh.(scheduled_event_id) |});
                  Ok [IssueNewCommand cmd]);
      Ok (req ++
          match sh.(cancel_type) with
          | NOCT_Abandon | NOCT_TryCancel =>
              [resolve sh (NexusOperationResult_Cancelled
                 (cancelled_failure sh "Nexus operation cancelled after starting"))]
          | _ => []
          end)
  end.

#[global] Instance NexusOperationMachine_temporal : TemporalStateMachine NexusOperationMachine.
Proof.
  refine {| try_from_hist_event := event_from_history : _ -> outcome _ (Event NexusOperationMachine);
            try_from_command_type := event_from_command : _ -> option (Event NexusOperationMachine);
            Fsm.adapt_response := adapt_response |}.
  intros s. split; [done|]. intros H. by destruct s; discriminate (H Cancel).
Defined.

(** ** Operations *)

Definition new_scheduled (a : ScheduleNexusOperation)
  : machine NexusOperationMachine * Attributes :=
  (from_parts (SM := NexusOperationMachine) ScheduleCommandCreated
     {| lang_seq_num := a.(ScheduleNexusOperation_seq); scheduled_event_id := 0;
        endpoint := a.(ScheduleNexusOperation_endpoint);
        service := a.(ScheduleNexusOperation_service);
        operation := a.(ScheduleNexusOperation_operation);
        cancelled_before_sent := false; cancel_sent := false;
        cancel_type := default NOCT_WaitCancellationCompleted
          (NexusOperationCancellationType_try_from a.(ScheduleNexusOperation_cancellation_type));
        operation_token := None |},
   schedule_nexus_operation_into a).

Definition cancel : M (machine NexusOperationMachine * InternalFlags)
                      (MachineError WFMachinesError) (list MachineResponse) :=
  fun s =>
    match on_event (SM := NexusOperationMachine) Cancel s with
    | ((m, fl), Ok cmds) =>
        ((m, fl), map_err Underlying (process_machine_commands m cmds None))
    | (s', Err e) => (s', Err e)
    | (s', Panic msg) => (s', Panic msg)
    end.

Definition was_cancelled_before_sent_to_server (m : machine NexusOperationMachine) : bool :=
  m.(shared_state).(cancelled_before_sent).

(** ** Properties *)

Inductive NexusOp := OpCancel.

Definition op_sem (op : NexusOp) := match op with OpCancel => cancel end.

(** The two things lang is told about an operation: how its start went, and how
    it ended. *)
Inductive phase := StartPhase | EndPhase.

Definition weight (p : phase) (r : MachineResponse) : nat :=
  match p, r with
  | StartPhase, PushWFJob (J_ResolveNexusOperationStart _) => 1
  | EndPhase, PushWFJob (J_ResolveNexusOperation _) => 1
  | _, _ => 0
  end.

(** The cancellation types that are resolved as soon as they are requested. *)
Definition immediate (ct : NexusOperationCancellationType) : bool :=
  match ct with NOCT_Abandon | NOCT_TryCancel => true | _ => false end.

Definition cost (p : phase) (sh : SharedState) (c : NexusOperationCommand) : nat :=
  match p, c with
  | StartPhase, (CmdStart _ | CmdStartSync | CmdFailBeforeStart _) => 1
  | EndPhase, (CmdComplete _ | CmdFail _ | CmdCancel _ | CmdTimedOut _) => 1
  | EndPhase, CmdIssueCancel => Nat.b2n (immediate sh.(cancel_type))
  | _, _ => 0
  end.

Definition budget (p : phase) (s : NexusOperationMachineState) (sh : SharedState) : nat :=
  match p, s with
  | StartPhase, (ScheduleCommandCreated | ScheduledEventRecorded) => 1
  | EndPhase, (ScheduleCommandCreated | ScheduledEventRecorded) =>
      1 + Nat.b2n (immediate sh.(cancel_type) && negb sh.(cancel_sent))
  | EndPhase, Started => 1
  | _, _ => 0
  end.

Definition inv (s : NexusOperationMachineState) (sh : SharedState) : Prop := True.

Lemma nexus_transition_ok p s ev h sh fl sh' fl' cmds s' :
  True -> transition s ev = Some h -> inv s sh -> h sh fl = (sh', fl', TrOk cmds s') ->
  inv s' sh' /\ sum_list_with (cost p sh') cmds + budget p s' sh' <= budget p s sh.
Proof.
  intros _ Ht _ Hh. split; [done|]. destruct sh as [q id ep sv op cb cs ct tok].
  destruct p, s, ev; simplify_eq/=;
    unfold created_on_cancelled, scheduled_on_issue_cancel, started_on_issue_cancel,
      cancelled_on_completion in *;
    unfold pure_handler, updating, reading in *; repeat case_match_in Hh; simplify_eq/=;
    destruct ct; simpl in *; simplify_eq; try destruct cs; simpl; lia.
Qed.

Lemma nexus_adapt_ok p s sh cmd info resps :
  Fsm.adapt_response (SM := NexusOperationMachine) (from_parts s sh) cmd info = Ok resps ->
  sum_list_with (weight p) resps <= cost p sh cmd.
Proof.
  destruct sh as [q id ep sv op cb cs ct tok], cmd; [..|destruct ct]; intros [= <-];
    destruct p; simpl; lia.
Qed.

Lemma nexus_op_ok p op m fl m' fl' r :
  machine_I (SM := NexusOperationMachine) inv m -> op_sem op (m, fl) = ((m', fl'), r) ->
  machine_I (SM := NexusOperationMachine) inv m' /\
  sum_list_with (weight p) (outputs r)
  + machine_budget (SM := NexusOperationMachine) (budget p) m'
  <= machine_budget (SM := NexusOperationMachine) (budget p) m.
Proof.
  unfold machine_I, machine_budget, inv.
  destruct op, m as [[s|] [q id ep sv op cb cs ct tok]];
    [destruct s, ct, cs|]; intros HI Hc; cbn in Hc; simplify_eq; destruct p; simpl in *; auto with lia.
Qed.

Lemma drive_nexus p l m fl m' fl' resps :
  machine_I (SM := NexusOperationMachine) inv m ->
  drive (SM := NexusOperationMachine) op_sem l (m, fl) = ((m', fl'), resps) ->
  machine_I (SM := NexusOperationMachine) inv m' /\
  sum_list_with (weight p) resps
  + machine_budget (SM := NexusOperationMachine) (budget p) m'
  <= machine_budget (SM := NexusOperationMachine) (budget p) m.
Proof.
  apply (drive_budget (SM := NexusOperationMachine) (HT := NexusOperationMachine_temporal) op_sem
    (fun _ => True) inv (budget p) (cost p) (weight p) (nexus_transition_ok p)
    (fun _ _ _ => Logic.I) (fun _ _ _ => Logic.I) (nexus_adapt_ok p) (nexus_op_ok p)).
Qed.

(** (safety): however a Nexus operation is driven, lang is told at most once
    how its start went; it is told at most once how it ended when the operation's
    cancellation waits for the handler, and at most twice when the cancellation
    type resolves at once ([Abandon], [TryCancel]). *)
Theorem nexus_resolution_bound (p : phase) (a : ScheduleNexusOperation) (fl : InternalFlags)
    (l : list (input NexusOp)) :
  let m := (new_scheduled a).1 in
  sum_list_with (weight p) (drive (SM := NexusOperationMachine) op_sem l (m, fl)).2
  <= match p with
     | StartPhase => 1
     | EndPhase => if immediate m.(shared_state).(cancel_type) then 2 else 1
     end.
Proof.
  intros m. destruct (drive _ l _) as [[m' fl'] resps] eqn:Hd.
  apply (drive_nexus p) in Hd as [_ Hd]; [|done].
  unfold machine_budget at 2 in Hd. destruct p; [simpl in *; lia|].
  subst m. cbn [new_scheduled fst from_parts state shared_state cancel_type cancel_sent budget] in *.
  rewrite andb_true_r in Hd. simpl snd. destruct (immediate _); simpl in *; lia.
Qed.

(** (error): the bound of two is reached.  An operation recorded as scheduled
    and cancelled with [TryCancel] or [Abandon] is resolved as cancelled before lang was
    told that it started, and resolved again when its completion arrives. *)
Theorem nexus_immediate_cancel_resolves_twice (sh : SharedState) (fl : InternalFlags)
    (a : NexusOperationCompletedEventAttributes) :
  immediate sh.(cancel_type) = true -> sh.(cancel_sent) = false ->
  let '(s1, r1) := cancel
    (from_parts (SM := NexusOperationMachine) ScheduledEventRecorded sh, fl) in
  let '((m2, _), r2) := on_event (SM := NexusOperationMachine) (NexusOperationCompleted a) s1 in
  sum_list_with (weight StartPhase) (outputs r1) = 0 /\
  sum_list_with (weight EndPhase) (outputs r1) = 1 /\
  exists cmds, r2 = Ok cmds /\
    process_machine_commands m2 cmds None =
      Ok [resolve_start sh (ResolveNexusOperationStart_StartedSync true);
          resolve sh (NexusOperationResult_Completed
            (default {| Payload_metadata := ∅; Payload_data := "" |}
               a.(NexusOperationCompletedEv_result)))].
Proof.
  destruct sh as [q id ep sv op cb cs ct tok]; simpl. intros Hi ->.
  destruct ct; try discriminate Hi; cbn; repeat (split; [done|]); eexists; split; reflexivity.
Qed.

(** (error): once an operation is cancelled, its completion, failure or
    timeout is ignored for every cancellation type but [Abandon]; for [Abandon],
    the type whose operation keeps running, it is the error that says the
    operation does not have the [ABANDON] type. *)
Theorem nexus_completion_after_cancel (sh : SharedState) (fl : InternalFlags) ev :
  match ev with
  | NexusOperationCompleted _ | NexusOperationFailed _ | NexusOperationTimedOut _ => True
  | _ => False
  end ->
  on_event (SM := NexusOperationMachine) ev
    (from_parts (SM := NexusOperationMachine) Cancelled sh, fl) =
    if decide (sh.(cancel_type) = NOCT_Abandon)
    then ((mk_machine (SM := NexusOperationMachine) None sh, fl),
          Err (Underlying completion_of_not_abandoned_err))
    else ((from_parts (SM := NexusOperationMachine) Cancelled sh, fl), Ok []).
Proof. destruct ev, sh as [q id ep sv op cb cs []]; try done. Qed.

(** (error): the outcome of a cancellation request, the event types
    [NexusOperationCancelRequestCompleted] and [NexusOperationCancelRequestFailed],
    is refused in every state as nondeterminism, without a change to the machine. *)
Theorem nexus_cancel_request_outcome_rejected (s : NexusOperationMachineState)
    (sh : SharedState) (fl : InternalFlags) (d : HistEventData) :
  event_type d.(event) = ET_NexusOperationCancelRequestCompleted \/
  event_type d.(event) = ET_NexusOperationCancelRequestFailed ->
  exists msg, handle_event (SM := NexusOperationMachine) d
                (from_parts (SM := NexusOperationMachine) s sh, fl) =
    ((from_parts (SM := NexusOperationMachine) s sh, fl), Err (Nondeterminism msg)).
Proof.
  unfold event_type. intros H. eexists. unfold handle_event. simpl. unfold event_from_history.
  destruct (EventType_try_from _) as [ty|]; [|by destruct H].
  destruct H as [H|H]; simpl in H; subst ty; reflexivity.
Qed.

(** (functional): cancelling a started operation, by cancellation type, when no
    cancellation was sent before: [Abandon] resolves at once and asks nothing,
    [TryCancel] asks and resolves at once, and the waiting types only ask. *)
Theorem nexus_cancel_modes (sh : SharedState) (fl : InternalFlags) :
  sh.(cancel_sent) = false ->
  let sh' := set_cancel_sent sh in
  let request := IssueNewCommand (mk_command CT_RequestCancelNexusOperation
    (CA_RequestCancelNexusOperation
       {| RequestCancelNexusOperationCmd_scheduled_event_id := sh.(scheduled_event_id) |})) in
  let resolved := resolve sh (NexusOperationResult_Cancelled
    (cancelled_failure sh "Nexus operation cancelled after starting")) in
  cancel (from_parts (SM := NexusOperationMachine) Started sh, fl) =
    match sh.(cancel_type) with
    | NOCT_Abandon =>
        ((from_parts (SM := NexusOperationMachine) Cancelled sh', fl), Ok [resolved])
    | NOCT_TryCancel =>
        ((from_parts (SM := NexusOperationMachine) Cancelled sh', fl), Ok [request; resolved])
    | _ => ((from_parts (SM := NexusOperationMachine) Started sh', fl), Ok [request])
    end.
Proof. destruct sh as [q id ep sv op cb cs []]; simpl; intros ->; reflexivity. Qed.

(** ** The properties at concrete machines *)

Definition example_shared (ct : NexusOperationCancellationType) : SharedState :=
  {| lang_seq_num := 1; scheduled_event_id := 5; endpoint := "e"; service := "s";
     operation := "o"; cancelled_before_sent := false; cancel_sent := false;
     cancel_type := ct; operation_token := None |}.

Definition example_completed : NexusOperationCompletedEventAttributes :=
  {| NexusOperationCompletedEv_scheduled_event_id := 5; NexusOperationCompletedEv_result := None;
     NexusOperationCompletedEv_request_id := "" |}.

Lemma nexus_immediate_cancel_resolves_twice_witness :
  let '(s1, r1) := cancel (from_parts (SM := NexusOperationMachine) ScheduledEventRecorded
                             (example_shared NOCT_TryCancel), example_flags) in
  let '((m2, _), r2) := on_event (SM := NexusOperationMachine)
                          (NexusOperationCompleted example_completed) s1 in
  sum_list_with (weight EndPhase) (outputs r1) = 1 /\ exists cmds, r2 = Ok cmds.
Proof.
  destruct (nexus_immediate_cancel_resolves_twice (example_shared NOCT_TryCancel) example_flags
    example_completed eq_refl eq_refl) as (_ & H1 & cmds & H2 & _).
  split; [exact H1|exists cmds; exact H2].
Defined.

Lemma nexus_completion_after_cancel_witness :
  (on_event (SM := NexusOperationMachine) (NexusOperationCompleted example_completed)
     (from_parts (SM := NexusOperationMachine) Cancelled (example_shared NOCT_Abandon),
      example_flags)).2 = Err (Underlying completion_of_not_abandoned_err).
Proof.
  rewrite (nexus_completion_after_cancel (example_shared NOCT_Abandon) example_flags
    (NexusOperationCompleted example_completed) Logic.I). reflexivity.
Defined.

Lemma nexus_cancel_request_outcome_rejected_witness :
  exists msg, handle_event (SM := NexusOperationMachine)
    {| event := {| HistoryEvent_event_id := 9; HistoryEvent_event_time := None;
                   HistoryEvent_event_type :=
                     EventType_as_i32 ET_NexusOperationCancelRequestCompleted;
                   HistoryEvent_version := 0; HistoryEvent_task_id := 0;
                   HistoryEvent_worker_may_ignore := false; HistoryEvent_user_metadata := None;
                   HistoryEvent_attributes := None |};
       replaying := false; current_task_is_last_in_history := true |}
    (from_parts (SM := NexusOperationMachine) Started
       (example_shared NOCT_WaitCancellationRequested), example_flags) =
    ((from_parts (SM := NexusOperationMachine) Started
        (example_shared NOCT_WaitCancellationRequested), example_flags), Err (Nondeterminism msg)).
Proof. apply nexus_cancel_request_outcome_rejected. left. reflexivity. Defined.

Lemma nexus_cancel_modes_witness :
  (cancel (from_parts (SM := NexusOperationMachine) Started (example_shared NOCT_Abandon),
           example_flags)).2 =
  Ok [resolve (example_shared NOCT_Abandon) (NexusOperationResult_Cancelled
        (cancelled_failure (example_shared NOCT_Abandon)
           "Nexus operation cancelled after starting"))].
Proof.
  rewrite (nexus_cancel_modes (example_shared NOCT_Abandon) example_flags eq_refl). reflexivity.
Defined.

End Nexus.
