(* ===== verification/LocalActivityMachine.v ===== *)
(** * Local activities (machines/local_activity_state_machine.rs)

    A local activity runs in the worker; its result is recorded in a marker, from
    which a replay resolves it again. *)
From Stdlib Require Import ZArith Lia.
From stdpp Require Import base option list strings gmap.
From S2P Require Import Prelude Flags Protos ProtoExt CoreProtos Fsm ActivityMachine.

Module LocalActivity.

(** [LocalActivityExecutionResult::empty_cancel], of
    worker/activities/local_activities.rs. *)
Definition empty_cancel : LocalActivityExecutionResult :=
  LAR_Cancelled (Cancellation_from_details None).

Record ResolveDat := {
  result : LocalActivityExecutionResult;
  complete_time : option Z;
  attempt : Z;
  backoff : option Duration;
  original_schedule_time : option Z;
}.

Inductive ResultType := RtCompleted | RtCancelled | RtFailed.

#[global] Instance ResultType_eq_dec : EqDecision ResultType.
Proof. solve_decision. Defined.

Inductive LocalActivityMachineState :=
| Executing
| Replaying
| ReplayingPreResolved (dat : ResolveDat)
| RequestSent
| MarkerCommandCreated (result_type : ResultType)
| ResultNotified (result_type : ResultType)
| MarkerCommandRecorded
| WaitingMarkerEvent (already_resolved : bool)
| WaitingMarkerEventPreResolved.

Inductive LocalActivityMachineEvents :=
| Schedule
| HandleResult (dat : ResolveDat)
| HandleKnownResult (dat : ResolveDat)
| Cancel
| NoWaitCancel (ct : ActivityCancellationType)
| CommandRecordMarker
| MarkerRecorded (dat : CompleteLocalActivityData)
| StartedNonReplayWFT.

Inductive LocalActivityCommand :=
| RequestActivityExecution (act : ValidScheduleLA)
| Resolved (dat : ResolveDat)
| FakeMarker
| RequestCancel.

Record SharedState := {
  attrs : ValidScheduleLA;
  replaying_when_invoked : bool;
  wf_time_when_started : option Z;
}.

Definition state_display (s : LocalActivityMachineState) : string :=
  match s with
  | Executing => "Executing"
  | Replaying => "Replaying"
  | ReplayingPreResolved _ => "ReplayingPreResolved"
  | RequestSent => "RequestSent"
  | MarkerCommandCreated _ => "MarkerCommandCreated"
  | ResultNotified _ => "ResultNotified"
  | MarkerCommandRecorded => "MarkerCommandRecorded"
  | WaitingMarkerEvent _ => "WaitingMarkerEvent"
  | WaitingMarkerEventPreResolved => "WaitingMarkerEventPreResolved"
  end.

Abbreviation Tr := (TransitionResult LocalActivityCommand LocalActivityMachineState).
Abbreviation LaHandler := (Handler SharedState LocalActivityMachineState LocalActivityCommand).

(** [SharedState::produce_no_wait_cancel_resolve_dat]. *)
Definition produce_no_wait_cancel_resolve_dat (sh : SharedState) : ResolveDat :=
  {| result := empty_cancel; complete_time := None; attempt := sh.(attrs).(la_attempt);
     backoff := None; original_schedule_time := sh.(attrs).(la_original_schedule_time) |}.

(** [RequestSent::on_handle_result]. *)
Definition result_type_of (r : LocalActivityExecutionResult) : ResultType :=
  match r with
  | LAR_Completed _ => RtCompleted
  | LAR_Failed _ => RtFailed
  | LAR_TimedOut _ => RtFailed
  | LAR_Cancelled _ => RtCancelled
  end.

Definition request_sent_on_handle_result (dat : ResolveDat) : Tr :=
  TrOk [Resolved dat] (MarkerCommandCreated (result_type_of dat.(result))).

(** [RequestSent::on_no_wait_cancel]. *)
Definition request_sent_on_no_wait_cancel (ct : ActivityCancellationType) (sh : SharedState) : Tr :=
  TrOk ((if decide (ct = ACT_TryCancel) then [RequestCancel] else [])
          ++ [Resolved (produce_no_wait_cancel_resolve_dat sh)])
       (MarkerCommandCreated RtCancelled).

(** [MarkerCommandRecorded::on_no_wait_cancel]. *)
Definition recorded_on_no_wait_cancel (ct : ActivityCancellationType) : Tr :=
  if decide (ct = ACT_TryCancel) then TrOk [RequestCancel] MarkerCommandRecorded
  else TrTo MarkerCommandRecorded.

Definition verify_marker_data_matches (shared : SharedState) (dat : CompleteLocalActivityData)
    (fl : InternalFlags) : InternalFlags * outcome WFMachinesError unit :=
  let md := dat.(marker_dat) in
  if (shared.(attrs).(la_seq) =? md.(LocalActivityMarkerData_seq))%Z then
    let '(fl, use) := try_use IdAndTypeDeterminismChecks
                        (negb shared.(replaying_when_invoked)) fl in
    (fl,
     if use then
       if String.eqb md.(LocalActivityMarkerData_activity_id) shared.(attrs).(la_activity_id) then
         if String.eqb md.(LocalActivityMarkerData_activity_type) shared.(attrs).(la_activity_type)
         then Ok tt
         else Err (Nondeterminism
           ("Activity type of recorded marker '" +:+ md.(LocalActivityMarkerData_activity_type)
            +:+ "' does not match activity type of local activity command '"
            +:+ shared.(attrs).(la_activity_type) +:+ "'"))
       else Err (Nondeterminism
         ("Activity id of recorded marker '" +:+ md.(LocalActivityMarkerData_activity_id)
          +:+ "' does not match activity id of local activity command '"
          +:+ shared.(attrs).(la_activity_id) +:+ "'"))
     else Ok tt)
  else
    (fl, Err (Nondeterminism
      ("Local activity marker data has sequence number "
       +:+ to_string md.(LocalActivityMarkerData_seq)
       +:+ " but matched against LA command with sequence number "
       +:+ to_string shared.(attrs).(la_seq)))).

(** The macro [verify_marker_dat!]. *)
Definition verify_marker_dat (dat : CompleteLocalActivityData) (ok_expr : Tr) : LaHandler :=
  fun shared fl =>
    match verify_marker_data_matches shared dat fl with
    | (fl, Err err) => (shared, fl, TrErr err)
    | (fl, Ok _) => (shared, fl, ok_expr)
    | (fl, Panic msg) => (shared, fl, TrPanic msg)
    end.

Definition is_err {A B} (r : A + B) : bool := match r with inl _ => true | inr _ => false end.

(** [ResultNotified::on_marker_recorded]. *)
Definition notified_on_marker_recorded (rt : ResultType) (dat : CompleteLocalActivityData)
  : LaHandler :=
  fun shared fl =>
    if bool_decide (rt = RtCompleted) && is_err dat.(la_result) then
      (shared, fl, TrErr (Nondeterminism
        ("Local activity (seq " +:+ to_string shared.(attrs).(la_seq)
         +:+ ") completed successfully locally, but history said it failed!")))
    else if bool_decide (rt = RtFailed) && negb (is_err dat.(la_result)) then
      (shared, fl, TrErr (Nondeterminism
        ("Local activity (seq " +:+ to_string shared.(attrs).(la_seq)
         +:+ ") failed locally, but history said it completed!")))
    else verify_marker_dat dat (TrTo MarkerCommandRecorded) shared fl.

Definition is_canceled_info (f : Failure) : bool :=
  match f with
  | mkFailure _ _ _ _ _ (Some (FI_Canceled _)) => true
  | _ => false
  end.

Definition failure_cause (f : Failure) : option Failure :=
  match f with mkFailure _ _ _ _ c _ => c end.

Section times.
  Context `{WktTime}.

(** [Option<Timestamp>::try_into_or_none] at [SystemTime]. *)
Definition time_or_none (t : option Timestamp) : option Z := t ≫= timestamp_try_into.

(** [From<CompleteLocalActivityData> for ResolveDat]. *)
Definition ResolveDat_from (d : CompleteLocalActivityData) : ResolveDat :=
  {| result :=
       match d.(la_result) with
       | inr res => LAR_Completed {| ar_Success_result := Some res |}
       | inl fail =>
           if is_canceled_info fail || default false (is_canceled_info <$> failure_cause fail)
           then LAR_Cancelled {| ar_Cancellation_failure := Some fail |}
           else LAR_Failed {| ar_Failure_failure := Some fail |}
       end;
     complete_time := time_or_none d.(marker_dat).(LocalActivityMarkerData_complete_time);
     attempt := d.(marker_dat).(LocalActivityMarkerData_attempt);
     backoff := d.(marker_dat).(LocalActivityMarkerData_backoff);
     original_schedule_time :=
       time_or_none d.(marker_dat).(LocalActivityMarkerData_original_schedule_time) |}.

Definition set_not_replaying (sh : SharedState) : SharedState :=
  {| attrs := sh.(attrs); replaying_when_invoked := false;
     wf_time_when_started := sh.(wf_time_when_started) |}.

(** [WaitingMarkerEvent::on_started_non_replay_wft]. *)
Definition on_started_non_replay_wft : LaHandler :=
  fun sh fl =>
    (set_not_replaying sh, fl, TrOk [RequestActivityExecution sh.(attrs)] RequestSent).

Definition transition (s : LocalActivityMachineState) (e : LocalActivityMachineEvents)
  : option LaHandler :=
  match s, e with
  | Executing, Schedule =>
      Some (reading (fun sh => TrOk [RequestActivityExecution sh.(attrs)] RequestSent))
  | Replaying, Schedule => Some (pure_handler (TrOk [] (WaitingMarkerEvent false)))
  | ReplayingPreResolved dat, Schedule =>
      Some (pure_handler (TrOk [FakeMarker; Resolved dat] WaitingMarkerEventPreResolved))
  | RequestSent, HandleResult dat => Some (pure_handler (request_sent_on_handle_result dat))
  | RequestSent, Cancel => Some (pure_handler (TrOk [RequestCancel] RequestSent))
  | RequestSent, NoWaitCancel ct => Some (reading (request_sent_on_no_wait_cancel ct))
  | MarkerCommandCreated rt, CommandRecordMarker => Some (pure_handler (TrTo (ResultNotified rt)))
  | ResultNotified rt, MarkerRecorded dat => Some (notified_on_marker_recorded rt dat)
  | WaitingMarkerEvent already_resolved, MarkerRecorded dat =>
      Some (verify_marker_dat dat
        (TrOk (if already_resolved then [] else [Resolved (ResolveDat_from dat)])
           MarkerCommandRecorded))
  | WaitingMarkerEvent already_resolved, Cancel =>
      Some (pure_handler (TrOk [RequestCancel] (WaitingMarkerEvent already_resolved)))
  | WaitingMarkerEvent _, HandleKnownResult dat =>
      Some (pure_handler (TrOk [Resolved dat] (WaitingMarkerEvent true)))
  | WaitingMarkerEvent already_resolved, NoWaitCancel _ =>
      Some (pure_handler (TrOk [RequestCancel] (WaitingMarkerEvent already_resolved)))
  | WaitingMarkerEvent _, StartedNonReplayWFT => Some on_started_non_replay_wft
  | WaitingMarkerEventPreResolved, MarkerRecorded dat =>
      Some (verify_marker_dat dat (TrTo MarkerCommandRecorded))
  | WaitingMarkerEventPreResolved, Cancel =>
      Some (pure_handler (TrTo WaitingMarkerEventPreResolved))
  | WaitingMarkerEventPreResolved, NoWaitCancel _ =>
      Some (pure_handler (TrTo WaitingMarkerEventPreResolved))
  | MarkerCommandRecorded, Cancel =>
      Some (pure_handler (TrOk [RequestCancel] MarkerCommandRecorded))
  | MarkerCommandRecorded, NoWaitCancel ct => Some (pure_handler (recorded_on_no_wait_cancel ct))
  | MarkerCommandCreated rt, HandleResult _ => Some (pure_handler (TrTo (MarkerCommandCreated rt)))
  | ResultNotified rt, HandleResult _ => Some (pure_handler (TrTo (ResultNotified rt)))
  | MarkerCommandRecorded, HandleResult _ => Some (pure_handler (TrTo MarkerCommandRecorded))
  | _, _ => None
  end.

(** Every state has an outgoing transition. *)
Definition is_final (s : LocalActivityMachineState) : bool := false.

Definition LocalActivityMachine : StateMachine :=
  {| State := LocalActivityMachineState; Fsm.SharedState := SharedState;
     Event := LocalActivityMachineEvents; SmCommand := LocalActivityCommand;
     sm_name := "LocalActivityMachine"; Fsm.state_display := state_display;
     Fsm.transition := transition; Fsm.is_final := is_final |}.

(** ** Responses *)

Definition is_timeout_info (f : Failure) : bool :=
  match f with
  | mkFailure _ _ _ _ _ (Some (FI_Timeout _)) => true
  | _ => false
  end.

(** The macro [wrap_fail!]: a failure of the given kind becomes the cause of an
    activity failure. *)
Definition wrap_fail (sh : SharedState) (kind : Failure -> bool) (msg : string)
    (fail : option Failure) : option Failure :=
  if default false (kind <$> fail) then
    Some (mkFailure msg "" "" None fail
      (Some (Activity.activity_fail_info sh.(attrs).(la_activity_type)
               sh.(attrs).(la_activity_id) None RetryState_CancelRequested 0 0)))
  else fail.

(** [u32] addition, which wraps in a release build. *)
Definition u32_add (a b : Z) : Z := ((a + b) mod (u32_max + 1))%Z.

(** The resolution reported to lang. *)
Definition resolution_of (sh : SharedState) (dat : ResolveDat) : ActivityResolution :=
  {| ActivityResolution_status := Some
       match dat.(backoff) with
       | Some b =>
           ActivityResolution_Backoff
             {| DoBackoff_attempt := u32_add dat.(attempt) 1;
                DoBackoff_backoff_duration := Some b;
                DoBackoff_original_schedule_time :=
                  timestamp_from <$> dat.(original_schedule_time) |}
       | None =>
           match dat.(result) with
           | LAR_Completed c => ActivityResolution_Completed c
           | LAR_Failed f => ActivityResolution_Failed f
           | LAR_TimedOut f =>
               ActivityResolution_Failed
                 {| ar_Failure_failure :=
                      wrap_fail sh is_timeout_info "Local Activity timed out"
                        f.(ar_Failure_failure) |}
           | LAR_Cancelled c =>
               ActivityResolution_Cancelled
                 {| ar_Cancellation_failure :=
                      wrap_fail sh is_canceled_info "Local Activity cancelled"
                        c.(ar_Cancellation_failure) |}
           end
       end |}.

Definition maybe_ok_result (r : LocalActivityExecutionResult) : option Payload :=
  match r with LAR_Completed suc => suc.(ar_Success_result) | _ => None end.

Definition maybe_failure (r : LocalActivityExecutionResult) : option Failure :=
  match r with
  | LAR_Completed _ => None
  | LAR_Failed f => f.(ar_Failure_failure)
  | LAR_Cancelled c => c.(ar_Cancellation_failure)
  | LAR_TimedOut f => f.(ar_Failure_failure)
  end.

Definition will_not_run_again (r : LocalActivityExecutionResult) : bool :=
  match r with LAR_Cancelled _ | LAR_TimedOut _ => true | _ => false end.

Context {HJ : Json LocalActivityMarkerData}.

Definition marker_data (sh : SharedState) (dat : ResolveDat) : RecordMarkerCommandAttributes :=
  {| RecordMarkerCmd_marker_name := LOCAL_ACTIVITY_MARKER_NAME;
     RecordMarkerCmd_details :=
       build_local_activity_marker_details
         {| LocalActivityMarkerData_seq := sh.(attrs).(la_seq);
            LocalActivityMarkerData_attempt := dat.(attempt);
            LocalActivityMarkerData_activity_id := sh.(attrs).(la_activity_id);
            LocalActivityMarkerData_activity_type := sh.(attrs).(la_activity_type);
            LocalActivityMarkerData_complete_time := timestamp_from <$> dat.(complete_time);
            LocalActivityMarkerData_backoff := dat.(backoff);
            LocalActivityMarkerData_original_schedule_time :=
              timestamp_from <$> dat.(original_schedule_time) |}
         (maybe_ok_result dat.(result));
     RecordMarkerCmd_header := None;
     RecordMarkerCmd_failure := maybe_failure dat.(result) |}.

Definition adapt_response (m : machine LocalActivityMachine) (c : LocalActivityCommand)
    (_ : option EventInfo) : outcome WFMachinesError (list MachineResponse) :=
  let sh := m.(shared_state) in
  match c with
  | RequestActivityExecution act => Ok [QueueLocalActivity act]
  | Resolved dat =>
      let responses :=
        [ PushWFJob (J_ResolveActivity
            {| ResolveActivity_seq := sh.(attrs).(la_seq);
               ResolveActivity_result := Some (resolution_of sh dat);
               ResolveActivity_is_local := true |});
          UpdateWFTime dat.(complete_time) ]
        ++ (if will_not_run_again dat.(result)
               && bool_decide (sh.(attrs).(la_cancellation_type) = ACT_Abandon)
            then [AbandonLocalActivity sh.(attrs).(la_seq)] else []) in
      if sh.(replaying_when_invoked) then Ok responses
      else
        cmd ← Command_from (CA_RecordMarker (marker_data sh dat));
        Ok (responses ++ [IssueNewCommand cmd])
  | FakeMarker => Ok [IssueFakeLocalActivityMarker sh.(attrs).(la_seq)]
  | RequestCancel => Ok [RequestCancelLocalActivityResp sh.(attrs).(la_seq)]
  end.

Definition event_from_command (c : CommandType) : option LocalActivityMachineEvents :=
  match c with
  | CT_RecordMarker => Some CommandRecordMarker
  | _ => None
  end.

Definition event_from_history (d : HistEventData)
  : outcome WFMachinesError LocalActivityMachineEvents :=
  let e := d.(event) in
  if decide (event_type e = ET_MarkerRecorded) then
    match into_local_activity_marker_details e with
    | Some marker_dat => Ok (MarkerRecorded marker_dat)
    | None => Err (Nondeterminism "Local activity machine encountered an unparsable marker")
    end
  else
    Err (Nondeterminism
      ("Local activity machine cannot handle this event: " +:+ HistoryEvent_display e)).

#[global] Instance LocalActivityMachine_temporal : TemporalStateMachine LocalActivityMachine.
Proof using H HJ.
  refine {| try_from_hist_event := event_from_history : _ -> outcome _ (Event LocalActivityMachine);
            try_from_command_type := event_from_command : _ -> option (Event LocalActivityMachine);
            Fsm.adapt_response := adapt_response |}.
  intros s. split; [done|]. intros Hs.
  destruct s; first [ discriminate (Hs Schedule) | discriminate (Hs Cancel)
    | discriminate (Hs CommandRecordMarker)
    | discriminate (Hs (HandleResult
        {| result := empty_cancel; complete_time := None; attempt := 1; backoff := None;
           original_schedule_time := None |})) ].
Defined.

(** ** Operations *)

Abbreviation LaM A := (MachineM LocalActivityMachine A).

Definition set_original_schedule_time (t : Z) (a : ValidScheduleLA) : ValidScheduleLA :=
  {| la_seq := a.(la_seq); la_activity_id := a.(la_activity_id);
     la_activity_type := a.(la_activity_type); la_attempt := a.(la_attempt);
     la_original_schedule_time := Some (default t a.(la_original_schedule_time));
     la_headers := a.(la_headers); la_arguments := a.(la_arguments);
     la_schedule_to_start_timeout := a.(la_schedule_to_start_timeout);
     la_close_timeouts := a.(la_close_timeouts); la_retry_policy := a.(la_retry_policy);
     la_local_retry_threshold := a.(la_local_retry_threshold);
     la_cancellation_type := a.(la_cancellation_type) |}.

(** [new_local_activity]; [now] is [SystemTime::now()].  Only the last command of
    the scheduling transition is adapted. *)
Definition new_local_activity (a : ValidScheduleLA) (replaying : bool)
    (maybe_pre_resolved : option ResolveDat) (wf_time : option Z) (now : Z) (fl : InternalFlags)
  : InternalFlags * outcome WFMachinesError (machine LocalActivityMachine * list MachineResponse) :=
  match (if replaying then
           Ok match maybe_pre_resolved with
              | Some dat => ReplayingPreResolved dat
              | None => Replaying
              end
         else match maybe_pre_resolved with
              | Some _ => Err (Nondeterminism
                  "Local activity cannot be created as pre-resolved while not replaying")
              | None => Ok Executing
              end) with
  | Err e => (fl, Err e)
  | Panic msg => (fl, Panic msg)
  | Ok initial_state =>
      let m := from_parts (SM := LocalActivityMachine) initial_state
        {| attrs := set_original_schedule_time now a; replaying_when_invoked := replaying;
           wf_time_when_started := wf_time |} in
      match on_event (SM := LocalActivityMachine) Schedule (m, fl) with
      | ((m, fl), Ok res) =>
          match last res with
          | Some c =>
              match adapt_response m c None with
              | Ok mr => (fl, Ok (m, mr))
              | _ => (fl, Panic "Adapting LA schedule response doesn't fail")
              end
          | None => (fl, Ok (m, []))
          end
      | ((_, fl), _) => (fl, Panic "Scheduling local activities doesn't fail")
      end
  end.

Definition marker_should_get_special_handling (m : machine LocalActivityMachine)
  : outcome WFMachinesError bool :=
  s ← get_state m;
  match s with
  | ResultNotified _ => Ok false
  | WaitingMarkerEvent _ => Ok true
  | WaitingMarkerEventPreResolved => Ok true
  | _ => Err (Fatal ("Attempted to check for LA marker handling in invalid state "
                     +:+ state_display s))
  end.

Definition will_accept_resolve_marker (m : machine LocalActivityMachine)
  : outcome WFMachinesError bool :=
  s ← get_state m;
  match s with WaitingMarkerEvent _ => Ok true | _ => Ok false end.

Definition encountered_non_replay_wft : LaM (list MachineResponse) :=
  fun '(m, fl) =>
    match get_state m with
    | Ok (WaitingMarkerEvent _) =>
        match on_event (SM := LocalActivityMachine) StartedNonReplayWFT (m, fl) with
        | ((m, fl), Ok res) =>
            match last res with
            | None => ((m, fl), Panic "Always produces one response")
            | Some c =>
                match adapt_response m c None with
                | Ok r => ((m, fl), Ok r)
                | _ => ((m, fl), Panic "Adapting LA wft-non-replay response doesn't fail")
                end
            end
        | ((m, fl), Err InvalidTransition) =>
            ((m, fl),
             s ← get_state m;
             Err (Fatal ("Invalid transition while notifying local activity (seq "
                         +:+ to_string m.(shared_state).(attrs).(la_seq)
                         +:+ ")of non-replay-wft-started in " +:+ state_display s)))
        | (st, Err (Underlying e)) => (st, Err e)
        | (st, Panic msg) => (st, Panic msg)
        end
    | Ok _ => ((m, fl), Ok [])
    | Err e => ((m, fl), Err e)
    | Panic msg => ((m, fl), Panic msg)
    end.

(** The [expect] of an adaptation. *)
Fixpoint adapt_expect (m : machine LocalActivityMachine) (cmds : list LocalActivityCommand)
  : outcome WFMachinesError (list MachineResponse) :=
  match cmds with
  | [] => Ok []
  | c :: cmds =>
      match adapt_response m c None with
      | Ok r => rest ← adapt_expect m cmds; Ok (r ++ rest)
      | _ => Panic "Adapting LA resolve response doesn't fail"
      end
  end.

Definition bool_display (b : bool) : string := if b then "true" else "false".

Definition _try_resolve (dat : ResolveDat) (from_marker : bool) : LaM (list MachineResponse) :=
  fun s =>
    let evt := if from_marker then HandleKnownResult dat else HandleResult dat in
    match on_event (SM := LocalActivityMachine) evt s with
    | ((m, fl), Ok res) => ((m, fl), adapt_expect m res)
    | ((m, fl), Err InvalidTransition) =>
        ((m, fl),
         s ← get_state m;
         Err (Fatal ("Invalid transition resolving local activity (seq "
                     +:+ to_string m.(shared_state).(attrs).(la_seq) +:+ ", from marker: "
                     +:+ bool_display from_marker +:+ ") in " +:+ state_display s)))
    | (st, Err (Underlying e)) => (st, Err e)
    | (st, Panic msg) => (st, Panic msg)
    end.

(** [SystemTime + Duration], in nanoseconds; the seconds are an [i64]. *)
Definition systime_add (t d : Z) : outcome WFMachinesError Z :=
  if ((t + d) / 1000000000 <=? i64_max)%Z then Ok (t + d)%Z
  else Panic "overflow when adding duration to instant".

Definition try_resolve (r : LocalActivityExecutionResult) (runtime : Z) (attempt : Z)
    (backoff : option Duration) (original_schedule_time : option Z) : LaM (list MachineResponse) :=
  fun '(m, fl) =>
    match (match m.(shared_state).(wf_time_when_started) with
           | Some t => t ← systime_add t runtime; Ok (Some t)
           | None => Ok None
           end) with
    | Ok complete_time =>
        _try_resolve {| result := r; complete_time := complete_time; attempt := attempt;
                        backoff := backoff; original_schedule_time := original_schedule_time |}
          false (m, fl)
    | Err e => ((m, fl), Err e)
    | Panic msg => ((m, fl), Panic msg)
    end.

Definition try_resolve_with_dat (dat : ResolveDat) : LaM (list MachineResponse) :=
  _try_resolve dat true.

Definition cancel : M (machine LocalActivityMachine * InternalFlags)
                      (MachineError WFMachinesError) (list MachineResponse) :=
  fun '(m, fl) =>
    let event := match m.(shared_state).(attrs).(la_cancellation_type) with
                 | ACT_TryCancel => NoWaitCancel ACT_TryCancel
                 | ACT_Abandon => NoWaitCancel ACT_Abandon
                 | _ => Cancel
                 end in
    match on_event (SM := LocalActivityMachine) event (m, fl) with
    | ((m, fl), Ok cmds) =>
        ((m, fl), map_err Underlying (process_machine_commands m cmds None))
    | (s', Err e) => (s', Err e)
    | (s', Panic msg) => (s', Panic msg)
    end.

Definition was_cancelled_before_sent_to_server (_ : machine LocalActivityMachine) : bool := false.

(** ** Replaying a recorded resolution *)

(** What the server records for a marker command. *)
Definition recorded_marker (c : RecordMarkerCommandAttributes) : HistEventData :=
  {| event := {| HistoryEvent_event_id := 0; HistoryEvent_event_time := None;
                 HistoryEvent_event_type := EventType_as_i32 ET_MarkerRecorded;
                 HistoryEvent_version := 0; HistoryEvent_task_id := 0;
                 HistoryEvent_worker_may_ignore := false; HistoryEvent_user_metadata := None;
                 HistoryEvent_attributes := Some (HA_MarkerRecorded
                   {| MarkerRecordedEv_marker_name := c.(RecordMarkerCmd_marker_name);
                      MarkerRecordedEv_details := c.(RecordMarkerCmd_details);
                      MarkerRecordedEv_workflow_task_completed_event_id := 0;
                      MarkerRecordedEv_header := c.(RecordMarkerCmd_header);
                      MarkerRecordedEv_failure := c.(RecordMarkerCmd_failure) |}) |};
     replaying := true; current_task_is_last_in_history := false |}.

(** [From<CompleteLocalActivityData>] reads a failure as a cancellation. *)
Definition reads_as_cancel (f : Failure) : bool :=
  is_canceled_info f || default false (is_canceled_info <$> failure_cause f).

(** The results whose resolution survives the marker. *)
Definition replay_stable (r : LocalActivityExecutionResult) : bool :=
  match r with
  | LAR_Completed s => match s.(ar_Success_result) with Some _ => true | None => false end
  | LAR_Failed f =>
      match f.(ar_Failure_failure) with Some f => negb (reads_as_cancel f) | None => false end
  | LAR_TimedOut f =>
      match f.(ar_Failure_failure) with
      | Some f => negb (is_timeout_info f) && negb (reads_as_cancel f)
      | None => false
      end
  | LAR_Cancelled c =>
      match c.(ar_Cancellation_failure) with Some f => reads_as_cancel f | None => false end
  end.

(** The JSON of the marker data can be written, and the times it holds survive
    their conversion. *)
Definition marker_encodes (sh : SharedState) (dat : ResolveDat) : Prop :=
  (exists j, to_json
    {| LocalActivityMarkerData_seq := sh.(attrs).(la_seq);
       LocalActivityMarkerData_attempt := dat.(attempt);
       LocalActivityMarkerData_activity_id := sh.(attrs).(la_activity_id);
       LocalActivityMarkerData_activity_type := sh.(attrs).(la_activity_type);
       LocalActivityMarkerData_complete_time := timestamp_from <$> dat.(complete_time);
       LocalActivityMarkerData_backoff := dat.(backoff);
       LocalActivityMarkerData_original_schedule_time :=
         timestamp_from <$> dat.(original_schedule_time) |} = Some j) /\
  time_or_none (timestamp_from <$> dat.(complete_time)) = dat.(complete_time) /\
  time_or_none (timestamp_from <$> dat.(original_schedule_time)) = dat.(original_schedule_time).

(** What a replay reads from the marker of [dat]. *)
Definition replayed_result (r : LocalActivityExecutionResult) : LocalActivityExecutionResult :=
  match maybe_failure r with
  | Some f =>
      if reads_as_cancel f then LAR_Cancelled {| ar_Cancellation_failure := Some f |}
      else LAR_Failed {| ar_Failure_failure := Some f |}
  | None =>
      LAR_Completed {| ar_Success_result :=
        Some (default {| Payload_metadata := ∅; Payload_data := "" |} (maybe_ok_result r)) |}
  end.

Definition replayed (dat : ResolveDat) : ResolveDat :=
  {| result := replayed_result dat.(result); complete_time := dat.(complete_time);
     attempt := dat.(attempt); backoff := dat.(backoff);
     original_schedule_time := dat.(original_schedule_time) |}.

Lemma recorded_marker_read `{!JsonLaws LocalActivityMarkerData} sh dat :
  marker_encodes sh dat ->
  exists md, event_from_history (recorded_marker (marker_data sh dat)) = Ok (MarkerRecorded md) /\
    ResolveDat_from md = replayed dat /\
    md.(marker_dat).(LocalActivityMarkerData_seq) = sh.(attrs).(la_seq) /\
    md.(marker_dat).(LocalActivityMarkerData_activity_id) = sh.(attrs).(la_activity_id) /\
    md.(marker_dat).(LocalActivityMarkerData_activity_type) = sh.(attrs).(la_activity_type).
Proof.
  intros ((j & Hj) & Hc & Ho). unfold event_from_history, into_local_activity_marker_details.
  cbn -[extract_local_activity_marker_details]. rewrite (marker_details_read _ _ j) by done.
  eexists. split; [reflexivity|]. unfold ResolveDat_from, replayed, replayed_result. simpl.
  rewrite Hc, Ho. split; [|done]. f_equal.
  by destruct (result dat) as [[[]]|[[]]|[[]]|[[]]].
Qed.

(** Whether the replayed resolution is the live one. *)
Lemma replayed_resolution sh dat :
  dat.(backoff) = None ->
  resolution_of sh (replayed dat) = resolution_of sh dat <->
  replay_stable dat.(result) = true.
Proof.
  unfold resolution_of, replayed, replayed_result, wrap_fail. simpl. intros ->.
  destruct (result dat) as [[[p|]]|[[f|]]|[[f|]]|[[f|]]]; simpl;
    try (destruct (reads_as_cancel f) eqn:Hc); rewrite ?andb_false_r, ?andb_true_r; simpl;
    unfold Activity.activity_fail_info; try (split; [intros [=]|intros [=]]; done).
  destruct f as [? ? ? ? ? [[]|]]; simpl; split; congruence.
Qed.

Lemma adapt_resolved m dat info :
  adapt_response m (Resolved dat) info =
  Ok ([ PushWFJob (J_ResolveActivity
          {| ResolveActivity_seq := m.(shared_state).(attrs).(la_seq);
             ResolveActivity_result := Some (resolution_of m.(shared_state) dat);
             ResolveActivity_is_local := true |});
        UpdateWFTime dat.(complete_time) ]
      ++ (if will_not_run_again dat.(result)
             && bool_decide (m.(shared_state).(attrs).(la_cancellation_type) = ACT_Abandon)
          then [AbandonLocalActivity m.(shared_state).(attrs).(la_seq)] else [])
      ++ (if m.(shared_state).(replaying_when_invoked) then []
          else [IssueNewCommand (mk_command CT_RecordMarker
                  (CA_RecordMarker (marker_data m.(shared_state) dat)))])).
Proof.
  unfold adapt_response. destruct (replaying_when_invoked _); simpl; by rewrite ?app_nil_r.
Qed.

(** The marker data that a replay verifies is that of its own command. *)
Lemma verify_own_marker sh md fl :
  md.(marker_dat).(LocalActivityMarkerData_seq) = sh.(attrs).(la_seq) ->
  md.(marker_dat).(LocalActivityMarkerData_activity_id) = sh.(attrs).(la_activity_id) ->
  md.(marker_dat).(LocalActivityMarkerData_activity_type) = sh.(attrs).(la_activity_type) ->
  sh.(replaying_when_invoked) = true ->
  verify_marker_data_matches sh md fl = (fl, Ok tt).
Proof.
  intros Hs Hi Ht Hr. unfold verify_marker_data_matches. rewrite Hs, Hi, Ht, Hr, Z.eqb_refl.
  assert (forall s : string, String.eqb s s = true) as Heq by apply String.eqb_refl.
  rewrite !Heq. destruct fl as [f|]; simpl; [by destruct (bool_decide _)|done].
Qed.

#[local] Arguments adapt_response : simpl never.

(** What the marker event does to the machine that waits for it. *)
Lemma replay_marker `{!JsonLaws LocalActivityMarkerData} sh sh' dat fl :
  marker_encodes sh dat -> sh'.(attrs) = sh.(attrs) -> sh'.(replaying_when_invoked) = true ->
  handle_event (recorded_marker (marker_data sh dat))
    (from_parts (SM := LocalActivityMachine) (WaitingMarkerEvent false) sh', fl) =
  ((from_parts (SM := LocalActivityMachine) MarkerCommandRecorded sh', fl),
   adapt_response (from_parts (SM := LocalActivityMachine) MarkerCommandRecorded sh')
     (Resolved (replayed dat)) None).
Proof.
  intros He Ha Hr. destruct (recorded_marker_read sh dat He) as (md & Hm & Hd & Hs & Hi & Ht).
  unfold handle_event. cbn [try_from_hist_event LocalActivityMachine_temporal]. rewrite Hm.
  unfold on_event. simpl. unfold verify_marker_dat.
  rewrite verify_own_marker by congruence. simpl. rewrite Hd, !adapt_resolved. simpl.
  by rewrite app_nil_r.
Qed.

End times.

(** ** Properties *)

Section properties.
  Context {HW : WktTime} {HJ : Json LocalActivityMarkerData} {HL : JsonLaws LocalActivityMarkerData}.


(** (error): the agreement fails for every other result that is not a retry:
    the replay of a timeout reports the bare timeout failure instead of the
    activity failure that wraps it, a failure caused by a cancellation becomes a
    cancellation, a cancellation without a failure becomes a completion. *)
Theorem local_activity_replay_disagrees (sh : SharedState) (dat : ResolveDat) (fl : InternalFlags) :
  marker_encodes sh dat -> dat.(backoff) = None -> replay_stable dat.(result) = false ->
  exists res,
    (handle_event (recorded_marker (marker_data sh dat))
      (from_parts (SM := LocalActivityMachine) (WaitingMarkerEvent false)
         {| attrs := sh.(attrs); replaying_when_invoked := true;
            wf_time_when_started := sh.(wf_time_when_started) |}, fl)).2 = Ok res /\
    exists resolution,
      head res = Some (PushWFJob (J_ResolveActivity
        {| ResolveActivity_seq := sh.(attrs).(la_seq);
           ResolveActivity_result := Some resolution;
           ResolveActivity_is_local := true |})) /\
      resolution <> resolution_of sh dat.
Proof.
  intros He Hb Hs. rewrite (replay_marker sh) by done. rewrite adapt_resolved. simpl.
  eexists. split; [reflexivity|]. eexists. split; [reflexivity|]. intros Hc.
  assert (replay_stable (result dat) = true) as Ht; [|congruence].
  apply (replayed_resolution sh dat Hb). exact Hc.
Qed.

(** ** Resolutions are unique *)

Abbreviation LaM A := (MachineM LocalActivityMachine A).

(** What the workflow machines do to a local activity while history is replayed
    and executed; [OpNonReplay] ends the replay. *)
Inductive LaOp :=
| OpResult (r : LocalActivityExecutionResult) (runtime attempt : Z) (b : option Duration)
    (ost : option Z)
| OpCancel
| OpNonReplay.

(** The same without the end of the replay. *)
Inductive LaReplayOp :=
| ROpResult (r : LocalActivityExecutionResult) (runtime attempt : Z) (b : option Duration)
    (ost : option Z)
| ROpCancel.

Definition run_cancel : LaM (list MachineResponse) :=
  fun s => let '(s', r) := cancel s in
           (s', match r with Ok l => Ok l | Err e => Err (WFMachinesError_from e)
                | Panic msg => Panic msg end).

Definition op_sem (op : LaOp) : LaM (list MachineResponse) :=
  match op with
  | OpResult r runtime attempt b ost => try_resolve r runtime attempt b ost
  | OpCancel => run_cancel
  | OpNonReplay => encountered_non_replay_wft
  end.

Definition replay_op_sem (op : LaReplayOp) : LaM (list MachineResponse) :=
  match op with
  | ROpResult r runtime attempt b ost => try_resolve r runtime attempt b ost
  | ROpCancel => run_cancel
  end.

Definition is_resolution (r : MachineResponse) : nat :=
  match r with PushWFJob (J_ResolveActivity _) => 1 | _ => 0 end.

Definition cost (sh : SharedState) (c : LocalActivityCommand) : nat :=
  match c with Resolved _ => 1 | _ => 0 end.

Definition budget (s : LocalActivityMachineState) (sh : SharedState) : nat :=
  match s with
  | Executing | Replaying | ReplayingPreResolved _ | RequestSent | WaitingMarkerEvent false => 1
  | _ => 0
  end.

(** [mode] tells whether the replay may still end; then no waiting machine has been
    resolved from history. *)
Definition inv (mode : bool) (s : LocalActivityMachineState) (sh : SharedState) : Prop :=
  match s with WaitingMarkerEvent true => mode = false | _ => True end.

Definition ext (mode : bool) (ev : LocalActivityMachineEvents) : Prop :=
  match ev with
  | HandleKnownResult _ => False
  | StartedNonReplayWFT => mode = true
  | _ => True
  end.

Lemma la_transition_ok mode s ev h sh fl sh' fl' cmds s' :
  ext mode ev -> transition s ev = Some h -> inv mode s sh -> h sh fl = (sh', fl', TrOk cmds s') ->
  inv mode s' sh' /\ sum_list_with (cost sh') cmds + budget s' sh' <= budget s sh.
Proof.
  intros He Ht HI Hh. destruct s, ev; simplify_eq/=;
    unfold notified_on_marker_recorded, verify_marker_dat, on_started_non_replay_wft,
      recorded_on_no_wait_cancel, request_sent_on_no_wait_cancel, request_sent_on_handle_result in *;
    unfold pure_handler, reading in *; repeat case_match_in Hh; simplify_eq/=; auto with lia;
    destruct already_resolved; simpl in *; simplify_eq; auto with lia.
Qed.

#[local] Arguments adapt_response : simpl never.

Lemma adapt_cost m cmd info :
  sum_list_with is_resolution (outputs (adapt_response m cmd info))
  <= cost m.(shared_state) cmd.
Proof.
  destruct cmd as [act|dat| |]; [done| |done|done].
  rewrite adapt_resolved. simpl. rewrite sum_list_with_app.
  destruct (_ && _), (replaying_when_invoked _); simpl; lia.
Qed.

Lemma la_adapt_ok s sh cmd info resps :
  Fsm.adapt_response (SM := LocalActivityMachine) (from_parts s sh) cmd info = Ok resps ->
  sum_list_with is_resolution resps <= cost sh cmd.
Proof.
  intros Ha. pose proof (adapt_cost (from_parts (SM := LocalActivityMachine) s sh) cmd info) as Hc.
  simpl in Ha. by rewrite Ha in Hc.
Qed.

Lemma la_command_ext mode ct ev : event_from_command ct = Some ev -> ext mode ev.
Proof. by destruct ct; intros [= <-]. Qed.

Lemma la_event_ext mode d ev : event_from_history d = Ok ev -> ext mode ev.
Proof.
  unfold event_from_history. case_decide; [|done].
  destruct (into_local_activity_marker_details _); [|done]. by intros [= <-].
Qed.

Lemma adapt_expect_cost m cmds :
  sum_list_with is_resolution (outputs (adapt_expect m cmds))
  <= sum_list_with (cost m.(shared_state)) cmds.
Proof.
  induction cmds as [|c cmds IH]; simpl; [lia|].
  pose proof (adapt_cost m c None) as Hc.
  destruct (adapt_response _ c None) as [r| |]; simpl in *; [|lia|lia].
  destruct (adapt_expect _ cmds); simpl in *; [|lia|lia].
  rewrite sum_list_with_app. lia.
Qed.

Lemma process_cost m cmds info :
  sum_list_with is_resolution
    (outputs (process_machine_commands (SM := LocalActivityMachine) m cmds info))
  <= sum_list_with (cost m.(shared_state)) cmds.
Proof.
  induction cmds as [|c cmds IH]; simpl; [lia|].
  pose proof (adapt_cost m c info) as Hc.
  destruct (adapt_response _ c info) as [r| |]; simpl in *; [|lia|lia].
  destruct (process_machine_commands (SM := LocalActivityMachine) m cmds info); simpl in *; [|lia|lia].
  rewrite sum_list_with_app. lia.
Qed.

Abbreviation la_I mode m := (machine_I (SM := LocalActivityMachine) (inv mode) m).
Abbreviation la_budget m := (machine_budget (SM := LocalActivityMachine) budget m).

(** An operation that delivers one event and adapts the commands it yields. *)
Lemma event_op_budget mode ev m fl m' fl' r out :
  ext mode ev -> la_I mode m ->
  on_event (SM := LocalActivityMachine) ev (m, fl) = ((m', fl'), r) ->
  sum_list_with is_resolution out <= sum_list_with (cost m'.(shared_state)) (outputs r) ->
  la_I mode m' /\ sum_list_with is_resolution out + la_budget m' <= la_budget m.
Proof.
  intros He HI Hev Hc.
  destruct (on_event_budget (SM := LocalActivityMachine) (ext mode) (inv mode) budget cost
    (la_transition_ok mode) ev m fl m' fl' r He HI Hev) as [HI' Hb]. split; [done|].
  eapply Nat.le_trans; [|exact Hb]. apply Nat.add_le_mono_r. exact Hc.
Qed.

Lemma try_resolve_budget mode r runtime a b ost m fl m' fl' res :
  la_I mode m -> try_resolve r runtime a b ost (m, fl) = ((m', fl'), res) ->
  la_I mode m' /\ sum_list_with is_resolution (outputs res) + la_budget m' <= la_budget m.
Proof.
  unfold try_resolve. intros HI.
  destruct (match wf_time_when_started _ with Some _ => _ | None => _ end) as [t| |];
    [|intros [= <- <- <-]; simpl; auto with lia..].
  unfold _try_resolve. destruct (on_event _ _) as [[m1 fl1] r1] eqn:He. intros Hr.
  assert (m1 = m' /\ sum_list_with is_resolution (outputs res)
          <= sum_list_with (cost m1.(shared_state)) (outputs r1)) as [-> Hc].
  { destruct r1 as [c|[|e]|msg]; simplify_eq; simpl; auto with lia.
    - split; [done|]. apply adapt_expect_cost.
    - split; [done|]. by destruct (get_state m'). }
  eapply event_op_budget; [|exact HI|exact He|exact Hc]. done.
Qed.

Lemma cancel_budget mode m fl m' fl' res :
  la_I mode m -> run_cancel (m, fl) = ((m', fl'), res) ->
  la_I mode m' /\ sum_list_with is_resolution (outputs res) + la_budget m' <= la_budget m.
Proof.
  unfold run_cancel, cancel. intros HI.
  set (ev := match la_cancellation_type _ with ACT_TryCancel => _ | _ => _ end).
  assert (ext mode ev) as Hext by (subst ev; by destruct (la_cancellation_type _)).
  destruct (on_event _ _) as [[m1 fl1] r1] eqn:He. intros Hr.
  assert (m1 = m' /\ sum_list_with is_resolution (outputs res)
          <= sum_list_with (cost m1.(shared_state)) (outputs r1)) as [-> Hc].
  { pose proof (process_cost m1 (outputs r1) None) as Hp. destruct r1 as [c|e|msg]; simpl in *;
      [|simplify_eq/=; auto with lia..].
    destruct (process_machine_commands (SM := LocalActivityMachine) m1 c None); simplify_eq/=; auto with lia. }
  eapply event_op_budget; [exact Hext|exact HI|exact He|exact Hc].
Qed.

Lemma non_replay_budget m fl m' fl' res :
  la_I true m -> encountered_non_replay_wft (m, fl) = ((m', fl'), res) ->
  la_I true m' /\ sum_list_with is_resolution (outputs res) + la_budget m' <= la_budget m.
Proof.
  unfold machine_I, machine_budget. destruct m as [[s|] sh]; simpl.
  - destruct s as [| | | | | | |[]|]; simpl; intros HI [= <- <- <-]; simpl; auto with lia.
  - intros HI [= <- <- <-]. simpl. auto with lia.
Qed.

Lemma drive_la l m fl m' fl' resps :
  la_I true m -> drive (SM := LocalActivityMachine) op_sem l (m, fl) = ((m', fl'), resps) ->
  la_I true m' /\ sum_list_with is_resolution resps + la_budget m' <= la_budget m.
Proof.
  apply (drive_budget (SM := LocalActivityMachine) (HT := LocalActivityMachine_temporal) op_sem
    (ext true) (inv true) budget cost is_resolution (la_transition_ok true) (la_command_ext true)
    (la_event_ext true) la_adapt_ok).
  intros [r rt a b ost| |] ?????; simpl;
    [apply try_resolve_budget|apply cancel_budget|apply non_replay_budget].
Qed.

Lemma drive_la_replay l m fl m' fl' resps :
  la_I false m -> drive (SM := LocalActivityMachine) replay_op_sem l (m, fl) = ((m', fl'), resps) ->
  la_I false m' /\ sum_list_with is_resolution resps + la_budget m' <= la_budget m.
Proof.
  apply (drive_budget (SM := LocalActivityMachine) (HT := LocalActivityMachine_temporal)
    replay_op_sem (ext false) (inv false) budget cost is_resolution (la_transition_ok false)
    (la_command_ext false) (la_event_ext false) la_adapt_ok).
  intros [r rt a b ost|] ?????; simpl; [apply try_resolve_budget|apply cancel_budget].
Qed.

(** A result known from history resolves a waiting machine once. *)
Lemma known_budget dat m fl m' fl' res :
  la_I true m -> try_resolve_with_dat dat (m, fl) = ((m', fl'), res) ->
  la_I false m' /\ sum_list_with is_resolution (outputs res) + la_budget m' <= la_budget m.
Proof.
  unfold try_resolve_with_dat, _try_resolve, machine_I, machine_budget.
  destruct m as [[s|] sh]; cbn -[adapt_expect].
  - destruct s as [| | | | | | |[]|]; cbn -[adapt_expect]; intros HI [= <- <- <-]; simpl;
      auto with lia.
    rewrite adapt_resolved. simpl. split; [done|]. rewrite !sum_list_with_app.
    destruct (_ && _), (replaying_when_invoked sh); simpl; lia.
  - intros HI [= <- <- <-]. simpl. auto with lia.
Qed.

(** A new machine, with what its creation reports. *)
Lemma new_local_activity_budget a replaying pre wf_time now fl fl' m mr :
  new_local_activity a replaying pre wf_time now fl = (fl', Ok (m, mr)) ->
  la_I true m /\ sum_list_with is_resolution mr + la_budget m <= 1.
Proof.
  unfold new_local_activity, machine_I, machine_budget.
  destruct replaying, pre as [dat|]; cbn -[adapt_response]; rewrite ?adapt_resolved; intros Hn;
    simplify_eq/=; (split; [done|]); rewrite ?sum_list_with_app; simpl; try lia.
  destruct (_ && _); simpl; lia.
Qed.

(** (safety): lang is told at most once how a local activity resolved, over its
    creation (which resolves it when its result is already known from history),
    any sequence of commands, events, results, cancellations and the end of the
    replay, then possibly a result read ahead from history, and any further
    sequence in which the replay does not end. *)
Theorem local_activity_resolves_at_most_once a replaying pre wf_time now fl fl' m mr
    (l1 : list (input LaOp)) (known : option ResolveDat) (l2 : list (input LaReplayOp)) :
  new_local_activity a replaying pre wf_time now fl = (fl', Ok (m, mr)) ->
  let '(s1, r1) := drive (SM := LocalActivityMachine) op_sem l1 (m, fl') in
  let '(s2, r2) := match known with
                   | Some dat => let '(s, r) := try_resolve_with_dat dat s1 in (s, outputs r)
                   | None => (s1, [])
                   end in
  let '(_, r3) := drive (SM := LocalActivityMachine) replay_op_sem l2 s2 in
  sum_list_with is_resolution (mr ++ r1 ++ r2 ++ r3) <= 1.
Proof.
  intros Hn. apply new_local_activity_budget in Hn as [HI Hb].
  destruct (drive op_sem l1 (m, fl')) as [[m1 fl1] r1] eqn:H1.
  apply drive_la in H1 as [HI1 H1]; [|done].
  assert (forall s2 r2, match known with
    | Some dat => let '(s, r) := try_resolve_with_dat dat (m1, fl1) in (s, outputs r)
    | None => ((m1, fl1), [])
    end = (s2, r2) -> la_I false s2.1 /\
      sum_list_with is_resolution r2 + la_budget s2.1 <= la_budget m1) as Hk.
  { intros [m2 fl2] r2. destruct known as [dat|].
    - destruct (try_resolve_with_dat _ _) as [[m3 fl3] r] eqn:Hr. intros [= <- <- <-].
      by apply (known_budget dat) in Hr.
    - intros [= <- <- <-]. simpl. split; [|lia].
      unfold machine_I, inv in *. by destruct (state m1) as [[| | | | | | |[]|]|]. }
  destruct (match known with Some _ => _ | None => _ end) as [[m2 fl2] r2].
  destruct (Hk _ _ eq_refl) as [HI2 H2]. simpl in *.
  destruct (drive replay_op_sem l2 (m2, fl2)) as [[m3 fl3] r3] eqn:H3.
  apply drive_la_replay in H3 as [_ H3]; [|done]. rewrite !sum_list_with_app. lia.
Qed.

(** (error): a scheduled local activity can be cancelled exactly when its marker
    has not been created or has been recorded; in between, while the marker
    command is outstanding, cancelling it is an invalid transition. *)
Theorem local_activity_cancel_accepted (s : LocalActivityMachineState) (sh : SharedState)
    (fl : InternalFlags) :
  match s with Executing | Replaying | ReplayingPreResolved _ => False | _ => True end ->
  (cancel (from_parts (SM := LocalActivityMachine) s sh, fl)).2 = Err InvalidTransition
  <-> exists rt, s = MarkerCommandCreated rt \/ s = ResultNotified rt.
Proof.
  unfold cancel. destruct s; simpl; try done; intros _;
    destruct (la_cancellation_type (attrs sh)); simpl; try (unfold recorded_on_no_wait_cancel);
    split; try naive_solver; by rewrite adapt_resolved.
Qed.

End properties.

(** ** The properties at a concrete activity *)

Definition example_attrs : ValidScheduleLA :=
  {| la_seq := 1; la_activity_id := "1"; la_activity_type := "t"; la_attempt := 1;
     la_original_schedule_time := None; la_headers := ∅; la_arguments := [];
     la_schedule_to_start_timeout := None; la_close_timeouts := StartOnly 5000000000;
     la_retry_policy := RetryPolicy_default; la_local_retry_threshold := 60000000000;
     la_cancellation_type := ACT_WaitCancellationCompleted |}.

Definition example_shared (replaying : bool) : SharedState :=
  {| attrs := example_attrs; replaying_when_invoked := replaying; wf_time_when_started := None |}.

Definition example_dat (r : LocalActivityExecutionResult) : ResolveDat :=
  {| result := r; complete_time := None; attempt := 1; backoff := None;
     original_schedule_time := None |}.

Definition example_timeout : LocalActivityExecutionResult :=
  LAR_TimedOut {| ar_Failure_failure := Some (mkFailure "Activity timed out" "" "" None None
    (Some (FI_Timeout {| TimeoutFailureInfo_timeout_type := TimeoutType_as_i32 TimeoutType_StartToClose;
                         TimeoutFailureInfo_last_heartbeat_details := None |}))) |}.

Definition example_success : LocalActivityExecutionResult :=
  LAR_Completed {| ar_Success_result :=
    Some {| Payload_metadata := ∅; Payload_data := "ok" |} |}.

Lemma example_encodes r :
  marker_encodes (H := example_time) (HJ := example_la_json) (example_shared false) (example_dat r).
Proof. split; [by eexists|done]. Qed.


Lemma local_activity_replay_disagrees_witness :
  exists resolution,
    resolution <> resolution_of (H := example_time) (example_shared false)
                    (example_dat example_timeout).
Proof.
  destruct (local_activity_replay_disagrees (HW := example_time) (HJ := example_la_json)
    (HL := example_la_json_laws) (example_shared false) (example_dat example_timeout) example_flags
    (example_encodes _) eq_refl eq_refl) as (res & _ & resolution & _ & Hr).
  exists resolution. exact Hr.
Defined.

Lemma local_activity_resolves_at_most_once_witness :
  let m := from_parts (SM := LocalActivityMachine (H := example_time)) RequestSent
    {| attrs := set_original_schedule_time 7 example_attrs; replaying_when_invoked := false;
       wf_time_when_started := None |} in
  sum_list_with is_resolution
    (drive (SM := LocalActivityMachine (H := example_time))
       (HT := LocalActivityMachine_temporal (H := example_time) (HJ := example_la_json))
       (op_sem (HW := example_time) (HJ := example_la_json))
       [InOp OpCancel; InOp (OpResult example_success 1 1 None None);
        InOp (OpResult example_success 1 1 None None)] (m, example_flags)).2 <= 1.
Proof.
  intros m.
  pose proof (local_activity_resolves_at_most_once (HW := example_time) (HJ := example_la_json)
    example_attrs false None None 7 example_flags example_flags m
    [QueueLocalActivity (set_original_schedule_time 7 example_attrs)]
    [InOp OpCancel; InOp (OpResult example_success 1 1 None None);
     InOp (OpResult example_success 1 1 None None)] None [] eq_refl) as Hw.
  destruct (drive _ _ _) as [s1 r1]. simpl in *. by rewrite app_nil_r in Hw.
Defined.

Lemma local_activity_cancel_accepted_witness :
  (cancel (H := example_time) (HJ := example_la_json)
     (from_parts (SM := LocalActivityMachine (H := example_time)) (ResultNotified RtCompleted)
        (example_shared false), example_flags)).2 = Err InvalidTransition.
Proof.
  apply (local_activity_cancel_accepted (HW := example_time) (HJ := example_la_json)
    (ResultNotified RtCompleted) (example_shared false) example_flags Logic.I).
  exists RtCompleted. right. reflexivity.
Defined.

End LocalActivity.
