(* ===== verification/WorkflowTaskMachine.v ===== *)
(** * Workflow tasks (machines/workflow_task_state_machine.rs)

    The machine of one workflow task of history; it tells the workflow machines
    when the task starts, which is when lang is activated. *)
From Stdlib Require Import ZArith Lia.
From stdpp Require Import base option list strings gmap.
From S2P Require Import Prelude Flags Protos ProtoExt CoreProtos Fsm.

Module WFTask.

(** [Started] keeps the started event's timestamp and id. *)
Inductive WorkflowTaskMachineState :=
| Created
| Scheduled
| Started (current_time_millis : Z) (started_event_id : Z)
| Completed
| Failed
| TimedOut.

(** [WorkflowTaskStarted] carries [WFTStartedDat], [WorkflowTaskFailed] the
    [new_run_id] of [WFTFailedDat]. *)
Inductive WorkflowTaskMachineEvents :=
| WorkflowTaskScheduled
| WorkflowTaskStarted (current_time_millis : Z) (started_event_id : Z)
| WorkflowTaskTimedOut
| WorkflowTaskCompleted
| WorkflowTaskFailed (new_run_id : option string).

Inductive WFTaskMachineCommand :=
| WFTaskStartedTrigger (task_started_event_id : Z) (time : Z)
| RunIdOnWorkflowResetUpdate (run_id : string).

Record SharedState := { wf_task_started_event_id : Z }.

Definition state_display (s : WorkflowTaskMachineState) : string :=
  match s with
  | Created => "Created"
  | Scheduled => "Scheduled"
  | Started _ _ => "Started"
  | Completed => "Completed"
  | Failed => "Failed"
  | TimedOut => "TimedOut"
  end.

Definition transition (s : WorkflowTaskMachineState) (e : WorkflowTaskMachineEvents)
  : option (Handler SharedState WorkflowTaskMachineState WFTaskMachineCommand) :=
  match s, e with
  | Created, WorkflowTaskScheduled => Some (pure_handler (TrTo Scheduled))
  | Scheduled, WorkflowTaskStarted time id =>
      Some (reading (fun sh =>
        TrOk [WFTaskStartedTrigger sh.(wf_task_started_event_id) time] (Started time id)))
  | Scheduled, WorkflowTaskTimedOut => Some (pure_handler (TrTo TimedOut))
  | Started time id, WorkflowTaskCompleted =>
      Some (pure_handler (TrOk [WFTaskStartedTrigger id time] Completed))
  | Started _ _, WorkflowTaskFailed new_run_id =>
      Some (pure_handler (TrOk
        match new_run_id with
        | Some run_id => [RunIdOnWorkflowResetUpdate run_id]
        | None => []
        end Failed))
  | Started _ _, WorkflowTaskTimedOut => Some (pure_handler (TrTo TimedOut))
  | _, _ => None
  end.

Definition is_final (s : WorkflowTaskMachineState) : bool :=
  match s with Completed | Failed | TimedOut => true | _ => false end.

Definition WorkflowTaskMachine : StateMachine :=
  {| State := WorkflowTaskMachineState; Fsm.SharedState := SharedState;
     Event := WorkflowTaskMachineEvents; SmCommand := WFTaskMachineCommand;
     sm_name := "WorkflowTaskMachine"; Fsm.state_display := state_display;
     Fsm.transition := transition; Fsm.is_final := is_final |}.

Definition adapt_response (m : machine WorkflowTaskMachine) (c : WFTaskMachineCommand)
    (event_info : option EventInfo) : outcome WFMachinesError (list MachineResponse) :=
  match c with
  | WFTaskStartedTrigger task_started_event_id time =>
      match event_info with
      | None =>
          Err (Fatal "WF Task machine should never issue a task started trigger command in response to non-history events")
      | Some ei =>
          let cur_event_past_or_at_start :=
            (task_started_event_id <=? ei.(ei_event_id))%Z in
          if decide (ei.(ei_event_type) = ET_WorkflowTaskStarted) then
            if cur_event_past_or_at_start
            then Ok [TriggerWFTaskStarted task_started_event_id time] else Ok []
          else Ok [TriggerWFTaskStarted task_started_event_id time]
      end
  | RunIdOnWorkflowResetUpdate run_id => Ok [UpdateRunIdOnWorkflowReset run_id]
  end.

Definition event_from_command (c : CommandType) : option WorkflowTaskMachineEvents := None.

Section history.
  Context `{WktTime}.

Definition event_from_history (d : HistEventData)
  : outcome WFMachinesError WorkflowTaskMachineEvents :=
  let e := d.(event) in
  match event_type e with
  | ET_WorkflowTaskScheduled => Ok WorkflowTaskScheduled
  | ET_WorkflowTaskStarted =>
      match e.(HistoryEvent_event_time) with
      | Some time =>
          match timestamp_try_into time with
          | Some t => Ok (WorkflowTaskStarted t e.(HistoryEvent_event_id))
          | None => Err (Fatal "Workflow task started event timestamp was inconvertible")
          end
      | None =>
          Err (Fatal ("Workflow task started event must contain timestamp: "
                      +:+ HistoryEvent_display e))
      end
  | ET_WorkflowTaskTimedOut => Ok WorkflowTaskTimedOut
  | ET_WorkflowTaskCompleted => Ok WorkflowTaskCompleted
  | ET_WorkflowTaskFailed =>
      match e.(HistoryEvent_attributes) with
      | Some (HA_WorkflowTaskFailed a) =>
          Ok (WorkflowTaskFailed
            match WorkflowTaskFailedCause_try_from a.(WorkflowTaskFailedEv_cause) with
            | Some WTFC_ResetWorkflow => Some a.(WorkflowTaskFailedEv_new_run_id)
            | _ => None
            end)
      | Some _ => Ok (WorkflowTaskFailed None)
      | None =>
          Err (Fatal ("Workflow task failed is missing attributes: " +:+ HistoryEvent_display e))
      end
  | _ =>
      Err (Nondeterminism ("Event does not apply to a wf task machine: "
                           +:+ HistoryEvent_display e))
  end.

#[global] Instance WorkflowTaskMachine_temporal : TemporalStateMachine WorkflowTaskMachine.
Proof.
  refine {| try_from_hist_event := event_from_history : _ -> outcome _ (Event WorkflowTaskMachine);
            try_from_command_type := event_from_command : _ -> option (Event WorkflowTaskMachine);
            Fsm.adapt_response := adapt_response |}.
  intros s. split; [by destruct s; try done; intros _ []|]. intros Hs.
  destruct s; first [ done | discriminate (Hs WorkflowTaskScheduled)
    | discriminate (Hs WorkflowTaskTimedOut) ].
Defined.

End history.

Definition new (wf_task_started_event_id : Z) : machine WorkflowTaskMachine :=
  from_parts (SM := WorkflowTaskMachine) Created
    {| wf_task_started_event_id := wf_task_started_event_id |}.

(** ** Properties *)

(** A history event of a workflow task. *)
Definition wft_event (ty : EventType) (id : Z) (time : Timestamp) : HistEventData :=
  {| event := {| HistoryEvent_event_id := id; HistoryEvent_event_time := Some time;
                 HistoryEvent_event_type := EventType_as_i32 ty; HistoryEvent_version := 0;
                 HistoryEvent_task_id := 0; HistoryEvent_worker_may_ignore := false;
                 HistoryEvent_user_metadata := None; HistoryEvent_attributes := None |};
     replaying := true; current_task_is_last_in_history := false |}.

(** (functional): the machine of a task that was created for the started event
    [last] and sees its task scheduled, started at event [id] and completed,
    reports the start once when [id] precedes [last] (only with the completion,
    with its own id), and twice otherwise, first for [last] and then for [id];
    the time is the started event's. *)
Theorem wft_start_reported `{WktTime} (last id0 id id2 : Z) (time : Timestamp) (t : Z)
    (fl : InternalFlags) :
  timestamp_try_into time = Some t ->
  drive (SM := WorkflowTaskMachine) no_op
    [ InEvent (wft_event ET_WorkflowTaskScheduled id0 time);
      InEvent (wft_event ET_WorkflowTaskStarted id time);
      InEvent (wft_event ET_WorkflowTaskCompleted id2 time) ] (new last, fl) =
  ((from_parts (SM := WorkflowTaskMachine) Completed {| wf_task_started_event_id := last |}, fl),
   (if (last <=? id)%Z then [TriggerWFTaskStarted last t] else [])
     ++ [TriggerWFTaskStarted id t]).
Proof.
  destruct H as [tt tf dt df]. intros Ht. cbn in Ht. cbn -[Z.leb]. unfold handle_event at 1.
  cbn -[Z.leb]. rewrite Ht. cbn -[Z.leb]. by destruct (last <=? id)%Z.
Qed.

Lemma wft_start_reported_witness :
  timestamp_try_into (WktTime := example_time) {| Timestamp_seconds := 5; Timestamp_nanos := 0 |}
    = Some 5000000000%Z /\
  (drive (SM := WorkflowTaskMachine) (HT := WorkflowTaskMachine_temporal (H := example_time))
     no_op
     [ InEvent (wft_event ET_WorkflowTaskScheduled 2 {| Timestamp_seconds := 5; Timestamp_nanos := 0 |});
       InEvent (wft_event ET_WorkflowTaskStarted 3 {| Timestamp_seconds := 5; Timestamp_nanos := 0 |});
       InEvent (wft_event ET_WorkflowTaskCompleted 4 {| Timestamp_seconds := 5; Timestamp_nanos := 0 |}) ]
     (new 9, InternalFlags_new true "core" "1")).2 = [TriggerWFTaskStarted 3 5000000000].
Proof.
  split; [reflexivity|].
  rewrite (wft_start_reported (H := example_time) 9 2 3 4
    {| Timestamp_seconds := 5; Timestamp_nanos := 0 |} 5000000000 (InternalFlags_new true "core" "1") eq_refl).
  reflexivity.
Defined.

End WFTask.
