(* ===== verification/UpdateMachine.v ===== *)
(** * Workflow updates (machines/update_state_machine.rs)

    The encoding of protocol message bodies belongs to [prost] and is the
    interface [UpdateEncode]. *)
From Stdlib Require Import ZArith Lia.
From stdpp Require Import base option list strings gmap.
From S2P Require Import Prelude Flags Protos ProtoExt CoreProtos Fsm.

(** [prost::Message::encode] at the three body types; an error is its [Debug]
    text. *)
Class UpdateEncode := {
  encode_acceptance : Acceptance -> string + string;
  encode_rejection : Rejection -> string + string;
  encode_response : Response -> string + string;
}.

(** [pack_any] (sdk-core-protos/src/utilities.rs), given the encoding of the
    message. *)
Definition pack_any (type_url : string) (encoded : string + string) : outcome string Any :=
  match encoded with
  | inr value => Ok {| Any_type_url := type_url; Any_value := value |}
  | inl e => Err e
  end.

Module Update.

(** [RequestInitiated] keeps the original request. *)
Inductive UpdateMachineState :=
| RequestInitiated (original_request : Request)
| Accepted
| AcceptCommandCreated
| AcceptCommandRecorded
| Completed
| CompletedCommandCreated
| CompletedCommandRecorded
| Rejected
| CompletedImmediately
| CompletedImmediatelyAcceptCreated
| CompletedImmediatelyCompleteCreated.

Inductive UpdateMachineEvents :=
| Accept
| Reject (f : Failure)
| Complete (p : Payload)
| CommandProtocolMessage
| WorkflowExecutionUpdateAccepted
| WorkflowExecutionUpdateCompleted.

Inductive UpdateMachineCommand :=
| CmdAccept (r : Request)
| CmdReject (r : Request) (f : Failure)
| CmdComplete (p : Payload)
| CmdFail (f : Failure).

Record SharedState := {
  message_id : string;
  instance_id : string;
  event_seq_id : Z;
  meta : Meta;
}.

Definition state_display (s : UpdateMachineState) : string :=
  match s with
  | RequestInitiated _ => "RequestInitiated"
  | Accepted => "Accepted"
  | AcceptCommandCreated => "AcceptCommandCreated"
  | AcceptCommandRecorded => "AcceptCommandRecorded"
  | Completed => "Completed"
  | CompletedCommandCreated => "CompletedCommandCreated"
  | CompletedCommandRecorded => "CompletedCommandRecorded"
  | Rejected => "Rejected"
  | CompletedImmediately => "CompletedImmediately"
  | CompletedImmediatelyAcceptCreated => "CompletedImmediatelyAcceptCreated"
  | CompletedImmediatelyCompleteCreated => "CompletedImmediatelyCompleteCreated"
  end.

Definition transition (s : UpdateMachineState) (e : UpdateMachineEvents)
  : option (Handler SharedState UpdateMachineState UpdateMachineCommand) :=
  match s, e with
  | RequestInitiated r, Accept => Some (pure_handler (TrOk [CmdAccept r] Accepted))
  | RequestInitiated r, Reject f => Some (pure_handler (TrOk [CmdReject r f] Rejected))
  | Accepted, Complete p => Some (pure_handler (TrOk [CmdComplete p] CompletedImmediately))
  | Accepted, Reject f => Some (pure_handler (TrOk [CmdFail f] CompletedImmediately))
  | Accepted, CommandProtocolMessage => Some (pure_handler (TrTo AcceptCommandCreated))
  | AcceptCommandCreated, WorkflowExecutionUpdateAccepted =>
      Some (pure_handler (TrTo AcceptCommandRecorded))
  | AcceptCommandCreated, Complete p =>
      Some (pure_handler (TrOk [CmdComplete p] CompletedImmediatelyAcceptCreated))
  | AcceptCommandCreated, Reject f =>
      Some (pure_handler (TrOk [CmdFail f] CompletedImmediatelyAcceptCreated))
  | AcceptCommandRecorded, Complete p => Some (pure_handler (TrOk [CmdComplete p] Completed))
  | AcceptCommandRecorded, Reject f => Some (pure_handler (TrOk [CmdFail f] Completed))
  | Completed, CommandProtocolMessage => Some (pure_handler (TrTo CompletedCommandCreated))
  | CompletedCommandCreated, WorkflowExecutionUpdateCompleted =>
      Some (pure_handler (TrTo CompletedCommandRecorded))
  | CompletedImmediately, CommandProtocolMessage =>
      Some (pure_handler (TrTo CompletedImmediatelyAcceptCreated))
  | CompletedImmediatelyAcceptCreated, CommandProtocolMessage =>
      Some (pure_handler (TrTo CompletedImmediatelyCompleteCreated))
  | CompletedImmediatelyCompleteCreated, WorkflowExecutionUpdateAccepted =>
      Some (pure_handler (TrTo CompletedCommandCreated))
  | _, _ => None
  end.

Definition is_final (s : UpdateMachineState) : bool :=
  match s with CompletedCommandRecorded | Rejected => true | _ => false end.

Definition UpdateMachine : StateMachine :=
  {| State := UpdateMachineState; Fsm.SharedState := SharedState;
     Event := UpdateMachineEvents; SmCommand := UpdateMachineCommand;
     sm_name := "UpdateMachine"; Fsm.state_display := state_display;
     Fsm.transition := transition; Fsm.is_final := is_final |}.

Definition event_from_history (d : HistEventData)
  : outcome WFMachinesError UpdateMachineEvents :=
  match event_type d.(event) with
  | ET_WorkflowExecutionUpdateAccepted => Ok WorkflowExecutionUpdateAccepted
  | ET_WorkflowExecutionUpdateCompleted => Ok WorkflowExecutionUpdateCompleted
  | _ => Err (Nondeterminism
      ("Update machine does not handle this event: " +:+ HistoryEvent_display d.(event)))
  end.

Definition event_from_command (c : CommandType) : option UpdateMachineEvents :=
  match c with
  | CT_ProtocolMessage => Some CommandProtocolMessage
  | _ => None
  end.

(** ** Outgoing messages *)

Inductive UpdateMsg :=
| MsgAccept (m : Acceptance)
| MsgReject (m : Rejection)
| MsgResponse (m : Response).

Section messages.
  Context `{UpdateEncode}.

Definition pack (m : UpdateMsg) : outcome string Any :=
  match m with
  | MsgAccept m =>
      pack_any "type.googleapis.com/temporal.api.update.v1.Acceptance" (encode_acceptance m)
  | MsgReject m =>
      pack_any "type.googleapis.com/temporal.api.update.v1.Rejection" (encode_rejection m)
  | MsgResponse m =>
      pack_any "type.googleapis.com/temporal.api.update.v1.Response" (encode_response m)
  end.

Definition build_msg (m : machine UpdateMachine) (outgoing_id : string) (msg : UpdateMsg)
  : outcome WFMachinesError MachineResponse :=
  accept_body ← map_err (fun e => Fatal ("Failed to serialize update response: " +:+ e))
                        (pack msg);
  Ok (IssueNewMessage
    {| Message_id := outgoing_id;
       Message_protocol_instance_id := m.(shared_state).(instance_id);
       Message_sequencing_id := None;
       Message_body := Some accept_body |}).

Definition build_command_msg (m : machine UpdateMachine) (outgoing_id : string) (msg : UpdateMsg)
  : outcome WFMachinesError (list MachineResponse) :=
  message ← build_msg m outgoing_id msg;
  command ← Command_from (CA_ProtocolMessage
              {| ProtocolMessageCmd_message_id := outgoing_id |});
  Ok [message; IssueNewCommand command].

Definition adapt_response (m : machine UpdateMachine) (c : UpdateMachineCommand)
    (_ : option EventInfo) : outcome WFMachinesError (list MachineResponse) :=
  let sh := m.(shared_state) in
  match c with
  | CmdAccept orig =>
      build_command_msg m (sh.(message_id) +:+ "/accept")
        (MsgAccept {| Acceptance_accepted_request_message_id := sh.(message_id);
                      Acceptance_accepted_request_sequencing_event_id := sh.(event_seq_id);
                      Acceptance_accepted_request := Some orig |})
  | CmdReject orig fail =>
      msg ← build_msg m (sh.(message_id) +:+ "/reject")
        (MsgReject {| Rejection_rejected_request_message_id := sh.(message_id);
                      Rejection_rejected_request_sequencing_event_id := sh.(event_seq_id);
                      Rejection_rejected_request := Some orig;
                      Rejection_failure := Some fail |});
      Ok [msg]
  | CmdComplete p =>
      build_command_msg m (sh.(message_id) +:+ "/complete")
        (MsgResponse {| Response_meta := Some sh.(meta);
                        Response_outcome := Some
                          {| Outcome_value := Some (Outcome_Success (Payloads_from p)) |} |})
  | CmdFail f =>
      build_command_msg m (sh.(message_id) +:+ "/complete")
        (MsgResponse {| Response_meta := Some sh.(meta);
                        Response_outcome := Some
                          {| Outcome_value := Some (Outcome_Failure f) |} |})
  end.

#[global] Instance UpdateMachine_temporal : TemporalStateMachine UpdateMachine.
Proof.
  refine {| try_from_hist_event := event_from_history : _ -> outcome _ (Event UpdateMachine);
            try_from_command_type := event_from_command : _ -> option (Event UpdateMachine);
            Fsm.adapt_response := adapt_response |}.
  intros s. split; [by destruct s; try done; intros _ []|]. intros Hs.
  destruct s; first [ done | discriminate (Hs Accept) | discriminate (Hs CommandProtocolMessage)
    | discriminate (Hs WorkflowExecutionUpdateAccepted)
    | discriminate (Hs WorkflowExecutionUpdateCompleted)
    | discriminate (Hs (Complete {| Payload_metadata := ∅; Payload_data := "" |})) ].
Defined.

(** ** Operations *)

Definition init (message_id instance_id : string) (event_seq_id : Z) (request : UpdateRequest)
    (replaying : bool) : outcome WFMachinesError (machine UpdateMachine * MachineResponse) :=
  meta ← UpdateRequest_meta request;
  name ← UpdateRequest_name request;
  input ← UpdateRequest_input request;
  headers ← UpdateRequest_headers request;
  let do_update :=
    {| DoUpdate_id := meta.(Meta_update_id);
       DoUpdate_protocol_instance_id := instance_id;
       DoUpdate_name := name;
       DoUpdate_input := input;
       DoUpdate_headers := headers;
       DoUpdate_meta := Some meta;
       DoUpdate_run_validator := negb replaying |} in
  Ok (from_parts (SM := UpdateMachine) (RequestInitiated request.(original))
        {| message_id := message_id; instance_id := instance_id;
           event_seq_id := event_seq_id; meta := meta |},
      PushWFJob (J_DoUpdate do_update)).

Definition handle_response (resp : UpdateResponse) : MachineM UpdateMachine (list MachineResponse) :=
  fun '(m, fl) =>
    let update_id := m.(shared_state).(meta).(Meta_update_id) in
    match resp.(UpdateResponse_response) with
    | None =>
        ((m, fl), Err (Fatal
          ("Update response for update " +:+ update_id
           +:+ " had an empty result, this is a lang layer bug.")))
    | Some r =>
        let ev := match r with
                  | UpdateResponse_Accepted _ => Accept
                  | UpdateResponse_Rejected f => Reject f
                  | UpdateResponse_Completed p => Complete p
                  end in
        match on_event (SM := UpdateMachine) ev (m, fl) with
        | ((m, fl), Ok cmds) => ((m, fl), process_machine_commands m cmds None)
        | ((m, fl), Err InvalidTransition) =>
            ((m, fl),
             st ← get_state m;
             Err (Nondeterminism
               ("Invalid transition while handling update response (id " +:+ update_id
                +:+ ") in state " +:+ state_display st)))
        | (s', Err (Underlying e)) => (s', Err e)
        | (s', Panic msg) => (s', Panic msg)
        end
    end.

(** ** Properties *)

(** An update is answered by an acceptance or a rejection, and ends with a
    rejection or a response. *)
Inductive phase := AnswerPhase | EndPhase.

Definition body_is (url : string) (m : Message) : bool :=
  match m.(Message_body) with
  | Some b => String.eqb b.(Any_type_url) ("type.googleapis.com/temporal.api.update.v1." +:+ url)
  | None => false
  end.

Definition weight (p : phase) (r : MachineResponse) : nat :=
  match p, r with
  | AnswerPhase, IssueNewMessage m => Nat.b2n (body_is "Acceptance" m || body_is "Rejection" m)
  | EndPhase, IssueNewMessage m => Nat.b2n (body_is "Rejection" m || body_is "Response" m)
  | _, _ => 0
  end.

Definition cost (p : phase) (sh : SharedState) (c : UpdateMachineCommand) : nat :=
  match p, c with
  | AnswerPhase, (CmdAccept _ | CmdReject _ _) => 1
  | EndPhase, (CmdReject _ _ | CmdComplete _ | CmdFail _) => 1
  | _, _ => 0
  end.

Definition budget (p : phase) (s : UpdateMachineState) (sh : SharedState) : nat :=
  match p, s with
  | _, RequestInitiated _ => 1
  | EndPhase, (Accepted | AcceptCommandCreated | AcceptCommandRecorded) => 1
  | _, _ => 0
  end.

Definition inv (s : UpdateMachineState) (sh : SharedState) : Prop := True.

Lemma update_transition_ok p s ev h sh fl sh' fl' cmds s' :
  True -> transition s ev = Some h -> inv s sh -> h sh fl = (sh', fl', TrOk cmds s') ->
  inv s' sh' /\ sum_list_with (cost p sh') cmds + budget p s' sh' <= budget p s sh.
Proof.
  intros _ Ht _ Hh. split; [done|].
  destruct p, s, ev; simplify_eq/=; unfold pure_handler in *; simplify_eq/=; lia.
Qed.

Lemma build_msg_weight p m id msg r :
  build_msg m id msg = Ok r ->
  weight p r = match p, msg with
               | AnswerPhase, (MsgAccept _ | MsgReject _) => 1
               | EndPhase, (MsgReject _ | MsgResponse _) => 1
               | _, _ => 0
               end.
Proof.
  unfold build_msg, pack, pack_any. intros Hb.
  destruct msg as [a|a|a]; simpl in Hb;
    [destruct (encode_acceptance a)|destruct (encode_rejection a)|destruct (encode_response a)];
    simplify_eq/=; by destruct p.
Qed.

Lemma update_adapt_ok p s sh cmd info resps :
  Fsm.adapt_response (SM := UpdateMachine) (from_parts s sh) cmd info = Ok resps ->
  sum_list_with (weight p) resps <= cost p sh cmd.
Proof.
  destruct cmd; cbn -[build_msg]; unfold build_command_msg;
    (destruct (build_msg _ _ _) as [msg| |] eqn:Hb; [|done|done]);
    apply (build_msg_weight p) in Hb; cbn -[weight]; intros [= <-];
    destruct p; cbn [sum_list_with]; rewrite Hb; simpl; lia.
Qed.

(** Every response of a machine to an answer of lang is that of its transition. *)
Lemma update_op_ok p op m fl m' fl' r :
  machine_I (SM := UpdateMachine) inv m -> handle_response op (m, fl) = ((m', fl'), r) ->
  machine_I (SM := UpdateMachine) inv m' /\
  sum_list_with (weight p) (outputs r)
  + machine_budget (SM := UpdateMachine) (budget p) m'
  <= machine_budget (SM := UpdateMachine) (budget p) m.
Proof.
  intros HI. unfold handle_response.
  destruct (UpdateResponse_response op) as [resp|]; [|intros [= <- <- <-]; simpl; auto with lia].
  cbv zeta. set (ev := match resp with UpdateResponse_Accepted _ => _ | _ => _ end). clearbody ev.
  destruct (on_event (SM := UpdateMachine) ev (m, fl)) as [[m1 fl1] r1] eqn:He. intros Hh.
  pose proof (on_event_process_budget (SM := UpdateMachine) (HT := UpdateMachine_temporal)
    (fun _ => True) inv (budget p) (cost p) (weight p) (update_transition_ok p) (update_adapt_ok p)
    ev m fl m1 fl1 r1 (Panic "") None eq_refl Logic.I HI He) as Hb.
  destruct r1 as [c|[|e]|msg]; simplify_eq; try done. by destruct (get_state m').
Qed.

Lemma drive_update p l m fl m' fl' resps :
  machine_I (SM := UpdateMachine) inv m ->
  drive (SM := UpdateMachine) handle_response l (m, fl) = ((m', fl'), resps) ->
  machine_I (SM := UpdateMachine) inv m' /\
  sum_list_with (weight p) resps
  + machine_budget (SM := UpdateMachine) (budget p) m'
  <= machine_budget (SM := UpdateMachine) (budget p) m.
Proof.
  apply (drive_budget (SM := UpdateMachine) (HT := UpdateMachine_temporal) handle_response
    (fun _ => True) inv (budget p) (cost p) (weight p) (update_transition_ok p)
    (fun _ _ _ => Logic.I) (fun _ _ _ => Logic.I) (update_adapt_ok p) (update_op_ok p)).
Qed.

(** (safety): however an update is driven, the server is sent at most one
    acceptance or rejection of it, and at most one rejection or response. *)
Theorem update_answered_at_most_once (p : phase) mid iid seq req replaying m job
    (fl : InternalFlags) (l : list (input UpdateResponse)) :
  init mid iid seq req replaying = Ok (m, job) ->
  sum_list_with (weight p) (drive (SM := UpdateMachine) handle_response l (m, fl)).2 <= 1.
Proof.
  intros Hi. destruct (drive _ l _) as [[m' fl'] resps] eqn:Hd.
  apply (drive_update p) in Hd as [_ Hd]; [|by unfold machine_I, inv; destruct (state m)].
  assert (machine_budget (SM := UpdateMachine) (budget p) m = 1) as Hm; [|simpl in *; lia].
  unfold init in Hi. bind_Ok. simplify_eq. by destruct p.
Qed.

(** An answer of lang. *)
Definition answer (r : UpdateResponse_Response) : input UpdateResponse :=
  InOp {| UpdateResponse_protocol_instance_id := ""; UpdateResponse_response := Some r |}.

(** The orders in which an accepted update runs: lang completes it in the task
    that accepts it, after the acceptance was sent and before it is in history
    (a local activity in the handler), or in a later task. *)
Inductive timing := Immediately | BeforeRecorded | Later.

Definition lifecycle (t : timing) (result : UpdateResponse_Response)
    (accepted completed : HistEventData) : list (input UpdateResponse) :=
  let accept := answer (UpdateResponse_Accepted tt) in
  let sent := InCommand CT_ProtocolMessage in
  match t with
  | Immediately =>
      [accept; answer result; sent; sent; InEvent accepted; InEvent completed]
  | BeforeRecorded =>
      [accept; sent; answer result; sent; InEvent accepted; InEvent completed]
  | Later =>
      [accept; sent; InEvent accepted; answer result; sent; InEvent completed]
  end.

Abbreviation at_state s sh fl := (from_parts (SM := UpdateMachine) s sh, fl).

Lemma step_answer r s s' c sh fl msgs l :
  transition s (match r with
                | UpdateResponse_Accepted _ => Accept
                | UpdateResponse_Rejected f => Reject f
                | UpdateResponse_Completed p => Complete p
                end) = Some (pure_handler (TrOk [c] s')) ->
  adapt_response (from_parts (SM := UpdateMachine) s' sh) c None = Ok msgs ->
  drive (SM := UpdateMachine) handle_response (answer r :: l) (at_state s sh fl) =
  (let '(s2, rest) := drive (SM := UpdateMachine) handle_response l (at_state s' sh fl) in
   (s2, msgs ++ rest)).
Proof.
  intros Ht Ha.
  assert (process_machine_commands (SM := UpdateMachine)
    (from_parts (SM := UpdateMachine) s' sh) [c] None = Ok msgs)
    as Hp by (change (mbind (M := outcome WFMachinesError) (fun r1 => Ok (r1 ++ []))
      (adapt_response (from_parts (SM := UpdateMachine) s' sh) c None) = Ok msgs); rewrite Ha;
      simpl; by rewrite app_nil_r).
  cbn [drive drive_one]. unfold answer, handle_response, on_event.
  cbn -[process_machine_commands]. rewrite Ht. cbn -[process_machine_commands].
  match goal with |- context [process_machine_commands ?a ?b ?i] =>
    replace (process_machine_commands a b i) with (Ok (E := WFMachinesError) msgs)
      by (symmetry; exact Hp) end.
  reflexivity.
Qed.

Lemma step_sent s s' sh fl l :
  transition s CommandProtocolMessage = Some (pure_handler (TrTo s')) ->
  drive (SM := UpdateMachine) handle_response (InCommand CT_ProtocolMessage :: l) (at_state s sh fl) =
  drive (SM := UpdateMachine) handle_response l (at_state s' sh fl).
Proof.
  intros Ht. cbn. unfold on_event. cbn. rewrite Ht. cbn. by destruct (drive _ l _).
Qed.

Lemma step_recorded d ev s s' sh fl l :
  event_from_history d = Ok ev -> transition s ev = Some (pure_handler (TrTo s')) ->
  drive (SM := UpdateMachine) handle_response (InEvent d :: l) (at_state s sh fl) =
  drive (SM := UpdateMachine) handle_response l (at_state s' sh fl).
Proof.
  intros Hd Ht. cbn. unfold handle_event. simpl. rewrite Hd. unfold on_event. simpl. rewrite Ht.
  simpl. by destruct (drive _ l _).
Qed.

(** (functional): in each of these orders the machine ends with its completion
    recorded and has issued exactly the acceptance with its command and the
    outcome with its command, in that order. *)
Theorem update_lifecycle (t : timing) (req : Request) (sh : SharedState) (fl : InternalFlags)
    (result : UpdateResponse_Response) (accepted completed : HistEventData) accept_msgs end_msgs :
  event_type accepted.(event) = ET_WorkflowExecutionUpdateAccepted ->
  event_type completed.(event) = ET_WorkflowExecutionUpdateCompleted ->
  adapt_response (from_parts (SM := UpdateMachine) Accepted sh) (CmdAccept req) None
    = Ok accept_msgs ->
  match result with
  | UpdateResponse_Completed p =>
      adapt_response (from_parts (SM := UpdateMachine) Completed sh) (CmdComplete p) None
        = Ok end_msgs
  | UpdateResponse_Rejected f =>
      adapt_response (from_parts (SM := UpdateMachine) Completed sh) (CmdFail f) None
        = Ok end_msgs
  | UpdateResponse_Accepted _ => False
  end ->
  drive (SM := UpdateMachine) handle_response (lifecycle t result accepted completed)
    (from_parts (SM := UpdateMachine) (RequestInitiated req) sh, fl) =
  ((from_parts (SM := UpdateMachine) CompletedCommandRecorded sh, fl), accept_msgs ++ end_msgs).
Proof.
  intros Ha Hc Hacc Hend.
  assert (event_from_history accepted = Ok WorkflowExecutionUpdateAccepted) as HA
    by (unfold event_from_history; by rewrite Ha).
  assert (event_from_history completed = Ok WorkflowExecutionUpdateCompleted) as HC
    by (unfold event_from_history; by rewrite Hc).
  destruct t, result; try done; unfold lifecycle; cbv zeta;
    repeat first [ erewrite step_answer by (reflexivity || exact Hacc || exact Hend)
                 | erewrite step_sent by reflexivity
                 | erewrite step_recorded by (exact HA || exact HC || reflexivity) ];
    simpl; by rewrite app_nil_r.
Qed.

End messages.

(** An encoding that keeps the message id only. *)
Definition example_encode : UpdateEncode :=
  {| encode_acceptance m := inr m.(Acceptance_accepted_request_message_id);
     encode_rejection m := inr m.(Rejection_rejected_request_message_id);
     encode_response m := inr "" |}.

Definition example_request : Request :=
  {| Request_meta := Some {| Meta_update_id := "u"; Meta_identity := "me" |};
     Request_input := Some {| Input_header := None; Input_name := "set"; Input_args := None |} |}.

Definition example_shared : SharedState :=
  {| message_id := "m"; instance_id := "i"; event_seq_id := 5;
     meta := {| Meta_update_id := "u"; Meta_identity := "me" |} |}.

Definition example_event (ty : EventType) : HistEventData :=
  {| event := {| HistoryEvent_event_id := 7; HistoryEvent_event_time := None;
                 HistoryEvent_event_type := EventType_as_i32 ty; HistoryEvent_version := 0;
                 HistoryEvent_task_id := 0; HistoryEvent_worker_may_ignore := false;
                 HistoryEvent_user_metadata := None; HistoryEvent_attributes := None |};
     replaying := false; current_task_is_last_in_history := true |}.

Definition example_failure : Failure := mkFailure "no" "" "" None None None.

Lemma update_answered_at_most_once_witness :
  sum_list_with (weight EndPhase)
    (drive (SM := UpdateMachine) (HT := UpdateMachine_temporal (H := example_encode))
       (handle_response (H := example_encode))
       [answer (UpdateResponse_Rejected example_failure);
        answer (UpdateResponse_Rejected example_failure)]
       (from_parts (SM := UpdateMachine) (RequestInitiated example_request) example_shared,
        InternalFlags_new true "core" "1")).2 <= 1.
Proof.
  exact (update_answered_at_most_once (H := example_encode) EndPhase "m" "i" 5
    {| original := example_request |} false _ _ (InternalFlags_new true "core" "1")
    [answer (UpdateResponse_Rejected example_failure);
     answer (UpdateResponse_Rejected example_failure)] eq_refl).
Defined.

Lemma update_lifecycle_witness :
  exists msgs,
    drive (SM := UpdateMachine) (HT := UpdateMachine_temporal (H := example_encode))
      (handle_response (H := example_encode))
      (lifecycle BeforeRecorded (UpdateResponse_Rejected example_failure)
         (example_event ET_WorkflowExecutionUpdateAccepted)
         (example_event ET_WorkflowExecutionUpdateCompleted))
      (from_parts (SM := UpdateMachine) (RequestInitiated example_request) example_shared,
       InternalFlags_new true "core" "1") =
    ((from_parts (SM := UpdateMachine) CompletedCommandRecorded example_shared,
      InternalFlags_new true "core" "1"), msgs).
Proof.
  eexists. apply (update_lifecycle (H := example_encode) BeforeRecorded example_request
    example_shared (InternalFlags_new true "core" "1") (UpdateResponse_Rejected example_failure)
    (example_event ET_WorkflowExecutionUpdateAccepted)
    (example_event ET_WorkflowExecutionUpdateCompleted)); reflexivity.
Defined.

End Update.
