(* ===== verification/ExternalMachines.v ===== *)
(** * Cancelling and signalling other workflows
    (machines/cancel_external_state_machine.rs, signal_external_state_machine.rs) *)
From Stdlib Require Import ZArith Lia.
From stdpp Require Import base option list strings gmap.
From S2P Require Import Prelude Flags Protos ProtoExt CoreProtos Fsm.

(** The failure both machines report: an application failure named after the
    server's cause. *)
Definition external_failure (message type : string) : Failure :=
  mkFailure message "" "" None None
    (Some (FI_Application
       {| ApplicationFailureInfo_type := type;
          ApplicationFailureInfo_non_retryable := false;
          ApplicationFailureInfo_details := None;
          ApplicationFailureInfo_next_retry_delay := None;
          ApplicationFailureInfo_category := 0 |})).

Module CancelExternal.

Inductive CancelExternalMachineState :=
| Created
| RequestCancelExternalCommandCreated
| RequestCancelExternalCommandRecorded
| CancelRequested
| RequestCancelFailed.

Inductive CancelExternalMachineEvents :=
| Schedule
| CommandRequestCancelExternalWorkflowExecution
| RequestCancelExternalWorkflowExecutionInitiated
| ExternalWorkflowExecutionCancelRequested
| RequestCancelExternalWorkflowExecutionFailed (c : CancelExternalWorkflowExecutionFailedCause).

Inductive CancelExternalCommand :=
| Requested
| CmdFailed (c : CancelExternalWorkflowExecutionFailedCause).

Record SharedState := { seq : Z }.

Definition state_display (s : CancelExternalMachineState) : string :=
  match s with
  | Created => "Created"
  | RequestCancelExternalCommandCreated => "RequestCancelExternalCommandCreated"
  | RequestCancelExternalCommandRecorded => "RequestCancelExternalCommandRecorded"
  | CancelRequested => "CancelRequested"
  | RequestCancelFailed => "RequestCancelFailed"
  end.

Definition transition (s : CancelExternalMachineState) (e : CancelExternalMachineEvents)
  : option (Handler SharedState CancelExternalMachineState CancelExternalCommand) :=
  match s, e with
  | Created, Schedule => Some (pure_handler (TrTo RequestCancelExternalCommandCreated))
  | RequestCancelExternalCommandCreated, CommandRequestCancelExternalWorkflowExecution =>
      Some (pure_handler (TrTo RequestCancelExternalCommandCreated))
  | RequestCancelExternalCommandCreated, RequestCancelExternalWorkflowExecutionInitiated =>
      Some (pure_handler (TrTo RequestCancelExternalCommandRecorded))
  | RequestCancelExternalCommandRecorded, ExternalWorkflowExecutionCancelRequested =>
      Some (pure_handler (TrOk [Requested] CancelRequested))
  | RequestCancelExternalCommandRecorded, RequestCancelExternalWorkflowExecutionFailed c =>
      Some (pure_handler (TrOk [CmdFailed c] RequestCancelFailed))
  | _, _ => None
  end.

Definition is_final (s : CancelExternalMachineState) : bool :=
  match s with CancelRequested | RequestCancelFailed => true | _ => false end.

Definition CancelExternalMachine : StateMachine :=
  {| State := CancelExternalMachineState; Fsm.SharedState := SharedState;
     Event := CancelExternalMachineEvents; SmCommand := CancelExternalCommand;
     sm_name := "CancelExternalMachine"; Fsm.state_display := state_display;
     Fsm.transition := transition; Fsm.is_final := is_final |}.

Definition event_from_history (d : HistEventData)
  : outcome WFMachinesError CancelExternalMachineEvents :=
  let e := d.(event) in
  match event_type e with
  | ET_ExternalWorkflowExecutionCancelRequested => Ok ExternalWorkflowExecutionCancelRequested
  | ET_RequestCancelExternalWorkflowExecutionInitiated =>
      Ok RequestCancelExternalWorkflowExecutionInitiated
  | ET_RequestCancelExternalWorkflowExecutionFailed =>
      match e.(HistoryEvent_attributes) with
      | Some (HA_RequestCancelExternalWorkflowExecutionFailed a) =>
          Ok (RequestCancelExternalWorkflowExecutionFailed
            (default CEWFC_Unspecified (CancelExternalWorkflowExecutionFailedCause_try_from
               a.(RequestCancelExternalWorkflowExecutionFailedEv_cause))))
      | _ => Err (Fatal ("Cancelworkflow failed attributes were unset: " +:+ HistoryEvent_display e))
      end
  | _ => Err (Nondeterminism
      ("Cancel external WF machine does not handle this event: " +:+ HistoryEvent_display e))
  end.

Definition event_from_command (c : CommandType) : option CancelExternalMachineEvents :=
  match c with
  | CT_RequestCancelExternalWorkflowExecution =>
      Some CommandRequestCancelExternalWorkflowExecution
  | _ => None
  end.

Definition reason (f : CancelExternalWorkflowExecutionFailedCause) : string :=
  match f with
  | CEWFC_Unspecified => "unknown"
  | CEWFC_ExternalWorkflowExecutionNotFound | CEWFC_NamespaceNotFound => "not found"
  end.

Definition adapt_response (m : machine CancelExternalMachine) (c : CancelExternalCommand)
    (_ : option EventInfo) : outcome WFMachinesError (list MachineResponse) :=
  match c with
  | Requested =>
      Ok [PushWFJob (J_ResolveRequestCancelExternalWorkflow
            {| ResolveRequestCancelExternalWorkflow_seq := m.(shared_state).(seq);
               ResolveRequestCancelExternalWorkflow_failure := None |})]
  | CmdFailed f =>
      Ok [PushWFJob (J_ResolveRequestCancelExternalWorkflow
            {| ResolveRequestCancelExternalWorkflow_seq := m.(shared_state).(seq);
               ResolveRequestCancelExternalWorkflow_failure := Some (external_failure
                 ("Unable to cancel external workflow because " +:+ reason f)
                 (CancelExternalWorkflowExecutionFailedCause_debug f)) |})]
  end.

#[global] Instance CancelExternalMachine_temporal : TemporalStateMachine CancelExternalMachine.
Proof.
  refine {| try_from_hist_event := event_from_history : _ -> outcome _ (Event CancelExternalMachine);
            try_from_command_type := event_from_command : _ -> option (Event CancelExternalMachine);
            Fsm.adapt_response := adapt_response |}.
  intros s. split; [by destruct s; try done; intros _ []|]. intros H.
  destruct s; first [ done | discriminate (H Schedule)
    | discriminate (H CommandRequestCancelExternalWorkflowExecution)
    | discriminate (H ExternalWorkflowExecutionCancelRequested) ].
Defined.

Definition new_external_cancel (seq : Z) (we : NamespacedWorkflowExecution) (only_child : bool)
    (reason : string) (fl : InternalFlags)
  : (machine CancelExternalMachine * InternalFlags) * outcome WFMachinesError Attributes :=
  match on_event (SM := CancelExternalMachine) Schedule
          (from_parts (SM := CancelExternalMachine) Created {| seq := seq |}, fl) with
  | (s, Ok _) =>
      (s, Ok (CA_RequestCancelExternalWorkflowExecution
        {| RequestCancelExternalWorkflowExecutionCmd_namespace :=
             we.(NamespacedWorkflowExecution_namespace);
           RequestCancelExternalWorkflowExecutionCmd_workflow_id :=
             we.(NamespacedWorkflowExecution_workflow_id);
           RequestCancelExternalWorkflowExecutionCmd_run_id :=
             we.(NamespacedWorkflowExecution_run_id);
           RequestCancelExternalWorkflowExecutionCmd_control := "";
           RequestCancelExternalWorkflowExecutionCmd_child_workflow_only := only_child;
           RequestCancelExternalWorkflowExecutionCmd_reason := reason |}))
  | (s, _) => (s, Panic "Scheduling cancel external wf command doesn't fail")
  end.

(** ** Properties *)

(** Resolutions left to report. *)
Definition budget (s : CancelExternalMachineState) : nat :=
  match s with CancelRequested | RequestCancelFailed => 0 | _ => 1 end.

Lemma cancel_external_transition_ok s ev h sh fl sh' fl' cmds s' :
  True -> transition s ev = Some h -> True -> h sh fl = (sh', fl', TrOk cmds s') ->
  True /\ sum_list_with (fun _ => 1) cmds + budget s' <= budget s.
Proof.
  intros _ Ht _ Hh. destruct s, ev; simplify_eq/=; unfold pure_handler in *; simplify_eq/=; auto.
Qed.

Lemma cancel_external_adapt_ok s sh cmd info resps :
  Fsm.adapt_response (SM := CancelExternalMachine) (from_parts s sh) cmd info = Ok resps ->
  sum_list_with (fun _ => 1) resps <= 1.
Proof. destruct cmd; intros [= <-]; simpl; lia. Qed.

(** This machine has no operation of its own. *)
Definition op_sem (op : Empty_set)
  : M (machine CancelExternalMachine * InternalFlags) WFMachinesError (list MachineResponse) :=
  match op with end.

(** A request to cancel an external workflow is resolved at most once, however
    the machine is driven. *)
Lemma cancel_external_resolves_at_most_once seq we only_child reason fl
    (l : list (input Empty_set)) :
  length (drive (SM := CancelExternalMachine) op_sem l
            (new_external_cancel seq we only_child reason fl).1).2 <= 1.
Proof.
  destruct (drive _ l _) as [[m' fl'] resps] eqn:Hd.
  apply (drive_budget (SM := CancelExternalMachine) (HT := CancelExternalMachine_temporal) op_sem
    (fun _ => True) (fun _ _ => True) (fun s _ => budget s) (fun _ _ => 1) (fun _ => 1)
    cancel_external_transition_ok (fun _ _ _ => Logic.I) (fun _ _ _ => Logic.I) cancel_external_adapt_ok
    (fun op => match op with end)) in Hd as [_ Hd]; [|done].
  rewrite sum_list_with_one in Hd. unfold machine_budget at 2 in Hd. simpl in *. lia.
Qed.

End CancelExternal.

Module SignalExternal.

Definition SIG_CANCEL_MSG : string := "Signal was cancelled before being sent".

Inductive SignalExternalMachineState :=
| Created
| SignalExternalCommandCreated
| SignalExternalCommandRecorded
| Cancelled
| Signaled
| Failed.

Inductive SignalExternalMachineEvents :=
| Schedule
| CommandSignalExternalWorkflowExecution
| Cancel
| SignalExternalWorkflowExecutionInitiated
| ExternalWorkflowExecutionSignaled
| SignalExternalWorkflowExecutionFailed (c : SignalExternalWorkflowExecutionFailedCause).

Inductive SignalExternalCommand :=
| CmdSignaled
| CmdFailed (c : SignalExternalWorkflowExecutionFailedCause)
| CmdCancelled.

Record SharedState := { seq : Z }.

Definition state_display (s : SignalExternalMachineState) : string :=
  match s with
  | Created => "Created"
  | SignalExternalCommandCreated => "SignalExternalCommandCreated"
  | SignalExternalCommandRecorded => "SignalExternalCommandRecorded"
  | Cancelled => "Cancelled"
  | Signaled => "Signaled"
  | Failed => "Failed"
  end.

Definition transition (s : SignalExternalMachineState) (e : SignalExternalMachineEvents)
  : option (Handler SharedState SignalExternalMachineState SignalExternalCommand) :=
  match s, e with
  | Created, Schedule => Some (pure_handler (TrTo SignalExternalCommandCreated))
  | SignalExternalCommandCreated, CommandSignalExternalWorkflowExecution =>
      Some (pure_handler (TrTo SignalExternalCommandCreated))
  | SignalExternalCommandCreated, Cancel => Some (pure_handler (TrOk [CmdCancelled] Cancelled))
  | SignalExternalCommandCreated, SignalExternalWorkflowExecutionInitiated =>
      Some (pure_handler (TrTo SignalExternalCommandRecorded))
  | SignalExternalCommandRecorded, Cancel =>
      Some (pure_handler (TrTo SignalExternalCommandRecorded))
  | SignalExternalCommandRecorded, ExternalWorkflowExecutionSignaled =>
      Some (pure_handler (TrOk [CmdSignaled] Signaled))
  | SignalExternalCommandRecorded, SignalExternalWorkflowExecutionFailed c =>
      Some (pure_handler (TrOk [CmdFailed c] Failed))
  | Cancelled, Cancel => Some (pure_handler (TrTo Cancelled))
  | Signaled, Cancel => Some (pure_handler (TrTo Signaled))
  | _, _ => None
  end.

Definition is_final (s : SignalExternalMachineState) : bool :=
  match s with Failed => true | _ => false end.

Definition SignalExternalMachine : StateMachine :=
  {| State := SignalExternalMachineState; Fsm.SharedState := SharedState;
     Event := SignalExternalMachineEvents; SmCommand := SignalExternalCommand;
     sm_name := "SignalExternalMachine"; Fsm.state_display := state_display;
     Fsm.transition := transition; Fsm.is_final := is_final |}.

Definition event_from_history (d : HistEventData)
  : outcome WFMachinesError SignalExternalMachineEvents :=
  let e := d.(event) in
  match event_type e with
  | ET_ExternalWorkflowExecutionSignaled => Ok ExternalWorkflowExecutionSignaled
  | ET_SignalExternalWorkflowExecutionInitiated => Ok SignalExternalWorkflowExecutionInitiated
  | ET_SignalExternalWorkflowExecutionFailed =>
      match e.(HistoryEvent_attributes) with
      | Some (HA_SignalExternalWorkflowExecutionFailed a) =>
          Ok (SignalExternalWorkflowExecutionFailed
            (default SEWFC_Unspecified (SignalExternalWorkflowExecutionFailedCause_try_from
               a.(SignalExternalWorkflowExecutionFailedEv_cause))))
      | _ => Err (Fatal ("Signal workflow failed attributes were unset: " +:+ HistoryEvent_display e))
      end
  | _ => Err (Nondeterminism
      ("Signal external WF machine does not handle this event: " +:+ HistoryEvent_display e))
  end.

Definition event_from_command (c : CommandType) : option SignalExternalMachineEvents :=
  match c with
  | CT_SignalExternalWorkflowExecution => Some CommandSignalExternalWorkflowExecution
  | _ => None
  end.

Definition reason (f : SignalExternalWorkflowExecutionFailedCause) : string :=
  match f with
  | SEWFC_Unspecified => "unknown"
  | SEWFC_ExternalWorkflowExecutionNotFound | SEWFC_NamespaceNotFound => "it was not found"
  | SEWFC_SignalCountLimitExceeded => "The per-workflow signal limit was exceeded"
  end.

Definition resolve (sh : SharedState) (f : option Failure) : MachineResponse :=
  PushWFJob (J_ResolveSignalExternalWorkflow
    {| ResolveSignalExternalWorkflow_seq := sh.(seq);
       ResolveSignalExternalWorkflow_failure := f |}).

Definition adapt_response (m : machine SignalExternalMachine) (c : SignalExternalCommand)
    (_ : option EventInfo) : outcome WFMachinesError (list MachineResponse) :=
  match c with
  | CmdSignaled => Ok [resolve m.(shared_state) None]
  | CmdFailed f =>
      Ok [resolve m.(shared_state) (Some (external_failure
            ("Unable to signal external workflow because " +:+ reason f)
            (SignalExternalWorkflowExecutionFailedCause_debug f)))]
  | CmdCancelled => Panic "Cancelled command not expected as part of non-cancel transition"
  end.

#[global] Instance SignalExternalMachine_temporal : TemporalStateMachine SignalExternalMachine.
Proof.
  refine {| try_from_hist_event := event_from_history : _ -> outcome _ (Event SignalExternalMachine);
            try_from_command_type := event_from_command : _ -> option (Event SignalExternalMachine);
            Fsm.adapt_response := adapt_response |}.
  intros s. split; [by destruct s; try done; intros _ []|]. intros H.
  destruct s; first [ done | discriminate (H Schedule) | discriminate (H Cancel) ].
Defined.

(** [new_external_signal]: the target decides the namespace and the child-only
    restriction. *)
Definition signal_target (this_namespace : string) (t : option SignalExternalWorkflowExecution_Target)
  : outcome WFMachinesError (NamespacedWorkflowExecution * bool) :=
  match t with
  | None => Err (Fatal "Signal external workflow command had empty target field")
  | Some (SignalExternalWorkflowExecution_ChildWorkflowId wfid) =>
      Ok ({| NamespacedWorkflowExecution_namespace := this_namespace;
             NamespacedWorkflowExecution_workflow_id := wfid;
             NamespacedWorkflowExecution_run_id := "" |}, true)
  | Some (SignalExternalWorkflowExecution_WorkflowExecution we) => Ok (we, false)
  end.

Definition new_external_signal (a : SignalExternalWorkflowExecution) (this_namespace : string)
    (fl : InternalFlags)
  : outcome WFMachinesError ((machine SignalExternalMachine * InternalFlags) * Attributes) :=
  '(we, only_child) ← signal_target this_namespace a.(SignalExternalWorkflowExecution_target);
  match on_event (SM := SignalExternalMachine) Schedule
          (from_parts (SM := SignalExternalMachine) Created
             {| seq := a.(SignalExternalWorkflowExecution_seq) |}, fl) with
  | (s, Ok _) =>
      Ok (s, CA_SignalExternalWorkflowExecution
        {| SignalExternalWorkflowExecutionCmd_namespace :=
             we.(NamespacedWorkflowExecution_namespace);
           SignalExternalWorkflowExecutionCmd_execution :=
             Some {| WorkflowExecution_workflow_id := we.(NamespacedWorkflowExecution_workflow_id);
                     WorkflowExecution_run_id := we.(NamespacedWorkflowExecution_run_id) |};
           SignalExternalWorkflowExecutionCmd_signal_name :=
             a.(SignalExternalWorkflowExecution_signal_name);
           SignalExternalWorkflowExecutionCmd_input :=
             into_payloads a.(SignalExternalWorkflowExecution_args);
           SignalExternalWorkflowExecutionCmd_control := "";
           SignalExternalWorkflowExecutionCmd_child_workflow_only := only_child;
           SignalExternalWorkflowExecutionCmd_header :=
             some_unless_empty Header_from a.(SignalExternalWorkflowExecution_headers) |})
  | (_, _) => Panic "Scheduling signal external wf command doesn't fail"
  end.

Definition cancel : M (machine SignalExternalMachine * InternalFlags)
                      (MachineError WFMachinesError) (list MachineResponse) :=
  fun s =>
    match on_event (SM := SignalExternalMachine) Cancel s with
    | ((m, fl), Ok res) =>
        ((m, fl),
         match head res with
         | Some CmdCancelled =>
             Ok [resolve m.(shared_state) (Some (mkFailure SIG_CANCEL_MSG "" "" None None
                   (Some (FI_Canceled {| CanceledFailureInfo_details := None |}))))]
         | Some _ => Panic "Signal external machine cancel produced unexpected result"
         | None => Ok []
         end)
    | (s', Err e) => (s', Err e)
    | (s', Panic msg) => (s', Panic msg)
    end.

Definition was_cancelled_before_sent_to_server {E} (m : machine SignalExternalMachine)
  : outcome E bool :=
  s ← get_state m;
  Ok (match s : SignalExternalMachineState with Cancelled => true | _ => false end).

(** ** Properties *)

Definition budget (s : SignalExternalMachineState) : nat :=
  match s with
  | Created | SignalExternalCommandCreated | SignalExternalCommandRecorded => 1
  | _ => 0
  end.

Lemma signal_external_transition_ok s ev h sh fl sh' fl' cmds s' :
  True -> transition s ev = Some h -> True -> h sh fl = (sh', fl', TrOk cmds s') ->
  True /\ sum_list_with (fun _ => 1) cmds + budget s' <= budget s.
Proof.
  intros _ Ht _ Hh. destruct s, ev; simplify_eq/=; unfold pure_handler in *; simplify_eq/=; auto.
Qed.

Lemma signal_external_adapt_ok s sh cmd info resps :
  Fsm.adapt_response (SM := SignalExternalMachine) (from_parts s sh) cmd info = Ok resps ->
  sum_list_with (fun _ => 1) resps <= 1.
Proof. destruct cmd; intros [= <-]; simpl; lia. Qed.

Inductive SignalOp := OpCancel.

Definition op_sem (op : SignalOp) := match op with OpCancel => cancel end.

Lemma signal_external_op_ok op m fl m' fl' r :
  machine_I (SM := SignalExternalMachine) (fun _ _ => True) m ->
  op_sem op (m, fl) = ((m', fl'), r) ->
  machine_I (SM := SignalExternalMachine) (fun _ _ => True) m' /\
  sum_list_with (fun _ => 1) (outputs r)
  + machine_budget (SM := SignalExternalMachine) (fun s _ => budget s) m'
  <= machine_budget (SM := SignalExternalMachine) (fun s _ => budget s) m.
Proof.
  unfold machine_I, machine_budget. intros _ Hc. split; [by destruct (state m')|].
  destruct op, m as [[s|] sh]; [destruct s|]; cbn in Hc; simplify_eq; simpl; lia.
Qed.

(** (safety): a signal to an external workflow is resolved at most once,
    however commands, events and cancellations arrive after it was scheduled. *)
Theorem signal_external_resolves_at_most_once a ns fl s cmd (l : list (input SignalOp)) :
  new_external_signal a ns fl = Ok (s, cmd) ->
  length (drive (SM := SignalExternalMachine) op_sem l s).2 <= 1.
Proof.
  unfold new_external_signal. intros Hn. bind_Ok. destruct a0 as [we only]. cbn in Hn.
  injection Hn as <- _. destruct (drive _ l _) as [[m' fl'] resps] eqn:Hd.
  apply (drive_budget (SM := SignalExternalMachine) (HT := SignalExternalMachine_temporal) op_sem
    (fun _ => True) (fun _ _ => True) (fun s _ => budget s) (fun _ _ => 1) (fun _ => 1)
    signal_external_transition_ok (fun _ _ _ => Logic.I) (fun _ _ _ => Logic.I) signal_external_adapt_ok signal_external_op_ok)
    in Hd as [_ Hd]; [|done].
  rewrite sum_list_with_one in Hd. unfold machine_budget at 2 in Hd. simpl in *. lia.
Qed.

(** (error): cancelling a resolved signal is ignored when the signal was
    delivered or had been cancelled, but not when it failed: then the
    cancellation is an invalid transition, which the workflow machines turn into
    a nondeterminism error. *)
Theorem signal_cancel_after_resolution sh fl :
  let at_ s := (from_parts (SM := SignalExternalMachine) s sh, fl) in
  cancel (at_ Signaled) = (at_ Signaled, Ok []) /\
  cancel (at_ Cancelled) = (at_ Cancelled, Ok []) /\
  cancel (at_ Failed) = (at_ Failed, Err InvalidTransition) /\
  WFMachinesError_from InvalidTransition
    = Nondeterminism "Invalid transition in state machine".
Proof. done. Qed.

Lemma signal_external_resolves_at_most_once_witness :
  length (drive (SM := SignalExternalMachine) op_sem [InOp OpCancel; InOp OpCancel]
    (from_parts (SM := SignalExternalMachine) SignalExternalCommandCreated {| seq := 3 |},
     example_flags)).2 <= 1.
Proof.
  exact (signal_external_resolves_at_most_once
    {| SignalExternalWorkflowExecution_seq := 3;
       SignalExternalWorkflowExecution_target :=
         Some (SignalExternalWorkflowExecution_ChildWorkflowId "c");
       SignalExternalWorkflowExecution_signal_name := "s";
       SignalExternalWorkflowExecution_args := [];
       SignalExternalWorkflowExecution_headers := ∅ |} "ns" example_flags _ _
    [InOp OpCancel; InOp OpCancel] eq_refl).
Defined.

End SignalExternal.
