(* ===== verification/TerminalMachines.v ===== *)
(** * Machines that end a workflow (machines/complete_workflow_state_machine.rs,
    fail_workflow_state_machine.rs, cancel_workflow_state_machine.rs,
    continue_as_new_workflow_state_machine.rs)

    Each creates one command, sees it recorded, and ends on the matching event. *)
From Stdlib Require Import ZArith Lia.
From stdpp Require Import base option list strings gmap.
From S2P Require Import Prelude Flags Protos ProtoExt CoreProtos Fsm.

Module CompleteWorkflow.

Inductive CompleteWorkflowMachineState :=
| Created (attribs : CompleteWorkflowExecution)
| CompleteWorkflowCommandCreated
| CompleteWorkflowCommandRecorded.

Inductive CompleteWorkflowMachineEvents :=
| Schedule
| CommandCompleteWorkflowExecution
| WorkflowExecutionCompleted.

Inductive CompleteWFCommand := AddCommand (a : Attributes).

Definition state_display (s : CompleteWorkflowMachineState) : string :=
  match s with
  | Created _ => "Created"
  | CompleteWorkflowCommandCreated => "CompleteWorkflowCommandCreated"
  | CompleteWorkflowCommandRecorded => "CompleteWorkflowCommandRecorded"
  end.

Definition transition (s : CompleteWorkflowMachineState) (e : CompleteWorkflowMachineEvents)
  : option (Handler unit CompleteWorkflowMachineState CompleteWFCommand) :=
  match s, e with
  | Created a, Schedule => Some (pure_handler (TrOk [AddCommand (complete_workflow_into a)] CompleteWorkflowCommandCreated))
  | CompleteWorkflowCommandCreated, CommandCompleteWorkflowExecution =>
      Some (pure_handler (TrTo CompleteWorkflowCommandCreated))
  | CompleteWorkflowCommandCreated, WorkflowExecutionCompleted =>
      Some (pure_handler (TrTo CompleteWorkflowCommandRecorded))
  | _, _ => None
  end.

Definition is_final (s : CompleteWorkflowMachineState) : bool :=
  match s with CompleteWorkflowCommandRecorded => true | _ => false end.

Definition CompleteWorkflowMachine : StateMachine :=
  {| State := CompleteWorkflowMachineState; SharedState := unit;
     Event := CompleteWorkflowMachineEvents; SmCommand := CompleteWFCommand;
     sm_name := "CompleteWorkflowMachine"; Fsm.state_display := state_display;
     Fsm.transition := transition; Fsm.is_final := is_final |}.

Definition event_from_history (d : HistEventData)
  : outcome WFMachinesError CompleteWorkflowMachineEvents :=
  match event_type d.(event) with
  | ET_WorkflowExecutionCompleted => Ok WorkflowExecutionCompleted
  | _ => Err (Nondeterminism
      ("Complete workflow machine does not handle this event: " +:+ HistoryEvent_display d.(event)))
  end.

Definition event_from_command (c : CommandType) : option CompleteWorkflowMachineEvents :=
  match c with
  | CT_CompleteWorkflowExecution => Some CommandCompleteWorkflowExecution
  | _ => None
  end.

#[global] Instance CompleteWorkflowMachine_temporal : TemporalStateMachine CompleteWorkflowMachine.
Proof.
  refine {| try_from_hist_event := event_from_history : _ -> outcome _ (Event CompleteWorkflowMachine);
            try_from_command_type := event_from_command : _ -> option (Event CompleteWorkflowMachine);
            adapt_response := fun _ _ _ => Ok [] |}.
  intros s. split; [by destruct s; try done; intros _ []|]. intros H.
  destruct s; first [ done | discriminate (H Schedule) | discriminate (H WorkflowExecutionCompleted) ].
Defined.

Definition complete_workflow (attribs : CompleteWorkflowExecution) (fl : InternalFlags)
  : (machine CompleteWorkflowMachine * InternalFlags) * outcome WFMachinesError Attributes :=
  match on_event (SM := CompleteWorkflowMachine) Schedule
          (from_parts (SM := CompleteWorkflowMachine) (Created attribs) tt, fl) with
  | (s, Ok cmds) =>
      (s, match last cmds with
          | Some (AddCommand c) => Ok c
          | None => Panic "complete wf machine on_schedule must produce command"
          end)
  | (s, _) => (s, Panic "Scheduling complete wf machines doesn't fail")
  end.

End CompleteWorkflow.

Module FailWorkflow.

Inductive FailWorkflowMachineState :=
| Created (attribs : FailWorkflowExecution)
| FailWorkflowCommandCreated
| FailWorkflowCommandRecorded.

Inductive FailWorkflowMachineEvents :=
| Schedule
| CommandFailWorkflowExecution
| WorkflowExecutionFailed.

Inductive FailWFCommand := AddCommand (a : Attributes).

Definition state_display (s : FailWorkflowMachineState) : string :=
  match s with
  | Created _ => "Created"
  | FailWorkflowCommandCreated => "FailWorkflowCommandCreated"
  | FailWorkflowCommandRecorded => "FailWorkflowCommandRecorded"
  end.

Definition transition (s : FailWorkflowMachineState) (e : FailWorkflowMachineEvents)
  : option (Handler unit FailWorkflowMachineState FailWFCommand) :=
  match s, e with
  | Created a, Schedule => Some (pure_handler (TrOk [AddCommand (fail_workflow_into a)] FailWorkflowCommandCreated))
  | FailWorkflowCommandCreated, CommandFailWorkflowExecution =>
      Some (pure_handler (TrTo FailWorkflowCommandCreated))
  | FailWorkflowCommandCreated, WorkflowExecutionFailed =>
      Some (pure_handler (TrTo FailWorkflowCommandRecorded))
  | _, _ => None
  end.

Definition is_final (s : FailWorkflowMachineState) : bool :=
  match s with FailWorkflowCommandRecorded => true | _ => false end.

Definition FailWorkflowMachine : StateMachine :=
  {| State := FailWorkflowMachineState; SharedState := unit;
     Event := FailWorkflowMachineEvents; SmCommand := FailWFCommand;
     sm_name := "FailWorkflowMachine"; Fsm.state_display := state_display;
     Fsm.transition := transition; Fsm.is_final := is_final |}.

Definition event_from_history (d : HistEventData)
  : outcome WFMachinesError FailWorkflowMachineEvents :=
  match event_type d.(event) with
  | ET_WorkflowExecutionFailed => Ok WorkflowExecutionFailed
  | _ => Err (Nondeterminism
      ("Fail workflow machine does not handle this event: " +:+ HistoryEvent_display d.(event)))
  end.

Definition event_from_command (c : CommandType) : option FailWorkflowMachineEvents :=
  match c with
  | CT_FailWorkflowExecution => Some CommandFailWorkflowExecution
  | _ => None
  end.

#[global] Instance FailWorkflowMachine_temporal : TemporalStateMachine FailWorkflowMachine.
Proof.
  refine {| try_from_hist_event := event_from_history : _ -> outcome _ (Event FailWorkflowMachine);
            try_from_command_type := event_from_command : _ -> option (Event FailWorkflowMachine);
            adapt_response := fun _ _ _ => Ok [] |}.
  intros s. split; [by destruct s; try done; intros _ []|]. intros H.
  destruct s; first [ done | discriminate (H Schedule) | discriminate (H WorkflowExecutionFailed) ].
Defined.

Definition fail_workflow (attribs : FailWorkflowExecution) (fl : InternalFlags)
  : (machine FailWorkflowMachine * InternalFlags) * outcome WFMachinesError Attributes :=
  match on_event (SM := FailWorkflowMachine) Schedule
          (from_parts (SM := FailWorkflowMachine) (Created attribs) tt, fl) with
  | (s, Ok cmds) =>
      (s, match last cmds with
          | Some (AddCommand c) => Ok c
          | None => Panic "Fail wf machine on_schedule must produce command"
          end)
  | (s, _) => (s, Panic "Scheduling fail wf machines doesn't fail")
  end.

End FailWorkflow.

Module CancelWorkflowEnd.

Inductive CancelWorkflowMachineState :=
| Created
| CancelWorkflowCommandCreated
| CancelWorkflowCommandRecorded.

Inductive CancelWorkflowMachineEvents :=
| Schedule
| CommandCancelWorkflowExecution
| WorkflowExecutionCanceled.

Inductive CancelWorkflowCommand : Set := .

Definition state_display (s : CancelWorkflowMachineState) : string :=
  match s with
  | Created => "Created"
  | CancelWorkflowCommandCreated => "CancelWorkflowCommandCreated"
  | CancelWorkflowCommandRecorded => "CancelWorkflowCommandRecorded"
  end.

Definition transition (s : CancelWorkflowMachineState) (e : CancelWorkflowMachineEvents)
  : option (Handler unit CancelWorkflowMachineState CancelWorkflowCommand) :=
  match s, e with
  | Created, Schedule => Some (pure_handler (TrTo CancelWorkflowCommandCreated))
  | CancelWorkflowCommandCreated, CommandCancelWorkflowExecution =>
      Some (pure_handler (TrTo CancelWorkflowCommandCreated))
  | CancelWorkflowCommandCreated, WorkflowExecutionCanceled =>
      Some (pure_handler (TrTo CancelWorkflowCommandRecorded))
  | _, _ => None
  end.

Definition is_final (s : CancelWorkflowMachineState) : bool :=
  match s with CancelWorkflowCommandRecorded => true | _ => false end.

Definition CancelWorkflowMachine : StateMachine :=
  {| State := CancelWorkflowMachineState; SharedState := unit;
     Event := CancelWorkflowMachineEvents; SmCommand := CancelWorkflowCommand;
     sm_name := "CancelWorkflowMachine"; Fsm.state_display := state_display;
     Fsm.transition := transition; Fsm.is_final := is_final |}.

Definition event_from_history (d : HistEventData)
  : outcome WFMachinesError CancelWorkflowMachineEvents :=
  match EventType_try_from d.(event).(HistoryEvent_event_type) with
  | Some ET_WorkflowExecutionCanceled => Ok WorkflowExecutionCanceled
  | _ => Err (Nondeterminism
      ("Cancel workflow machine does not handle this event: " +:+ HistoryEvent_display d.(event)))
  end.

Definition event_from_command (c : CommandType) : option CancelWorkflowMachineEvents :=
  match c with
  | CT_CancelWorkflowExecution => Some CommandCancelWorkflowExecution
  | _ => None
  end.

#[global] Instance CancelWorkflowMachine_temporal : TemporalStateMachine CancelWorkflowMachine.
Proof.
  refine {| try_from_hist_event := event_from_history : _ -> outcome _ (Event CancelWorkflowMachine);
            try_from_command_type := event_from_command : _ -> option (Event CancelWorkflowMachine);
            adapt_response := fun _ _ _ => Ok [] |}.
  intros s. split; [by destruct s; try done; intros _ []|]. intros H.
  destruct s; first [ done | discriminate (H Schedule) | discriminate (H WorkflowExecutionCanceled) ].
Defined.

Definition cancel_workflow (attribs : CancelWorkflowExecution) (fl : InternalFlags)
  : (machine CancelWorkflowMachine * InternalFlags) * outcome WFMachinesError Attributes :=
  match on_event (SM := CancelWorkflowMachine) Schedule
          (from_parts (SM := CancelWorkflowMachine) Created tt, fl) with
  | (s, Ok _) => (s, Ok (cancel_workflow_into attribs))
  | (s, _) => (s, Panic "Scheduling continue as new machine doesn't fail")
  end.

End CancelWorkflowEnd.

Module ContinueAsNew.

Inductive ContinueAsNewWorkflowMachineState :=
| Created
| ContinueAsNewWorkflowCommandCreated
| ContinueAsNewWorkflowCommandRecorded.

Inductive ContinueAsNewWorkflowMachineEvents :=
| Schedule
| CommandContinueAsNewWorkflowExecution
| WorkflowExecutionContinuedAsNew.

Inductive ContinueAsNewWorkflowCommand : Set := .

Definition state_display (s : ContinueAsNewWorkflowMachineState) : string :=
  match s with
  | Created => "Created"
  | ContinueAsNewWorkflowCommandCreated => "ContinueAsNewWorkflowCommandCreated"
  | ContinueAsNewWorkflowCommandRecorded => "ContinueAsNewWorkflowCommandRecorded"
  end.

Definition transition (s : ContinueAsNewWorkflowMachineState) (e : ContinueAsNewWorkflowMachineEvents)
  : option (Handler unit ContinueAsNewWorkflowMachineState ContinueAsNewWorkflowCommand) :=
  match s, e with
  | Created, Schedule => Some (pure_handler (TrTo ContinueAsNewWorkflowCommandCreated))
  | ContinueAsNewWorkflowCommandCreated, CommandContinueAsNewWorkflowExecution =>
      Some (pure_handler (TrTo ContinueAsNewWorkflowCommandCreated))
  | ContinueAsNewWorkflowCommandCreated, WorkflowExecutionContinuedAsNew =>
      Some (pure_handler (TrTo ContinueAsNewWorkflowCommandRecorded))
  | _, _ => None
  end.

Definition is_final (s : ContinueAsNewWorkflowMachineState) : bool :=
  match s with ContinueAsNewWorkflowCommandRecorded => true | _ => false end.

Definition ContinueAsNewWorkflowMachine : StateMachine :=
  {| State := ContinueAsNewWorkflowMachineState; SharedState := unit;
     Event := ContinueAsNewWorkflowMachineEvents; SmCommand := ContinueAsNewWorkflowCommand;
     sm_name := "ContinueAsNewWorkflowMachine"; Fsm.state_display := state_display;
     Fsm.transition := transition; Fsm.is_final := is_final |}.

Definition event_from_history (d : HistEventData)
  : outcome WFMachinesError ContinueAsNewWorkflowMachineEvents :=
  match event_type d.(event) with
  | ET_WorkflowExecutionContinuedAsNew => Ok WorkflowExecutionContinuedAsNew
  | _ => Err (Nondeterminism
      ("Continue as new workflow machine does not handle this event: " +:+ HistoryEvent_display d.(event)))
  end.

Definition event_from_command (c : CommandType) : option ContinueAsNewWorkflowMachineEvents :=
  match c with
  | CT_ContinueAsNewWorkflowExecution => Some CommandContinueAsNewWorkflowExecution
  | _ => None
  end.

#[global] Instance ContinueAsNewWorkflowMachine_temporal : TemporalStateMachine ContinueAsNewWorkflowMachine.
Proof.
  refine {| try_from_hist_event := event_from_history : _ -> outcome _ (Event ContinueAsNewWorkflowMachine);
            try_from_command_type := event_from_command : _ -> option (Event ContinueAsNewWorkflowMachine);
            adapt_response := fun _ _ _ => Ok [] |}.
  intros s. split; [by destruct s; try done; intros _ []|]. intros H.
  destruct s; first [ done | discriminate (H Schedule) | discriminate (H WorkflowExecutionContinuedAsNew) ].
Defined.

Definition continue_as_new (attribs : ContinueAsNewWorkflowExecution)
    (use_compatible_version : bool) (fl : InternalFlags)
  : (machine ContinueAsNewWorkflowMachine * InternalFlags) * outcome WFMachinesError Attributes :=
  match on_event (SM := ContinueAsNewWorkflowMachine) Schedule
          (from_parts (SM := ContinueAsNewWorkflowMachine) Created tt, fl) with
  | (s, Ok _) => (s, Ok (continue_as_new_cmd_to_api attribs use_compatible_version))
  | (s, _) => (s, Panic "Scheduling continue as new machine doesn't fail")
  end.

End ContinueAsNew.

(** ** Properties *)

(** What the workflow machines rely on for a machine that ends the workflow: the
    recorded command is accepted without any response, and the closing event
    moves the machine to a final state, again without a response. *)
Definition ends_on {SM : StateMachine} {HT : TemporalStateMachine SM} (m : machine SM)
    (fl : InternalFlags) (ct : CommandType) (et : EventType) : Prop :=
  handle_command ct (m, fl) = ((m, fl), Ok []) /\
  forall d, event_type d.(event) = et ->
    exists m', handle_event d (m, fl) = ((m', fl), Ok []) /\
               has_reached_final_state (E := WFMachinesError) m' = Ok true.

Lemma event_type_try_from e et :
  event_type e = et -> et <> ET_Unspecified ->
  EventType_try_from e.(HistoryEvent_event_type) = Some et.
Proof. unfold event_type. destruct (EventType_try_from _); simpl; congruence. Qed.

(** (functional): each way of ending a workflow creates the server command
    of its kind with the attributes given by lang, never panics, and its machine
    then ends on the event that records that command. *)
Theorem terminal_machines_end fl complete fail cancel can compat :
  (exists m, CompleteWorkflow.complete_workflow complete fl
               = ((m, fl), Ok (complete_workflow_into complete)) /\
     ends_on m fl CT_CompleteWorkflowExecution ET_WorkflowExecutionCompleted) /\
  (exists m, FailWorkflow.fail_workflow fail fl = ((m, fl), Ok (fail_workflow_into fail)) /\
     ends_on m fl CT_FailWorkflowExecution ET_WorkflowExecutionFailed) /\
  (exists m, CancelWorkflowEnd.cancel_workflow cancel fl
               = ((m, fl), Ok (cancel_workflow_into cancel)) /\
     ends_on m fl CT_CancelWorkflowExecution ET_WorkflowExecutionCanceled) /\
  (exists m, ContinueAsNew.continue_as_new can compat fl
               = ((m, fl), Ok (continue_as_new_cmd_to_api can compat)) /\
     ends_on m fl CT_ContinueAsNewWorkflowExecution ET_WorkflowExecutionContinuedAsNew).
Proof.
  split_and!; eexists; (split; [reflexivity|]); (split; [reflexivity|]); intros d Hd;
    unfold handle_event; simpl;
    unfold CompleteWorkflow.event_from_history, FailWorkflow.event_from_history,
      CancelWorkflowEnd.event_from_history, ContinueAsNew.event_from_history;
    rewrite ?Hd, ?(event_type_try_from _ _ Hd) by done; eexists; split; reflexivity.
Qed.

Lemma final_machine_rejects_witness :
  exists msg, handle_event (example_hist_event ET_WorkflowExecutionCompleted None)
    (from_parts (SM := CompleteWorkflow.CompleteWorkflowMachine)
       CompleteWorkflow.CompleteWorkflowCommandRecorded tt, example_flags) =
    ((from_parts (SM := CompleteWorkflow.CompleteWorkflowMachine)
       CompleteWorkflow.CompleteWorkflowCommandRecorded tt, example_flags), Err (Fatal msg)).
Proof.
  exact (proj1 (final_machine_rejects
    (from_parts (SM := CompleteWorkflow.CompleteWorkflowMachine)
       CompleteWorkflow.CompleteWorkflowCommandRecorded tt) example_flags
    CompleteWorkflow.CompleteWorkflowCommandRecorded
    (example_hist_event ET_WorkflowExecutionCompleted None)
    CompleteWorkflow.WorkflowExecutionCompleted CT_CompleteWorkflowExecution
    CompleteWorkflow.CommandCompleteWorkflowExecution eq_refl eq_refl eq_refl eq_refl)).
Defined.
