(* ===== verification/SideMachines.v ===== *)
(** * Fire-and-forget commands and patches
    (machines/modify_workflow_properties_state_machine.rs,
    upsert_search_attributes_state_machine.rs, patch_state_machine.rs) *)
From Stdlib Require Import ZArith Lia.
From stdpp Require Import base option list strings gmap.
From S2P Require Import Prelude Flags Protos ProtoExt CoreProtos Fsm.

Module ModifyProperties.

Inductive ModifyWorkflowPropertiesMachineState := Created | CommandIssued | Done.

Inductive ModifyWorkflowPropertiesMachineEvents := CommandScheduled | CommandRecorded.

Inductive ModifyWorkflowPropertiesMachineCommand : Set := .

Definition state_display (s : ModifyWorkflowPropertiesMachineState) : string :=
  match s with
  | Created => "Created"
  | CommandIssued => "CommandIssued"
  | Done => "Done"
  end.

Definition transition (s : ModifyWorkflowPropertiesMachineState)
    (e : ModifyWorkflowPropertiesMachineEvents)
  : option (Handler unit ModifyWorkflowPropertiesMachineState
              ModifyWorkflowPropertiesMachineCommand) :=
  match s, e with
  | Created, CommandScheduled => Some (pure_handler (TrTo CommandIssued))
  | CommandIssued, CommandRecorded => Some (pure_handler (TrTo Done))
  | _, _ => None
  end.

Definition is_final (s : ModifyWorkflowPropertiesMachineState) : bool :=
  match s with Done => true | _ => false end.

Definition ModifyWorkflowPropertiesMachine : StateMachine :=
  {| State := ModifyWorkflowPropertiesMachineState; SharedState := unit;
     Event := ModifyWorkflowPropertiesMachineEvents;
     SmCommand := ModifyWorkflowPropertiesMachineCommand;
     sm_name := "ModifyWorkflowPropertiesMachine"; Fsm.state_display := state_display;
     Fsm.transition := transition; Fsm.is_final := is_final |}.

Definition event_from_history (d : HistEventData)
  : outcome WFMachinesError ModifyWorkflowPropertiesMachineEvents :=
  match event_type d.(event) with
  | ET_WorkflowPropertiesModified => Ok CommandRecorded
  | _ => Err (Nondeterminism
      ("ModifyWorkflowPropertiesMachine does not handle " +:+ HistoryEvent_display d.(event)))
  end.

Definition event_from_command (c : CommandType) : option ModifyWorkflowPropertiesMachineEvents :=
  match c with
  | CT_ModifyWorkflowProperties => Some CommandScheduled
  | _ => None
  end.

#[global] Instance ModifyWorkflowPropertiesMachine_temporal :
  TemporalStateMachine ModifyWorkflowPropertiesMachine.
Proof.
  refine {| try_from_hist_event :=
              event_from_history : _ -> outcome _ (Event ModifyWorkflowPropertiesMachine);
            try_from_command_type :=
              event_from_command : _ -> option (Event ModifyWorkflowPropertiesMachine);
            adapt_response := fun _ _ _ => Err (Nondeterminism
              "ModifyWorkflowProperties does not use state machine commands") |}.
  intros s. split; [by destruct s; try done; intros _ []|]. intros H.
  destruct s; first [ done | discriminate (H CommandScheduled) | discriminate (H CommandRecorded) ].
Defined.

Definition modify_workflow_properties (lang_cmd : ModifyWorkflowProperties)
  : machine ModifyWorkflowPropertiesMachine * Attributes :=
  (from_parts (SM := ModifyWorkflowPropertiesMachine) Created tt,
   modify_workflow_properties_into lang_cmd).

End ModifyProperties.

Definition VERSION_SEARCH_ATTR_KEY : string := "TemporalChangeVersion".
Definition MAX_SEARCH_ATTR_PAYLOAD_SIZE : nat := 2048.

Module UpsertSearchAttributes.

Inductive UpsertSearchAttributesMachineState := Created | CommandIssued | Done.

Inductive UpsertSearchAttributesMachineEvents := CommandScheduled | CommandRecorded.

Inductive UpsertSearchAttributesMachineCommand : Set := .

Definition state_display (s : UpsertSearchAttributesMachineState) : string :=
  match s with
  | Created => "Created"
  | CommandIssued => "CommandIssued"
  | Done => "Done"
  end.

Definition transition (s : UpsertSearchAttributesMachineState)
    (e : UpsertSearchAttributesMachineEvents)
  : option (Handler unit UpsertSearchAttributesMachineState
              UpsertSearchAttributesMachineCommand) :=
  match s, e with
  | Created, CommandScheduled => Some (pure_handler (TrTo CommandIssued))
  | CommandIssued, CommandRecorded => Some (pure_handler (TrTo Done))
  | _, _ => None
  end.

Definition is_final (s : UpsertSearchAttributesMachineState) : bool :=
  match s with Done => true | _ => false end.

Definition UpsertSearchAttributesMachine : StateMachine :=
  {| State := UpsertSearchAttributesMachineState; SharedState := unit;
     Event := UpsertSearchAttributesMachineEvents;
     SmCommand := UpsertSearchAttributesMachineCommand;
     sm_name := "UpsertSearchAttributesMachine"; Fsm.state_display := state_display;
     Fsm.transition := transition; Fsm.is_final := is_final |}.

(** This conversion reads the attributes, not the event type. *)
Definition event_from_history (d : HistEventData)
  : outcome WFMachinesError UpsertSearchAttributesMachineEvents :=
  match d.(event).(HistoryEvent_attributes) with
  | Some (HA_UpsertWorkflowSearchAttributes _) => Ok CommandRecorded
  | _ => Err (Nondeterminism
      ("UpsertWorkflowSearchAttributesMachine does not handle " +:+ HistoryEvent_display d.(event)))
  end.

Definition event_from_command (c : CommandType) : option UpsertSearchAttributesMachineEvents :=
  match c with
  | CT_UpsertWorkflowSearchAttributes => Some CommandScheduled
  | _ => None
  end.

#[global] Instance UpsertSearchAttributesMachine_temporal :
  TemporalStateMachine UpsertSearchAttributesMachine.
Proof.
  refine {| try_from_hist_event :=
              event_from_history : _ -> outcome _ (Event UpsertSearchAttributesMachine);
            try_from_command_type :=
              event_from_command : _ -> option (Event UpsertSearchAttributesMachine);
            adapt_response := fun _ _ _ => Err (Nondeterminism
              "UpsertWorkflowSearchAttributesMachine does not use commands") |}.
  intros s. split; [by destruct s; try done; intros _ []|]. intros H.
  destruct s; first [ done | discriminate (H CommandScheduled) | discriminate (H CommandRecorded) ].
Defined.

Definition create_new (sa_map : SearchAttributes)
  : machine UpsertSearchAttributesMachine * Attributes :=
  (from_parts (SM := UpsertSearchAttributesMachine) Created tt,
   CA_UpsertWorkflowSearchAttributes
     {| UpsertWorkflowSearchAttributesCmd_search_attributes := Some sa_map |}).

Definition upsert_search_attrs (attribs : UpsertWorkflowSearchAttributes) (replaying : bool)
    (fl : InternalFlags)
  : InternalFlags * (machine UpsertSearchAttributesMachine * Attributes) :=
  let '(fl, has_flag) := try_use UpsertSearchAttributeOnPatch (negb replaying) fl in
  (fl,
   if has_flag
      && bool_decide (is_Some
           (attribs.(UpsertWorkflowSearchAttributes_search_attributes) !! VERSION_SEARCH_ATTR_KEY))
   then create_new (SearchAttributes_from ∅)
   else create_new
     (SearchAttributes_from attribs.(UpsertWorkflowSearchAttributes_search_attributes))).

Definition upsert_search_attrs_internal
    (attribs : UpsertWorkflowSearchAttributesCommandAttributes)
  : machine UpsertSearchAttributesMachine * Attributes :=
  create_new (default (SearchAttributes_from ∅)
    attribs.(UpsertWorkflowSearchAttributesCmd_search_attributes)).

End UpsertSearchAttributes.

Module Patch.

Inductive PatchMachineState :=
| Executing
| Replaying
| MarkerCommandCreated
| MarkerCommandCreatedReplaying
| Notified
| MarkerCommandRecorded.

Inductive PatchMachineEvents :=
| Schedule
| CommandRecordMarker
| MarkerRecorded (id : string).

Inductive PatchCommand : Set := .

Record SharedState := { patch_id : string }.

Definition state_display (s : PatchMachineState) : string :=
  match s with
  | Executing => "Executing"
  | Replaying => "Replaying"
  | MarkerCommandCreated => "MarkerCommandCreated"
  | MarkerCommandCreatedReplaying => "MarkerCommandCreatedReplaying"
  | Notified => "Notified"
  | MarkerCommandRecorded => "MarkerCommandRecorded"
  end.

Definition on_marker_recorded (id : string) (dat : SharedState)
  : TransitionResult PatchCommand PatchMachineState :=
  if String.eqb id dat.(patch_id) then TrTo MarkerCommandRecorded
  else TrErr (Nondeterminism
    ("Change id " +:+ id +:+ " does not match expected id " +:+ dat.(patch_id))).

Definition transition (s : PatchMachineState) (e : PatchMachineEvents)
  : option (Handler SharedState PatchMachineState PatchCommand) :=
  match s, e with
  | Executing, Schedule => Some (pure_handler (TrTo MarkerCommandCreated))
  | Replaying, Schedule => Some (pure_handler (TrTo MarkerCommandCreatedReplaying))
  | MarkerCommandCreated, CommandRecordMarker => Some (pure_handler (TrTo Notified))
  | MarkerCommandCreatedReplaying, CommandRecordMarker => Some (pure_handler (TrTo Notified))
  | Notified, MarkerRecorded id => Some (reading (on_marker_recorded id))
  | _, _ => None
  end.

Definition is_final (s : PatchMachineState) : bool :=
  match s with MarkerCommandRecorded => true | _ => false end.

Definition PatchMachine : StateMachine :=
  {| State := PatchMachineState; Fsm.SharedState := SharedState;
     Event := PatchMachineEvents; SmCommand := PatchCommand;
     sm_name := "PatchMachine"; Fsm.state_display := state_display;
     Fsm.transition := transition; Fsm.is_final := is_final |}.

Definition event_from_command (c : CommandType) : option PatchMachineEvents :=
  match c with
  | CT_RecordMarker => Some CommandRecordMarker
  | _ => None
  end.

Definition matches_patch (m : machine PatchMachine) (id : string) : bool :=
  String.eqb m.(shared_state).(patch_id) id.

Section patch.
  (** JSON of the marker data and of the set of patch ids. *)
  Context {HJ : Json PatchedMarkerData} {HS : Json (gset string)}.

Definition event_from_history (d : HistEventData) : outcome WFMachinesError PatchMachineEvents :=
  match get_patch_marker_details d.(event) with
  | Some (id, _) => Ok (MarkerRecorded id)
  | None => Err (Nondeterminism
      ("Change machine cannot handle this event: " +:+ HistoryEvent_display d.(event)))
  end.

#[global] Instance PatchMachine_temporal : TemporalStateMachine PatchMachine.
Proof using HJ.
  refine {| try_from_hist_event := event_from_history : _ -> outcome _ (Event PatchMachine);
            try_from_command_type := event_from_command : _ -> option (Event PatchMachine);
            adapt_response := fun _ _ _ => Panic "Patch machine does not produce commands" |}.
  intros s. split; [by destruct s; try done; intros _ []|]. intros H.
  destruct s; first [ done | discriminate (H Schedule) | discriminate (H CommandRecordMarker)
    | discriminate (H (MarkerRecorded "")) ].
Defined.

(** The upsert of the version search attribute, when it is due. *)
Definition version_upsert (patch_id : string) (existing_patch_ids : gset string)
  : outcome WFMachinesError (list MachineResponse) :=
  match as_json_payload ({[patch_id]} ∪ existing_patch_ids) with
  | None => Err (Fatal "Could not serialize search attribute value for patch machine")
  | Some serialized =>
      if (MAX_SEARCH_ATTR_PAYLOAD_SIZE <=? String.length serialized.(Payload_data))%nat then Ok []
      else Ok [NewCoreOriginatedCommand (CA_UpsertWorkflowSearchAttributes
        {| UpsertWorkflowSearchAttributesCmd_search_attributes :=
             Some (SearchAttributes_from {[VERSION_SEARCH_ATTR_KEY := serialized]}) |})]
  end.

Definition has_change (patch_id : string) (replaying_when_invoked deprecated seen_in_peekahead : bool)
    (existing_patch_ids : gset string)
  : M InternalFlags WFMachinesError (machine PatchMachine * Attributes * list MachineResponse) :=
  let shared_state := {| patch_id := patch_id |} in
  let initial_state := if replaying_when_invoked then Replaying else Executing in
  details ← lift match build_has_change_marker_details patch_id deprecated with
                 | Some d => Ok d
                 | None => Err (Fatal "While encoding patch marker details")
                 end;
  let command := CA_RecordMarker
    {| RecordMarkerCmd_marker_name := PATCH_MARKER_NAME;
       RecordMarkerCmd_details := details;
       RecordMarkerCmd_header := None;
       RecordMarkerCmd_failure := None |} in
  m ← (fun fl =>
         match on_event (SM := PatchMachine) Schedule
                 (from_parts (SM := PatchMachine) initial_state shared_state, fl) with
         | ((m, fl), Ok _) => (fl, Ok m)
         | ((_, fl), _) => (fl, Panic "Patch machine scheduling doesn't fail")
         end);
  let replaying_and_not_in_history := replaying_when_invoked && negb seen_in_peekahead in
  can_use_flag ← (fun fl =>
    let '(fl, b) := try_use UpsertSearchAttributeOnPatch (negb replaying_when_invoked) fl in
    (fl, Ok b));
  maybe_upsert_cmd ← lift
    (if replaying_and_not_in_history || negb can_use_flag then Ok []
     else version_upsert patch_id existing_patch_ids);
  mret (m, command, maybe_upsert_cmd).

(** ** Properties *)

(** (functional): a patch call that succeeds yields a record-marker command
    whose details decode to the patch id and the deprecation flag, and upserts
    the version search attribute exactly when the flag may be used, the call is
    not a replay of code whose marker is missing from history, and the value
    fits; the upserted set is the known patches and this one. *)
Theorem has_change_commands {L : JsonLaws PatchedMarkerData} patch_id replaying deprecated seen
    existing fl fl' m cmd resps :
  has_change patch_id replaying deprecated seen existing fl = (fl', Ok (m, cmd, resps)) ->
  m = from_parts (SM := PatchMachine)
        (if replaying then MarkerCommandCreatedReplaying else MarkerCommandCreated)
        {| patch_id := patch_id |} /\
  (exists details, cmd = CA_RecordMarker
     {| RecordMarkerCmd_marker_name := PATCH_MARKER_NAME; RecordMarkerCmd_details := details;
        RecordMarkerCmd_header := None; RecordMarkerCmd_failure := None |} /\
     decode_change_marker_details details = Some (patch_id, deprecated)) /\
  (if (replaying && negb seen)
      || negb (try_use UpsertSearchAttributeOnPatch (negb replaying) fl).2
   then resps = [] else Ok resps = version_upsert patch_id existing).
Proof.
  unfold has_change. intros H.
  destruct (build_has_change_marker_details patch_id deprecated) as [det|] eqn:Hb; [|done].
  apply ProtoExt.change_marker_decodes in Hb.
  unfold_M in H. cbn -[try_use version_upsert] in H.
  destruct replaying; cbn -[try_use version_upsert] in *;
    destruct (try_use _ _ _) as [fl1 can]; cbn -[version_upsert] in *.
  - destruct (negb seen || negb can); [|destruct (version_upsert _ _) eqn:Hv]; simplify_eq; eauto.
  - destruct (negb can); [|destruct (version_upsert _ _) eqn:Hv]; simplify_eq; eauto.
Qed.

End patch.

(** Sets of patch ids written as their number, for evaluation. *)
Definition example_set_json : Json (gset string) :=
  {| to_json s := Some (to_string (Z.of_nat (size s))); of_json _ := Some ∅ |}.

Lemma has_change_commands_witness :
  exists fl' m cmd resps,
    has_change (HJ := example_patch_json) (HS := example_set_json) "my-patch" false true false ∅
      example_flags = (fl', Ok (m, cmd, resps)) /\
    m = from_parts (SM := PatchMachine) MarkerCommandCreated {| patch_id := "my-patch" |}.
Proof.
  assert (exists fl' m cmd resps,
    has_change (HJ := example_patch_json) (HS := example_set_json) "my-patch" false true false ∅
      example_flags = (fl', Ok (m, cmd, resps))) as (fl' & m & cmd & resps & H)
    by (do 4 eexists; vm_compute; reflexivity).
  exists fl', m, cmd, resps. split; [exact H|].
  exact (proj1 (has_change_commands (HJ := example_patch_json) (HS := example_set_json)
    (L := example_patch_json_laws) "my-patch" false true false ∅ example_flags _ _ _ _ H)).
Defined.

End Patch.
