(* ===== verification/LocalActs.v ===== *)
(** * Local activity requests of a run (machines/workflow_machines/local_acts.rs)

    The queues of local activities to start and to cancel, the set of executing
    ones, and the results read ahead from history.  The operations refine an
    abstract set of outstanding sequence numbers. *)
From Stdlib Require Import ZArith Lia.
From stdpp Require Import base option list strings gmap fin_sets.
From S2P Require Import Prelude Flags Protos ProtoExt CoreProtos LocalActivityMachine.

(** ** Requests to the local activity manager (worker/activities/local_activities.rs) *)
Record ExecutingLAId := { laid_run_id : string; laid_seq_num : Z }.

Record NewLocalAct := {
  schedule_cmd : ValidScheduleLA;
  nla_workflow_type : string;
  workflow_exec_info : WorkflowExecution;
  schedule_time : Z;
}.

(** The timer of a heartbeat is given by its run, its deadline and the handle
    that aborts it. *)
Inductive LocalActRequest :=
| LA_New (a : NewLocalAct)
| LA_Cancel (id : ExecutingLAId)
| LA_CancelAllInRun (run_id : string)
| LA_StartHeartbeatTimeout (run_id : string) (deadline : Z) (handle : N)
| LA_IndicateWorkflowTaskCompleted (run_id : string).

Record LocalActivityResolution := {
  lar_seq : Z;
  lar_result : LocalActivityExecutionResult;
  lar_runtime : Z;
  lar_attempt : Z;
  lar_backoff : option Duration;
  lar_original_schedule_time : option Z;
}.

Module LocalActs.

Record LocalActivityData := {
  new_requests : list ValidScheduleLA;
  cancel_requests : list ExecutingLAId;
  executing : gset Z;
  preresolutions : gmap Z LocalActivity.ResolveDat;
  am_terminating : bool;
}.

Definition LocalActivityData_default : LocalActivityData :=
  {| new_requests := []; cancel_requests := []; executing := ∅; preresolutions := ∅;
     am_terminating := false |}.

Definition enqueue (act : ValidScheduleLA) (d : LocalActivityData) : LocalActivityData :=
  {| new_requests := d.(new_requests) ++ [act]; cancel_requests := d.(cancel_requests);
     executing := d.(executing); preresolutions := d.(preresolutions);
     am_terminating := d.(am_terminating) |}.

Definition enqueue_cancel (cancel : ExecutingLAId) (d : LocalActivityData) : LocalActivityData :=
  {| new_requests := d.(new_requests); cancel_requests := d.(cancel_requests) ++ [cancel];
     executing := d.(executing); preresolutions := d.(preresolutions);
     am_terminating := d.(am_terminating) |}.

Definition done_executing (seq : Z) (d : LocalActivityData) : LocalActivityData :=
  {| new_requests := filter (fun req => req.(la_seq) ≠ seq) d.(new_requests);
     cancel_requests := d.(cancel_requests);
     executing := d.(executing) ∖ {[seq]}; preresolutions := d.(preresolutions);
     am_terminating := d.(am_terminating) |}.

(** [now sa] is the reading of the clock when the request for [sa] is formed. *)
Definition take_all_reqs (wf_type wf_id run_id : string) (now : ValidScheduleLA -> Z)
    (d : LocalActivityData) : LocalActivityData * list LocalActRequest :=
  if d.(am_terminating) then (d, [LA_CancelAllInRun run_id])
  else
    ({| new_requests := []; cancel_requests := [];
        executing := d.(executing) ∪ list_to_set (la_seq <$> d.(new_requests));
        preresolutions := d.(preresolutions); am_terminating := d.(am_terminating) |},
     (LA_Cancel <$> d.(cancel_requests)) ++
     ((fun sa => LA_New
         {| schedule_cmd := sa; nla_workflow_type := wf_type;
            workflow_exec_info := {| WorkflowExecution_workflow_id := wf_id;
                                     WorkflowExecution_run_id := run_id |};
            schedule_time := now sa |}) <$> d.(new_requests))).

Definition outstanding_la_count (d : LocalActivityData) : nat :=
  if d.(am_terminating) then 0 else size d.(executing) + length d.(new_requests).

Definition insert_preresolution (seq : Z) (r : LocalActivity.ResolveDat) (d : LocalActivityData)
  : LocalActivityData :=
  {| new_requests := d.(new_requests); cancel_requests := d.(cancel_requests);
     executing := d.(executing); preresolutions := <[seq := r]> d.(preresolutions);
     am_terminating := d.(am_terminating) |}.

Definition insert_peeked_marker `{WktTime} (dat : CompleteLocalActivityData)
    (d : LocalActivityData) : LocalActivityData :=
  insert_preresolution dat.(marker_dat).(LocalActivityMarkerData_seq)
    (LocalActivity.ResolveDat_from dat) d.

Definition take_preresolution (seq : Z) (d : LocalActivityData)
  : LocalActivityData * option LocalActivity.ResolveDat :=
  ({| new_requests := d.(new_requests); cancel_requests := d.(cancel_requests);
      executing := d.(executing); preresolutions := delete seq d.(preresolutions);
      am_terminating := d.(am_terminating) |},
   d.(preresolutions) !! seq).

(** [position] of the first request with this number, removed. *)
Fixpoint remove_first (seq : Z) (l : list ValidScheduleLA)
  : list ValidScheduleLA * option ValidScheduleLA :=
  match l with
  | [] => ([], None)
  | req :: l =>
      if (req.(la_seq) =? seq)%Z then (l, Some req)
      else let '(l', r) := remove_first seq l in (req :: l', r)
  end.

Definition remove_from_queue (seq : Z) (d : LocalActivityData)
  : LocalActivityData * option ValidScheduleLA :=
  let '(l, r) := remove_first seq d.(new_requests) in
  ({| new_requests := l; cancel_requests := d.(cancel_requests);
      executing := d.(executing); preresolutions := d.(preresolutions);
      am_terminating := d.(am_terminating) |}, r).

Definition indicate_terminating (d : LocalActivityData) : LocalActivityData :=
  {| new_requests := d.(new_requests); cancel_requests := d.(cancel_requests);
     executing := d.(executing); preresolutions := d.(preresolutions);
     am_terminating := true |}.

(** ** Properties *)

(** The calls a run makes on its local activity data. *)
Inductive la_op :=
| OpEnqueue (act : ValidScheduleLA)
| OpEnqueueCancel (id : ExecutingLAId)
| OpDone (seq : Z)
| OpTakeAll
| OpPreresolve (seq : Z) (r : LocalActivity.ResolveDat)
| OpTakePreresolution (seq : Z)
| OpRemove (seq : Z)
| OpTerminate.

Section run.
  Context (wf_type wf_id run_id : string) (now : ValidScheduleLA -> Z).

Definition la_step (op : la_op) (d : LocalActivityData)
  : LocalActivityData * list LocalActRequest :=
  match op with
  | OpEnqueue act => (enqueue act d, [])
  | OpEnqueueCancel id => (enqueue_cancel id d, [])
  | OpDone seq => (done_executing seq d, [])
  | OpTakeAll => take_all_reqs wf_type wf_id run_id now d
  | OpPreresolve seq r => (insert_preresolution seq r d, [])
  | OpTakePreresolution seq => ((take_preresolution seq d).1, [])
  | OpRemove seq => ((remove_from_queue seq d).1, [])
  | OpTerminate => (indicate_terminating d, [])
  end.

Fixpoint la_run (ops : list la_op) (d : LocalActivityData)
  : LocalActivityData * list LocalActRequest :=
  match ops with
  | [] => (d, [])
  | op :: ops =>
      let '(d, reqs) := la_step op d in
      let '(d, more) := la_run ops d in (d, reqs ++ more)
  end.

End run.

Definition enqueued (ops : list la_op) : list Z :=
  omap (fun op => match op with OpEnqueue a => Some a.(la_seq) | _ => None end) ops.

Definition dropped (ops : list la_op) : list Z :=
  omap (fun op => match op with OpDone s | OpRemove s => Some s | _ => None end) ops.

Definition started (reqs : list LocalActRequest) : list Z :=
  omap (fun r => match r with LA_New a => Some a.(schedule_cmd).(la_seq) | _ => None end) reqs.

Definition queued (d : LocalActivityData) : list Z := la_seq <$> d.(new_requests).

Definition outstanding (d : LocalActivityData) : gset Z :=
  d.(executing) ∪ list_to_set (queued d).

Lemma remove_first_sublist seq l : sublist (remove_first seq l).1 l.
Proof.
  induction l as [|r l IH]; simpl; [constructor|].
  destruct (_ =? _)%Z; [by constructor|].
  destruct (remove_first seq l); simpl in *. by constructor.
Qed.

Lemma remove_first_keeps seq l s :
  s ≠ seq -> s ∈ la_seq <$> l -> s ∈ la_seq <$> (remove_first seq l).1.
Proof.
  intros Hs. induction l as [|r l IH]; simpl; [done|].
  rewrite elem_of_cons. destruct (Z.eqb_spec (la_seq r) seq) as [->|Hr].
  - by intros [->|].
  - destruct (remove_first seq l); simpl in *. rewrite elem_of_cons. intuition.
Qed.

Lemma started_take cancels news wf_type wf_id run_id now :
  started ((LA_Cancel <$> cancels) ++
    ((fun sa => LA_New
         {| schedule_cmd := sa; nla_workflow_type := wf_type;
            workflow_exec_info := {| WorkflowExecution_workflow_id := wf_id;
                                     WorkflowExecution_run_id := run_id |};
            schedule_time := now sa |}) <$> news)) = la_seq <$> news.
Proof.
  unfold started. induction cancels as [|c l IH]; simpl; [|exact IH].
  induction news as [|a l IH]; simpl; [done|]. f_equal. exact IH.
Qed.

(** What one call moves: queued and started numbers come from the queue and the
    enqueued ones, only a drop removes one, and only started ones execute. *)
Lemma la_step_moves wf_type wf_id run_id now op d d' reqs :
  la_step wf_type wf_id run_id now op d = (d', reqs) ->
  queued d' ++ started reqs ⊆+ queued d ++ enqueued [op] /\
  (forall s, s ∈ queued d ++ enqueued [op] ->
     s ∈ queued d' ++ started reqs \/ s ∈ dropped [op]) /\
  (forall s, s ∈ d'.(executing) -> s ∈ d.(executing) \/ s ∈ started reqs).
Proof.
  destruct op; simpl; try (intros [= <- <-]; simpl; split_and!; [done|by auto|by auto]).
  - intros [= <- <-]. unfold queued; simpl. rewrite fmap_app, app_nil_r.
    split_and!; [done|by auto|by auto].
  - intros [= <- <-]. unfold queued; simpl. rewrite !app_nil_r. split_and!.
    + apply sublist_submseteq, fmap_sublist, sublist_filter.
    + intros s Hs. destruct (decide (s = seq)) as [->|Hne]; [right; set_solver|left].
      apply list_elem_of_fmap in Hs as (a & -> & Ha). apply list_elem_of_fmap.
      exists a. by rewrite list_elem_of_filter.
    + set_solver.
  - unfold take_all_reqs. destruct (am_terminating d); intros [= <- <-]; simpl.
    + split_and!; [done|by auto|by auto].
    + rewrite started_take, app_nil_r. split_and!; [done|by auto|]. set_solver.
  - intros [= <- <-]. unfold remove_from_queue, queued.
    pose proof (remove_first_sublist seq (new_requests d)).
    pose proof (remove_first_keeps seq (new_requests d)) as Hk.
    destruct (remove_first seq (new_requests d)) as [l r]; simpl in *. rewrite !app_nil_r.
    split_and!; [by apply sublist_submseteq, fmap_sublist| |by auto].
    intros s Hs. destruct (decide (s = seq)) as [->|]; [right; set_solver|left; by apply Hk].
Qed.

Lemma submseteq_NoDup {A} (l k : list A) : l ⊆+ k -> NoDup k -> NoDup l.
Proof.
  intros [k' ->]%submseteq_Permutation Hk. by apply NoDup_app in Hk as [? _].
Qed.

Lemma submseteq_chain {A} (q q1 q2 s1 s2 e1 e2 : list A) :
  q1 ++ s1 ⊆+ q ++ e1 -> q2 ++ s2 ⊆+ q1 ++ e2 -> q2 ++ s1 ++ s2 ⊆+ q ++ e1 ++ e2.
Proof.
  intros H1 H2. etrans; [apply Permutation_submseteq|].
  { by rewrite (Permutation_app_comm s1), app_assoc. }
  etrans; [apply submseteq_skips_r, H2|].
  etrans; [apply Permutation_submseteq|].
  { by rewrite <- app_assoc, (Permutation_app_comm e2), app_assoc. }
  etrans; [apply submseteq_skips_r, H1|]. by rewrite <- app_assoc.
Qed.

Lemma la_run_moves wf_type wf_id run_id now ops d d' reqs :
  la_run wf_type wf_id run_id now ops d = (d', reqs) ->
  queued d' ++ started reqs ⊆+ queued d ++ enqueued ops /\
  (forall s, s ∈ queued d ++ enqueued ops ->
     s ∈ queued d' ++ started reqs \/ s ∈ dropped ops) /\
  (forall s, s ∈ d'.(executing) -> s ∈ d.(executing) \/ s ∈ started reqs).
Proof.
  revert d reqs. induction ops as [|op ops IH]; intros d reqs; cbn [la_run].
  { intros [= <- <-]. simpl. auto. }
  destruct (la_step _ _ _ _ op d) as [d1 r1] eqn:E1.
  destruct (la_run _ _ _ _ ops d1) as [d2 r2] eqn:E2. intros [= <- <-].
  apply la_step_moves in E1 as (Ha & Hb & Hc).
  apply IH in E2 as (Ha' & Hb' & Hc').
  assert (enqueued (op :: ops) = enqueued [op] ++ enqueued ops) as ->
    by (unfold enqueued; simpl; by destruct op).
  assert (dropped (op :: ops) = dropped [op] ++ dropped ops) as ->
    by (unfold dropped; simpl; by destruct op).
  unfold started in *. rewrite omap_app. split_and!.
  - eapply submseteq_chain; eassumption.
  - setoid_rewrite elem_of_app in Hb. setoid_rewrite elem_of_app in Hb'.
    intros s. rewrite !elem_of_app. specialize (Hb s). specialize (Hb' s). tauto.
  - intros s [Hs|Hs]%Hc'; [|right; apply elem_of_app; by right].
    apply Hc in Hs as [Hs|Hs]; [by left|right; apply elem_of_app; by left].
Qed.

(** (safety): when a run requests every local activity under a number of its
    own, each one is handed to the local activity manager at most once, nothing
    else is handed to it, and none is lost: what was requested was handed over,
    is still queued, or was resolved before. *)
Theorem local_activities_started_once wf_type wf_id run_id now ops :
  NoDup (enqueued ops) ->
  let '(d, reqs) := la_run wf_type wf_id run_id now ops LocalActivityData_default in
  NoDup (started reqs) /\
  (forall s, s ∈ started reqs -> s ∈ enqueued ops /\ s ∉ queued d) /\
  (forall s, s ∈ enqueued ops -> s ∈ started reqs \/ s ∈ queued d \/ s ∈ dropped ops).
Proof.
  intros Hnd. destruct (la_run _ _ _ _ _ _) as [d reqs] eqn:E.
  apply la_run_moves in E as (Ha & Hb & _). simpl in *.
  pose proof (submseteq_NoDup _ _ Ha Hnd) as (_ & Hd & Hs)%NoDup_app.
  split_and!; [done| |].
  - intros s Hin. split; [|intros Hq; by apply (Hd s)].
    eapply elem_of_submseteq; [|exact Ha]. set_solver.
  - intros s [Hin|]%Hb; set_solver.
Qed.

(** (refinement): the number of outstanding local activities, which keeps
    the workflow task open, is the size of the set of numbers that are queued
    or executing, none counted twice, until the workflow is terminating. *)
Theorem outstanding_la_count_refines wf_type wf_id run_id now ops :
  NoDup (enqueued ops) ->
  let d := (la_run wf_type wf_id run_id now ops LocalActivityData_default).1 in
  outstanding_la_count d = if d.(am_terminating) then 0 else size (outstanding d).
Proof.
  intros Hnd. destruct (la_run _ _ _ _ _ _) as [d reqs] eqn:E. simpl.
  apply la_run_moves in E as (Ha & _ & Hc). simpl in *.
  pose proof (submseteq_NoDup _ _ Ha Hnd) as (Hq & Hd & _)%NoDup_app.
  unfold outstanding_la_count, outstanding. destruct (am_terminating d); [done|].
  rewrite size_union by set_solver. rewrite size_list_to_set by done.
  unfold queued. by rewrite length_fmap.
Qed.

(** A local activity request, for evaluation. *)
Definition example_act (seq : Z) : ValidScheduleLA :=
  {| la_seq := seq; la_activity_id := "a"; la_activity_type := "t"; la_attempt := 1;
     la_original_schedule_time := None; la_headers := ∅; la_arguments := [];
     la_schedule_to_start_timeout := None; la_close_timeouts := ScheduleOnly 1;
     la_retry_policy := RetryPolicy_default; la_local_retry_threshold := 0;
     la_cancellation_type := ACT_TryCancel |}.

Definition example_ops : list la_op :=
  [OpEnqueue (example_act 1); OpEnqueue (example_act 2); OpTakeAll; OpEnqueue (example_act 3);
   OpDone 1].

Lemma example_ops_NoDup : NoDup (enqueued example_ops).
Proof. apply (bool_decide_unpack _). vm_compute. exact I. Qed.

Lemma local_activities_started_once_witness :
  started (la_run "t" "w" "r" (fun _ => 0%Z) example_ops LocalActivityData_default).2 = [1; 2]%Z /\
  let '(d, reqs) := la_run "t" "w" "r" (fun _ => 0%Z) example_ops LocalActivityData_default in
  forall s, s ∈ enqueued example_ops -> s ∈ started reqs \/ s ∈ queued d \/ s ∈ dropped example_ops.
Proof.
  split; [vm_compute; reflexivity|].
  exact (proj2 (proj2 (local_activities_started_once "t" "w" "r" (fun _ => 0%Z) example_ops
    example_ops_NoDup))).
Defined.

Lemma outstanding_la_count_refines_witness :
  2 = size (outstanding (la_run "t" "w" "r" (fun _ => 0%Z) example_ops LocalActivityData_default).1).
Proof.
  exact (outstanding_la_count_refines "t" "w" "r" (fun _ => 0%Z) example_ops example_ops_NoDup).
Defined.

End LocalActs.
