(* ===== verification/LocalActManager.v ===== *)
(** * The local activity manager (worker/activities/local_activities.rs)

    Executes the local activities of all runs of a worker: it queues them,
    dispatches them to lang as slots allow, times them out, retries them after a
    backoff and reports their resolutions.  The tasks it spawns on the runtime
    are part of its state: each waits for its deadline and then sends to one of
    the channels, and aborting a finished task does nothing. *)
From Stdlib Require Import ZArith Lia.
From stdpp Require Import base option list strings gmap.
From S2P Require Import Prelude TimeArith Flags Protos ProtoExt CoreProtos Retry ActivityTasks.
From S2P Require Import LocalActs.

#[global] Instance ExecutingLAId_eq_dec : EqDecision ExecutingLAId.
Proof. solve_decision. Defined.
#[global] Program Instance ExecutingLAId_countable : Countable ExecutingLAId :=
  inj_countable' (fun i => (i.(laid_run_id), i.(laid_seq_num)))
    (fun p => {| laid_run_id := p.1; laid_seq_num := p.2 |}) _.
Next Obligation. by intros []. Qed.

(** Readings of the system clock and of the monotonic clock. *)
Record clock := { sys_now : Z; instant_now : Z }.

(** ** Data *)
Definition timeout_result (tt : TimeoutType) : LocalActivityExecutionResult :=
  LAR_TimedOut {| ar_Failure_failure := Some
    (mkFailure "Activity timed out" "" "" None None
       (Some (FI_Timeout {| TimeoutFailureInfo_timeout_type := TimeoutType_as_i32 tt;
                            TimeoutFailureInfo_last_heartbeat_details := None |}))) |}.

Definition get_timeout_type (r : LocalActivityExecutionResult) : option TimeoutType :=
  match r with
  | LAR_TimedOut f =>
      match f.(ar_Failure_failure) ≫= Failure_failure_info with
      | Some (FI_Timeout t) => TimeoutType_try_from t.(TimeoutFailureInfo_timeout_type)
      | _ => None
      end
  | _ => None
  end.

Definition la_id (a : NewLocalAct) : ExecutingLAId :=
  {| laid_run_id := a.(workflow_exec_info).(WorkflowExecution_run_id);
     laid_seq_num := a.(schedule_cmd).(la_seq) |}.

Record LocalInFlightActInfo := {
  lif_la_info : NewLocalAct;
  lif_dispatch_time : Z;
  lif_attempt : Z;
}.

Inductive NewOrRetry :=
| NR_New (a : NewLocalAct)
| NR_Retry (in_flight : NewLocalAct) (attempt : Z).

Definition nr_la (r : NewOrRetry) : NewLocalAct :=
  match r with NR_New a => a | NR_Retry a _ => a end.

Inductive CancelOrTimeout :=
| CT_Cancel (t : ActivityTask)
| CT_Timeout (run_id : string) (resolution : LocalActivityResolution).

(** The join handles of the tasks, and what the start-to-close task will send. *)
Record TimeoutBag := {
  tb_sched_to_close_handle : N;
  tb_start_to_close_dur_and_dat : option (Z * CancelOrTimeout);
  tb_start_to_close_handle : option N;
}.

Record LocalActivityInfo := {
  lai_task_token : string;
  lai_backing_off_task : option N;
  lai_timeout_bag : option TimeoutBag;
  lai_first_wft_has_ended : bool;
  lai_attempts_in_wft : Z;
}.

Inductive LACompleteAction :=
| LAC_Report (run_id : string) (resolution : LocalActivityResolution) (task : option ActivityTask)
| LAC_WillBeRetried (task : option ActivityTask)
| LAC_Untracked.

Inductive NextPendingLAAction :=
| NP_Dispatch (t : ActivityTask)
| NP_Autocomplete (a : LACompleteAction).

(** A spawned task, asleep until [sp_deadline]. *)
Inductive spawned_body :=
| SB_ScheduleToClose (dat : CancelOrTimeout)
| SB_StartToClose (dat : CancelOrTimeout) (started_t : Z)
| SB_Backoff (in_flight : NewLocalAct) (attempt : Z)
| SB_Heartbeat (run_id : string) (abort_reg : N).

Record spawned := { sp_deadline : Z; sp_body : spawned_body }.

Record LAMData := {
  la_info : gmap ExecutingLAId LocalActivityInfo;
  outstanding_activity_tasks : gmap string LocalInFlightActInfo;
  next_tt_num : Z;
}.

(** [permits] are the free slots of the permit dealer; [rcvs_dropped] says that
    the receiving stream was replaced by the empty one; [heartbeat_timeouts] is
    what was sent to the workflows. *)
Record LAM := {
  act_req : list NewOrRetry;
  cancels_req : list CancelOrTimeout;
  heartbeat_timeouts : list string;
  complete_notify : bool;
  workflows_have_shut_down : bool;
  shutdown_complete_tok : bool;
  rcvs_dropped : bool;
  permits : nat;
  dat : LAMData;
  tasks : gmap N spawned;
  next_handle : N;
}.

Definition set_act_req (x : list NewOrRetry) (s : LAM) : LAM :=
  {| act_req := x; cancels_req := s.(cancels_req);
     heartbeat_timeouts := s.(heartbeat_timeouts); complete_notify := s.(complete_notify);
     workflows_have_shut_down := s.(workflows_have_shut_down);
     shutdown_complete_tok := s.(shutdown_complete_tok); rcvs_dropped := s.(rcvs_dropped);
     permits := s.(permits); dat := s.(dat); tasks := s.(tasks);
     next_handle := s.(next_handle) |}.
Definition set_cancels_req (x : list CancelOrTimeout) (s : LAM) : LAM :=
  {| act_req := s.(act_req); cancels_req := x; heartbeat_timeouts := s.(heartbeat_timeouts);
     complete_notify := s.(complete_notify);
     workflows_have_shut_down := s.(workflows_have_shut_down);
     shutdown_complete_tok := s.(shutdown_complete_tok); rcvs_dropped := s.(rcvs_dropped);
     permits := s.(permits); dat := s.(dat); tasks := s.(tasks);
     next_handle := s.(next_handle) |}.
Definition set_heartbeat_timeouts (x : list string) (s : LAM) : LAM :=
  {| act_req := s.(act_req); cancels_req := s.(cancels_req); heartbeat_timeouts := x;
     complete_notify := s.(complete_notify);
     workflows_have_shut_down := s.(workflows_have_shut_down);
     shutdown_complete_tok := s.(shutdown_complete_tok); rcvs_dropped := s.(rcvs_dropped);
     permits := s.(permits); dat := s.(dat); tasks := s.(tasks);
     next_handle := s.(next_handle) |}.
Definition set_complete_notify (x : bool) (s : LAM) : LAM :=
  {| act_req := s.(act_req); cancels_req := s.(cancels_req);
     heartbeat_timeouts := s.(heartbeat_timeouts); complete_notify := x;
     workflows_have_shut_down := s.(workflows_have_shut_down);
     shutdown_complete_tok := s.(shutdown_complete_tok); rcvs_dropped := s.(rcvs_dropped);
     permits := s.(permits); dat := s.(dat); tasks := s.(tasks);
     next_handle := s.(next_handle) |}.
Definition set_workflows_have_shut_down (x : bool) (s : LAM) : LAM :=
  {| act_req := s.(act_req); cancels_req := s.(cancels_req);
     heartbeat_timeouts := s.(heartbeat_timeouts); complete_notify := s.(complete_notify);
     workflows_have_shut_down := x; shutdown_complete_tok := s.(shutdown_complete_tok);
     rcvs_dropped := s.(rcvs_dropped); permits := s.(permits); dat := s.(dat);
     tasks := s.(tasks); next_handle := s.(next_handle) |}.
Definition set_shutdown_complete_tok (x : bool) (s : LAM) : LAM :=
  {| act_req := s.(act_req); cancels_req := s.(cancels_req);
     heartbeat_timeouts := s.(heartbeat_timeouts); complete_notify := s.(complete_notify);
     workflows_have_shut_down := s.(workflows_have_shut_down); shutdown_complete_tok := x;
     rcvs_dropped := s.(rcvs_dropped); permits := s.(permits); dat := s.(dat);
     tasks := s.(tasks); next_handle := s.(next_handle) |}.
Definition set_rcvs_dropped (x : bool) (s : LAM) : LAM :=
  {| act_req := s.(act_req); cancels_req := s.(cancels_req);
     heartbeat_timeouts := s.(heartbeat_timeouts); complete_notify := s.(complete_notify);
     workflows_have_shut_down := s.(workflows_have_shut_down);
     shutdown_complete_tok := s.(shutdown_complete_tok); rcvs_dropped := x;
     permits := s.(permits); dat := s.(dat); tasks := s.(tasks);
     next_handle := s.(next_handle) |}.
Definition set_permits (x : nat) (s : LAM) : LAM :=
  {| act_req := s.(act_req); cancels_req := s.(cancels_req);
     heartbeat_timeouts := s.(heartbeat_timeouts); complete_notify := s.(complete_notify);
     workflows_have_shut_down := s.(workflows_have_shut_down);
     shutdown_complete_tok := s.(shutdown_complete_tok); rcvs_dropped := s.(rcvs_dropped);
     permits := x; dat := s.(dat); tasks := s.(tasks); next_handle := s.(next_handle) |}.
Definition set_dat (x : LAMData) (s : LAM) : LAM :=
  {| act_req := s.(act_req); cancels_req := s.(cancels_req);
     heartbeat_timeouts := s.(heartbeat_timeouts); complete_notify := s.(complete_notify);
     workflows_have_shut_down := s.(workflows_have_shut_down);
     shutdown_complete_tok := s.(shutdown_complete_tok); rcvs_dropped := s.(rcvs_dropped);
     permits := s.(permits); dat := x; tasks := s.(tasks); next_handle := s.(next_handle) |}.
Definition set_tasks (ts : gmap N spawned) (n : N) (s : LAM) : LAM :=
  {| act_req := s.(act_req); cancels_req := s.(cancels_req);
     heartbeat_timeouts := s.(heartbeat_timeouts); complete_notify := s.(complete_notify);
     workflows_have_shut_down := s.(workflows_have_shut_down);
     shutdown_complete_tok := s.(shutdown_complete_tok); rcvs_dropped := s.(rcvs_dropped);
     permits := s.(permits); dat := s.(dat); tasks := ts; next_handle := n |}.

Definition set_la_info (x : gmap ExecutingLAId LocalActivityInfo) (s : LAM) : LAM :=
  set_dat {| la_info := x; outstanding_activity_tasks := s.(dat).(outstanding_activity_tasks);
             next_tt_num := s.(dat).(next_tt_num) |} s.
Definition set_outstanding (x : gmap string LocalInFlightActInfo) (s : LAM) : LAM :=
  set_dat {| la_info := s.(dat).(la_info); outstanding_activity_tasks := x;
             next_tt_num := s.(dat).(next_tt_num) |} s.

Definition LAM_new (slots : nat) : LAM :=
  {| act_req := []; cancels_req := []; heartbeat_timeouts := []; complete_notify := false;
     workflows_have_shut_down := false; shutdown_complete_tok := false; rcvs_dropped := false;
     permits := slots;
     dat := {| la_info := ∅; outstanding_activity_tasks := ∅; next_tt_num := 0 |};
     tasks := ∅; next_handle := 0 |}.

(** ** Spawned tasks *)
Definition spawn (t : spawned) (s : LAM) : LAM * N :=
  (set_tasks (<[s.(next_handle) := t]> s.(tasks)) (s.(next_handle) + 1)%N s, s.(next_handle)).

(** The handle of a task that is done at once. *)
Definition spawn_done (s : LAM) : LAM * N :=
  (set_tasks s.(tasks) (s.(next_handle) + 1)%N s, s.(next_handle)).

Definition abort (h : N) (s : LAM) : LAM := set_tasks (delete h s.(tasks)) s.(next_handle) s.

Definition send_cancel (c : CancelOrTimeout) (s : LAM) : LAM :=
  set_cancels_req (s.(cancels_req) ++ [c]) s.
Definition send_act (r : NewOrRetry) (s : LAM) : LAM := set_act_req (s.(act_req) ++ [r]) s.

(** A start-to-close timeout is the data of the bag with another result. *)
Definition as_start_to_close (runtime : Z) (d : CancelOrTimeout) : CancelOrTimeout :=
  match d with
  | CT_Timeout run_id r =>
      CT_Timeout run_id
        {| lar_seq := r.(lar_seq); lar_result := timeout_result TimeoutType_StartToClose;
           lar_runtime := runtime; lar_attempt := r.(lar_attempt);
           lar_backoff := r.(lar_backoff);
           lar_original_schedule_time := r.(lar_original_schedule_time) |}
  | CT_Cancel t => CT_Cancel t
  end.

(** What a task does when it wakes at [now]. *)
Definition wake (now : Z) (b : spawned_body) (s : LAM) : LAM :=
  match b with
  | SB_ScheduleToClose d => send_cancel d s
  | SB_StartToClose d started_t => send_cancel (as_start_to_close (now - started_t) d) s
  | SB_Backoff a attempt => send_act (NR_Retry a attempt) s
  | SB_Heartbeat run_id _ => set_heartbeat_timeouts (s.(heartbeat_timeouts) ++ [run_id]) s
  end.

(** The task [h] runs at [now], if it is there and its deadline has passed. *)
Definition fire (now : Z) (h : N) (s : LAM) : option LAM :=
  match s.(tasks) !! h with
  | Some t => if (t.(sp_deadline) <=? now)%Z then Some (wake now t.(sp_body) (abort h s)) else None
  | None => None
  end.

(** The run drops or aborts the handle of its heartbeat timer. *)
Definition heartbeat_of (reg : N) (b : spawned_body) : bool :=
  match b with SB_Heartbeat _ r => (r =? reg)%N | _ => false end.

Definition abort_heartbeat (reg : N) (s : LAM) : LAM :=
  set_tasks (filter (fun p => heartbeat_of reg p.2.(sp_body) = false) s.(tasks))
    s.(next_handle) s.

(** ** Timeouts *)
Definition TimeoutBag_new (c : clock) (new_la : NewLocalAct) (s : LAM)
  : LAM * (TimeoutBag + LocalActivityResolution) :=
  let cmd := new_la.(schedule_cmd) in
  let '(schedule_to_close, start_to_close) := into_sched_and_start cmd.(la_close_timeouts) in
  let sched_time := default new_la.(schedule_time) cmd.(la_original_schedule_time) in
  let resolution :=
    {| lar_seq := cmd.(la_seq); lar_result := timeout_result TimeoutType_ScheduleToClose;
       lar_runtime := 0; lar_attempt := cmd.(la_attempt); lar_backoff := None;
       lar_original_schedule_time := cmd.(la_original_schedule_time) |} in
  let schedule_to_close :=
    (fun s2c => saturating_sub s2c (elapsed_or_zero c.(sys_now) sched_time))
      <$> schedule_to_close in
  if from_option (fun s2c => s2c =? 0)%Z false schedule_to_close then (s, inr resolution)
  else
    let timeout_dat := CT_Timeout new_la.(workflow_exec_info).(WorkflowExecution_run_id) resolution in
    let '(s, h) :=
      match schedule_to_close with
      | Some s2c =>
          spawn {| sp_deadline := c.(instant_now) + s2c;
                   sp_body := SB_ScheduleToClose timeout_dat |} s
      | None => spawn_done s
      end in
    (s, inl {| tb_sched_to_close_handle := h;
               tb_start_to_close_dur_and_dat := (fun d => (d, timeout_dat)) <$> start_to_close;
               tb_start_to_close_handle := None |}).

Definition mark_started (c : clock) (tb : TimeoutBag) (s : LAM) : LAM * TimeoutBag :=
  match tb.(tb_start_to_close_dur_and_dat) with
  | Some (start_to_close, d) =>
      let '(s, h) := spawn {| sp_deadline := c.(instant_now) + start_to_close;
                              sp_body := SB_StartToClose d c.(instant_now) |} s in
      (s, {| tb_sched_to_close_handle := tb.(tb_sched_to_close_handle);
             tb_start_to_close_dur_and_dat := tb.(tb_start_to_close_dur_and_dat);
             tb_start_to_close_handle := Some h |})
  | None => (s, tb)
  end.

Definition drop_bag (tb : option TimeoutBag) (s : LAM) : LAM :=
  match tb with
  | Some tb =>
      let s := abort tb.(tb_sched_to_close_handle) s in
      from_option (fun h => abort h s) s tb.(tb_start_to_close_handle)
  | None => s
  end.

(** ** Requests *)

(** [next_tt_num += 1], which wraps in a release build. *)
Definition gen_next_token (s : LAM) : LAM * string :=
  let n := ((s.(dat).(next_tt_num) + 1) mod (u32_max + 1))%Z in
  (set_dat {| la_info := s.(dat).(la_info);
              outstanding_activity_tasks := s.(dat).(outstanding_activity_tasks);
              next_tt_num := n |} s,
   new_local_activity_token (to_le_bytes n)).

Definition set_backing_off (h : option N) (lai : LocalActivityInfo) : LocalActivityInfo :=
  {| lai_task_token := lai.(lai_task_token); lai_backing_off_task := h;
     lai_timeout_bag := lai.(lai_timeout_bag);
     lai_first_wft_has_ended := lai.(lai_first_wft_has_ended);
     lai_attempts_in_wft := lai.(lai_attempts_in_wft) |}.

Definition set_timeout_bag (tb : option TimeoutBag) (lai : LocalActivityInfo) : LocalActivityInfo :=
  {| lai_task_token := lai.(lai_task_token);
     lai_backing_off_task := lai.(lai_backing_off_task); lai_timeout_bag := tb;
     lai_first_wft_has_ended := lai.(lai_first_wft_has_ended);
     lai_attempts_in_wft := lai.(lai_attempts_in_wft) |}.

Definition cancelled_resolution (seq : Z) : LocalActivityResolution :=
  {| lar_seq := seq; lar_result := LAR_Cancelled (Cancellation_from_details None);
     lar_runtime := 0; lar_attempt := 0; lar_backoff := None;
     lar_original_schedule_time := None |}.

Definition cancel_one_la (id : ExecutingLAId) (lai : LocalActivityInfo) (s : LAM)
  : LAM * list LocalActivityResolution :=
  match lai.(lai_backing_off_task) with
  | Some t =>
      (abort t (set_la_info (<[id := set_backing_off None lai]> s.(dat).(la_info)) s),
       [cancelled_resolution id.(laid_seq_num)])
  | None =>
      (send_cancel (CT_Cancel (cancel_from_ids lai.(lai_task_token) ACR_Cancelled
                      (primary_reason_to_cancellation_details ACR_Cancelled))) s, [])
  end.

(** The order in which a hash map is iterated is not specified. *)
Class HashIter := hash_iter :
  gmap ExecutingLAId LocalActivityInfo -> list (ExecutingLAId * LocalActivityInfo).
Class HashIterLaws `{HashIter} : Prop :=
  hash_iter_perm m : hash_iter m ≡ₚ map_to_list m.

Section requests.
  Context `{HashIter}.

Definition las_for_run (run_id : string) (s : LAM) : list (ExecutingLAId * LocalActivityInfo) :=
  filter (fun p => p.1.(laid_run_id) = run_id) (hash_iter s.(dat).(la_info)).

Fixpoint cancel_las (las : list (ExecutingLAId * LocalActivityInfo)) (s : LAM)
  : LAM * list LocalActivityResolution :=
  match las with
  | [] => (s, [])
  | (id, lai) :: las =>
      let '(s, r) := cancel_one_la id lai s in
      let '(s, rs) := cancel_las las s in
      (s, r ++ rs)
  end.

(** The workflow task of the run was responded to. *)
Definition wft_ended (lai : LocalActivityInfo) : LocalActivityInfo :=
  {| lai_task_token := lai.(lai_task_token);
     lai_backing_off_task := lai.(lai_backing_off_task);
     lai_timeout_bag := lai.(lai_timeout_bag);
     lai_first_wft_has_ended := true; lai_attempts_in_wft := 0 |}.

Definition new_la_info (tok : string) : LocalActivityInfo :=
  {| lai_task_token := tok; lai_backing_off_task := None; lai_timeout_bag := None;
     lai_first_wft_has_ended := false; lai_attempts_in_wft := 0 |}.

Definition enqueue_new (c : clock) (act : NewLocalAct) (s : LAM)
  : LAM * list LocalActivityResolution :=
  let id := la_id act in
  let '(s, tok) := gen_next_token s in
  match s.(dat).(la_info) !! id with
  | Some _ => (s, [])
  | None =>
      let lai := new_la_info tok in
      let s := set_la_info (<[id := lai]> s.(dat).(la_info)) s in
      match TimeoutBag_new c act s with
      | (s, inl tb) =>
          (send_act (NR_New act)
             (set_la_info (<[id := set_timeout_bag (Some tb) lai]> s.(dat).(la_info)) s), [])
      | (s, inr res) => (s, [res])
      end
  end.

Definition enqueue_one (c : clock) (req : LocalActRequest) (s : LAM)
  : LAM * list LocalActivityResolution :=
  match req with
  | LA_New act => enqueue_new c act s
  | LA_StartHeartbeatTimeout run_id deadline reg =>
      ((spawn {| sp_deadline := deadline; sp_body := SB_Heartbeat run_id reg |} s).1, [])
  | LA_Cancel id =>
      match s.(dat).(la_info) !! id with
      | Some lai => cancel_one_la id lai s
      | None => (s, [])
      end
  | LA_CancelAllInRun run_id => cancel_las (las_for_run run_id s) s
  | LA_IndicateWorkflowTaskCompleted run_id =>
      (set_la_info
         (map_imap (fun id lai => Some (if decide (id.(laid_run_id) = run_id)
                                        then wft_ended lai else lai)) s.(dat).(la_info)) s, [])
  end.

Fixpoint enqueue_all (reqs : list (clock * LocalActRequest)) (s : LAM)
  : LAM * list LocalActivityResolution :=
  match reqs with
  | [] => (s, [])
  | (c, req) :: reqs =>
      let '(s, r) := enqueue_one c req s in
      let '(s, rs) := enqueue_all reqs s in
      (s, r ++ rs)
  end.

(** Each request comes with the clocks when it is looked at. *)
Definition enqueue (reqs : list (clock * LocalActRequest)) (s : LAM)
  : LAM * list LocalActivityResolution :=
  if s.(workflows_have_shut_down) then (s, []) else enqueue_all reqs s.

Definition get_nonfirst_attempt_count (for_run_id : string) (s : LAM) : Z :=
  foldr Z.add 0%Z
    ((fun p => p.2.(lai_attempts_in_wft)) <$>
       filter (fun p => p.1.(laid_run_id) = for_run_id /\ p.2.(lai_first_wft_has_ended) = true)
         (hash_iter s.(dat).(la_info))).
End requests.

(** ** Dispatch and completion *)
Definition set_shutdown_complete_if_ready (s : LAM) : LAM * bool :=
  let nothing_outstanding := bool_decide (s.(dat).(outstanding_activity_tasks) = ∅) in
  (if nothing_outstanding && s.(workflows_have_shut_down) then set_shutdown_complete_tok true s
   else s, nothing_outstanding).

Definition workflows_have_shutdown (s : LAM) : LAM :=
  (set_shutdown_complete_if_ready (set_workflows_have_shut_down true s)).1.

Definition shutdown_initiated (s : LAM) : LAM := (set_shutdown_complete_if_ready s).1.

(** One round of [wait_all_outstanding_tasks_finished]: it ends, or waits for a
    notification. *)
Definition wait_round (s : LAM) : LAM * bool :=
  match set_shutdown_complete_if_ready s with
  | (s, true) => (set_rcvs_dropped true s, true)
  | (s, false) => (s, false)
  end.

(** [notified().await]: takes the stored permit, if there is one. *)
Definition notified (s : LAM) : option LAM :=
  if s.(complete_notify) then Some (set_complete_notify false s) else None.

Definition u32_add (a b : Z) : Z := ((a + b) mod (u32_max + 1))%Z.

Section dispatch.
  Context `{WktTime} `{StdTables} (namespace : string).

(** Which backoff follows the result; [None] when it is just reported. *)
Definition failure_path {E} (info : LocalInFlightActInfo) (status : LocalActivityExecutionResult)
  : outcome E (option (option Z)) :=
  let calc_backoff (fail : ar_Failure) :=
    r ← should_retry info.(lif_la_info).(schedule_cmd).(la_retry_policy) info.(lif_attempt)
          (fail.(ar_Failure_failure) ≫= maybe_application_failure);
    Ok (Some r) in
  match status with
  | LAR_Failed fail => calc_backoff fail
  | LAR_TimedOut fail =>
      match get_timeout_type status with
      | Some TimeoutType_StartToClose => calc_backoff fail
      | _ => Ok None
      end
  | LAR_Completed _ | LAR_Cancelled _ => Ok None
  end.

Definition is_timed_out (status : LocalActivityExecutionResult) : bool :=
  match status with LAR_TimedOut _ => true | _ => false end.

(** The entry of the attempt that will follow. *)
Definition retry_la_info (tok : string) (h : N) (old : option LocalActivityInfo)
  : LocalActivityInfo :=
  {| lai_task_token := tok; lai_backing_off_task := Some h;
     lai_timeout_bag := old ≫= lai_timeout_bag;
     lai_first_wft_has_ended := from_option lai_first_wft_has_ended false old;
     lai_attempts_in_wft := from_option (fun o => o.(lai_attempts_in_wft) + 1)%Z 1%Z old |}.

(** The retry is spawned under a fresh token; the timeouts of the activity move
    to the new entry. *)
Definition retry_locally (c : clock) (info : LocalInFlightActInfo) (backoff_dur : Z)
    (old : option LocalActivityInfo) (s : LAM) : LAM :=
  let '(s, tok) := gen_next_token s in
  let '(s, jh) :=
    spawn {| sp_deadline := c.(instant_now) + backoff_dur;
             sp_body := SB_Backoff info.(lif_la_info) (u32_add info.(lif_attempt) 1) |} s in
  set_la_info (<[la_id info.(lif_la_info) := retry_la_info tok jh old]> s.(dat).(la_info)) s.

(** The attempt leaves both maps and gives back its slot. *)
Definition take_outstanding (task_token : string) (exec_id : ExecutingLAId)
    (old : option LocalActivityInfo) (s : LAM) : LAM :=
  let s := set_permits (S s.(permits))
    (set_outstanding (delete task_token s.(dat).(outstanding_activity_tasks)) s) in
  let s := if s.(workflows_have_shut_down) then (set_shutdown_complete_if_ready s).1 else s in
  let s := set_la_info (delete exec_id s.(dat).(la_info)) s in
  from_option (fun h => abort h s) s (old ≫= lai_backing_off_task).

Definition complete {E} (c : clock) (task_token : string) (status : LocalActivityExecutionResult)
  : M LAM E LACompleteAction :=
  s ← get;
  match s.(dat).(outstanding_activity_tasks) !! task_token with
  | None => mret LAC_Untracked
  | Some info =>
      let exec_id := la_id info.(lif_la_info) in
      let cmd := info.(lif_la_info).(schedule_cmd) in
      let old := s.(dat).(la_info) !! exec_id in
      modify (take_outstanding task_token exec_id old);;
      outcome ← lift (failure_path info status);
      let report backoff :=
        LAC_Report exec_id.(laid_run_id)
          {| lar_seq := cmd.(la_seq); lar_result := status;
             lar_runtime := c.(instant_now) - info.(lif_dispatch_time);
             lar_attempt := info.(lif_attempt); lar_backoff := backoff;
             lar_original_schedule_time := cmd.(la_original_schedule_time) |} in
      let task :=
        if is_timed_out status
        then Some (cancel_from_ids task_token ACR_TimedOut
                     (primary_reason_to_cancellation_details ACR_TimedOut))
        else None in
      let drop_old := modify (drop_bag (old ≫= lai_timeout_bag)) in
      match outcome with
      | Some (Some backoff_dur) =>
          if (cmd.(la_local_retry_threshold) <? backoff_dur)%Z then
            drop_old;;
            match duration_try_from backoff_dur with
            | Some b => mret (report (Some b) task)
            | None => panic "backoff fits into proto"
            end
          else
            modify (retry_locally c info backoff_dur old);;
            mret (LAC_WillBeRetried task)
      | Some None => drop_old;; mret (report None task)
      | None =>
          modify (set_complete_notify true);;
          drop_old;; mret (report None task)
      end
  end.

(** What the receiving stream yields next.  It ends once shutdown is complete or
    it was dropped; before, it merges the two channels, and a request is yielded
    together with a slot. *)
Inductive source := FromCancels | FromRequests.

Inductive NewOrCancel :=
| NC_New (r : NewOrRetry)
| NC_Cancel (c : CancelOrTimeout).

(** [None] when the stream has nothing to yield from this source. *)
Definition rcvs_next (from : source) (s : LAM) : option (LAM * option NewOrCancel) :=
  if s.(shutdown_complete_tok) || s.(rcvs_dropped) then Some (s, None)
  else
    match from with
    | FromCancels =>
        match s.(cancels_req) with
        | c :: l => Some (set_cancels_req l s, Some (NC_Cancel c))
        | [] => None
        end
    | FromRequests =>
        match s.(act_req), s.(permits) with
        | r :: l, S n => Some (set_permits n (set_act_req l s), Some (NC_New r))
        | _, _ => None
        end
    end.

Definition start_task (c : clock) (tok : string) (a : NewLocalAct) (attempt : Z) : ActivityTask :=
  let sa := a.(schedule_cmd) in
  let '(schedule_to_close, start_to_close) := into_sched_and_start sa.(la_close_timeouts) in
  {| at_task_token := tok;
     at_variant := Some (ActivityTask_Start
       {| act_Start_workflow_namespace := namespace;
          act_Start_workflow_type := a.(nla_workflow_type);
          act_Start_workflow_execution := Some a.(workflow_exec_info);
          act_Start_activity_id := sa.(la_activity_id);
          act_Start_activity_type := sa.(la_activity_type);
          act_Start_header_fields := sa.(la_headers);
          act_Start_input := sa.(la_arguments);
          act_Start_heartbeat_details := [];
          act_Start_scheduled_time := Some (timestamp_from a.(schedule_time));
          act_Start_current_attempt_scheduled_time := Some (timestamp_from a.(schedule_time));
          act_Start_started_time := Some (timestamp_from c.(sys_now));
          act_Start_attempt := attempt;
          act_Start_schedule_to_close_timeout :=
            duration_try_from (default 0%Z schedule_to_close);
          act_Start_start_to_close_timeout :=
            (match start_to_close with Some d => Some d | None => schedule_to_close end)
              ≫= duration_try_from;
          act_Start_heartbeat_timeout := None;
          act_Start_retry_policy := Some sa.(la_retry_policy);
          act_Start_priority := Some {| Priority_priority_key := 0 |};
          act_Start_is_local := true |}) |}.

Definition next_cancel {E} (c : clock) (ct : CancelOrTimeout)
  : M LAM E (option NextPendingLAAction) :=
  s ← get;
  match ct with
  | CT_Cancel t =>
      mret (if decide (is_Some (s.(dat).(outstanding_activity_tasks) !! t.(at_task_token)))
            then Some (NP_Dispatch t) else None)
  | CT_Timeout run_id resolution =>
      match s.(dat).(la_info) !! {| laid_run_id := run_id;
                                    laid_seq_num := resolution.(lar_seq) |} with
      | Some lai =>
          a ← complete c lai.(lai_task_token) resolution.(lar_result);
          mret (Some (NP_Autocomplete a))
      | None => mret None
      end
  end.

(** How long a request waited, when that is longer than it may. *)
Definition sat_too_long (c : clock) (a : NewLocalAct) : option Z :=
  s2s ← a.(schedule_cmd).(la_schedule_to_start_timeout);
  let sat_for := elapsed_or_zero c.(sys_now) a.(schedule_time) in
  if (s2s <? sat_for)%Z then Some sat_for else None.

Definition start_attempt (r : NewOrRetry) : Z :=
  match r with NR_New n => Z.max n.(schedule_cmd).(la_attempt) 1 | NR_Retry _ a => a end.

Definition dispatch_la {E} (c : clock) (r : NewOrRetry) : M LAM E (option NextPendingLAAction) :=
  let new_la := nr_la r in
  let attempt := start_attempt r in
  let id := la_id new_la in
  modify (fun s => set_la_info (alter (set_backing_off None) id s.(dat).(la_info)) s);;
  match sat_too_long c new_la with
  | Some sat_for =>
      modify (fun s => set_permits (S s.(permits)) s);;
      mret (Some (NP_Autocomplete (LAC_Report id.(laid_run_id)
        {| lar_seq := id.(laid_seq_num);
           lar_result := timeout_result TimeoutType_ScheduleToStart;
           lar_runtime := sat_for; lar_attempt := attempt; lar_backoff := None;
           lar_original_schedule_time := new_la.(schedule_cmd).(la_original_schedule_time) |}
        None)))
  | None =>
      s ← get;
      match s.(dat).(la_info) !! id with
      | None => panic "Activity must exist"
      | Some lai =>
          (match lai.(lai_timeout_bag) with
           | Some tb =>
               modify (fun s => let '(s, tb) := mark_started c tb s in
                 set_la_info (<[id := set_timeout_bag (Some tb) lai]> s.(dat).(la_info)) s)
           | None => mret tt
           end);;
          modify (fun s => set_outstanding
            (<[lai.(lai_task_token) :=
                {| lif_la_info := new_la; lif_dispatch_time := c.(instant_now);
                   lif_attempt := attempt |}]> s.(dat).(outstanding_activity_tasks)) s);;
          mret (Some (NP_Dispatch (start_task c lai.(lai_task_token) new_la attempt)))
      end
  end.

(** [next_pending] once the stream yields. *)
Definition next_pending {E} (c : clock) (item : option NewOrCancel)
  : M LAM E (option NextPendingLAAction) :=
  match item with
  | None => mret None
  | Some (NC_Cancel ct) => next_cancel c ct
  | Some (NC_New r) => dispatch_la c r
  end.

(** ** Its use by the worker (worker/mod.rs) *)

(** What is reported to the workflows, and the task handed to lang. *)
Definition handle_la_complete_action (action : LACompleteAction)
  : list (string * LocalActivityResolution) * option ActivityTask :=
  match action with
  | LAC_Report run_id resolution task => ([(run_id, resolution)], task)
  | LAC_WillBeRetried task => ([], task)
  | LAC_Untracked => ([], None)
  end.

(** [complete_local_act] drops the task, with a [dbg_panic] if there is one. *)
Definition complete_local_act {E} (c : clock) (task_token : string)
    (la_res : LocalActivityExecutionResult) : M LAM E (list (string * LocalActivityResolution)) :=
  a ← complete c task_token la_res;
  mret (handle_la_complete_action a).1.

(** The answer of the local activity side of [activity_poll]: what is reported,
    the task for lang, and whether local activities are considered complete,
    given whether the worker is shutting down. *)
Definition local_activities_poll {E} (shutting_down : bool) (c : clock)
    (item : option NewOrCancel)
  : M LAM E (list (string * LocalActivityResolution) * option ActivityTask * bool) :=
  r ← next_pending c item;
  mret match r with
       | Some (NP_Dispatch t) => ([], Some t, false)
       | Some (NP_Autocomplete a) => (handle_la_complete_action a, false)
       | None => ([], None, shutting_down)
       end.
End dispatch.
