(* ===== verification/LocalActManagerFacts.v ===== *)
(** * What the local activity manager guarantees

    An invariant of its state under every interleaving of requests, polls,
    completions, timers and shutdown: each accepted local activity is either
    still queued, with lang, or backing off, in exactly one of these, or it was
    resolved, once.  The exception is a cancellation that arrives when a backoff
    has elapsed and its retry is still queued; what happens then is shown on an
    example, with the other races of the manager. *)
From Stdlib Require Import ZArith Lia.
From stdpp Require Import base option list strings gmap gmultiset.
From S2P Require Import Prelude TimeArith Flags Protos ProtoExt CoreProtos Retry ActivityTasks.
From S2P Require Import LocalActs LocalActManager.

(** ** The values of a map, as a multiset *)
Definition vals `{Countable K} `{Countable V} (m : gmap K V) : gmultiset V :=
  list_to_set_disj (map_to_list m).*2.

Section vals.
  Context `{Countable K} `{Countable V}.

Lemma vals_empty : vals (∅ : gmap K V) = ∅.
Proof. unfold vals. by rewrite map_to_list_empty. Qed.

Lemma vals_insert (m : gmap K V) k v : m !! k = None -> vals (<[k := v]> m) = {[+ v +]} ⊎ vals m.
Proof. intros Hk. unfold vals. by rewrite map_to_list_insert. Qed.

Lemma vals_delete (m : gmap K V) k v : m !! k = Some v -> vals m = {[+ v +]} ⊎ vals (delete k m).
Proof.
  intros Hk. rewrite <-(vals_insert (delete k m) k v) by apply lookup_delete_eq.
  by rewrite insert_delete_eq, insert_id.
Qed.

Lemma elem_of_vals (m : gmap K V) v : v ∈ vals m -> exists k, m !! k = Some v.
Proof.
  unfold vals. rewrite elem_of_list_to_set_disj, list_elem_of_fmap.
  intros ([k v'] & -> & Hin). exists k. by apply elem_of_map_to_list.
Qed.

Lemma elem_of_vals_2 (m : gmap K V) k v : m !! k = Some v -> v ∈ vals m.
Proof. intros Hk. rewrite (vals_delete m k v Hk). multiset_solver. Qed.
End vals.

(** ** Where local activities are *)
Definition nr_id (r : NewOrRetry) : ExecutingLAId := la_id (nr_la r).

Definition backoff_id (t : spawned) : option ExecutingLAId :=
  match t.(sp_body) with SB_Backoff a _ => Some (la_id a) | _ => None end.

Definition backoffs (s : LAM) : gmap N ExecutingLAId := omap backoff_id s.(tasks).

Definition queued (s : LAM) : gmultiset ExecutingLAId := list_to_set_disj (nr_id <$> s.(act_req)).
Definition running (s : LAM) : gmultiset ExecutingLAId :=
  vals ((fun i => la_id i.(lif_la_info)) <$> s.(dat).(outstanding_activity_tasks)).
Definition backing (s : LAM) : gmultiset ExecutingLAId := vals (backoffs s).

Definition live (s : LAM) : gmultiset ExecutingLAId := queued s ⊎ running s ⊎ backing s.

Definition bag_handles (lai : LocalActivityInfo) : list N :=
  match lai.(lai_timeout_bag) with
  | Some tb => tb.(tb_sched_to_close_handle) :: option_list tb.(tb_start_to_close_handle)
  | None => []
  end.

Definition token_of (n : Z) : string := new_local_activity_token (to_le_bytes n).

(** What holds of the entry of [id]. *)
Record entry_ok (s : LAM) (id : ExecutingLAId) (lai : LocalActivityInfo) : Prop := {
  eo_token : exists n, (1 <= n <= s.(dat).(next_tt_num))%Z /\ lai.(lai_task_token) = token_of n;
  eo_backing : forall h, lai.(lai_backing_off_task) = Some h ->
    (h < s.(next_handle))%N /\ forall id', backoffs s !! h = Some id' -> id' = id;
  eo_bag : forall h, h ∈ bag_handles lai ->
    (h < s.(next_handle))%N /\ backoffs s !! h = None;
}.

Record lam_inv (s : LAM) : Prop := {
  li_next : (0 <= s.(dat).(next_tt_num) <= u32_max)%Z;
  li_entry : forall id lai, s.(dat).(la_info) !! id = Some lai -> entry_ok s id lai;
  li_inj : forall id1 id2 l1 l2, s.(dat).(la_info) !! id1 = Some l1 ->
    s.(dat).(la_info) !! id2 = Some l2 -> l1.(lai_task_token) = l2.(lai_task_token) -> id1 = id2;
  li_out : forall tok i, s.(dat).(outstanding_activity_tasks) !! tok = Some i ->
    exists lai, s.(dat).(la_info) !! la_id i.(lif_la_info) = Some lai /\ lai.(lai_task_token) = tok;
  li_known : forall id, id ∈ live s -> is_Some (s.(dat).(la_info) !! id);
  li_once : forall id, multiplicity id (live s) <= 1;
  li_tasks : forall h, is_Some (s.(tasks) !! h) -> (h < s.(next_handle))%N;
  li_back : forall h id, backoffs s !! h = Some id ->
    exists lai, s.(dat).(la_info) !! id = Some lai /\ lai.(lai_backing_off_task) = Some h;
}.

Lemma lam_inv_new slots : lam_inv (LAM_new slots) /\ live (LAM_new slots) = ∅.
Proof.
  assert (live (LAM_new slots) = ∅) as Hl by reflexivity.
  split; [|done]. constructor; rewrite ?Hl; unfold backoffs; simpl.
  - unfold u32_max. lia.
  - intros id lai. by rewrite lookup_empty.
  - intros id1 id2 l1 l2. by rewrite lookup_empty.
  - intros tok i. by rewrite lookup_empty.
  - intros id. multiset_solver.
  - intros id. rewrite multiplicity_empty. lia.
  - intros h []. by rewrite lookup_empty in *.
  - intros h id. by rewrite lookup_omap, lookup_empty.
Qed.

(** ** Changes that matter little *)

(** The parts the invariant reads. *)
Definition same_core (s s' : LAM) : Prop :=
  s'.(act_req) = s.(act_req) /\ s'.(dat) = s.(dat) /\ s'.(tasks) = s.(tasks) /\
  s'.(next_handle) = s.(next_handle).

Lemma same_core_live s s' : same_core s s' -> live s' = live s.
Proof.
  intros (Ea & Ed & Et & _). unfold live, queued, running, backing, backoffs. by rewrite Ea, Ed, Et.
Qed.

Lemma same_core_inv s s' : same_core s s' -> lam_inv s -> lam_inv s'.
Proof.
  intros Hc [??????? Hb]. pose proof (same_core_live _ _ Hc) as Hl.
  destruct Hc as (Ea & Ed & Et & En).
  assert (backoffs s' = backoffs s) as Hbk by (unfold backoffs; by rewrite Et).
  constructor; rewrite ?Hl, ?Hbk, ?Ed, ?Et, ?En; try done.
  intros id lai Hid. destruct (li_entry0 id lai Hid). constructor; rewrite ?Hbk, ?Ed, ?En; auto.
Qed.

(** Tasks other than backoffs come and go. *)
Lemma inv_set_tasks s ts n :
  lam_inv s -> omap backoff_id ts = backoffs s -> (s.(next_handle) <= n)%N ->
  (forall h, is_Some (ts !! h) -> (h < n)%N) ->
  lam_inv (set_tasks ts n s) /\ live (set_tasks ts n s) = live s.
Proof.
  intros [] Hts Hn Hlt.
  assert (live (set_tasks ts n s) = live s) as Hl.
  { unfold live, queued, running, backing, backoffs at 1. simpl. by rewrite Hts. }
  split; [|done]. constructor; rewrite ?Hl; unfold backoffs; simpl; rewrite ?Hts; try done.
  intros id lai Hid. destruct (li_entry0 id lai Hid) as [Htok Hbk Hbag].
  constructor; unfold backoffs; simpl; rewrite ?Hts; [done| |].
  - intros h Hh. destruct (Hbk h Hh). split; [lia|done].
  - intros h Hh. destruct (Hbag h Hh). split; [lia|done].
Qed.

Lemma fresh_handle_no_backoff s : lam_inv s -> backoffs s !! s.(next_handle) = None.
Proof.
  intros Hi. unfold backoffs. rewrite lookup_omap.
  destruct (tasks s !! next_handle s) eqn:E; [|done].
  pose proof (li_tasks s Hi (next_handle s) (mk_is_Some _ _ E)). lia.
Qed.

Lemma inv_spawn s t :
  lam_inv s -> backoff_id t = None ->
  lam_inv (spawn t s).1 /\ live (spawn t s).1 = live s.
Proof.
  intros Hi Ht. apply inv_set_tasks; [done| |lia|].
  - rewrite omap_insert_None by done. by apply delete_id, fresh_handle_no_backoff.
  - intros h. destruct (decide (h = next_handle s)) as [->|]; [lia|].
    rewrite lookup_insert_ne by done. intros Hh. apply (li_tasks s Hi) in Hh. lia.
Qed.

Lemma inv_spawn_done s :
  lam_inv s -> lam_inv (spawn_done s).1 /\ live (spawn_done s).1 = live s.
Proof.
  intros Hi. apply inv_set_tasks; [done..|lia|].
  intros h Hh. apply (li_tasks s Hi) in Hh. lia.
Qed.

Lemma inv_abort s h :
  lam_inv s -> backoffs s !! h = None -> lam_inv (abort h s) /\ live (abort h s) = live s.
Proof.
  intros Hi Hh. apply inv_set_tasks; [done| |lia|].
  - rewrite omap_delete. by apply delete_id.
  - intros h' [t Ht]. apply lookup_delete_Some in Ht as [_ Ht]. apply (li_tasks s Hi). eauto.
Qed.

Lemma inv_abort_heartbeat s reg :
  lam_inv s -> lam_inv (abort_heartbeat reg s) /\ live (abort_heartbeat reg s) = live s.
Proof.
  intros Hi. apply inv_set_tasks; [done| |lia|].
  - apply map_eq. intros h. unfold backoffs. rewrite !lookup_omap, map_lookup_filter.
    destruct (tasks s !! h) as [t|]; [|done]. simpl. case_guard as Hg; [done|]. simpl.
    unfold backoff_id. destruct (sp_body t); simpl in *; done.
  - intros h' [t Ht]. apply map_lookup_filter_Some in Ht as [Ht _]. apply (li_tasks s Hi). eauto.
Qed.

(** Entries are replaced by entries of the same activities. *)
Lemma inv_set_la_info s m :
  lam_inv s ->
  (forall id lai', m !! id = Some lai' -> exists lai, s.(dat).(la_info) !! id = Some lai /\
     lai'.(lai_task_token) = lai.(lai_task_token) /\ entry_ok s id lai' /\
     (forall h, backoffs s !! h = Some id -> lai.(lai_backing_off_task) = Some h ->
                lai'.(lai_backing_off_task) = Some h)) ->
  (forall id, is_Some (s.(dat).(la_info) !! id) -> is_Some (m !! id)) ->
  lam_inv (set_la_info m s) /\ live (set_la_info m s) = live s.
Proof.
  intros [] Hm Hdom. split; [|done]. constructor; simpl; try done.
  - intros id lai Hid. destruct (Hm id lai Hid) as (_ & _ & _ & He & _).
    destruct He. by constructor.
  - intros id1 id2 l1 l2 H1 H2 Ht. destruct (Hm _ _ H1) as (l1' & ? & ? & _).
    destruct (Hm _ _ H2) as (l2' & ? & ? & _). eapply li_inj0; [done..|congruence].
  - intros tok i Hi. destruct (li_out0 tok i Hi) as (lai & Hl & Ht).
    destruct (Hdom _ ltac:(eauto)) as [lai' Hl']. exists lai'. split; [done|].
    destruct (Hm _ _ Hl') as (lai2 & ? & ? & _). simplify_eq. congruence.
  - intros id Hid. apply Hdom, li_known0, Hid.
  - intros h id Hh. destruct (li_back0 h id Hh) as (lai & Hl & Hb).
    destruct (Hdom _ ltac:(eauto)) as [lai' Hl']. exists lai'. split; [done|].
    destruct (Hm _ _ Hl') as (lai2 & ? & _ & _ & Hk). simplify_eq. eauto.
Qed.

(** ** Steps

    A step accepts some activities, resolves some, and keeps the others. *)
Definition slots (s : LAM) : nat := size s.(dat).(outstanding_activity_tasks) + s.(permits).

Record step_ok (s s' : LAM) (acc res : gmultiset ExecutingLAId) : Prop := {
  so_inv : lam_inv s';
  so_live : acc ⊎ live s = res ⊎ live s';
  so_slots : slots s' = slots s;
}.

Lemma step_ok_same s s' : same_core s s' -> slots s' = slots s -> lam_inv s -> step_ok s s' ∅ ∅.
Proof.
  intros Hc Hs Hi. constructor; [by eapply same_core_inv|by rewrite (same_core_live _ _ Hc)|done].
Qed.

Lemma step_ok_keep s s' : lam_inv s' /\ live s' = live s -> slots s' = slots s -> step_ok s s' ∅ ∅.
Proof. intros [Hi Hl] Hs. constructor; [done|by rewrite Hl|done]. Qed.

Lemma step_ok_keep_live s s' : step_ok s s' ∅ ∅ -> live s' = live s.
Proof. intros [_ Hl _]. by rewrite !(left_id_L ∅ (⊎)) in Hl. Qed.

Lemma step_ok_trans s1 s2 s3 a1 r1 a2 r2 :
  step_ok s1 s2 a1 r1 -> step_ok s2 s3 a2 r2 -> step_ok s1 s3 (a1 ⊎ a2) (r1 ⊎ r2).
Proof.
  intros [_ H1 S1] [Hi H2 S2]. constructor; [done| |congruence].
  replace (a1 ⊎ a2 ⊎ live s1) with (a2 ⊎ (a1 ⊎ live s1)) by multiset_solver.
  rewrite H1. replace (a2 ⊎ (r1 ⊎ live s2)) with (r1 ⊎ (a2 ⊎ live s2)) by multiset_solver.
  rewrite H2. multiset_solver.
Qed.

(** *** Tokens and new entries *)
Lemma gen_next_token_ok s s' tok :
  lam_inv s -> (s.(dat).(next_tt_num) < u32_max)%Z -> gen_next_token s = (s', tok) ->
  step_ok s s' ∅ ∅ /\ s'.(dat).(la_info) = s.(dat).(la_info) /\ backoffs s' = backoffs s /\
  tok = token_of s'.(dat).(next_tt_num) /\ (1 <= s'.(dat).(next_tt_num))%Z /\
  (forall id lai, s.(dat).(la_info) !! id = Some lai -> lai.(lai_task_token) <> tok).
Proof.
  intros Hi Hlt. unfold gen_next_token. rewrite Z.mod_small by (pose proof (li_next s Hi); lia).
  intros [= <- <-]. pose proof Hi as []. split_and!; try done; simpl; [|lia|].
  - apply step_ok_keep; [|done]. split; [|done]. constructor; simpl; try done; [lia|].
    intros id lai Hid. destruct (li_entry0 id lai Hid) as [(n & Hn & Ht) ? ?].
    constructor; simpl; try done. exists n. split; [lia|done].
  - intros id lai Hid Heq. destruct (li_entry0 id lai Hid) as [(n & Hn & Ht) _ _].
    rewrite Ht in Heq. apply local_activity_token_inj in Heq; unfold is_u32; lia.
Qed.

Lemma inv_insert_la_info s id lai :
  lam_inv s -> s.(dat).(la_info) !! id = None -> entry_ok s id lai ->
  (forall id' lai', s.(dat).(la_info) !! id' = Some lai' ->
     lai'.(lai_task_token) <> lai.(lai_task_token)) ->
  lam_inv (set_la_info (<[id := lai]> s.(dat).(la_info)) s).
Proof.
  intros Hi Hnone He Hfresh. destruct Hi. constructor; simpl; try done.
  - intros id' lai' Hid'. apply lookup_insert_Some in Hid' as [[<- <-]|[_ Hid']].
    + by destruct He.
    + by destruct (li_entry0 id' lai' Hid').
  - intros id1 id2 l1 l2 [[<- <-]|[_ H1]]%lookup_insert_Some
      [[<- <-]|[_ H2]]%lookup_insert_Some Ht; try done.
    + by edestruct Hfresh.
    + by edestruct Hfresh.
    + by eapply li_inj0.
  - intros tok i Hi. destruct (li_out0 tok i Hi) as (l & Hl & Ht). exists l. split; [|done].
    by rewrite lookup_insert_ne by congruence.
  - intros id' Hid'. apply li_known0 in Hid' as [l Hl]. exists l.
    by rewrite lookup_insert_ne by congruence.
  - intros h id' Hh. destruct (li_back0 h id' Hh) as (l & Hl & Hb). exists l. split; [|done].
    by rewrite lookup_insert_ne by congruence.
Qed.

Lemma inv_send_act s r :
  lam_inv s -> is_Some (s.(dat).(la_info) !! nr_id r) -> nr_id r ∉ live s ->
  lam_inv (send_act r s) /\ live (send_act r s) = {[+ nr_id r +]} ⊎ live s.
Proof.
  intros Hi Hsome Hnot.
  assert (live (send_act r s) = {[+ nr_id r +]} ⊎ live s) as Hl.
  { change (live (send_act r s)) with
      (list_to_set_disj (nr_id <$> (s.(act_req) ++ [r])) ⊎ running s ⊎ backing s).
    rewrite fmap_app, list_to_set_disj_app. unfold live, queued. multiset_solver. }
  split; [|done]. pose proof Hi as []. constructor; rewrite ?Hl; simpl; try done.
  - intros id lai Hid. by destruct (li_entry0 id lai Hid).
  - intros id Hid. destruct (decide (id = nr_id r)) as [->|]; [done|].
    apply li_known0. multiset_solver.
  - intros id. specialize (li_once0 id). apply not_elem_of_multiplicity in Hnot.
    rewrite multiplicity_disj_union, multiplicity_singleton. case_decide; subst; lia.
Qed.

Lemma spawn_backoffs s t :
  lam_inv s -> backoff_id t = None -> backoffs (spawn t s).1 = backoffs s.
Proof.
  intros Hi Ht. unfold backoffs. simpl. rewrite omap_insert_None by done.
  by apply delete_id, fresh_handle_no_backoff.
Qed.

(** *** New activities *)
Lemma TimeoutBag_new_ok c act s s' r :
  lam_inv s -> TimeoutBag_new c act s = (s', r) ->
  step_ok s s' ∅ ∅ /\ s'.(dat) = s.(dat) /\
  match r with
  | inl tb => (tb.(tb_sched_to_close_handle) < s'.(next_handle))%N /\
      backoffs s' !! tb.(tb_sched_to_close_handle) = None /\ tb.(tb_start_to_close_handle) = None
  | inr res => res.(lar_seq) = (la_id act).(laid_seq_num)
  end.
Proof.
  intros Hi. unfold TimeoutBag_new. destruct (into_sched_and_start _) as [s2c st2c].
  pose proof (fresh_handle_no_backoff s Hi) as Hf.
  destruct s2c as [s2c|]; simpl; [case_match; simpl|]; intros [= <- <-]; simpl.
  - split_and!; [by apply step_ok_same|done..].
  - split_and!; [|done|lia| |done].
    + apply step_ok_keep; [by apply (inv_spawn s)|done].
    + refine (eq_trans (f_equal (.!! _) (spawn_backoffs s _ Hi _)) Hf); done.
  - split_and!; [|done|lia|done|done]. apply step_ok_keep; [by apply inv_spawn_done|done].
Qed.

Definition accepted (req : LocalActRequest) (s : LAM) : gmultiset ExecutingLAId :=
  match req with
  | LA_New a =>
      match s.(dat).(la_info) !! la_id a with Some _ => ∅ | None => {[+ la_id a +]} end
  | _ => ∅
  end.

Definition resolved (run_id : string) (rs : list LocalActivityResolution)
  : gmultiset ExecutingLAId :=
  list_to_set_disj
    ((fun r => {| laid_run_id := run_id; laid_seq_num := r.(lar_seq) |}) <$> rs).

Lemma not_live s id : lam_inv s -> s.(dat).(la_info) !! id = None -> id ∉ live s.
Proof. intros Hi Hn Hin. apply (li_known s Hi) in Hin as [? ?]. congruence. Qed.

Lemma enqueue_new_ok c act s s' rs :
  lam_inv s -> (s.(dat).(next_tt_num) < u32_max)%Z -> enqueue_new c act s = (s', rs) ->
  step_ok s s' (accepted (LA_New act) s)
    (resolved act.(workflow_exec_info).(WorkflowExecution_run_id) rs).
Proof.
  intros Hi Hlt. unfold enqueue_new, accepted. destruct (gen_next_token s) as [s1 tok] eqn:Et.
  destruct (gen_next_token_ok _ _ _ Hi Hlt Et) as (Hok1 & Ela & _ & Etok & Hn & Hfresh).
  rewrite Ela. destruct (la_info (dat s) !! la_id act) as [?|] eqn:Eid; [by intros [= <- <-]|].
  pose proof (so_inv _ _ _ _ Hok1) as Hi1. pose proof (not_live _ _ Hi Eid) as Hnl.
  set (lai := new_la_info tok). set (s2 := set_la_info _ s1).
  assert (lam_inv s2) as Hi2.
  { unfold s2. rewrite <-Ela. apply inv_insert_la_info; rewrite ?Ela; [done..| |done].
    constructor; [eauto with lia|done|]. intros h Hh. unfold bag_handles in Hh. simpl in Hh.
    by apply not_elem_of_nil in Hh. }
  assert (step_ok s s2 ∅ ∅) as Hok2.
  { apply step_ok_keep; [split; [done|]|by rewrite <-(so_slots _ _ _ _ Hok1)].
    change (live s2) with (live s1). by apply step_ok_keep_live. }
  destruct (TimeoutBag_new c act s2) as [s3 r] eqn:Eb.
  destruct (TimeoutBag_new_ok _ _ _ _ _ Hi2 Eb) as (Hok3 & Ed3 & Hr).
  apply step_ok_keep_live in Hok2 as Hl2. apply step_ok_keep_live in Hok3 as Hl3.
  destruct Hok2 as [_ _ Hs2], Hok3 as [Hi3 _ Hs3]. destruct r as [tb|res]; intros [= <- <-].
  - destruct Hr as (Hh & Hbk & Hnone).
    assert (la_info (dat s3) !! la_id act = Some lai) as Hla3
      by (rewrite Ed3; apply lookup_insert_eq).
    destruct (inv_set_la_info s3
      (<[la_id act := set_timeout_bag (Some tb) lai]> (la_info (dat s3)))) as [Hi4 Hl4]; [done| | |].
    { intros id lai' [[<- <-]|[Hne Hid]]%lookup_insert_Some.
      - exists lai. split_and!; [done..| |done]. destruct (li_entry s3 Hi3 _ _ Hla3) as [Ht ? _].
        constructor; [done..|]. unfold bag_handles. simpl. rewrite Hnone. simpl.
        intros h ->%list_elem_of_singleton. done.
      - exists lai'. split_and!; [done..| |done]. by apply (li_entry s3 Hi3). }
    { intros id Hid. rewrite lookup_insert_is_Some'. auto. }
    destruct (inv_send_act _ (NR_New act) Hi4) as [Hi5 Hl5].
    { simpl. rewrite lookup_insert_eq. eauto. }
    { by rewrite Hl4, Hl3, Hl2. }
    constructor; [done| |by rewrite <-Hs2, <-Hs3]. rewrite Hl5, Hl4, Hl3, Hl2.
    symmetry. apply (left_id_L ∅ (⊎)).
  - constructor; [done| |by rewrite <-Hs2, <-Hs3]. unfold resolved. simpl. rewrite Hr.
    replace {| laid_run_id := _; laid_seq_num := _ |} with (la_id act) by done.
    by rewrite Hl3, Hl2, (right_id_L ∅ (⊎)).
Qed.

(** *** Cancellation *)

(** The backoff of the entry, if it has one, is still running. *)
Definition not_elapsed (s : LAM) (id : ExecutingLAId) (lai : LocalActivityInfo) : Prop :=
  forall h, lai.(lai_backing_off_task) = Some h -> backoffs s !! h = Some id.

Lemma entry_ok_fewer s s' id lai :
  entry_ok s id lai -> s'.(dat).(next_tt_num) = s.(dat).(next_tt_num) ->
  s'.(next_handle) = s.(next_handle) -> backoffs s' ⊆ backoffs s -> entry_ok s' id lai.
Proof.
  intros [Ht Hb Hg] En Eh Hsub. constructor; rewrite ?En, ?Eh; [done| |].
  - intros h Hh. destruct (Hb h Hh) as [? Hu]. split; [done|]. intros id' Hid'.
    apply Hu. by eapply lookup_weaken.
  - intros h Hh. destruct (Hg h Hh). split; [done|]. by eapply lookup_weaken_None.
Qed.

Lemma entry_ok_not_backing s id lai : entry_ok s id lai -> entry_ok s id (set_backing_off None lai).
Proof. intros []. by constructor. Qed.

Lemma inv_abort_backoff s id lai h :
  lam_inv s -> s.(dat).(la_info) !! id = Some lai -> lai.(lai_backing_off_task) = Some h ->
  backoffs s !! h = Some id ->
  let s' := abort h (set_la_info (<[id := set_backing_off None lai]> s.(dat).(la_info)) s) in
  lam_inv s' /\ live s = {[+ id +]} ⊎ live s' /\ backoffs s' = delete h (backoffs s).
Proof.
  intros Hi Hid Hb Hh s'.
  assert (backoffs s' = delete h (backoffs s)) as Hbk by (apply omap_delete).
  assert (live s = {[+ id +]} ⊎ live s') as Hl.
  { unfold live at 1, backing at 1. rewrite (vals_delete _ _ _ Hh), <-Hbk.
    change (vals (backoffs s')) with (backing s'). change (queued s) with (queued s').
    change (running s) with (running s'). unfold live. clear. multiset_solver. }
  assert (backoffs s' ⊆ backoffs s) as Hsub by (rewrite Hbk; apply delete_subseteq).
  split_and!; [|done..]. destruct Hi. constructor; simpl; try done.
  - intros id' lai' [[<- <-]|[_ H']]%lookup_insert_Some.
    + eapply entry_ok_fewer; [by apply entry_ok_not_backing, li_entry0|done..].
    + eapply entry_ok_fewer; [by apply li_entry0|done..].
  - intros id1 id2 l1 l2 [[<- <-]|[_ H1]]%lookup_insert_Some
      [[<- <-]|[_ H2]]%lookup_insert_Some Ht; [done|eapply li_inj0; eauto..].
  - intros tok i Ho. destruct (li_out0 tok i Ho) as (l & Hl' & Ht).
    destruct (decide (la_id i.(lif_la_info) = id)) as [Heq|].
    + rewrite Heq in *. rewrite lookup_insert_eq. simplify_eq. eexists. split; done.
    + rewrite lookup_insert_ne by done. eauto.
  - intros id' Hin. rewrite lookup_insert_is_Some'. right. apply li_known0. rewrite Hl.
    apply gmultiset_elem_of_disj_union. auto.
  - intros id'. specialize (li_once0 id'). rewrite Hl, multiplicity_disj_union in li_once0. lia.
  - intros h' [t Ht]. apply lookup_delete_Some in Ht as [_ Ht]. eauto.
  - rewrite Hbk. intros h' id' [Hne H']%lookup_delete_Some.
    destruct (li_back0 h' id' H') as (l & Hl' & Hb').
    assert (id <> id') by congruence. rewrite lookup_insert_ne by done. eauto.
Qed.

Lemma cancel_one_la_ok id lai s s' rs :
  lam_inv s -> s.(dat).(la_info) !! id = Some lai -> not_elapsed s id lai ->
  cancel_one_la id lai s = (s', rs) ->
  step_ok s s' ∅ (resolved id.(laid_run_id) rs) /\
  forall id' lai', id' <> id -> s.(dat).(la_info) !! id' = Some lai' ->
    s'.(dat).(la_info) !! id' = Some lai' /\ (not_elapsed s id' lai' -> not_elapsed s' id' lai').
Proof.
  intros Hi Hid Hne. unfold cancel_one_la. destruct (lai_backing_off_task lai) as [h|] eqn:Eb;
    intros [= <- <-].
  - specialize (Hne h Eb).
    destruct (inv_abort_backoff s id lai h Hi Hid Eb Hne) as (Hi' & Hl & Hbk). split.
    + constructor; [done| |done]. rewrite Hl. unfold resolved. simpl.
      replace {| laid_run_id := _; laid_seq_num := _ |} with id by by destruct id.
      by rewrite (left_id_L ∅ (⊎)), (right_id_L ∅ (⊎)).
    + intros id' lai' Hid' H'. split; [by rewrite <-H'; apply lookup_insert_ne|].
      intros Hn h' Hh'. rewrite Hbk. rewrite lookup_delete_ne; [by apply Hn|].
      intros <-. specialize (Hn h Hh'). congruence.
  - split; [by apply step_ok_same|done].
Qed.

Lemma resolved_app run_id r1 r2 :
  resolved run_id (r1 ++ r2) = resolved run_id r1 ⊎ resolved run_id r2.
Proof. unfold resolved. by rewrite fmap_app, list_to_set_disj_app. Qed.

Lemma cancel_las_ok run_id las s s' rs :
  lam_inv s -> NoDup las.*1 ->
  (forall id lai, (id, lai) ∈ las -> id.(laid_run_id) = run_id /\
     s.(dat).(la_info) !! id = Some lai /\ not_elapsed s id lai) ->
  cancel_las las s = (s', rs) -> step_ok s s' ∅ (resolved run_id rs).
Proof.
  revert s s' rs. induction las as [|[id lai] las IH]; intros s s' rs Hi Hnd Hall; simpl.
  { intros [= <- <-]. by apply step_ok_same. }
  inversion_clear Hnd as [|? ? Hnotin Hnd'].
  destruct (Hall id lai) as (<- & Hid & Hne); [by left|].
  destruct (cancel_one_la id lai s) as [s1 r1] eqn:E1.
  destruct (cancel_one_la_ok _ _ _ _ _ Hi Hid Hne E1) as [Hok1 Hother].
  destruct (cancel_las las s1) as [s2 r2] eqn:E2. intros [= <- <-].
  rewrite resolved_app. rewrite <-(left_id_L ∅ (⊎) ∅). eapply step_ok_trans; [done|].
  eapply IH; [apply Hok1|exact Hnd'| |done]. intros id' lai' Hin.
  destruct (Hall id' lai') as (Hr & Hid' & Hne'); [by right|]. split; [done|].
  destruct (Hother id' lai') as [? Hn]; [|done|auto].
  intros ->. apply Hnotin. apply list_elem_of_fmap. by exists (id, lai').
Qed.

(** *** Requests *)
Definition req_run_id (req : LocalActRequest) : string :=
  match req with
  | LA_New a => a.(workflow_exec_info).(WorkflowExecution_run_id)
  | LA_Cancel id => id.(laid_run_id)
  | LA_CancelAllInRun r | LA_StartHeartbeatTimeout r _ _ | LA_IndicateWorkflowTaskCompleted r => r
  end.

(** The request cancels no activity whose backoff has elapsed. *)
Definition cancels (req : LocalActRequest) (id : ExecutingLAId) : Prop :=
  match req with
  | LA_Cancel id' => id = id'
  | LA_CancelAllInRun r => id.(laid_run_id) = r
  | _ => False
  end.

Definition cancels_in_time (req : LocalActRequest) (s : LAM) : Prop :=
  forall id lai, s.(dat).(la_info) !! id = Some lai -> cancels req id -> not_elapsed s id lai.

Section requests.
  Context `{HashIterLaws}.

Lemma enqueue_one_ok c req s s' rs :
  lam_inv s -> (s.(dat).(next_tt_num) < u32_max)%Z -> cancels_in_time req s ->
  enqueue_one c req s = (s', rs) ->
  step_ok s s' (accepted req s) (resolved (req_run_id req) rs).
Proof.
  intros Hi Hlt Hc. destruct req as [a|id|r|r d h|r]; simpl.
  - by apply enqueue_new_ok.
  - destruct (la_info (dat s) !! id) as [lai|] eqn:Eid.
    + intros Hcan. eapply cancel_one_la_ok; [done..| |done]. by apply Hc.
    + intros [= <- <-]. by apply step_ok_same.
  - intros Hcan. eapply cancel_las_ok; [done| | |done].
    + unfold las_for_run. eapply sublist_NoDup; [|apply fmap_sublist, sublist_filter].
      rewrite hash_iter_perm. apply NoDup_fst_map_to_list.
    + unfold las_for_run. intros id lai [Hr Hin]%list_elem_of_filter. simpl in Hr.
      rewrite hash_iter_perm in Hin. apply elem_of_map_to_list in Hin. split_and!; [done..|].
      by apply Hc.
  - intros [= <- <-]. apply step_ok_keep; [by apply (inv_spawn s)|done].
  - intros [= <- <-]. apply step_ok_keep; [|done]. apply inv_set_la_info; [done| |].
    + intros id lai'. rewrite map_lookup_imap. destruct (la_info (dat s) !! id) as [lai|] eqn:E;
        [|done]. intros [= <-]. exists lai. destruct (li_entry s Hi id lai E).
      case_decide; split_and!; try done; by constructor.
    + intros id [lai E]. rewrite map_lookup_imap, E. simpl. eauto.
Qed.
End requests.

(** *** Timers *)
Lemma fire_ok now h s s' : lam_inv s -> fire now h s = Some s' -> step_ok s s' ∅ ∅.
Proof.
  intros Hi. unfold fire. destruct (tasks s !! h) as [[dl b]|] eqn:Eh; [|done]. simpl.
  case_match; [|done]. intros [= <-].
  destruct b as [d|d st|a n|r reg]; simpl.
  1, 2, 4: eapply step_ok_keep; [|done]; destruct (inv_abort s h Hi) as [Hi' Hl'];
    [unfold backoffs; by rewrite lookup_omap, Eh|];
    split; [by apply (same_core_inv (abort h s))|by rewrite <-Hl'].
  assert (backoffs s !! h = Some (la_id a)) as Hb by (unfold backoffs; by rewrite lookup_omap, Eh).
  destruct (li_back s Hi h _ Hb) as (lai & Hla & Hbo).
  set (s1 := abort h s). assert (backoffs s1 = delete h (backoffs s)) as Hbk by apply omap_delete.
  assert (live s = {[+ la_id a +]} ⊎ live s1) as Hl.
  { unfold live at 1, backing at 1. rewrite (vals_delete _ _ _ Hb), <-Hbk.
    change (vals (backoffs s1)) with (backing s1). change (queued s) with (queued s1).
    change (running s) with (running s1). unfold live. clear. multiset_solver. }
  assert (lam_inv s1) as Hi1.
  { pose proof Hi as []. constructor; simpl; try done.
    - intros id l Hid. eapply entry_ok_fewer; [by apply li_entry0|done..|].
      rewrite Hbk. apply delete_subseteq.
    - intros id Hin. apply li_known0. rewrite Hl. apply gmultiset_elem_of_disj_union. auto.
    - intros id. specialize (li_once0 id). rewrite Hl, multiplicity_disj_union in li_once0. lia.
    - intros h' [t Ht]. apply lookup_delete_Some in Ht as [_ Ht]. eauto.
    - rewrite Hbk. intros h' id [_ Hh']%lookup_delete_Some. eauto. }
  destruct (inv_send_act s1 (NR_Retry a n) Hi1) as [Hi2 Hl2]; [simpl; eauto| |].
  { intros Hin. pose proof (li_once s Hi (la_id a)) as Ho. rewrite Hl in Ho.
    rewrite multiplicity_disj_union, multiplicity_singleton in Ho.
    change (nr_id (NR_Retry a n)) with (la_id a) in Hin.
    rewrite elem_of_multiplicity in Hin. case_decide; [lia|done]. }
  apply step_ok_keep; [|done]. split; [done|]. by rewrite Hl2, Hl.
Qed.

(** *** Completions *)
Lemma live_once s id s1 :
  lam_inv s -> live s = {[+ id +]} ⊎ live s1 -> id ∉ live s1.
Proof.
  intros Hi Hl Hin. pose proof (li_once s Hi id) as Ho. rewrite Hl in Ho.
  rewrite multiplicity_disj_union, multiplicity_singleton in Ho.
  rewrite elem_of_multiplicity in Hin. case_decide; [lia|done].
Qed.

Lemma live_fewer s id s1 :
  lam_inv s -> live s = {[+ id +]} ⊎ live s1 ->
  (forall id', id' ∈ live s1 -> id' <> id /\ is_Some (s.(dat).(la_info) !! id')) /\
  forall id', multiplicity id' (live s1) <= 1.
Proof.
  intros Hi Hl. split.
  - intros id' Hin. split; [intros ->; by eapply live_once|].
    apply (li_known s Hi). rewrite Hl. apply gmultiset_elem_of_disj_union. auto.
  - intros id'. pose proof (li_once s Hi id') as Ho. rewrite Hl, multiplicity_disj_union in Ho. lia.
Qed.

Lemma backoff_live s h id : backoffs s !! h = Some id -> id ∈ live s.
Proof.
  intros Hh. unfold live. apply gmultiset_elem_of_disj_union. right.
  unfold backing. by eapply elem_of_vals_2.
Qed.

(** The activity with lang is forgotten. *)
Lemma inv_finish s tok i :
  lam_inv s -> s.(dat).(outstanding_activity_tasks) !! tok = Some i ->
  let id := la_id i.(lif_la_info) in
  let s1 := set_la_info (delete id s.(dat).(la_info))
              (set_outstanding (delete tok s.(dat).(outstanding_activity_tasks)) s) in
  lam_inv s1 /\ live s = {[+ id +]} ⊎ live s1.
Proof.
  intros Hi Ho id s1.
  assert (live s = {[+ id +]} ⊎ live s1) as Hl.
  { unfold live at 1, running at 1.
    rewrite (vals_delete _ tok id) by (by rewrite lookup_fmap, Ho). rewrite <-fmap_delete.
    change (queued s) with (queued s1). change (backing s) with (backing s1).
    change (vals _) with (running s1) at 1. unfold live. clear. multiset_solver. }
  split; [|done]. destruct (live_fewer s id s1 Hi Hl) as [Hk Honce].
  pose proof Hi as []. constructor; simpl; try done.
  - intros id' lai [_ Hid']%lookup_delete_Some. by destruct (li_entry0 id' lai Hid').
  - intros id1 id2 l1 l2 [_ H1]%lookup_delete_Some [_ H2]%lookup_delete_Some. by apply li_inj0.
  - intros tok' i' [Hne Ho']%lookup_delete_Some. destruct (li_out0 _ _ Ho') as (l & Hlk & Ht).
    destruct (li_out0 _ _ Ho) as (l0 & Hl0 & Ht0). fold id in Hl0.
    exists l. split; [|done]. rewrite lookup_delete_ne; [done|]. congruence.
  - intros id' Hin. destruct (Hk id' Hin). by rewrite lookup_delete_ne.
  - intros h id' Hh. destruct (li_back0 h id' Hh) as (l & Hlk & Hb). exists l. split; [|done].
    destruct (Hk id') as [? _]; [by apply (backoff_live s1 h)|]. by rewrite lookup_delete_ne.
Qed.

Definition bag_idle (s : LAM) (tb : option TimeoutBag) : Prop :=
  match tb with
  | Some tb => forall h, h ∈ tb.(tb_sched_to_close_handle) :: option_list tb.(tb_start_to_close_handle)
      -> (h < s.(next_handle))%N /\ backoffs s !! h = None
  | None => True
  end.

Lemma inv_drop_bag s tb :
  lam_inv s -> bag_idle s tb ->
  lam_inv (drop_bag tb s) /\ live (drop_bag tb s) = live s /\ (drop_bag tb s).(dat) = s.(dat) /\
  (drop_bag tb s).(permits) = s.(permits).
Proof.
  intros Hi Hb. destruct tb as [tb|]; [|done]. simpl in Hb |- *.
  destruct (inv_abort s tb.(tb_sched_to_close_handle) Hi) as [Hi1 Hl1]; [apply Hb; by left|].
  destruct (tb_start_to_close_handle tb) as [h|] eqn:Eh; simpl; [|done].
  destruct (inv_abort _ h Hi1) as [Hi2 Hl2].
  { apply lookup_weaken_None with (backoffs s); [apply Hb; right; by left|].
    unfold backoffs. simpl. rewrite omap_delete. apply delete_subseteq. }
  split_and!; [done| |done..]. by rewrite Hl2.
Qed.

Lemma inv_insert_backoff s id lai t :
  lam_inv s -> s.(dat).(la_info) !! id = None -> backoff_id t = Some id ->
  lai.(lai_backing_off_task) = Some s.(next_handle) -> bag_idle s lai.(lai_timeout_bag) ->
  (exists n, (1 <= n <= s.(dat).(next_tt_num))%Z /\ lai.(lai_task_token) = token_of n) ->
  (forall id' lai', s.(dat).(la_info) !! id' = Some lai' ->
     lai'.(lai_task_token) <> lai.(lai_task_token)) ->
  let s' := set_la_info (<[id := lai]> s.(dat).(la_info)) (spawn t s).1 in
  lam_inv s' /\ live s' = {[+ id +]} ⊎ live s.
Proof.
  intros Hi Hnone Ht Hbk Hbag Htok Hfresh s'. pose proof (fresh_handle_no_backoff s Hi) as Hf.
  assert (backoffs s' = <[s.(next_handle) := id]> (backoffs s)) as Hb
    by (unfold backoffs; simpl; by rewrite (omap_insert_Some _ _ _ _ _ Ht)).
  assert (live s' = {[+ id +]} ⊎ live s) as Hl.
  { unfold live at 1, backing at 1. rewrite Hb, vals_insert by done. unfold live.
    change (queued s') with (queued s). change (running s') with (running s).
    unfold backing. clear. multiset_solver. }
  pose proof (not_live s id Hi Hnone) as Hnl.
  split; [|done]. pose proof Hi as []. constructor; rewrite ?Hl; try done; simpl.
  - intros id' lai' [[<- <-]|[_ Hid']]%lookup_insert_Some.
    + constructor; simpl; rewrite ?Hb; [done| |].
      * rewrite Hbk. intros h [= <-]. split; [lia|]. intros id'. rewrite lookup_insert_eq. congruence.
      * unfold bag_handles. intros h Hh. destruct (lai_timeout_bag lai); [|by apply not_elem_of_nil in Hh].
        destruct (Hbag h Hh). split; [lia|]. rewrite lookup_insert_ne by lia. done.
    + destruct (li_entry0 id' lai' Hid') as [Ht' Hb' Hg']. constructor; simpl; rewrite ?Hb; [done| |].
      * intros h Hh. destruct (Hb' h Hh). split; [lia|]. by rewrite lookup_insert_ne by lia.
      * intros h Hh. destruct (Hg' h Hh). split; [lia|]. by rewrite lookup_insert_ne by lia.
  - intros id1 id2 l1 l2 [[<- <-]|[_ H1]]%lookup_insert_Some
      [[<- <-]|[_ H2]]%lookup_insert_Some Heq; [done|by edestruct Hfresh..|by eapply li_inj0].
  - intros tok i Ho. destruct (li_out0 tok i Ho) as (l & Hlk & ?). exists l. split; [|done].
    by rewrite lookup_insert_ne by congruence.
  - intros id' Hin. rewrite lookup_insert_is_Some'. destruct (decide (id = id')); [by left|right].
    apply li_known0. apply gmultiset_elem_of_disj_union in Hin as [Hin|Hin]; [|done].
    apply gmultiset_elem_of_singleton in Hin. congruence.
  - intros id'. specialize (li_once0 id'). apply not_elem_of_multiplicity in Hnl.
    rewrite multiplicity_disj_union, multiplicity_singleton. case_decide; subst; lia.
  - intros h. destruct (decide (h = next_handle s)) as [->|]; [lia|].
    rewrite lookup_insert_ne by done. intros Hh. apply li_tasks0 in Hh. lia.
  - rewrite Hb. intros h id' [[<- <-]|[_ Hh]]%lookup_insert_Some.
    + rewrite lookup_insert_eq. eauto.
    + destruct (li_back0 h id' Hh) as (l & Hlk & ?). exists l. split; [|done].
      by rewrite lookup_insert_ne by congruence.
Qed.

Definition resolved_by (a : LACompleteAction) : gmultiset ExecutingLAId :=
  match a with LAC_Report run_id r _ => resolved run_id [r] | _ => ∅ end.

Section completion.
  Context `{WktTime} `{StdTables} (namespace : string).

Lemma failure_path_returns {E} info status : exists r, failure_path (E := E) info status = Ok r.
Proof.
  unfold failure_path. destruct status as [|f|f|]; [eauto| |case_match; [case_match|]|]; eauto.
  all: match goal with |- context [should_retry ?p ?n ?f] =>
         destruct (should_retry_spec (E := E) p n f) as (r & -> & _) end; simpl; eauto.
Qed.

(** The old entry has no task that the manager would abort by mistake. *)
Lemma finished_entry s tok i s1 old :
  lam_inv s -> s.(dat).(outstanding_activity_tasks) !! tok = Some i ->
  s.(dat).(la_info) !! la_id i.(lif_la_info) = Some old ->
  live s = {[+ la_id i.(lif_la_info) +]} ⊎ live s1 -> backoffs s1 = backoffs s ->
  (forall h, old.(lai_backing_off_task) = Some h -> backoffs s !! h = None) /\
  bag_idle s old.(lai_timeout_bag).
Proof.
  intros Hi Ho Hold Hl Hbk. destruct (li_entry s Hi _ _ Hold) as [_ Hb Hg]. split.
  - intros h Hh. destruct (Hb h Hh) as [_ Hu]. destruct (backoffs s !! h) as [id'|] eqn:E; [|done].
    rewrite (Hu id' eq_refl) in E. rewrite <-Hbk in E. apply backoff_live in E.
    by apply (live_once s _ s1 Hi Hl) in E.
  - unfold bag_idle, bag_handles in *. by destruct (lai_timeout_bag old).
Qed.

Lemma retry_locally_ok c info d old s :
  lam_inv s -> (s.(dat).(next_tt_num) < u32_max)%Z ->
  s.(dat).(la_info) !! la_id info.(lif_la_info) = None -> bag_idle s (old ≫= lai_timeout_bag) ->
  let s' := retry_locally c info d old s in
  lam_inv s' /\ live s' = {[+ la_id info.(lif_la_info) +]} ⊎ live s /\ slots s' = slots s.
Proof.
  intros Hi Hlt Hnone Hbag s'. unfold s', retry_locally.
  destruct (gen_next_token s) as [s1 tok] eqn:Et.
  destruct (gen_next_token_ok _ _ _ Hi Hlt Et) as (Hok & Ela & Hbk & Etok & Hn & Hfresh).
  apply step_ok_keep_live in Hok as Hl1. destruct Hok as [Hi1 _ Hs1]. simpl.
  set (t := {| sp_deadline := _; sp_body := _ |}).
  destruct (inv_insert_backoff s1 (la_id info.(lif_la_info))
    (retry_la_info tok s1.(next_handle) old) t) as [Hi2 Hl2];
    [done|by rewrite Ela|done|done| | | |].
  - unfold gen_next_token in Et. injection Et as <- _. exact Hbag.
  - exists s1.(dat).(next_tt_num). simpl. split; [lia|done].
  - rewrite Ela. intros id' lai' Hid'. simpl. eauto.
  - split_and!; [exact Hi2|by rewrite <-Hl1, <-Hl2|done].
Qed.

Lemma bag_idle_same s s' tb :
  s'.(next_handle) = s.(next_handle) -> backoffs s' = backoffs s -> bag_idle s tb -> bag_idle s' tb.
Proof. intros En Eb. unfold bag_idle. by rewrite En, Eb. Qed.

Lemma take_outstanding_ok s tok i :
  lam_inv s -> s.(dat).(outstanding_activity_tasks) !! tok = Some i ->
  let id := la_id i.(lif_la_info) in
  let old := s.(dat).(la_info) !! id in
  let s' := take_outstanding tok id old s in
  lam_inv s' /\ live s = {[+ id +]} ⊎ live s' /\ slots s' = slots s /\
  s'.(dat).(la_info) !! id = None /\ s'.(dat).(next_tt_num) = s.(dat).(next_tt_num) /\
  bag_idle s' (old ≫= lai_timeout_bag).
Proof.
  intros Hi Ho id old s'. destruct (inv_finish s tok i Hi Ho) as [Hi1 Hl1]. fold id in Hi1, Hl1.
  set (s1 := set_la_info _ _) in *.
  assert (exists s2, same_core s1 s2 /\ slots s2 = slots s /\
    s' = from_option (fun h => abort h s2) s2 (old ≫= lai_backing_off_task)) as (s2 & Hc & Hs & ->).
  { eexists. split_and!; [| |reflexivity].
    - unfold set_shutdown_complete_if_ready. simpl. repeat case_match; done.
    - assert (slots s = size (delete tok s.(dat).(outstanding_activity_tasks)) + S s.(permits)) as ->.
      { unfold slots. rewrite map_size_delete_Some by eauto.
        assert (size s.(dat).(outstanding_activity_tasks) <> 0); [|lia].
        intros Hz%map_size_empty_inv. by rewrite Hz, lookup_empty in Ho. }
      unfold set_shutdown_complete_if_ready. simpl. repeat case_match; done. }
  pose proof (same_core_inv _ _ Hc Hi1) as Hi2. rewrite <-(same_core_live _ _ Hc) in Hl1.
  destruct Hc as (_ & Ed & Et & En).
  assert (backoffs s2 = backoffs s) as Hbk by (unfold backoffs; by rewrite Et).
  destruct (li_out s Hi tok i Ho) as (lai & Hold & _). fold id in Hold. unfold old. rewrite Hold.
  destruct (finished_entry s tok i s2 lai Hi Ho Hold Hl1 Hbk) as [Hb Hg]. simpl.
  assert (s2.(dat).(la_info) !! id = None) as Hnone by (rewrite Ed; apply lookup_delete_eq).
  assert (s2.(dat).(next_tt_num) = s.(dat).(next_tt_num)) as Htt by (by rewrite Ed).
  destruct (lai_backing_off_task lai) as [h|]; simpl.
  - destruct (inv_abort s2 h Hi2) as [Hi3 Hl3]; [rewrite Hbk; auto|].
    split_and!; [done|by rewrite Hl3|done..|]. eapply bag_idle_same; [exact En| |done].
    unfold backoffs at 1. simpl. rewrite omap_delete. fold (backoffs s2).
    rewrite Hbk. apply delete_id. auto.
  - split_and!; try done. by eapply bag_idle_same.
Qed.

(** What was with lang is resolved when its state is dropped. *)
Lemma report_ok s s1 s2 id res :
  live s = {[+ id +]} ⊎ live s1 -> slots s2 = slots s -> lam_inv s2 -> live s2 = live s1 ->
  res.(lar_seq) = id.(laid_seq_num) -> step_ok s s2 ∅ (resolved id.(laid_run_id) [res]).
Proof.
  intros Hl Hs Hi2 Hl2 Hseq. constructor; [done| |done]. unfold resolved. simpl. rewrite Hseq.
  replace {| laid_run_id := _; laid_seq_num := _ |} with id by (by destruct id).
  by rewrite Hl, Hl2, (left_id_L ∅ (⊎)), (right_id_L ∅ (⊎)).
Qed.

Lemma complete_wp {E} c tok st s :
  lam_inv s -> (s.(dat).(next_tt_num) < u32_max)%Z ->
  wp (E := E) (complete c tok st) (fun a s' => step_ok s s' ∅ (resolved_by a)) (fun _ _ => False)
     (fun msg _ => msg = "backoff fits into proto") s.
Proof.
  intros Hi Hlt. unfold complete, wp. rewrite get_bind.
  destruct (s.(dat).(outstanding_activity_tasks) !! tok) as [i|] eqn:Ho; [|by apply step_ok_same].
  destruct (take_outstanding_ok s tok i Hi Ho) as (Hi1 & Hl1 & Hs1 & Hnone & Htt & Hbag).
  rewrite modify_bind. set (s1 := take_outstanding _ _ _ s) in *.
  set (old := s.(dat).(la_info) !! _) in *.
  destruct (failure_path_returns (E := E) i st) as [r Hr].
  rewrite (Ok_bind _ _ _ s1 r) by (unfold lift; by rewrite Hr).
  destruct r as [[d|]|]; cbv beta zeta iota.
  - destruct (_ <? d)%Z.
    + destruct (inv_drop_bag s1 _ Hi1 Hbag) as (Hi2 & Hl2 & Hd2 & Hp2). rewrite modify_bind.
      destruct (duration_try_from d); [|done].
      eapply report_ok; [done| |done..]. unfold slots. by rewrite Hd2, Hp2.
    + rewrite modify_bind. rewrite <-Htt in Hlt.
      destruct (retry_locally_ok c i d old s1 Hi1 Hlt Hnone Hbag) as (Hi2 & Hl2 & Hs2).
      apply step_ok_keep; [|congruence]. split; [done|]. by rewrite Hl1.
  - destruct (inv_drop_bag s1 _ Hi1 Hbag) as (Hi2 & Hl2 & Hd2 & Hp2). rewrite modify_bind.
    eapply report_ok; [done| |done..]. unfold slots. by rewrite Hd2, Hp2.
  - rewrite !modify_bind. set (s2 := set_complete_notify true s1).
    assert (lam_inv s2) as Hi2 by (by apply (same_core_inv s1)).
    destruct (inv_drop_bag s2 _ Hi2 Hbag) as (Hi3 & Hl3 & Hd3 & Hp3).
    eapply report_ok; [done| |done..]. unfold slots. by rewrite Hd3, Hp3.
Qed.
End completion.

(** *** Dispatch *)
Definition resolved_next (r : option NextPendingLAAction) : gmultiset ExecutingLAId :=
  match r with Some (NP_Autocomplete a) => resolved_by a | _ => ∅ end.

Lemma inv_pop_act s r l n :
  lam_inv s -> s.(act_req) = r :: l ->
  let s1 := set_permits n (set_act_req l s) in
  lam_inv s1 /\ live s = {[+ nr_id r +]} ⊎ live s1.
Proof.
  intros Hi Hq s1.
  assert (live s = {[+ nr_id r +]} ⊎ live s1) as Hl.
  { unfold live at 1, queued at 1. rewrite Hq, fmap_cons, list_to_set_disj_cons.
    change (list_to_set_disj (nr_id <$> l)) with (queued s1).
    change (running s) with (running s1). change (backing s) with (backing s1).
    unfold live. clear. multiset_solver. }
  split; [|done]. destruct (live_fewer s _ s1 Hi Hl) as [Hk Honce]. pose proof Hi as [].
  constructor; simpl; try done.
  - intros id lai Hid. by destruct (li_entry0 id lai Hid).
  - intros id Hin. by destruct (Hk id Hin).
Qed.

Lemma inv_clear_backing s id :
  lam_inv s -> id ∉ live s ->
  let s' := set_la_info (alter (set_backing_off None) id s.(dat).(la_info)) s in
  lam_inv s' /\ live s' = live s.
Proof.
  intros Hi Hnl. apply inv_set_la_info; [done| |].
  - intros id' lai' Hid'. apply lookup_alter_Some in Hid' as [(<- & lai & Hl & ->)|[Hne Hl]].
    + exists lai. split_and!; [done..|by apply entry_ok_not_backing, (li_entry s Hi)|].
      intros h Hh. by apply backoff_live in Hh.
    + exists lai'. split_and!; [done..|by apply (li_entry s Hi)|done].
  - intros id' Hs. by apply lookup_alter_is_Some.
Qed.

Lemma mark_started_ok c tb s s' tb' id lai :
  lam_inv s -> s.(dat).(la_info) !! id = Some lai -> lai.(lai_timeout_bag) = Some tb ->
  mark_started c tb s = (s', tb') ->
  let s2 := set_la_info (<[id := set_timeout_bag (Some tb') lai]> s'.(dat).(la_info)) s' in
  lam_inv s2 /\ live s2 = live s /\ slots s2 = slots s /\
  s2.(dat).(la_info) !! id = Some (set_timeout_bag (Some tb') lai) /\
  s2.(dat).(outstanding_activity_tasks) = s.(dat).(outstanding_activity_tasks).
Proof.
  intros Hi Hid Hb Hm s2.
  assert (lam_inv s' /\ live s' = live s /\ s'.(dat) = s.(dat) /\ s'.(permits) = s.(permits) /\
    forall h, h ∈ bag_handles (set_timeout_bag (Some tb') lai) ->
      (h < s'.(next_handle))%N /\ backoffs s' !! h = None) as (Hi' & Hl' & Hd & Hp & Hh).
  { pose proof (li_entry s Hi id lai Hid) as [_ _ Hg]. unfold bag_handles in Hg. rewrite Hb in Hg.
    unfold mark_started in Hm. destruct (tb_start_to_close_dur_and_dat tb) as [[d dt]|];
      simplify_eq/=; [|done].
    set (t := {| sp_deadline := _; sp_body := _ |}).
    destruct (inv_spawn s t Hi) as [Hi' Hl']; [done|]. split_and!; [done..|].
    intros h Hin. change (set_tasks _ _ s) with (spawn t s).1.
    rewrite spawn_backoffs by done. simpl. unfold bag_handles in Hin. simpl in Hin.
    apply elem_of_cons in Hin as [->|Hin].
    - destruct (Hg (tb_sched_to_close_handle tb)); [by left|]. split; [lia|done].
    - apply list_elem_of_singleton in Hin as ->. split; [lia|by apply fresh_handle_no_backoff]. }
  destruct (inv_set_la_info s' (<[id := set_timeout_bag (Some tb') lai]> s'.(dat).(la_info)))
    as [Hi2 Hl2]; [done| | |].
  - rewrite Hd. intros id' lai' [[<- <-]|[_ Hid']]%lookup_insert_Some.
    + exists lai. rewrite <-Hd in Hid. destruct (li_entry s' Hi' id lai Hid).
      split_and!; [by rewrite <-Hd|done| |done]. by constructor.
    + exists lai'. split_and!; [done..| |done]. apply (li_entry s' Hi'). by rewrite Hd.
  - intros id' Hs. rewrite lookup_insert_is_Some'. auto.
  - split_and!; [done|by rewrite <-Hl'| |apply lookup_insert_eq|simpl; by rewrite Hd].
    unfold slots. simpl. by rewrite Hd, Hp.
Qed.

Lemma inv_start s id lai i :
  lam_inv s -> s.(dat).(la_info) !! id = Some lai -> la_id i.(lif_la_info) = id -> id ∉ live s ->
  let s' := set_outstanding
    (<[lai.(lai_task_token) := i]> s.(dat).(outstanding_activity_tasks)) s in
  lam_inv s' /\ live s' = {[+ id +]} ⊎ live s /\ slots s' = S (slots s).
Proof.
  intros Hi Hid Hi' Hnl s'.
  assert (s.(dat).(outstanding_activity_tasks) !! lai.(lai_task_token) = None) as Hnone.
  { destruct (_ !! lai_task_token lai) as [j|] eqn:E; [|done]. exfalso. apply Hnl.
    destruct (li_out s Hi _ _ E) as (lj & Hlj & Ht).
    rewrite <-(li_inj s Hi _ _ _ _ Hlj Hid Ht).
    unfold live. apply gmultiset_elem_of_disj_union. left.
    apply gmultiset_elem_of_disj_union. right. unfold running.
    eapply (elem_of_vals_2 _ (lai_task_token lai)). by rewrite lookup_fmap, E. }
  assert (live s' = {[+ id +]} ⊎ live s) as Hl.
  { unfold live at 1, running at 1. simpl. rewrite fmap_insert, Hi', vals_insert
      by (by rewrite lookup_fmap, Hnone).
    change (queued s') with (queued s). change (backing s') with (backing s).
    unfold live, running. clear. multiset_solver. }
  split_and!; [|done|unfold slots; simpl; by rewrite map_size_insert_None].
  pose proof Hi as []. constructor; rewrite ?Hl; simpl; try done.
  - intros id' lai' Hid'. by destruct (li_entry0 id' lai' Hid').
  - intros tok j [[<- <-]|[_ Hj]]%lookup_insert_Some; [|by apply li_out0].
    rewrite Hi'. eauto.
  - intros id' [Hin|Hin]%gmultiset_elem_of_disj_union; [|by apply li_known0].
    apply gmultiset_elem_of_singleton in Hin as ->. eauto.
  - intros id'. specialize (li_once0 id'). apply not_elem_of_multiplicity in Hnl.
    rewrite multiplicity_disj_union, multiplicity_singleton. case_decide; subst; lia.
Qed.

Section manager.
  Context `{WktTime} `{StdTables} (namespace : string).

Lemma dispatch_wp {E} c r l n s :
  lam_inv s -> s.(act_req) = r :: l -> s.(permits) = S n ->
  wp (E := E) (dispatch_la namespace c r)
     (fun a s' => step_ok s s' ∅ (resolved_next a)) (fun _ _ => False) (fun _ _ => False)
     (set_permits n (set_act_req l s)).
Proof.
  intros Hi Hq Hp. destruct (inv_pop_act s r l n Hi Hq) as [Hi1 Hl1].
  assert (slots s = S (slots (set_permits n (set_act_req l s)))) as Hs1
    by (unfold slots; simpl; lia).
  set (s1 := set_permits _ _) in *. pose proof (live_once s _ s1 Hi Hl1) as Hnl.
  destruct (inv_clear_backing s1 (nr_id r) Hi1 Hnl) as [Hi2 Hl2].
  unfold dispatch_la, wp. rewrite modify_bind. fold (nr_id r).
  set (s2 := set_la_info _ s1) in *.
  destruct (sat_too_long c (nr_la r)) as [sat|].
  { rewrite modify_bind. eapply (report_ok s s1 _ (nr_id r)); [done| | |done|done].
    - rewrite Hs1. unfold slots. simpl. lia.
    - by apply (same_core_inv s2). }
  rewrite get_bind.
  assert (exists lai, s2.(dat).(la_info) !! nr_id r = Some lai) as [lai Hla].
  { destruct (li_known s Hi (nr_id r)) as [l0 Hl0].
    { rewrite Hl1. apply gmultiset_elem_of_disj_union. left. by apply gmultiset_elem_of_singleton. }
    simpl. rewrite lookup_alter_eq, Hl0. simpl. eauto. }
  rewrite Hla.
  assert (forall s3 lai3, lam_inv s3 -> live s3 = live s1 -> slots s3 = slots s1 ->
    s3.(dat).(la_info) !! nr_id r = Some lai3 -> lai3.(lai_task_token) = lai.(lai_task_token) ->
    step_ok s (set_outstanding (<[lai.(lai_task_token) :=
        {| lif_la_info := nr_la r; lif_dispatch_time := c.(instant_now);
           lif_attempt := start_attempt r |}]> s3.(dat).(outstanding_activity_tasks)) s3)
      ∅ ∅) as Hstart.
  { intros s3 lai3 Hi3 Hl3 Hs3 Hla3 Ht3. rewrite <-Ht3. rewrite <-Hl3 in Hnl.
    destruct (inv_start s3 (nr_id r) lai3 {| lif_la_info := nr_la r;
      lif_dispatch_time := c.(instant_now); lif_attempt := start_attempt r |})
      as (Hi4 & Hl4 & Hs4); [done..|].
    apply step_ok_keep; [|by rewrite Hs4, Hs3, Hs1]. split; [exact Hi4|]. by rewrite Hl4, Hl3, Hl1. }
  destruct (lai_timeout_bag lai) as [tb|] eqn:Eb.
  - rewrite modify_bind. destruct (mark_started c tb s2) as [s3 tb'] eqn:Em.
    destruct (mark_started_ok _ _ _ _ _ _ _ Hi2 Hla Eb Em) as (Hi4 & Hl4 & Hs4 & Hla4 & _).
    rewrite modify_bind. eapply Hstart; [done|by rewrite Hl4|by rewrite Hs4|done|done].
  - eapply Hstart; done.
Qed.

Lemma next_cancel_wp {E} c ct l s :
  lam_inv s -> (s.(dat).(next_tt_num) < u32_max)%Z ->
  wp (E := E) (next_cancel c ct)
     (fun a s' => step_ok s s' ∅ (resolved_next a)) (fun _ _ => False)
     (fun msg _ => msg = "backoff fits into proto") (set_cancels_req l s).
Proof.
  intros Hi Hlt. set (s1 := set_cancels_req l s).
  assert (lam_inv s1) as Hi1 by (by apply (same_core_inv s)).
  unfold next_cancel. destruct ct as [t|run res]; unfold wp; rewrite get_bind.
  - case_decide; by apply (step_ok_same s).
  - destruct (la_info _ !! _) as [lai|]; [|by apply (step_ok_same s)].
    change (wp (E := E) (complete c lai.(lai_task_token) res.(lar_result) ≫=
      (fun a => mret (Some (NP_Autocomplete a))))
      (fun a s' => step_ok s s' ∅ (resolved_next a)) (fun _ _ => False)
      (fun msg _ => msg = "backoff fits into proto") s1).
    apply wp_bind. eapply wp_mono; [by apply complete_wp| |done|done]. simpl.
    intros a s' [Hi' Hl' Hs']. by constructor.
Qed.

(** What the manager is given to do: it polls and answers under any schedule. *)
Lemma next_pending_wp {E} c from s s1 item :
  lam_inv s -> (s.(dat).(next_tt_num) < u32_max)%Z -> rcvs_next from s = Some (s1, item) ->
  wp (E := E) (next_pending namespace c item)
     (fun a s' => step_ok s s' ∅ (resolved_next a)) (fun _ _ => False)
     (fun msg _ => msg = "backoff fits into proto") s1.
Proof.
  intros Hi Hlt. unfold rcvs_next. destruct (_ || _).
  { intros [= <- <-]. by apply step_ok_same. }
  destruct from.
  - destruct (cancels_req s) as [|ct l]; [done|]. intros [= <- <-]. by apply next_cancel_wp.
  - destruct (act_req s) as [|r l] eqn:Eq; [done|]. destruct (permits s) as [|n] eqn:Ep; [done|].
    intros [= <- <-]. eapply wp_mono; [by apply dispatch_wp|done..].
Qed.
End manager.

(** ** Runs of the manager *)
Section runs.
  Context `{WktTime} `{StdTables} `{HashIterLaws} (namespace : string) (n : nat).

(** The states reached by a manager of [n] slots, with the activities it
    accepted and the resolutions it gave, under any interleaving of its callers
    and timers.  Two things are asked of the callers: at most [2^32 - 1] tokens
    are made, and no cancellation meets an elapsed backoff. *)
Inductive lam_reach : gmultiset ExecutingLAId -> gmultiset ExecutingLAId -> LAM -> Prop :=
| reach_new : lam_reach ∅ ∅ (LAM_new n)
| reach_request acc res s c req s' rs :
    lam_reach acc res s -> s.(workflows_have_shut_down) = false ->
    (s.(dat).(next_tt_num) < u32_max)%Z -> cancels_in_time req s ->
    enqueue_one c req s = (s', rs) ->
    lam_reach (accepted req s ⊎ acc) (resolved (req_run_id req) rs ⊎ res) s'
| reach_next acc res s c from s1 item s' a :
    lam_reach acc res s -> (s.(dat).(next_tt_num) < u32_max)%Z ->
    rcvs_next from s = Some (s1, item) ->
    next_pending (E := Empty_set) namespace c item s1 = (s', Ok a) ->
    lam_reach acc (resolved_next a ⊎ res) s'
| reach_complete acc res s c tok st s' a :
    lam_reach acc res s -> (s.(dat).(next_tt_num) < u32_max)%Z ->
    complete (E := Empty_set) c tok st s = (s', Ok a) ->
    lam_reach acc (resolved_by a ⊎ res) s'
| reach_fire acc res s now h s' :
    lam_reach acc res s -> fire now h s = Some s' -> lam_reach acc res s'
| reach_abort_heartbeat acc res s reg :
    lam_reach acc res s -> lam_reach acc res (abort_heartbeat reg s)
| reach_workflows_have_shutdown acc res s :
    lam_reach acc res s -> lam_reach acc res (workflows_have_shutdown s)
| reach_shutdown_initiated acc res s :
    lam_reach acc res s -> lam_reach acc res (shutdown_initiated s)
| reach_wait_round acc res s : lam_reach acc res s -> lam_reach acc res (wait_round s).1
| reach_notified acc res s s' : lam_reach acc res s -> notified s = Some s' -> lam_reach acc res s'.

Lemma lam_reach_step acc res s s' a r :
  lam_inv s /\ acc = res ⊎ live s /\ slots s = n -> step_ok s s' a r ->
  lam_inv s' /\ a ⊎ acc = (r ⊎ res) ⊎ live s' /\ slots s' = n.
Proof.
  intros (_ & -> & Hs) [Hi Hl Hs']. split_and!; [done| |congruence].
  replace (a ⊎ (res ⊎ live s)) with (res ⊎ (a ⊎ live s)) by (clear; multiset_solver).
  rewrite Hl. clear. multiset_solver.
Qed.

Lemma lam_reach_step_quiet acc res s s' :
  lam_inv s /\ acc = res ⊎ live s /\ slots s = n -> step_ok s s' ∅ ∅ ->
  lam_inv s' /\ acc = res ⊎ live s' /\ slots s' = n.
Proof.
  intros Hs Hok. apply (lam_reach_step _ _ _ _ _ _ Hs) in Hok.
  by rewrite !(left_id_L ∅ (⊎)) in Hok.
Qed.

Lemma lam_reach_inv acc res s :
  lam_reach acc res s -> lam_inv s /\ acc = res ⊎ live s /\ slots s = n.
Proof.
  induction 1 as [|acc res s c req s' rs _ IH ? Hlt Hc He|acc res s c from s1 item s' a _ IH Hlt Hr Hn
    |acc res s c tok st s' a _ IH Hlt Hc|acc res s now h s' _ IH Hf|acc res s reg _ IH|acc res s _ IH
    |acc res s _ IH|acc res s _ IH|acc res s s' _ IH Hn].
  - destruct (lam_inv_new n) as [Hi Hl]. by rewrite Hl.
  - eapply lam_reach_step; [done|]. eapply enqueue_one_ok; [apply IH|done..].
  - pose proof (next_pending_wp (E := Empty_set) namespace c from s s1 item (proj1 IH) Hlt Hr) as Hw.
    unfold wp in Hw. rewrite Hn in Hw. rewrite <-(left_id_L ∅ (⊎) acc). by eapply lam_reach_step.
  - pose proof (complete_wp (E := Empty_set) c tok st s (proj1 IH) Hlt) as Hw.
    unfold wp in Hw. rewrite Hc in Hw. rewrite <-(left_id_L ∅ (⊎) acc). by eapply lam_reach_step.
  - eapply lam_reach_step_quiet; [done|]. by eapply fire_ok; [apply IH|].
  - eapply lam_reach_step_quiet; [done|]. apply step_ok_keep; [by apply inv_abort_heartbeat, IH|done].
  - eapply lam_reach_step_quiet; [done|]. apply step_ok_same; [| |apply IH];
      unfold workflows_have_shutdown, set_shutdown_complete_if_ready; simpl; by case_match.
  - eapply lam_reach_step_quiet; [done|]. apply step_ok_same; [| |apply IH];
      unfold shutdown_initiated, set_shutdown_complete_if_ready; simpl; by case_match.
  - eapply lam_reach_step_quiet; [done|]. apply step_ok_same; [| |apply IH];
      unfold wait_round, set_shutdown_complete_if_ready; simpl; by repeat case_match.
  - unfold notified in Hn. destruct (complete_notify s); [|done]. injection Hn as <-.
    eapply lam_reach_step_quiet; [done|]. apply step_ok_same; [done..|apply IH].
Qed.

End runs.
