(* ===== verification/LocalActManagerExamples.v ===== *)
(** * Runs of the local activity manager

    Concrete runs that the theorems apply to, and the races of the manager: what
    it does with a cancellation, a timeout or a new request when the state it
    looks at belongs to another moment of the activity. *)
From Stdlib Require Import ZArith Lia SpecFloat.
From stdpp Require Import base option list strings gmap gmultiset.
From S2P Require Import Prelude TimeArith Flags Protos ProtoExt CoreProtos Retry ActivityTasks.
From S2P Require Import LocalActs LocalActManager LocalActManagerFacts.

(** ** Activities that wait *)
Section waiting.
  Context `{WktTime} `{StdTables}.

(** An activity that waits, for a slot or for the end of a backoff, is reached
    neither by a cancellation nor by a timeout: a cancel task for it is read from
    the channel and dropped, with the answer that otherwise means shutdown, and
    a timeout for it is read and reported as untracked.  The activity stays
    where it is and will be dispatched. *)
Theorem waiting_activity_not_stopped {E} c s id lai res from_reason :
  lam_inv s -> s.(dat).(la_info) !! id = Some lai -> id ∈ live s ->
  s.(dat).(outstanding_activity_tasks) !! lai.(lai_task_token) = None ->
  res.(lar_seq) = id.(laid_seq_num) ->
  next_cancel (E := E) c (CT_Cancel (cancel_from_ids lai.(lai_task_token) from_reason
      (primary_reason_to_cancellation_details from_reason))) s = (s, Ok None) /\
  next_cancel (E := E) c (CT_Timeout id.(laid_run_id) res) s =
    (s, Ok (Some (NP_Autocomplete LAC_Untracked))) /\
  id ∈ queued s ⊎ backing s.
Proof.
  intros Hi Hla Hl Ho Hseq. unfold next_cancel, complete. split_and!.
  - rewrite get_bind. simpl. rewrite decide_False; [done|]. rewrite Ho. by intros [].
  - rewrite get_bind, Hseq.
    replace {| laid_run_id := _; laid_seq_num := _ |} with id by (by destruct id).
    rewrite Hla. unfold mbind, M_bind. simpl. by rewrite Ho.
  - unfold live in Hl. rewrite !gmultiset_elem_of_disj_union in *.
    destruct Hl as [[?|Hr]|?]; [auto| |auto]. exfalso.
    apply elem_of_vals in Hr as [tok Ht]. rewrite lookup_fmap in Ht.
    destruct (_ !! tok) as [i|] eqn:Ei; [|done]. injection Ht as <-.
    destruct (li_out s Hi tok i Ei) as (l & Hl' & Hk). congruence.
Qed.
End waiting.

Module LAExample.

#[local] Instance time : WktTime := example_time.
#[local] Instance tables : StdTables :=
  {| powi x n := Nat.iter (Z.to_nat n) (f64_mul x) (f64_from 1); to_lowercase s := s |}.
#[local] Instance iter : HashIter := map_to_list.
#[local] Instance iter_laws : HashIterLaws.
Proof. by intros m. Qed.

Definition secs (n : Z) : Z := n * NANOS_PER_SEC.
Definition at_sec (n : Z) : clock := {| sys_now := secs n; instant_now := secs n |}.

Definition schedule (close : LACloseTimeouts) : ValidScheduleLA :=
  {| la_seq := 1; la_activity_id := "1"; la_activity_type := "t"; la_attempt := 1;
     la_original_schedule_time := None; la_headers := ∅; la_arguments := [];
     la_schedule_to_start_timeout := None; la_close_timeouts := close;
     la_retry_policy := RetryPolicy_default; la_local_retry_threshold := secs 60;
     la_cancellation_type := ACT_TryCancel |}.

Definition act (close : LACloseTimeouts) : NewLocalAct :=
  {| schedule_cmd := schedule close; nla_workflow_type := "wf";
     workflow_exec_info := {| WorkflowExecution_workflow_id := "w";
                              WorkflowExecution_run_id := "r" |};
     schedule_time := 0 |}.

Definition the_id : ExecutingLAId := {| laid_run_id := "r"; laid_seq_num := 1 |}.

Definition failed (non_retryable : bool) : LocalActivityExecutionResult :=
  LAR_Failed {| ar_Failure_failure := Some (application_failure "boom" non_retryable) |}.
Definition succeeded : LocalActivityExecutionResult := LAR_Completed {| ar_Success_result := None |}.

(** ** Playing a schedule *)
Inductive event :=
| Req (t : Z) (req : LocalActRequest)
| Poll (t : Z) (from : source)
| Done (t : Z) (token : Z) (status : LocalActivityExecutionResult)
| Fire (t : Z) (h : N).

(** What the callers see. *)
Inductive seen :=
| Resolved (seq : Z) (r : LocalActivityExecutionResult)
| Dispatched (attempt : Z)
| CancelSent (token : Z)
| Idle.

Definition sees_action (a : LACompleteAction) : list seen :=
  match a with
  | LAC_Report _ r _ => [Resolved r.(lar_seq) r.(lar_result)]
  | _ => []
  end.

Definition sees_next (s : LAM) (r : option NextPendingLAAction) : list seen :=
  match r with
  | Some (NP_Dispatch {| at_variant := Some (ActivityTask_Start st) |}) =>
      [Dispatched st.(act_Start_attempt)]
  | Some (NP_Dispatch _) => [CancelSent s.(dat).(next_tt_num)]
  | Some (NP_Autocomplete a) =>
      sees_action a ++ match handle_la_complete_action a with
                       | (_, Some _) => [CancelSent s.(dat).(next_tt_num)] | _ => [] end
  | None => [Idle]
  end.

Definition play_one (e : event) (s : LAM) : option (LAM * list seen) :=
  match e with
  | Req t req =>
      let '(s', rs) := enqueue [(at_sec t, req)] s in
      Some (s', (fun r => Resolved r.(lar_seq) r.(lar_result)) <$> rs)
  | Poll t from =>
      '(s1, item) ← rcvs_next from s;
      match next_pending (E := Empty_set) "ns" (at_sec t) item s1 with
      | (s', Ok r) => Some (s', sees_next s r)
      | _ => None
      end
  | Done t tok st =>
      match complete (E := Empty_set) (at_sec t) (token_of tok) st s with
      | (s', Ok a) => Some (s', sees_action a)
      | _ => None
      end
  | Fire t h => s' ← fire (secs t) h s; Some (s', [])
  end.

Fixpoint play (es : list event) (s : LAM) : option (LAM * list seen) :=
  match es with
  | [] => Some (s, [])
  | e :: es =>
      '(s, l) ← play_one e s;
      '(s, l') ← play es s;
      Some (s, l ++ l')
  end.

Definition log (es : list event) (s : LAM) : option (list seen) := snd <$> play es s.
Definition after (es : list event) (s : LAM) : LAM := from_option fst s (play es s).

(** The first attempt runs at once, fails after a second and backs off for one. *)
Definition first_attempt_fails : list event :=
  [Req 0 (LA_New (act (StartOnly (secs 10)))); Poll 0 FromRequests; Done 1 1 (failed false)].

(** Cancelling an activity whose backoff has elapsed, while its retry waits for
    a slot, reports it as cancelled and leaves the retry in the queue: it is
    dispatched and its result is reported too, a second resolution of the
    same activity. *)
Theorem cancelled_retry_resolves_twice :
  log (first_attempt_fails ++
      [Fire 2 2; Req 2 (LA_Cancel the_id); Poll 3 FromRequests; Done 4 2 succeeded])
    (LAM_new 1) =
  Some [Dispatched 1; Resolved 1 (LAR_Cancelled (Cancellation_from_details None));
        Dispatched 2; Resolved 1 succeeded].
Proof. vm_compute. reflexivity. Qed.

(** The start-to-close timer of an attempt that failed is not aborted: when it
    elapses during the next attempt it ends that one.  Here the second attempt
    starts at 2 s with a timeout of 10 s, its own timer is due at 12 s, and
    it is timed out and cancelled at 10 s. *)
Theorem old_timer_ends_next_attempt :
  let es := first_attempt_fails ++ [Fire 2 2; Poll 2 FromRequests; Fire 10 1] in
  let s := after es (LAM_new 1) in
  log es (LAM_new 1) = Some [Dispatched 1; Dispatched 2] /\
  lif_dispatch_time <$> (s.(dat).(outstanding_activity_tasks) !! token_of 2) = Some (secs 2) /\
  sp_deadline <$> (s.(tasks) !! 3%N) = Some (secs 12) /\
  log [Poll 10 FromCancels] s = Some [CancelSent 2] /\
  lif_dispatch_time <$> ((after [Poll 10 FromCancels] s).(dat).(outstanding_activity_tasks)
    !! token_of 2) = None.
Proof. split_and!; vm_compute; reflexivity. Qed.

(** The entry of an activity cancelled during its backoff, as all of a run are
    when it is evicted, is never removed: when the run is replayed and asks for
    the same activity again, the request is taken for one already executing
    and dropped.  Nothing is queued, running or backing off, and nothing will
    resolve it. *)
Theorem rescheduled_activity_dropped :
  let es := first_attempt_fails ++
    [Req 1 (LA_CancelAllInRun "r"); Req 5 (LA_New (act (StartOnly (secs 10))))] in
  let s := after es (LAM_new 1) in
  log es (LAM_new 1) =
    Some [Dispatched 1; Resolved 1 (LAR_Cancelled (Cancellation_from_details None))] /\
  elements (live s) = [] /\ lai_backing_off_task <$> (s.(dat).(la_info) !! the_id) = Some None.
Proof. split_and!; vm_compute; reflexivity. Qed.

(** Shutdown waits for a notification that a failed activity does not send:
    the last outstanding activity fails for good and is reported, nothing is
    outstanding any more, and the waiter is not woken. *)
Theorem failure_does_not_wake_shutdown :
  let es := [Req 0 (LA_New (act (StartOnly (secs 10)))); Poll 0 FromRequests] in
  let waiting := wait_round (after es (LAM_new 1)) in
  let s := after [Done 1 1 (failed true)] waiting.1 in
  log es (LAM_new 1) = Some [Dispatched 1] /\ waiting.2 = false /\
  log [Done 1 1 (failed true)] waiting.1 = Some [Resolved 1 (failed true)] /\
  (wait_round s).2 = true /\ s.(complete_notify) = false.
Proof. split_and!; vm_compute; reflexivity. Qed.

(** ** Witnesses *)
Definition queued_one : LAM :=
  (enqueue_one (at_sec 0) (LA_New (act (StartOnly (secs 10)))) (LAM_new 1)).1.

Lemma queued_one_reach : exists acc res, lam_reach "ns" 1 acc res queued_one.
Proof.
  destruct (enqueue_one (at_sec 0) (LA_New (act (StartOnly (secs 10)))) (LAM_new 1))
    as [s rs] eqn:E.
  eexists _, _. unfold queued_one. rewrite E. simpl.
  eapply reach_request; [apply reach_new|reflexivity|vm_compute; reflexivity| |exact E].
  intros id lai _ [].
Qed.


(** The activity is requested and waits for a slot. *)
Lemma waiting_activity_not_stopped_witness :
  exists lai, queued_one.(dat).(la_info) !! the_id = Some lai /\
    next_cancel (E := Empty_set) (at_sec 1) (CT_Cancel (cancel_from_ids lai.(lai_task_token)
      ACR_Cancelled (primary_reason_to_cancellation_details ACR_Cancelled))) queued_one
    = (queued_one, Ok None).
Proof.
  destruct queued_one_reach as (acc & res & Hr).
  destruct (lam_reach_inv "ns" 1 _ _ _ Hr) as (Hi & _ & _).
  assert (size queued_one.(dat).(outstanding_activity_tasks) = 0) as Hz by (vm_compute; reflexivity).
  apply map_size_empty_inv in Hz.
  assert (the_id ∈ live queued_one) as Hin
    by (rewrite elem_of_multiplicity; vm_compute; lia).
  destruct (li_known _ Hi _ Hin) as [lai Hla]. exists lai. split; [exact Hla|].
  destruct (waiting_activity_not_stopped (E := Empty_set) (at_sec 1) queued_one the_id lai
    (cancelled_resolution 1) ACR_Cancelled Hi Hla Hin) as [Hc _]; [|reflexivity|exact Hc].
  rewrite Hz. apply lookup_empty.
Defined.
End LAExample.
