(* ===== verification/HeartbeatManager.v ===== *)
(** * Activity heartbeats (worker/activities/activity_heartbeat_manager.rs)

    Heartbeats of activities are throttled: the first is reported to the server
    at once, those that follow replace one another until the throttle interval
    has passed, and the last one is flushed when the activity ends.  The stream
    of actions, the requests that are with the server and the tasks that sleep
    are parts of the state. *)
From Stdlib Require Import ZArith Lia.
From stdpp Require Import base option list strings gmap.
From S2P Require Import Prelude TimeArith Flags Protos CoreProtos ActivityTasks.

Record PendingActivityCancel := {
  pac_task_token : string;
  pac_reason : ActivityCancelReason;
  pac_details : ActivityCancellationDetails;
}.

(** ** Data *)

(** A [Notify] and a [CancellationToken] are numbers. *)
Record ValidActivityHeartbeat := {
  vhb_task_token : string;
  vhb_details : list Payload;
  vhb_throttle_interval : Z;
  vhb_timeout_resetter : option N;
}.

Inductive HeartbeatAction :=
| SendHeartbeat (hb : ValidActivityHeartbeat)
| Evict (token : string) (on_complete : N)
| CompleteReport (token : string)
| CompleteThrottle (token : string).

Inductive HeartbeatExecutorAction :=
| Sleep (token : string) (duration : Z) (cancellation : N)
| Report (token : string) (details : list Payload).

Record ActivityHeartbeatState := {
  last_recorded_details : option (list Payload);
  is_record_in_flight : bool;
  last_send_requested : Z;
  throttle_interval : Z;
  throttled_cancellation_token : option N;
  hb_timeout_resetter : option N;
}.

(** What the handlers do besides changing the maps. *)
Inductive hb_effect :=
| NotifyOne (n : N)
| CancelToken (t : N).

(** The two maps, the next child token, and the effects of the handler that
    runs. *)
Record HeartbeatStreamState := {
  tt_to_state : gmap string ActivityHeartbeatState;
  tt_needs_flush : gmap string N;
  next_child : N;
}.

Definition HeartbeatStreamState_new : HeartbeatStreamState :=
  {| tt_to_state := ∅; tt_needs_flush := ∅; next_child := 0 |}.

Definition set_tt_to_state (m : gmap string ActivityHeartbeatState) (s : HeartbeatStreamState)
  : HeartbeatStreamState :=
  {| tt_to_state := m; tt_needs_flush := s.(tt_needs_flush); next_child := s.(next_child) |}.

Definition set_tt_needs_flush (m : gmap string N) (s : HeartbeatStreamState)
  : HeartbeatStreamState :=
  {| tt_to_state := s.(tt_to_state); tt_needs_flush := m; next_child := s.(next_child) |}.

(** How long to sleep, when the clock reads [now]. *)
Definition get_throttle_sleep_duration (now : Z) (st : ActivityHeartbeatState) : Z :=
  let time_since_last_sent := saturating_sub now st.(last_send_requested) in
  if (0 <? time_since_last_sent)%Z && (time_since_last_sent <? st.(throttle_interval))%Z
  then st.(throttle_interval) - time_since_last_sent else 0.

(** ** Handlers *)
Definition hb_answer : Type :=
  HeartbeatStreamState * list hb_effect * option HeartbeatExecutorAction.

Definition record (now : Z) (hb : ValidActivityHeartbeat) (s : HeartbeatStreamState) : hb_answer :=
  match s.(tt_to_state) !! hb.(vhb_task_token) with
  | None =>
      (set_tt_to_state (<[hb.(vhb_task_token) :=
         {| last_recorded_details := None; is_record_in_flight := true;
            last_send_requested := now; throttle_interval := hb.(vhb_throttle_interval);
            throttled_cancellation_token := None;
            hb_timeout_resetter := hb.(vhb_timeout_resetter) |}]> s.(tt_to_state)) s,
       [], Some (Report hb.(vhb_task_token) hb.(vhb_details)))
  | Some st =>
      (set_tt_to_state (<[hb.(vhb_task_token) :=
         {| last_recorded_details := Some hb.(vhb_details);
            is_record_in_flight := st.(is_record_in_flight);
            last_send_requested := st.(last_send_requested);
            throttle_interval := st.(throttle_interval);
            throttled_cancellation_token := st.(throttled_cancellation_token);
            hb_timeout_resetter := hb.(vhb_timeout_resetter) |}]> s.(tt_to_state)) s,
       [], None)
  end.

Definition handle_report_completed (now : Z) (tok : string) (s : HeartbeatStreamState)
  : hb_answer :=
  let flushed := NotifyOne <$> option_list (s.(tt_needs_flush) !! tok) in
  let s := set_tt_needs_flush (delete tok s.(tt_needs_flush)) s in
  match s.(tt_to_state) !! tok with
  | Some st =>
      let child := s.(next_child) in
      let st := {| last_recorded_details := st.(last_recorded_details);
                   is_record_in_flight := false;
                   last_send_requested := st.(last_send_requested);
                   throttle_interval := st.(throttle_interval);
                   throttled_cancellation_token := Some child;
                   hb_timeout_resetter := st.(hb_timeout_resetter) |} in
      ({| tt_to_state := <[tok := st]> s.(tt_to_state); tt_needs_flush := s.(tt_needs_flush);
          next_child := (child + 1)%N |},
       flushed ++ (NotifyOne <$> option_list st.(hb_timeout_resetter)),
       Some (Sleep tok (get_throttle_sleep_duration now st) child))
  | None => (s, flushed, None)
  end.

Definition handle_throttle_completed (now : Z) (tok : string) (s : HeartbeatStreamState)
  : hb_answer :=
  match s.(tt_to_state) !! tok with
  | Some st =>
      match st.(last_recorded_details) with
      | Some details =>
          (set_tt_to_state (<[tok :=
             {| last_recorded_details := None; is_record_in_flight := true;
                last_send_requested := now; throttle_interval := st.(throttle_interval);
                throttled_cancellation_token := None;
                hb_timeout_resetter := st.(hb_timeout_resetter) |}]> s.(tt_to_state)) s,
           [], Some (Report tok details))
      | None => (set_tt_to_state (delete tok s.(tt_to_state)) s, [], None)
      end
  | None => (s, [], None)
  end.

Definition evict (tok : string) (on_complete : N) (s : HeartbeatStreamState) : hb_answer :=
  match s.(tt_to_state) !! tok with
  | Some st =>
      let s := set_tt_to_state (delete tok s.(tt_to_state)) s in
      let stop := CancelToken <$> option_list st.(throttled_cancellation_token) in
      let flush := set_tt_needs_flush (<[tok := on_complete]> s.(tt_needs_flush)) s in
      match st.(last_recorded_details) with
      | Some last_deets => (flush, stop, Some (Report tok last_deets))
      | None =>
          if st.(is_record_in_flight) then (flush, stop, None)
          else (s, stop ++ [NotifyOne on_complete], None)
      end
  | None => (s, [NotifyOne on_complete], None)
  end.

Definition handle_action (now : Z) (a : HeartbeatAction) (s : HeartbeatStreamState) : hb_answer :=
  match a with
  | SendHeartbeat hb => record now hb s
  | CompleteReport tok => handle_report_completed now tok s
  | CompleteThrottle tok => handle_throttle_completed now tok s
  | Evict token on_complete => evict token on_complete s
  end.

(** ** The manager

    The actions that wait in the channel, what the executor is busy with, the
    cancellations for lang, and which notifications were given.  A sleeping task
    has its deadline. *)
Inductive executing :=
| Reporting (token : string) (details : list Payload)
| Sleeping (token : string) (deadline : Z) (cancellation : N).

Record HBM := {
  hbm_stream : HeartbeatStreamState;
  hbm_incoming : list HeartbeatAction;
  hbm_executing : list executing;
  hbm_cancelled : list N;
  hbm_notified : list N;
  hbm_shutdown : bool;
}.

Definition HBM_new : HBM :=
  {| hbm_stream := HeartbeatStreamState_new; hbm_incoming := []; hbm_executing := [];
     hbm_cancelled := []; hbm_notified := []; hbm_shutdown := false |}.

Definition hbm_send (a : HeartbeatAction) (s : HBM) : HBM :=
  {| hbm_stream := s.(hbm_stream); hbm_incoming := s.(hbm_incoming) ++ [a];
     hbm_executing := s.(hbm_executing); hbm_cancelled := s.(hbm_cancelled);
     hbm_notified := s.(hbm_notified); hbm_shutdown := s.(hbm_shutdown) |}.

Definition set_executing (l : list executing) (s : HBM) : HBM :=
  {| hbm_stream := s.(hbm_stream); hbm_incoming := s.(hbm_incoming); hbm_executing := l;
     hbm_cancelled := s.(hbm_cancelled); hbm_notified := s.(hbm_notified);
     hbm_shutdown := s.(hbm_shutdown) |}.

Definition hbm_record (hb : ValidActivityHeartbeat) (s : HBM) : HBM := hbm_send (SendHeartbeat hb) s.

Definition hbm_evict (token : string) (on_complete : N) (s : HBM) : HBM :=
  hbm_send (Evict token on_complete) s.

Definition hbm_shut_down (s : HBM) : HBM :=
  {| hbm_stream := s.(hbm_stream); hbm_incoming := s.(hbm_incoming);
     hbm_executing := s.(hbm_executing); hbm_cancelled := s.(hbm_cancelled);
     hbm_notified := s.(hbm_notified); hbm_shutdown := true |}.

Definition execute (now : Z) (a : HeartbeatExecutorAction) : executing :=
  match a with
  | Sleep tok d c => Sleeping tok (now + d) c
  | Report tok details => Reporting tok details
  end.

Definition notifies (l : list hb_effect) : list N :=
  omap (fun e => match e with NotifyOne n => Some n | _ => None end) l.
Definition cancels_of (l : list hb_effect) : list N :=
  omap (fun e => match e with CancelToken t => Some t | _ => None end) l.

(** One item of the stream: the next action is handled and what it asks for is
    started.  After shutdown the stream has ended. *)
Definition stream_step (now : Z) (s : HBM) : option HBM :=
  if s.(hbm_shutdown) then None
  else
    match s.(hbm_incoming) with
    | [] => None
    | a :: rest =>
        let '(st, effs, act) := handle_action now a s.(hbm_stream) in
        Some {| hbm_stream := st; hbm_incoming := rest;
                hbm_executing := s.(hbm_executing) ++ option_list (execute now <$> act);
                hbm_cancelled := cancels_of effs ++ s.(hbm_cancelled);
                hbm_notified := notifies effs ++ s.(hbm_notified);
                hbm_shutdown := s.(hbm_shutdown) |}
    end.

(** The answers of the server to a heartbeat. *)
Inductive HeartbeatResponse :=
| HeartbeatOk (cancel_requested activity_paused activity_reset : bool)
| HeartbeatNotFound
| HeartbeatError.

Definition heartbeat_cancel (tok : string) (r : HeartbeatResponse) : list PendingActivityCancel :=
  match r with
  | HeartbeatOk cancel_requested activity_paused activity_reset =>
      if cancel_requested || activity_paused || activity_reset then
        [{| pac_task_token := tok;
            pac_reason := if cancel_requested then ACR_Cancelled
                          else if activity_reset then ACR_Reset else ACR_Paused;
            pac_details := {| acd_is_not_found := false; acd_is_cancelled := cancel_requested;
                              acd_is_paused := activity_paused; acd_is_timed_out := false;
                              acd_is_worker_shutdown := false;
                              acd_is_reset := activity_reset |} |}]
      else []
  | HeartbeatNotFound =>
      [{| pac_task_token := tok; pac_reason := ACR_NotFound;
          pac_details := primary_reason_to_cancellation_details ACR_NotFound |}]
  | HeartbeatError => []
  end.

(** The request at position [i] of the executor is answered. *)
Definition finish_report (i : nat) (r : HeartbeatResponse) (s : HBM)
  : option (HBM * list PendingActivityCancel) :=
  match s.(hbm_executing) !! i with
  | Some (Reporting tok _) =>
      Some (hbm_send (CompleteReport tok) (set_executing (delete i s.(hbm_executing)) s),
            heartbeat_cancel tok r)
  | _ => None
  end.

(** The task at position [i] wakes, or finds its token cancelled. *)
Definition finish_sleep (now : Z) (i : nat) (s : HBM) : option HBM :=
  match s.(hbm_executing) !! i with
  | Some (Sleeping tok deadline _) =>
      if (deadline <=? now)%Z
      then Some (hbm_send (CompleteThrottle tok) (set_executing (delete i s.(hbm_executing)) s))
      else None
  | _ => None
  end.

Definition cancel_sleep (i : nat) (s : HBM) : option HBM :=
  match s.(hbm_executing) !! i with
  | Some (Sleeping tok _ c) =>
      if s.(hbm_shutdown) || bool_decide (c ∈ s.(hbm_cancelled))
      then Some (set_executing (delete i s.(hbm_executing)) s)
      else None
  | _ => None
  end.
