(* ===== verification/HeartbeatFacts.v ===== *)
(** * What the heartbeat manager guarantees

    Over any interleaving of heartbeats, evictions, answers of the server and
    timers: reports of an activity are at least a throttle interval apart, the
    newest details are reported or kept for the next report, and an eviction
    waits only for a request that is under way. *)
From Stdlib Require Import ZArith Lia.
From stdpp Require Import base option list strings gmap.
From S2P Require Import Prelude TimeArith Flags Protos CoreProtos ActivityTasks HeartbeatManager.

(** ** Counting *)
Definition cnt {A} (f : A -> bool) (l : list A) : nat := length (List.filter f l).

Section cnt.
  Context {A : Type} (f : A -> bool).

Lemma cnt_nil : cnt f [] = 0.
Proof. done. Qed.

Lemma cnt_cons x l : cnt f (x :: l) = (if f x then 1 else 0) + cnt f l.
Proof. unfold cnt. simpl. by destruct (f x). Qed.

Lemma cnt_app l1 l2 : cnt f (l1 ++ l2) = cnt f l1 + cnt f l2.
Proof. unfold cnt. by rewrite List.filter_app, length_app. Qed.

Lemma cnt_delete l i x :
  l !! i = Some x -> cnt f l = (if f x then 1 else 0) + cnt f (delete i l).
Proof.
  intros Hi. rewrite <-(take_drop_middle l i x Hi), cnt_app, cnt_cons.
  rewrite delete_take_drop, cnt_app.
  replace (take i (take i l ++ x :: drop (S i) l)) with (take i l).
  2: { apply lookup_lt_Some in Hi as Hlt.
       rewrite take_app_le, take_take by (rewrite length_take; lia). f_equal. lia. }
  replace (drop (S i) (take i l ++ x :: drop (S i) l)) with (drop (S i) l); [lia|].
  apply lookup_lt_Some in Hi as Hlt.
  rewrite drop_app_ge by (rewrite length_take; lia). rewrite length_take.
  replace (S i - i `min` length l) with 1 by lia. done.
Qed.

Lemma cnt_zero l : cnt f l = 0 -> forall x, x ∈ l -> f x = false.
Proof.
  induction l as [|y l IH]; [by intros _ x ?%not_elem_of_nil|]. rewrite cnt_cons.
  intros Hz x [->|Hx]%elem_of_cons; [destruct (f y); [lia|done]|apply IH; [lia|done]].
Qed.
End cnt.

Definition report_of (tok : string) (e : executing) : bool :=
  match e with Reporting t _ => String.eqb t tok | _ => false end.
Definition sleep_of (tok : string) (e : executing) : bool :=
  match e with Sleeping t _ _ => String.eqb t tok | _ => false end.
Definition reported_of (tok : string) (a : HeartbeatAction) : bool :=
  match a with CompleteReport t => String.eqb t tok | _ => false end.
Definition slept_of (tok : string) (a : HeartbeatAction) : bool :=
  match a with CompleteThrottle t => String.eqb t tok | _ => false end.

(** Requests of an activity that are under way or whose end is not yet seen, and
    the same for its throttle timers. *)
Definition reports (tok : string) (s : HBM) : nat :=
  cnt (report_of tok) s.(hbm_executing) + cnt (reported_of tok) s.(hbm_incoming).
Definition sleeps (tok : string) (s : HBM) : nat :=
  cnt (sleep_of tok) s.(hbm_executing) + cnt (slept_of tok) s.(hbm_incoming).

(** ** Runs of the manager *)

(** A report that was started, and whether it is the flush of an eviction. *)
Record issue := {
  is_time : Z;
  is_token : string;
  is_interval : Z;
  is_details : list Payload;
  is_flush : bool;
}.

(** What was observed: the reports started, newest first; the details of the last
    heartbeat taken from the channel; the evictions sent and those handled. *)
Record observed := {
  ob_log : list issue;
  ob_latest : gmap string (list Payload);
  ob_evict_sent : gset string;
  ob_evicted : gmap string N;
}.

Definition observe (now : Z) (a : HeartbeatAction) (s : HeartbeatStreamState) (o : observed)
  : observed :=
  let '(s', _, act) := handle_action now a s in
  {| ob_log :=
       match act with
       | Some (Report tok d) =>
           [{| is_time := now; is_token := tok;
               is_interval := from_option throttle_interval 0%Z (s'.(tt_to_state) !! tok);
               is_details := d;
               is_flush := match a with Evict _ _ => true | _ => false end |}]
       | _ => []
       end ++ o.(ob_log);
     ob_latest :=
       match a with
       | SendHeartbeat hb => <[hb.(vhb_task_token) := hb.(vhb_details)]> o.(ob_latest)
       | _ => o.(ob_latest)
       end;
     ob_evict_sent := o.(ob_evict_sent);
     ob_evicted := match a with Evict t n => <[t := n]> o.(ob_evicted) | _ => o.(ob_evicted) end |}.

Definition send_evict (tok : string) (o : observed) : observed :=
  {| ob_log := o.(ob_log); ob_latest := o.(ob_latest);
     ob_evict_sent := {[tok]} ∪ o.(ob_evict_sent); ob_evicted := o.(ob_evicted) |}.

Definition observed_new : observed :=
  {| ob_log := []; ob_latest := ∅; ob_evict_sent := ∅; ob_evicted := ∅ |}.

(** The states reached when the clock reads [now].  As documented, no heartbeat
    is recorded for an activity after its eviction, and it is evicted once. *)
Inductive hb_reach : Z -> observed -> HBM -> Prop :=
| hb_new now : hb_reach now observed_new HBM_new
| hb_record now o s hb :
    hb_reach now o s -> hb.(vhb_task_token) ∉ o.(ob_evict_sent) ->
    hb_reach now o (hbm_record hb s)
| hb_evict now o s tok n :
    hb_reach now o s -> tok ∉ o.(ob_evict_sent) ->
    hb_reach now (send_evict tok o) (hbm_evict tok n s)
| hb_stream now now' o s a l s' :
    hb_reach now o s -> (now < now')%Z -> s.(hbm_incoming) = a :: l ->
    stream_step now' s = Some s' -> hb_reach now' (observe now' a s.(hbm_stream) o) s'
| hb_reported now o s i r s' cs :
    hb_reach now o s -> finish_report i r s = Some (s', cs) -> hb_reach now o s'
| hb_slept now now' o s i s' :
    hb_reach now o s -> (now < now')%Z -> finish_sleep now' i s = Some s' -> hb_reach now' o s'
| hb_cancelled now o s i s' :
    hb_reach now o s -> cancel_sleep i s = Some s' -> hb_reach now o s'
| hb_shutdown now o s : hb_reach now o s -> hb_reach now o (hbm_shut_down s).

(** ** The invariant *)
Definition last_issue (tok : string) (l : list issue) : option issue :=
  List.find (fun e => String.eqb e.(is_token) tok) l.

(** An activity whose heartbeats are tracked. *)
Record tracked_ok (now : Z) (o : observed) (s : HBM) (tok : string) (st : ActivityHeartbeatState)
  : Prop := {
  to_evicted : o.(ob_evicted) !! tok = None;
  to_issue : exists e, last_issue tok o.(ob_log) = Some e /\
    e.(is_time) = st.(last_send_requested) /\ e.(is_interval) = st.(throttle_interval) /\
    (e.(is_time) <= now)%Z;
  to_token : forall c, st.(throttled_cancellation_token) = Some c ->
    (c < s.(hbm_stream).(next_child))%N /\ c ∉ s.(hbm_cancelled);
  to_reporting : st.(is_record_in_flight) = true -> reports tok s = 1 /\ sleeps tok s = 0;
  to_sleeping : st.(is_record_in_flight) = false -> reports tok s = 0 /\ sleeps tok s = 1 /\
    (forall d c, Sleeping tok d c ∈ s.(hbm_executing) ->
       st.(throttled_cancellation_token) = Some c /\
       (st.(last_send_requested) + st.(throttle_interval) <= d)%Z) /\
    (CompleteThrottle tok ∈ s.(hbm_incoming) ->
       (st.(last_send_requested) + st.(throttle_interval) <= now)%Z);
}.

Definition untracked_ok (now : Z) (o : observed) (s : HBM) (tok : string) : Prop :=
  is_Some (o.(ob_evicted) !! tok) \/
  (reports tok s = 0 /\ sleeps tok s = 0 /\
   forall e, last_issue tok o.(ob_log) = Some e -> (e.(is_time) + e.(is_interval) <= now)%Z).

(** A report that is not a flush comes at least the interval of the previous one
    of the activity after it. *)
Fixpoint spaced (l : list issue) : Prop :=
  match l with
  | [] => True
  | e :: l =>
      match last_issue e.(is_token) l with
      | Some e1 => e.(is_flush) = false -> (e1.(is_time) + e1.(is_interval) <= e.(is_time))%Z
      | None => True
      end /\ spaced l
  end.

(** The newest details wait for the next report, or were reported last. *)
Definition delivered (o : observed) (s : HBM) (tok : string) (d : list Payload) : Prop :=
  match s.(hbm_stream).(tt_to_state) !! tok ≫= last_recorded_details with
  | Some waiting => waiting = d
  | None => is_details <$> last_issue tok o.(ob_log) = Some d
  end.

(** The activity an action of the callers is about. *)
Definition mentions (tok : string) (a : HeartbeatAction) : bool :=
  match a with
  | SendHeartbeat hb => String.eqb hb.(vhb_task_token) tok
  | Evict t _ => String.eqb t tok
  | _ => false
  end.

(** Nothing about an activity follows its eviction. *)
Fixpoint ordered (l : list HeartbeatAction) : Prop :=
  match l with
  | [] => True
  | a :: l =>
      match a with
      | Evict t _ => Forall (fun a => mentions t a = false) l
      | _ => True
      end /\ ordered l
  end.

Record hb_inv (now : Z) (o : observed) (s : HBM) : Prop := {
  hi_ordered : ordered s.(hbm_incoming);
  hi_pending : forall a tok, a ∈ s.(hbm_incoming) -> mentions tok a = true ->
    o.(ob_evicted) !! tok = None;
  hi_sent : forall tok n, Evict tok n ∈ s.(hbm_incoming) -> tok ∈ o.(ob_evict_sent);
  hi_evicted_sent : forall tok, is_Some (o.(ob_evicted) !! tok) -> tok ∈ o.(ob_evict_sent);
  hi_spaced : spaced o.(ob_log);
  hi_delivered : forall tok d, o.(ob_latest) !! tok = Some d -> delivered o s tok d;
  hi_unique : forall t1 t2 s1 s2 c, s.(hbm_stream).(tt_to_state) !! t1 = Some s1 ->
    s.(hbm_stream).(tt_to_state) !! t2 = Some s2 -> s1.(throttled_cancellation_token) = Some c ->
    s2.(throttled_cancellation_token) = Some c -> t1 = t2;
  hi_cancelled : forall c, c ∈ s.(hbm_cancelled) -> (c < s.(hbm_stream).(next_child))%N;
  hi_flush : forall tok n, s.(hbm_stream).(tt_needs_flush) !! tok = Some n ->
    is_Some (o.(ob_evicted) !! tok) /\ 0 < reports tok s;
  hi_answered : forall tok n, o.(ob_evicted) !! tok = Some n ->
    n ∈ s.(hbm_notified) \/ s.(hbm_stream).(tt_needs_flush) !! tok = Some n;
  hi_tracked : s.(hbm_shutdown) = false -> forall tok,
    match s.(hbm_stream).(tt_to_state) !! tok with
    | Some st => tracked_ok now o s tok st
    | None => untracked_ok now o s tok
    end;
}.

Lemma hb_inv_new now : hb_inv now observed_new HBM_new.
Proof.
  constructor; simpl; try done; try (by intros; set_solver).
  - intros tok [? Hs]. by rewrite lookup_empty in Hs.
  - intros _ tok. rewrite lookup_empty. by right.
Qed.

(** ** Frames *)

(** Nothing changed for the requests and timers of an activity. *)
Record same_for (tok : string) (s s' : HBM) : Prop := {
  sf_reports : reports tok s' = reports tok s;
  sf_sleeps : sleeps tok s' = sleeps tok s;
  sf_sleeping : forall d c, Sleeping tok d c ∈ s'.(hbm_executing) -> Sleeping tok d c ∈ s.(hbm_executing);
  sf_slept : CompleteThrottle tok ∈ s'.(hbm_incoming) -> CompleteThrottle tok ∈ s.(hbm_incoming);
}.

Lemma tracked_ok_frame now now' o o' s s' tok st :
  tracked_ok now o s tok st -> same_for tok s s' -> (now <= now')%Z ->
  o'.(ob_evicted) !! tok = o.(ob_evicted) !! tok ->
  last_issue tok o'.(ob_log) = last_issue tok o.(ob_log) ->
  (forall c, st.(throttled_cancellation_token) = Some c ->
     (c < s'.(hbm_stream).(next_child))%N /\ c ∉ s'.(hbm_cancelled)) ->
  tracked_ok now' o' s' tok st.
Proof.
  intros [He (e & Hi & ? & ? & ?) Ht Hr Hs] [Fr Fs Fx Fc] Hn Ee El Hc.
  constructor; rewrite ?Ee, ?El, ?Fr, ?Fs; [done| |done|done|].
  - exists e. split_and!; [done..|lia].
  - intros Hf. destruct (Hs Hf) as (? & ? & Hd & Hq). split_and!; [done..| |].
    + intros d c Hin. apply Hd, Fx, Hin.
    + intros Hin. specialize (Hq (Fc Hin)). lia.
Qed.

Lemma untracked_ok_frame now now' o o' s s' tok :
  untracked_ok now o s tok -> same_for tok s s' -> (now <= now')%Z ->
  o'.(ob_evicted) !! tok = o.(ob_evicted) !! tok ->
  last_issue tok o'.(ob_log) = last_issue tok o.(ob_log) -> untracked_ok now' o' s' tok.
Proof.
  intros Hu [Fr Fs _ _] Hn Ee El. unfold untracked_ok. rewrite Ee, El, Fr, Fs.
  destruct Hu as [?|(? & ? & He)]; [by left|right]. split_and!; [done..|].
  intros e Hl. specialize (He e Hl). lia.
Qed.

Lemma ordered_app l x :
  ordered l -> Forall (fun a => forall tok n, Evict tok n ∈ l -> mentions tok a = false) x ->
  ordered x -> ordered (l ++ x).
Proof.
  induction l as [|a l IH]; intros Hl Hx Ho; simpl; [done|]. destruct Hl as [Ha Hl]. split.
  - destruct a; try done. apply Forall_app. split; [done|].
    eapply Forall_impl; [exact Hx|]. simpl. intros b Hb. eapply Hb. by left.
  - apply IH; [done| |done]. eapply Forall_impl; [exact Hx|]. simpl. intros b Hb tok n Hin.
    eapply Hb. by right.
Qed.

Definition quiet_actions (x : list HeartbeatAction) : Prop :=
  Forall (fun a => forall tok, mentions tok a = false) x.

Lemma quiet_ordered x : quiet_actions x -> ordered x.
Proof.
  induction 1 as [|a x Ha Hx IH]; simpl; [done|]. split; [|done].
  destruct a as [|t n| |]; try done. specialize (Ha t). simpl in Ha. by rewrite String.eqb_refl in Ha.
Qed.

(** The executor makes progress. *)
Lemma inv_exec now now' o s s' x :
  hb_inv now o s -> s'.(hbm_stream) = s.(hbm_stream) -> s'.(hbm_cancelled) = s.(hbm_cancelled) ->
  s'.(hbm_notified) = s.(hbm_notified) -> s'.(hbm_shutdown) = s.(hbm_shutdown) ->
  s'.(hbm_incoming) = s.(hbm_incoming) ++ x -> quiet_actions x ->
  (forall tok, reports tok s' = reports tok s) ->
  (s.(hbm_shutdown) = false -> forall tok,
    match s.(hbm_stream).(tt_to_state) !! tok with
    | Some st => tracked_ok now' o s' tok st
    | None => untracked_ok now' o s' tok
    end) ->
  hb_inv now' o s'.
Proof.
  intros [] Es Ec En Eh Ei Hx Hr Ht.
  constructor; rewrite ?Es, ?Ec, ?En, ?Eh, ?Ei; try done.
  - apply ordered_app; [done| |by apply quiet_ordered].
    eapply Forall_impl; [exact Hx|]. simpl. auto.
  - intros a tok [Hin|Hin]%elem_of_app Hm; [by eapply hi_pending0|].
    eapply Forall_forall in Hx; [|exact Hin]. simpl in Hx. rewrite Hx in Hm. done.
  - intros tok n [Hin|Hin]%elem_of_app; [exact (hi_sent0 tok n Hin)|].
    eapply Forall_forall in Hx; [|exact Hin]. specialize (Hx tok). simpl in Hx.
    by rewrite String.eqb_refl in Hx.
  - intros tok d Hd. unfold delivered. rewrite Es. by apply hi_delivered0.
  - intros tok n Hn. rewrite Hr. exact (hi_flush0 tok n Hn).
Qed.

Lemma finish_report_inv now o s i r s' cs :
  hb_inv now o s -> finish_report i r s = Some (s', cs) -> hb_inv now o s'.
Proof.
  intros Hi. unfold finish_report. destruct (hbm_executing s !! i) as [[tok d|]|] eqn:Ei; [|done..].
  intros [= <- _].
  assert (forall tok', same_for tok' s
    (hbm_send (CompleteReport tok) (set_executing (delete i (hbm_executing s)) s))) as Hf.
  { intros tok'. constructor; unfold reports, sleeps; simpl.
    - rewrite cnt_app, cnt_cons, cnt_nil, (cnt_delete _ _ _ _ Ei). simpl. case_match; simpl; lia.
    - rewrite cnt_app, cnt_cons, cnt_nil, (cnt_delete (sleep_of tok') _ _ _ Ei). simpl. lia.
    - intros d' c Hin. by eapply list_elem_of_delete_inv.
    - rewrite elem_of_app. intros [?|Hin]; [done|].
      apply list_elem_of_singleton in Hin. congruence. }
  eapply (inv_exec now now o s _ [CompleteReport tok]); try done.
  - by constructor.
  - intros tok'. apply Hf.
  - intros Hs tok'. pose proof (hi_tracked now o s Hi Hs tok') as Ht.
    destruct (tt_to_state (hbm_stream s) !! tok').
    + eapply tracked_ok_frame; [done|apply Hf|done..|]. apply Ht.
    + by eapply untracked_ok_frame.
Qed.

Lemma sleep_counts s i tok d c (x : list HeartbeatAction) tok' :
  s.(hbm_executing) !! i = Some (Sleeping tok d c) ->
  reports tok' (set_executing (delete i s.(hbm_executing)) s) = reports tok' s /\
  sleeps tok' s = (if String.eqb tok tok' then 1 else 0)
                  + sleeps tok' (set_executing (delete i s.(hbm_executing)) s).
Proof.
  intros Ei. unfold reports, sleeps. simpl.
  rewrite (cnt_delete (report_of tok') _ _ _ Ei), (cnt_delete (sleep_of tok') _ _ _ Ei). simpl.
  split; [done|lia].
Qed.

(** An activity that is tracked or may be again sleeps in one task only. *)
Lemma sleeper_tracked now o s i tok d c :
  hb_inv now o s -> s.(hbm_shutdown) = false ->
  s.(hbm_executing) !! i = Some (Sleeping tok d c) ->
  match s.(hbm_stream).(tt_to_state) !! tok with
  | Some st => st.(is_record_in_flight) = false /\ st.(throttled_cancellation_token) = Some c /\
      (st.(last_send_requested) + st.(throttle_interval) <= d)%Z
  | None => is_Some (o.(ob_evicted) !! tok)
  end.
Proof.
  intros Hi Hs Ei. pose proof (hi_tracked now o s Hi Hs tok) as Ht.
  destruct (sleep_counts s i tok d c [] tok Ei) as [_ Hc]. rewrite String.eqb_refl in Hc.
  destruct (tt_to_state (hbm_stream s) !! tok) as [st|].
  - destruct Ht as [_ _ _ Hr Hsl]. destruct (is_record_in_flight st).
    + destruct (Hr eq_refl). lia.
    + destruct (Hsl eq_refl) as (_ & _ & Hd & _). split; [done|]. apply Hd.
      by eapply list_elem_of_lookup_2.
  - destruct Ht as [?|(_ & ? & _)]; [done|lia].
Qed.

Lemma finish_sleep_inv now now' o s i s' :
  hb_inv now o s -> (now < now')%Z -> finish_sleep now' i s = Some s' -> hb_inv now' o s'.
Proof.
  intros Hi Hn. unfold finish_sleep.
  destruct (hbm_executing s !! i) as [[|tok d c]|] eqn:Ei; [done| |done].
  destruct (Z.leb_spec d now') as [Hd|]; [|done]. intros [= <-].
  set (s1 := set_executing (delete i (hbm_executing s)) s).
  set (s' := hbm_send (CompleteThrottle tok) s1).
  assert (forall tok', reports tok' s' = reports tok' s) as Hr.
  { intros tok'. destruct (sleep_counts s i tok d c [] tok' Ei) as [<- _].
    unfold s', reports. simpl. rewrite cnt_app, cnt_cons, cnt_nil. simpl. lia. }
  assert (forall tok', sleeps tok' s' = sleeps tok' s) as Hsl.
  { intros tok'. destruct (sleep_counts s i tok d c [] tok' Ei) as [_ ->].
    unfold s', sleeps. simpl. rewrite cnt_app, cnt_cons, cnt_nil. simpl. lia. }
  assert (forall tok', tok' <> tok -> same_for tok' s s') as Hf.
  { intros tok' Hne. constructor; [done..| |].
    - intros d' c'. apply list_elem_of_delete_inv.
    - unfold s'. simpl. rewrite elem_of_app. intros [?|Hin]; [done|].
      apply list_elem_of_singleton in Hin. congruence. }
  eapply (inv_exec now now' o s s' [CompleteThrottle tok]); try done; [by constructor|].
  intros Hs tok'. pose proof (hi_tracked now o s Hi Hs tok') as Ht.
  destruct (decide (tok' = tok)) as [->|Hne].
  - pose proof (sleeper_tracked now o s i tok d c Hi Hs Ei) as Hsl'.
    destruct (tt_to_state (hbm_stream s) !! tok) as [st|]; [|by left].
    destruct Ht as [? (e & ? & ? & ? & ?) ? ? Hq], Hsl' as (Hfl & Htok & Hle).
    destruct (Hq Hfl) as (? & ? & Hd' & _). constructor; [done| |done|by rewrite Hfl|].
    + exists e. split_and!; [done..|lia].
    + intros _. rewrite Hr, Hsl. split_and!; [done..| |intros _; lia].
      intros d' c' Hin. eapply Hd', list_elem_of_delete_inv, Hin.
  - destruct (tt_to_state (hbm_stream s) !! tok').
    + eapply tracked_ok_frame; [done|by apply Hf|lia|done|done|]. apply Ht.
    + eapply untracked_ok_frame; [done|by apply Hf|lia|done|done].
Qed.

Lemma cancel_sleep_inv now o s i s' :
  hb_inv now o s -> cancel_sleep i s = Some s' -> hb_inv now o s'.
Proof.
  intros Hi. unfold cancel_sleep.
  destruct (hbm_executing s !! i) as [[|tok d c]|] eqn:Ei; [done| |done].
  destruct (hbm_shutdown s || bool_decide (c ∈ hbm_cancelled s)) eqn:Ec; [|done]. intros [= <-].
  eapply (inv_exec now now o s _ []); try done; [by rewrite app_nil_r|by constructor| |].
  { intros tok'. by apply (sleep_counts s i tok d c []). }
  intros Hs tok'. rewrite Hs in Ec. simpl in Ec. apply bool_decide_eq_true in Ec.
  pose proof (hi_tracked now o s Hi Hs tok') as Ht.
  destruct (sleep_counts s i tok d c [] tok' Ei) as [Hr Hsl].
  destruct (decide (tok' = tok)) as [->|Hne].
  - pose proof (sleeper_tracked now o s i tok d c Hi Hs Ei) as Hsl'.
    destruct (tt_to_state (hbm_stream s) !! tok) as [st|]; [|by left].
    destruct Hsl' as (_ & Htok & _). destruct (to_token _ _ _ _ _ Ht c Htok). done.
  - assert (same_for tok' s (set_executing (delete i (hbm_executing s)) s)) as Hf.
    { destruct (String.eqb_spec tok tok'); [congruence|]. constructor; [done|lia| |done].
      intros d' c'. apply list_elem_of_delete_inv. }
    destruct (tt_to_state (hbm_stream s) !! tok').
    + eapply tracked_ok_frame; [done|done|done..|]. apply Ht.
    + by eapply untracked_ok_frame.
Qed.

(** *** Callers *)
Lemma send_counts a s tok :
  (forall t, a <> CompleteReport t) -> (forall t, a <> CompleteThrottle t) ->
  same_for tok s (hbm_send a s).
Proof.
  intros H1 H2. constructor; unfold reports, sleeps; simpl; rewrite ?cnt_app, ?cnt_cons, ?cnt_nil.
  - destruct a; simpl; try lia. by edestruct H1.
  - destruct a; simpl; try lia. by edestruct H2.
  - done.
  - rewrite elem_of_app. intros [?|Hin]; [done|]. apply list_elem_of_singleton in Hin. by edestruct H2.
Qed.

Lemma send_inv now o o' s a :
  hb_inv now o s -> (forall t, a <> CompleteReport t) -> (forall t, a <> CompleteThrottle t) ->
  o'.(ob_log) = o.(ob_log) -> o'.(ob_latest) = o.(ob_latest) -> o'.(ob_evicted) = o.(ob_evicted) ->
  (forall tok, mentions tok a = true -> tok ∉ o.(ob_evict_sent)) ->
  (forall tok, tok ∈ o.(ob_evict_sent) -> tok ∈ o'.(ob_evict_sent)) ->
  (forall tok n, a = Evict tok n -> tok ∈ o'.(ob_evict_sent)) ->
  hb_inv now o' (hbm_send a s).
Proof.
  intros Hi H1 H2 El Ela Ee Hm Hsub Hnew. pose proof (send_counts a s) as Hf. pose proof Hi as [].
  constructor; simpl; rewrite ?El, ?Ela, ?Ee; try done.
  - apply ordered_app; [done| |by destruct a]. constructor; [|done]. intros tok n Hin.
    destruct (mentions tok a) eqn:E; [|done]. apply Hm in E. by apply hi_sent0 in Hin.
  - intros b tok [Hin|Hin%list_elem_of_singleton]%elem_of_app Hb; [by eapply hi_pending0|subst b].
    apply Hm in Hb. destruct (ob_evicted o !! tok) eqn:E; [|done].
    exfalso. apply Hb, hi_evicted_sent0. eauto.
  - intros tok n [Hin|Hin%list_elem_of_singleton]%elem_of_app; [|by eapply Hnew].
    by eapply Hsub, hi_sent0.
  - auto.
  - intros tok d Hd. unfold delivered. rewrite El. by apply hi_delivered0.
  - intros tok n Hn. rewrite (sf_reports _ _ _ (Hf tok H1 H2)). exact (hi_flush0 tok n Hn).
  - intros Hs tok. specialize (hi_tracked0 Hs tok). destruct (tt_to_state _ !! tok).
    + eapply tracked_ok_frame; [done|by apply Hf|done|by rewrite Ee|by rewrite El|].
      apply hi_tracked0.
    + eapply untracked_ok_frame; [done|by apply Hf|done|by rewrite Ee|by rewrite El].
Qed.

(** ** The stream *)
Definition action_token (a : HeartbeatAction) : string :=
  match a with
  | SendHeartbeat hb => hb.(vhb_task_token)
  | Evict t _ | CompleteReport t | CompleteThrottle t => t
  end.

(** A handler touches only the activity its action is about: the maps elsewhere
    stay, what it starts is for that activity, and the tokens it cancels or hands
    out belong to it. *)
Record touches_only (tok : string) (st st' : HeartbeatStreamState) (effs : list hb_effect)
    (act : option HeartbeatExecutorAction) : Prop := {
  tu_maps : forall t, t <> tok -> st'.(tt_to_state) !! t = st.(tt_to_state) !! t /\
    st'.(tt_needs_flush) !! t = st.(tt_needs_flush) !! t;
  tu_act : forall x, act = Some x -> match x with Sleep t _ _ | Report t _ => t = tok end;
  tu_next : (st.(next_child) <= st'.(next_child))%N;
  tu_cancels : forall c, c ∈ cancels_of effs -> exists s0, st.(tt_to_state) !! tok = Some s0 /\
    s0.(throttled_cancellation_token) = Some c;
  tu_token : forall s1 c, st'.(tt_to_state) !! tok = Some s1 ->
    s1.(throttled_cancellation_token) = Some c ->
    (c = st.(next_child) /\ (c < st'.(next_child))%N) \/
    exists s0, st.(tt_to_state) !! tok = Some s0 /\ s0.(throttled_cancellation_token) = Some c;
}.

Lemma cancels_of_notifies o : cancels_of (NotifyOne <$> o) = [].
Proof. unfold cancels_of. by induction o. Qed.

Lemma cancels_of_cancels o : cancels_of (CancelToken <$> o) = o.
Proof. induction o as [|c o IH]; [done|]. rewrite <-IH at 2. done. Qed.

Lemma cancels_of_app x y : cancels_of (x ++ y) = cancels_of x ++ cancels_of y.
Proof. apply omap_app. Qed.

Lemma record_touches now hb st st' effs act :
  record now hb st = (st', effs, act) -> touches_only hb.(vhb_task_token) st st' effs act.
Proof.
  unfold record. destruct (tt_to_state st !! vhb_task_token hb) as [s0|] eqn:E; intros [= <- <- <-].
  all: constructor; simpl; [|by intros x [= <-]|done|by intros c ?%not_elem_of_nil|].
  1, 3: intros t Hne; by rewrite lookup_insert_ne by congruence.
  - intros s1 c. rewrite lookup_insert_eq. intros [= <-] Hc. right. eauto.
  - intros s1 c. rewrite lookup_insert_eq. intros [= <-] Hc. done.
Qed.

Lemma evict_touches tok n st st' effs act :
  evict tok n st = (st', effs, act) -> touches_only tok st st' effs act.
Proof.
  unfold evict. destruct (tt_to_state st !! tok) as [s0|] eqn:E.
  - assert (forall c, c ∈ option_list s0.(throttled_cancellation_token) ->
      exists s1, tt_to_state st !! tok = Some s1 /\ throttled_cancellation_token s1 = Some c) as Hl.
    { intros c Hc. destruct (throttled_cancellation_token s0) eqn:Et;
        [apply list_elem_of_singleton in Hc as ->; eauto|by apply not_elem_of_nil in Hc]. }
    destruct (last_recorded_details s0); [|destruct (is_record_in_flight s0)]; intros [= <- <- <-].
    all: constructor; simpl; rewrite ?cancels_of_app, ?cancels_of_cancels, ?app_nil_r;
      [|by intros x [= <-]|done|done|intros s1 c; by rewrite lookup_delete_eq].
    all: intros t Hne; rewrite ?lookup_delete_ne by congruence; split; [done|].
    all: by rewrite ?lookup_insert_ne by congruence.
  - intros [= <- <- <-]. constructor; simpl; try done.
    + by intros c ?%not_elem_of_nil.
    + intros s1 c. by rewrite E.
Qed.

Lemma report_completed_touches now tok st st' effs act :
  handle_report_completed now tok st = (st', effs, act) -> touches_only tok st st' effs act.
Proof.
  unfold handle_report_completed. simpl.
  destruct (tt_to_state st !! tok) as [s0|] eqn:E; intros [= <- <- <-];
    constructor; simpl; rewrite ?cancels_of_app, ?cancels_of_notifies.
  - intros t Hne. by rewrite lookup_insert_ne, lookup_delete_ne by congruence.
  - by intros x [= <-].
  - lia.
  - by intros c ?%not_elem_of_nil.
  - intros s1 c. rewrite lookup_insert_eq. intros [= <-] [= <-]. left. split; [done|lia].
  - intros t Hne. by rewrite lookup_delete_ne by congruence.
  - done.
  - done.
  - by intros c ?%not_elem_of_nil.
  - intros s1 c. by rewrite E.
Qed.

Lemma throttle_completed_touches now tok st st' effs act :
  handle_throttle_completed now tok st = (st', effs, act) -> touches_only tok st st' effs act.
Proof.
  unfold handle_throttle_completed.
  destruct (tt_to_state st !! tok) as [s0|] eqn:E; [destruct (last_recorded_details s0)|];
    intros [= <- <- <-]; (constructor; simpl; [|by intros x [= <-]|done|by intros c ?%not_elem_of_nil|]).
  - intros t Hne. by rewrite lookup_insert_ne by congruence.
  - intros s1 c. rewrite lookup_insert_eq. by intros [= <-].
  - intros t Hne. by rewrite lookup_delete_ne by congruence.
  - intros s1 c. by rewrite lookup_delete_eq.
  - done.
  - intros s1 c. by rewrite E.
Qed.

Lemma handle_action_touches now a st st' effs act :
  handle_action now a st = (st', effs, act) -> touches_only (action_token a) st st' effs act.
Proof.
  destruct a; simpl; [apply record_touches|apply evict_touches|apply report_completed_touches
    |apply throttle_completed_touches].
Qed.

(** The state after the action [a] was taken from the front of the channel. *)
Definition after_action (now : Z) (l : list HeartbeatAction) (ans : hb_answer) (s : HBM) : HBM :=
  let '(st, effs, act) := ans in
  {| hbm_stream := st; hbm_incoming := l;
     hbm_executing := s.(hbm_executing) ++ option_list (execute now <$> act);
     hbm_cancelled := cancels_of effs ++ s.(hbm_cancelled);
     hbm_notified := notifies effs ++ s.(hbm_notified);
     hbm_shutdown := s.(hbm_shutdown) |}.

Lemma same_for_other now a l st' effs act s t :
  s.(hbm_incoming) = a :: l -> touches_only (action_token a) s.(hbm_stream) st' effs act ->
  t <> action_token a -> same_for t s (after_action now l (st', effs, act) s).
Proof.
  intros El [_ Ha _ _ _] Hne.
  assert (String.eqb (action_token a) t = false) as Heq by (by apply String.eqb_neq).
  assert (reported_of t a = false /\ slept_of t a = false) as [Er Es]
    by (by destruct a; simpl in *; rewrite ?Heq).
  assert (cnt (report_of t) (option_list (execute now <$> act)) = 0 /\
          cnt (sleep_of t) (option_list (execute now <$> act)) = 0 /\
          forall d c, Sleeping t d c ∉ option_list (execute now <$> act)) as (Hr & Hs & Hn).
  { destruct act as [x|]; simpl; [|split_and!; [done..|by intros d c ?%not_elem_of_nil]].
    specialize (Ha x eq_refl). unfold cnt. destruct x; simpl; subst; rewrite ?Heq;
      split_and!; try done; intros d' c' Hin%list_elem_of_singleton; simpl in Hin; congruence. }
  constructor; unfold reports, sleeps; simpl; rewrite ?El, ?cnt_app, ?cnt_cons, ?Er, ?Es, ?Hr, ?Hs.
  - lia.
  - lia.
  - intros d c [?|Hin]%elem_of_app; [done|]. by apply Hn in Hin.
  - intros Hin. by right.
Qed.

Lemma last_issue_other now a st o t :
  t <> action_token a -> last_issue t (observe now a st o).(ob_log) = last_issue t o.(ob_log).
Proof.
  intros Hne. unfold observe. destruct (handle_action now a st) as [[st' effs] act] eqn:Ha. simpl.
  apply handle_action_touches in Ha as [_ Hact _ _ _].
  destruct act as [[t' d c|t' d]|]; simpl; [done| |done].
  rewrite (Hact _ eq_refl). by rewrite (proj2 (String.eqb_neq _ _)) by congruence.
Qed.

Lemma ordered_tail a l : ordered (a :: l) -> ordered l /\
  forall tok n, a = Evict tok n -> Forall (fun b => mentions tok b = false) l.
Proof. intros [Ha Hl]. split; [done|]. intros tok n ->. done. Qed.

(** One action of the stream. *)
Section step.
  Context (now now' : Z) (o : observed) (s : HBM) (a : HeartbeatAction) (l : list HeartbeatAction)
    (st' : HeartbeatStreamState) (effs : list hb_effect) (act : option HeartbeatExecutorAction).
  Hypothesis Hinv : hb_inv now o s.
  Hypothesis Hnow : (now < now')%Z.
  Hypothesis Hlive : s.(hbm_shutdown) = false.
  Hypothesis Hhead : s.(hbm_incoming) = a :: l.
  Hypothesis Hans : handle_action now' a s.(hbm_stream) = (st', effs, act).

Let tok := action_token a.
Let s' := after_action now' l (st', effs, act) s.
Let o' := observe now' a s.(hbm_stream) o.

#[local] Lemma step_touches : touches_only tok s.(hbm_stream) st' effs act.
Proof. by eapply handle_action_touches. Qed.

#[local] Lemma step_observed t :
  t <> tok -> o'.(ob_evicted) !! t = o.(ob_evicted) !! t /\
    o'.(ob_latest) !! t = o.(ob_latest) !! t /\ last_issue t o'.(ob_log) = last_issue t o.(ob_log).
Proof.
  intros Hne. split_and!; [| |by apply last_issue_other]; unfold o', observe, tok in *; rewrite Hans;
    destruct a; simpl in *; by rewrite ?lookup_insert_ne by congruence.
Qed.

#[local] Lemma step_evict_sent : o'.(ob_evict_sent) = o.(ob_evict_sent).
Proof. unfold o', observe. by rewrite Hans. Qed.

#[local] Lemma step_evicted :
  (exists n, a = Evict tok n /\ o'.(ob_evicted) !! tok = Some n) \/
  o'.(ob_evicted) !! tok = o.(ob_evicted) !! tok.
Proof.
  unfold o', observe, tok. rewrite Hans. destruct a as [|t n| |]; simpl; auto.
  left. exists n. by rewrite lookup_insert_eq.
Qed.

#[local] Lemma step_pending b t : b ∈ l -> mentions t b = true -> o'.(ob_evicted) !! t = None.
Proof.
  intros Hin Hb. pose proof (hi_pending _ _ _ Hinv b t) as Hp. rewrite Hhead in Hp.
  specialize (Hp ltac:(by right) Hb). destruct (decide (t = tok)) as [->|Hne].
  - destruct step_evicted as [(n & Ea & _)|He]; [|by rewrite He].
    pose proof (hi_ordered _ _ _ Hinv) as Ho. rewrite Hhead in Ho.
    destruct (ordered_tail _ _ Ho) as [_ Hf]. specialize (Hf _ _ Ea).
    rewrite Forall_forall in Hf. by rewrite (Hf b Hin) in Hb.
  - by rewrite (proj1 (step_observed t Hne)).
Qed.

#[local] Lemma step_evicted_sent t : is_Some (o'.(ob_evicted) !! t) -> t ∈ o'.(ob_evict_sent).
Proof.
  intros Ht. rewrite step_evict_sent. destruct (decide (t = tok)) as [->|Hne].
  - destruct step_evicted as [(n & Ea & _)|He]; [|rewrite He in Ht; by apply (hi_evicted_sent _ _ _ Hinv)].
    apply (hi_sent _ _ _ Hinv tok n). rewrite Hhead, Ea. by left.
  - apply (hi_evicted_sent _ _ _ Hinv). by rewrite <-(proj1 (step_observed t Hne)).
Qed.

(** Tokens of throttle timers stay different. *)
#[local] Lemma step_token t st c :
  st'.(tt_to_state) !! t = Some st -> st.(throttled_cancellation_token) = Some c ->
  (t = tok /\ c = s.(hbm_stream).(next_child)) \/
  exists s0, s.(hbm_stream).(tt_to_state) !! t = Some s0 /\ s0.(throttled_cancellation_token) = Some c /\
    (c < s.(hbm_stream).(next_child))%N.
Proof.
  intros Hst Hc. destruct step_touches as [Hm _ _ _ Hu].
  assert (forall s0, s.(hbm_stream).(tt_to_state) !! t = Some s0 ->
    s0.(throttled_cancellation_token) = Some c -> (c < s.(hbm_stream).(next_child))%N) as Hlt.
  { intros s0 H0 E0. pose proof (hi_tracked _ _ _ Hinv Hlive t) as Ht. rewrite H0 in Ht.
    by apply (to_token _ _ _ _ _ Ht). }
  destruct (decide (t = tok)) as [->|Hne].
  - destruct (Hu st c Hst Hc) as [[-> _]|(s0 & H0 & E0)]; [by left|right; eauto].
  - rewrite (proj1 (Hm t Hne)) in Hst. right. eauto.
Qed.

#[local] Lemma step_unique t1 t2 s1 s2 c :
  st'.(tt_to_state) !! t1 = Some s1 -> st'.(tt_to_state) !! t2 = Some s2 ->
  s1.(throttled_cancellation_token) = Some c -> s2.(throttled_cancellation_token) = Some c -> t1 = t2.
Proof.
  intros H1 H2 E1 E2.
  destruct (step_token t1 s1 c H1 E1) as [[-> ->]|(x1 & Hx1 & Ex1 & Hlt1)],
    (step_token t2 s2 _ H2 E2) as [[-> ?]|(x2 & Hx2 & Ex2 & Hlt2)]; try done; try lia.
  by eapply (hi_unique _ _ _ Hinv).
Qed.

#[local] Lemma step_cancelled c : c ∈ s'.(hbm_cancelled) -> (c < st'.(next_child))%N.
Proof.
  destruct step_touches as [_ _ Hc Hk _]. simpl. rewrite elem_of_app. intros [Hin|Hin].
  - destruct (Hk c Hin) as (s0 & H0 & Ht0). pose proof (hi_tracked _ _ _ Hinv Hlive tok) as Ht.
    rewrite H0 in Ht. destruct (to_token _ _ _ _ _ Ht c Ht0). lia.
  - pose proof (hi_cancelled _ _ _ Hinv c Hin). lia.
Qed.

(** A token in use is not cancelled by an action for another activity. *)
#[local] Lemma step_not_cancelled t st c :
  t <> tok -> s.(hbm_stream).(tt_to_state) !! t = Some st ->
  st.(throttled_cancellation_token) = Some c -> tracked_ok now o s t st ->
  (c < st'.(next_child))%N /\ c ∉ s'.(hbm_cancelled).
Proof.
  intros Hne Hst Hc Ht. destruct step_touches as [_ _ Hle Hk _].
  destruct (to_token _ _ _ _ _ Ht c Hc) as [Hlt Hno]. split; [lia|]. simpl.
  rewrite elem_of_app. intros [Hin|Hin]; [|done]. destruct (Hk c Hin) as (s0 & H0 & E0).
  by apply Hne, (hi_unique _ _ _ Hinv t tok st s0 c).
Qed.

#[local] Lemma step_other t :
  t <> tok ->
  match st'.(tt_to_state) !! t with
  | Some st => tracked_ok now' o' s' t st
  | None => untracked_ok now' o' s' t
  end.
Proof.
  intros Hne. destruct (step_observed t Hne) as (Ee & _ & El).
  pose proof (same_for_other now' a l st' effs act s t Hhead step_touches Hne) as Hf.
  destruct step_touches as [Hm _ _ _ _]. rewrite (proj1 (Hm t Hne)).
  pose proof (hi_tracked _ _ _ Hinv Hlive t) as Ht.
  destruct (tt_to_state (hbm_stream s) !! t) as [st|] eqn:E.
  - eapply tracked_ok_frame; [done|exact Hf|lia|done|done|].
    intros c Hc. by eapply step_not_cancelled.
  - eapply untracked_ok_frame; [done|exact Hf|lia|done|done].
Qed.

(** What has to be shown of the activity that was acted on. *)
Lemma stream_inv :
  match st'.(tt_to_state) !! tok with
  | Some st => tracked_ok now' o' s' tok st
  | None => untracked_ok now' o' s' tok
  end ->
  (forall d, o'.(ob_latest) !! tok = Some d -> delivered o' s' tok d) ->
  (forall n, st'.(tt_needs_flush) !! tok = Some n ->
     is_Some (o'.(ob_evicted) !! tok) /\ 0 < reports tok s') ->
  (forall n, o'.(ob_evicted) !! tok = Some n ->
     n ∈ s'.(hbm_notified) \/ st'.(tt_needs_flush) !! tok = Some n) ->
  spaced o'.(ob_log) ->
  hb_inv now' o' s'.
Proof.
  intros Htok Hdel Hfl Han Hsp. destruct step_touches as [Hm _ _ _ _].
  pose proof (hi_ordered _ _ _ Hinv) as Ho. rewrite Hhead in Ho.
  destruct (ordered_tail _ _ Ho) as [Hol _].
  constructor; [done|exact step_pending| |exact step_evicted_sent|done| |exact step_unique
    |exact step_cancelled| | |].
  - intros t n Hin. rewrite step_evict_sent. apply (hi_sent _ _ _ Hinv t n). rewrite Hhead. by right.
  - intros t d Hd. destruct (decide (t = tok)) as [->|Hne]; [auto|].
    destruct (step_observed t Hne) as (_ & El & Ei). rewrite El in Hd.
    pose proof (hi_delivered _ _ _ Hinv t d Hd) as Hdl. unfold delivered in *. rewrite Ei.
    unfold s'. simpl. by rewrite (proj1 (Hm t Hne)).
  - intros t n. unfold s' at 1. simpl. destruct (decide (t = tok)) as [->|Hne]; [exact (Hfl n)|].
    pose proof (same_for_other now' a l st' effs act s t Hhead step_touches Hne) as Hf.
    fold s' in Hf. rewrite (proj2 (Hm t Hne)), (proj1 (step_observed t Hne)), (sf_reports _ _ _ Hf).
    apply (hi_flush _ _ _ Hinv).
  - intros t n. destruct (decide (t = tok)) as [->|Hne]; [exact (Han n)|]. unfold s'. simpl.
    rewrite (proj2 (Hm t Hne)), (proj1 (step_observed t Hne)), elem_of_app. intros Hv.
    destruct (hi_answered _ _ _ Hinv t n Hv); auto.
  - intros _ t. destruct (decide (t = tok)) as [->|Hne]; [done|by apply step_other].
Qed.
End step.

(** *** The activity that was acted on *)
Lemma step_counts now a l st' effs act s :
  s.(hbm_incoming) = a :: l -> touches_only (action_token a) s.(hbm_stream) st' effs act ->
  let tok := action_token a in
  let s' := after_action now l (st', effs, act) s in
  reports tok s' + (match a with CompleteReport _ => 1 | _ => 0 end)
    = reports tok s + (match act with Some (Report _ _) => 1 | _ => 0 end) /\
  sleeps tok s' + (match a with CompleteThrottle _ => 1 | _ => 0 end)
    = sleeps tok s + (match act with Some (Sleep _ _ _) => 1 | _ => 0 end).
Proof.
  intros El [_ Ha _ _ _] tok s'. unfold reports, sleeps. simpl. rewrite El, !cnt_app, !cnt_cons.
  assert (forall f, cnt f (option_list (execute now <$> act)) =
    match act with Some x => if f (execute now x) then 1 else 0 | None => 0 end) as Hc.
  { intros f. destruct act; simpl; [|done]. rewrite cnt_cons, cnt_nil. lia. }
  rewrite !Hc. destruct act as [x|]; [specialize (Ha x eq_refl); destruct x|]; simpl; subst;
    unfold tok; destruct a; simpl; rewrite ?String.eqb_refl; lia.
Qed.

(** What is observed when the answer is known. *)
Lemma observe_eq now a st o st' effs act :
  handle_action now a st = (st', effs, act) ->
  observe now a st o =
  {| ob_log :=
       match act with
       | Some (Report tok d) =>
           [{| is_time := now; is_token := tok;
               is_interval := from_option throttle_interval 0%Z (st'.(tt_to_state) !! tok);
               is_details := d;
               is_flush := match a with Evict _ _ => true | _ => false end |}]
       | _ => []
       end ++ o.(ob_log);
     ob_latest :=
       match a with
       | SendHeartbeat hb => <[hb.(vhb_task_token) := hb.(vhb_details)]> o.(ob_latest)
       | _ => o.(ob_latest)
       end;
     ob_evict_sent := o.(ob_evict_sent);
     ob_evicted := match a with Evict t n => <[t := n]> o.(ob_evicted) | _ => o.(ob_evicted) end |}.
Proof. intros Ha. unfold observe. by rewrite Ha. Qed.

Lemma last_issue_cons e l : last_issue e.(is_token) (e :: l) = Some e.
Proof. unfold last_issue. simpl. by rewrite String.eqb_refl. Qed.

(** A heartbeat of an activity that is not tracked is reported at once. *)
Lemma record_new_step now now' o s hb l :
  hb_inv now o s -> (now < now')%Z -> s.(hbm_shutdown) = false ->
  s.(hbm_incoming) = SendHeartbeat hb :: l ->
  s.(hbm_stream).(tt_to_state) !! hb.(vhb_task_token) = None ->
  hb_inv now' (observe now' (SendHeartbeat hb) s.(hbm_stream) o)
    (after_action now' l (record now' hb s.(hbm_stream)) s).
Proof.
  intros Hi Hn Hs El E. set (tok := hb.(vhb_task_token)) in *.
  assert (ob_evicted o !! tok = None) as Hev.
  { apply (hi_pending _ _ _ Hi (SendHeartbeat hb)); [rewrite El; by left|]. apply String.eqb_refl. }
  destruct (record now' hb (hbm_stream s)) as [[st' effs] act] eqn:Ha.
  pose proof (step_counts now' _ l _ _ _ s El (handle_action_touches now' (SendHeartbeat hb) _ _ _ _ Ha))
    as [Hr Hsl]. simpl in Hr, Hsl. fold tok in Hr, Hsl.
  pose proof (hi_tracked _ _ _ Hi Hs tok) as Ht. rewrite E in Ht.
  destruct Ht as [[? Ht]|(Hr0 & Hs0 & Hlast)]; [congruence|].
  pose proof (stream_inv now now' o s (SendHeartbeat hb) l st' effs act Hi Hn Hs El Ha) as Hinv.
  rewrite (observe_eq now' (SendHeartbeat hb) _ o _ _ _ Ha) in *. simpl in Hinv. fold tok in Hinv.
  unfold record in Ha. fold tok in Ha. rewrite E in Ha. injection Ha as <- <- <-.
  apply Hinv; clear Hinv; simpl in *; rewrite ?lookup_insert_eq in *.
  - constructor; simpl; try done; [|intros _; lia].
    eexists. rewrite String.eqb_refl. simpl. split_and!; [reflexivity|done..|simpl; lia].
  - intros d [= <-]. unfold delivered. simpl. rewrite lookup_insert_eq. simpl.
    by rewrite String.eqb_refl.
  - intros n Hf. apply (hi_flush _ _ _ Hi) in Hf as [[? Hf] _]. congruence.
  - intros n Hf. congruence.
  - split; [|apply Hi]. case_match; [|done]. intros _. specialize (Hlast _ eq_refl). lia.
Qed.

(** Opens the step of an action: what holds before it, and what is left to show
    of its activity. *)
Ltac open_step a Hi Hn Hs El :=
  match goal with
  | |- hb_inv ?now' _ (after_action ?now' ?l ?ans ?s) =>
      destruct ans as [[st' effs] act] eqn:Ha;
      pose proof (step_counts now' a l st' effs act s El
        (handle_action_touches now' a _ _ _ _ Ha)) as [Hr Hsl];
      pose proof (stream_inv _ now' _ s a l st' effs act Hi Hn Hs El Ha) as Hinv;
      rewrite (observe_eq now' a _ _ _ _ _ Ha) in *; simpl in Hr, Hsl, Hinv
  end.

(** Later heartbeats replace the details that wait. *)
Lemma record_again_step now now' o s hb l st :
  hb_inv now o s -> (now < now')%Z -> s.(hbm_shutdown) = false ->
  s.(hbm_incoming) = SendHeartbeat hb :: l ->
  s.(hbm_stream).(tt_to_state) !! hb.(vhb_task_token) = Some st ->
  hb_inv now' (observe now' (SendHeartbeat hb) s.(hbm_stream) o)
    (after_action now' l (record now' hb s.(hbm_stream)) s).
Proof.
  intros Hi Hn Hs El E. pose proof (hi_tracked _ _ _ Hi Hs (vhb_task_token hb)) as Ht.
  rewrite E in Ht. destruct Ht as [Hev (e & He & Het & Hei & Hen) Htk Hrep Hslp].
  open_step (SendHeartbeat hb) Hi Hn Hs El.
  unfold record in Ha. rewrite E in Ha. injection Ha as <- <- <-.
  apply Hinv; clear Hinv; simpl in *; rewrite ?lookup_insert_eq in *.
  - constructor; simpl; try done.
    + exists e. split_and!; [done..|lia].
    + intros Hf. destruct (Hrep Hf). lia.
    + intros Hf. destruct (Hslp Hf) as (? & ? & Hd & Hq). split_and!; [lia|lia| |].
      * intros d c. rewrite app_nil_r. apply Hd.
      * intros Hin. rewrite El in Hq. specialize (Hq ltac:(by right)). lia.
  - intros d [= <-]. unfold delivered. simpl. by rewrite lookup_insert_eq.
  - intros n Hf. apply (hi_flush _ _ _ Hi) in Hf as [[? Hf] _]. congruence.
  - intros n Hf. congruence.
  - apply Hi.
Qed.

(** An eviction flushes what waits, and is answered when nothing is under way. *)
Lemma evict_step now now' o s tok n l :
  hb_inv now o s -> (now < now')%Z -> s.(hbm_shutdown) = false ->
  s.(hbm_incoming) = Evict tok n :: l ->
  hb_inv now' (observe now' (Evict tok n) s.(hbm_stream) o)
    (after_action now' l (evict tok n s.(hbm_stream)) s).
Proof.
  intros Hi Hn Hs El.
  assert (ob_evicted o !! tok = None) as Hev.
  { apply (hi_pending _ _ _ Hi (Evict tok n)); [rewrite El; by left|]. apply String.eqb_refl. }
  assert (forall n', tt_needs_flush (hbm_stream s) !! tok = Some n' -> False) as Hnf.
  { intros n' Hf. apply (hi_flush _ _ _ Hi) in Hf as [[? Hf] _]. congruence. }
  pose proof (hi_tracked _ _ _ Hi Hs tok) as Ht.
  pose proof (fun d => hi_delivered _ _ _ Hi tok d) as Hdel. unfold delivered in Hdel.
  open_step (Evict tok n) Hi Hn Hs El. unfold evict in Ha.
  destruct (tt_to_state (hbm_stream s) !! tok) as [st|] eqn:E; simpl in Hdel;
    [destruct (last_recorded_details st) as [dd|]; [|destruct (is_record_in_flight st) eqn:Ef]|];
    injection Ha as <- <- <-; apply Hinv; clear Hinv; simpl in *;
    rewrite ?lookup_delete_eq, ?lookup_insert_eq, ?E, ?String.eqb_refl in *;
    try (left; simpl; rewrite lookup_insert_eq; eauto);
    try (intros d Hd; specialize (Hdel d Hd); unfold delivered; simpl;
         rewrite ?lookup_delete_eq, ?E; simpl; rewrite ?String.eqb_refl; simpl; by subst);
    try (intros n' [= <-]; by right);
    try (intros n' [= <-]; left; unfold notifies; rewrite ?omap_app, !elem_of_app; left; set_solver);
    try (intros n' Hf; by apply Hnf in Hf); try apply Hi.
  all: try (split; [by case_match|apply Hi]).
  all: try (intros n' [= <-]; split; [eauto|]).
  - lia.
  - destruct (to_reporting _ _ _ _ _ Ht Ef). lia.
  - intros n' [= <-]. left. by left.
Qed.

(** The timer that a completed report starts ends the throttle interval. *)
Lemma throttle_covers_interval now st :
  (st.(last_send_requested) < now)%Z ->
  (st.(last_send_requested) + st.(throttle_interval) <= now + get_throttle_sleep_duration now st)%Z.
Proof.
  intros Hlt. unfold get_throttle_sleep_duration, saturating_sub.
  destruct (Z.ltb_spec 0 (Z.max 0 (now - last_send_requested st)));
    destruct (Z.ltb_spec (Z.max 0 (now - last_send_requested st)) (throttle_interval st)); simpl; lia.
Qed.

(** When a report of a tracked activity completes, it sleeps. *)
Lemma report_completed_tracked now now' o s tok l st :
  hb_inv now o s -> (now < now')%Z -> s.(hbm_incoming) = CompleteReport tok :: l ->
  s.(hbm_stream).(tt_to_state) !! tok = Some st -> tracked_ok now o s tok st ->
  0 < reports tok s ->
  let ans := handle_report_completed now' tok s.(hbm_stream) in
  exists st1, ans.1.1.(tt_to_state) !! tok = Some st1 /\
    st1.(last_recorded_details) = st.(last_recorded_details) /\
    tracked_ok now' o (after_action now' l ans s) tok st1.
Proof.
  intros Hi Hn El E [Hev (e & He & Het & Hei & Hen) Htk Hrep Hslp] Hpos ans.
  destruct (is_record_in_flight st) eqn:Ef; [|destruct (Hslp eq_refl); lia].
  destruct (Hrep eq_refl) as [Hr1 Hs1]. unfold sleeps in Hs1.
  unfold ans. clear ans.
  destruct (handle_report_completed now' tok (hbm_stream s)) as [[st' effs] act] eqn:Ha.
  pose proof (step_counts now' (CompleteReport tok) l st' effs act s El
    (report_completed_touches now' tok _ _ _ _ Ha)) as [Hr Hsl].
  assert (cnt (sleep_of tok) (hbm_executing s) = 0 /\ cnt (slept_of tok) (hbm_incoming s) = 0)
    as [Hz1 Hz2] by lia.
  unfold handle_report_completed in Ha. simpl in Ha. rewrite E in Ha. injection Ha as <- <- <-.
  simpl in *. rewrite lookup_insert_eq. eexists. split_and!; [done..|]. constructor; simpl; [done| | |done|].
  - exists e. split_and!; [done..|lia].
  - intros c [= <-]. split; [lia|]. intros [Hin|Hin]%elem_of_app.
    + rewrite cancels_of_app, !cancels_of_notifies in Hin. by apply not_elem_of_nil in Hin.
    + apply (hi_cancelled _ _ _ Hi) in Hin. lia.
  - intros _. split_and!; [lia|unfold sleeps in *; lia| |].
    + intros d c [Hin|Hin%list_elem_of_singleton]%elem_of_app.
      * apply (cnt_zero _ _ Hz1) in Hin. simpl in Hin. by rewrite String.eqb_refl in Hin.
      * injection Hin as -> ->. split; [done|].
        match goal with |- context [get_throttle_sleep_duration now' ?x] =>
          pose proof (throttle_covers_interval now' x) as Hc end. simpl in Hc. lia.
    + intros Hin. rewrite El in Hz2.
      pose proof (cnt_zero _ _ Hz2 (CompleteThrottle tok) ltac:(by right)) as Hz.
      simpl in Hz. by rewrite String.eqb_refl in Hz.
Qed.

Lemma report_completed_step now now' o s tok l :
  hb_inv now o s -> (now < now')%Z -> s.(hbm_shutdown) = false ->
  s.(hbm_incoming) = CompleteReport tok :: l ->
  hb_inv now' (observe now' (CompleteReport tok) s.(hbm_stream) o)
    (after_action now' l (handle_report_completed now' tok s.(hbm_stream)) s).
Proof.
  intros Hi Hn Hs El. pose proof (hi_tracked _ _ _ Hi Hs tok) as Ht.
  assert (0 < reports tok s) as Hpos.
  { unfold reports. rewrite El, cnt_cons. simpl. rewrite String.eqb_refl. lia. }
  pose proof (fun d => hi_delivered _ _ _ Hi tok d) as Hdel. unfold delivered in Hdel.
  pose proof (fun n => hi_answered _ _ _ Hi tok n) as Hans.
  pose proof (report_completed_tracked now now' o s tok l) as Htr.
  destruct o as [log latest sent evd]. open_step (CompleteReport tok) Hi Hn Hs El. simpl in Htr.
  destruct (tt_to_state (hbm_stream s) !! tok) as [st|] eqn:E.
  - destruct (Htr st Hi Hn El eq_refl Ht Hpos) as (st1 & E1 & Ed & Ht1). simpl in E1.
    unfold handle_report_completed in Ha. simpl in Ha. rewrite E in Ha. injection Ha as <- <- <-.
    simpl in E1. apply Hinv; simpl; rewrite ?lookup_delete_eq; try done.
    + rewrite E1. exact Ht1.
    + intros d Hd. unfold delivered. simpl. rewrite E1. simpl. rewrite Ed. by apply Hdel.
    + intros n Hf. pose proof (to_evicted _ _ _ _ _ Ht). simpl in *. congruence.
    + apply Hi.
  - unfold handle_report_completed in Ha. simpl in Ha. rewrite E in Ha. injection Ha as <- <- <-.
    apply Hinv; simpl; rewrite ?E, ?lookup_delete_eq; try done.
    + destruct Ht as [?|(? & _)]; [by left|lia].
    + intros d Hd. unfold delivered. simpl. rewrite E. by apply Hdel.
    + intros n Hf. left. destruct (Hans n Hf) as [?|Hfl]; [apply elem_of_app; auto|].
      rewrite Hfl. by left.
    + apply Hi.
Qed.

(** When the throttle interval is over, what waits is reported, or the activity
    is forgotten. *)
Lemma throttle_completed_step now now' o s tok l :
  hb_inv now o s -> (now < now')%Z -> s.(hbm_shutdown) = false ->
  s.(hbm_incoming) = CompleteThrottle tok :: l ->
  hb_inv now' (observe now' (CompleteThrottle tok) s.(hbm_stream) o)
    (after_action now' l (handle_throttle_completed now' tok s.(hbm_stream)) s).
Proof.
  intros Hi Hn Hs El. pose proof (hi_tracked _ _ _ Hi Hs tok) as Ht.
  assert (0 < sleeps tok s) as Hpos.
  { unfold sleeps. rewrite El, cnt_cons. simpl. rewrite String.eqb_refl. lia. }
  pose proof (fun d => hi_delivered _ _ _ Hi tok d) as Hdel. unfold delivered in Hdel.
  pose proof (fun n => hi_answered _ _ _ Hi tok n) as Hans.
  pose proof (fun n => hi_flush _ _ _ Hi tok n) as Hflush.
  open_step (CompleteThrottle tok) Hi Hn Hs El. unfold handle_throttle_completed in Ha.
  destruct (tt_to_state (hbm_stream s) !! tok) as [st|] eqn:E.
  - destruct Ht as [Hev (e & He & Het & Hei & Hen) Htk Hrep Hslp].
    destruct (is_record_in_flight st) eqn:Ef; [destruct (Hrep eq_refl); lia|].
    destruct (Hslp eq_refl) as (Hr0 & Hs1 & _ & Hover). rewrite El in Hover.
    specialize (Hover ltac:(by left)). simpl in Hdel.
    assert (forall n, tt_needs_flush (hbm_stream s) !! tok = Some n -> False) as Hnf.
    { intros n Hf. apply Hflush in Hf as [[? Hf] _]. congruence. }
    destruct (last_recorded_details st) as [dd|]; injection Ha as <- <- <-;
      apply Hinv; clear Hinv; simpl in *; rewrite ?lookup_insert_eq, ?lookup_delete_eq in *;
      try (intros n Hf; by apply Hnf in Hf); try (intros n Hf; congruence).
    + constructor; simpl; try done; [|intros _; lia].
      eexists. rewrite String.eqb_refl. simpl. split_and!; [reflexivity|done..|simpl; lia].
    + intros d Hd. unfold delivered. simpl. rewrite lookup_insert_eq. simpl.
      rewrite String.eqb_refl. simpl. by rewrite (Hdel d Hd).
    + split; [|apply Hi]. rewrite He. intros _. lia.
    + right. split_and!; [lia|lia|]. intros e' He'. simpl in He'. simplify_eq. lia.
    + intros d Hd. unfold delivered. simpl. rewrite lookup_delete_eq. by apply Hdel.
    + apply Hi.
  - injection Ha as <- <- <-. apply Hinv; clear Hinv; simpl in *; rewrite ?E; [| | |done|apply Hi].
    + destruct Ht as [?|(_ & ? & _)]; [by left|lia].
    + intros d Hd. unfold delivered. simpl. rewrite E. by apply Hdel.
    + intros n Hf. destruct (Hflush n Hf). split; [done|lia].
Qed.

Lemma stream_step_inv now now' o s a l s' :
  hb_inv now o s -> (now < now')%Z -> s.(hbm_incoming) = a :: l -> stream_step now' s = Some s' ->
  hb_inv now' (observe now' a s.(hbm_stream) o) s'.
Proof.
  intros Hi Hn El. unfold stream_step. destruct (hbm_shutdown s) eqn:Hs; [done|]. rewrite El.
  intros Hst.
  assert (s' = after_action now' l (handle_action now' a (hbm_stream s)) s) as ->.
  { unfold after_action. destruct (handle_action now' a (hbm_stream s)) as [[? ?] ?]. rewrite Hs. congruence. }
  destruct a as [hb|tok n|tok|tok].
  - destruct (tt_to_state (hbm_stream s) !! vhb_task_token hb) eqn:E;
      [by eapply record_again_step|by eapply record_new_step].
  - by eapply evict_step.
  - by eapply report_completed_step.
  - by eapply throttle_completed_step.
Qed.

Lemma hb_reach_inv now o s : hb_reach now o s -> hb_inv now o s.
Proof.
  induction 1 as [now|now o s hb _ IH Hn|now o s tok n _ IH Hn|now now' o s a l s' _ IH Hlt El Hs
    |now o s i r s' cs _ IH Hf|now now' o s i s' _ IH Hlt Hf|now o s i s' _ IH Hc|now o s _ IH].
  - apply hb_inv_new.
  - eapply send_inv; try done. intros tok Hm. apply String.eqb_eq in Hm. by subst.
  - eapply send_inv; try done.
    + intros t Hm. apply String.eqb_eq in Hm. by subst.
    + intros t Ht. apply elem_of_union. auto.
    + intros t n' [= <- <-]. set_solver.
  - by eapply stream_step_inv.
  - by eapply finish_report_inv.
  - by eapply finish_sleep_inv.
  - by eapply cancel_sleep_inv.
  - destruct IH. by constructor.
Qed.


(** ** Runs *)
Module HeartbeatExample.

Definition hb (n : string) : ValidActivityHeartbeat :=
  {| vhb_task_token := "a"; vhb_details := [{| Payload_metadata := ∅; Payload_data := n |}];
     vhb_throttle_interval := 10; vhb_timeout_resetter := None |}.

Definition step (now : Z) (s : HBM) : HBM := default s (stream_step now s).
Definition answer (i : nat) (s : HBM) : HBM :=
  from_option fst s (finish_report i (HeartbeatOk false false false) s).

(** A first heartbeat is with the server, a second waits, and the activity ends. *)
Definition evicted_during_report : HBM :=
  step 3 (hbm_evict "a" 0 (step 2 (hbm_record (hb "2") (step 1 (hbm_record (hb "1") HBM_new))))).

(** An eviction can be answered before the last details have reached the
    server: when the activity ends while a report is under way and newer details
    wait, these are flushed in a second request, and the end of the first
    one answers the eviction while the flush is still under way. *)
Theorem eviction_answered_before_flush :
  hbm_executing evicted_during_report =
    [Reporting "a" (vhb_details (hb "1")); Reporting "a" (vhb_details (hb "2"))] /\
  let s := step 4 (answer 0 evicted_during_report) in
  s.(hbm_notified) = [0%N] /\ s.(hbm_executing) = [Reporting "a" (vhb_details (hb "2"))].
Proof. split; [reflexivity|]. split; reflexivity. Qed.

End HeartbeatExample.
