(* ===== verification/ActivityManager.v ===== *)
(** * The activity task manager (worker/activities.rs)

    Hands the activity tasks of the server to lang, tracks the ones lang has not
    completed, issues cancellations, passes heartbeats to the heartbeat manager
    and reports completions.  The asynchronous methods are split where they wait:
    [complete] waits for the heartbeat manager and then for the server, the task
    stream waits for its sources and, on shutdown, for the outstanding
    activities.  Metrics and the permits of the slots are left out. *)
From Stdlib Require Import ZArith Lia SpecFloat.
From stdpp Require Import base option list strings gmap.
From S2P Require Import Prelude TimeArith Flags Protos ProtoExt CoreProtos ActivityTasks.
From S2P Require Import HeartbeatManager.

(** ** Data *)

(** What the manager reads of a response to a poll. *)
Record PollActivityTaskQueueResponse := {
  par_task_token : string;
  par_workflow_namespace : string;
  par_workflow_type : option WorkflowType;
  par_workflow_execution : option WorkflowExecution;
  par_activity_type : option ActivityType;
  par_activity_id : string;
  par_header : option Header;
  par_input : option Payloads;
  par_heartbeat_details : option Payloads;
  par_scheduled_time : option Timestamp;
  par_current_attempt_scheduled_time : option Timestamp;
  par_started_time : option Timestamp;
  par_attempt : Z;
  par_schedule_to_close_timeout : option Duration;
  par_start_to_close_timeout : option Duration;
  par_heartbeat_timeout : option Duration;
  par_retry_policy : option RetryPolicy;
  par_priority : option Priority;
}.

Definition start_from_poll_resp (r : PollActivityTaskQueueResponse) : ActivityTask :=
  let '(workflow_id, run_id) :=
    from_option (fun we => (we.(WorkflowExecution_workflow_id), we.(WorkflowExecution_run_id)))
      (""%string, ""%string) r.(par_workflow_execution) in
  {| at_task_token := r.(par_task_token);
     at_variant := Some (ActivityTask_Start
       {| act_Start_workflow_namespace := r.(par_workflow_namespace);
          act_Start_workflow_type := from_option WorkflowType_name "" r.(par_workflow_type);
          act_Start_workflow_execution :=
            Some {| WorkflowExecution_workflow_id := workflow_id;
                    WorkflowExecution_run_id := run_id |};
          act_Start_activity_id := r.(par_activity_id);
          act_Start_activity_type := from_option ActivityType_name "" r.(par_activity_type);
          act_Start_header_fields := from_option Header_fields ∅ r.(par_header);
          act_Start_input := from_payloads r.(par_input);
          act_Start_heartbeat_details := from_payloads r.(par_heartbeat_details);
          act_Start_scheduled_time := r.(par_scheduled_time);
          act_Start_current_attempt_scheduled_time := r.(par_current_attempt_scheduled_time);
          act_Start_started_time := r.(par_started_time);
          act_Start_attempt := i32_as_u32 r.(par_attempt);
          act_Start_schedule_to_close_timeout := r.(par_schedule_to_close_timeout);
          act_Start_start_to_close_timeout := r.(par_start_to_close_timeout);
          act_Start_heartbeat_timeout := r.(par_heartbeat_timeout);
          act_Start_retry_policy := r.(par_retry_policy);
          act_Start_priority := r.(par_priority);
          act_Start_is_local := false |}) |}.

(** The handle of a timeout task and a [Notify] are numbers. *)
Record RemoteInFlightActInfo := {
  ri_heartbeat_timeout : option Duration;
  ri_issued_cancel_to_lang : option ActivityCancelReason;
  ri_known_not_found : bool;
  ri_local_timeouts_task : option N;
  ri_timeout_resetter : option N;
}.

Definition RemoteInFlightActInfo_new (poll_resp : PollActivityTaskQueueResponse)
  : RemoteInFlightActInfo :=
  {| ri_heartbeat_timeout := poll_resp.(par_heartbeat_timeout);
     ri_issued_cancel_to_lang := None; ri_known_not_found := false;
     ri_local_timeouts_task := None; ri_timeout_resetter := None |}.

Definition worker_shutdown_failure : Failure :=
  mkFailure "Worker is shutting down and this activity did not complete in time" "" "" None None
    (Some (FI_Application
       {| ApplicationFailureInfo_type := "WorkerShutdown";
          ApplicationFailureInfo_non_retryable := false;
          ApplicationFailureInfo_details := None;
          ApplicationFailureInfo_next_retry_delay := None;
          ApplicationFailureInfo_category := 0 |})).

(** The requests a completion makes. *)
Inductive ActivityServerCall :=
| CompleteActivityTask (token : string) (result : option Payloads)
| FailActivityTask (token : string) (failure : option Failure)
| CancelActivityTask (token : string) (details : option Payloads).

(** A task that tracks a local timeout: it sleeps until its deadline, and starts
    over when its resetter is notified.  [lt_seen] counts the notifications it
    has received. *)
Record LocalTimeout := {
  lt_token : string;
  lt_sleep_time : Z;
  lt_deadline : Z;
  lt_resetter : option N;
  lt_seen : nat;
}.

(** A call of [complete] that waits: for the eviction, or for the server. *)
Record Completing := {
  co_token : string;
  co_status : ActivityExecutionResult_Status;
  co_info : RemoteInFlightActInfo;
  co_on_complete : N;
  co_flushing : bool;
}.

(** How far the call of [shutdown] is: it waits for the completers, for a poll to
    return [ShutDown], or has stopped the heartbeat manager. *)
Inductive ShutdownPhase := SD_NotCalled | SD_Completers | SD_Poll | SD_Heartbeats.

Inductive Grace := GraceIdle | GraceSleeping (deadline : Z) | GraceDone.

Record WorkerActivityTasks := {
  wat_shutdown_initiated : bool;
  wat_heartbeat_manager : HBM;
  wat_outstanding_activity_tasks : gmap string RemoteInFlightActInfo;
  wat_cancels : list PendingActivityCancel;
  wat_eager : list PollActivityTaskQueueResponse;
  wat_eager_closed : bool;
  wat_timeouts : gmap N LocalTimeout;
  wat_next : N;
  wat_completing : list Completing;
  wat_calls : list ActivityServerCall;
  wat_start_tasks_stream_complete : bool;
  wat_should_issue_immediate_cancel : bool;
  wat_grace : Grace;
  wat_waiting : bool;
  wat_stream_ended : bool;
  wat_poll_returned_shutdown : bool;
  wat_shutdown : ShutdownPhase;
}.

Record ATConfig := {
  max_heartbeat_throttle_interval : Z;
  default_heartbeat_throttle_interval : Z;
  grace_period : option Z;
  local_timeout_buffer : Z;
}.

Definition WorkerActivityTasks_new : WorkerActivityTasks :=
  {| wat_shutdown_initiated := false; wat_heartbeat_manager := HBM_new;
     wat_outstanding_activity_tasks := ∅; wat_cancels := []; wat_eager := [];
     wat_eager_closed := false; wat_timeouts := ∅; wat_next := 0; wat_completing := [];
     wat_calls := []; wat_start_tasks_stream_complete := false;
     wat_should_issue_immediate_cancel := false; wat_grace := GraceIdle; wat_waiting := false;
     wat_stream_ended := false; wat_poll_returned_shutdown := false;
     wat_shutdown := SD_NotCalled |}.

(** Updates of the state. *)
Definition with_heartbeats (h0 : HBM) (s : WorkerActivityTasks)
  : WorkerActivityTasks :=
  {| wat_shutdown_initiated := s.(wat_shutdown_initiated); wat_heartbeat_manager := h0;
     wat_outstanding_activity_tasks := s.(wat_outstanding_activity_tasks);
     wat_cancels := s.(wat_cancels); wat_eager := s.(wat_eager);
     wat_eager_closed := s.(wat_eager_closed); wat_timeouts := s.(wat_timeouts);
     wat_next := s.(wat_next); wat_completing := s.(wat_completing); wat_calls := s.(wat_calls);
     wat_start_tasks_stream_complete := s.(wat_start_tasks_stream_complete);
     wat_should_issue_immediate_cancel := s.(wat_should_issue_immediate_cancel);
     wat_grace := s.(wat_grace); wat_waiting := s.(wat_waiting);
     wat_stream_ended := s.(wat_stream_ended);
     wat_poll_returned_shutdown := s.(wat_poll_returned_shutdown);
     wat_shutdown := s.(wat_shutdown) |}.

Definition with_outstanding (o0 : gmap string RemoteInFlightActInfo) (s : WorkerActivityTasks)
  : WorkerActivityTasks :=
  {| wat_shutdown_initiated := s.(wat_shutdown_initiated);
     wat_heartbeat_manager := s.(wat_heartbeat_manager); wat_outstanding_activity_tasks := o0;
     wat_cancels := s.(wat_cancels); wat_eager := s.(wat_eager);
     wat_eager_closed := s.(wat_eager_closed); wat_timeouts := s.(wat_timeouts);
     wat_next := s.(wat_next); wat_completing := s.(wat_completing); wat_calls := s.(wat_calls);
     wat_start_tasks_stream_complete := s.(wat_start_tasks_stream_complete);
     wat_should_issue_immediate_cancel := s.(wat_should_issue_immediate_cancel);
     wat_grace := s.(wat_grace); wat_waiting := s.(wat_waiting);
     wat_stream_ended := s.(wat_stream_ended);
     wat_poll_returned_shutdown := s.(wat_poll_returned_shutdown);
     wat_shutdown := s.(wat_shutdown) |}.

Definition with_cancels (c0 : list PendingActivityCancel) (s : WorkerActivityTasks)
  : WorkerActivityTasks :=
  {| wat_shutdown_initiated := s.(wat_shutdown_initiated);
     wat_heartbeat_manager := s.(wat_heartbeat_manager);
     wat_outstanding_activity_tasks := s.(wat_outstanding_activity_tasks); wat_cancels := c0;
     wat_eager := s.(wat_eager); wat_eager_closed := s.(wat_eager_closed);
     wat_timeouts := s.(wat_timeouts); wat_next := s.(wat_next);
     wat_completing := s.(wat_completing); wat_calls := s.(wat_calls);
     wat_start_tasks_stream_complete := s.(wat_start_tasks_stream_complete);
     wat_should_issue_immediate_cancel := s.(wat_should_issue_immediate_cancel);
     wat_grace := s.(wat_grace); wat_waiting := s.(wat_waiting);
     wat_stream_ended := s.(wat_stream_ended);
     wat_poll_returned_shutdown := s.(wat_poll_returned_shutdown);
     wat_shutdown := s.(wat_shutdown) |}.

Definition with_eager (e0 : list PollActivityTaskQueueResponse) (e1 : bool) (s : WorkerActivityTasks)
  : WorkerActivityTasks :=
  {| wat_shutdown_initiated := s.(wat_shutdown_initiated);
     wat_heartbeat_manager := s.(wat_heartbeat_manager);
     wat_outstanding_activity_tasks := s.(wat_outstanding_activity_tasks);
     wat_cancels := s.(wat_cancels); wat_eager := e0; wat_eager_closed := e1;
     wat_timeouts := s.(wat_timeouts); wat_next := s.(wat_next);
     wat_completing := s.(wat_completing); wat_calls := s.(wat_calls);
     wat_start_tasks_stream_complete := s.(wat_start_tasks_stream_complete);
     wat_should_issue_immediate_cancel := s.(wat_should_issue_immediate_cancel);
     wat_grace := s.(wat_grace); wat_waiting := s.(wat_waiting);
     wat_stream_ended := s.(wat_stream_ended);
     wat_poll_returned_shutdown := s.(wat_poll_returned_shutdown);
     wat_shutdown := s.(wat_shutdown) |}.

Definition with_timeouts (t0 : gmap N LocalTimeout) (n1 : N) (s : WorkerActivityTasks)
  : WorkerActivityTasks :=
  {| wat_shutdown_initiated := s.(wat_shutdown_initiated);
     wat_heartbeat_manager := s.(wat_heartbeat_manager);
     wat_outstanding_activity_tasks := s.(wat_outstanding_activity_tasks);
     wat_cancels := s.(wat_cancels); wat_eager := s.(wat_eager);
     wat_eager_closed := s.(wat_eager_closed); wat_timeouts := t0; wat_next := n1;
     wat_completing := s.(wat_completing); wat_calls := s.(wat_calls);
     wat_start_tasks_stream_complete := s.(wat_start_tasks_stream_complete);
     wat_should_issue_immediate_cancel := s.(wat_should_issue_immediate_cancel);
     wat_grace := s.(wat_grace); wat_waiting := s.(wat_waiting);
     wat_stream_ended := s.(wat_stream_ended);
     wat_poll_returned_shutdown := s.(wat_poll_returned_shutdown);
     wat_shutdown := s.(wat_shutdown) |}.

Definition with_completing (c0 : list Completing) (c1 : list ActivityServerCall) (s : WorkerActivityTasks)
  : WorkerActivityTasks :=
  {| wat_shutdown_initiated := s.(wat_shutdown_initiated);
     wat_heartbeat_manager := s.(wat_heartbeat_manager);
     wat_outstanding_activity_tasks := s.(wat_outstanding_activity_tasks);
     wat_cancels := s.(wat_cancels); wat_eager := s.(wat_eager);
     wat_eager_closed := s.(wat_eager_closed); wat_timeouts := s.(wat_timeouts);
     wat_next := s.(wat_next); wat_completing := c0; wat_calls := c1;
     wat_start_tasks_stream_complete := s.(wat_start_tasks_stream_complete);
     wat_should_issue_immediate_cancel := s.(wat_should_issue_immediate_cancel);
     wat_grace := s.(wat_grace); wat_waiting := s.(wat_waiting);
     wat_stream_ended := s.(wat_stream_ended);
     wat_poll_returned_shutdown := s.(wat_poll_returned_shutdown);
     wat_shutdown := s.(wat_shutdown) |}.

Definition with_starts_complete (s0 : bool) (s : WorkerActivityTasks)
  : WorkerActivityTasks :=
  {| wat_shutdown_initiated := s.(wat_shutdown_initiated);
     wat_heartbeat_manager := s.(wat_heartbeat_manager);
     wat_outstanding_activity_tasks := s.(wat_outstanding_activity_tasks);
     wat_cancels := s.(wat_cancels); wat_eager := s.(wat_eager);
     wat_eager_closed := s.(wat_eager_closed); wat_timeouts := s.(wat_timeouts);
     wat_next := s.(wat_next); wat_completing := s.(wat_completing); wat_calls := s.(wat_calls);
     wat_start_tasks_stream_complete := s0;
     wat_should_issue_immediate_cancel := s.(wat_should_issue_immediate_cancel);
     wat_grace := s.(wat_grace); wat_waiting := s.(wat_waiting);
     wat_stream_ended := s.(wat_stream_ended);
     wat_poll_returned_shutdown := s.(wat_poll_returned_shutdown);
     wat_shutdown := s.(wat_shutdown) |}.

Definition with_grace (s0 : bool) (g1 : Grace) (s : WorkerActivityTasks)
  : WorkerActivityTasks :=
  {| wat_shutdown_initiated := s.(wat_shutdown_initiated);
     wat_heartbeat_manager := s.(wat_heartbeat_manager);
     wat_outstanding_activity_tasks := s.(wat_outstanding_activity_tasks);
     wat_cancels := s.(wat_cancels); wat_eager := s.(wat_eager);
     wat_eager_closed := s.(wat_eager_closed); wat_timeouts := s.(wat_timeouts);
     wat_next := s.(wat_next); wat_completing := s.(wat_completing); wat_calls := s.(wat_calls);
     wat_start_tasks_stream_complete := s.(wat_start_tasks_stream_complete);
     wat_should_issue_immediate_cancel := s0; wat_grace := g1; wat_waiting := s.(wat_waiting);
     wat_stream_ended := s.(wat_stream_ended);
     wat_poll_returned_shutdown := s.(wat_poll_returned_shutdown);
     wat_shutdown := s.(wat_shutdown) |}.

Definition with_stream (w0 : bool) (s1 : bool) (p2 : bool) (s : WorkerActivityTasks)
  : WorkerActivityTasks :=
  {| wat_shutdown_initiated := s.(wat_shutdown_initiated);
     wat_heartbeat_manager := s.(wat_heartbeat_manager);
     wat_outstanding_activity_tasks := s.(wat_outstanding_activity_tasks);
     wat_cancels := s.(wat_cancels); wat_eager := s.(wat_eager);
     wat_eager_closed := s.(wat_eager_closed); wat_timeouts := s.(wat_timeouts);
     wat_next := s.(wat_next); wat_completing := s.(wat_completing); wat_calls := s.(wat_calls);
     wat_start_tasks_stream_complete := s.(wat_start_tasks_stream_complete);
     wat_should_issue_immediate_cancel := s.(wat_should_issue_immediate_cancel);
     wat_grace := s.(wat_grace); wat_waiting := w0; wat_stream_ended := s1;
     wat_poll_returned_shutdown := p2; wat_shutdown := s.(wat_shutdown) |}.

Definition with_shutdown (s0 : bool) (s1 : ShutdownPhase) (s : WorkerActivityTasks)
  : WorkerActivityTasks :=
  {| wat_shutdown_initiated := s0; wat_heartbeat_manager := s.(wat_heartbeat_manager);
     wat_outstanding_activity_tasks := s.(wat_outstanding_activity_tasks);
     wat_cancels := s.(wat_cancels); wat_eager := s.(wat_eager);
     wat_eager_closed := s.(wat_eager_closed); wat_timeouts := s.(wat_timeouts);
     wat_next := s.(wat_next); wat_completing := s.(wat_completing); wat_calls := s.(wat_calls);
     wat_start_tasks_stream_complete := s.(wat_start_tasks_stream_complete);
     wat_should_issue_immediate_cancel := s.(wat_should_issue_immediate_cancel);
     wat_grace := s.(wat_grace); wat_waiting := s.(wat_waiting);
     wat_stream_ended := s.(wat_stream_ended);
     wat_poll_returned_shutdown := s.(wat_poll_returned_shutdown); wat_shutdown := s1 |}.

Definition send_cancel (pc : PendingActivityCancel) (s : WorkerActivityTasks)
  : WorkerActivityTasks := with_cancels (s.(wat_cancels) ++ [pc]) s.

(** [Duration + Duration] *)
Definition duration_add {E} (a b : Z) : outcome E Z :=
  if (a + b <=? duration_max)%Z then Ok (a + b)%Z else Panic "overflow when adding durations".

(** ** Cancellations

    [DashMap::iter] lists the entries in an order of its own. *)
Class DashIter := dash_iter : gmap string RemoteInFlightActInfo -> list string.

Definition worker_shutdown_cancel (tok : string) : PendingActivityCancel :=
  {| pac_task_token := tok; pac_reason := ACR_WorkerShutdown;
     pac_details := primary_reason_to_cancellation_details ACR_WorkerShutdown |}.

Definition timed_out_cancel (tok : string) : PendingActivityCancel :=
  {| pac_task_token := tok; pac_reason := ACR_TimedOut;
     pac_details := {| acd_is_not_found := true; acd_is_cancelled := false;
                       acd_is_paused := false; acd_is_timed_out := true;
                       acd_is_worker_shutdown := false; acd_is_reset := false |} |}.

Definition pending_cancel (next_pc : PendingActivityCancel) (s : WorkerActivityTasks)
  : WorkerActivityTasks * option ActivityTask :=
  match s.(wat_outstanding_activity_tasks) !! next_pc.(pac_task_token) with
  | Some details =>
      match details.(ri_issued_cancel_to_lang) with
      | Some _ => (s, None)
      | None =>
          let not_found := bool_decide (next_pc.(pac_reason) = ACR_NotFound)
                           || next_pc.(pac_details).(acd_is_not_found) in
          let details :=
            {| ri_heartbeat_timeout := details.(ri_heartbeat_timeout);
               ri_issued_cancel_to_lang := Some next_pc.(pac_reason);
               ri_known_not_found := if not_found then true else details.(ri_known_not_found);
               ri_local_timeouts_task := details.(ri_local_timeouts_task);
               ri_timeout_resetter := details.(ri_timeout_resetter) |} in
          (with_outstanding
             (<[next_pc.(pac_task_token) := details]> s.(wat_outstanding_activity_tasks)) s,
           Some (cancel_from_ids next_pc.(pac_task_token) next_pc.(pac_reason)
                   next_pc.(pac_details)))
      end
  | None => (s, None)
  end.

(** ** Starts *)
Section starts.
  Context `{WktTime} (c : ATConfig).

(** The shorter of the timeouts that are set, and whether it is that of
    heartbeats. *)
Definition timeout_at (resp : PollActivityTaskQueueResponse) : option (bool * Z) :=
  let get k (d : option Duration) :=
    d ← d ≫= duration_try_into; if (d =? 0)%Z then None else Some (k, d) in
  match get true resp.(par_heartbeat_timeout), get false resp.(par_start_to_close_timeout) with
  | Some (k1, d1), Some (k2, d2) => if (d2 <? d1)%Z then Some (k2, d2) else Some (k1, d1)
  | Some r, None | None, Some r => Some r
  | None, None => None
  end.

Definition pending_start (now : Z) (resp : PollActivityTaskQueueResponse)
    (s : WorkerActivityTasks) : outcome Empty_set (WorkerActivityTasks * ActivityTask) :=
  let tok := resp.(par_task_token) in
  let info := RemoteInFlightActInfo_new resp in
  let outstanding i :=
    with_outstanding (<[tok := i]> s.(wat_outstanding_activity_tasks)) s in
  s ← (if s.(wat_should_issue_immediate_cancel)
       then Ok (send_cancel (worker_shutdown_cancel tok) (outstanding info))
       else match timeout_at resp with
            | None => Ok (outstanding info)
            | Some (is_heartbeat, timeout_at) =>
                sleep_time ← duration_add timeout_at c.(local_timeout_buffer);
                let handle := s.(wat_next) in
                let resetter := if is_heartbeat : bool then Some (handle + 1)%N else None in
                let info :=
                  {| ri_heartbeat_timeout := info.(ri_heartbeat_timeout);
                     ri_issued_cancel_to_lang := info.(ri_issued_cancel_to_lang);
                     ri_known_not_found := info.(ri_known_not_found);
                     ri_local_timeouts_task := Some handle; ri_timeout_resetter := resetter |} in
                let task := {| lt_token := tok; lt_sleep_time := sleep_time;
                               lt_deadline := (now + sleep_time)%Z; lt_resetter := resetter;
                               lt_seen := 0 |} in
                Ok (with_timeouts (<[handle := task]> s.(wat_timeouts)) (handle + 2)%N
                      (outstanding info))
            end);
  Ok (s, start_from_poll_resp resp).

(** *** The timeout tasks *)
Definition notifications (n : N) (s : HBM) : nat := length (filter (n =.) s.(hbm_notified)).

Definition timeout_reset (now : Z) (handle : N) (s : WorkerActivityTasks)
  : option WorkerActivityTasks :=
  t ← s.(wat_timeouts) !! handle;
  resetter ← t.(lt_resetter);
  let given := notifications resetter s.(wat_heartbeat_manager) in
  if given <=? t.(lt_seen) then None
  else
    let t := {| lt_token := t.(lt_token); lt_sleep_time := t.(lt_sleep_time);
                lt_deadline := (now + t.(lt_sleep_time))%Z; lt_resetter := t.(lt_resetter);
                lt_seen := given |} in
    Some (with_timeouts (<[handle := t]> s.(wat_timeouts)) s.(wat_next) s).

Definition timeout_elapsed (now : Z) (handle : N) (s : WorkerActivityTasks)
  : option WorkerActivityTasks :=
  t ← s.(wat_timeouts) !! handle;
  if (t.(lt_deadline) <=? now)%Z
  then Some (send_cancel (timed_out_cancel t.(lt_token))
               (with_timeouts (delete handle s.(wat_timeouts)) s.(wat_next) s))
  else None.

(** ** The task stream

    What a poll gives.  The sources are tried in order: cancellations, eager
    activities, and the response of the server, if there is one. *)
Inductive act_poll :=
| ActTask (t : ActivityTask)
| ActError (code : Z)
| ActShutDown.

Definition merge_start_task_sources
    (polled : option (sum Z PollActivityTaskQueueResponse)) (s : WorkerActivityTasks)
  : option (sum Z PollActivityTaskQueueResponse * WorkerActivityTasks) :=
  if s.(wat_start_tasks_stream_complete) then None
  else
    match s.(wat_eager) with
    | task :: rest => Some (inr task, with_eager rest s.(wat_eager_closed) s)
    | [] => r ← polled; Some (r, s)
    end.

(** [None] in place of the result is an item that is filtered out. *)
Definition poll (now : Z) (polled : option (sum Z PollActivityTaskQueueResponse))
    (s : WorkerActivityTasks) : option (outcome Empty_set (WorkerActivityTasks * option act_poll)) :=
  if s.(wat_stream_ended)
  then Some (Ok (with_stream s.(wat_waiting) true true s, Some ActShutDown))
  else
    match s.(wat_cancels) with
    | pc :: rest =>
        let '(s, t) := pending_cancel pc (with_cancels rest s) in Some (Ok (s, ActTask <$> t))
    | [] =>
        '(r, s) ← merge_start_task_sources polled s;
        Some match r with
             | inl code => Ok (s, Some (ActError code))
             | inr resp => '(s, t) ← pending_start now resp s; Ok (s, Some (ActTask t))
             end
    end.

(** The receiver of eager activities is closed once the permits for them are
    closed and returned, which the dealer decides. *)
Definition eager_close (s : WorkerActivityTasks) : option WorkerActivityTasks :=
  if s.(wat_shutdown_initiated) && bool_decide (s.(wat_eager) = [])
  then Some (with_eager [] true s) else None.

(** Both sources of starts have ended. *)
Definition starts_end (s : WorkerActivityTasks) : option WorkerActivityTasks :=
  if s.(wat_eager_closed) && bool_decide (s.(wat_eager) = [])
     && bool_decide (s.(wat_cancels) = []) && negb s.(wat_stream_ended)
  then Some (with_starts_complete true s) else None.

Definition add_task (t : PollActivityTaskQueueResponse) (s : WorkerActivityTasks)
  : outcome Empty_set WorkerActivityTasks :=
  if s.(wat_eager_closed) then Panic "Receive half cannot be dropped"
  else Ok (with_eager (s.(wat_eager) ++ [t]) s.(wat_eager_closed) s).

(** One check of the loop that waits for the outstanding activities. *)
Definition wait_outstanding (s : WorkerActivityTasks) : option WorkerActivityTasks :=
  if negb s.(wat_start_tasks_stream_complete) || s.(wat_waiting) || s.(wat_stream_ended)
  then None
  else if bool_decide (s.(wat_outstanding_activity_tasks) = ∅)
  then Some (with_stream false true s.(wat_poll_returned_shutdown) s)
  else Some (with_stream true false s.(wat_poll_returned_shutdown) s).

(** The grace period starts with the shutdown; when it is over, all that is
    outstanding is cancelled. *)
Definition grace_begin (now : Z) (s : WorkerActivityTasks) : option WorkerActivityTasks :=
  match s.(wat_grace), c.(grace_period) with
  | GraceIdle, Some gp =>
      if s.(wat_shutdown_initiated) && negb s.(wat_stream_ended)
      then Some (with_grace s.(wat_should_issue_immediate_cancel) (GraceSleeping (now + gp)) s)
      else None
  | _, _ => None
  end.

Definition grace_elapsed `{DashIter} (now : Z) (s : WorkerActivityTasks)
  : option WorkerActivityTasks :=
  match s.(wat_grace) with
  | GraceSleeping deadline =>
      if (deadline <=? now)%Z && negb s.(wat_stream_ended)
      then Some (with_cancels
             (s.(wat_cancels) ++ (worker_shutdown_cancel <$>
                dash_iter s.(wat_outstanding_activity_tasks)))
             (with_grace true GraceDone s))
      else None
  | _ => None
  end.

(** ** Completions *)
Definition completion_call (tok : string) (status : ActivityExecutionResult_Status)
    (issued_cancel_to_lang : option ActivityCancelReason) : option ActivityServerCall :=
  match status with
  | ActivityExecutionResult_WillCompleteAsync _ => None
  | ActivityExecutionResult_Completed r =>
      Some (CompleteActivityTask tok
              ((fun p => {| Payloads_payloads := [p] |}) <$> r.(ar_Success_result)))
  | ActivityExecutionResult_Failed f => Some (FailActivityTask tok f.(ar_Failure_failure))
  | ActivityExecutionResult_Cancelled f =>
      if bool_decide (issued_cancel_to_lang = Some ACR_WorkerShutdown)
      then Some (FailActivityTask tok (Some worker_shutdown_failure))
      else
        let details :=
          match f.(ar_Cancellation_failure) ≫= Failure_failure_info with
          | Some (FI_Canceled i) => i.(CanceledFailureInfo_details)
          | _ => None
          end in
        Some (CancelActivityTask tok details)
  end.

(** [complete], until it waits for the heartbeat manager. *)
Definition complete (tok : string) (status : ActivityExecutionResult_Status)
    (s : WorkerActivityTasks) : WorkerActivityTasks :=
  match s.(wat_outstanding_activity_tasks) !! tok with
  | Some act_info =>
      let on_complete := s.(wat_next) in
      let timeouts := from_option (fun jh => delete jh s.(wat_timeouts)) s.(wat_timeouts)
                        act_info.(ri_local_timeouts_task) in
      let s := with_outstanding (delete tok s.(wat_outstanding_activity_tasks)) s in
      let s := with_timeouts timeouts (on_complete + 1)%N s in
      let s := with_heartbeats (hbm_evict tok on_complete s.(wat_heartbeat_manager)) s in
      with_completing
        (s.(wat_completing) ++ [{| co_token := tok; co_status := status; co_info := act_info;
                                   co_on_complete := on_complete; co_flushing := false |}])
        s.(wat_calls) s
  | None => s
  end.

(** The eviction is answered: the completion ends here, or calls the server. *)
Definition complete_evicted (i : nat) (s : WorkerActivityTasks) : option WorkerActivityTasks :=
  co ← s.(wat_completing) !! i;
  if co.(co_flushing)
     || bool_decide (co.(co_on_complete) ∉ s.(wat_heartbeat_manager).(hbm_notified)) then None
  else if co.(co_info).(ri_known_not_found)
  then Some (with_completing (delete i s.(wat_completing)) s.(wat_calls) s)
  else
    let flushing := {| co_token := co.(co_token); co_status := co.(co_status);
                       co_info := co.(co_info); co_on_complete := co.(co_on_complete);
                       co_flushing := true |} in
    Some (with_completing (<[i := flushing]> s.(wat_completing))
            (option_list (completion_call co.(co_token) co.(co_status)
                            co.(co_info).(ri_issued_cancel_to_lang)) ++ s.(wat_calls)) s).

(** The server has answered; errors are logged. *)
Definition complete_reported (i : nat) (s : WorkerActivityTasks) : option WorkerActivityTasks :=
  co ← s.(wat_completing) !! i;
  if co.(co_flushing)
  then
    let s := with_completing (delete i s.(wat_completing)) s.(wat_calls) s in
    Some (with_stream false s.(wat_stream_ended) s.(wat_poll_returned_shutdown) s)
  else None.

(** ** Heartbeats *)
Inductive ActivityHeartbeatError := UnknownActivity | InvalidHeartbeatTimeout.

(** [0.8] *)
Definition HEARTBEAT_FRACTION : spec_float := f64_from_bits 0x3fe999999999999a.

Definition mul_f64 {E} (d : Z) (rhs : spec_float) : outcome E Z :=
  from_secs (f64_mul rhs (as_secs_f64 d)).

Definition throttle_interval_of (heartbeat_timeout : Z) : outcome ActivityHeartbeatError Z :=
  interval ← (if (heartbeat_timeout / 1000000 =? 0)%Z
              then Ok c.(default_heartbeat_throttle_interval)
              else mul_f64 heartbeat_timeout HEARTBEAT_FRACTION);
  Ok (Z.min interval c.(max_heartbeat_throttle_interval)).

Definition record_heartbeat (tok : string) (details : list Payload) (s : WorkerActivityTasks)
  : outcome ActivityHeartbeatError WorkerActivityTasks :=
  match s.(wat_outstanding_activity_tasks) !! tok with
  | None => Err UnknownActivity
  | Some at_info =>
      heartbeat_timeout ←
        match at_info.(ri_heartbeat_timeout) with
        | None => Ok 0%Z
        | Some d => match duration_try_into d with
                    | Some d => Ok d
                    | None => Err InvalidHeartbeatTimeout
                    end
        end;
      throttle_interval ← throttle_interval_of heartbeat_timeout;
      Ok (with_heartbeats (hbm_record
            {| vhb_task_token := tok; vhb_details := details;
               vhb_throttle_interval := throttle_interval;
               vhb_timeout_resetter := at_info.(ri_timeout_resetter) |}
            s.(wat_heartbeat_manager)) s)
  end.

(** The heartbeat manager takes an action, hears from the server, or a task of it
    ends. *)
Definition heartbeat_step (now : Z) (s : WorkerActivityTasks) : option WorkerActivityTasks :=
  h ← stream_step now s.(wat_heartbeat_manager); Some (with_heartbeats h s).

Definition heartbeat_reported (i : nat) (r : HeartbeatResponse) (s : WorkerActivityTasks)
  : option WorkerActivityTasks :=
  '(h, cancels) ← finish_report i r s.(wat_heartbeat_manager);
  Some (with_cancels (s.(wat_cancels) ++ cancels) (with_heartbeats h s)).

Definition heartbeat_slept (now : Z) (i : nat) (s : WorkerActivityTasks)
  : option WorkerActivityTasks :=
  h ← finish_sleep now i s.(wat_heartbeat_manager); Some (with_heartbeats h s).

Definition heartbeat_woken (i : nat) (s : WorkerActivityTasks) : option WorkerActivityTasks :=
  h ← cancel_sleep i s.(wat_heartbeat_manager); Some (with_heartbeats h s).

(** ** Shutdown *)
Definition initiate_shutdown (s : WorkerActivityTasks) : WorkerActivityTasks :=
  with_shutdown true s.(wat_shutdown) s.

Definition shutdown (s : WorkerActivityTasks) : WorkerActivityTasks :=
  with_shutdown true
    (match s.(wat_shutdown) with SD_NotCalled => SD_Completers | p => p end) s.

(** The write lock is granted when no completion holds the read lock. *)
Definition shutdown_locked (s : WorkerActivityTasks) : option WorkerActivityTasks :=
  match s.(wat_shutdown) with
  | SD_Completers =>
      if forallb (fun co => negb co.(co_flushing)) s.(wat_completing)
      then Some (with_shutdown s.(wat_shutdown_initiated) SD_Poll s) else None
  | _ => None
  end.

Definition shutdown_heartbeats (s : WorkerActivityTasks) : option WorkerActivityTasks :=
  match s.(wat_shutdown) with
  | SD_Poll =>
      if s.(wat_poll_returned_shutdown)
      then Some (with_heartbeats (hbm_shut_down s.(wat_heartbeat_manager))
                   (with_shutdown s.(wat_shutdown_initiated) SD_Heartbeats s))
      else None
  | _ => None
  end.
End starts.
