(* ===== verification/ActivityManagerFacts.v ===== *)
(** * What the activity task manager guarantees

    Runs of the manager with what lang and the server observe: the tasks handed
    out and the completions that ended.  Every activity started is outstanding,
    being completed or done, exactly once; it is cancelled at most once and
    reported as its status says.  The manager uses the heartbeat manager as that
    one requires, so its guarantees hold for the composition.  Two sequences of
    calls in which shutdown goes wrong close the file. *)
From Stdlib Require Import ZArith Lia.
From stdpp Require Import base option list strings gmap.
From S2P Require Import Prelude TimeArith Flags Protos ProtoExt CoreProtos ActivityTasks.
From S2P Require Import HeartbeatManager HeartbeatFacts ActivityManager.

(** ** Runs *)
Record world := {
  w_now : Z;
  w_tasks : list ActivityTask;
  w_done : list Completing;
  w_state : WorkerActivityTasks;
}.

Definition world_new (now : Z) : world :=
  {| w_now := now; w_tasks := []; w_done := []; w_state := WorkerActivityTasks_new |}.

Definition set_state (s : WorkerActivityTasks) (w : world) : world :=
  {| w_now := w.(w_now); w_tasks := w.(w_tasks); w_done := w.(w_done); w_state := s |}.
Definition set_now (now : Z) (w : world) : world :=
  {| w_now := now; w_tasks := w.(w_tasks); w_done := w.(w_done); w_state := w.(w_state) |}.
Definition add_done (co : Completing) (w : world) : world :=
  {| w_now := w.(w_now); w_tasks := w.(w_tasks); w_done := co :: w.(w_done);
     w_state := w.(w_state) |}.
Definition issue_task (r : option act_poll) (w : world) : world :=
  match r with
  | Some (ActTask t) => {| w_now := w.(w_now); w_tasks := t :: w.(w_tasks);
                           w_done := w.(w_done); w_state := w.(w_state) |}
  | _ => w
  end.

Definition start_token (t : ActivityTask) : option string :=
  match t.(at_variant) with
  | Some (ActivityTask_Start _) => Some t.(at_task_token)
  | _ => None
  end.
Definition started (l : list ActivityTask) : list string := omap start_token l.

Definition is_cancel_of (tok : string) (t : ActivityTask) : bool :=
  match t.(at_variant) with
  | Some (ActivityTask_Cancel _) => String.eqb t.(at_task_token) tok
  | _ => false
  end.
Definition cancels_issued (tok : string) (l : list ActivityTask) : nat := cnt (is_cancel_of tok) l.

Section runs.
  Context `{WktTime} `{DashIter} (c : ATConfig).

(** What happens without lang or the server seeing it. *)
Inductive internal (now : Z) (s : WorkerActivityTasks) : WorkerActivityTasks -> Prop :=
| in_reset h s' : timeout_reset now h s = Some s' -> internal now s s'
| in_elapsed h s' : timeout_elapsed now h s = Some s' -> internal now s s'
| in_eager_close s' : eager_close s = Some s' -> internal now s s'
| in_starts_end s' : starts_end s = Some s' -> internal now s s'
| in_add_task t s' : add_task t s = Ok s' -> internal now s s'
| in_wait s' : wait_outstanding s = Some s' -> internal now s s'
| in_grace_begin s' : grace_begin c now s = Some s' -> internal now s s'
| in_grace_elapsed s' : grace_elapsed now s = Some s' -> internal now s s'
| in_complete tok status : internal now s (complete tok status s)
| in_record tok d s' : record_heartbeat c tok d s = Ok s' -> internal now s s'
| in_heartbeat_reported i r s' : heartbeat_reported i r s = Some s' -> internal now s s'
| in_heartbeat_woken i s' : heartbeat_woken i s = Some s' -> internal now s s'
| in_initiate_shutdown : internal now s (initiate_shutdown s)
| in_shutdown : internal now s (shutdown s)
| in_locked s' : shutdown_locked s = Some s' -> internal now s s'
| in_heartbeats_stopped s' : shutdown_heartbeats s = Some s' -> internal now s s'.

(** The server gives each attempt of an activity a token of its own. *)
Definition fresh_start (r : option act_poll) (l : list ActivityTask) : Prop :=
  match r with
  | Some (ActTask t) => forall tok, start_token t = Some tok -> tok ∉ started l
  | _ => True
  end.

Inductive act_step (w : world) : world -> Prop :=
| st_time now : (w.(w_now) <= now)%Z -> act_step w (set_now now w)
| st_poll polled s r :
    poll c w.(w_now) polled w.(w_state) = Some (Ok (s, r)) -> fresh_start r w.(w_tasks) ->
    act_step w (issue_task r (set_state s w))
| st_internal s : internal w.(w_now) w.(w_state) s -> act_step w (set_state s w)
| st_evicted i co s :
    w.(w_state).(wat_completing) !! i = Some co -> complete_evicted i w.(w_state) = Some s ->
    act_step w (if co.(co_info).(ri_known_not_found) then add_done co (set_state s w)
                else set_state s w)
| st_reported i co s :
    w.(w_state).(wat_completing) !! i = Some co -> complete_reported i w.(w_state) = Some s ->
    act_step w (add_done co (set_state s w))
| st_heartbeat now s :
    (w.(w_now) < now)%Z -> heartbeat_step now w.(w_state) = Some s ->
    act_step w (set_now now (set_state s w))
| st_slept now i s :
    (w.(w_now) < now)%Z -> heartbeat_slept now i w.(w_state) = Some s ->
    act_step w (set_now now (set_state s w)).

Definition act_reach : world -> Prop := fun w => exists now, rtc act_step (world_new now) w.
End runs.

(** ** The invariant *)
Definition call_of (co : Completing) : option ActivityServerCall :=
  if co.(co_info).(ri_known_not_found) then None
  else completion_call co.(co_token) co.(co_status) co.(co_info).(ri_issued_cancel_to_lang).

Definition tokens_out (s : WorkerActivityTasks) : list string :=
  (map_to_list s.(wat_outstanding_activity_tasks)).*1.

(** Each activity that was started is in one place. *)
Definition conserved (w : world) : Prop :=
  NoDup (started w.(w_tasks)) /\
  started w.(w_tasks) ≡ₚ
    tokens_out w.(w_state) ++ (co_token <$> w.(w_state).(wat_completing)) ++ (co_token <$> w.(w_done)).

Definition cancelled_once (w : world) : Prop := forall tok,
  cancels_issued tok w.(w_tasks) <= 1 /\
  (tok ∉ started w.(w_tasks) -> cancels_issued tok w.(w_tasks) = 0) /\
  forall i, w.(w_state).(wat_outstanding_activity_tasks) !! tok = Some i ->
    (i.(ri_issued_cancel_to_lang) = None <-> cancels_issued tok w.(w_tasks) = 0).

Definition is_flushing (co : Completing) : Prop := co.(co_flushing) = true.
#[global] Instance is_flushing_dec co : Decision (is_flushing co).
Proof. unfold is_flushing. apply _. Defined.

Definition flushing (s : WorkerActivityTasks) : list Completing :=
  filter is_flushing s.(wat_completing).

(** The server is called once for each completion that is being or was
    reported. *)
Definition reported_once (w : world) : Prop :=
  w.(w_state).(wat_calls) ≡ₚ omap call_of (flushing w.(w_state) ++ w.(w_done)).

(** The stream ends when nothing is outstanding, and nothing starts after it. *)
Definition ends_in_order (s : WorkerActivityTasks) : Prop :=
  (s.(wat_start_tasks_stream_complete) = true -> s.(wat_eager) = [] /\ s.(wat_eager_closed) = true) /\
  (s.(wat_stream_ended) = true ->
     s.(wat_start_tasks_stream_complete) = true /\ s.(wat_outstanding_activity_tasks) = ∅) /\
  (s.(wat_poll_returned_shutdown) = true -> s.(wat_stream_ended) = true) /\
  (s.(wat_heartbeat_manager).(hbm_shutdown) = true -> s.(wat_poll_returned_shutdown) = true).

(** A timeout task belongs to an activity that is outstanding. *)
Definition timeouts_tracked (s : WorkerActivityTasks) : Prop := forall h t,
  s.(wat_timeouts) !! h = Some t ->
  (h < s.(wat_next))%N /\
  exists i, s.(wat_outstanding_activity_tasks) !! t.(lt_token) = Some i /\
            i.(ri_local_timeouts_task) = Some h.

(** Who waits for the last activity is woken, unless the completion of an
    activity the server does not know is or was among those it waits for. *)
Definition wait_ends (w : world) : Prop :=
  w.(w_state).(wat_waiting) = true ->
  w.(w_state).(wat_outstanding_activity_tasks) <> ∅ \/
  (exists co, co ∈ w.(w_state).(wat_completing) /\ co.(co_info).(ri_known_not_found) = false) \/
  (exists co, co ∈ w.(w_state).(wat_completing) ++ w.(w_done) /\
     co.(co_info).(ri_known_not_found) = true).

(** The heartbeat manager is used as it requires. *)
Definition heartbeats_refined (w : world) : Prop := exists t o,
  (t <= w.(w_now))%Z /\ hb_reach t o w.(w_state).(wat_heartbeat_manager) /\
  forall tok, tok ∈ o.(ob_evict_sent) ->
    tok ∈ (co_token <$> w.(w_state).(wat_completing)) ++ (co_token <$> w.(w_done)).

Record act_inv (w : world) : Prop := {
  ai_conserved : conserved w;
  ai_cancelled : cancelled_once w;
  ai_reported : reported_once w;
  ai_ends : ends_in_order w.(w_state);
  ai_timeouts : timeouts_tracked w.(w_state);
  ai_flushing : forall co, co ∈ flushing w.(w_state) -> co.(co_info).(ri_known_not_found) = false;
  ai_wait : wait_ends w;
  ai_heartbeats : heartbeats_refined w;
}.

(** ** Preservation *)
Lemma world_new_inv now : act_inv (world_new now).
Proof.
  constructor.
  - split; [constructor|]. unfold tokens_out. simpl. by rewrite map_to_list_empty.
  - intros tok. cbn. split_and!; [lia|done|]. intros i Hi. set_solver.
  - by unfold reported_once.
  - unfold ends_in_order. cbn. naive_solver.
  - intros h t Ht. cbn in Ht. set_solver.
  - intros co Hco. cbn in Hco. set_solver.
  - intros Hw. done.
  - exists now, observed_new. split; [done|]. split; [constructor|]. cbn. set_solver.
Qed.

(** A step that keeps the activities and their completions. *)
Lemma inv_frame w s :
  act_inv w ->
  s.(wat_outstanding_activity_tasks) = w.(w_state).(wat_outstanding_activity_tasks) ->
  s.(wat_completing) = w.(w_state).(wat_completing) ->
  s.(wat_calls) = w.(w_state).(wat_calls) ->
  ends_in_order s -> timeouts_tracked s -> wait_ends (set_state s w) ->
  heartbeats_refined (set_state s w) ->
  act_inv (set_state s w).
Proof.
  intros [Hc Hx Hr He Ht Hf Hw Hh] Hout Hco Hcalls He' Ht' Hw' Hh'.
  constructor; try done.
  - unfold conserved, tokens_out in *. simpl. by rewrite Hout, Hco.
  - unfold cancelled_once in *. simpl. by rewrite Hout.
  - unfold reported_once, flushing in *. simpl. by rewrite Hcalls, Hco.
  - unfold flushing in *. simpl. by rewrite Hco.
Qed.

(** Proves a step by [inv_frame], with what did not change discharged. *)
Ltac frame :=
  lazymatch goal with
  | Hi : act_inv ?w |- act_inv (set_state _ ?w) =>
      apply (inv_frame _ _ Hi); [try done..|];
      first [exact (ai_ends _ Hi)|exact (ai_timeouts _ Hi)|exact (ai_wait _ Hi)
            |exact (ai_heartbeats _ Hi)|idtac]
  end.

(** Evictions, reports and sleeps of the heartbeat manager keep its state
    reachable. *)
Lemma refined_step w h :
  heartbeats_refined w ->
  (forall t o, (t <= w.(w_now))%Z -> hb_reach t o w.(w_state).(wat_heartbeat_manager) ->
     (forall tok, tok ∈ o.(ob_evict_sent) ->
        tok ∈ (co_token <$> w.(w_state).(wat_completing)) ++ (co_token <$> w.(w_done))) ->
     hb_reach t o h) ->
  heartbeats_refined (set_state (with_heartbeats h w.(w_state)) w).
Proof. intros (t & o & Ht & Hr & Hs) Hh. exists t, o. split; [done|]. split; [by apply Hh|done]. Qed.

(** The keys of a map from which an entry is removed, or in which one changes. *)
Lemma keys_delete {A} (m : gmap string A) k x :
  m !! k = Some x -> (map_to_list m).*1 ≡ₚ k :: (map_to_list (delete k m)).*1.
Proof.
  intros Hl. rewrite <- (insert_delete_id _ _ _ Hl) at 1.
  by rewrite map_to_list_insert by apply lookup_delete_eq.
Qed.

Lemma keys_insert {A} (m : gmap string A) k x y :
  m !! k = Some x -> (map_to_list (<[k := y]> m)).*1 ≡ₚ k :: (map_to_list (delete k m)).*1.
Proof.
  intros Hl. rewrite <- insert_delete_eq.
  by rewrite map_to_list_insert by apply lookup_delete_eq.
Qed.

Section preservation.
  Context `{WktTime} `{DashIter} (c : ATConfig).

Lemma timeouts_tracked_delete s h m :
  timeouts_tracked s -> m = delete h s.(wat_timeouts) ->
  timeouts_tracked (with_timeouts m s.(wat_next) s).
Proof. intros Ht -> h' t Hl. cbn in Hl. apply lookup_delete_Some in Hl as [_ Hl]. by apply Ht. Qed.

Lemma act_keeps_reset now h s w :
  act_inv w -> timeout_reset now h w.(w_state) = Some s -> act_inv (set_state s w).
Proof.
  intros Hi Hs. unfold timeout_reset in Hs.
  destruct (wat_timeouts _ !! h) as [t|] eqn:Hl; [|done]. simpl in Hs.
  destruct (lt_resetter t) as [r|]; [|done]. simpl in Hs. case_match; [done|]. simplify_eq.
  frame; try apply Hi. intros h' t' Hl'. cbn in Hl'. apply lookup_insert_Some in Hl' as [[-> <-]|[_ Hl']].
  - exact (ai_timeouts _ Hi _ _ Hl).
  - exact (ai_timeouts _ Hi _ _ Hl').
Qed.

Lemma act_keeps_elapsed now h s w :
  act_inv w -> timeout_elapsed now h w.(w_state) = Some s -> act_inv (set_state s w).
Proof.
  intros Hi Hs. unfold timeout_elapsed in Hs.
  destruct (wat_timeouts _ !! h) as [t|] eqn:Hl; [|done]. simpl in Hs.
  case_match; [|done]. simplify_eq. frame; try apply Hi.
  exact (timeouts_tracked_delete _ _ _ (ai_timeouts _ Hi) eq_refl).
Qed.

Lemma act_keeps_sources s w :
  act_inv w ->
  eager_close w.(w_state) = Some s \/ starts_end w.(w_state) = Some s \/
  (exists t, add_task t w.(w_state) = Ok s) ->
  act_inv (set_state s w).
Proof.
  intros Hi Hs. pose proof (ai_ends _ Hi) as (E1 & E2 & E3 & E4).
  destruct Hs as [Hs|[Hs|[t Hs]]]; unfold eager_close, starts_end, add_task in Hs;
    case_match eqn:Hb; simplify_eq; frame; try apply Hi; unfold ends_in_order; cbn; clear Hi;
    repeat rewrite ?andb_true_iff, ?bool_decide_eq_true, ?negb_true_iff in Hb;
    split_and!; intuition congruence.
Qed.

Lemma act_keeps_wait s w :
  act_inv w -> wait_outstanding w.(w_state) = Some s -> act_inv (set_state s w).
Proof.
  intros Hi Hs. pose proof (ai_ends _ Hi) as (E1 & E2 & E3 & E4). unfold wait_outstanding in Hs.
  destruct (negb _ || _ || _) eqn:Hb; [done|].
  apply orb_false_iff in Hb as [[Hc%negb_false_iff Hw]%orb_false_iff He].
  case_bool_decide as Ho; simplify_eq; frame; try apply Hi; unfold ends_in_order; cbn.
  - clear Hi. split_and!; intuition congruence.
  - intros _. by left.
Qed.

Lemma act_keeps_grace now s w :
  act_inv w -> grace_begin c now w.(w_state) = Some s \/ grace_elapsed now w.(w_state) = Some s ->
  act_inv (set_state s w).
Proof.
  intros Hi [Hs|Hs]; unfold grace_begin, grace_elapsed in Hs; repeat case_match; simplify_eq;
    frame; apply Hi.
Qed.

Lemma act_keeps_shutdown s w :
  act_inv w ->
  s = initiate_shutdown w.(w_state) \/ s = shutdown w.(w_state) \/
  shutdown_locked w.(w_state) = Some s ->
  act_inv (set_state s w).
Proof.
  intros Hi [->|[->|Hs]]; [frame; apply Hi..|].
  unfold shutdown_locked in Hs. repeat case_match; simplify_eq. frame; apply Hi.
Qed.

Lemma act_keeps_heartbeats_stopped s w :
  act_inv w -> shutdown_heartbeats w.(w_state) = Some s -> act_inv (set_state s w).
Proof.
  intros Hi Hs. unfold shutdown_heartbeats in Hs. repeat case_match; simplify_eq.
  pose proof (ai_ends _ Hi) as (E1 & E2 & E3 & E4).
  frame; try apply Hi.
  - destruct (ai_heartbeats _ Hi) as (t & o & Ht & Hr & Hx). exists t, o. split; [done|].
    split; [by constructor|done].
Qed.

(** *** Heartbeats *)
Lemma act_keeps_record tok d s w :
  act_inv w -> record_heartbeat c tok d w.(w_state) = Ok s -> act_inv (set_state s w).
Proof.
  intros Hi Hs. unfold record_heartbeat in Hs.
  destruct (wat_outstanding_activity_tasks _ !! tok) as [i|] eqn:Hl; [|done]. bind_Ok.
  simplify_eq. frame; try apply Hi. apply refined_step; [apply Hi|].
  intros t o Ht Hr Hev. constructor; [done|]. cbn. intros Htok%Hev.
  destruct (ai_conserved _ Hi) as [Hnd Hp]. rewrite Hp in Hnd.
  apply NoDup_app in Hnd as (_ & Hnd & _). apply (Hnd tok); [|done].
  unfold tokens_out. apply list_elem_of_fmap. exists (tok, i). split; [done|].
  by apply elem_of_map_to_list.
Qed.

Lemma act_keeps_heartbeat_reported i r s w :
  act_inv w -> heartbeat_reported i r w.(w_state) = Some s -> act_inv (set_state s w).
Proof.
  intros Hi Hs. unfold heartbeat_reported in Hs.
  destruct (finish_report i r _) as [[h cs]|] eqn:Hf; [|done]. simplify_eq/=.
  assert (hbm_shutdown h = hbm_shutdown (wat_heartbeat_manager (w_state w))) as Hsd.
  { unfold finish_report in Hf. repeat case_match; by simplify_eq. }
  frame; try apply Hi.
  - unfold ends_in_order. cbn. rewrite Hsd. apply Hi.
  - destruct (ai_heartbeats _ Hi) as (t & o & Ht & Hr & Hx). exists t, o. split; [done|].
    split; [by eapply hb_reported|done].
Qed.

Lemma act_keeps_heartbeat_woken i s w :
  act_inv w -> heartbeat_woken i w.(w_state) = Some s -> act_inv (set_state s w).
Proof.
  intros Hi Hs. unfold heartbeat_woken in Hs.
  destruct (cancel_sleep i _) as [h|] eqn:Hf; [|done]. simplify_eq/=.
  assert (hbm_shutdown h = hbm_shutdown (wat_heartbeat_manager (w_state w))) as Hsd.
  { unfold cancel_sleep in Hf. repeat case_match; by simplify_eq. }
  frame; try apply Hi.
  - unfold ends_in_order. cbn. rewrite Hsd. apply Hi.
  - apply refined_step; [apply Hi|]. intros t o Ht Hr _. by eapply hb_cancelled.
Qed.

Lemma act_inv_now now w :
  act_inv w -> (w.(w_now) <= now)%Z -> act_inv (set_now now w).
Proof.
  intros Hi Hle. pose proof Hi as [Hc Hx Hr He Ht Hf Hw (t & o & Hto & Hh)].
  constructor; try done. exists t, o. cbn. split; [lia|done].
Qed.

(** A step of the heartbeat manager that takes time. *)
Lemma act_keeps_heartbeat now h w :
  act_inv w -> (w.(w_now) < now)%Z ->
  hbm_shutdown h = hbm_shutdown w.(w_state).(wat_heartbeat_manager) ->
  (forall t o, (t < now)%Z -> hb_reach t o w.(w_state).(wat_heartbeat_manager) ->
     exists o', hb_reach now o' h /\ o'.(ob_evict_sent) = o.(ob_evict_sent)) ->
  act_inv (set_now now (set_state (with_heartbeats h w.(w_state)) w)).
Proof.
  intros Hi Hlt Hsd Hh. pose proof (act_inv_now now w Hi ltac:(lia)) as Hi'.
  change (act_inv (set_state (with_heartbeats h (set_now now w).(w_state)) (set_now now w))).
  apply (inv_frame _ _ Hi'); try done; try apply Hi.
  - unfold ends_in_order. cbn. rewrite Hsd. apply Hi.
  - destruct (ai_heartbeats _ Hi) as (t & o & Ht & Hr & Hx).
    destruct (Hh t o ltac:(lia) Hr) as (o' & Hr' & He). exists now, o'. cbn.
    split; [lia|]. split; [done|]. by rewrite He.
Qed.

Lemma act_keeps_heartbeat_step now s w :
  act_inv w -> (w.(w_now) < now)%Z -> heartbeat_step now w.(w_state) = Some s ->
  act_inv (set_now now (set_state s w)).
Proof.
  intros Hi Hlt Hs. unfold heartbeat_step in Hs.
  destruct (stream_step now _) as [h|] eqn:Hf; [|done]. simplify_eq/=.
  pose proof Hf as Hst. unfold stream_step in Hf. case_match eqn:Hsd; [done|].
  destruct (hbm_incoming _) as [|a l] eqn:Hin; [done|].
  destruct (handle_action _ _ _) as [[st effs] act] eqn:Ha. simplify_eq.
  apply act_keeps_heartbeat; [done..|]. intros t o Ht Hr.
  eexists; split; [by eapply hb_stream|]. unfold observe. by rewrite Ha.
Qed.

Lemma act_keeps_heartbeat_slept now i s w :
  act_inv w -> (w.(w_now) < now)%Z -> heartbeat_slept now i w.(w_state) = Some s ->
  act_inv (set_now now (set_state s w)).
Proof.
  intros Hi Hlt Hs. unfold heartbeat_slept in Hs.
  destruct (finish_sleep now i _) as [h|] eqn:Hf; [|done]. simplify_eq/=.
  apply act_keeps_heartbeat; [done..| |].
  - unfold finish_sleep in Hf. repeat case_match; by simplify_eq.
  - intros t o Ht Hr. exists o. split; [by eapply hb_slept|done].
Qed.

(** *** Completions *)
Lemma act_keeps_complete tok status w :
  act_inv w -> act_inv (set_state (complete tok status w.(w_state)) w).
Proof.
  intros Hi. unfold complete.
  destruct (wat_outstanding_activity_tasks _ !! tok) as [info|] eqn:Hl; [|by frame].
  pose proof Hi as [[Hnd Hp] Hx Hr (E1 & E2 & E3 & E4) Ht Hf Hw (t & o & Hto & Hh & Hev)].
  assert (tokens_out (w_state w) ≡ₚ tok ::
    (map_to_list (delete tok (wat_outstanding_activity_tasks (w_state w)))).*1) as Hperm.
  { by apply keys_delete with info. }
  constructor.
  - split; [done|]. unfold tokens_out. cbn. rewrite Hp, Hperm, fmap_app. cbn.
    rewrite <- !app_assoc. cbn. by rewrite <- !Permutation_middle.
  - intros tok'. destruct (Hx tok') as (X1 & X2 & X3). split_and!; [done..|].
    cbn. intros i [_ Hli]%lookup_delete_Some. by apply X3.
  - unfold reported_once, flushing in *. cbn [set_state w_state wat_completing with_completing wat_calls].
    rewrite filter_app, (filter_cons_False _ _ []) by done. cbn. by rewrite app_nil_r.
  - unfold ends_in_order. cbn. split_and!; [done| |done|done].
    intros He. destruct (E2 He) as [? Hem]. by rewrite Hem in Hl.
  - intros h lt Hlt. cbn in Hlt |- *.
    assert (wat_timeouts (w_state w) !! h = Some lt /\ ri_local_timeouts_task info <> Some h)
      as [Hlt' Hne].
    { destruct (ri_local_timeouts_task info) as [j|]; simpl in Hlt; [|done].
      apply lookup_delete_Some in Hlt as [? ?]. split; [done|]. by intros [= ->]. }
    destruct (Ht _ _ Hlt') as [Hn (i & Hli & Hti)]. split; [lia|]. exists i. split; [|done].
    apply lookup_delete_Some. split; [|done]. intros ->. congruence.
  - unfold flushing in *. cbn. rewrite filter_app, (filter_cons_False _ _ []) by done. cbn. by rewrite app_nil_r.
  - intros _. right. cbn. destruct (ri_known_not_found info) eqn:Hk; [right|left];
      exists {| co_token := tok; co_status := status; co_info := info;
                co_on_complete := wat_next (w_state w); co_flushing := false |};
      (split; [|exact Hk]); clear; set_solver.
  - exists t, (send_evict tok o). cbn. split; [done|]. split; [apply hb_evict; [done|]|].
    + intros Hin%Hev. rewrite Hp, Hperm in Hnd. cbn in Hnd. apply NoDup_cons in Hnd as [Hn _].
      apply Hn, elem_of_app. by right.
    + rewrite fmap_app. cbn. intros tok' [->%elem_of_singleton|Hin%Hev]%elem_of_union;
        [clear; set_solver|clear -Hin; set_solver].
Qed.

Lemma completing_split (l : list Completing) i co co' :
  l !! i = Some co -> l ≡ₚ co :: delete i l /\ <[i := co']> l ≡ₚ co' :: delete i l.
Proof.
  intros Hl. split; [by apply delete_Permutation|].
  rewrite insert_take_drop by by eapply lookup_lt_Some.
  rewrite delete_take_drop. by rewrite <- Permutation_middle.
Qed.

Lemma calls_done co l d :
  co.(co_flushing) = negb co.(co_info).(ri_known_not_found) ->
  omap call_of (filter is_flushing (co :: l) ++ d) ≡ₚ
  omap call_of (filter is_flushing l ++ co :: d).
Proof.
  intros Hk. destruct (ri_known_not_found (co_info co)) eqn:Hkn; simpl in Hk.
  - rewrite filter_cons_False by (unfold is_flushing; congruence).
    rewrite !omap_app. cbn.
    assert (call_of co = None) as -> by (unfold call_of; by rewrite Hkn). done.
  - rewrite filter_cons_True by done. cbn [app]. by rewrite Permutation_middle.
Qed.

Lemma calls_flushing co co' l d :
  co.(co_flushing) = false -> co'.(co_flushing) = true ->
  omap call_of (filter is_flushing (co' :: l) ++ d) =
  option_list (call_of co') ++ omap call_of (filter is_flushing (co :: l) ++ d).
Proof.
  intros H1 H2. rewrite filter_cons_True by done.
  rewrite filter_cons_False by (unfold is_flushing; congruence). cbn. by case_match.
Qed.

(** A completion ends: it called the server, or the server did not know the
    activity. *)
Lemma act_inv_done w i co waiting :
  act_inv w -> w.(w_state).(wat_completing) !! i = Some co ->
  co.(co_flushing) = negb co.(co_info).(ri_known_not_found) ->
  (waiting = true -> co.(co_info).(ri_known_not_found) = true /\ w.(w_state).(wat_waiting) = true) ->
  let s := with_completing (delete i w.(w_state).(wat_completing)) w.(w_state).(wat_calls)
             w.(w_state) in
  act_inv (add_done co (set_state
    (with_stream waiting s.(wat_stream_ended) s.(wat_poll_returned_shutdown) s) w)).
Proof.
  intros Hi Hl Hk Hwait s.
  pose proof Hi as [[Hnd Hp] Hx Hr He Ht Hf Hw (t & o & Hto & Hh & Hev)].
  destruct (completing_split _ _ _ co Hl) as [Hsp _]. subst s.
  revert Hsp. generalize (delete i (wat_completing (w_state w))) as l. intros l Hsp.
  constructor; try done.
  - split; [done|]. unfold tokens_out in *. cbn. rewrite Hp, Hsp. cbn.
    by rewrite <- !Permutation_middle.
  - unfold reported_once, flushing in *. cbn [add_done set_state w_state w_done with_stream
      with_completing wat_completing wat_calls]. rewrite Hr, Hsp. by apply calls_done.
  - intros co' Hco'. apply Hf. unfold flushing in *. cbn in Hco'. rewrite Hsp.
    apply list_elem_of_filter in Hco' as [? Hin]. apply list_elem_of_filter. split; [done|].
    apply elem_of_cons. by right.
  - intros Hwt. destruct (Hwait Hwt) as [Hkn _]. right. right. exists co. split; [|done].
    cbn. clear. set_solver.
  - exists t, o. split; [done|]. split; [done|]. intros tok Htok%Hev. cbn.
    rewrite Hsp in Htok. cbn in Htok. clear -Htok. set_solver.
Qed.

Lemma act_keeps_evicted i co s w :
  act_inv w -> w.(w_state).(wat_completing) !! i = Some co ->
  complete_evicted i w.(w_state) = Some s ->
  act_inv (if co.(co_info).(ri_known_not_found) then add_done co (set_state s w)
           else set_state s w).
Proof.
  intros Hi Hl Hs. unfold complete_evicted in Hs. rewrite Hl in Hs. simpl in Hs.
  case_match eqn:Hb; [done|]. apply orb_false_iff in Hb as [Hfl _].
  destruct (ri_known_not_found (co_info co)) eqn:Hk; simplify_eq.
  { apply (act_inv_done w i co (wat_waiting (w_state w))); [done..| |done]. by rewrite Hk. }
  pose proof Hi as [[Hnd Hp] Hx Hr He Ht Hf Hw (t & o & Hto & Hh & Hev)].
  set (co' := {| co_token := co_token co; co_status := co_status co; co_info := co_info co;
                 co_on_complete := co_on_complete co; co_flushing := true |}).
  destruct (completing_split _ _ _ co' Hl) as [Hsp Hsp']. revert Hsp Hsp'.
  generalize (delete i (wat_completing (w_state w))) as l.
  generalize (<[i := co']> (wat_completing (w_state w))) as l'. intros l' l Hsp Hsp'.
  constructor; try done.
  - split; [done|]. unfold tokens_out in *. cbn. by rewrite Hp, Hsp, Hsp'.
  - unfold reported_once, flushing in *. cbn [set_state w_state w_done with_completing
      wat_completing wat_calls]. rewrite Hr, Hsp, Hsp'. rewrite (calls_flushing co co') by done.
    unfold call_of at 2. cbn. by rewrite Hk.
  - intros co2 Hco2. unfold flushing in *. cbn in Hco2. rewrite Hsp' in Hco2.
    rewrite filter_cons_True in Hco2 by done. apply elem_of_cons in Hco2 as [->|Hin]; [done|].
    apply Hf. rewrite Hsp, filter_cons_False by (unfold is_flushing; congruence). done.
  - intros Hwt. destruct (Hw Hwt) as [?|Hor]; [by left|]. right. left. exists co'.
    split; [|done]. cbn. rewrite Hsp'. apply elem_of_cons. by left.
  - exists t, o. split; [done|]. split; [done|]. intros tok Htok%Hev. cbn.
    rewrite Hsp in Htok. rewrite Hsp'. done.
Qed.

Lemma act_keeps_reported i co s w :
  act_inv w -> w.(w_state).(wat_completing) !! i = Some co ->
  complete_reported i w.(w_state) = Some s -> act_inv (add_done co (set_state s w)).
Proof.
  intros Hi Hl Hs. unfold complete_reported in Hs. rewrite Hl in Hs. simpl in Hs.
  case_match eqn:Hfl; [|done]. simplify_eq. apply act_inv_done; [done..| |done].
  rewrite (ai_flushing _ Hi); [done|]. unfold flushing. apply list_elem_of_filter.
  split; [done|]. by eapply list_elem_of_lookup_2.
Qed.

(** *** Polls *)
Lemma tokens_out_lookup s tok i :
  s.(wat_outstanding_activity_tasks) !! tok = Some i -> tok ∈ tokens_out s.
Proof.
  intros Hl. apply list_elem_of_fmap. exists (tok, i). split; [done|].
  by apply elem_of_map_to_list.
Qed.

Lemma outstanding_started w tok i :
  act_inv w -> w.(w_state).(wat_outstanding_activity_tasks) !! tok = Some i ->
  tok ∈ started w.(w_tasks).
Proof.
  intros Hi Hl%tokens_out_lookup. destruct (ai_conserved _ Hi) as [_ ->].
  apply elem_of_app. by left.
Qed.

(** The cancellation that is issued is the first. *)
Lemma cancelled_once_cancel w tok r d info' :
  cancelled_once w -> tok ∈ started w.(w_tasks) ->
  cancels_issued tok w.(w_tasks) = 0 -> info'.(ri_issued_cancel_to_lang) <> None ->
  cancelled_once (issue_task (Some (ActTask (cancel_from_ids tok r d)))
    (set_state (with_outstanding
      (<[tok := info']> w.(w_state).(wat_outstanding_activity_tasks)) w.(w_state)) w)).
Proof.
  intros Hx Hst Hz Hne tok'. destruct (Hx tok') as (X1 & X2 & X3).
  unfold cancels_issued, cnt in *. cbn -[String.eqb].
  destruct (String.eqb_spec tok tok') as [<-|Hn]; cbn.
  - rewrite Hz. split; [lia|]. split; [intros []; done|].
    intros i Hl. rewrite lookup_insert_eq in Hl. simplify_eq. naive_solver.
  - split; [done|]. split; [done|]. intros i Hl. rewrite lookup_insert_ne in Hl by done.
    by apply X3.
Qed.

Lemma act_keeps_cancel pc s t w :
  act_inv w -> pending_cancel pc w.(w_state) = (s, t) ->
  act_inv (issue_task (ActTask <$> t) (set_state s w)).
Proof.
  intros Hi Hs. unfold pending_cancel in Hs.
  destruct (wat_outstanding_activity_tasks _ !! _) as [info|] eqn:Hl;
    [destruct (ri_issued_cancel_to_lang info) as [r|] eqn:Hr|]; simplify_eq;
    [by destruct w| |by destruct w].
  pose proof Hi as [[Hnd Hp] Hx Hre (E1 & E2 & E3 & E4) Ht Hf Hw Hh].
  constructor; try done.
  - split; [done|]. unfold tokens_out in *. cbn. rewrite Hp. apply Permutation_app_tail.
    by rewrite (keys_insert _ _ _ _ Hl), (keys_delete _ _ _ Hl).
  - apply cancelled_once_cancel; [done|by eapply outstanding_started| |done].
    destruct (Hx (pac_task_token pc)) as (_ & _ & X3). by apply (X3 info Hl).
  - unfold ends_in_order. cbn. split_and!; [done| |done|done]. intros He.
    destruct (E2 He) as [? Hem]. by rewrite Hem in Hl.
  - intros h lt Hlt. destruct (Ht h lt Hlt) as [Hn (i & Hli & Hti)]. split; [done|].
    cbn. destruct (decide (pac_task_token pc = lt_token lt)) as [Heq|Hne].
    + rewrite Heq, lookup_insert_eq in *. eexists. split; [done|]. cbn. congruence.
    + rewrite lookup_insert_ne by done. by exists i.
  - intros Hwt. left. cbn. apply insert_non_empty.
Qed.

(** A fresh activity is outstanding, without a timeout task or with a new one. *)
Lemma act_inv_start w t tok info lt s :
  act_inv w -> start_token t = Some tok -> tok ∉ started w.(w_tasks) ->
  w.(w_state).(wat_stream_ended) = false ->
  info.(ri_issued_cancel_to_lang) = None ->
  (forall k, lt = Some k -> info.(ri_local_timeouts_task) = Some w.(w_state).(wat_next) /\
                            k.(lt_token) = tok) ->
  s.(wat_outstanding_activity_tasks) =
    <[tok := info]> w.(w_state).(wat_outstanding_activity_tasks) ->
  s.(wat_completing) = w.(w_state).(wat_completing) ->
  s.(wat_calls) = w.(w_state).(wat_calls) ->
  s.(wat_heartbeat_manager) = w.(w_state).(wat_heartbeat_manager) ->
  s.(wat_timeouts) = from_option (fun k => <[w.(w_state).(wat_next) := k]>) id lt
                       w.(w_state).(wat_timeouts) ->
  s.(wat_next) = (w.(w_state).(wat_next) + from_option (fun _ => 2) 0 lt)%N ->
  ends_in_order s ->
  act_inv (issue_task (Some (ActTask t)) (set_state s w)).
Proof.
  intros Hi Hst Hfr Hen Hinf Hlt Hout Hco Hcalls Hhb Htm Hnx He.
  pose proof Hi as [[Hnd Hp] Hx Hre _ Ht Hf Hw Hh].
  assert (w.(w_state).(wat_outstanding_activity_tasks) !! tok = None) as Hno.
  { apply eq_None_not_Some. intros [i Hl]. by eapply Hfr, outstanding_started. }
  assert (started (t :: w.(w_tasks)) = tok :: started w.(w_tasks)) as Hsta.
  { unfold started. cbn. by rewrite Hst. }
  constructor.
  - unfold conserved, tokens_out in *. cbn [issue_task set_state w_tasks w_state w_done].
    rewrite Hco, Hout, Hsta.
    split; [by constructor|]. rewrite map_to_list_insert by done. cbn. by rewrite Hp.
  - intros tok'. destruct (Hx tok') as (X1 & X2 & X3). cbn [issue_task set_state w_tasks w_state].
    assert (cancels_issued tok' (t :: w_tasks w) = cancels_issued tok' (w_tasks w)) as ->.
    { unfold start_token, cancels_issued, cnt in *. cbn. unfold is_cancel_of at 1.
      by repeat case_match. }
    rewrite Hsta. split; [done|].
    split; [intros [_ Hnin]%not_elem_of_cons; by apply X2|]. rewrite Hout. intros i Hl.
    destruct (decide (tok = tok')) as [<-|Hne].
    + rewrite lookup_insert_eq in Hl. simplify_eq. rewrite X2 by done. done.
    + rewrite lookup_insert_ne in Hl by done. by apply X3.
  - unfold reported_once, flushing in *. cbn [issue_task set_state w_state w_done].
    by rewrite Hcalls, Hco.
  - done.
  - intros h k Hk. cbn in *. rewrite Htm in Hk. rewrite Hnx, Hout.
    assert ((lt = Some k /\ h = wat_next (w_state w)) \/ wat_timeouts (w_state w) !! h = Some k)
      as [[-> ->]|Hold].
    { destruct lt; simpl in Hk; [|by right]. apply lookup_insert_Some in Hk. destruct Hk as [[<- ->]|[_ Hk]]; [by left|by right]. }
    + destruct (Hlt k eq_refl) as [Hti Htk]. cbn. split; [lia|]. exists info.
      by rewrite Htk, lookup_insert_eq.
    + destruct (Ht _ _ Hold) as [Hn (i & Hli & Hti)]. split; [lia|]. exists i.
      rewrite lookup_insert_ne by congruence. done.
  - unfold flushing in *. cbn. by rewrite Hco.
  - intros _. left. cbn. rewrite Hout. apply insert_non_empty.
  - destruct Hh as (t' & o & Hh). exists t', o. cbn. by rewrite Hhb, Hco.
Qed.

Lemma act_keeps_start now resp s t w :
  act_inv w -> pending_start c now resp w.(w_state) = Ok (s, t) ->
  w.(w_state).(wat_stream_ended) = false ->
  fresh_start (Some (ActTask t)) w.(w_tasks) ->
  act_inv (issue_task (Some (ActTask t)) (set_state s w)).
Proof.
  intros Hi Hs Hen Hfr. unfold pending_start in Hs. bind_Ok. simplify_eq.
  assert (start_token (start_from_poll_resp resp) = Some (par_task_token resp)) as Hst.
  { unfold start_from_poll_resp. by destruct (from_option _ _ _). }
  specialize (Hfr _ Hst).
  assert (forall out cs m n, ends_in_order (with_timeouts m n (with_cancels cs
    (with_outstanding out (w_state w))))) as Hends.
  { intros. destruct (ai_ends _ Hi) as (E1 & E2 & E3 & E4). split_and!; try done.
    cbn. by rewrite Hen. }
  destruct (wat_should_issue_immediate_cancel (w_state w)) eqn:Him; simplify_eq.
  { eapply (act_inv_start w _ _ (RemoteInFlightActInfo_new resp) None);
      try done; [symmetry; apply N.add_0_r|apply Hends]. }
  destruct (timeout_at resp) as [[hb d]|] eqn:Hta; simplify_eq.
  - bind_Ok. simplify_eq. eapply (act_inv_start w _ _ _ (Some _)); try done;
      [done|by intros k [= <-]|apply Hends].
  - eapply (act_inv_start w _ _ (RemoteInFlightActInfo_new resp) None);
      try done; [symmetry; apply N.add_0_r|apply Hends].
Qed.

Lemma act_keeps_poll polled s r w :
  act_inv w -> poll c w.(w_now) polled w.(w_state) = Some (Ok (s, r)) ->
  fresh_start r w.(w_tasks) -> act_inv (issue_task r (set_state s w)).
Proof.
  intros Hi Hs Hfr. unfold poll in Hs. destruct (wat_stream_ended _) eqn:Hen.
  { simplify_eq. cbn. pose proof (ai_ends _ Hi) as (E1 & E2 & E3 & E4).
    frame; try apply Hi. unfold ends_in_order. cbn. auto. }
  destruct (wat_cancels _) as [|pc rest] eqn:Hcs.
  - destruct (merge_start_task_sources _ _) as [[m s1]|] eqn:Hm; [|done]. simpl in Hs.
    assert (act_inv (set_state s1 w) /\ wat_stream_ended s1 = false) as [Hi1 Hen1].
    { unfold merge_start_task_sources in Hm. destruct (wat_start_tasks_stream_complete _) eqn:Hsc; [done|].
      destruct (wat_eager _) as [|t l] eqn:He.
      - destruct polled; simplify_eq/=. by destruct w.
      - simplify_eq. split; [|done]. frame; try apply Hi. unfold ends_in_order. cbn.
        destruct (ai_ends _ Hi) as (_ & E2 & E). rewrite Hsc in E2 |- *. done. }
    destruct m as [code|resp]; simplify_eq; [done|].
    bind_Ok. destruct a as [s2 t]. simplify_eq.
    by apply (act_keeps_start _ _ _ _ (set_state s1 w)) in Ha.
  - destruct (pending_cancel _ _) as [s1 t] eqn:Hp. simplify_eq.
    apply (act_keeps_cancel pc s t (set_state (with_cancels rest (w_state w)) w)); [|done].
    frame; apply Hi.
Qed.

Lemma act_step_inv w w' : act_inv w -> act_step c w w' -> act_inv w'.
Proof.
  intros Hi [now Hle|polled s r Hp Hfr|s Hs|i co s Hl Hs|i co s Hl Hs|now s Hlt Hs|now i s Hlt Hs].
  - by apply act_inv_now.
  - by eapply act_keeps_poll.
  - destruct Hs; eauto using act_keeps_reset, act_keeps_elapsed, act_keeps_sources, act_keeps_wait,
      act_keeps_grace, act_keeps_shutdown, act_keeps_heartbeats_stopped, act_keeps_record,
      act_keeps_heartbeat_reported, act_keeps_heartbeat_woken, act_keeps_complete.
  - by eapply act_keeps_evicted.
  - by eapply act_keeps_reported.
  - by apply act_keeps_heartbeat_step.
  - by eapply act_keeps_heartbeat_slept.
Qed.

Lemma act_reach_inv w : act_reach c w -> act_inv w.
Proof.
  intros [now Hr]. pose proof (world_new_inv now) as Hi. revert Hi.
  induction Hr as [|w1 w2 w3 Hst _ IH]; [done|]. intros Hi. by apply IH, (act_step_inv w1).
Qed.
End preservation.

(** ** Guarantees *)
Section guarantees.
  Context `{WktTime} `{DashIter} (c : ATConfig).

(** C5 Every activity task handed to lang is tracked in exactly one place, as
    outstanding, being completed or done; lang is told at most once to cancel it, and
    never before its start; the server is called once for each completion that is
    being or was reported, with the request its status calls for, and not at all for an
    activity the server is known to have forgotten; and a local timeout task runs only
    for an outstanding activity. *)
Theorem activities_reported_once w :
  act_reach c w ->
  NoDup (started w.(w_tasks)) /\
  started w.(w_tasks) ≡ₚ
    tokens_out w.(w_state) ++ (co_token <$> w.(w_state).(wat_completing)) ++
    (co_token <$> w.(w_done)) /\
  (forall tok, cancels_issued tok w.(w_tasks) <= 1 /\
     (tok ∉ started w.(w_tasks) -> cancels_issued tok w.(w_tasks) = 0)) /\
  w.(w_state).(wat_calls) ≡ₚ omap call_of (flushing w.(w_state) ++ w.(w_done)) /\
  timeouts_tracked w.(w_state).
Proof.
  intros [[? ?] Hx Hr _ Ht _ _ _]%act_reach_inv. do 2 (split; [done|]). split; [|done].
  intros tok. by destruct (Hx tok) as (? & ? & _).
Qed.

(** C6 The heartbeat manager is used as its documentation requires: its state is one
    of its own runs, in which no activity is evicted twice and no heartbeat follows an
    eviction.  An activity that was evicted is not outstanding, and nothing is
    outstanding once the heartbeat manager is stopped, so no heartbeat is recorded with
    the channel's receiver gone. *)
Theorem heartbeat_contract_kept w :
  act_reach c w ->
  exists t o, (t <= w.(w_now))%Z /\ hb_reach t o w.(w_state).(wat_heartbeat_manager) /\
    (forall tok, tok ∈ o.(ob_evict_sent) ->
       w.(w_state).(wat_outstanding_activity_tasks) !! tok = None) /\
    (w.(w_state).(wat_heartbeat_manager).(hbm_shutdown) = true ->
       w.(w_state).(wat_outstanding_activity_tasks) = ∅).
Proof.
  intros [[Hnd Hp] _ _ (_ & E2 & E3 & E4) _ _ _ (t & o & Ht & Hr & Hev)]%act_reach_inv.
  exists t, o. do 2 (split; [done|]). split.
  - intros tok Htok%Hev. apply eq_None_not_Some. intros [i Hl%tokens_out_lookup].
    rewrite Hp in Hnd. apply NoDup_app in Hnd as (_ & Hnd & _). by apply (Hnd tok).
  - intros Hsd. by apply E2, E3, E4.
Qed.

End guarantees.

(** ** Executable runs *)
Section exec.
  Context `{WktTime} `{DashIter} (c : ATConfig).

Inductive event :=
| EvPoll (polled : option (sum Z PollActivityTaskQueueResponse))
| EvRecord (tok : string) (details : list Payload)
| EvComplete (tok : string) (status : ActivityExecutionResult_Status)
| EvHeartbeat (now : Z)
| EvHeartbeatReported (i : nat) (r : HeartbeatResponse)
| EvEvicted (i : nat)
| EvReported (i : nat)
| EvShutdown
| EvInternal (f : WorkerActivityTasks -> option WorkerActivityTasks)
    (ok : forall now s s', f s = Some s' -> internal c now s s').

Definition fresh_startb (r : option act_poll) (l : list ActivityTask) : bool :=
  match r with
  | Some (ActTask t) => from_option (fun tok => bool_decide (tok ∉ started l)) true (start_token t)
  | _ => true
  end.

Definition exec (e : event) (w : world) : option world :=
  let s := w.(w_state) in
  match e with
  | EvPoll polled =>
      match poll c w.(w_now) polled s with
      | Some (Ok (s, r)) =>
          if fresh_startb r w.(w_tasks) then Some (issue_task r (set_state s w)) else None
      | _ => None
      end
  | EvRecord tok d =>
      match record_heartbeat c tok d s with Ok s => Some (set_state s w) | _ => None end
  | EvComplete tok status => Some (set_state (complete tok status s) w)
  | EvHeartbeat now =>
      if (w.(w_now) <? now)%Z
      then s ← heartbeat_step now s; Some (set_now now (set_state s w)) else None
  | EvHeartbeatReported i r => s ← heartbeat_reported i r s; Some (set_state s w)
  | EvEvicted i =>
      co ← s.(wat_completing) !! i; s ← complete_evicted i s;
      Some (if co.(co_info).(ri_known_not_found) then add_done co (set_state s w)
            else set_state s w)
  | EvReported i =>
      co ← s.(wat_completing) !! i; s ← complete_reported i s; Some (add_done co (set_state s w))
  | EvShutdown => Some (set_state (shutdown s) w)
  | EvInternal f _ => s ← f s; Some (set_state s w)
  end.

Fixpoint exec_all (l : list event) (w : world) : option world :=
  match l with [] => Some w | e :: l => w ← exec e w; exec_all l w end.

Lemma exec_step e w w' : exec e w = Some w' -> act_step c w w'.
Proof.
  intros He. destruct e; simpl in He.
  - destruct (poll _ _ _ _) as [[[s r]| |]|] eqn:Hp; try done.
    destruct (fresh_startb r (w_tasks w)) eqn:Hf; [|done]. simplify_eq.
    apply (st_poll _ _ _ _ _ Hp). unfold fresh_start, fresh_startb in *.
    destruct r as [[t| |]|]; try done. intros tok Htok. rewrite Htok in Hf.
    by apply bool_decide_eq_true in Hf.
  - destruct (record_heartbeat _ _ _ _) eqn:Hr; simplify_eq. by eapply st_internal, in_record.
  - simplify_eq. apply st_internal, in_complete.
  - case_match; [|done]. destruct (heartbeat_step _ _) eqn:Hs; simplify_eq/=.
    apply st_heartbeat; [lia|done].
  - destruct (heartbeat_reported _ _ _) eqn:Hs; simplify_eq/=.
    by eapply st_internal, in_heartbeat_reported.
  - destruct (_ !! i) as [co|] eqn:Hl; [|done]. simpl in He.
    destruct (complete_evicted _ _) eqn:Hs; [|done]. simpl in He. injection He as <-.
    by apply (st_evicted _ _ i).
  - destruct (_ !! i) as [co|] eqn:Hl; [|done]. simpl in He.
    destruct (complete_reported _ _) eqn:Hs; [|done]. simpl in He. injection He as <-.
    by apply (st_reported _ _ i).
  - simplify_eq. apply st_internal, in_shutdown.
  - destruct (f _) eqn:Hs; simplify_eq/=. apply st_internal. by apply ok.
Qed.

Lemma exec_all_reach l now w : exec_all l (world_new now) = Some w -> act_reach c w.
Proof.
  intros He. exists now. revert He. generalize (world_new now) as w0.
  induction l as [|e l IH]; intros w0 He; simpl in He; [by simplify_eq|].
  destruct (exec e w0) as [w1|] eqn:H1; [|done]. eapply rtc_l; [by eapply exec_step|by apply IH].
Qed.
End exec.
