(* ===== verification/ActivityManagerExamples.v ===== *)
(** * Runs of the activity task manager

    Witnesses of its guarantees, and two shutdowns that never end: one waits for
    an activity whose completion does not wake it, the other stops the heartbeat
    manager while a completion waits for it. *)
From Stdlib Require Import ZArith Lia.
From stdpp Require Import base option list strings gmap.
From S2P Require Import Prelude TimeArith Flags Protos ProtoExt CoreProtos ActivityTasks.
From S2P Require Import HeartbeatManager HeartbeatFacts ActivityManager ActivityManagerFacts.

(** ** States nothing leads out of *)
Section stuck.
  Context `{WktTime} `{DashIter} (c : ATConfig).

(** The stream waits, nothing is outstanding or being completed, and nothing will
    start. *)
Record waits_in_vain (s : WorkerActivityTasks) : Prop := {
  wv_waiting : s.(wat_waiting) = true;
  wv_outstanding : s.(wat_outstanding_activity_tasks) = ∅;
  wv_completing : s.(wat_completing) = [];
  wv_starts : s.(wat_start_tasks_stream_complete) = true;
  wv_ended : s.(wat_stream_ended) = false;
  wv_polled : s.(wat_poll_returned_shutdown) = false;
  wv_shutdown : s.(wat_shutdown) <> SD_Heartbeats;
}.

(** Splits what an operation did into its cases. *)
Ltac op_cases H :=
  unfold mbind, option_bind in H; repeat (case_match; simplify_eq/=); simplify_eq/=.

Lemma waits_in_vain_internal now s s' :
  waits_in_vain s -> internal c now s s' -> waits_in_vain s'.
Proof.
  intros [W1 W2 W3 W4 W5 W6 W7] Hs. destruct Hs as
    [h ? Hs|h ? Hs|? Hs|? Hs|t ? Hs|? Hs|? Hs|? Hs|tok st|tok d ? Hs|i r ? Hs|i ? Hs| | |? Hs|? Hs].
  - unfold timeout_reset in Hs. op_cases Hs. by constructor.
  - unfold timeout_elapsed in Hs. op_cases Hs. by constructor.
  - unfold eager_close in Hs. case_match; simplify_eq. by constructor.
  - unfold starts_end in Hs. case_match; simplify_eq. by constructor.
  - unfold add_task in Hs. case_match; simplify_eq. by constructor.
  - unfold wait_outstanding in Hs. by rewrite W1, orb_true_r in Hs.
  - unfold grace_begin in Hs. repeat case_match; simplify_eq. by constructor.
  - unfold grace_elapsed in Hs. repeat case_match; simplify_eq. by constructor.
  - unfold complete. rewrite W2, lookup_empty. by constructor.
  - unfold record_heartbeat in Hs. by rewrite W2, lookup_empty in Hs.
  - unfold heartbeat_reported in Hs. destruct (finish_report _ _ _) as [[]|]; simplify_eq/=.
    by constructor.
  - unfold heartbeat_woken in Hs. op_cases Hs. by constructor.
  - by constructor.
  - constructor; try done. cbn. by destruct (wat_shutdown s).
  - unfold shutdown_locked in Hs. repeat case_match; simplify_eq. by constructor.
  - unfold shutdown_heartbeats in Hs. rewrite W6 in Hs. by case_match.
Qed.

Lemma waits_in_vain_step w w' :
  waits_in_vain w.(w_state) -> act_step c w w' -> waits_in_vain w'.(w_state).
Proof.
  intros W Hs. pose proof W as [W1 W2 W3 W4 W5 W6 W7].
  destruct Hs as [now _|polled s r Hp _|s Hs|i co s Hl _|i co s Hl _|now s _ Hs|now i s _ Hs].
  - done.
  - assert (w_state (issue_task r (set_state s w)) = s) as -> by (by destruct r as [[]|]).
    unfold poll, merge_start_task_sources in Hp. rewrite W5, W4 in Hp. case_match; [done|].
    unfold pending_cancel in Hp. cbn in Hp. rewrite W2, lookup_empty in Hp. simplify_eq.
    by constructor.
  - by eapply waits_in_vain_internal.
  - by rewrite W3 in Hl.
  - by rewrite W3 in Hl.
  - unfold heartbeat_step in Hs. op_cases Hs. by constructor.
  - unfold heartbeat_slept in Hs. op_cases Hs. by constructor.
Qed.

(** The heartbeat manager is stopped, and a completion waits for its answer. *)
Record stranded (co : Completing) (s : WorkerActivityTasks) : Prop := {
  sd_completing : s.(wat_completing) = [co];
  sd_evicting : co.(co_flushing) = false;
  sd_answer : co.(co_on_complete) ∉ s.(wat_heartbeat_manager).(hbm_notified);
  sd_stopped : s.(wat_heartbeat_manager).(hbm_shutdown) = true;
  sd_outstanding : s.(wat_outstanding_activity_tasks) = ∅;
  sd_ended : s.(wat_stream_ended) = true;
  sd_calls : s.(wat_calls) = [];
}.

Lemma stranded_heartbeats co s h :
  stranded co s -> h.(hbm_shutdown) = s.(wat_heartbeat_manager).(hbm_shutdown) ->
  h.(hbm_notified) = s.(wat_heartbeat_manager).(hbm_notified) ->
  stranded co (with_heartbeats h s).
Proof. intros [S1 S2 S3 S4 S5 S6 S7] Hs Hn. constructor; try done; cbn; congruence. Qed.

Lemma stranded_internal co now s s' : stranded co s -> internal c now s s' -> stranded co s'.
Proof.
  intros S Hs. pose proof S as [S1 S2 S3 S4 S5 S6 S7]. destruct Hs as
    [h ? Hs|h ? Hs|? Hs|? Hs|t ? Hs|? Hs|? Hs|? Hs|tok st|tok d ? Hs|i r ? Hs|i ? Hs| | |? Hs|? Hs].
  - unfold timeout_reset in Hs. op_cases Hs. by constructor.
  - unfold timeout_elapsed in Hs. op_cases Hs. by constructor.
  - unfold eager_close in Hs. case_match; simplify_eq. by constructor.
  - unfold starts_end in Hs. case_match; simplify_eq. by constructor.
  - unfold add_task in Hs. case_match; simplify_eq. by constructor.
  - unfold wait_outstanding in Hs. by rewrite S6, orb_true_r in Hs.
  - unfold grace_begin in Hs. rewrite S6, andb_false_r in Hs. by repeat case_match.
  - unfold grace_elapsed in Hs. rewrite S6 in Hs. repeat case_match; simplify_eq. lia.
  - unfold complete. by rewrite S5, lookup_empty.
  - unfold record_heartbeat in Hs. by rewrite S5, lookup_empty in Hs.
  - unfold heartbeat_reported, finish_report in Hs. repeat case_match; simplify_eq/=.
    by constructor.
  - unfold heartbeat_woken, cancel_sleep in Hs. repeat case_match; simplify_eq/=.
    by apply stranded_heartbeats.
  - by constructor.
  - by constructor.
  - unfold shutdown_locked in Hs. repeat case_match; simplify_eq. by constructor.
  - unfold shutdown_heartbeats in Hs. repeat case_match; simplify_eq. by constructor.
Qed.

Lemma stranded_step co w w' :
  stranded co w.(w_state) -> act_step c w w' -> stranded co w'.(w_state).
Proof.
  intros S Hs. pose proof S as [S1 S2 S3 S4 S5 S6 S7].
  destruct Hs as [now _|polled s r Hp _|s Hs|i co' s Hl Hs|i co' s Hl Hs|now s _ Hs|now i s _ Hs].
  - done.
  - assert (w_state (issue_task r (set_state s w)) = s) as -> by (by destruct r as [[]|]).
    unfold poll in Hp. rewrite S6 in Hp. simplify_eq. by constructor.
  - by eapply stranded_internal.
  - unfold complete_evicted in Hs. rewrite S1 in Hl, Hs. apply list_lookup_singleton_Some in Hl as [-> <-].
    simpl in Hs. rewrite S2, bool_decide_eq_true_2 in Hs by done. done.
  - unfold complete_reported in Hs. rewrite S1 in Hl, Hs. apply list_lookup_singleton_Some in Hl as [-> <-].
    simpl in Hs. by rewrite S2 in Hs.
  - unfold heartbeat_step, stream_step in Hs. by rewrite S4 in Hs.
  - unfold heartbeat_slept, finish_sleep in Hs. repeat case_match; simplify_eq/=.
    by apply stranded_heartbeats.
Qed.

Lemma steps_keep (P : WorkerActivityTasks -> Prop) w w' :
  (forall w1 w2, P w1.(w_state) -> act_step c w1 w2 -> P w2.(w_state)) ->
  P w.(w_state) -> rtc (act_step c) w w' -> P w'.(w_state).
Proof. intros HP Hw Hr. revert Hw. induction Hr; eauto. Qed.
End stuck.

Module ActivityExample.

#[local] Instance time : WktTime := example_time.
#[local] Instance iter : DashIter := fun m => (map_to_list m).*1.

Definition config : ATConfig :=
  {| max_heartbeat_throttle_interval := 60 * NANOS_PER_SEC;
     default_heartbeat_throttle_interval := 30 * NANOS_PER_SEC;
     grace_period := None; local_timeout_buffer := 5 * NANOS_PER_SEC |}.

Definition response (tok : string) : PollActivityTaskQueueResponse :=
  {| par_task_token := tok; par_workflow_namespace := "default"; par_workflow_type := None;
     par_workflow_execution := None; par_activity_type := None; par_activity_id := "1";
     par_header := None; par_input := None; par_heartbeat_details := None;
     par_scheduled_time := None; par_current_attempt_scheduled_time := None;
     par_started_time := None; par_attempt := 1; par_schedule_to_close_timeout := None;
     par_start_to_close_timeout := Some {| Duration_seconds := 60; Duration_nanos := 0 |};
     par_heartbeat_timeout := Some {| Duration_seconds := 10; Duration_nanos := 0 |};
     par_retry_policy := None; par_priority := None |}.

Definition succeeds : ActivityExecutionResult_Status :=
  ActivityExecutionResult_Completed {| ar_Success_result := None |}.

Definition ev_starts_end : event config := EvInternal config starts_end (in_starts_end config).
Definition ev_eager_close : event config := EvInternal config eager_close (in_eager_close config).
Definition ev_wait : event config := EvInternal config wait_outstanding (in_wait config).
Definition ev_locked : event config := EvInternal config shutdown_locked (in_locked config).
Definition ev_heartbeats_stopped : event config :=
  EvInternal config shutdown_heartbeats (in_heartbeats_stopped config).

(** An activity is started, heartbeats, and is completed. *)
Definition completed_run : list (event config) :=
  [EvPoll config (Some (inr (response "a"))); EvRecord config "a" []; EvHeartbeat config 1;
   EvHeartbeatReported config 0 (HeartbeatOk true false false); EvHeartbeat config 2;
   EvPoll config None; EvComplete config "a" succeeds; EvHeartbeat config 3; EvEvicted config 0;
   EvReported config 0].

(** The server has forgotten an activity, lang completes it while the stream
    waits. *)
Definition forgotten_run : list (event config) :=
  [EvPoll config (Some (inr (response "a"))); EvRecord config "a" []; EvHeartbeat config 1;
   EvHeartbeatReported config 0 HeartbeatNotFound; EvHeartbeat config 2; EvPoll config None;
   EvShutdown config; ev_locked; ev_eager_close; ev_starts_end; ev_wait;
   EvComplete config "a" succeeds; EvHeartbeat config 3; EvEvicted config 0].

(** Lang completes the last activity and the stream ends before the heartbeat
    manager has taken the eviction. *)
Definition overtaken_run : list (event config) :=
  [EvPoll config (Some (inr (response "a"))); EvShutdown config; ev_locked; ev_eager_close;
   ev_starts_end; EvComplete config "a" succeeds; ev_wait; EvPoll config None;
   ev_heartbeats_stopped].

(** The state after a run satisfies a test. *)
Lemma run_reaches l (test : world -> bool) :
  from_option test false (exec_all config l (world_new 0)) = true ->
  exists w, act_reach config w /\ test w = true.
Proof.
  destruct (exec_all config l (world_new 0)) as [w|] eqn:He; [|done]. simpl. intros Ht.
  exists w. split; [by eapply exec_all_reach|done].
Qed.

Lemma activities_reported_once_witness : exists w,
  act_reach config w /\ length w.(w_done) = 1 /\ length w.(w_tasks) = 2 /\
  w.(w_state).(wat_calls) ≡ₚ omap call_of (flushing w.(w_state) ++ w.(w_done)).
Proof.
  destruct (run_reaches completed_run (fun w =>
    bool_decide (length w.(w_done) = 1 /\ length w.(w_tasks) = 2))) as (w & Hr & Ht).
  { vm_compute. reflexivity. }
  exists w. apply bool_decide_eq_true in Ht as [? ?]. do 3 (split; [done|]).
  apply (activities_reported_once config w Hr).
Defined.

Lemma heartbeat_contract_kept_witness : exists w,
  act_reach config w /\ length w.(w_state).(wat_heartbeat_manager).(hbm_notified) = 2 /\
  exists t o, hb_reach t o w.(w_state).(wat_heartbeat_manager).
Proof.
  destruct (run_reaches completed_run (fun w => bool_decide
    (length w.(w_state).(wat_heartbeat_manager).(hbm_notified) = 2))) as (w & Hr & Ht).
  { vm_compute. reflexivity. }
  exists w. apply bool_decide_eq_true in Ht. do 2 (split; [done|]).
  destruct (heartbeat_contract_kept config w Hr) as (t & o & _ & Hh & _). by exists t, o.
Defined.


(** Shutdown may never end.  The completion of an activity the server had
    forgotten does not wake the task stream, though it removes the activity: after it,
    with nothing outstanding or being completed, no poll returns [ShutDown] and the call
    of [shutdown] does not come to stop the heartbeat manager, whatever follows. *)
Theorem forgotten_activity_hangs_shutdown : exists w,
  act_reach config w /\
  w.(w_state).(wat_shutdown) = SD_Poll /\
  w.(w_state).(wat_outstanding_activity_tasks) = ∅ /\ w.(w_state).(wat_completing) = [] /\
  forall w', rtc (act_step config) w w' ->
    w'.(w_state).(wat_poll_returned_shutdown) = false /\
    w'.(w_state).(wat_shutdown) <> SD_Heartbeats.
Proof.
  destruct (run_reaches forgotten_run (fun w => let s := w.(w_state) in
    s.(wat_waiting) && bool_decide (map_to_list s.(wat_outstanding_activity_tasks) = [])
    && bool_decide (length s.(wat_completing) = 0) && s.(wat_start_tasks_stream_complete)
    && negb s.(wat_stream_ended) && negb s.(wat_poll_returned_shutdown)
    && match s.(wat_shutdown) with SD_Poll => true | _ => false end)) as (w & Hr & Ht).
  { vm_compute. reflexivity. }
  exists w. split; [done|]. cbn zeta in Ht.
  repeat rewrite ?andb_true_iff, ?bool_decide_eq_true, ?negb_true_iff in Ht.
  destruct Ht as [[[[[[T1 T2] T3] T4] T5] T6] T7].
  apply nil_length_inv in T3. apply map_to_list_empty_iff in T2.
  assert (wat_shutdown (w_state w) = SD_Poll) as T8 by (by destruct (wat_shutdown _)).
  do 3 (split; [done|]). intros w' Hw.
  destruct (steps_keep config waits_in_vain w w') as [_ _ _ _ _ W6 W7]; [| |done|done].
  - apply waits_in_vain_step.
  - by constructor; rewrite ?T8.
Qed.

(** A completion may be lost.  When the stream ends between the removal of the last
    activity and the handling of its eviction, [shutdown] stops the heartbeat manager,
    whose answer never comes: the completion waits for ever and the server is not told. *)
Theorem shutdown_strands_completion : exists w co,
  act_reach config w /\ co.(co_token) = "a"%string /\ co.(co_status) = succeeds /\
  forall w', rtc (act_step config) w w' ->
    w'.(w_state).(wat_completing) = [co] /\ w'.(w_state).(wat_calls) = [].
Proof.
  destruct (run_reaches overtaken_run (fun w => let s := w.(w_state) in
    match s.(wat_completing) with
    | [co] => negb co.(co_flushing) && String.eqb co.(co_token) "a"
              && match co.(co_status) with
                 | ActivityExecutionResult_Completed {| ar_Success_result := None |} => true
                 | _ => false
                 end
    | _ => false
    end && bool_decide (s.(wat_heartbeat_manager).(hbm_notified) = [])
    && s.(wat_heartbeat_manager).(hbm_shutdown)
    && bool_decide (map_to_list s.(wat_outstanding_activity_tasks) = [])
    && s.(wat_stream_ended) && bool_decide (length s.(wat_calls) = 0))) as (w & Hr & Ht).
  { vm_compute. reflexivity. }
  cbn zeta in Ht. destruct (wat_completing _) as [|co []] eqn:Hco; try done.
  repeat rewrite ?andb_true_iff, ?bool_decide_eq_true, ?negb_true_iff in Ht.
  destruct Ht as [[[[[[[T1 T2%String.eqb_eq] T3] T4] T5] T6] T7] T8].
  apply nil_length_inv in T8. apply map_to_list_empty_iff in T6.
  exists w, co. do 2 (split; [done|]). split; [by destruct (co_status co) as [[[]]| | |]|].
  intros w' Hw. destruct (steps_keep config (stranded co) w w') as [S1 _ _ _ _ _ S7]; try done.
  - apply stranded_step.
  - constructor; try done. rewrite T4. apply not_elem_of_nil.
Qed.
End ActivityExample.
