(* ===== verification/DrivenWorkflow.v ===== *)
(** * The connection to lang (worker/workflow/driven_workflow.rs)

    Lang's commands as the workflow machines receive them, the jobs sent to
    lang, and the view of the workflow's search attributes; with the types of
    worker/workflow/mod.rs they use. *)
From Stdlib Require Import ZArith Lia.
From stdpp Require Import base option list strings gmap.
From S2P Require Import Prelude Flags Protos ProtoExt CoreProtos.

(** ** Commands from lang (worker/workflow/mod.rs) *)
Inductive WFCommandVariant :=
| NoCommandsFromLang
| AddActivity (a : ScheduleActivity)
| AddLocalActivity (a : ScheduleLocalActivity)
| RequestCancelActivityCmd (a : RequestCancelActivity)
| RequestCancelLocalActivityCmd (a : RequestCancelLocalActivity)
| AddTimer (a : StartTimer)
| CancelTimerCmd (a : CancelTimer)
| CompleteWorkflowCmd (a : CompleteWorkflowExecution)
| FailWorkflowCmd (a : FailWorkflowExecution)
| QueryResponse (a : QueryResult)
| ContinueAsNewCmd (a : ContinueAsNewWorkflowExecution)
| CancelWorkflowCmd (a : CancelWorkflowExecution)
| SetPatchMarkerCmd (a : SetPatchMarker)
| AddChildWorkflow (a : StartChildWorkflowExecution)
| CancelChild (a : CancelChildWorkflowExecution)
| RequestCancelExternalWorkflow (a : RequestCancelExternalWorkflowExecution)
| SignalExternalWorkflow (a : SignalExternalWorkflowExecution)
| CancelSignalWorkflowCmd (a : CancelSignalWorkflow)
| UpsertSearchAttributesCmd (a : UpsertWorkflowSearchAttributes)
| ModifyWorkflowPropertiesCmd (a : ModifyWorkflowProperties)
| UpdateResponseCmd (a : UpdateResponse)
| ScheduleNexusOperationCmd (a : ScheduleNexusOperation)
| RequestCancelNexusOperationCmd (a : RequestCancelNexusOperation).

Record WFCommand := {
  wfc_variant : WFCommandVariant;
  wfc_metadata : option UserMetadata;
}.

(** [TryFrom<WorkflowCommand> for WFCommand]; [None] is [EmptyWorkflowCommandErr]. *)
Definition WFCommandVariant_from (v : WorkflowCommandVariant) : WFCommandVariant :=
  match v with
  | WC_StartTimer s => AddTimer s
  | WC_CancelTimer s => CancelTimerCmd s
  | WC_ScheduleActivity s => AddActivity s
  | WC_RequestCancelActivity s => RequestCancelActivityCmd s
  | WC_CompleteWorkflowExecution c => CompleteWorkflowCmd c
  | WC_FailWorkflowExecution s => FailWorkflowCmd s
  | WC_RespondToQuery s => QueryResponse s
  | WC_ContinueAsNewWorkflowExecution s => ContinueAsNewCmd s
  | WC_CancelWorkflowExecution s => CancelWorkflowCmd s
  | WC_SetPatchMarker s => SetPatchMarkerCmd s
  | WC_StartChildWorkflowExecution s => AddChildWorkflow s
  | WC_RequestCancelExternalWorkflowExecution s => RequestCancelExternalWorkflow s
  | WC_SignalExternalWorkflowExecution s => SignalExternalWorkflow s
  | WC_CancelSignalWorkflow s => CancelSignalWorkflowCmd s
  | WC_CancelChildWorkflowExecution s => CancelChild s
  | WC_ScheduleLocalActivity s => AddLocalActivity s
  | WC_RequestCancelLocalActivity s => RequestCancelLocalActivityCmd s
  | WC_UpsertWorkflowSearchAttributes s => UpsertSearchAttributesCmd s
  | WC_ModifyWorkflowProperties s => ModifyWorkflowPropertiesCmd s
  | WC_UpdateResponse s => UpdateResponseCmd s
  | WC_ScheduleNexusOperation s => ScheduleNexusOperationCmd s
  | WC_RequestCancelNexusOperation s => RequestCancelNexusOperationCmd s
  end.

Definition WFCommand_try_from (c : WorkflowCommand) : option WFCommand :=
  match c.(WorkflowCommand_variant) with
  | Some v => Some {| wfc_variant := WFCommandVariant_from v;
                      wfc_metadata := c.(WorkflowCommand_user_metadata) |}
  | None => None
  end.

(** [WFCommandVariant::is_terminal]: the command ends the workflow. *)
Definition is_terminal (v : WFCommandVariant) : bool :=
  match v with
  | CompleteWorkflowCmd _ | FailWorkflowCmd _ | CancelWorkflowCmd _ | ContinueAsNewCmd _ => true
  | _ => false
  end.

Inductive CommandID :=
| CID_Timer (seq : Z)
| CID_Activity (seq : Z)
| CID_LocalActivity (seq : Z)
| CID_ChildWorkflowStart (seq : Z)
| CID_SignalExternal (seq : Z)
| CID_CancelExternal (seq : Z)
| CID_NexusOperation (seq : Z).

#[global] Instance CommandID_eq_dec : EqDecision CommandID.
Proof. solve_decision. Defined.

#[global] Instance CommandID_countable : Countable CommandID.
Proof.
  refine (inj_countable'
    (fun id => match id with
               | CID_Timer s => (0%nat, s) | CID_Activity s => (1%nat, s)
               | CID_LocalActivity s => (2%nat, s) | CID_ChildWorkflowStart s => (3%nat, s)
               | CID_SignalExternal s => (4%nat, s) | CID_CancelExternal s => (5%nat, s)
               | CID_NexusOperation s => (6%nat, s)
               end)
    (fun p => match p with
              | (0%nat, s) => CID_Timer s | (1%nat, s) => CID_Activity s
              | (2%nat, s) => CID_LocalActivity s | (3%nat, s) => CID_ChildWorkflowStart s
              | (4%nat, s) => CID_SignalExternal s | (5%nat, s) => CID_CancelExternal s
              | (_, s) => CID_NexusOperation s
              end) _).
  by intros [].
Defined.

(** [Debug] of a command id. *)
Definition CommandID_debug (id : CommandID) : string :=
  match id with
  | CID_Timer s => "Timer(" +:+ to_string s +:+ ")"
  | CID_Activity s => "Activity(" +:+ to_string s +:+ ")"
  | CID_LocalActivity s => "LocalActivity(" +:+ to_string s +:+ ")"
  | CID_ChildWorkflowStart s => "ChildWorkflowStart(" +:+ to_string s +:+ ")"
  | CID_SignalExternal s => "SignalExternal(" +:+ to_string s +:+ ")"
  | CID_CancelExternal s => "CancelExternal(" +:+ to_string s +:+ ")"
  | CID_NexusOperation s => "NexusOperation(" +:+ to_string s +:+ ")"
  end.

Record WorkflowStartedInfo := {
  wsi_workflow_task_timeout : option Z;
  wsi_memo : option Memo;
  wsi_search_attrs : option SearchAttributes;
  wsi_retry_policy : option RetryPolicy;
}.

(** [workflow_activation_job::Variant::is_local_activity_resolution]
    (sdk-core-protos/src/lib.rs). *)
Definition is_local_activity_resolution (v : JobVariant) : bool :=
  match v with
  | J_ResolveActivity ra => ra.(ResolveActivity_is_local)
  | _ => false
  end.

(** [From<OutgoingJob> for WorkflowActivationJob]; an outgoing job is its
    variant. *)
Definition OutgoingJob_into (v : JobVariant) : WorkflowActivationJob :=
  {| WorkflowActivationJob_variant := Some v |}.

(** ** The driven workflow *)
Module Driven.

(** [incoming_commands] holds the messages of the channel not yet received. *)
Record DrivenWorkflow := {
  started_attrs : option WorkflowStartedInfo;
  search_attribute_modifications : gmap string Payload;
  incoming_commands : list (list WFCommand);
  outgoing_wf_activation_jobs : list JobVariant;
}.

Definition new : DrivenWorkflow :=
  {| started_attrs := None; search_attribute_modifications := ∅; incoming_commands := [];
     outgoing_wf_activation_jobs := [] |}.

(** [Sender::send] on the channel of commands. *)
Definition send_commands (cmds : list WFCommand) (d : DrivenWorkflow) : DrivenWorkflow :=
  {| started_attrs := d.(started_attrs);
     search_attribute_modifications := d.(search_attribute_modifications);
     incoming_commands := d.(incoming_commands) ++ [cmds];
     outgoing_wf_activation_jobs := d.(outgoing_wf_activation_jobs) |}.

Definition send_job (job : JobVariant) (d : DrivenWorkflow) : DrivenWorkflow :=
  {| started_attrs := d.(started_attrs);
     search_attribute_modifications := d.(search_attribute_modifications);
     incoming_commands := d.(incoming_commands);
     outgoing_wf_activation_jobs := d.(outgoing_wf_activation_jobs) ++ [job] |}.

Definition start `{WktTime} (workflow_id : string) (randomness_seed : Z) (start_time : Timestamp)
    (attribs : WorkflowExecutionStartedEventAttributes) (d : DrivenWorkflow) : DrivenWorkflow :=
  let d := send_job (J_InitializeWorkflow
             (start_workflow_from_attribs attribs workflow_id randomness_seed start_time)) d in
  {| started_attrs := Some
       {| wsi_workflow_task_timeout :=
            attribs.(WorkflowExecutionStartedEv_workflow_task_timeout) ≫= duration_try_into;
          wsi_memo := attribs.(WorkflowExecutionStartedEv_memo);
          wsi_search_attrs := attribs.(WorkflowExecutionStartedEv_search_attributes);
          wsi_retry_policy := attribs.(WorkflowExecutionStartedEv_retry_policy) |};
     search_attribute_modifications := d.(search_attribute_modifications);
     incoming_commands := d.(incoming_commands);
     outgoing_wf_activation_jobs := d.(outgoing_wf_activation_jobs) |}.

Definition drain_jobs (d : DrivenWorkflow) : DrivenWorkflow * list WorkflowActivationJob :=
  ({| started_attrs := d.(started_attrs);
      search_attribute_modifications := d.(search_attribute_modifications);
      incoming_commands := d.(incoming_commands);
      outgoing_wf_activation_jobs := [] |},
   OutgoingJob_into <$> d.(outgoing_wf_activation_jobs)).

(** [try_recv], with the placeholder command when the channel is empty. *)
Definition fetch_workflow_iteration_output (d : DrivenWorkflow)
  : DrivenWorkflow * list WFCommand :=
  match d.(incoming_commands) with
  | cmds :: rest =>
      ({| started_attrs := d.(started_attrs);
          search_attribute_modifications := d.(search_attribute_modifications);
          incoming_commands := rest;
          outgoing_wf_activation_jobs := d.(outgoing_wf_activation_jobs) |}, cmds)
  | [] => (d, [{| wfc_variant := NoCommandsFromLang; wfc_metadata := None |}])
  end.

Definition search_attributes_update (update : gmap string Payload) (d : DrivenWorkflow)
  : DrivenWorkflow :=
  {| started_attrs := d.(started_attrs);
     search_attribute_modifications := update ∪ d.(search_attribute_modifications);
     incoming_commands := d.(incoming_commands);
     outgoing_wf_activation_jobs := d.(outgoing_wf_activation_jobs) |}.

Definition get_current_search_attributes (d : DrivenWorkflow) : gmap string Payload :=
  d.(search_attribute_modifications) ∪
  default ∅ (si ← d.(started_attrs); sa ← si.(wsi_search_attrs);
             Some sa.(SearchAttributes_indexed_fields)).

End Driven.
