(* ===== verification/Machines.v ===== *)
(** * The machines of a run (machines/mod.rs)

    The sum of the sixteen machine types, the dispatch of the
    [TemporalStateMachine] methods over it, and the map that holds the machines
    of a run. *)
From Stdlib Require Import ZArith Lia.
From stdpp Require Import base option list strings gmap.
From S2P Require Import Prelude Flags Protos ProtoExt CoreProtos Fsm TimerMachine.
From S2P Require Import ActivityMachine ChildWorkflowMachine NexusMachine.
From S2P Require Import LocalActivityMachine WorkflowTaskMachine UpdateMachine.
From S2P Require Import ExternalMachines TerminalMachines SideMachines.

(** ** Code the machines call and that is not part of the repository

    The codecs of prost and serde_json, the conversions of [prost_types] and the
    SipHash-1-3 of a string. *)
Class Externs := {
  ext_time :: WktTime;
  ext_patch_json :: Json PatchedMarkerData;
  ext_la_json :: Json LocalActivityMarkerData;
  ext_set_json :: Json (gset string);
  ext_update :: UpdateEncode;
  ext_request :: AnyRequest;
  sip_hash13 : string -> Z;
}.

(** ** The slot map

    [slotmap::SlotMap]: inserting chooses a key that is not in use, iteration is
    over the keys in use, in an order that is not specified. *)
Class SlotMap (K : Type) (S : Type -> Type) := {
  slot_empty : forall A, S A;
  slot_get : forall A, S A -> K -> option A;
  slot_insert : forall A, A -> S A -> K * S A;
  slot_update : forall A, K -> A -> S A -> S A;  (** assignment through [get_mut] *)
  slot_remove : forall A, K -> S A -> S A;
  slot_keys : forall A, S A -> list K;
}.
Arguments slot_empty {K S _ A}.
Arguments slot_get {K S _ A} m k.
Arguments slot_insert {K S _ A} a m.
Arguments slot_update {K S _ A} k a m.
Arguments slot_remove {K S _ A} k m.
Arguments slot_keys {K S _ A} m.

Class SlotMapLaws (K : Type) (S : Type -> Type) `{EqDecision K} `{SlotMap K S} := {
  slot_get_empty : forall A (k : K), slot_get (slot_empty (A := A)) k = None;
  slot_insert_fresh : forall A (a : A) m k m', slot_insert a m = (k, m') -> slot_get m k = None;
  slot_get_insert : forall A (a : A) m k m' (j : K),
    slot_insert a m = (k, m') ->
    slot_get m' j = if decide (j = k) then Some a else slot_get m j;
  slot_get_update : forall A (a : A) m (k j : K),
    slot_get (slot_update k a m) j =
    if decide (j = k) then slot_get m k ≫= (fun _ => Some a) else slot_get m j;
  slot_get_remove : forall A (m : S A) (k j : K),
    slot_get (slot_remove k m) j = if decide (j = k) then None else slot_get m j;
  slot_keys_get : forall A (m : S A) (k : K), k ∈ slot_keys m <-> is_Some (slot_get m k);
  slot_keys_NoDup : forall A (m : S A), NoDup (slot_keys m);
}.

(** A slot map: the entries in use and the next key. *)
Record counted_map (A : Type) := {
  cm_next : N;
  cm_entries : gmap N A;
}.
Arguments cm_next {A} c.
Arguments cm_entries {A} c.

(** The counter, if it is not in use. *)
Definition next_key {A} (m : counted_map A) : N :=
  match m.(cm_entries) !! m.(cm_next) with
  | None => m.(cm_next)
  | Some _ => fresh (dom m.(cm_entries))
  end.

Lemma next_key_fresh {A} (m : counted_map A) : m.(cm_entries) !! next_key m = None.
Proof.
  unfold next_key. destruct (m.(cm_entries) !! m.(cm_next)) eqn:E; [|done].
  apply not_elem_of_dom, is_fresh.
Qed.

#[global] Instance counted_slot_map : SlotMap N counted_map := {
  slot_empty A := {| cm_next := 0; cm_entries := ∅ |};
  slot_get A m k := m.(cm_entries) !! k;
  slot_insert A a m :=
    let k := next_key m in
    (k, {| cm_next := (k + 1)%N; cm_entries := <[k := a]> m.(cm_entries) |});
  slot_update A k a m :=
    {| cm_next := m.(cm_next);
       cm_entries := match m.(cm_entries) !! k with
                     | Some _ => <[k := a]> m.(cm_entries)
                     | None => m.(cm_entries)
                     end |};
  slot_remove A k m := {| cm_next := m.(cm_next); cm_entries := delete k m.(cm_entries) |};
  slot_keys A m := (map_to_list m.(cm_entries)).*1;
}.

#[global] Instance counted_slot_map_laws : SlotMapLaws N counted_map.
Proof.
  split; intros A.
  - intros k. apply lookup_empty.
  - simpl. intros a m k m' [= <- <-]. apply next_key_fresh.
  - simpl. intros a m k m' j [= <- <-]. simpl. rewrite lookup_insert.
    repeat case_decide; congruence.
  - simpl. intros a m k j. destruct (m.(cm_entries) !! k) eqn:E; simpl.
    + rewrite lookup_insert. repeat case_decide; congruence.
    + case_decide; congruence.
  - simpl. intros m k j. rewrite lookup_delete. repeat case_decide; congruence.
  - simpl. intros m k. rewrite list_elem_of_fmap. split.
    + intros [[k' a] [-> Hin]]. apply elem_of_map_to_list in Hin. by eexists.
    + intros [a Ha]. exists (k, a). split; [done|]. by apply elem_of_map_to_list.
  - simpl. intros m. apply NoDup_fst_map_to_list.
Qed.

(** The message of [expect] on a key that is not in use. *)
Definition missing_machine : string := "Machine must exist".

(** ** The sum of the machines *)
Section machines.
  Context {X : Externs}.

Inductive Machines :=
| M_Activity (m : machine Activity.ActivityMachine)
| M_CancelExternal (m : machine CancelExternal.CancelExternalMachine)
| M_CancelWorkflow (m : machine CancelWorkflowEnd.CancelWorkflowMachine)
| M_ChildWorkflow (m : machine Child.ChildWorkflowMachine)
| M_CompleteWorkflow (m : machine CompleteWorkflow.CompleteWorkflowMachine)
| M_ContinueAsNewWorkflow (m : machine ContinueAsNew.ContinueAsNewWorkflowMachine)
| M_FailWorkflow (m : machine FailWorkflow.FailWorkflowMachine)
| M_LocalActivity (m : machine LocalActivity.LocalActivityMachine)
| M_Patch (m : machine Patch.PatchMachine)
| M_SignalExternal (m : machine SignalExternal.SignalExternalMachine)
| M_Timer (m : machine Timer.TimerMachine)
| M_WorkflowTask (m : machine WFTask.WorkflowTaskMachine)
| M_UpsertSearchAttributes (m : machine UpsertSearchAttributes.UpsertSearchAttributesMachine)
| M_ModifyWorkflowProperties (m : machine ModifyProperties.ModifyWorkflowPropertiesMachine)
| M_Update (m : machine Update.UpdateMachine)
| M_NexusOperation (m : machine Nexus.NexusOperationMachine).

(** The machine types, for what is said about the type of a machine. *)
Inductive MachineKind :=
| KActivity | KCancelExternal | KCancelWorkflow | KChildWorkflow | KCompleteWorkflow
| KContinueAsNewWorkflow | KFailWorkflow | KLocalActivity | KPatch | KSignalExternal | KTimer
| KWorkflowTask | KUpsertSearchAttributes | KModifyWorkflowProperties | KUpdate | KNexusOperation.

Definition kind_of (ms : Machines) : MachineKind :=
  match ms with
  | M_Activity _ => KActivity
  | M_CancelExternal _ => KCancelExternal
  | M_CancelWorkflow _ => KCancelWorkflow
  | M_ChildWorkflow _ => KChildWorkflow
  | M_CompleteWorkflow _ => KCompleteWorkflow
  | M_ContinueAsNewWorkflow _ => KContinueAsNewWorkflow
  | M_FailWorkflow _ => KFailWorkflow
  | M_LocalActivity _ => KLocalActivity
  | M_Patch _ => KPatch
  | M_SignalExternal _ => KSignalExternal
  | M_Timer _ => KTimer
  | M_WorkflowTask _ => KWorkflowTask
  | M_UpsertSearchAttributes _ => KUpsertSearchAttributes
  | M_ModifyWorkflowProperties _ => KModifyWorkflowProperties
  | M_Update _ => KUpdate
  | M_NexusOperation _ => KNexusOperation
  end.

(** A call of a machine method, on the machine inside the sum. *)
Definition inject {SM E A} (c : machine SM -> Machines)
    (r : (machine SM * InternalFlags) * outcome E A)
  : (Machines * InternalFlags) * outcome E A :=
  ((c r.1.1, r.1.2), r.2).

Definition dispatch {E A}
    (f : forall SM, TemporalStateMachine SM -> M (machine SM * InternalFlags) E A)
  : M (Machines * InternalFlags) E A :=
  fun '(ms, fl) =>
    match ms with
    | M_Activity m => inject M_Activity (f _ _ (m, fl))
    | M_CancelExternal m => inject M_CancelExternal (f _ _ (m, fl))
    | M_CancelWorkflow m => inject M_CancelWorkflow (f _ _ (m, fl))
    | M_ChildWorkflow m => inject M_ChildWorkflow (f _ _ (m, fl))
    | M_CompleteWorkflow m => inject M_CompleteWorkflow (f _ _ (m, fl))
    | M_ContinueAsNewWorkflow m => inject M_ContinueAsNewWorkflow (f _ _ (m, fl))
    | M_FailWorkflow m => inject M_FailWorkflow (f _ _ (m, fl))
    | M_LocalActivity m => inject M_LocalActivity (f _ _ (m, fl))
    | M_Patch m => inject M_Patch (f _ _ (m, fl))
    | M_SignalExternal m => inject M_SignalExternal (f _ _ (m, fl))
    | M_Timer m => inject M_Timer (f _ _ (m, fl))
    | M_WorkflowTask m => inject M_WorkflowTask (f _ _ (m, fl))
    | M_UpsertSearchAttributes m => inject M_UpsertSearchAttributes (f _ _ (m, fl))
    | M_ModifyWorkflowProperties m => inject M_ModifyWorkflowProperties (f _ _ (m, fl))
    | M_Update m => inject M_Update (f _ _ (m, fl))
    | M_NexusOperation m => inject M_NexusOperation (f _ _ (m, fl))
    end.

Definition machines_handle_event (d : HistEventData)
  : M (Machines * InternalFlags) WFMachinesError (list MachineResponse) :=
  dispatch (fun SM _ => handle_event d).

Definition machines_handle_command (ct : CommandType)
  : M (Machines * InternalFlags) WFMachinesError (list MachineResponse) :=
  dispatch (fun SM _ => handle_command ct).

(** [is_final_state]; it unwraps the state. *)
Definition is_final_state {E} (ms : Machines) : outcome E bool :=
  match ms with
  | M_Activity m => has_reached_final_state m
  | M_CancelExternal m => has_reached_final_state m
  | M_CancelWorkflow m => has_reached_final_state m
  | M_ChildWorkflow m => has_reached_final_state m
  | M_CompleteWorkflow m => has_reached_final_state m
  | M_ContinueAsNewWorkflow m => has_reached_final_state m
  | M_FailWorkflow m => has_reached_final_state m
  | M_LocalActivity m => has_reached_final_state m
  | M_Patch m => has_reached_final_state m
  | M_SignalExternal m => has_reached_final_state m
  | M_Timer m => has_reached_final_state m
  | M_WorkflowTask m => has_reached_final_state m
  | M_UpsertSearchAttributes m => has_reached_final_state m
  | M_ModifyWorkflowProperties m => has_reached_final_state m
  | M_Update m => has_reached_final_state m
  | M_NexusOperation m => has_reached_final_state m
  end.

(** [Machines::was_cancelled_before_sent_to_server]. *)
Definition machines_was_cancelled {E} (ms : Machines) : outcome E bool :=
  match ms with
  | M_Activity m => Ok (Activity.was_cancelled_before_sent_to_server m)
  | M_ChildWorkflow m => Ok (Child.was_cancelled_before_sent_to_server m)
  | M_LocalActivity m => Ok (LocalActivity.was_cancelled_before_sent_to_server m)
  | M_SignalExternal m => SignalExternal.was_cancelled_before_sent_to_server m
  | M_Timer m => Ok (Timer.was_cancelled_before_sent_to_server m)
  | M_NexusOperation m => Ok (Nexus.was_cancelled_before_sent_to_server m)
  | _ => Ok false
  end.

End machines.
