(* ===== verification/MachinePanics.v ===== *)
(** * How machines fail

    Whatever a machine is asked, it does not panic with the message of a missing
    machine: that message only comes from the workflow machines' own lookups. *)
From Stdlib Require Import ZArith Lia.
From stdpp Require Import base option list strings gmap.
From S2P Require Import Prelude Flags Protos ProtoExt CoreProtos Fsm TimerMachine.
From S2P Require Import ActivityMachine ChildWorkflowMachine NexusMachine.
From S2P Require Import LocalActivityMachine WorkflowTaskMachine UpdateMachine.
From S2P Require Import ExternalMachines TerminalMachines SideMachines Machines.

Definition quiet {E A} (r : outcome E A) : Prop := r <> Panic missing_machine.

Lemma quiet_bind {E A B} (m : outcome E A) (f : A -> outcome E B) :
  quiet m -> (forall a, m = Ok a -> quiet (f a)) -> quiet (m ≫= f).
Proof. unfold quiet. destruct m; simpl; naive_solver congruence. Qed.

Lemma quiet_map_err {E F A} (g : E -> F) (m : outcome E A) : quiet m -> quiet (map_err g m).
Proof. unfold quiet. destruct m; simpl; congruence. Qed.

Lemma get_state_quiet {SM E} (m : machine SM) : quiet (E := E) (get_state m).
Proof. unfold quiet, get_state. by destruct (state m). Qed.

(** What a machine provides for the rest to hold. *)
Class QuietMachine (SM : StateMachine) `{TemporalStateMachine SM} := {
  hist_event_quiet : forall d, quiet (try_from_hist_event (SM := SM) d);
  handler_quiet : forall s ev h sh fl, SM.(transition) s ev = Some h ->
    (h sh fl).2 <> TrPanic missing_machine;
  adapt_quiet : forall m c i, quiet (adapt_response (SM := SM) m c i);
}.

Section quiet_machine.
  Context {SM : StateMachine} {HT : TemporalStateMachine SM} {HQ : QuietMachine SM}.

Lemma on_event_quiet ev st : quiet (on_event (SM := SM) ev st).2.
Proof using HQ.
  destruct st as [m fl]. unfold quiet, on_event. destruct (state m) as [s|]; [|done].
  destruct (transition SM s ev) as [h|] eqn:Ht; [|done].
  pose proof (handler_quiet s ev h (shared_state m) fl Ht) as Hq.
  destruct (h _ _) as [[sh' fl'] []]; simpl in *; congruence.
Qed.

Lemma process_machine_commands_quiet m cmds i : quiet (process_machine_commands (SM := SM) m cmds i).
Proof using HQ.
  induction cmds as [|c cmds IH]; simpl; [done|].
  apply quiet_bind; [apply adapt_quiet|]. intros a _. apply quiet_bind; [done|by intros].
Qed.

Lemma handle_command_quiet ct st : quiet (handle_command (SM := SM) ct st).2.
Proof using HQ.
  unfold handle_command. destruct (try_from_command_type ct) as [ev|]; [|done].
  pose proof (on_event_quiet ev st) as Hq.
  destruct (on_event ev st) as [[m fl] [c|[|e]|msg]]; simpl in *; try done.
  - apply process_machine_commands_quiet.
  - apply quiet_bind; [apply get_state_quiet|done].
  - unfold quiet in *. congruence.
Qed.

Lemma handle_event_quiet d st : quiet (handle_event (SM := SM) d st).2.
Proof using HQ.
  unfold handle_event. pose proof (hist_event_quiet (SM := SM) d) as Hd.
  destruct (try_from_hist_event d) as [ev| |msg]; [|done|simpl; unfold quiet in *; congruence].
  pose proof (on_event_quiet ev st) as Hq.
  destruct (on_event ev st) as [[m fl] [c|[|e]|msg]]; simpl in *; try done.
  - apply process_machine_commands_quiet.
  - apply quiet_bind; [apply get_state_quiet|done].
  - unfold quiet in *. congruence.
Qed.

End quiet_machine.

(** The cases of a function whose panics are all literal. *)
Ltac quiet_cases :=
  unfold quiet, missing_machine; simpl; try discriminate;
  repeat (match goal with
          | |- context [match ?x with _ => _ end] => destruct x
          end; simpl; try discriminate).

Lemma Command_from_quiet {E} a : quiet (Command_from (E := E) a).
Proof. destruct a; quiet_cases. Qed.

#[global] Instance Timer_quiet : QuietMachine Timer.TimerMachine.
Proof.
  split.
  - intros d. simpl. unfold Timer.event_from_history. quiet_cases.
  - intros s ev h sh fl Ht. destruct s, ev; simplify_eq/=; try done.
    unfold Timer.on_timer_fired. quiet_cases.
  - intros m [] i; [done|]. apply quiet_bind; [apply Command_from_quiet|done].
Qed.

#[global] Instance Activity_quiet : QuietMachine Activity.ActivityMachine.
Proof.
  split.
  - intros d. apply Activity.event_from_history_no_panic.
  - intros s ev h sh fl Ht. destruct s, ev; simplify_eq/=; try done;
      unfold Activity.on_activity_task_scheduled, Activity.created_on_canceled,
        Activity.canceled_on_started, Activity.canceled_on_completed,
        Activity.notify_if_not_already_cancelled, Activity.notify_lang_activity_cancelled,
        Activity.notify_lang_activity_timed_out,
        Activity.create_request_cancel_activity_task_command; quiet_cases.
  - intros m c i. apply Activity.adapt_no_panic.
Qed.

#[global] Instance CancelExternal_quiet : QuietMachine CancelExternal.CancelExternalMachine.
Proof.
  split.
  - intros d. simpl. unfold CancelExternal.event_from_history. quiet_cases.
  - intros s ev h sh fl Ht. destruct s, ev; simplify_eq/=; done.
  - intros m [] i; simpl; unfold CancelExternal.adapt_response; quiet_cases.
Qed.

#[global] Instance SignalExternal_quiet : QuietMachine SignalExternal.SignalExternalMachine.
Proof.
  split.
  - intros d. simpl. unfold SignalExternal.event_from_history. quiet_cases.
  - intros s ev h sh fl Ht. destruct s, ev; simplify_eq/=; done.
  - intros m [] i; simpl; unfold SignalExternal.adapt_response; quiet_cases.
Qed.

#[global] Instance CompleteWorkflow_quiet : QuietMachine CompleteWorkflow.CompleteWorkflowMachine.
Proof.
  split.
  - intros d. simpl. unfold CompleteWorkflow.event_from_history. quiet_cases.
  - intros s ev h sh fl Ht. destruct s, ev; simplify_eq/=; quiet_cases.
  - intros m c i. quiet_cases.
Qed.

#[global] Instance FailWorkflow_quiet : QuietMachine FailWorkflow.FailWorkflowMachine.
Proof.
  split.
  - intros d. simpl. unfold FailWorkflow.event_from_history. quiet_cases.
  - intros s ev h sh fl Ht. destruct s, ev; simplify_eq/=; quiet_cases.
  - intros m c i. quiet_cases.
Qed.

#[global] Instance CancelWorkflow_quiet : QuietMachine CancelWorkflowEnd.CancelWorkflowMachine.
Proof.
  split.
  - intros d. simpl. unfold CancelWorkflowEnd.event_from_history. quiet_cases.
  - intros s ev h sh fl Ht. destruct s, ev; simplify_eq/=; quiet_cases.
  - intros m c i. quiet_cases.
Qed.

#[global] Instance ContinueAsNew_quiet : QuietMachine ContinueAsNew.ContinueAsNewWorkflowMachine.
Proof.
  split.
  - intros d. simpl. unfold ContinueAsNew.event_from_history. quiet_cases.
  - intros s ev h sh fl Ht. destruct s, ev; simplify_eq/=; quiet_cases.
  - intros m c i. quiet_cases.
Qed.

#[global] Instance ModifyProperties_quiet :
  QuietMachine ModifyProperties.ModifyWorkflowPropertiesMachine.
Proof.
  split.
  - intros d. simpl. unfold ModifyProperties.event_from_history. quiet_cases.
  - intros s ev h sh fl Ht. destruct s, ev; simplify_eq/=; quiet_cases.
  - intros m c i. quiet_cases.
Qed.

#[global] Instance UpsertSearchAttributes_quiet :
  QuietMachine UpsertSearchAttributes.UpsertSearchAttributesMachine.
Proof.
  split.
  - intros d. simpl. unfold UpsertSearchAttributes.event_from_history. quiet_cases.
  - intros s ev h sh fl Ht. destruct s, ev; simplify_eq/=; quiet_cases.
  - intros m c i. quiet_cases.
Qed.

#[global] Instance Child_quiet : QuietMachine Child.ChildWorkflowMachine.
Proof.
  split.
  - intros d. simpl. unfold Child.event_from_history. quiet_cases.
  - intros s ev h sh fl Ht. destruct s, ev; simplify_eq/=; try done;
      unfold Child.cancelled_on_cancelled, Child.cancelled_on_completion,
        Child.on_start_child_workflow_execution_initiated, Child.created_on_cancelled,
        Child.on_child_workflow_execution_started, Child.started_on_failed,
        Child.started_on_timed_out, Child.started_on_terminated, Child.started_on_cancelled;
      quiet_cases.
  - intros m [] i; simpl; unfold Child.convert_payloads; quiet_cases.
Qed.

#[global] Instance Nexus_quiet : QuietMachine Nexus.NexusOperationMachine.
Proof.
  split.
  - intros d. simpl. unfold Nexus.event_from_history. quiet_cases.
  - intros s ev h sh fl Ht. destruct s, ev; simplify_eq/=; try done;
      unfold Nexus.created_on_cancelled, Nexus.scheduled_on_issue_cancel,
        Nexus.started_on_issue_cancel, Nexus.cancelled_on_completion; quiet_cases.
  - intros m [] i; simpl; quiet_cases.
Qed.

Section with_externs.
  Context {X : Externs}.

#[global] Instance WFTask_quiet : QuietMachine WFTask.WorkflowTaskMachine.
Proof.
  split.
  - intros d. simpl. unfold WFTask.event_from_history. quiet_cases.
  - intros s ev h sh fl Ht. destruct s, ev; simplify_eq/=; quiet_cases.
  - intros m [] i; simpl; unfold WFTask.adapt_response; quiet_cases.
Qed.

#[global] Instance Patch_quiet : QuietMachine Patch.PatchMachine.
Proof.
  split.
  - intros d. simpl. unfold Patch.event_from_history. quiet_cases.
  - intros s ev h sh fl Ht. destruct s, ev; simplify_eq/=; try done;
      unfold Patch.on_marker_recorded; quiet_cases.
  - intros m [] i.
Qed.

Lemma verify_marker_dat_quiet dat ok sh fl :
  ok <> TrPanic missing_machine ->
  (LocalActivity.verify_marker_dat dat ok sh fl).2 <> TrPanic missing_machine.
Proof.
  intros Hok. unfold LocalActivity.verify_marker_dat.
  assert (quiet (LocalActivity.verify_marker_data_matches sh dat fl).2) as Hq.
  { unfold LocalActivity.verify_marker_data_matches. destruct (_ =? _)%Z; [|done].
    destruct (try_use _ _ _) as [fl' use]. quiet_cases. }
  destruct (LocalActivity.verify_marker_data_matches sh dat fl) as [fl' []]; simpl in *;
    unfold quiet in *; congruence.
Qed.

#[global] Instance LocalActivity_quiet : QuietMachine LocalActivity.LocalActivityMachine.
Proof.
  split.
  - intros d. simpl. unfold LocalActivity.event_from_history. quiet_cases.
  - intros s ev h sh fl Ht. destruct s, ev; simplify_eq/=; try done;
      try (apply verify_marker_dat_quiet; by try case_match).
    + unfold LocalActivity.notified_on_marker_recorded.
      destruct (_ && _); [done|]. destruct (_ && _); [done|]. by apply verify_marker_dat_quiet.
    + unfold LocalActivity.recorded_on_no_wait_cancel. by case_decide.
  - intros m [] i; simpl; quiet_cases.
Qed.

Lemma build_msg_quiet m id msg : quiet (Update.build_msg m id msg).
Proof.
  apply quiet_bind; [|done]. apply quiet_map_err. destruct msg; simpl; unfold pack_any; quiet_cases.
Qed.

Lemma build_command_msg_quiet m id msg : quiet (Update.build_command_msg m id msg).
Proof.
  apply quiet_bind; [apply build_msg_quiet|]. intros a _.
  apply quiet_bind; [apply Command_from_quiet|done].
Qed.

#[global] Instance Update_quiet : QuietMachine Update.UpdateMachine.
Proof.
  split.
  - intros d. simpl. unfold Update.event_from_history. quiet_cases.
  - intros s ev h sh fl Ht. destruct s, ev; simplify_eq/=; done.
  - intros m [] i; simpl; try apply build_command_msg_quiet.
    apply quiet_bind; [apply build_msg_quiet|done].
Qed.

End with_externs.
