(* ===== verification/MachineCalls.v ===== *)
(** * Calls of machines

    The calls the workflow machines make of a machine keep its type and do not
    panic with the message of a missing machine. *)
From Stdlib Require Import ZArith Lia.
From stdpp Require Import base option list strings gmap.
From S2P Require Import Prelude Flags Protos ProtoExt CoreProtos Fsm TimerMachine.
From S2P Require Import ActivityMachine ChildWorkflowMachine NexusMachine.
From S2P Require Import LocalActivityMachine WorkflowTaskMachine UpdateMachine.
From S2P Require Import ExternalMachines TerminalMachines SideMachines Machines.
From S2P Require Import MachinePanics.

#[local] Arguments on_event : simpl never.

(** [get_state_quiet] at the machine of the goal. *)
Ltac state_quiet :=
  match goal with
  | |- context [@get_state ?SM ?E ?m] => exact (get_state_quiet (SM := SM) (E := E) m)
  end.

Section with_externs.
  Context {X : Externs}.

(** ** The sum of the machines *)

(** A method of a machine in the sum keeps its type and is quiet. *)
Definition gentle {E A} (f : M (Machines * InternalFlags) E A) : Prop :=
  forall ms fl, kind_of (f (ms, fl)).1.1 = kind_of ms /\ quiet (f (ms, fl)).2.

Lemma handle_event_gentle d : gentle (machines_handle_event d).
Proof. intros [] fl; (split; [done|]); apply handle_event_quiet. Qed.

Lemma handle_command_gentle ct : gentle (machines_handle_command ct).
Proof. intros [] fl; (split; [done|]); apply handle_command_quiet. Qed.

Lemma is_final_state_quiet {E} ms : quiet (is_final_state (E := E) ms).
Proof. destruct ms; (apply quiet_bind; [state_quiet|done]). Qed.

Lemma machines_was_cancelled_quiet {E} ms : quiet (machines_was_cancelled (E := E) ms).
Proof.
  destruct ms; try done. apply quiet_bind; [|done].
  state_quiet.
Qed.

(** ** Cancellations *)

(** The cases of a call of [on_event]; the panic is not the missing machine. *)
Ltac on_event_cases :=
  cbv beta;
  match goal with
  | |- context [@on_event ?SM ?e ?st] =>
      let Hq := fresh "Hq" in
      pose proof (on_event_quiet (SM := SM) e st) as Hq;
      destruct (@on_event SM e st) as [[? ?] [?c|?err|?msg]]; simpl in *;
      [clear Hq| |unfold quiet in *; simpl in *; first [congruence|done]]
  end.

(** The cases of an unwrapped state. *)
Ltac get_state_cases :=
  match goal with
  | |- context [@get_state ?SM ?E ?m] =>
      let Hq := fresh "Hq" in
      pose proof (get_state_quiet (SM := SM) (E := E) m) as Hq;
      destruct (@get_state SM E m) as [?s|?err|?msg]; simpl in *;
      [clear Hq|done|unfold quiet in *; simpl in *; congruence]
  end.

Lemma timer_cancel_quiet st : quiet (Timer.cancel st).2.
Proof.
  unfold Timer.cancel, mbind, M_bind, lift, mret, M_ret, panic. on_event_cases; [|done].
  destruct (last c) as [[|a]|]; [quiet_cases| |done].
  pose proof (Command_from_quiet (E := MachineError WFMachinesError) a) as Ha.
  unfold quiet in *. destruct (Command_from a); simpl in *; congruence.
Qed.

Lemma activity_cancel_responses_quiet sh cmds : quiet (Activity.cancel_responses sh cmds).
Proof.
  induction cmds as [|c cmds IH]; simpl; [done|]. apply quiet_bind; [by destruct c|].
  intros r _. by apply quiet_bind.
Qed.

Lemma activity_cancel_quiet st : quiet (Activity.cancel st).2.
Proof.
  destruct st as [m fl]. unfold Activity.cancel. get_state_cases.
  destruct s; try done; (on_event_cases; [apply activity_cancel_responses_quiet|done]).
Qed.

Lemma child_cancel_responses_quiet m cmds : quiet (Child.cancel_responses m cmds).
Proof.
  induction cmds as [|c cmds IH]; simpl; [done|]. apply quiet_bind.
  - destruct c; try done; apply quiet_map_err, (adapt_quiet (SM := Child.ChildWorkflowMachine)).
  - intros r _. by apply quiet_bind.
Qed.

Lemma child_cancel_quiet reason st : quiet (Child.cancel reason st).2.
Proof.
  unfold Child.cancel. on_event_cases; [apply child_cancel_responses_quiet|done].
Qed.

Lemma nexus_cancel_quiet st : quiet (Nexus.cancel st).2.
Proof.
  unfold Nexus.cancel. on_event_cases; [|done].
  apply quiet_map_err, process_machine_commands_quiet.
Qed.

Lemma signal_cancel_quiet st : quiet (SignalExternal.cancel st).2.
Proof. unfold SignalExternal.cancel. on_event_cases; [|done]. by destruct (head c) as [[]|]. Qed.

Lemma la_cancel_quiet st : quiet (LocalActivity.cancel st).2.
Proof.
  destruct st as [m fl]. unfold LocalActivity.cancel. on_event_cases; [|done].
  apply quiet_map_err, process_machine_commands_quiet.
Qed.

(** ** Local activity methods *)

Lemma encountered_quiet st : quiet (LocalActivity.encountered_non_replay_wft st).2.
Proof.
  destruct st as [m fl]. unfold LocalActivity.encountered_non_replay_wft. get_state_cases.
  destruct s; try done. on_event_cases.
  - destruct (last c) as [r|]; [|done]. by destruct (LocalActivity.adapt_response _ r None).
  - destruct err; [|done]. apply quiet_bind; [state_quiet|done].
Qed.

Lemma adapt_expect_quiet m cmds : quiet (LocalActivity.adapt_expect m cmds).
Proof.
  induction cmds as [|c cmds IH]; simpl; [done|].
  destruct (LocalActivity.adapt_response m c None); [by apply quiet_bind|done..].
Qed.

Lemma try_resolve_with_dat_quiet dat from st : quiet (LocalActivity._try_resolve dat from st).2.
Proof.
  unfold LocalActivity._try_resolve. on_event_cases; [apply adapt_expect_quiet|].
  destruct err; [|done]. apply quiet_bind; [state_quiet|done].
Qed.

Lemma try_resolve_quiet r runtime attempt backoff orig st :
  quiet (LocalActivity.try_resolve r runtime attempt backoff orig st).2.
Proof.
  destruct st as [m fl]. unfold LocalActivity.try_resolve, LocalActivity.systime_add.
  destruct (LocalActivity.wf_time_when_started _); simpl;
    [destruct (_ <=? _)%Z; simpl; [|done]|]; apply try_resolve_with_dat_quiet.
Qed.

Lemma marker_special_quiet m : quiet (LocalActivity.marker_should_get_special_handling m).
Proof. apply quiet_bind; [state_quiet|]. by intros []. Qed.

Lemma will_accept_quiet m : quiet (LocalActivity.will_accept_resolve_marker m).
Proof. apply quiet_bind; [state_quiet|]. by intros []. Qed.

(** ** Constructors *)

Lemma new_local_activity_quiet a r p t now fl :
  quiet (LocalActivity.new_local_activity a r p t now fl).2.
Proof.
  unfold LocalActivity.new_local_activity.
  destruct (if r then _ else _) eqn:E; [|done|by destruct r, p].
  on_event_cases; [|done]. destruct (last c) as [x|]; [|done].
  by destruct (LocalActivity.adapt_response _ x None).
Qed.

Lemma from_schedule_la_quiet v : quiet (from_schedule_la v).
Proof.
  unfold from_schedule_la. repeat (apply quiet_bind; [|intros ? _]);
    unfold try_map; quiet_cases.
Qed.

Lemma has_change_quiet id r d s ids fl : quiet (Patch.has_change id r d s ids fl).2.
Proof.
  unfold Patch.has_change, mbind, M_bind, lift, mret, M_ret.
  destruct (build_has_change_marker_details id d); simpl; [|done].
  on_event_cases; [|done]. destruct (try_use _ _ _) as [fl' b]; simpl.
  destruct (_ || _); simpl; [done|]. unfold Patch.version_upsert.
  destruct (as_json_payload _); [|done]. by destruct (_ <=? _).
Qed.

Lemma update_init_quiet id inst seq req r : quiet (Update.init id inst seq req r).
Proof.
  unfold Update.init. repeat (apply quiet_bind; [|intros ? _]);
    unfold UpdateRequest_meta, UpdateRequest_name, UpdateRequest_input, UpdateRequest_headers,
      expect_input; quiet_cases.
Qed.

Lemma update_response_quiet ur st : quiet (Update.handle_response ur st).2.
Proof.
  destruct st as [m fl]. unfold Update.handle_response.
  destruct (UpdateResponse_response ur) as [r|]; [|done]. on_event_cases.
  - apply process_machine_commands_quiet.
  - destruct err; [|done]. apply quiet_bind; [state_quiet|done].
Qed.

(** The other constructors schedule a fresh machine. *)
Ltac new_quiet := on_event_cases; simpl; quiet_cases.

Lemma new_timer_quiet a fl : quiet (Timer.new_scheduled a fl).2.
Proof. unfold Timer.new_scheduled. new_quiet. Qed.

Lemma new_activity_quiet a c fl : quiet (Activity.new_scheduled a c fl).2.
Proof. unfold Activity.new_scheduled. new_quiet. Qed.

Lemma new_child_quiet a c fl : quiet (Child.new_scheduled a c fl).2.
Proof. unfold Child.new_scheduled. new_quiet. Qed.

Lemma new_cancel_external_quiet seq we b r fl :
  quiet (CancelExternal.new_external_cancel seq we b r fl).2.
Proof. unfold CancelExternal.new_external_cancel. new_quiet. Qed.

Lemma new_signal_external_quiet a ns fl : quiet (SignalExternal.new_external_signal a ns fl).
Proof.
  apply quiet_bind; [unfold SignalExternal.signal_target; quiet_cases|].
  intros [we oc] _. new_quiet.
Qed.

Lemma complete_workflow_quiet a fl : quiet (CompleteWorkflow.complete_workflow a fl).2.
Proof. unfold CompleteWorkflow.complete_workflow. new_quiet. Qed.

Lemma fail_workflow_quiet a fl : quiet (FailWorkflow.fail_workflow a fl).2.
Proof. unfold FailWorkflow.fail_workflow. new_quiet. Qed.

Lemma cancel_workflow_quiet a fl : quiet (CancelWorkflowEnd.cancel_workflow a fl).2.
Proof. unfold CancelWorkflowEnd.cancel_workflow. new_quiet. Qed.

Lemma continue_as_new_quiet a c fl : quiet (ContinueAsNew.continue_as_new a c fl).2.
Proof. unfold ContinueAsNew.continue_as_new. new_quiet. Qed.

End with_externs.
