(* ===== verification/HistoryUpdate.v ===== *)
(** * History updates (worker/workflow/history_update.rs)

    Histories are cut into workflow task sequences.  [HistoryUpdate] holds one or
    more complete sequences; [HistoryPaginator] fetches pages until it has them.
    Positions in a vector are [nat], event ids [Z]. *)
From Stdlib Require Import ZArith Lia Sorting.Sorted.
From stdpp Require Import base option list strings gmap.
From S2P Require Import Prelude Flags Protos ProtoExt CoreProtos.

Abbreviation eid e := (HistoryEvent_event_id e).

(** ** The end of a workflow task sequence *)

Inductive NextWFTSeqEndIndex :=
| Complete (ix : nat)
| Incomplete (ix : nat).

Definition index (i : NextWFTSeqEndIndex) : nat :=
  match i with Complete ix | Incomplete ix => ix end.

Definition add (i : NextWFTSeqEndIndex) (val : nat) : NextWFTSeqEndIndex :=
  match i with
  | Complete ix => Complete (ix + val)
  | Incomplete ix => Incomplete (ix + val)
  end.

(** Events after a started event that mean the task does not conclude a
    sequence. *)
Definition abandons_wft (t : EventType) : bool :=
  match t with
  | ET_WorkflowTaskFailed | ET_WorkflowTaskTimedOut | ET_WorkflowExecutionTimedOut
  | ET_WorkflowExecutionTerminated | ET_WorkflowExecutionCanceled => true
  | _ => false
  end.

(** The position of the closest started event before a sequencing id; the list
    holds the started events seen so far, the latest first. *)
Fixpoint find_started_before (sequencing_id : Z) (started : list (Z * nat)) : option nat :=
  match started with
  | [] => None
  | (id, ix) :: started =>
      if (id <? sequencing_id)%Z then Some ix else find_started_before sequencing_id started
  end.

(** The sequencing id of an update accepted event. *)
Definition accepted_sequencing_id (e : HistoryEvent) : option Z :=
  match e.(HistoryEvent_attributes) with
  | Some (HA_WorkflowExecutionUpdateAccepted attr) =>
      Some attr.(WorkflowExecutionUpdateAcceptedEv_accepted_request_sequencing_event_id)
  | _ => None
  end.

(** What the loop body decides at an event. *)
Inductive step_result :=
| Return (r : NextWFTSeqEndIndex)
| Continue (saw_command_or_started saw_command : bool) (started : list (Z * nat)).

Section find_end.
  Variable from_event_id : Z.
  Variable has_last_wft : bool.

(** The body of the loop at position [ix]; [rest] are the events after it. *)
Definition find_end_step (ix : nat) (e : HistoryEvent) (rest : list HistoryEvent)
    (saw_command_or_started saw_command : bool) (started : list (Z * nat)) : step_result :=
  if (eid e <=? from_event_id)%Z then Continue saw_command_or_started saw_command started else
  let saw_command := saw_command || is_command_event e in
  let saw_command_or_started :=
    saw_command_or_started || is_command_event e
    || bool_decide (event_type e = ET_WorkflowExecutionStarted) in
  if is_final_wf_execution_event e then Return (Complete ix) else
  if bool_decide (event_type e = ET_WorkflowTaskStarted) then
    let pushed := (eid e, ix) :: started in
    let fall_through :=
      if saw_command_or_started then Return (Complete ix)
      else Continue saw_command_or_started saw_command pushed in
    match rest with
    | next_event :: rest' =>
        if abandons_wft (event_type next_event) then
          Continue saw_command_or_started saw_command started
        else if bool_decide (event_type next_event = ET_WorkflowTaskCompleted) then
          match rest' with
          | next_next_event :: _ =>
              if negb saw_command
                 && bool_decide (event_type next_next_event = ET_WorkflowTaskScheduled)
              then Continue saw_command_or_started saw_command pushed
              else
                match sequencing_id ← accepted_sequencing_id next_next_event;
                      find_started_before sequencing_id pushed with
                | Some ret_ix => Return (Complete ret_ix)
                | None => Return (Complete ix)
                end
          | [] =>
              if negb has_last_wft && negb saw_command_or_started
              then Continue saw_command_or_started saw_command pushed
              else fall_through
          end
        else fall_through
    | [] =>
        if negb has_last_wft && negb saw_command_or_started
        then Continue saw_command_or_started saw_command pushed
        else fall_through
    end
  else Continue saw_command_or_started saw_command started.

Fixpoint find_end_loop (ix : nat) (events : list HistoryEvent)
    (saw_command_or_started saw_command : bool) (started : list (Z * nat)) : NextWFTSeqEndIndex :=
  match events with
  | [] => Incomplete (pred ix)
  | e :: rest =>
      match find_end_step ix e rest saw_command_or_started saw_command started with
      | Return r => r
      | Continue cs c st => find_end_loop (S ix) rest cs c st
      end
  end.

End find_end.

Definition find_end_index_of_next_wft_seq (events : list HistoryEvent) (from_event_id : Z)
    (has_last_wft : bool) : NextWFTSeqEndIndex :=
  match events with
  | [] => Incomplete 0
  | _ => find_end_loop from_event_id has_last_wft 0 events false false []
  end.

(** ** Updates *)

Record HistoryUpdate := {
  events : list HistoryEvent;
  previous_wft_started_id : Z;
  wft_started_id : Z;
  has_last_wft : bool;
  wft_count : nat;
}.

Inductive NextWFT :=
| ReplayOver
| WFT (evs : list HistoryEvent) (last : bool)
| NeedFetch.

Definition dummy : HistoryUpdate :=
  {| events := []; previous_wft_started_id := -1; wft_started_id := -1;
     has_last_wft := false; wft_count := 0 |}.

Definition is_real (u : HistoryUpdate) : bool := (0 <=? u.(previous_wft_started_id))%Z.

Definition first_event_id (u : HistoryUpdate) : option Z := (fun e => eid e) <$> head u.(events).

(** The loop of [from_events] that counts complete sequences; the fuel bounds its
    iterations. *)
Fixpoint count_wfts (fuel : nat) (all_events : list HistoryEvent) (has_last_wft : bool)
    (wft_count last_end : nat) : outcome False (nat * nat) :=
  match all_events !! last_end with
  | None => Panic "index out of bounds"
  | Some end_event =>
      match add (find_end_index_of_next_wft_seq (drop last_end all_events) (eid end_event)
                   has_last_wft) last_end, fuel with
      | Incomplete _, _ => Ok (S wft_count, last_end)
      | Complete next_end, S fuel => count_wfts fuel all_events has_last_wft (S wft_count) next_end
      | Complete _, O => Panic "out of fuel"
      end
  end.

Definition from_events (all_events : list HistoryEvent) (previous_wft_started_id wft_started_id : Z)
    (has_last_wft : bool) : outcome False (HistoryUpdate * list HistoryEvent) :=
  let build evs count :=
    {| events := evs; previous_wft_started_id := previous_wft_started_id;
       wft_started_id := wft_started_id; has_last_wft := has_last_wft; wft_count := count |} in
  match find_end_index_of_next_wft_seq all_events previous_wft_started_id has_last_wft with
  | Incomplete _ =>
      if has_last_wft then Ok (build all_events 1, []) else Ok (build [] 0, all_events)
  | Complete first_end =>
      '(count, last_end) ← count_wfts (length all_events) all_events has_last_wft 0 first_end;
      match all_events with
      | [] => Ok (build [] count, [])
      | _ =>
          if has_last_wft then Ok (build all_events count, [])
          else Ok (build (take (S last_end) all_events) count, drop (S last_end) all_events)
      end
  end.

(** [find_position]. *)
Fixpoint find_position {A} (f : A -> bool) (l : list A) : option nat :=
  match l with
  | [] => None
  | x :: l => if f x then Some 0 else S <$> find_position f l
  end.

Definition starting_index_after_skipping (u : HistoryUpdate) (from_wft_started_id : Z) : option nat :=
  find_position (fun e => (from_wft_started_id <? eid e)%Z) u.(events).

Definition with_events (u : HistoryUpdate) (evs : list HistoryEvent) : HistoryUpdate :=
  {| events := evs; previous_wft_started_id := u.(previous_wft_started_id);
     wft_started_id := u.(wft_started_id); has_last_wft := u.(has_last_wft);
     wft_count := u.(wft_count) |}.

(** [Vec::drain] over an inclusive range panics past the end. *)
Definition build_next_wft (u : HistoryUpdate) (drain_this_much : nat)
  : HistoryUpdate * outcome False NextWFT :=
  if (drain_this_much <? length u.(events))%nat then
    let rest := drop (S drain_this_much) u.(events) in
    (with_events u rest,
     Ok (WFT (take (S drain_this_much) u.(events))
          (match rest with [] => u.(has_last_wft) | _ => false end)))
  else (u, Panic "range end index out of range").

Definition take_next_wft_sequence (from_wft_started_id : Z) (u : HistoryUpdate)
  : HistoryUpdate * outcome False NextWFT :=
  let u := match starting_index_after_skipping u from_wft_started_id with
           | Some ix_first_relevant => with_events u (drop ix_first_relevant u.(events))
           | None => u
           end in
  match find_end_index_of_next_wft_seq u.(events) from_wft_started_id u.(has_last_wft) with
  | Incomplete siz =>
      if u.(has_last_wft) then
        match siz with
        | O => (u, Ok ReplayOver)
        | _ => build_next_wft u siz
        end
      else
        match siz with
        | O => (u, Ok NeedFetch)
        | _ => (u, Panic "HistoryUpdate was created with an incomplete WFT. This is an SDK bug.")
        end
  | Complete next_wft_ix => build_next_wft u next_wft_ix
  end.

Definition peek_next_wft_sequence (u : HistoryUpdate) (from_wft_started_id : Z)
  : list HistoryEvent :=
  let relevant_events :=
    drop (default 0 (starting_index_after_skipping u from_wft_started_id)) u.(events) in
  match relevant_events with
  | [] => []
  | _ =>
      let ix_end := index (find_end_index_of_next_wft_seq relevant_events from_wft_started_id
                             u.(has_last_wft)) in
      take (S ix_end) relevant_events
  end.

Definition can_take_next_wft_sequence (u : HistoryUpdate) (from_wft_started_id : Z) : bool :=
  match find_end_index_of_next_wft_seq u.(events) from_wft_started_id u.(has_last_wft) with
  | Incomplete _ => u.(has_last_wft)
  | Complete _ => true
  end.

Fixpoint skip_while {A} (f : A -> bool) (l : list A) : list A :=
  match l with
  | [] => []
  | x :: l' => if f x then skip_while f l' else l
  end.

Definition peek_next_wft_completed (u : HistoryUpdate) (from_id : Z)
  : option WorkflowTaskCompletedEventAttributes :=
  head (omap (fun e => match e.(HistoryEvent_attributes) with
                       | Some (HA_WorkflowTaskCompleted a) => Some a
                       | _ => None
                       end)
             (skip_while (fun e => (eid e <? from_id)%Z) u.(events))).

(** A task that was validated and had an update extracted from it
    (worker/workflow/mod.rs). *)
Record PreparedWFT := {
  pw_task_token : string;
  pw_attempt : Z;
  pw_execution : WorkflowExecution;
  pw_workflow_type : string;
  pw_legacy_query : option WorkflowQuery;
  pw_query_requests : list QueryWorkflow;
  pw_update : HistoryUpdate;
  pw_messages : list IncomingProtocolMessage;
}.

Definition is_incremental (w : PreparedWFT) : bool :=
  match first_event_id w.(pw_update) with
  | Some id => (1 <? id)%Z
  | None => true
  end.

Definition is_query_only (w : PreparedWFT) : bool :=
  (w.(pw_update).(wft_started_id) =? 0)%Z
  && match w.(pw_legacy_query) with Some _ => true | None => false end.

(** ** Pagination *)

Record Status := { code : Z; status_message : string }.

Definition EMPTY_FETCH_ERR : Status :=
  {| code := 2; status_message := "Fetched empty history page" |}.
Definition EMPTY_TASK_ERR : Status :=
  {| code := 2;
     status_message := "Received an empty workflow task with no queries or history" |}.

Inductive NextPageToken :=
| FetchFromStart
| Next (token : string)
| Done.

(** [From<Vec<u8>>]: an empty token ends the history. *)
Definition NextPageToken_from (page_token : string) : NextPageToken :=
  match page_token with EmptyString => Done | _ => Next page_token end.

(** The fields of a history response that are read. *)
Record GetHistoryResponse := {
  ghr_history : option (list HistoryEvent);
  ghr_next_page_token : string;
}.

Record HistoryPaginator := {
  wf_id : string;
  run_id : string;
  p_previous_wft_started_id : Z;
  wft_started_event_id : Z;
  id_of_last_event_in_last_extracted_update : option Z;
  event_queue : list HistoryEvent;
  next_page_token : NextPageToken;
  final_events : list HistoryEvent;
}.

Definition HistoryPaginator_new (initial_history : list HistoryEvent)
    (previous_wft_started_id wft_started_event_id : Z) (wf_id run_id : string)
    (next_page_token : NextPageToken) : HistoryPaginator :=
  let '(event_queue, final_events) :=
    match next_page_token with
    | FetchFromStart => ([], initial_history)
    | _ => (initial_history, [])
    end in
  {| wf_id := wf_id; run_id := run_id; p_previous_wft_started_id := previous_wft_started_id;
     wft_started_event_id := wft_started_event_id;
     id_of_last_event_in_last_extracted_update := None;
     event_queue := event_queue; next_page_token := next_page_token;
     final_events := final_events |}.

Definition set_queue (p : HistoryPaginator) (q : list HistoryEvent) : HistoryPaginator :=
  {| wf_id := p.(wf_id); run_id := p.(run_id);
     p_previous_wft_started_id := p.(p_previous_wft_started_id);
     wft_started_event_id := p.(wft_started_event_id);
     id_of_last_event_in_last_extracted_update := p.(id_of_last_event_in_last_extracted_update);
     event_queue := q; next_page_token := p.(next_page_token);
     final_events := p.(final_events) |}.

Definition set_token (p : HistoryPaginator) (t : NextPageToken) : HistoryPaginator :=
  {| wf_id := p.(wf_id); run_id := p.(run_id);
     p_previous_wft_started_id := p.(p_previous_wft_started_id);
     wft_started_event_id := p.(wft_started_event_id);
     id_of_last_event_in_last_extracted_update := p.(id_of_last_event_in_last_extracted_update);
     event_queue := p.(event_queue); next_page_token := t;
     final_events := p.(final_events) |}.

Definition set_final (p : HistoryPaginator) (f : list HistoryEvent) : HistoryPaginator :=
  {| wf_id := p.(wf_id); run_id := p.(run_id);
     p_previous_wft_started_id := p.(p_previous_wft_started_id);
     wft_started_event_id := p.(wft_started_event_id);
     id_of_last_event_in_last_extracted_update := p.(id_of_last_event_in_last_extracted_update);
     event_queue := p.(event_queue); next_page_token := p.(next_page_token);
     final_events := f |}.

Definition set_last_extracted (p : HistoryPaginator) (i : option Z) : HistoryPaginator :=
  {| wf_id := p.(wf_id); run_id := p.(run_id);
     p_previous_wft_started_id := p.(p_previous_wft_started_id);
     wft_started_event_id := p.(wft_started_event_id);
     id_of_last_event_in_last_extracted_update := i;
     event_queue := p.(event_queue); next_page_token := p.(next_page_token);
     final_events := p.(final_events) |}.

Definition is_done (t : NextPageToken) : bool := match t with Done => true | _ => false end.

(** [back().map(|e| e.event_id).unwrap_or_default()]. *)
Definition back_id (l : list HistoryEvent) : Z := default 0%Z ((fun e => eid e) <$> last l).

Section paginator.
  (** The worker's client: it has a state of its own and may fail. *)
  Context {ClientState : Type}.
  Variable get_workflow_execution_history :
    ClientState -> string -> string -> string -> ClientState * outcome Status GetHistoryResponse.

(** The loop that fetches a page; [None] when the fuel is spent. *)
Fixpoint fetch_page (fuel : nat) (c : ClientState) (p : HistoryPaginator)
  : option (ClientState * HistoryPaginator * outcome Status (option (list HistoryEvent))) :=
  let fetch npt :=
    let p := set_token p Done in
    match get_workflow_execution_history c p.(wf_id) p.(run_id) npt with
    | (c, Ok fetch_res) =>
        let p := set_token p (NextPageToken_from fetch_res.(ghr_next_page_token)) in
        let history_is_empty :=
          match fetch_res.(ghr_history) with Some (_ :: _) => false | _ => true end in
        match p.(next_page_token), fuel with
        | Next _, S fuel =>
            if history_is_empty then fetch_page fuel c p
            else Some (c, p, Ok fetch_res.(ghr_history))
        | Next _, O =>
            if history_is_empty then None else Some (c, p, Ok fetch_res.(ghr_history))
        | _, _ => Some (c, p, Ok fetch_res.(ghr_history))
        end
    | (c, Err e) => Some (c, p, Err e)
    | (c, Panic msg) => Some (c, p, Panic msg)
    end in
  match p.(next_page_token) with
  | Done => Some (c, p, Ok None)
  | FetchFromStart => fetch ""
  | Next v => fetch v
  end.

(** The events of a page are appended after the queue's last event, and the final
    events once the history ends. *)
Definition absorb_page (p : HistoryPaginator) (history : option (list HistoryEvent))
  : HistoryPaginator :=
  let queue_back_id := back_id p.(event_queue) in
  let p := set_queue p (p.(event_queue)
    ++ skip_while (fun e => (eid e <=? queue_back_id)%Z) (default [] history)) in
  if is_done p.(next_page_token) then
    match last p.(event_queue) with
    | Some e =>
        set_final (set_queue p (p.(event_queue)
          ++ skip_while (fun e2 => (eid e2 <=? eid e)%Z) p.(final_events))) []
    | None => p
    end
  else p.

Definition get_next_page (fuel : nat) (c : ClientState) (p : HistoryPaginator)
  : option (ClientState * HistoryPaginator * outcome Status bool) :=
  match fetch_page fuel c p with
  | None => None
  | Some (c, p, Ok history) =>
      let p := absorb_page p history in
      Some (c, p, Ok (negb (is_done p.(next_page_token))))
  | Some (c, p, Err e) => Some (c, p, Err e)
  | Some (c, p, Panic msg) => Some (c, p, Panic msg)
  end.

(** [from_events] cannot fail. *)
Definition lift_events {E A} (r : outcome False A) : outcome E A :=
  match r with Ok x => Ok x | Err e => match e with end | Panic msg => Panic msg end.

(** What one iteration of [extract_next_update] does with the events it has,
    after a page was fetched: return, or go on with the paginator. *)
Definition extract_step (p : HistoryPaginator) (no_next_page : bool)
  : HistoryPaginator * option (outcome Status HistoryUpdate) :=
  let current_events := p.(event_queue) in
  let p := set_queue p [] in
  let seen_enough_events := (p.(wft_started_event_id) <=? back_id current_events)%Z in
  let already_sent_update_with_enough_events :=
    (p.(wft_started_event_id)
     <=? default 0 p.(id_of_last_event_in_last_extracted_update))%Z in
  match current_events with
  | [] =>
      if no_next_page && already_sent_update_with_enough_events then
        (p, Some ('(u, _) ← lift_events (from_events [] p.(p_previous_wft_started_id)
                                           p.(wft_started_event_id) true); Ok u))
      else (p, Some (Err EMPTY_FETCH_ERR))
  | first :: _ =>
      if no_next_page && negb seen_enough_events then (p, Some (Err EMPTY_FETCH_ERR)) else
      let first_event_id := eid first in
      let no_more := is_done p.(next_page_token) && seen_enough_events in
      match from_events current_events p.(p_previous_wft_started_id)
              p.(wft_started_event_id) no_more with
      | Ok (update, extra) =>
          if negb (is_done p.(next_page_token)) && (update.(wft_count) <? 2)%nat then
            (set_queue p (update.(events) ++ extra), None)
          else
            let extra_eid_same :=
              match extra with e :: _ => (eid e =? first_event_id)%Z | [] => false end in
            let p := set_queue p extra in
            if negb no_more && extra_eid_same then (p, None)
            else
              (set_last_extracted p ((fun e => eid e) <$> last update.(events)),
               Some (Ok update))
      | Err e => match e with end
      | Panic msg => (p, Some (Panic msg))
      end
  end.

Fixpoint extract_next_update (fuel : nat) (c : ClientState) (p : HistoryPaginator)
  : option (ClientState * HistoryPaginator * outcome Status HistoryUpdate) :=
  match get_next_page fuel c p with
  | None => None
  | Some (c, p, Ok has_next_page) =>
      match extract_step p (negb has_next_page), fuel with
      | (p, Some r), _ => Some (c, p, r)
      | (p, None), S fuel => extract_next_update fuel c p
      | (_, None), O => None
      end
  | Some (c, p, Err e) => Some (c, p, Err e)
  | Some (c, p, Panic msg) => Some (c, p, Panic msg)
  end.

(** [HistoryPaginator::from_poll]. *)
Definition from_poll (fuel : nat) (c : ClientState) (wft : ValidPollWFTQResponse)
  : option (ClientState * outcome Status (HistoryPaginator * PreparedWFT)) :=
  let empty_hist := match wft.(wft_history) with [] => true | _ => false end in
  let npt := if empty_hist then FetchFromStart
             else NextPageToken_from wft.(wft_next_page_token) in
  let paginator := HistoryPaginator_new wft.(wft_history) wft.(wft_previous_started_event_id)
    wft.(CoreProtos.wft_started_event_id)
    wft.(wft_workflow_execution).(WorkflowExecution_workflow_id)
    wft.(wft_workflow_execution).(WorkflowExecution_run_id) npt in
  let prepared u :=
    {| pw_task_token := wft.(wft_task_token); pw_attempt := wft.(wft_attempt);
       pw_execution := wft.(wft_workflow_execution);
       pw_workflow_type := wft.(wft_workflow_type);
       pw_legacy_query := wft.(wft_legacy_query);
       pw_query_requests := wft.(wft_query_requests); pw_update := u;
       pw_messages := wft.(wft_messages) |} in
  if empty_hist then
    match wft.(wft_legacy_query), wft.(wft_query_requests) with
    | None, [] => Some (c, Err EMPTY_TASK_ERR)
    | _, _ =>
        Some (c, '(u, _) ← lift_events (from_events [] wft.(wft_previous_started_event_id)
                                          wft.(CoreProtos.wft_started_event_id) true);
                 Ok (paginator, prepared u))
    end
  else
    match extract_next_update fuel c paginator with
    | None => None
    | Some (c, p, r) => Some (c, u ← r; Ok (p, prepared u))
    end.

(** [HistoryPaginator::from_fetchreq]: a cache miss fetches the history from its
    start; the task's own events come last. *)
Definition from_fetchreq (fuel : nat) (c : ClientState) (work : PreparedWFT)
    (original : HistoryPaginator)
  : option (ClientState * outcome Status (PreparedWFT * HistoryPaginator)) :=
  let u := work.(pw_update) in
  let paginator :=
    {| wf_id := work.(pw_execution).(WorkflowExecution_workflow_id);
       run_id := work.(pw_execution).(WorkflowExecution_run_id);
       p_previous_wft_started_id := u.(previous_wft_started_id);
       wft_started_event_id := u.(wft_started_id);
       id_of_last_event_in_last_extracted_update :=
         original.(id_of_last_event_in_last_extracted_update);
       event_queue := []; next_page_token := FetchFromStart;
       final_events := u.(events) |} in
  match extract_next_update fuel c paginator with
  | None => None
  | Some (c, p, r) =>
      Some (c, first_update ← r;
               Ok ({| pw_task_token := work.(pw_task_token); pw_attempt := work.(pw_attempt);
                      pw_execution := work.(pw_execution);
                      pw_workflow_type := work.(pw_workflow_type);
                      pw_legacy_query := work.(pw_legacy_query);
                      pw_query_requests := work.(pw_query_requests);
                      pw_update := first_update; pw_messages := work.(pw_messages) |}, p))
  end.

End paginator.

(** ** Where sequences end *)

(** An event that concludes a workflow task sequence. *)
Definition concludes (e : HistoryEvent) : Prop :=
  event_type e = ET_WorkflowTaskStarted \/ is_final_wf_execution_event e = true.

Lemma find_started_before_elem id started ix :
  find_started_before id started = Some ix -> exists id', (id', ix) ∈ started /\ (id' < id)%Z.
Proof.
  induction started as [|[id' ix'] started IH]; simpl; [done|].
  destruct (Z.ltb_spec id' id); [intros [= <-]; exists id'; set_solver by lia|].
  intros (id'' & ? & ?)%IH. exists id''. set_solver.
Qed.

Section find_end_facts.
  Variable from : Z.
  Variable has_last : bool.

  (** The started events recorded so far are after [from] in [all]. *)
Definition started_ok (all : list HistoryEvent) (started : list (Z * nat)) : Prop :=
  forall id ix, (id, ix) ∈ started ->
    exists e, all !! ix = Some e /\ eid e = id /\ (from < id)%Z /\
              event_type e = ET_WorkflowTaskStarted.

Lemma find_end_step_continue ix e rest cs c st cs' c' st' :
  find_end_step from has_last ix e rest cs c st = Continue cs' c' st' ->
  st' = st \/
  (st' = (eid e, ix) :: st /\ (from < eid e)%Z /\ event_type e = ET_WorkflowTaskStarted).
Proof.
  unfold find_end_step. destruct (Z.leb_spec (eid e) from); [naive_solver|].
  destruct (is_final_wf_execution_event e); [done|]. case_bool_decide; [|naive_solver].
  intros Hs. repeat case_match_in Hs; auto.
Qed.

Lemma find_end_step_return ix e rest cs c st r :
  find_end_step from has_last ix e rest cs c st = Return r ->
  exists i, r = Complete i /\
    ((i = ix /\ (from < eid e)%Z /\ concludes e) \/ exists id, (id, i) ∈ st).
Proof.
  unfold find_end_step. destruct (Z.leb_spec (eid e) from); [done|].
  destruct (is_final_wf_execution_event e) eqn:Hf;
    [intros [= <-]; exists ix; unfold concludes; naive_solver|].
  case_bool_decide; [|done].
  assert (concludes e) as Hc by (by left).
  assert (forall o, (id ← o; find_started_before id ((eid e, ix) :: st)) = None \/
    exists i, (id ← o; find_started_before id ((eid e, ix) :: st)) = Some i /\
      (i = ix \/ exists id, (id, i) ∈ st)) as Hfs.
  { intros [o|]; [|by left]. cbn [mbind option_bind].
    destruct (find_started_before o _) as [i|] eqn:Ho; [right|by left].
    apply find_started_before_elem in Ho as (id & Hin & _). exists i. split; [done|].
    apply elem_of_cons in Hin as [[= -> ->]|Hin]; eauto. }
  intros Hs. destruct rest as [|next [|nn rest]]; cbv zeta in Hs;
    repeat match type of Hs with
    | context [if ?b then _ else _] => destruct b
    end; simplify_eq; eauto 10.
  destruct (Hfs (accepted_sequencing_id nn)) as [Hn|(i & Hn & Hi)]; rewrite Hn in Hs;
    simplify_eq; eauto 10. eexists. split; [done|]. naive_solver.
Qed.

Lemma find_end_loop_spec all pre evs cs c st :
  all = pre ++ evs -> started_ok all st ->
  match find_end_loop from has_last (length pre) evs cs c st with
  | Complete i => exists e, all !! i = Some e /\ (from < eid e)%Z /\ concludes e
  | Incomplete i => i = pred (length all)
  end.
Proof.
  revert pre cs c st. induction evs as [|e evs IH]; intros pre cs c st Hall Hst; simpl.
  { subst. by rewrite app_nil_r. }
  assert (all !! length pre = Some e) as He by (subst; by apply list_lookup_middle).
  destruct (find_end_step _ _ _ _ _ _ _ _) as [r|cs' c' st'] eqn:Hs.
  - apply find_end_step_return in Hs as (i & -> & [(-> & ? & ?)|(id & Hin)]); [naive_solver|].
    destruct (Hst _ _ Hin) as (e' & ? & <- & ? & ?). exists e'. unfold concludes. auto.
  - specialize (IH (pre ++ [e]) cs' c' st'). rewrite length_app, Nat.add_1_r in IH.
    apply IH; [subst; by rewrite <- (assoc_L (++))|].
    apply find_end_step_continue in Hs as [->|(-> & ? & ?)]; [done|].
    intros id ix [[= -> ->]|Hin]%elem_of_cons; [naive_solver|by apply Hst].
Qed.

End find_end_facts.

(** A found end is an event after [from_event_id] that concludes a sequence; an
    incomplete sequence reports the last position. *)
Lemma find_end_spec evs from has_last :
  match find_end_index_of_next_wft_seq evs from has_last with
  | Complete i => exists e, evs !! i = Some e /\ (from < eid e)%Z /\ concludes e
  | Incomplete i => i = pred (length evs)
  end.
Proof.
  destruct evs as [|e evs]; [done|].
  apply (find_end_loop_spec from has_last (e :: evs) [] (e :: evs)); [done|]. by intros ?? ?%elem_of_nil.
Qed.

Lemma find_end_bound evs from has_last i :
  find_end_index_of_next_wft_seq evs from has_last = Complete i -> i < length evs.
Proof.
  intros H. pose proof (find_end_spec evs from has_last) as Hs. rewrite H in Hs.
  destruct Hs as (e & He & _). by eapply lookup_lt_Some.
Qed.

(** After the end of a sequence the next one ends strictly later. *)
Lemma find_end_progress evs e ix has_last i :
  evs !! ix = Some e ->
  find_end_index_of_next_wft_seq (drop ix evs) (eid e) has_last = Complete i -> 0 < i.
Proof.
  intros He H. pose proof (find_end_spec (drop ix evs) (eid e) has_last) as Hs. rewrite H in Hs.
  destruct Hs as (e' & He' & Hlt & _). destruct i; [|lia].
  rewrite lookup_drop, Nat.add_0_r in He'. simplify_eq. lia.
Qed.

(** ** Cutting events into an update *)

Lemma count_wfts_spec fuel all has_last count ix e :
  all !! ix = Some e -> concludes e -> length all <= fuel + ix ->
  exists count' ix' e', count_wfts fuel all has_last count ix = Ok (count', ix') /\
    count < count' /\ ix <= ix' /\ all !! ix' = Some e' /\ concludes e' /\
    exists j, find_end_index_of_next_wft_seq (drop ix' all) (eid e') has_last = Incomplete j.
Proof.
  revert count ix e. induction fuel as [|fuel IH]; intros count ix e He Hc Hf.
  { apply lookup_lt_Some in He. lia. }
  cbn [count_wfts]. rewrite He.
  pose proof (find_end_spec (drop ix all) (eid e) has_last) as Hs.
  destruct (find_end_index_of_next_wft_seq (drop ix all) (eid e) has_last) as [i|i] eqn:Hi; simpl.
  - destruct Hs as (e' & He' & _ & Hc'). rewrite lookup_drop in He'.
    pose proof (find_end_progress _ _ _ _ _ He Hi).
    rewrite (Nat.add_comm ix i) in He'.
    destruct (IH (S count) (i + ix) e' He' Hc') as (c2 & ix2 & e2 & Hr & ? & ? & ? & ? & ?); [lia|].
    exists c2, ix2, e2. rewrite Hr. naive_solver lia.
  - exists (S count), ix, e. naive_solver lia.
Qed.

(** What [from_events] returns, in full. *)
Lemma from_events_spec all prev started has_last :
  exists u extra, from_events all prev started has_last = Ok (u, extra) /\
    u.(previous_wft_started_id) = prev /\ u.(wft_started_id) = started /\
    u.(HistoryUpdate.has_last_wft) = has_last /\
    u.(events) ++ extra = all /\ (has_last = true -> extra = []) /\
    (has_last = false ->
       (u.(events) = [] /\ u.(wft_count) = 0) \/
       (0 < u.(wft_count) /\ exists e, last u.(events) = Some e /\ concludes e /\
          exists j, find_end_index_of_next_wft_seq (e :: extra) (eid e) false = Incomplete j)).
Proof.
  unfold from_events. pose proof (find_end_spec all prev has_last) as Hs.
  destruct (find_end_index_of_next_wft_seq all prev has_last) as [i|i].
  - destruct Hs as (e & He & _ & Hc).
    destruct (count_wfts_spec (length all) all has_last 0 i e He Hc ltac:(lia))
      as (c & ix & e' & -> & ? & ? & He' & Hc' & j & Hj). cbn [mbind outcome_bind].
    destruct all as [|e0 all]; [done|].
    destruct has_last; do 2 eexists; (split; [reflexivity|]); simpl;
      repeat (split; [done|]); rewrite ?app_nil_r; repeat (split; [done|]).
    + done.
    + split; [apply (take_drop (S ix) (e0 :: all))|]. split; [done|]. intros _. right.
      split; [done|]. exists e'. change (e0 :: take ix all) with (take (S ix) (e0 :: all)).
      rewrite (take_S_r _ _ _ He'), last_snoc.
      rewrite (drop_S _ _ _ He') in Hj. naive_solver.
  - destruct has_last; do 2 eexists; (split; [reflexivity|]); simpl; rewrite ?app_nil_r;
      naive_solver.
Qed.

(** ** Skipping handled events *)

(** The events of an update that come after [from]. *)
Definition fresh (from : Z) (evs : list HistoryEvent) : list HistoryEvent :=
  skip_while (fun e => (eid e <=? from)%Z) evs.

Lemma skip_while_suffix {A} (f : A -> bool) l :
  exists pre, l = pre ++ skip_while f l /\ Forall (fun x => f x = true) pre.
Proof.
  induction l as [|x l (pre & IH & Hf)]; simpl; [by exists []|].
  destruct (f x) eqn:Hx; [|by exists []].
  exists (x :: pre). simpl. split; [by f_equal|by constructor].
Qed.

Lemma skip_while_find {A} (f : A -> bool) l :
  match find_position (fun x => negb (f x)) l with
  | Some ix => drop ix l = skip_while f l /\ skip_while f l <> []
  | None => skip_while f l = []
  end.
Proof.
  induction l as [|x l IH]; simpl; [done|]. destruct (f x); simpl; [|done].
  by destruct (find_position _ l).
Qed.

Lemma starting_index_fresh u from :
  match starting_index_after_skipping u from with
  | Some ix => drop ix u.(events) = fresh from u.(events) /\ fresh from u.(events) <> []
  | None => fresh from u.(events) = []
  end.
Proof.
  unfold starting_index_after_skipping, fresh.
  assert (find_position (fun e => (from <? eid e)%Z) (events u)
          = find_position (fun e => negb (eid e <=? from)%Z) (events u)) as ->
    by (induction (events u) as [|e l IH]; simpl; [done|]; rewrite IH; by rewrite Z.ltb_antisym).
  apply (skip_while_find (fun e => (eid e <=? from)%Z)).
Qed.

Lemma find_end_loop_skip from has_last pre evs ix cs c st :
  Forall (fun e => (eid e <=? from)%Z = true) pre ->
  find_end_loop from has_last ix (pre ++ evs) cs c st
  = find_end_loop from has_last (ix + length pre) evs cs c st.
Proof.
  intros Hf. revert ix. induction Hf as [|e pre He _ IH]; intros ix; simpl; [by rewrite Nat.add_0_r|].
  unfold find_end_step. rewrite He. rewrite IH. f_equal. lia.
Qed.

Definition shift_started (k : nat) (st : list (Z * nat)) : list (Z * nat) :=
  (fun '(id, ix) => (id, ix + k)) <$> st.

Lemma find_started_shift k id st :
  find_started_before id (shift_started k st) = (fun ix => ix + k) <$> find_started_before id st.
Proof. induction st as [|[i ix] st IH]; simpl; [done|]. by destruct (i <? id)%Z. Qed.

Lemma find_end_step_shift from has_last k ix e rest cs c st :
  find_end_step from has_last (ix + k) e rest cs c (shift_started k st) =
  match find_end_step from has_last ix e rest cs c st with
  | Return r => Return (add r k)
  | Continue cs' c' st' => Continue cs' c' (shift_started k st')
  end.
Proof.
  unfold find_end_step. destruct (eid e <=? from)%Z; [done|].
  destruct (is_final_wf_execution_event e); [done|].
  destruct (bool_decide (event_type e = _)); [|done].
  change ((eid e, ix + k) :: shift_started k st) with (shift_started k ((eid e, ix) :: st)).
  assert (forall o l, (id ← o; find_started_before id (shift_started k l))
    = (fun i => i + k) <$> (id ← o; find_started_before id l)) as Hf
    by (intros [id|] l; simpl; [apply find_started_shift|done]).
  destruct rest as [|n [|nn rest]]; cbv zeta; rewrite ?Hf;
    repeat match goal with |- context [if ?b then _ else _] => destruct b end; try done.
  by destruct (id ← accepted_sequencing_id nn; _).
Qed.

Lemma find_end_loop_shift from has_last k ix evs cs c st :
  0 < ix + length evs ->
  find_end_loop from has_last (ix + k) evs cs c (shift_started k st)
  = add (find_end_loop from has_last ix evs cs c st) k.
Proof.
  revert ix cs c st. induction evs as [|e evs IH]; intros ix cs c st Hl; simpl.
  { simpl in Hl. destruct ix; simpl; [lia|done]. }
  rewrite find_end_step_shift. destruct (find_end_step _ _ ix _ _ _ _ _) as [r|cs' c' st']; [done|].
  apply (IH (S ix)). simpl. lia.
Qed.

(** Handled events in front of a slice only shift the result. *)
Lemma find_end_fresh from has_last pre evs :
  Forall (fun e => (eid e <=? from)%Z = true) pre -> evs <> [] ->
  find_end_index_of_next_wft_seq (pre ++ evs) from has_last
  = add (find_end_index_of_next_wft_seq evs from has_last) (length pre).
Proof.
  intros Hpre Hne. destruct evs as [|e evs]; [done|]. unfold find_end_index_of_next_wft_seq.
  transitivity (find_end_loop from has_last 0 (pre ++ e :: evs) false false []); [by destruct pre|].
  rewrite find_end_loop_skip by done.
  apply (find_end_loop_shift from has_last (length pre) 0 (e :: evs) false false []). simpl. lia.
Qed.

(** ** Taking sequences *)

Lemma build_next_wft_ok u i :
  i < length u.(events) ->
  build_next_wft u i =
    (with_events u (drop (S i) u.(events)),
     Ok (WFT (take (S i) u.(events))
          (match drop (S i) u.(events) with [] => u.(has_last_wft) | _ => false end))).
Proof. intros Hi. unfold build_next_wft. by rewrite (proj2 (Nat.ltb_lt _ _) Hi). Qed.

(** The result of taking a sequence when there are events to take. *)
Lemma take_next_spec u from :
  fresh from u.(events) <> [] ->
  let evs := fresh from u.(events) in
  take_next_wft_sequence from u =
    match find_end_index_of_next_wft_seq evs from u.(has_last_wft) with
    | Complete i => build_next_wft (with_events u evs) i
    | Incomplete (S i) =>
        if u.(has_last_wft) then build_next_wft (with_events u evs) (S i)
        else (with_events u evs,
              Panic "HistoryUpdate was created with an incomplete WFT. This is an SDK bug.")
    | Incomplete 0 =>
        (with_events u evs, Ok (if u.(has_last_wft) then ReplayOver else NeedFetch))
    end.
Proof.
  intros Hne evs. unfold take_next_wft_sequence. pose proof (starting_index_fresh u from) as Hs.
  destruct (starting_index_after_skipping u from) as [ix|]; [|done].
  destruct Hs as [-> _]. simpl. fold evs.
  destruct (find_end_index_of_next_wft_seq evs from _) as [i|[|i]]; by destruct (has_last_wft u).
Qed.

Lemma can_take_fresh u from :
  fresh from u.(events) <> [] ->
  can_take_next_wft_sequence u from =
    match find_end_index_of_next_wft_seq (fresh from u.(events)) from u.(has_last_wft) with
    | Complete _ => true
    | Incomplete _ => u.(has_last_wft)
    end.
Proof.
  intros Hne. unfold can_take_next_wft_sequence, fresh in *.
  destruct (skip_while_suffix (fun e => (eid e <=? from)%Z) (events u)) as (pre & He & Hpre).
  rewrite He at 1. rewrite find_end_fresh by done.
  by destruct (find_end_index_of_next_wft_seq _ from _).
Qed.

Lemma take_next_lossless_aux (u : HistoryUpdate) (from : Z) :
  fresh from u.(events) <> [] ->
  let '(u', r) := take_next_wft_sequence from u in
  u'.(has_last_wft) = u.(has_last_wft) /\
  ((exists evs lst, r = Ok (WFT evs lst) /\ evs <> [] /\
     evs ++ u'.(events) = fresh from u.(events) /\
     (lst = true <-> u.(has_last_wft) = true /\ u'.(events) = []) /\
     (u.(has_last_wft) = false -> exists e, last evs = Some e /\ concludes e)) \/
  (r = Ok (if u.(has_last_wft) then ReplayOver else NeedFetch) /\
     u'.(events) = fresh from u.(events) /\ length u'.(events) = 1) \/
  ((exists msg, r = Panic msg) /\ can_take_next_wft_sequence u from = false)).
Proof.
  intros Hne. rewrite take_next_spec by done. rewrite can_take_fresh by done. cbv zeta.
  set (evs := fresh from (events u)) in *.
  pose proof (find_end_spec evs from (has_last_wft u)) as Hs.
  assert (forall i, i < length evs ->
    (u.(has_last_wft) = false -> exists e, evs !! i = Some e /\ concludes e) ->
    let '(u', r) := build_next_wft (with_events u evs) i in
    u'.(has_last_wft) = u.(has_last_wft) /\ exists es lst, r = Ok (WFT es lst) /\ es <> [] /\ es ++ u'.(events) = evs /\
      (lst = true <-> u.(has_last_wft) = true /\ u'.(events) = []) /\
      (u.(has_last_wft) = false -> exists e, last es = Some e /\ concludes e)) as Hb.
  { intros i Hi Hc. rewrite build_next_wft_ok by done. cbn [events with_events has_last_wft].
    split; [done|]. do 2 eexists. split; [done|]. split; [by destruct evs|]. split; [apply take_drop|].
    split; [destruct (drop (S i) evs); naive_solver|]. intros Hl.
    destruct (Hc Hl) as (e & He & ?). exists e. by rewrite (take_S_r _ _ _ He), last_snoc. }
  destruct (find_end_index_of_next_wft_seq evs from _) as [i|[|i]] eqn:Hf.
  - destruct Hs as (e & He & _ & Hc). specialize (Hb i (lookup_lt_Some _ _ _ He)).
    destruct (build_next_wft _ i). destruct Hb as [? Hb]; [eauto|]. split; [done|]. by left.
  - split; [done|]. right. left. cbn [events with_events]. split; [by destruct (has_last_wft u)|]. split; [done|].
    destruct evs as [|? [|? ?]]; simpl in *; [done|done|lia].
  - destruct (has_last_wft u) eqn:Hl; [|naive_solver].
    specialize (Hb (S i)). destruct (build_next_wft _ (S i)).
    destruct Hb as [? Hb]; [lia|done|]. split; [congruence|]. by left.
Qed.

(** C23 (safety): taking a sequence from an update that has unhandled events yields
    a non-empty prefix of them and keeps the rest, and says that it is the last
    one exactly when nothing is left of the last update; the sequence of an
    update that is not the last ends with a task started or the workflow closed.
    The only other results are for a single event, which is kept, and, for an
    update that is not the last, a panic that [can_take_next_wft_sequence]
    predicts. *)
Theorem take_next_wft_sequence_lossless (u : HistoryUpdate) (from : Z) :
  fresh from u.(events) <> [] ->
  let '(u', r) := take_next_wft_sequence from u in
  (exists evs lst, r = Ok (WFT evs lst) /\ evs <> [] /\
     evs ++ u'.(events) = fresh from u.(events) /\
     (lst = true <-> u.(has_last_wft) = true /\ u'.(events) = []) /\
     (u.(has_last_wft) = false -> exists e, last evs = Some e /\ concludes e)) \/
  (r = Ok (if u.(has_last_wft) then ReplayOver else NeedFetch) /\
     u'.(events) = fresh from u.(events) /\ length u'.(events) = 1) \/
  ((exists msg, r = Panic msg) /\ can_take_next_wft_sequence u from = false).
Proof.
  intros Hne. pose proof (take_next_lossless_aux u from Hne) as H.
  destruct (take_next_wft_sequence from u). apply H.
Qed.

(** Takes sequences until there are none, each from the last event of the one
    before, as the workflow machines do. *)
Fixpoint sequences (fuel : nat) (from : Z) (u : HistoryUpdate)
  : list (list HistoryEvent) * HistoryUpdate :=
  match fuel with
  | O => ([], u)
  | S fuel =>
      match take_next_wft_sequence from u with
      | (u, Ok (WFT evs _)) =>
          let '(l, u) := sequences fuel (back_id evs) u in (evs :: l, u)
      | (u, _) => ([], u)
      end
  end.

Definition increasing (evs : list HistoryEvent) : Prop :=
  StronglySorted (fun a b => (eid a < eid b)%Z) evs.

Lemma back_id_cons e a : a <> [] -> back_id (e :: a) = back_id a.
Proof. by destruct a. Qed.

Lemma increasing_app a b : increasing (a ++ b) ->
  increasing a /\ increasing b /\
  (a <> [] -> Forall (fun e => (back_id a < eid e)%Z) b).
Proof.
  unfold increasing. induction a as [|e a IH]; simpl; intros H; [split_and!; [constructor|done|done]|].
  apply StronglySorted_inv in H as [H Hf]. destruct (IH H) as (Ha & Hb & Hlast).
  apply Forall_app in Hf as [Hfa Hfb]. split_and!; [by constructor|done|]. intros _.
  destruct a as [|e' a]; [done|]. rewrite back_id_cons by done. by apply Hlast.
Qed.

Lemma fresh_all from evs : Forall (fun e => (from < eid e)%Z) evs -> fresh from evs = evs.
Proof.
  unfold fresh. intros [|e l He]; simpl; [done|]. by rewrite (proj2 (Z.leb_gt _ _) He).
Qed.

(** (functional): the sequences taken from a last update are, in order and
    without repetition, all of its events but for at most one trailing event. *)
Theorem sequences_cover_last_update (u : HistoryUpdate) (from : Z) :
  u.(has_last_wft) = true -> increasing u.(events) ->
  Forall (fun e => (from < eid e)%Z) u.(events) ->
  let '(ls, u') := sequences (S (length u.(events))) from u in
  concat ls ++ u'.(events) = u.(events) /\ length u'.(events) <= 1 /\ Forall (.≠ []) ls.
Proof.
  assert (forall n u from, length u.(events) < n -> u.(has_last_wft) = true ->
    increasing u.(events) -> Forall (fun e => (from < eid e)%Z) u.(events) ->
    let '(ls, u') := sequences n from u in
    concat ls ++ u'.(events) = u.(events) /\ length u'.(events) <= 1 /\ Forall (.≠ []) ls) as Hg;
    [|intros ???; by apply Hg; [lia|..]].
  clear. induction n as [|n IH]; intros u from Hn Hl Hi Hf; [lia|]. cbn [sequences].
  destruct (events u) as [|e0 es] eqn:Hev.
  { unfold take_next_wft_sequence, starting_index_after_skipping. rewrite Hev. simpl.
    rewrite Hev, Hl. simpl. rewrite Hev. simpl. auto with lia. }
  rewrite <- Hev in *.
  pose proof (take_next_lossless_aux u from) as Ht. rewrite fresh_all in Ht by done.
  destruct (take_next_wft_sequence from u) as [u' r].
  destruct Ht as (Hl' & [(evs & lst & -> & Hne & Happ & _)|[(-> & He & Hlen)|[_ Hc]]]);
    [by rewrite Hev| | |].
  - destruct (increasing_app evs (events u')) as (_ & Hi' & Hb); [by rewrite Happ|].
    specialize (IH u' (back_id evs)). destruct (sequences n (back_id evs) u') as [ls u''].
    destruct IH as (Hc & ? & ?); [|congruence|done|by apply Hb|].
    { rewrite <- Happ, length_app in Hn. destruct evs; simpl in *; [done|lia]. }
    simpl. rewrite <- (assoc_L (++)), Hc. auto.
  - rewrite Hl. simpl. rewrite He. rewrite He in Hlen. auto with lia.
  - unfold can_take_next_wft_sequence in Hc. rewrite Hl in Hc.
    by destruct (find_end_index_of_next_wft_seq _ _ _).
Qed.

(** (functional): [from_events] is total and only cuts: the events of the update
    followed by the returned ones are the given events.  A last update keeps them
    all.  Any other update is empty or ends with an event that concludes a
    sequence, and the returned events hold no further complete sequence. *)
Theorem from_events_cuts (all : list HistoryEvent) (prev started : Z) (has_last : bool) :
  exists u extra, from_events all prev started has_last = Ok (u, extra) /\
    u.(events) ++ extra = all /\ (has_last = true -> extra = []) /\
    (has_last = false ->
       (u.(events) = [] /\ u.(wft_count) = 0) \/
       (0 < u.(wft_count) /\ exists e, last u.(events) = Some e /\ concludes e /\
          exists j, find_end_index_of_next_wft_seq (e :: extra) (eid e) false = Incomplete j)).
Proof.
  destruct (from_events_spec all prev started has_last)
    as (u & extra & H1 & _ & _ & _ & H2 & H3 & H4).
  exists u, extra. auto.
Qed.

(** ** The paginator *)

Lemma skip_while_increasing id evs :
  increasing evs ->
  increasing (fresh id evs) /\ Forall (fun e => (id < eid e)%Z) (fresh id evs).
Proof.
  intros H. induction H as [|e evs Hs IH Hf]; [split; constructor|].
  unfold fresh. simpl. destruct (Z.leb_spec (eid e) id) as [|Hlt]; [done|].
  split; [by constructor|]. constructor; [done|]. eapply Forall_impl; [exact Hf|]. simpl. lia.
Qed.

Lemma increasing_snoc_all a b :
  increasing a -> increasing b -> Forall (fun e => (back_id a < eid e)%Z) b ->
  increasing (a ++ b).
Proof.
  intros Ha Hb Hf. induction Ha as [|e a Hs IH Hfa]; [done|].
  destruct a as [|e' a]; [by constructor|]. rewrite back_id_cons in Hf by done.
  change ((e :: e' :: a) ++ b) with (e :: ((e' :: a) ++ b)).
  constructor; [by apply IH|]. apply Forall_app. split; [done|].
  eapply Forall_impl; [exact Hf|]. intros x Hx. simpl in Hx.
  assert (eid e <= back_id (e' :: a))%Z; [|lia].
  unfold back_id. destruct (last (e' :: a)) as [y|] eqn:Hy; simpl; [|by apply last_None in Hy].
  rewrite Forall_forall in Hfa. assert (eid e < eid y)%Z; [|lia]. apply Hfa.
  by apply last_Some_elem_of.
Qed.

Lemma absorb_page_queue p h :
  increasing p.(event_queue) -> increasing (default [] h) -> increasing p.(final_events) ->
  exists app, (absorb_page p h).(event_queue) = p.(event_queue) ++ app /\
    increasing (absorb_page p h).(event_queue) /\
    increasing (absorb_page p h).(final_events) /\
    (absorb_page p h).(next_page_token) = p.(next_page_token).
Proof.
  intros Hq Hh Hf. unfold absorb_page.
  destruct (skip_while_increasing (back_id (event_queue p)) (default [] h) Hh) as [Hi Ha].
  unfold fresh in *. pose proof (increasing_snoc_all _ _ Hq Hi Ha) as Hq'.
  cbn [next_page_token set_queue event_queue].
  destruct (is_done (next_page_token p)); [|eexists; auto].
  destruct (last _) as [e|] eqn:He; [|eexists; auto].
  cbn [event_queue final_events set_queue set_final next_page_token].
  rewrite <- (assoc_L (++)). eexists. split; [done|]. split; [|split; [constructor|done]].
  rewrite (assoc_L (++)).
  destruct (skip_while_increasing (eid e) (final_events p) Hf) as [Hi2 Ha2].
  apply increasing_snoc_all; [done|done|].
  by assert (forall l, last l = Some e -> back_id l = eid e) as ->
    by (intros l Hl; unfold back_id; by rewrite Hl).
Qed.

Section paginator_facts.
  Context {ClientState : Type}.
  Variable client :
    ClientState -> string -> string -> string -> ClientState * outcome Status GetHistoryResponse.
  (** The server returns the events of a page in order. *)
  Hypothesis pages_increasing : forall c w r t c' resp,
    client c w r t = (c', Ok resp) -> increasing (default [] resp.(ghr_history)).

Lemma fetch_page_spec fuel c p c' p' r :
  fetch_page client fuel c p = Some (c', p', r) ->
  p'.(event_queue) = p.(event_queue) /\ p'.(final_events) = p.(final_events) /\
  (forall h, r = Ok h -> increasing (default [] h)).
Proof using pages_increasing.
  revert c p. induction fuel as [|fuel IH]; intros c p; simpl;
    destruct (next_page_token p); try (intros [= <- <- <-]; split_and!; [done|done|];
      intros h [= <-]; constructor);
    destruct (client _ _ _ _) as [c1 [resp|e|msg]] eqn:Hc;
    try (intros [= <- <- <-]; done);
    apply pages_increasing in Hc;
    destruct (NextPageToken_from _); try (intros [= <- <- <-]; naive_solver);
    destruct (ghr_history resp) as [[|]|]; try done; try (intros [= <- <- <-]; naive_solver);
    intros Hr; apply IH in Hr; done.
Qed.

Lemma get_next_page_spec fuel c p c' p' r :
  increasing p.(event_queue) -> increasing p.(final_events) ->
  get_next_page client fuel c p = Some (c', p', r) ->
  exists app, p'.(event_queue) = p.(event_queue) ++ app /\ increasing p'.(event_queue) /\
    increasing p'.(final_events) /\
    (forall b, r = Ok b -> b = negb (is_done p'.(next_page_token))).
Proof using pages_increasing.
  intros Hq Hf. unfold get_next_page.
  destruct (fetch_page client fuel c p) as [[[c1 p1] r1]|] eqn:Hp; [|done].
  apply fetch_page_spec in Hp as (Eq & Ef & Hh).
  destruct r1 as [h|e|msg]; intros [= <- <- <-].
  - destruct (absorb_page_queue p1 h) as (app & Ha & ? & ? & _);
      [by rewrite Eq|by apply Hh|by rewrite Ef|].
    exists app. split_and!; [congruence|done|done|]. by intros b [= <-].
  - exists []. rewrite app_nil_r, Eq, Ef. by split_and!.
  - exists []. rewrite app_nil_r, Eq, Ef. by split_and!.
Qed.

Lemma extract_step_spec p b p' r :
  increasing p.(event_queue) ->
  extract_step p b = (p', r) ->
  p'.(final_events) = p.(final_events) /\ p'.(next_page_token) = p.(next_page_token) /\
  match r with
  | None => p'.(event_queue) = p.(event_queue)
  | Some (Ok u) => u.(events) ++ p'.(event_queue) = p.(event_queue)
  | Some (Err _) => True
  | Some (Panic _) => False
  end.
Proof.
  intros Hi. unfold extract_step. cbn [wft_started_event_id set_queue next_page_token p_previous_wft_started_id].
  destruct (event_queue p) as [|e0 es] eqn:Hq.
  { destruct (b && _); intros [= <- <-]; done. }
  destruct (b && negb _); [intros [= <- <-]; done|].
  destruct (from_events_spec (e0 :: es) (p_previous_wft_started_id p) (wft_started_event_id p)
    (is_done (next_page_token p) && (wft_started_event_id p <=? back_id (e0 :: es))%Z))
    as (u & extra & -> & _ & _ & _ & Happ & _).
  destruct (negb (is_done _) && _); [intros [= <- <-]; done|].
  destruct (negb _ && _) eqn:Hc; intros [= <- <-]; [|done]. simpl.
  apply andb_true_iff in Hc as [_ Hc]. destruct extra as [|x extra]; [done|].
  apply Z.eqb_eq in Hc. destruct (events u) as [|y ys]; [done|].
  injection Happ as -> Happ. apply StronglySorted_inv in Hi as [_ Hi].
  rewrite <- Happ in Hi. apply Forall_app in Hi as [_ Hi]. apply Forall_cons in Hi as [Hi _]. lia.
Qed.


End paginator_facts.

Section paginator_termination.
  Context {ClientState : Type}.
  Variable client :
    ClientState -> string -> string -> string -> ClientState * outcome Status GetHistoryResponse.
  (** The history has finitely many pages: a response that names a further page
      leaves fewer pages to come. *)
  Variable pages_left : ClientState -> nat.
  Hypothesis pages_finite : forall c w r t c' resp,
    client c w r t = (c', Ok resp) -> resp.(ghr_next_page_token) <> "" ->
    pages_left c' < pages_left c.

Lemma NextPageToken_from_Next t tok : NextPageToken_from t = Next tok -> t <> "".
Proof. by destruct t. Qed.

Lemma fetch_page_terminates fuel c p :
  pages_left c <= fuel ->
  exists c' p' r, fetch_page client fuel c p = Some (c', p', r) /\
    (forall h, r = Ok h -> p'.(next_page_token) <> Done -> pages_left c' < pages_left c).
Proof using pages_finite.
  revert c p. induction fuel as [|fuel IH]; intros c p Hl; simpl;
    (destruct (next_page_token p) eqn:Ht;
      [| |by (eexists _, _, _; split; [done|]; intros h _ Hn; rewrite Ht in Hn)]);
    (destruct (client _ _ _ _) as [c1 [resp|e|msg]] eqn:Hc;
      [|by (eexists _, _, _; split; [done|])|by (eexists _, _, _; split; [done|])]);
    (destruct (NextPageToken_from (ghr_next_page_token resp)) eqn:Hn;
      [by destruct (ghr_next_page_token resp)|
       pose proof (pages_finite _ _ _ _ _ _ Hc (NextPageToken_from_Next _ _ Hn))|
       by (eexists _, _, _; split; [done|])]); try lia;
    destruct (ghr_history resp) as [[|]|];
    try (by (eexists _, _, _; split; [done|]; simpl; intros; lia));
    match goal with |- context [fetch_page _ fuel ?c1 ?p1] =>
      destruct (IH c1 p1) as (c2 & p2 & r2 & H2 & Hd); [lia|]; rewrite H2 end;
    eexists _, _, _; (split; [done|]); intros h Hh Hnd; specialize (Hd h Hh Hnd); lia.
Qed.

Lemma absorb_page_token p h : (absorb_page p h).(next_page_token) = p.(next_page_token).
Proof.
  unfold absorb_page. cbv zeta. destruct (is_done _); [|reflexivity].
  destruct (last _); reflexivity.
Qed.

Lemma get_next_page_terminates fuel c p :
  pages_left c <= fuel ->
  exists c' p' r, get_next_page client fuel c p = Some (c', p', r) /\
    (forall b, r = Ok b -> b = negb (is_done p'.(next_page_token)) /\
       (b = true -> pages_left c' < pages_left c)).
Proof using pages_finite.
  intros Hl. unfold get_next_page.
  destruct (fetch_page_terminates fuel c p Hl) as (c1 & p1 & r1 & -> & Hd).
  destruct r1 as [h|e|msg]; do 3 eexists; (split; [reflexivity|]); [|done|done].
  intros b [= <-]. split; [done|]. intros Hb. apply (Hd h eq_refl).
  rewrite absorb_page_token in Hb. by destruct (next_page_token p1).
Qed.

(** The loop goes on only when there is a further page. *)
Lemma extract_step_continues p b p' :
  b = is_done p.(next_page_token) -> extract_step p b = (p', None) -> b = false.
Proof.
  intros ->. unfold extract_step. cbn [next_page_token set_queue wft_started_event_id].
  destruct (is_done (next_page_token p)); [|done].
  destruct (event_queue p) as [|e0 es]; [by destruct (_ <=? _)%Z|].
  destruct (_ <=? back_id _)%Z; cbn -[from_events]; [|done].
  destruct (from_events _ _ _ _) as [[u extra]|[]|msg]; simpl; by intros [=].
Qed.

(** (termination): extracting an update returns after at most as many
    iterations as there are pages left, if the history has finitely many pages. *)
Theorem extract_next_update_terminates fuel c p :
  pages_left c <= fuel ->
  exists c' p' r, extract_next_update client fuel c p = Some (c', p', r).
Proof using pages_finite.
  revert c p. induction fuel as [|fuel IH]; intros c p Hl; cbn [extract_next_update];
    destruct (get_next_page_terminates _ c p Hl) as (c1 & p1 & r1 & -> & Hd);
    (destruct r1 as [b|e|msg]; [destruct (Hd b eq_refl) as [Hb Hlt]|by eauto|by eauto]);
    (destruct (extract_step p1 (negb b)) as [p2 [r2|]] eqn:Hs; [by eauto|]);
    apply extract_step_continues in Hs; try (subst b; by rewrite negb_involutive);
    apply negb_false_iff in Hs; specialize (Hlt Hs); [lia|].
  apply IH. lia.
Qed.

End paginator_termination.

(** ** Concrete histories *)

Definition ev (id : Z) (ty : EventType) : HistoryEvent :=
  {| HistoryEvent_event_id := id; HistoryEvent_event_time := None;
     HistoryEvent_event_type := EventType_as_i32 ty; HistoryEvent_version := 0;
     HistoryEvent_task_id := 0; HistoryEvent_worker_may_ignore := false;
     HistoryEvent_user_metadata := None; HistoryEvent_attributes := None |}.

(** A workflow that only waits for signals: its tasks produce no commands. *)
Definition signals_page1 : list HistoryEvent :=
  [ev 1 ET_WorkflowExecutionStarted; ev 2 ET_WorkflowTaskScheduled; ev 3 ET_WorkflowTaskStarted;
   ev 4 ET_WorkflowTaskCompleted; ev 5 ET_WorkflowExecutionSignaled;
   ev 6 ET_WorkflowTaskScheduled; ev 7 ET_WorkflowTaskStarted;
   ev 8 ET_WorkflowTaskCompleted; ev 9 ET_WorkflowExecutionSignaled;
   ev 10 ET_WorkflowTaskScheduled; ev 11 ET_WorkflowTaskStarted;
   ev 12 ET_WorkflowTaskCompleted; ev 13 ET_WorkflowExecutionSignaled].

Definition signals_page2 : list HistoryEvent :=
  [ev 14 ET_WorkflowTaskScheduled; ev 15 ET_WorkflowTaskStarted].

(** A server that holds a list of pages. *)
Definition paged_client (c : list (list HistoryEvent)) (_ _ _ : string)
  : list (list HistoryEvent) * outcome Status GetHistoryResponse :=
  match c with
  | [] => ([], Ok {| ghr_history := None; ghr_next_page_token := "" |})
  | [page] => ([], Ok {| ghr_history := Some page; ghr_next_page_token := "" |})
  | page :: c => (c, Ok {| ghr_history := Some page; ghr_next_page_token := "next" |})
  end.

Definition signals_paginator : HistoryPaginator :=
  HistoryPaginator_new [] 0 15 "wf" "run" FetchFromStart.

(** Takes the sequence after [from], if the update is ready for it. *)
Definition take_ids (from : Z) (u : HistoryUpdate) : HistoryUpdate * option (list Z) :=
  match take_next_wft_sequence from u with
  | (u, Ok (WFT evs _)) => (u, Some ((fun e => eid e) <$> evs))
  | (u, _) => (u, None)
  end.

(** (error): an update cut out of the middle of a history can hold a complete
    sequence that it cannot yield, because the events that follow the sequence,
    which were looked at when it was cut, stay with the paginator.  For a
    workflow that only handles signals, the sequence 8..11 belongs to the first
    update, the update reports that it is not ready for it, and the next update
    starts at event 12: events 8 to 11 are never applied. *)
Theorem cut_update_strands_a_sequence :
  match extract_next_update paged_client 9 [signals_page1; signals_page2] signals_paginator with
  | Some (c, p, Ok u) =>
      (fun e => eid e) <$> u.(events) = [1; 2; 3; 4; 5; 6; 7; 8; 9; 10; 11]%Z /\
      let '(u1, s1) := take_ids 0 u in
      let '(u2, s2) := take_ids 3 u1 in
      s1 = Some [1; 2; 3]%Z /\ s2 = Some [4; 5; 6; 7]%Z /\
      (fun e => eid e) <$> u2.(events) = [8; 9; 10; 11]%Z /\
      can_take_next_wft_sequence u2 7 = false /\
      match extract_next_update paged_client 9 c p with
      | Some (_, _, Ok u') => (take_ids 7 u').2 = Some [12; 13; 14; 15]%Z
      | _ => False
      end
  | _ => False
  end.
Proof. vm_compute. repeat split. Qed.

(** The same history in one page is cut correctly. *)
Definition signals_last : HistoryUpdate :=
  {| events := signals_page1 ++ signals_page2; previous_wft_started_id := 0;
     wft_started_id := 15; has_last_wft := true; wft_count := 4 |}.

Definition increasingb (evs : list HistoryEvent) : bool :=
  (fix go (last : Z) (l : list HistoryEvent) :=
     match l with [] => true | e :: l => (last <? eid e)%Z && go (eid e) l end) 0%Z evs.

Lemma increasingb_sound evs :
  increasingb evs = true -> increasing evs /\ Forall (fun e => (0 < eid e)%Z) evs.
Proof.
  unfold increasingb. generalize 0%Z. induction evs as [|e evs IH]; intros z H;
    [split; constructor|].
  apply andb_true_iff in H as [Hz H]. apply Z.ltb_lt in Hz. apply IH in H as [Hi Hf].
  split; constructor; [done|done|done|].
  eapply Forall_impl; [exact Hf|]. simpl. lia.
Qed.

Lemma sequences_cover_last_update_witness :
  let '(ls, u') := sequences 16 0 signals_last in
  concat ls ++ u'.(events) = signals_page1 ++ signals_page2.
Proof.
  pose proof (sequences_cover_last_update signals_last 0 eq_refl
    (proj1 (increasingb_sound (signals_page1 ++ signals_page2) eq_refl))
    (proj2 (increasingb_sound (signals_page1 ++ signals_page2) eq_refl))) as H.
  change (S (length (events signals_last))) with 16 in H.
  destruct (sequences 16 0 signals_last) as [ls u']. exact (proj1 H).
Defined.

Lemma take_next_wft_sequence_lossless_witness :
  exists evs, evs <> [] /\
    evs ++ (take_next_wft_sequence 3 signals_last).1.(events)
    = fresh 3 (signals_page1 ++ signals_page2).
Proof.
  assert (fresh 3 signals_last.(events) <> []) as Hne by (vm_compute; discriminate).
  pose proof (take_next_wft_sequence_lossless signals_last 3 Hne) as H.
  destruct (take_next_wft_sequence 3 signals_last) as [u' r] eqn:Ht.
  destruct H as [(evs & lst & _ & He & Ha & _)|[(Hr & _)|[[msg Hr] _]]];
    [exists evs; split; assumption|vm_compute in Ht; cbn in Hr; congruence..].
Defined.

Definition counted_client (c : nat) (w r t : string)
  : nat * outcome Status GetHistoryResponse :=
  match c with
  | S (S c) => (S c, Ok {| ghr_history := Some signals_page1; ghr_next_page_token := "next" |})
  | _ => (0, Ok {| ghr_history := Some signals_page2; ghr_next_page_token := "" |})
  end.

Lemma counted_client_increasing c w r t c' resp :
  counted_client c w r t = (c', Ok resp) -> increasing (default [] resp.(ghr_history)).
Proof.
  destruct c as [|[|c]]; intros [= <- <-]; apply increasingb_sound; reflexivity.
Qed.

Lemma counted_client_finite c w r t c' resp :
  counted_client c w r t = (c', Ok resp) -> resp.(ghr_next_page_token) <> "" -> c' < c.
Proof. destruct c as [|[|c]]; intros [= <- <-]; simpl; [done|done|lia]. Qed.


Lemma extract_next_update_terminates_witness :
  exists c' p' r, extract_next_update counted_client 2 2 signals_paginator = Some (c', p', r).
Proof.
  exact (extract_next_update_terminates counted_client (fun c => c) counted_client_finite 2 2
    signals_paginator (le_n 2)).
Defined.
