(* ===== verification/WMState.v ===== *)
(** * The state of the workflow machines (machines/workflow_machines.rs)

    The [WorkflowMachines] struct, its parts, and the assignments to its
    fields.  Metrics are left out. *)
From Stdlib Require Import ZArith Lia.
From stdpp Require Import base option list strings gmap.
From S2P Require Import Prelude Flags Protos ProtoExt CoreProtos Fsm LocalActivityMachine.
From S2P Require Import LocalActs DrivenWorkflow Machines HistoryUpdate.
Import LocalActs Driven.

(** ** The worker's configuration (core-api/src/worker.rs) *)
Definition WorkerDeploymentVersion_is_empty (v : WorkerDeploymentVersion) : bool :=
  String.eqb v.(WorkerDeploymentVersion_deployment_name) ""
  && String.eqb v.(WorkerDeploymentVersion_build_id) "".

(** [str::split_once] at a character. *)
Fixpoint split_once (c : Ascii.ascii) (s : string) : option (string * string) :=
  match s with
  | EmptyString => None
  | String a s =>
      if Ascii.eqb a c then Some ("", s)
      else match split_once c s with
           | Some (l, r) => Some (String a l, r)
           | None => None
           end
  end.

(** [FromStr for WorkerDeploymentVersion]; 46 is the code of the dot. *)
Definition WorkerDeploymentVersion_from_str (s : string) : option WorkerDeploymentVersion :=
  match split_once (Ascii.ascii_of_nat 46) s with
  | Some (name, build_id) =>
      Some {| WorkerDeploymentVersion_deployment_name := name;
              WorkerDeploymentVersion_build_id := build_id |}
  | None => None
  end.

Inductive WorkerVersioningStrategy :=
| VersioningNone (build_id : string)
| WorkerDeploymentBased (version : WorkerDeploymentVersion)
| LegacyBuildIdBased (build_id : string).

(** Errors that fail the workflow instead of its task, when the user says so. *)
Inductive WorkflowErrorType :=
| WET_Nondeterminism.

#[global] Instance WorkflowErrorType_eq_dec : EqDecision WorkflowErrorType.
Proof. solve_decision. Defined.

#[global] Instance WorkflowErrorType_countable : Countable WorkflowErrorType.
Proof.
  refine (inj_countable' (fun _ => tt) (fun _ => WET_Nondeterminism) _). by intros [].
Defined.

(** The fields the modelled code reads. *)
Record WorkerConfig := {
  cfg_namespace : string;
  cfg_task_queue : string;
  cfg_versioning_strategy : WorkerVersioningStrategy;
  cfg_max_cached_workflows : nat;
  cfg_ignore_evicts_on_shutdown : bool;
  cfg_workflow_failure_errors : gset WorkflowErrorType;
  cfg_workflow_types_to_failure_errors : gmap string (gset WorkflowErrorType);
}.

Definition should_fail_workflow (c : WorkerConfig) (workflow_type : string)
    (error_type : WorkflowErrorType) : bool :=
  bool_decide (error_type ∈ c.(cfg_workflow_failure_errors))
  || match c.(cfg_workflow_types_to_failure_errors) !! workflow_type with
     | Some s => bool_decide (error_type ∈ s)
     | None => false
     end.

Definition computed_deployment_version (c : WorkerConfig) : option WorkerDeploymentVersion :=
  let wdv := match c.(cfg_versioning_strategy) with
             | VersioningNone build_id | LegacyBuildIdBased build_id =>
                 {| WorkerDeploymentVersion_deployment_name := "";
                    WorkerDeploymentVersion_build_id := build_id |}
             | WorkerDeploymentBased version => version
             end in
  if WorkerDeploymentVersion_is_empty wdv then None else Some wdv.

Record ChangeInfo := { created_command : bool }.

Inductive MachineAssociatedCommand :=
| Real (c : Command)
| FakeLocalActivityMarker (seq : Z).

Section state.
  Context {X : Externs} {K : Type} {Sm : Type -> Type} `{Countable K}.

Record CommandAndMachine := {
  cam_command : MachineAssociatedCommand;
  cam_machine : K;
}.

Record WorkflowMachines := mkWM {
  wm_last_history_from_server : HistoryUpdate;
  wm_protocol_msgs : list IncomingProtocolMessage;
  wm_current_started_event_id : Z;
  wm_next_started_event_id : Z;
  wm_last_processed_event : Z;
  wm_replaying : bool;
  wm_workflow_id : string;
  wm_workflow_type : string;
  wm_run_id : string;
  wm_have_seen_terminal_event : bool;
  wm_workflow_start_time : option Z;
  wm_workflow_end_time : option Z;
  wm_wft_start_time : option Z;
  wm_current_wf_time : option Z;
  wm_observed_internal_flags : InternalFlags;
  wm_history_size_bytes : Z;
  wm_continue_as_new_suggested : bool;
  wm_current_wft_deployment_info : option WorkerDeploymentVersion;
  wm_all_machines : Sm Machines;
  wm_machine_is_core_created : gset K;
  wm_machines_by_event_id : gmap Z K;
  wm_machines_by_protocol_instance_id : gmap string K;
  wm_id_to_machine : gmap CommandID K;
  wm_commands : list CommandAndMachine;
  wm_current_wf_task_commands : list CommandAndMachine;
  wm_message_outbox : list Message;
  wm_encountered_patch_markers : gmap string ChangeInfo;
  wm_local_activity_data : LocalActivityData;
  wm_drive_me : DrivenWorkflow;
  wm_worker_config : WorkerConfig;
}.

Definition set_last_history_from_server (x : HistoryUpdate) (s : WorkflowMachines)
  : WorkflowMachines :=
  mkWM x s.(wm_protocol_msgs) s.(wm_current_started_event_id) s.(wm_next_started_event_id)
    s.(wm_last_processed_event) s.(wm_replaying) s.(wm_workflow_id) s.(wm_workflow_type)
    s.(wm_run_id) s.(wm_have_seen_terminal_event) s.(wm_workflow_start_time)
    s.(wm_workflow_end_time) s.(wm_wft_start_time) s.(wm_current_wf_time)
    s.(wm_observed_internal_flags) s.(wm_history_size_bytes)
    s.(wm_continue_as_new_suggested) s.(wm_current_wft_deployment_info) s.(wm_all_machines)
    s.(wm_machine_is_core_created) s.(wm_machines_by_event_id)
    s.(wm_machines_by_protocol_instance_id) s.(wm_id_to_machine) s.(wm_commands)
    s.(wm_current_wf_task_commands) s.(wm_message_outbox) s.(wm_encountered_patch_markers)
    s.(wm_local_activity_data) s.(wm_drive_me) s.(wm_worker_config).

Definition set_protocol_msgs (x : list IncomingProtocolMessage) (s : WorkflowMachines)
  : WorkflowMachines :=
  mkWM s.(wm_last_history_from_server) x s.(wm_current_started_event_id)
    s.(wm_next_started_event_id) s.(wm_last_processed_event) s.(wm_replaying)
    s.(wm_workflow_id) s.(wm_workflow_type) s.(wm_run_id) s.(wm_have_seen_terminal_event)
    s.(wm_workflow_start_time) s.(wm_workflow_end_time) s.(wm_wft_start_time)
    s.(wm_current_wf_time) s.(wm_observed_internal_flags) s.(wm_history_size_bytes)
    s.(wm_continue_as_new_suggested) s.(wm_current_wft_deployment_info) s.(wm_all_machines)
    s.(wm_machine_is_core_created) s.(wm_machines_by_event_id)
    s.(wm_machines_by_protocol_instance_id) s.(wm_id_to_machine) s.(wm_commands)
    s.(wm_current_wf_task_commands) s.(wm_message_outbox) s.(wm_encountered_patch_markers)
    s.(wm_local_activity_data) s.(wm_drive_me) s.(wm_worker_config).

Definition set_current_started_event_id (x : Z) (s : WorkflowMachines)
  : WorkflowMachines :=
  mkWM s.(wm_last_history_from_server) s.(wm_protocol_msgs) x s.(wm_next_started_event_id)
    s.(wm_last_processed_event) s.(wm_replaying) s.(wm_workflow_id) s.(wm_workflow_type)
    s.(wm_run_id) s.(wm_have_seen_terminal_event) s.(wm_workflow_start_time)
    s.(wm_workflow_end_time) s.(wm_wft_start_time) s.(wm_current_wf_time)
    s.(wm_observed_internal_flags) s.(wm_history_size_bytes)
    s.(wm_continue_as_new_suggested) s.(wm_current_wft_deployment_info) s.(wm_all_machines)
    s.(wm_machine_is_core_created) s.(wm_machines_by_event_id)
    s.(wm_machines_by_protocol_instance_id) s.(wm_id_to_machine) s.(wm_commands)
    s.(wm_current_wf_task_commands) s.(wm_message_outbox) s.(wm_encountered_patch_markers)
    s.(wm_local_activity_data) s.(wm_drive_me) s.(wm_worker_config).

Definition set_next_started_event_id (x : Z) (s : WorkflowMachines)
  : WorkflowMachines :=
  mkWM s.(wm_last_history_from_server) s.(wm_protocol_msgs) s.(wm_current_started_event_id)
    x s.(wm_last_processed_event) s.(wm_replaying) s.(wm_workflow_id) s.(wm_workflow_type)
    s.(wm_run_id) s.(wm_have_seen_terminal_event) s.(wm_workflow_start_time)
    s.(wm_workflow_end_time) s.(wm_wft_start_time) s.(wm_current_wf_time)
    s.(wm_observed_internal_flags) s.(wm_history_size_bytes)
    s.(wm_continue_as_new_suggested) s.(wm_current_wft_deployment_info) s.(wm_all_machines)
    s.(wm_machine_is_core_created) s.(wm_machines_by_event_id)
    s.(wm_machines_by_protocol_instance_id) s.(wm_id_to_machine) s.(wm_commands)
    s.(wm_current_wf_task_commands) s.(wm_message_outbox) s.(wm_encountered_patch_markers)
    s.(wm_local_activity_data) s.(wm_drive_me) s.(wm_worker_config).

Definition set_last_processed_event (x : Z) (s : WorkflowMachines)
  : WorkflowMachines :=
  mkWM s.(wm_last_history_from_server) s.(wm_protocol_msgs) s.(wm_current_started_event_id)
    s.(wm_next_started_event_id) x s.(wm_replaying) s.(wm_workflow_id) s.(wm_workflow_type)
    s.(wm_run_id) s.(wm_have_seen_terminal_event) s.(wm_workflow_start_time)
    s.(wm_workflow_end_time) s.(wm_wft_start_time) s.(wm_current_wf_time)
    s.(wm_observed_internal_flags) s.(wm_history_size_bytes)
    s.(wm_continue_as_new_suggested) s.(wm_current_wft_deployment_info) s.(wm_all_machines)
    s.(wm_machine_is_core_created) s.(wm_machines_by_event_id)
    s.(wm_machines_by_protocol_instance_id) s.(wm_id_to_machine) s.(wm_commands)
    s.(wm_current_wf_task_commands) s.(wm_message_outbox) s.(wm_encountered_patch_markers)
    s.(wm_local_activity_data) s.(wm_drive_me) s.(wm_worker_config).

Definition set_replaying (x : bool) (s : WorkflowMachines)
  : WorkflowMachines :=
  mkWM s.(wm_last_history_from_server) s.(wm_protocol_msgs) s.(wm_current_started_event_id)
    s.(wm_next_started_event_id) s.(wm_last_processed_event) x s.(wm_workflow_id)
    s.(wm_workflow_type) s.(wm_run_id) s.(wm_have_seen_terminal_event)
    s.(wm_workflow_start_time) s.(wm_workflow_end_time) s.(wm_wft_start_time)
    s.(wm_current_wf_time) s.(wm_observed_internal_flags) s.(wm_history_size_bytes)
    s.(wm_continue_as_new_suggested) s.(wm_current_wft_deployment_info) s.(wm_all_machines)
    s.(wm_machine_is_core_created) s.(wm_machines_by_event_id)
    s.(wm_machines_by_protocol_instance_id) s.(wm_id_to_machine) s.(wm_commands)
    s.(wm_current_wf_task_commands) s.(wm_message_outbox) s.(wm_encountered_patch_markers)
    s.(wm_local_activity_data) s.(wm_drive_me) s.(wm_worker_config).

Definition set_have_seen_terminal_event (x : bool) (s : WorkflowMachines)
  : WorkflowMachines :=
  mkWM s.(wm_last_history_from_server) s.(wm_protocol_msgs) s.(wm_current_started_event_id)
    s.(wm_next_started_event_id) s.(wm_last_processed_event) s.(wm_replaying)
    s.(wm_workflow_id) s.(wm_workflow_type) s.(wm_run_id) x s.(wm_workflow_start_time)
    s.(wm_workflow_end_time) s.(wm_wft_start_time) s.(wm_current_wf_time)
    s.(wm_observed_internal_flags) s.(wm_history_size_bytes)
    s.(wm_continue_as_new_suggested) s.(wm_current_wft_deployment_info) s.(wm_all_machines)
    s.(wm_machine_is_core_created) s.(wm_machines_by_event_id)
    s.(wm_machines_by_protocol_instance_id) s.(wm_id_to_machine) s.(wm_commands)
    s.(wm_current_wf_task_commands) s.(wm_message_outbox) s.(wm_encountered_patch_markers)
    s.(wm_local_activity_data) s.(wm_drive_me) s.(wm_worker_config).

Definition set_workflow_start_time (x : option Z) (s : WorkflowMachines)
  : WorkflowMachines :=
  mkWM s.(wm_last_history_from_server) s.(wm_protocol_msgs) s.(wm_current_started_event_id)
    s.(wm_next_started_event_id) s.(wm_last_processed_event) s.(wm_replaying)
    s.(wm_workflow_id) s.(wm_workflow_type) s.(wm_run_id) s.(wm_have_seen_terminal_event) x
    s.(wm_workflow_end_time) s.(wm_wft_start_time) s.(wm_current_wf_time)
    s.(wm_observed_internal_flags) s.(wm_history_size_bytes)
    s.(wm_continue_as_new_suggested) s.(wm_current_wft_deployment_info) s.(wm_all_machines)
    s.(wm_machine_is_core_created) s.(wm_machines_by_event_id)
    s.(wm_machines_by_protocol_instance_id) s.(wm_id_to_machine) s.(wm_commands)
    s.(wm_current_wf_task_commands) s.(wm_message_outbox) s.(wm_encountered_patch_markers)
    s.(wm_local_activity_data) s.(wm_drive_me) s.(wm_worker_config).

Definition set_workflow_end_time (x : option Z) (s : WorkflowMachines)
  : WorkflowMachines :=
  mkWM s.(wm_last_history_from_server) s.(wm_protocol_msgs) s.(wm_current_started_event_id)
    s.(wm_next_started_event_id) s.(wm_last_processed_event) s.(wm_replaying)
    s.(wm_workflow_id) s.(wm_workflow_type) s.(wm_run_id) s.(wm_have_seen_terminal_event)
    s.(wm_workflow_start_time) x s.(wm_wft_start_time) s.(wm_current_wf_time)
    s.(wm_observed_internal_flags) s.(wm_history_size_bytes)
    s.(wm_continue_as_new_suggested) s.(wm_current_wft_deployment_info) s.(wm_all_machines)
    s.(wm_machine_is_core_created) s.(wm_machines_by_event_id)
    s.(wm_machines_by_protocol_instance_id) s.(wm_id_to_machine) s.(wm_commands)
    s.(wm_current_wf_task_commands) s.(wm_message_outbox) s.(wm_encountered_patch_markers)
    s.(wm_local_activity_data) s.(wm_drive_me) s.(wm_worker_config).

Definition set_wft_start_time (x : option Z) (s : WorkflowMachines)
  : WorkflowMachines :=
  mkWM s.(wm_last_history_from_server) s.(wm_protocol_msgs) s.(wm_current_started_event_id)
    s.(wm_next_started_event_id) s.(wm_last_processed_event) s.(wm_replaying)
    s.(wm_workflow_id) s.(wm_workflow_type) s.(wm_run_id) s.(wm_have_seen_terminal_event)
    s.(wm_workflow_start_time) s.(wm_workflow_end_time) x s.(wm_current_wf_time)
    s.(wm_observed_internal_flags) s.(wm_history_size_bytes)
    s.(wm_continue_as_new_suggested) s.(wm_current_wft_deployment_info) s.(wm_all_machines)
    s.(wm_machine_is_core_created) s.(wm_machines_by_event_id)
    s.(wm_machines_by_protocol_instance_id) s.(wm_id_to_machine) s.(wm_commands)
    s.(wm_current_wf_task_commands) s.(wm_message_outbox) s.(wm_encountered_patch_markers)
    s.(wm_local_activity_data) s.(wm_drive_me) s.(wm_worker_config).

Definition set_current_wf_time (x : option Z) (s : WorkflowMachines)
  : WorkflowMachines :=
  mkWM s.(wm_last_history_from_server) s.(wm_protocol_msgs) s.(wm_current_started_event_id)
    s.(wm_next_started_event_id) s.(wm_last_processed_event) s.(wm_replaying)
    s.(wm_workflow_id) s.(wm_workflow_type) s.(wm_run_id) s.(wm_have_seen_terminal_event)
    s.(wm_workflow_start_time) s.(wm_workflow_end_time) s.(wm_wft_start_time) x
    s.(wm_observed_internal_flags) s.(wm_history_size_bytes)
    s.(wm_continue_as_new_suggested) s.(wm_current_wft_deployment_info) s.(wm_all_machines)
    s.(wm_machine_is_core_created) s.(wm_machines_by_event_id)
    s.(wm_machines_by_protocol_instance_id) s.(wm_id_to_machine) s.(wm_commands)
    s.(wm_current_wf_task_commands) s.(wm_message_outbox) s.(wm_encountered_patch_markers)
    s.(wm_local_activity_data) s.(wm_drive_me) s.(wm_worker_config).

Definition set_observed_internal_flags (x : InternalFlags) (s : WorkflowMachines)
  : WorkflowMachines :=
  mkWM s.(wm_last_history_from_server) s.(wm_protocol_msgs) s.(wm_current_started_event_id)
    s.(wm_next_started_event_id) s.(wm_last_processed_event) s.(wm_replaying)
    s.(wm_workflow_id) s.(wm_workflow_type) s.(wm_run_id) s.(wm_have_seen_terminal_event)
    s.(wm_workflow_start_time) s.(wm_workflow_end_time) s.(wm_wft_start_time)
    s.(wm_current_wf_time) x s.(wm_history_size_bytes) s.(wm_continue_as_new_suggested)
    s.(wm_current_wft_deployment_info) s.(wm_all_machines) s.(wm_machine_is_core_created)
    s.(wm_machines_by_event_id) s.(wm_machines_by_protocol_instance_id) s.(wm_id_to_machine)
    s.(wm_commands) s.(wm_current_wf_task_commands) s.(wm_message_outbox)
    s.(wm_encountered_patch_markers) s.(wm_local_activity_data) s.(wm_drive_me)
    s.(wm_worker_config).

Definition set_history_size_bytes (x : Z) (s : WorkflowMachines)
  : WorkflowMachines :=
  mkWM s.(wm_last_history_from_server) s.(wm_protocol_msgs) s.(wm_current_started_event_id)
    s.(wm_next_started_event_id) s.(wm_last_processed_event) s.(wm_replaying)
    s.(wm_workflow_id) s.(wm_workflow_type) s.(wm_run_id) s.(wm_have_seen_terminal_event)
    s.(wm_workflow_start_time) s.(wm_workflow_end_time) s.(wm_wft_start_time)
    s.(wm_current_wf_time) s.(wm_observed_internal_flags) x s.(wm_continue_as_new_suggested)
    s.(wm_current_wft_deployment_info) s.(wm_all_machines) s.(wm_machine_is_core_created)
    s.(wm_machines_by_event_id) s.(wm_machines_by_protocol_instance_id) s.(wm_id_to_machine)
    s.(wm_commands) s.(wm_current_wf_task_commands) s.(wm_message_outbox)
    s.(wm_encountered_patch_markers) s.(wm_local_activity_data) s.(wm_drive_me)
    s.(wm_worker_config).

Definition set_continue_as_new_suggested (x : bool) (s : WorkflowMachines)
  : WorkflowMachines :=
  mkWM s.(wm_last_history_from_server) s.(wm_protocol_msgs) s.(wm_current_started_event_id)
    s.(wm_next_started_event_id) s.(wm_last_processed_event) s.(wm_replaying)
    s.(wm_workflow_id) s.(wm_workflow_type) s.(wm_run_id) s.(wm_have_seen_terminal_event)
    s.(wm_workflow_start_time) s.(wm_workflow_end_time) s.(wm_wft_start_time)
    s.(wm_current_wf_time) s.(wm_observed_internal_flags) s.(wm_history_size_bytes) x
    s.(wm_current_wft_deployment_info) s.(wm_all_machines) s.(wm_machine_is_core_created)
    s.(wm_machines_by_event_id) s.(wm_machines_by_protocol_instance_id) s.(wm_id_to_machine)
    s.(wm_commands) s.(wm_current_wf_task_commands) s.(wm_message_outbox)
    s.(wm_encountered_patch_markers) s.(wm_local_activity_data) s.(wm_drive_me)
    s.(wm_worker_config).

Definition set_current_wft_deployment_info (x : option WorkerDeploymentVersion) (s : WorkflowMachines)
  : WorkflowMachines :=
  mkWM s.(wm_last_history_from_server) s.(wm_protocol_msgs) s.(wm_current_started_event_id)
    s.(wm_next_started_event_id) s.(wm_last_processed_event) s.(wm_replaying)
    s.(wm_workflow_id) s.(wm_workflow_type) s.(wm_run_id) s.(wm_have_seen_terminal_event)
    s.(wm_workflow_start_time) s.(wm_workflow_end_time) s.(wm_wft_start_time)
    s.(wm_current_wf_time) s.(wm_observed_internal_flags) s.(wm_history_size_bytes)
    s.(wm_continue_as_new_suggested) x s.(wm_all_machines) s.(wm_machine_is_core_created)
    s.(wm_machines_by_event_id) s.(wm_machines_by_protocol_instance_id) s.(wm_id_to_machine)
    s.(wm_commands) s.(wm_current_wf_task_commands) s.(wm_message_outbox)
    s.(wm_encountered_patch_markers) s.(wm_local_activity_data) s.(wm_drive_me)
    s.(wm_worker_config).

Definition set_all_machines (x : Sm Machines) (s : WorkflowMachines)
  : WorkflowMachines :=
  mkWM s.(wm_last_history_from_server) s.(wm_protocol_msgs) s.(wm_current_started_event_id)
    s.(wm_next_started_event_id) s.(wm_last_processed_event) s.(wm_replaying)
    s.(wm_workflow_id) s.(wm_workflow_type) s.(wm_run_id) s.(wm_have_seen_terminal_event)
    s.(wm_workflow_start_time) s.(wm_workflow_end_time) s.(wm_wft_start_time)
    s.(wm_current_wf_time) s.(wm_observed_internal_flags) s.(wm_history_size_bytes)
    s.(wm_continue_as_new_suggested) s.(wm_current_wft_deployment_info) x
    s.(wm_machine_is_core_created) s.(wm_machines_by_event_id)
    s.(wm_machines_by_protocol_instance_id) s.(wm_id_to_machine) s.(wm_commands)
    s.(wm_current_wf_task_commands) s.(wm_message_outbox) s.(wm_encountered_patch_markers)
    s.(wm_local_activity_data) s.(wm_drive_me) s.(wm_worker_config).

Definition set_machine_is_core_created (x : gset K) (s : WorkflowMachines)
  : WorkflowMachines :=
  mkWM s.(wm_last_history_from_server) s.(wm_protocol_msgs) s.(wm_current_started_event_id)
    s.(wm_next_started_event_id) s.(wm_last_processed_event) s.(wm_replaying)
    s.(wm_workflow_id) s.(wm_workflow_type) s.(wm_run_id) s.(wm_have_seen_terminal_event)
    s.(wm_workflow_start_time) s.(wm_workflow_end_time) s.(wm_wft_start_time)
    s.(wm_current_wf_time) s.(wm_observed_internal_flags) s.(wm_history_size_bytes)
    s.(wm_continue_as_new_suggested) s.(wm_current_wft_deployment_info) s.(wm_all_machines)
    x s.(wm_machines_by_event_id) s.(wm_machines_by_protocol_instance_id)
    s.(wm_id_to_machine) s.(wm_commands) s.(wm_current_wf_task_commands)
    s.(wm_message_outbox) s.(wm_encountered_patch_markers) s.(wm_local_activity_data)
    s.(wm_drive_me) s.(wm_worker_config).

Definition set_machines_by_event_id (x : gmap Z K) (s : WorkflowMachines)
  : WorkflowMachines :=
  mkWM s.(wm_last_history_from_server) s.(wm_protocol_msgs) s.(wm_current_started_event_id)
    s.(wm_next_started_event_id) s.(wm_last_processed_event) s.(wm_replaying)
    s.(wm_workflow_id) s.(wm_workflow_type) s.(wm_run_id) s.(wm_have_seen_terminal_event)
    s.(wm_workflow_start_time) s.(wm_workflow_end_time) s.(wm_wft_start_time)
    s.(wm_current_wf_time) s.(wm_observed_internal_flags) s.(wm_history_size_bytes)
    s.(wm_continue_as_new_suggested) s.(wm_current_wft_deployment_info) s.(wm_all_machines)
    s.(wm_machine_is_core_created) x s.(wm_machines_by_protocol_instance_id)
    s.(wm_id_to_machine) s.(wm_commands) s.(wm_current_wf_task_commands)
    s.(wm_message_outbox) s.(wm_encountered_patch_markers) s.(wm_local_activity_data)
    s.(wm_drive_me) s.(wm_worker_config).

Definition set_machines_by_protocol_instance_id (x : gmap string K) (s : WorkflowMachines)
  : WorkflowMachines :=
  mkWM s.(wm_last_history_from_server) s.(wm_protocol_msgs) s.(wm_current_started_event_id)
    s.(wm_next_started_event_id) s.(wm_last_processed_event) s.(wm_replaying)
    s.(wm_workflow_id) s.(wm_workflow_type) s.(wm_run_id) s.(wm_have_seen_terminal_event)
    s.(wm_workflow_start_time) s.(wm_workflow_end_time) s.(wm_wft_start_time)
    s.(wm_current_wf_time) s.(wm_observed_internal_flags) s.(wm_history_size_bytes)
    s.(wm_continue_as_new_suggested) s.(wm_current_wft_deployment_info) s.(wm_all_machines)
    s.(wm_machine_is_core_created) s.(wm_machines_by_event_id) x s.(wm_id_to_machine)
    s.(wm_commands) s.(wm_current_wf_task_commands) s.(wm_message_outbox)
    s.(wm_encountered_patch_markers) s.(wm_local_activity_data) s.(wm_drive_me)
    s.(wm_worker_config).

Definition set_id_to_machine (x : gmap CommandID K) (s : WorkflowMachines)
  : WorkflowMachines :=
  mkWM s.(wm_last_history_from_server) s.(wm_protocol_msgs) s.(wm_current_started_event_id)
    s.(wm_next_started_event_id) s.(wm_last_processed_event) s.(wm_replaying)
    s.(wm_workflow_id) s.(wm_workflow_type) s.(wm_run_id) s.(wm_have_seen_terminal_event)
    s.(wm_workflow_start_time) s.(wm_workflow_end_time) s.(wm_wft_start_time)
    s.(wm_current_wf_time) s.(wm_observed_internal_flags) s.(wm_history_size_bytes)
    s.(wm_continue_as_new_suggested) s.(wm_current_wft_deployment_info) s.(wm_all_machines)
    s.(wm_machine_is_core_created) s.(wm_machines_by_event_id)
    s.(wm_machines_by_protocol_instance_id) x s.(wm_commands)
    s.(wm_current_wf_task_commands) s.(wm_message_outbox) s.(wm_encountered_patch_markers)
    s.(wm_local_activity_data) s.(wm_drive_me) s.(wm_worker_config).

Definition set_commands (x : list CommandAndMachine) (s : WorkflowMachines)
  : WorkflowMachines :=
  mkWM s.(wm_last_history_from_server) s.(wm_protocol_msgs) s.(wm_current_started_event_id)
    s.(wm_next_started_event_id) s.(wm_last_processed_event) s.(wm_replaying)
    s.(wm_workflow_id) s.(wm_workflow_type) s.(wm_run_id) s.(wm_have_seen_terminal_event)
    s.(wm_workflow_start_time) s.(wm_workflow_end_time) s.(wm_wft_start_time)
    s.(wm_current_wf_time) s.(wm_observed_internal_flags) s.(wm_history_size_bytes)
    s.(wm_continue_as_new_suggested) s.(wm_current_wft_deployment_info) s.(wm_all_machines)
    s.(wm_machine_is_core_created) s.(wm_machines_by_event_id)
    s.(wm_machines_by_protocol_instance_id) s.(wm_id_to_machine) x
    s.(wm_current_wf_task_commands) s.(wm_message_outbox) s.(wm_encountered_patch_markers)
    s.(wm_local_activity_data) s.(wm_drive_me) s.(wm_worker_config).

Definition set_current_wf_task_commands (x : list CommandAndMachine) (s : WorkflowMachines)
  : WorkflowMachines :=
  mkWM s.(wm_last_history_from_server) s.(wm_protocol_msgs) s.(wm_current_started_event_id)
    s.(wm_next_started_event_id) s.(wm_last_processed_event) s.(wm_replaying)
    s.(wm_workflow_id) s.(wm_workflow_type) s.(wm_run_id) s.(wm_have_seen_terminal_event)
    s.(wm_workflow_start_time) s.(wm_workflow_end_time) s.(wm_wft_start_time)
    s.(wm_current_wf_time) s.(wm_observed_internal_flags) s.(wm_history_size_bytes)
    s.(wm_continue_as_new_suggested) s.(wm_current_wft_deployment_info) s.(wm_all_machines)
    s.(wm_machine_is_core_created) s.(wm_machines_by_event_id)
    s.(wm_machines_by_protocol_instance_id) s.(wm_id_to_machine) s.(wm_commands) x
    s.(wm_message_outbox) s.(wm_encountered_patch_markers) s.(wm_local_activity_data)
    s.(wm_drive_me) s.(wm_worker_config).

Definition set_message_outbox (x : list Message) (s : WorkflowMachines)
  : WorkflowMachines :=
  mkWM s.(wm_last_history_from_server) s.(wm_protocol_msgs) s.(wm_current_started_event_id)
    s.(wm_next_started_event_id) s.(wm_last_processed_event) s.(wm_replaying)
    s.(wm_workflow_id) s.(wm_workflow_type) s.(wm_run_id) s.(wm_have_seen_terminal_event)
    s.(wm_workflow_start_time) s.(wm_workflow_end_time) s.(wm_wft_start_time)
    s.(wm_current_wf_time) s.(wm_observed_internal_flags) s.(wm_history_size_bytes)
    s.(wm_continue_as_new_suggested) s.(wm_current_wft_deployment_info) s.(wm_all_machines)
    s.(wm_machine_is_core_created) s.(wm_machines_by_event_id)
    s.(wm_machines_by_protocol_instance_id) s.(wm_id_to_machine) s.(wm_commands)
    s.(wm_current_wf_task_commands) x s.(wm_encountered_patch_markers)
    s.(wm_local_activity_data) s.(wm_drive_me) s.(wm_worker_config).

Definition set_encountered_patch_markers (x : gmap string ChangeInfo) (s : WorkflowMachines)
  : WorkflowMachines :=
  mkWM s.(wm_last_history_from_server) s.(wm_protocol_msgs) s.(wm_current_started_event_id)
    s.(wm_next_started_event_id) s.(wm_last_processed_event) s.(wm_replaying)
    s.(wm_workflow_id) s.(wm_workflow_type) s.(wm_run_id) s.(wm_have_seen_terminal_event)
    s.(wm_workflow_start_time) s.(wm_workflow_end_time) s.(wm_wft_start_time)
    s.(wm_current_wf_time) s.(wm_observed_internal_flags) s.(wm_history_size_bytes)
    s.(wm_continue_as_new_suggested) s.(wm_current_wft_deployment_info) s.(wm_all_machines)
    s.(wm_machine_is_core_created) s.(wm_machines_by_event_id)
    s.(wm_machines_by_protocol_instance_id) s.(wm_id_to_machine) s.(wm_commands)
    s.(wm_current_wf_task_commands) s.(wm_message_outbox) x s.(wm_local_activity_data)
    s.(wm_drive_me) s.(wm_worker_config).

Definition set_local_activity_data (x : LocalActivityData) (s : WorkflowMachines)
  : WorkflowMachines :=
  mkWM s.(wm_last_history_from_server) s.(wm_protocol_msgs) s.(wm_current_started_event_id)
    s.(wm_next_started_event_id) s.(wm_last_processed_event) s.(wm_replaying)
    s.(wm_workflow_id) s.(wm_workflow_type) s.(wm_run_id) s.(wm_have_seen_terminal_event)
    s.(wm_workflow_start_time) s.(wm_workflow_end_time) s.(wm_wft_start_time)
    s.(wm_current_wf_time) s.(wm_observed_internal_flags) s.(wm_history_size_bytes)
    s.(wm_continue_as_new_suggested) s.(wm_current_wft_deployment_info) s.(wm_all_machines)
    s.(wm_machine_is_core_created) s.(wm_machines_by_event_id)
    s.(wm_machines_by_protocol_instance_id) s.(wm_id_to_machine) s.(wm_commands)
    s.(wm_current_wf_task_commands) s.(wm_message_outbox) s.(wm_encountered_patch_markers) x
    s.(wm_drive_me) s.(wm_worker_config).

Definition set_drive_me (x : DrivenWorkflow) (s : WorkflowMachines)
  : WorkflowMachines :=
  mkWM s.(wm_last_history_from_server) s.(wm_protocol_msgs) s.(wm_current_started_event_id)
    s.(wm_next_started_event_id) s.(wm_last_processed_event) s.(wm_replaying)
    s.(wm_workflow_id) s.(wm_workflow_type) s.(wm_run_id) s.(wm_have_seen_terminal_event)
    s.(wm_workflow_start_time) s.(wm_workflow_end_time) s.(wm_wft_start_time)
    s.(wm_current_wf_time) s.(wm_observed_internal_flags) s.(wm_history_size_bytes)
    s.(wm_continue_as_new_suggested) s.(wm_current_wft_deployment_info) s.(wm_all_machines)
    s.(wm_machine_is_core_created) s.(wm_machines_by_event_id)
    s.(wm_machines_by_protocol_instance_id) s.(wm_id_to_machine) s.(wm_commands)
    s.(wm_current_wf_task_commands) s.(wm_message_outbox) s.(wm_encountered_patch_markers)
    s.(wm_local_activity_data) x s.(wm_worker_config).

End state.

Arguments CommandAndMachine : clear implicits.
Arguments WorkflowMachines {X} K Sm {_ _}.
