(* ===== verification/WorkflowMachines.v ===== *)
(** * The workflow machines (machines/workflow_machines.rs)

    The orchestrator of a run: it applies history events and lang's commands to
    the machines, acts on their responses, and keeps the queues of jobs for lang
    and of commands for the server. *)
From Stdlib Require Import ZArith Lia.
From stdpp Require Import base option list strings gmap.
From S2P Require Import Prelude Flags Protos ProtoExt CoreProtos Fsm TimerMachine.
From S2P Require Import ActivityMachine ChildWorkflowMachine NexusMachine.
From S2P Require Import LocalActivityMachine WorkflowTaskMachine UpdateMachine.
From S2P Require Import ExternalMachines TerminalMachines SideMachines LocalActs.
From S2P Require Import DrivenWorkflow Machines HistoryUpdate WMState.
Import LocalActs.

Inductive CommandIdKind :=
| LangIssued (id : CommandID)
| CoreInternal
| NeverResolves.

Inductive EventHandlingOutcome :=
| SkipEvent (skip_next_event : bool)
| SkipCommand
| Normal.

Section workflow_machines.
  Context {X : Externs} {K : Type} {Sm : Type -> Type} `{Countable K} `{SlotMap K Sm}.

Abbreviation WM := (M (WorkflowMachines K Sm) WFMachinesError).

(** ** Access to the machines *)

(** [machine] and [machine_mut]: both [expect] the machine. *)
Definition get_machine (k : K) : WM Machines :=
  fun s =>
    match slot_get s.(wm_all_machines) k with
    | Some m => (s, Ok m)
    | None => (s, Panic missing_machine)
    end.

(** A method of the machine at [k], which shares the flags of the run. *)
Definition on_machine {A} (k : K) (f : M (Machines * InternalFlags) WFMachinesError A) : WM A :=
  fun s =>
    match slot_get s.(wm_all_machines) k with
    | Some m =>
        let '((m, fl), r) := f (m, s.(wm_observed_internal_flags)) in
        (set_observed_internal_flags fl
           (set_all_machines (slot_update k m s.(wm_all_machines)) s), r)
    | None => (s, Panic missing_machine)
    end.

(** Inserting a machine. *)
Definition insert_machine (m : Machines) : WM K :=
  fun s =>
    let '(k, ms) := slot_insert m s.(wm_all_machines) in
    (set_all_machines ms s, Ok k).

Definition get_machine_key (id : CommandID) : WM K :=
  fun s =>
    match s.(wm_id_to_machine) !! id with
    | Some k => (s, Ok k)
    | None => (s, Err (Nondeterminism ("Missing associated machine for " +:+ CommandID_debug id)))
    end.

Definition get_machine_by_msg (protocol_instance_id : string) : WM K :=
  fun s =>
    match s.(wm_machines_by_protocol_instance_id) !! protocol_instance_id with
    | Some k => (s, Ok k)
    | None => (s, Err (Fatal ("Missing associated machine for protocol message "
                              +:+ protocol_instance_id)))
    end.

(** ** The state *)

Record RunBasics := {
  rb_worker_config : WorkerConfig;
  rb_workflow_id : string;
  rb_workflow_type : string;
  rb_run_id : string;
  rb_history : HistoryUpdate;
  rb_sdk_metadata_capability : bool;
  rb_sdk_name : string;
  rb_sdk_version : string;
}.

(** [WorkflowMachines::new]. *)
Definition WorkflowMachines_new (basics : RunBasics) (driven_wf : Driven.DrivenWorkflow)
  : WorkflowMachines K Sm :=
  let flags := InternalFlags_new basics.(rb_sdk_metadata_capability) basics.(rb_sdk_name)
                 basics.(rb_sdk_version) in
  {| wm_last_history_from_server := basics.(rb_history);
     wm_protocol_msgs := [];
     wm_current_started_event_id := 0;
     wm_next_started_event_id := 0;
     wm_last_processed_event := 0;
     wm_replaying := (0 <? basics.(rb_history).(previous_wft_started_id))%Z;
     wm_workflow_id := basics.(rb_workflow_id);
     wm_workflow_type := basics.(rb_workflow_type);
     wm_run_id := basics.(rb_run_id);
     wm_have_seen_terminal_event := false;
     wm_workflow_start_time := None;
     wm_workflow_end_time := None;
     wm_wft_start_time := None;
     wm_current_wf_time := None;
     wm_observed_internal_flags :=
       match peek_next_wft_completed basics.(rb_history) 0 with
       | Some attrs => add_from_complete attrs.(WorkflowTaskCompletedEv_sdk_metadata) flags
       | None => flags
       end;
     wm_history_size_bytes := 0;
     wm_continue_as_new_suggested := false;
     wm_current_wft_deployment_info := None;
     wm_all_machines := slot_empty;
     wm_machine_is_core_created := ∅;
     wm_machines_by_event_id := ∅;
     wm_machines_by_protocol_instance_id := ∅;
     wm_id_to_machine := ∅;
     wm_commands := [];
     wm_current_wf_task_commands := [];
     wm_message_outbox := [];
     wm_encountered_patch_markers := ∅;
     wm_local_activity_data := LocalActivityData_default;
     wm_drive_me := driven_wf;
     wm_worker_config := basics.(rb_worker_config) |}.

Definition workflow_is_finished (s : WorkflowMachines K Sm) : bool :=
  match s.(wm_workflow_end_time) with Some _ => true | None => false end.

(** [total_runtime]; [None] when time went backwards. *)
Definition total_runtime (s : WorkflowMachines K Sm) : option Z :=
  match s.(wm_workflow_start_time), s.(wm_workflow_end_time) with
  | Some st, Some et => if (st <=? et)%Z then Some (et - st)%Z else None
  | _, _ => None
  end.

Definition set_current_time (time : Z) (s : WorkflowMachines K Sm) : WorkflowMachines K Sm :=
  if match s.(wm_current_wf_time) with Some t => (t <? time)%Z | None => true end
  then set_current_wf_time (Some time) s else s.

Definition send_job (job : JobVariant) (s : WorkflowMachines K Sm) : WorkflowMachines K Sm :=
  set_drive_me (Driven.send_job job s.(wm_drive_me)) s.

Definition update_la_data (f : LocalActivityData -> LocalActivityData)
    (s : WorkflowMachines K Sm) : WorkflowMachines K Sm :=
  set_local_activity_data (f s.(wm_local_activity_data)) s.

(** [take_preresolution] on the run's local activity data. *)
Definition take_preresolution_of (seq : Z) : WM (option LocalActivity.ResolveDat) :=
  fun s =>
    let '(d, r) := take_preresolution seq s.(wm_local_activity_data) in
    (set_local_activity_data d s, Ok r).

Definition remove_from_queue_of (seq : Z) : WM (option ValidScheduleLA) :=
  fun s =>
    let '(d, r) := remove_from_queue seq s.(wm_local_activity_data) in
    (set_local_activity_data d s, Ok r).

(** [str_to_randomness_seed]: SipHash-1-3 with zero keys. *)
Definition str_to_randomness_seed (run_id : string) : Z := sip_hash13 run_id.

(** ** New machines *)

Definition add_new_command_machine (machine : Machines * Attributes)
    (metadata : option UserMetadata) : WM (CommandAndMachine K) :=
  k ← insert_machine machine.1;
  mret {| cam_command := Real {| Command_command_type := CommandType_as_i32 (as_type machine.2);
                                 Command_user_metadata := metadata;
                                 Command_attributes := Some machine.2 |};
          cam_machine := k |}.

Definition push_current_command (c : CommandAndMachine K) (s : WorkflowMachines K Sm)
  : WorkflowMachines K Sm :=
  set_current_wf_task_commands (s.(wm_current_wf_task_commands) ++ [c]) s.

Definition add_cmd_to_wf_task (machine : Machines * Attributes) (metadata : option UserMetadata)
    (id : CommandIdKind) : WM K :=
  mach ← add_new_command_machine machine metadata;
  let key := mach.(cam_machine) in
  _ ← match id with
      | LangIssued id =>
          modify (fun s => set_id_to_machine (<[id := key]> s.(wm_id_to_machine)) s)
      | CoreInternal =>
          modify (fun s =>
            set_machine_is_core_created ({[key]} ∪ s.(wm_machine_is_core_created)) s)
      | NeverResolves => mret tt
      end;
  _ ← modify (push_current_command mach);
  mret key.

(** [now] is the reading of the clock. *)
Definition add_terminal_command (now : Z) (machine : Machines * Attributes)
    (metadata : option UserMetadata) : WM unit :=
  cwfm ← add_new_command_machine machine metadata;
  modify (fun s =>
    update_la_data indicate_terminating
      (push_current_command cwfm (set_workflow_end_time (Some now) s))).

Definition add_new_protocol_machine (machine : Machines) (instance_id : string) : WM K :=
  k ← insert_machine machine;
  _ ← modify (fun s => set_machines_by_protocol_instance_id
                         (<[instance_id := k]> s.(wm_machines_by_protocol_instance_id)) s);
  mret k.

(** A constructor of a machine, run with the flags of the run. *)
Definition create {SM} (c : machine SM -> Machines)
    (f : InternalFlags -> (machine SM * InternalFlags) * outcome WFMachinesError Attributes)
  : WM (Machines * Attributes) :=
  fun s =>
    let '((m, fl), r) := f s.(wm_observed_internal_flags) in
    (set_observed_internal_flags fl s, a ← r; Ok (c m, a)).

(** ** Responses of machines *)

(** A local activity method on a machine that may be another one. *)
Definition la_method {A} (other : outcome WFMachinesError A)
    (f : MachineM LocalActivity.LocalActivityMachine A)
  : M (Machines * InternalFlags) WFMachinesError A :=
  fun '(ms, fl) =>
    match ms with
    | M_LocalActivity m => inject M_LocalActivity (f (m, fl))
    | _ => ((ms, fl), other)
    end.

(** The local activity machines told of a task that is not replayed, in the
    order of the slot map. *)
Fixpoint notify_non_replay (keys : list K) : WM (list (K * list MachineResponse)) :=
  match keys with
  | [] => mret []
  | k :: keys =>
      m ← get_machine k;
      resps ← match m with
              | M_LocalActivity _ =>
                  r ← on_machine k (la_method (Ok []) LocalActivity.encountered_non_replay_wft);
                  mret [(k, r)]
              | _ => mret []
              end;
      rest ← notify_non_replay keys;
      mret (resps ++ rest)
  end.

Section process.
  (** [process_machine_responses], for the calls it makes of itself. *)
  Variable process : K -> list MachineResponse -> WM unit.

Definition task_started (task_started_event_id time : Z) : WM unit :=
  _ ← modify (set_current_started_event_id task_started_event_id);
  _ ← modify (set_wft_start_time (Some time));
  _ ← modify (set_current_time time);
  s ← get;
  if s.(wm_replaying) then mret tt
  else
    resps ← notify_non_replay (slot_keys s.(wm_all_machines));
    for_each (fun '(mkey, resp_set) => process mkey resp_set) resps.

Definition request_cancel_local_activity (smk : K) (seq : Z) : WM unit :=
  let not_la := Panic "A non local-activity machine returned a request cancel LA response" in
  preres ← take_preresolution_of seq;
  match preres with
  | Some preres =>
      more ← on_machine smk (la_method not_la (LocalActivity.try_resolve_with_dat preres));
      process smk more
  | None =>
      removed ← remove_from_queue_of seq;
      match removed with
      | Some removed_act =>
          more ← on_machine smk (la_method not_la
            (LocalActivity.try_resolve LocalActivity.empty_cancel 0 removed_act.(la_attempt) None
               removed_act.(la_original_schedule_time)));
          process smk more
      | None =>
          modify (fun s => update_la_data
            (enqueue_cancel {| laid_run_id := s.(wm_run_id); laid_seq_num := seq |}) s)
      end
  end.

Definition new_core_originated_command (attrs : Attributes) : WM unit :=
  match attrs with
  | CA_RequestCancelExternalWorkflowExecution a =>
      let we := {| NamespacedWorkflowExecution_namespace :=
                     a.(RequestCancelExternalWorkflowExecutionCmd_namespace);
                   NamespacedWorkflowExecution_workflow_id :=
                     a.(RequestCancelExternalWorkflowExecutionCmd_workflow_id);
                   NamespacedWorkflowExecution_run_id :=
                     a.(RequestCancelExternalWorkflowExecutionCmd_run_id) |} in
      mach ← create M_CancelExternal (CancelExternal.new_external_cancel 0 we
               a.(RequestCancelExternalWorkflowExecutionCmd_child_workflow_only)
               a.(RequestCancelExternalWorkflowExecutionCmd_reason));
      _ ← add_cmd_to_wf_task mach None CoreInternal;
      mret tt
  | CA_UpsertWorkflowSearchAttributes a =>
      let '(m, c) := UpsertSearchAttributes.upsert_search_attrs_internal a in
      _ ← add_cmd_to_wf_task (M_UpsertSearchAttributes m, c) None NeverResolves;
      mret tt
  | _ => throw (Fatal "A machine requested to create a new command of an unsupported type")
  end.

Definition process_response (smk : K) (response : MachineResponse) : WM unit :=
  match response with
  | PushWFJob a =>
      modify (fun s => if decide (smk ∈ s.(wm_machine_is_core_created)) then s else send_job a s)
  | TriggerWFTaskStarted task_started_event_id time => task_started task_started_event_id time
  | UpdateRunIdOnWorkflowReset new_run_id =>
      modify (send_job (J_UpdateRandomSeed
        {| UpdateRandomSeed_randomness_seed := str_to_randomness_seed new_run_id |}))
  | IssueNewCommand c =>
      modify (push_current_command {| cam_command := Real c; cam_machine := smk |})
  | IssueNewMessage pm =>
      modify (fun s => if s.(wm_replaying) then s
                       else set_message_outbox (s.(wm_message_outbox) ++ [pm]) s)
  | NewCoreOriginatedCommand attrs => new_core_originated_command attrs
  | IssueFakeLocalActivityMarker seq =>
      modify (push_current_command
        {| cam_command := FakeLocalActivityMarker seq; cam_machine := smk |})
  | QueueLocalActivity act => modify (update_la_data (enqueue act))
  | RequestCancelLocalActivityResp seq => request_cancel_local_activity smk seq
  | AbandonLocalActivity seq => modify (update_la_data (done_executing seq))
  | UpdateWFTime t =>
      modify (fun s => match t with Some t => set_current_time t s | None => s end)
  end.

End process.

(** The responses are processed in calls nested at most [depth] deep. *)
Fixpoint process_at (depth : nat) (smk : K) (machine_responses : list MachineResponse) : WM unit :=
  match depth with
  | O => panic "call depth exceeded"
  | S depth =>
      _ ← get_machine smk;
      for_each (process_response (process_at depth) smk) machine_responses
  end.

(** Two levels are enough: see [process_at_depth]. *)
Definition process_machine_responses : K -> list MachineResponse -> WM unit := process_at 2.

Definition submachine_handle_event (sm : K) (event : HistEventData) : WM unit :=
  machine_responses ← on_machine sm (machines_handle_event event);
  process_machine_responses sm machine_responses.

(** ** Messages *)

Definition SEQIDERR : string :=
  "Update request messages must contain an event sequencing id! This is a server bug.".

Definition handle_protocol_message (message : IncomingProtocolMessage) : WM unit :=
  seq_id ← match message.(im_sequencing_id) with
           | Some (Message_EventId eid) => mret eid
           | _ => throw (Fatal SEQIDERR)
           end;
  s ← get;
  um ← lift (Update.init message.(im_id) message.(im_protocol_instance_id) seq_id
               message.(im_body) s.(wm_replaying));
  mk ← add_new_protocol_machine (M_Update um.1) message.(im_protocol_instance_id);
  process_machine_responses mk [um.2].

(** ** Preparing commands *)

(** [retain] of the commands whose machine was not cancelled before it was
    sent. *)
Fixpoint retain_not_cancelled (cmds : list (CommandAndMachine K))
  : WM (list (CommandAndMachine K)) :=
  match cmds with
  | [] => mret []
  | c :: cmds =>
      m ← get_machine c.(cam_machine);
      cancelled ← lift (machines_was_cancelled m);
      rest ← retain_not_cancelled cmds;
      mret (if cancelled : bool then rest else c :: rest)
  end.

Definition pop_current_command : WM (option (CommandAndMachine K)) :=
  fun s =>
    match s.(wm_current_wf_task_commands) with
    | [] => (s, Ok None)
    | c :: rest => (set_current_wf_task_commands rest s, Ok (Some c))
    end.

(** [Command::command_type()]: an unknown number is the default. *)
Definition Command_get_type (c : Command) : CommandType :=
  default CT_Unspecified (CommandType_try_from c.(Command_command_type)).

Definition prepare_command (c : CommandAndMachine K) : WM unit :=
  m ← get_machine c.(cam_machine);
  cancelled ← lift (machines_was_cancelled m);
  if cancelled : bool then mret tt
  else
    _ ← match c.(cam_command) with
        | Real cmd =>
            resps ← on_machine c.(cam_machine) (machines_handle_command (Command_get_type cmd));
            process_machine_responses c.(cam_machine) resps
        | FakeLocalActivityMarker _ => mret tt
        end;
    modify (fun s => set_commands (s.(wm_commands) ++ [c]) s).

(** The [while let] loop, for at most [fuel] commands. *)
Fixpoint prepare_loop (fuel : nat) : WM unit :=
  match fuel with
  | O => panic "commands keep being added"
  | S fuel =>
      c ← pop_current_command;
      match c with
      | None => mret tt
      | Some c => _ ← prepare_command c; prepare_loop fuel
      end
  end.

(** One round per queued command and one that finds the queue empty: see
    [prepare_commands_terminates]. *)
Definition prepare_commands : WM unit :=
  s ← get;
  kept ← retain_not_cancelled s.(wm_commands);
  _ ← modify (set_commands kept);
  prepare_loop (S (length s.(wm_current_wf_task_commands))).

(** ** Commands from lang *)

(** [determine_use_compatible_flag]; the raw intent is converted with its
    prost getter. *)
Definition determine_use_compatible_flag (intent : Z) (target_tq : string)
    (s : WorkflowMachines K Sm) : bool :=
  match default VI_Unspecified (VersioningIntent_try_from intent) with
  | VI_Compatible => true
  | VI_Default => false
  | VI_Unspecified =>
      String.eqb target_tq "" || String.eqb target_tq s.(wm_worker_config).(cfg_task_queue)
  end.

Definition augment_continue_as_new_with_current_values
    (attrs : ContinueAsNewWorkflowExecution) (s : WorkflowMachines K Sm)
  : ContinueAsNewWorkflowExecution :=
  let started := s.(wm_drive_me).(Driven.started_attrs) in
  {| ContinueAsNewWorkflowExecution_workflow_type :=
       attrs.(ContinueAsNewWorkflowExecution_workflow_type);
     ContinueAsNewWorkflowExecution_task_queue :=
       attrs.(ContinueAsNewWorkflowExecution_task_queue);
     ContinueAsNewWorkflowExecution_arguments :=
       attrs.(ContinueAsNewWorkflowExecution_arguments);
     ContinueAsNewWorkflowExecution_workflow_run_timeout :=
       attrs.(ContinueAsNewWorkflowExecution_workflow_run_timeout);
     ContinueAsNewWorkflowExecution_workflow_task_timeout :=
       attrs.(ContinueAsNewWorkflowExecution_workflow_task_timeout);
     ContinueAsNewWorkflowExecution_memo :=
       match started with
       | Some started_info =>
           if decide (attrs.(ContinueAsNewWorkflowExecution_memo) = ∅)
           then default ∅ (Memo_fields <$> started_info.(wsi_memo))
           else attrs.(ContinueAsNewWorkflowExecution_memo)
       | None => attrs.(ContinueAsNewWorkflowExecution_memo)
       end;
     ContinueAsNewWorkflowExecution_headers := attrs.(ContinueAsNewWorkflowExecution_headers);
     ContinueAsNewWorkflowExecution_search_attributes :=
       if decide (attrs.(ContinueAsNewWorkflowExecution_search_attributes) = ∅)
       then Driven.get_current_search_attributes s.(wm_drive_me)
       else attrs.(ContinueAsNewWorkflowExecution_search_attributes);
     ContinueAsNewWorkflowExecution_retry_policy :=
       match started, attrs.(ContinueAsNewWorkflowExecution_retry_policy) with
       | Some started_info, None => started_info.(wsi_retry_policy)
       | _, p => p
       end;
     ContinueAsNewWorkflowExecution_versioning_intent :=
       attrs.(ContinueAsNewWorkflowExecution_versioning_intent) |}.

(** The [cancel_machine!] macro: [f] is the cancellation of the expected
    variant, [None] for any other machine. *)
Definition cancel_machine (cmd_id : CommandID) (variant : string)
    (f : Machines -> InternalFlags ->
         option ((Machines * InternalFlags) *
                 outcome (MachineError WFMachinesError) (list MachineResponse))) : WM unit :=
  m_key ← get_machine_key cmd_id;
  machine_resps ← on_machine m_key (fun '(ms, fl) =>
    match f ms fl with
    | Some (st, r) => (st, map_err WFMachinesError_from r)
    | None => ((ms, fl), Err (Nondeterminism
        ("Machine was not a " +:+ variant +:+ " when it should have been during cancellation: "
         +:+ CommandID_debug cmd_id)))
    end);
  process_machine_responses m_key machine_resps.

Definition cancel_timer_machine (ms : Machines) (fl : InternalFlags) :=
  match ms with
  | M_Timer m => Some (inject M_Timer (Timer.cancel (m, fl))) | _ => None
  end.

Definition cancel_activity_machine (ms : Machines) (fl : InternalFlags) :=
  match ms with
  | M_Activity m => Some (inject M_Activity (Activity.cancel (m, fl))) | _ => None
  end.

Definition cancel_la_machine (ms : Machines) (fl : InternalFlags) :=
  match ms with
  | M_LocalActivity m => Some (inject M_LocalActivity (LocalActivity.cancel (m, fl))) | _ => None
  end.

Definition cancel_child_machine (reason : string) (ms : Machines) (fl : InternalFlags) :=
  match ms with
  | M_ChildWorkflow m => Some (inject M_ChildWorkflow (Child.cancel reason (m, fl))) | _ => None
  end.

Definition cancel_signal_machine (ms : Machines) (fl : InternalFlags) :=
  match ms with
  | M_SignalExternal m => Some (inject M_SignalExternal (SignalExternal.cancel (m, fl)))
  | _ => None
  end.

Definition cancel_nexus_machine (ms : Machines) (fl : InternalFlags) :=
  match ms with
  | M_NexusOperation m => Some (inject M_NexusOperation (Nexus.cancel (m, fl))) | _ => None
  end.

Definition add_local_activity (now : Z) (attrs : ScheduleLocalActivity) : WM unit :=
  let seq := attrs.(ScheduleLocalActivity_seq) in
  attrs ← lift (map_err (fun e => Fatal ("Invalid schedule local activity request (seq "
                                         +:+ to_string seq +:+ "): " +:+ e))
                        (from_schedule_la attrs));
  s ← get;
  preres ← take_preresolution_of seq;
  la ← (fun s' =>
    let '(fl, r) := LocalActivity.new_local_activity attrs s.(wm_replaying) preres
                      s.(wm_current_wf_time) now s'.(wm_observed_internal_flags) in
    (set_observed_internal_flags fl s', r)) : WM _;
  machkey ← insert_machine (M_LocalActivity la.1);
  _ ← modify (fun s =>
        set_id_to_machine (<[CID_LocalActivity seq := machkey]> s.(wm_id_to_machine)) s);
  process_machine_responses machkey la.2.

Definition set_patch_marker (attrs : SetPatchMarker) (metadata : option UserMetadata) : WM unit :=
  let patch_id := attrs.(SetPatchMarker_patch_id) in
  s ← get;
  let encountered_entry := s.(wm_encountered_patch_markers) !! patch_id in
  match encountered_entry with
  | Some {| created_command := true |} => mret tt
  | _ =>
      patch ← (fun s' =>
        let '(fl, r) := Patch.has_change patch_id s.(wm_replaying) attrs.(SetPatchMarker_deprecated)
                          (bool_decide (is_Some encountered_entry))
                          (dom s.(wm_encountered_patch_markers))
                          s'.(wm_observed_internal_flags) in
        (set_observed_internal_flags fl s', r)) : WM _;
      let '((m, c), other_cmds) := patch in
      mkey ← add_cmd_to_wf_task (M_Patch m, c) metadata NeverResolves;
      _ ← process_machine_responses mkey other_cmds;
      modify (fun s => set_encountered_patch_markers
        (<[patch_id := {| created_command := true |}]> s.(wm_encountered_patch_markers)) s)
  end.

Definition update_response (ur : UpdateResponse) : WM unit :=
  let id := ur.(UpdateResponse_protocol_instance_id) in
  m_key ← get_machine_by_msg id;
  resps ← on_machine m_key (fun '(ms, fl) =>
    match ms with
    | M_Update m => inject M_Update (Update.handle_response ur (m, fl))
    | _ => ((ms, fl), Err (Nondeterminism
        ("Tried to handle an update response for update with instance id " +:+ id
         +:+ " but it was not found!")))
    end);
  process_machine_responses m_key resps.

(** One command of lang; [now] is the reading of the clock. *)
Definition handle_driven_command (now : Z) (cmd : WFCommand) : WM unit :=
  let metadata := cmd.(wfc_metadata) in
  match cmd.(wfc_variant) with
  | AddTimer attrs =>
      mach ← create M_Timer (Timer.new_scheduled attrs);
      _ ← add_cmd_to_wf_task mach metadata (LangIssued (CID_Timer attrs.(StartTimer_seq)));
      mret tt
  | UpsertSearchAttributesCmd attrs =>
      _ ← modify (fun s => set_drive_me (Driven.search_attributes_update
            attrs.(UpsertWorkflowSearchAttributes_search_attributes) s.(wm_drive_me)) s);
      mach ← (fun s =>
        let '(fl, (m, c)) := UpsertSearchAttributes.upsert_search_attrs attrs s.(wm_replaying)
                               s.(wm_observed_internal_flags) in
        (set_observed_internal_flags fl s, Ok (M_UpsertSearchAttributes m, c))) : WM _;
      _ ← add_cmd_to_wf_task mach metadata NeverResolves;
      mret tt
  | CancelTimerCmd attrs =>
      cancel_machine (CID_Timer attrs.(CancelTimer_seq)) "TimerMachine" cancel_timer_machine
  | AddActivity attrs =>
      s ← get;
      let use_compat := determine_use_compatible_flag attrs.(ScheduleActivity_versioning_intent)
                          attrs.(ScheduleActivity_task_queue) s in
      mach ← create M_Activity (Activity.new_scheduled attrs use_compat);
      _ ← add_cmd_to_wf_task mach metadata (LangIssued (CID_Activity attrs.(ScheduleActivity_seq)));
      mret tt
  | AddLocalActivity attrs => add_local_activity now attrs
  | RequestCancelActivityCmd attrs =>
      cancel_machine (CID_Activity attrs.(RequestCancelActivity_seq)) "ActivityMachine"
        cancel_activity_machine
  | RequestCancelLocalActivityCmd attrs =>
      cancel_machine (CID_LocalActivity attrs.(RequestCancelLocalActivity_seq))
        "LocalActivityMachine" cancel_la_machine
  | CompleteWorkflowCmd attrs =>
      mach ← create M_CompleteWorkflow (CompleteWorkflow.complete_workflow attrs);
      add_terminal_command now mach metadata
  | FailWorkflowCmd attrs =>
      mach ← create M_FailWorkflow (FailWorkflow.fail_workflow attrs);
      add_terminal_command now mach metadata
  | ContinueAsNewCmd attrs =>
      s ← get;
      let attrs := augment_continue_as_new_with_current_values attrs s in
      let use_compat := determine_use_compatible_flag
                          attrs.(ContinueAsNewWorkflowExecution_versioning_intent)
                          attrs.(ContinueAsNewWorkflowExecution_task_queue) s in
      mach ← create M_ContinueAsNewWorkflow (ContinueAsNew.continue_as_new attrs use_compat);
      add_terminal_command now mach metadata
  | CancelWorkflowCmd attrs =>
      mach ← create M_CancelWorkflow (CancelWorkflowEnd.cancel_workflow attrs);
      add_terminal_command now mach metadata
  | SetPatchMarkerCmd attrs => set_patch_marker attrs metadata
  | AddChildWorkflow attrs =>
      s ← get;
      let use_compat := determine_use_compatible_flag
                          attrs.(StartChildWorkflowExecution_versioning_intent)
                          attrs.(StartChildWorkflowExecution_task_queue) s in
      mach ← create M_ChildWorkflow (Child.new_scheduled attrs use_compat);
      _ ← add_cmd_to_wf_task mach metadata
            (LangIssued (CID_ChildWorkflowStart attrs.(StartChildWorkflowExecution_seq)));
      mret tt
  | CancelChild attrs =>
      cancel_machine (CID_ChildWorkflowStart attrs.(CancelChildWorkflowExecution_child_workflow_seq))
        "ChildWorkflowMachine" (cancel_child_machine attrs.(CancelChildWorkflowExecution_reason))
  | RequestCancelExternalWorkflow attrs =>
      match attrs.(RequestCancelExternalWorkflowExecution_workflow_execution) with
      | None => throw (Fatal "Cancel external workflow command had no workflow_execution field")
      | Some we =>
          s ← get;
          mach ← create M_CancelExternal (CancelExternal.new_external_cancel
                   attrs.(RequestCancelExternalWorkflowExecution_seq) we false
                   ("Cancel requested by workflow with run id " +:+ s.(wm_run_id)
                    +:+ " with reason: " +:+ attrs.(RequestCancelExternalWorkflowExecution_reason)));
          _ ← add_cmd_to_wf_task mach metadata
                (LangIssued (CID_CancelExternal attrs.(RequestCancelExternalWorkflowExecution_seq)));
          mret tt
      end
  | SignalExternalWorkflow attrs =>
      mach ← (fun s =>
        match SignalExternal.new_external_signal attrs s.(wm_worker_config).(cfg_namespace)
                s.(wm_observed_internal_flags) with
        | Ok ((m, fl), c) => (set_observed_internal_flags fl s, Ok (M_SignalExternal m, c))
        | Err e => (s, Err e)
        | Panic msg => (s, Panic msg)
        end) : WM _;
      _ ← add_cmd_to_wf_task mach metadata
            (LangIssued (CID_SignalExternal attrs.(SignalExternalWorkflowExecution_seq)));
      mret tt
  | CancelSignalWorkflowCmd attrs =>
      cancel_machine (CID_SignalExternal attrs.(CancelSignalWorkflow_seq)) "SignalExternalMachine"
        cancel_signal_machine
  | QueryResponse _ =>
      panic "not implemented: Query responses should not make it down into the machines"
  | ModifyWorkflowPropertiesCmd attrs =>
      let '(m, c) := ModifyProperties.modify_workflow_properties attrs in
      _ ← add_cmd_to_wf_task (M_ModifyWorkflowProperties m, c) metadata NeverResolves;
      mret tt
  | UpdateResponseCmd ur => update_response ur
  | ScheduleNexusOperationCmd attrs =>
      let '(m, c) := Nexus.new_scheduled attrs in
      _ ← add_cmd_to_wf_task (M_NexusOperation m, c) metadata
            (LangIssued (CID_NexusOperation attrs.(ScheduleNexusOperation_seq)));
      mret tt
  | RequestCancelNexusOperationCmd attrs =>
      cancel_machine (CID_NexusOperation attrs.(RequestCancelNexusOperation_seq))
        "NexusOperationMachine" cancel_nexus_machine
  | NoCommandsFromLang => mret tt
  end.

(** [now i] is the reading of the clock while the [i]-th command is handled. *)
Definition handle_driven_results (now : nat -> Z) (results : list WFCommand) : WM unit :=
  for_each (fun '(i, cmd) => handle_driven_command (now i) cmd) (imap pair results).

Definition iterate_machines (now : nat -> Z) : WM unit :=
  results ← (fun s =>
    let '(d, r) := Driven.fetch_workflow_iteration_output s.(wm_drive_me) in
    (set_drive_me d s, Ok r)) : WM _;
  _ ← handle_driven_results now results;
  prepare_commands.

(** ** What the run asks for and reports *)

Definition local_resolution (r : LocalActivityResolution) : WM bool :=
  let seq := r.(lar_seq) in
  mk ← get_machine_key (CID_LocalActivity seq);
  resps ← on_machine mk (la_method
    (Err (Nondeterminism ("Command matching activity with seq num " +:+ to_string seq
                          +:+ " existed but was not a local activity!")))
    (LocalActivity.try_resolve r.(lar_result) r.(lar_runtime) r.(lar_attempt) r.(lar_backoff)
       r.(lar_original_schedule_time)));
  _ ← process_machine_responses mk resps;
  _ ← modify (update_la_data (done_executing seq));
  mret (negb (bool_decide (resps = []))).

Definition drain_queued_local_activities (now : ValidScheduleLA -> Z)
    (s : WorkflowMachines K Sm) : WorkflowMachines K Sm * list LocalActRequest :=
  let '(d, reqs) := take_all_reqs s.(wm_workflow_type) s.(wm_workflow_id) s.(wm_run_id) now
                      s.(wm_local_activity_data) in
  (set_local_activity_data d s, reqs).

Definition outstanding_local_activity_count (s : WorkflowMachines K Sm) : nat :=
  outstanding_la_count s.(wm_local_activity_data).

(** [filter_map] over the prepared commands. *)
Fixpoint sendable_commands (cmds : list (CommandAndMachine K)) : WM (list Command) :=
  match cmds with
  | [] => mret []
  | c :: cmds =>
      m ← get_machine c.(cam_machine);
      final ← lift (is_final_state m);
      rest ← sendable_commands cmds;
      mret match final : bool, c.(cam_command) with
           | false, Real cmd => cmd :: rest
           | _, _ => rest
           end
  end.

Definition get_commands : WM (list Command) :=
  _ ← modify (fun s =>
        set_observed_internal_flags (write_all_known s.(wm_observed_internal_flags)) s);
  s ← get;
  sendable_commands s.(wm_commands).

Definition has_pending_jobs (s : WorkflowMachines K Sm) : bool :=
  negb (bool_decide (s.(wm_drive_me).(Driven.outgoing_wf_activation_jobs) = [])).

Definition has_pending_la_resolutions (s : WorkflowMachines K Sm) : bool :=
  existsb is_local_activity_resolution s.(wm_drive_me).(Driven.outgoing_wf_activation_jobs).

Definition is_query_job (j : WorkflowActivationJob) : bool :=
  match j.(WorkflowActivationJob_variant) with
  | Some (J_QueryWorkflow _) => true
  | _ => false
  end.

(** [as u32]. *)
Definition i64_as_u32 (z : Z) : Z := (z mod 4294967296)%Z.

Definition get_wf_activation (s : WorkflowMachines K Sm)
  : WorkflowMachines K Sm * WorkflowActivation :=
  let '(d, jobs) := Driven.drain_jobs s.(wm_drive_me) in
  let s := set_drive_me d s in
  let all_query := forallb is_query_job jobs in
  let is_replaying := s.(wm_replaying) || all_query in
  let s := if is_replaying then s
           else set_current_wft_deployment_info
                  (computed_deployment_version s.(wm_worker_config)) s in
  (s, {| WorkflowActivation_run_id := s.(wm_run_id);
         WorkflowActivation_timestamp := timestamp_from <$> s.(wm_current_wf_time);
         WorkflowActivation_is_replaying := is_replaying;
         WorkflowActivation_history_length := i64_as_u32 s.(wm_last_processed_event);
         WorkflowActivation_jobs := jobs;
         WorkflowActivation_available_internal_flags := all_lang s.(wm_observed_internal_flags);
         WorkflowActivation_history_size_bytes := s.(wm_history_size_bytes);
         WorkflowActivation_continue_as_new_suggested := s.(wm_continue_as_new_suggested);
         WorkflowActivation_deployment_version_for_current_task :=
           s.(wm_current_wft_deployment_info) |}).

(** [iter_core] and [iter_lang] are the iteration orders of the flag sets. *)
Definition get_metadata_for_wft_complete
    (iter_core : gset CoreInternalFlags -> list CoreInternalFlags) (iter_lang : gset Z -> list Z)
    (s : WorkflowMachines K Sm) : WorkflowMachines K Sm * WorkflowTaskCompletedMetadata :=
  let s := set_current_wft_deployment_info
             (computed_deployment_version s.(wm_worker_config)) s in
  let '(fl, md) := gather_for_wft_complete iter_core iter_lang s.(wm_observed_internal_flags) in
  (set_observed_internal_flags fl s, md).

Definition add_lang_used_flags (flags : list Z) (s : WorkflowMachines K Sm)
  : WorkflowMachines K Sm :=
  set_observed_internal_flags (add_lang_used flags s.(wm_observed_internal_flags)) s.

(** [MachinesWFTResponseContent::messages]. *)
Definition take_messages (s : WorkflowMachines K Sm) : WorkflowMachines K Sm * list Message :=
  (set_message_outbox [] s, s.(wm_message_outbox)).

(** [i64] subtraction, without the debug overflow check. *)
Definition i64_wrap (z : Z) : Z := ((z - i64_min) mod 18446744073709551616 + i64_min)%Z.

Definition reset_last_started_id (id : Z) (s : WorkflowMachines K Sm) : WorkflowMachines K Sm :=
  let s := set_current_started_event_id id s in
  let s := set_last_processed_event (i64_wrap (s.(wm_last_processed_event) - 2)) s in
  let removed := filter (fun p => (s.(wm_last_processed_event) < p.1)%Z)
                   s.(wm_machines_by_event_id) in
  let s := set_machines_by_event_id (s.(wm_machines_by_event_id) ∖ removed) s in
  foldr (fun p s => set_all_machines (slot_remove p.2 s.(wm_all_machines)) s) s
    (map_to_list removed).

(** ** History events *)

(** [patch_marker_handling], on the machine of the next command. *)
Definition skip_one_or_two_events (next_event : option HistoryEvent) : EventHandlingOutcome :=
  SkipEvent match next_event ≫= HistoryEvent_attributes with
            | Some (HA_UpsertWorkflowSearchAttributes atts) =>
                match atts.(UpsertWorkflowSearchAttributesEv_search_attributes) with
                | Some sa => bool_decide (is_Some
                    (sa.(SearchAttributes_indexed_fields) !! VERSION_SEARCH_ATTR_KEY))
                | None => false
                end
            | _ => false
            end.

Definition patch_marker_handling (event : HistoryEvent) (mach : option Machines)
    (next_event : option HistoryEvent) : outcome WFMachinesError EventHandlingOutcome :=
  let patch_machine := match mach with Some (M_Patch pm) => Some pm | _ => None end in
  match get_patch_marker_details event with
  | Some (patch_name, deprecated) =>
      match patch_machine with
      | Some pm =>
          if negb (Patch.matches_patch pm patch_name) && deprecated
          then Ok (skip_one_or_two_events next_event)
          else Ok Normal
      | None =>
          if deprecated : bool then Ok (skip_one_or_two_events next_event)
          else Err (Nondeterminism
            ("Non-deprecated patch marker encountered for change " +:+ patch_name
             +:+ ", but there is no corresponding change command!"))
      end
  | None =>
      match patch_machine with
      | Some _ => Ok SkipCommand
      | None => Ok Normal
      end
  end.

(** The loop that looks for the command of the event.  The commands are popped
    as it goes; [inr] is the command whose machine was fed the event, [inl] the
    outcome of a skipped event. *)
Fixpoint consume_command (event_dat : HistEventData) (next_event : option HistoryEvent)
    (queue : list (CommandAndMachine K)) : WM (EventHandlingOutcome + CommandAndMachine K) :=
  let event := event_dat.(event) in
  match queue with
  | [] =>
      eho ← lift (patch_marker_handling event None next_event);
      match eho with
      | SkipEvent b => mret (inl (SkipEvent b))
      | _ => throw (Nondeterminism ("No command scheduled for event "
                                    +:+ HistoryEvent_display event))
      end
  | command :: rest =>
      m ← get_machine command.(cam_machine);
      eho ← lift (patch_marker_handling event (Some m) next_event);
      match eho with
      | SkipCommand =>
          _ ← modify (set_commands rest);
          consume_command event_dat next_event rest
      | SkipEvent b => mret (inl (SkipEvent b))
      | Normal =>
          _ ← modify (set_commands rest);
          canceled_before_sent ← lift (machines_was_cancelled m);
          if canceled_before_sent : bool then consume_command event_dat next_event rest
          else
            _ ← submachine_handle_event command.(cam_machine) event_dat;
            mret (inr command)
      end
  end.

(** The special handling of the marker of a local activity; [true] when the
    event was handled. *)
Definition handle_la_marker (event_dat : HistEventData) : WM bool :=
  let event := event_dat.(event) in
  if is_local_activity_marker event then
    deets ← match event_local_activity_marker_data event with
            | Some deets => mret deets
            | None => throw (Fatal "Local activity marker was unparsable")
            end;
    mkey ← get_machine_key (CID_LocalActivity deets.(LocalActivityMarkerData_seq));
    m ← get_machine mkey;
    match m with
    | M_LocalActivity lam =>
        special ← lift (LocalActivity.marker_should_get_special_handling lam);
        if special : bool then _ ← submachine_handle_event mkey event_dat; mret true
        else mret false
    | _ => throw (Fatal ("Encountered local activity marker but the associated machine was of "
                         +:+ "the wrong type!"))
    end
  else mret false.

Definition handle_command_event (event_dat : HistEventData) (next_event : option HistoryEvent)
  : WM EventHandlingOutcome :=
  handled ← handle_la_marker event_dat;
  if handled : bool then mret Normal
  else
    s ← get;
    r ← consume_command event_dat next_event s.(wm_commands);
    match r with
    | inl eho => mret eho
    | inr consumed_cmd =>
        m ← get_machine consumed_cmd.(cam_machine);
        final ← lift (is_final_state m);
        _ ← (if final : bool then mret tt
             else modify (fun s => set_machines_by_event_id
                    (<[event_dat.(event).(HistoryEvent_event_id) := consumed_cmd.(cam_machine)]>
                       s.(wm_machines_by_event_id)) s));
        mret Normal
    end.

Definition handle_workflow_started (e : HistoryEvent)
    (attrs : WorkflowExecutionStartedEventAttributes) : WM unit :=
  _ ← match e.(HistoryEvent_event_time) with
      | Some st =>
          match timestamp_try_into st with
          | Some as_systime =>
              modify (fun s => set_current_time as_systime
                                 (set_workflow_start_time (Some as_systime) s))
          | None => throw (Fatal "Could not decode timestamp")
          end
      | None => mret tt
      end;
  modify (fun s => set_drive_me
    (Driven.start s.(wm_workflow_id)
       (str_to_randomness_seed attrs.(WorkflowExecutionStartedEv_original_execution_run_id))
       (default {| Timestamp_seconds := 0; Timestamp_nanos := 0 |} e.(HistoryEvent_event_time))
       attrs s.(wm_drive_me)) s).

Definition handle_non_stateful_event (event_dat : HistEventData) : WM unit :=
  let e := event_dat.(event) in
  match EventType_try_from e.(HistoryEvent_event_type) with
  | Some ET_WorkflowExecutionStarted =>
      match e.(HistoryEvent_attributes) with
      | Some (HA_WorkflowExecutionStarted attrs) => handle_workflow_started e attrs
      | _ => throw (Fatal
          ("WorkflowExecutionStarted event did not have appropriate attributes: "
           +:+ HistoryEvent_display e))
      end
  | Some ET_WorkflowTaskScheduled =>
      s ← get;
      key ← insert_machine (M_WorkflowTask (WFTask.new s.(wm_next_started_event_id)));
      _ ← submachine_handle_event key event_dat;
      modify (fun s => set_machines_by_event_id
        (<[e.(HistoryEvent_event_id) := key]> s.(wm_machines_by_event_id)) s)
  | Some ET_WorkflowExecutionSignaled =>
      match e.(HistoryEvent_attributes) with
      | Some (HA_WorkflowExecutionSignaled attrs) =>
          modify (send_job (J_SignalWorkflow (signal_workflow_from attrs)))
      | _ => mret tt
      end
  | Some ET_WorkflowExecutionCancelRequested =>
      match e.(HistoryEvent_attributes) with
      | Some (HA_WorkflowExecutionCancelRequested attrs) =>
          modify (send_job (J_CancelWorkflow (cancel_workflow_from attrs)))
      | _ => mret tt
      end
  | _ => throw (Fatal ("The event is not a non-stateful event, but we tried to handle it as one: "
                       +:+ HistoryEvent_display e))
  end.

(** [u64::try_from(..).unwrap_or_default()]. *)
Definition u64_or_zero (z : Z) : Z := if (0 <=? z)%Z then z else 0%Z.

Definition wm_handle_event (event_dat : HistEventData) (next_event : option HistoryEvent)
  : WM EventHandlingOutcome :=
  let e := event_dat.(event) in
  _ ← (if is_final_wf_execution_event e then modify (set_have_seen_terminal_event true)
       else mret tt);
  let et := event_type e in
  if bool_decide (et = ET_WorkflowExecutionTerminated \/ et = ET_WorkflowExecutionTimedOut) then
    if bool_decide (is_Some next_event) || negb event_dat.(current_task_is_last_in_history)
    then throw (Fatal ("Machines were fed a history which has an event after workflow execution "
                       +:+ "was terminated!"))
    else mret Normal
  else if bool_decide (et = ET_Unspecified \/ e.(HistoryEvent_attributes) = None) then
    if e.(HistoryEvent_worker_may_ignore) then mret (SkipEvent false)
    else throw (Fatal "Event type is unspecified! This history is invalid.")
  else if is_command_event e then handle_command_event event_dat next_event
  else
    _ ← match e.(HistoryEvent_attributes) with
        | Some (HA_WorkflowTaskStarted attrs) =>
            modify (fun s => set_continue_as_new_suggested
              attrs.(WorkflowTaskStartedEv_suggest_continue_as_new)
              (set_history_size_bytes
                 (u64_or_zero attrs.(WorkflowTaskStartedEv_history_size_bytes)) s))
        | _ => mret tt
        end;
    _ ← match get_initial_command_event_id e with
        | Some initial_cmd_id =>
            s ← get;
            match s.(wm_machines_by_event_id) !! initial_cmd_id with
            | Some mkey => submachine_handle_event mkey event_dat
            | None => throw (Nondeterminism
                ("During event handling, this event had an initial command ID but we "
                 +:+ "could not find a matching command for it"))
            end
        | None => handle_non_stateful_event event_dat
        end;
    mret Normal.

(** ** Applying a workflow task *)

(** [apply_wft_complete_data!]. *)
Definition wft_complete_version (wtc : WorkflowTaskCompletedEventAttributes)
  : WorkerDeploymentVersion :=
  let mk name id := {| WorkerDeploymentVersion_deployment_name := name;
                       WorkerDeploymentVersion_build_id := id |} in
  let combined := mk wtc.(WorkflowTaskCompletedEv_worker_deployment_name)
                     (default "" (WorkerVersionStamp_build_id <$>
                                  wtc.(WorkflowTaskCompletedEv_worker_version))) in
  let combined :=
    if String.eqb wtc.(WorkflowTaskCompletedEv_worker_deployment_version) "" then combined
    else default combined (WorkerDeploymentVersion_from_str
                             wtc.(WorkflowTaskCompletedEv_worker_deployment_version)) in
  match wtc.(WorkflowTaskCompletedEv_deployment_version) with
  | Some dv => mk dv.(api_WorkerDeploymentVersion_deployment_name)
                  dv.(api_WorkerDeploymentVersion_build_id)
  | None => combined
  end.

Definition apply_wft_complete_data (wtc : WorkflowTaskCompletedEventAttributes)
    (s : WorkflowMachines K Sm) : WorkflowMachines K Sm :=
  let s := set_observed_internal_flags
             (add_from_complete wtc.(WorkflowTaskCompletedEv_sdk_metadata)
                s.(wm_observed_internal_flags)) s in
  let ver := wft_complete_version wtc in
  if WorkerDeploymentVersion_is_empty ver then s
  else set_current_wft_deployment_info (Some ver) s.

Definition apply_opt_wft_complete (o : option WorkflowTaskCompletedEventAttributes)
    (s : WorkflowMachines K Sm) : WorkflowMachines K Sm :=
  match o with Some wtc => apply_wft_complete_data wtc s | None => s end.

Definition event_wft_completed (e : HistoryEvent) : option WorkflowTaskCompletedEventAttributes :=
  match e.(HistoryEvent_attributes) with
  | Some (HA_WorkflowTaskCompleted wtc) => Some wtc
  | _ => None
  end.

(** The completions in the sequence, and after its last event the next one. *)
Fixpoint apply_completions (events : list HistoryEvent) (s : WorkflowMachines K Sm)
  : WorkflowMachines K Sm :=
  match events with
  | [] => s
  | event :: rest =>
      let s := apply_opt_wft_complete (event_wft_completed event) s in
      let s := match rest with
               | [] => apply_opt_wft_complete
                         (peek_next_wft_completed s.(wm_last_history_from_server)
                            event.(HistoryEvent_event_id)) s
               | _ => s
               end in
      apply_completions rest s
  end.

Definition is_update_admitted (e : HistoryEvent) : bool :=
  match e.(HistoryEvent_attributes) with
  | Some (HA_WorkflowExecutionUpdateAdmitted _) => true
  | _ => false
  end.

(** The message of a durable update: kept for its acceptance while replaying,
    processed now otherwise. *)
Definition admit_update (e : HistoryEvent) (admitted : gmap string IncomingProtocolMessage)
  : WM (gmap string IncomingProtocolMessage) :=
  msg ← lift (map_err (fun _ => Fatal
          "Failed to create protocol message from WorkflowExecutionUpdateAdmittedEvent")
          (IncomingProtocolMessage_from_event e));
  s ← get;
  if s.(wm_replaying) then mret (<[msg.(im_protocol_instance_id) := msg]> admitted)
  else
    _ ← modify (set_protocol_msgs (s.(wm_protocol_msgs) ++ [msg]));
    mret admitted.

Definition processable_before (eid : Z) (m : IncomingProtocolMessage) : bool :=
  match processable_after_event_id m with
  | Some id => (id <=? eid - 1)%Z
  | None => false
  end.

Definition process_messages_before (eid : Z) : WM unit :=
  s ← get;
  _ ← modify (set_protocol_msgs
        (filter (fun m => processable_before eid m = false) s.(wm_protocol_msgs)));
  for_each handle_protocol_message
    (filter (fun m => processable_before eid m = true) s.(wm_protocol_msgs)).

(** One event of the sequence; the result is whether the next one is handled. *)
Definition apply_event (has_final_event : bool) (event : HistoryEvent)
    (next_event : option HistoryEvent) (admitted : gmap string IncomingProtocolMessage)
    (do_handle_event : bool) : WM (gmap string IncomingProtocolMessage * bool) :=
  let eid := event.(HistoryEvent_event_id) in
  s ← get;
  if negb (eid =? s.(wm_last_processed_event) + 1)%Z then
    throw (Fatal ("History is out of order. Last processed event: "
                  +:+ to_string s.(wm_last_processed_event) +:+ ", event id: " +:+ to_string eid))
  else
    _ ← (if s.(wm_replaying) && has_final_event
            && (s.(wm_last_history_from_server).(previous_wft_started_id) <? eid)%Z
            && bool_decide (event_type event <> ET_WorkflowTaskCompleted)
            && negb (is_command_event event)
         then modify (set_replaying false) else mret tt);
    admitted' ← (if is_update_admitted event then admit_update event admitted
                 else mret admitted);
    let do_handle_event := do_handle_event && negb (is_update_admitted event) in
    _ ← process_messages_before eid;
    next_handled ←
      (if do_handle_event then
         s ← get;
         eho ← wm_handle_event {| Fsm.event := event; Fsm.replaying := s.(wm_replaying);
                                  current_task_is_last_in_history := has_final_event |} next_event;
         mret match eho with SkipEvent true => false | _ => true end
       else mret true);
    _ ← modify (set_last_processed_event eid);
    mret (admitted', next_handled).

Fixpoint apply_events (has_final_event : bool) (events : list HistoryEvent)
    (admitted : gmap string IncomingProtocolMessage) (do_handle_event : bool)
  : WM (gmap string IncomingProtocolMessage) :=
  match events with
  | [] => mret admitted
  | event :: rest =>
      '(admitted, do_handle_event) ←
        apply_event has_final_event event (head rest) admitted do_handle_event;
      apply_events has_final_event rest admitted do_handle_event
  end.

(** ** Looking ahead *)

Inductive DelayedAction :=
| WakeLa (k : K) (dat : CompleteLocalActivityData)
| ProtocolMessage (m : IncomingProtocolMessage).

Definition peek_event (e : HistoryEvent) (admitted : gmap string IncomingProtocolMessage)
  : WM (gmap string IncomingProtocolMessage * list DelayedAction) :=
  match get_patch_marker_details e with
  | Some (patch_id, _) =>
      _ ← modify (fun s => send_job (J_NotifyHasPatch {| NotifyHasPatch_patch_id := patch_id |})
            (set_encountered_patch_markers
               (<[patch_id := {| created_command := false |}]> s.(wm_encountered_patch_markers)) s));
      mret (admitted, [])
  | None =>
      if is_local_activity_marker e then
        match into_local_activity_marker_details e with
        | Some la_dat =>
            s ← get;
            match s.(wm_id_to_machine) !!
                  CID_LocalActivity la_dat.(marker_dat).(LocalActivityMarkerData_seq) with
            | Some mk => mret (admitted, [WakeLa mk la_dat])
            | None => _ ← modify (update_la_data (insert_peeked_marker la_dat)); mret (admitted, [])
            end
        | None => throw (Fatal "Local activity marker was unparsable")
        end
      else
        match e.(HistoryEvent_attributes) with
        | Some (HA_WorkflowExecutionUpdateAccepted atts) =>
            let id := atts.(WorkflowExecutionUpdateAcceptedEv_protocol_instance_id) in
            msg ← match admitted !! id with
                  | Some msg => mret msg
                  | None => lift (map_err (fun _ => Fatal
                      "Failed to create protocol message from WorkflowExecutionUpdateAcceptedEvent")
                      (IncomingProtocolMessage_from_event e))
                  end;
            mret (delete id admitted, [ProtocolMessage msg])
        | _ => mret (admitted, [])
        end
  end.

Fixpoint peek_events (events : list HistoryEvent) (admitted : gmap string IncomingProtocolMessage)
  : WM (list DelayedAction) :=
  match events with
  | [] => mret []
  | e :: events =>
      '(admitted, actions) ← peek_event e admitted;
      rest ← peek_events events admitted;
      mret (actions ++ rest)
  end.

Definition delayed_action (a : DelayedAction) : WM unit :=
  match a with
  | WakeLa mk la_dat =>
      m ← get_machine mk;
      match m with
      | M_LocalActivity lam =>
          accepts ← lift (LocalActivity.will_accept_resolve_marker lam);
          if accepts : bool then
            resps ← on_machine mk (la_method (Ok [])
                      (LocalActivity.try_resolve_with_dat (LocalActivity.ResolveDat_from la_dat)));
            process_machine_responses mk resps
          else modify (update_la_data (insert_peeked_marker la_dat))
      | _ => mret tt
      end
  | ProtocolMessage pm => handle_protocol_message pm
  end.

(** [take_next_wft_sequence] on the run's history. *)
Definition take_next : WM NextWFT :=
  fun s =>
    let '(u, r) := take_next_wft_sequence s.(wm_current_started_event_id)
                     s.(wm_last_history_from_server) in
    (set_last_history_from_server u s,
     match r with Ok n => Ok n | Err e => match e with end | Panic msg => Panic msg end).

Definition is_wft_started (e : HistoryEvent) : bool :=
  (e.(HistoryEvent_event_type) =? EventType_as_i32 ET_WorkflowTaskStarted)%Z.

Definition begin_sequence (events : list HistoryEvent) (s : WorkflowMachines K Sm)
  : WorkflowMachines K Sm :=
  let s := apply_completions events s in
  let s := match events with [] => set_replaying false s | _ => s end in
  match last events with
  | Some e => if is_wft_started e then set_next_started_event_id e.(HistoryEvent_event_id) s else s
  | None => s
  end.

Definition apply_next_wft_from_history : WM nat :=
  s ← get;
  if s.(wm_have_seen_terminal_event) then
    _ ← modify (set_replaying false); mret 0
  else
    let last_handled_wft_started_id := s.(wm_current_started_event_id) in
    next ← take_next;
    '(events, has_final_event) ←
      match next with
      | ReplayOver => mret ([], true)
      | WFT evts has_final_event =>
          mret (filter (fun e => (s.(wm_last_processed_event) < e.(HistoryEvent_event_id))%Z) evts,
                has_final_event)
      | NeedFetch => throw (Fatal
          ("Need to fetch history events to continue applying workflow task, but this "
           +:+ "should be prevented ahead of time! This is a Core SDK bug."))
      end;
    _ ← modify (begin_sequence events);
    admitted ← apply_events has_final_event events ∅ true;
    s ← get;
    actions ← peek_events
      (peek_next_wft_sequence s.(wm_last_history_from_server) last_handled_wft_started_id) admitted;
    _ ← for_each delayed_action actions;
    mret (length events).

Definition new_history_from_server (update : HistoryUpdate) : WM unit :=
  _ ← modify (fun s => set_replaying (0 <? update.(previous_wft_started_id))%Z
                         (set_last_history_from_server update s));
  _ ← apply_next_wft_from_history;
  mret tt.

Definition new_work_from_server (update : HistoryUpdate)
    (protocol_messages : list IncomingProtocolMessage) : WM unit :=
  _ ← modify (set_protocol_msgs protocol_messages);
  new_history_from_server update.

Definition ready_to_apply_next_wft (s : WorkflowMachines K Sm) : bool :=
  can_take_next_wft_sequence s.(wm_last_history_from_server) s.(wm_current_started_event_id).

End workflow_machines.
