(* ===== verification/WMSafety.v ===== *)
(** * Safety of the workflow machines

    The invariant of the references to machines, what every operation keeps, and
    a small program logic to prove both for all operations of
    machines/workflow_machines.rs. *)
From Stdlib Require Import ZArith Lia.
From stdpp Require Import base option list strings gmap.
From S2P Require Import Prelude Flags Protos ProtoExt CoreProtos Fsm TimerMachine.
From S2P Require Import ActivityMachine ChildWorkflowMachine NexusMachine.
From S2P Require Import LocalActivityMachine WorkflowTaskMachine UpdateMachine.
From S2P Require Import ExternalMachines TerminalMachines SideMachines LocalActs.
From S2P Require Import DrivenWorkflow Machines MachinePanics MachineCalls HistoryUpdate.
From S2P Require Import WMState WorkflowMachines.
Import LocalActs.

(** The machine type a command id stands for. *)
Definition kind_of_id (id : CommandID) : MachineKind :=
  match id with
  | CID_Timer _ => KTimer
  | CID_Activity _ => KActivity
  | CID_LocalActivity _ => KLocalActivity
  | CID_ChildWorkflowStart _ => KChildWorkflow
  | CID_SignalExternal _ => KSignalExternal
  | CID_CancelExternal _ => KCancelExternal
  | CID_NexusOperation _ => KNexusOperation
  end.

(** A clock that was set stays set, and does not go back. *)
Definition clock_le (a b : option Z) : Prop :=
  match a, b with
  | None, _ => True
  | Some a, Some b => (a <= b)%Z
  | Some _, None => False
  end.

#[global] Instance clock_le_preorder : PreOrder clock_le.
Proof.
  split.
  - intros [a|]; simpl; lia.
  - intros [a|] [b|] [c|]; simpl; try done; lia.
Qed.

Section safety.
  Context {X : Externs} {K : Type} {Sm : Type -> Type}.
  Context {HED : EqDecision K} {HC : Countable K} {HSM : SlotMap K Sm} {HSL : SlotMapLaws K Sm}.
  Implicit Types (s x : WorkflowMachines K Sm) (k : K).
  Abbreviation WM := (M (WorkflowMachines K Sm) WFMachinesError).

(** ** The invariant *)

Definition has_kind (kd : MachineKind) k s : Prop :=
  exists m, slot_get s.(wm_all_machines) k = Some m /\ kind_of m = kd.

Definition live k s : Prop := is_Some (slot_get s.(wm_all_machines) k).

(** The references held by [x] are in use in [s], with the type they stand
    for. *)
Record refs_in x s : Prop := {
  refs_machines : forall k, live k x -> live k s;
  refs_commands : forall c, c ∈ x.(wm_commands) -> live c.(cam_machine) s;
  refs_current : forall c, c ∈ x.(wm_current_wf_task_commands) -> live c.(cam_machine) s;
  refs_ids : forall id k, x.(wm_id_to_machine) !! id = Some k -> has_kind (kind_of_id id) k s;
  refs_events : forall e k, x.(wm_machines_by_event_id) !! e = Some k -> live k s;
  refs_msgs : forall i k,
    x.(wm_machines_by_protocol_instance_id) !! i = Some k -> has_kind KUpdate k s;
}.

Definition wm_inv s : Prop := refs_in s s.

(** What no operation takes back: machines stay, with their type; workflow time
    does not go back; the end of the workflow stays known; the run keeps its
    identity and configuration. *)
Record evolves s s' : Prop := {
  ev_kinds : forall kd k, has_kind kd k s -> has_kind kd k s';
  ev_clock : clock_le s.(wm_current_wf_time) s'.(wm_current_wf_time);
  ev_terminal : s.(wm_have_seen_terminal_event) = true -> s'.(wm_have_seen_terminal_event) = true;
  ev_end : is_Some s.(wm_workflow_end_time) -> is_Some s'.(wm_workflow_end_time);
  ev_id : s'.(wm_workflow_id) = s.(wm_workflow_id);
  ev_run : s'.(wm_run_id) = s.(wm_run_id);
  ev_config : s'.(wm_worker_config) = s.(wm_worker_config);
}.

#[global] Instance evolves_preorder : PreOrder evolves.
Proof.
  split.
  - intros s. by split.
  - intros s1 s2 s3 [] []. split; [by auto|by etrans|by auto|by auto|congruence..].
Qed.

Lemma has_kind_live kd k s : has_kind kd k s -> live k s.
Proof. intros (m & Hm & _). by eexists. Qed.

Lemma live_has_kind k s : live k s -> exists kd, has_kind kd k s.
Proof. intros [m Hm]. exists (kind_of m), m. done. Qed.

Lemma live_evolves k s s' : evolves s s' -> live k s -> live k s'.
Proof. intros He [kd Hk]%live_has_kind. eapply has_kind_live, ev_kinds; done. Qed.

(** A predicate that operations keep. *)
Class Stable (P : WorkflowMachines K Sm -> Prop) : Prop :=
  stable : forall s s', evolves s s' -> P s -> P s'.

#[global] Instance has_kind_stable kd k : Stable (has_kind kd k).
Proof. intros s s' He. apply He. Qed.

#[global] Instance live_stable k : Stable (live k).
Proof. intros s s'. apply live_evolves. Qed.

#[global] Instance refs_in_stable x : Stable (refs_in x).
Proof.
  intros s s' He []. split; eauto using live_evolves, ev_kinds.
Qed.

#[global] Instance and_stable P Q : Stable P -> Stable Q -> Stable (fun s => P s /\ Q s).
Proof. intros HP HQ s s' He [??]. split; [by eapply HP|by eapply HQ]. Qed.

#[global] Instance const_stable (P : Prop) : Stable (fun _ => P).
Proof. by intros s s' _. Qed.

#[global] Instance forall_stable {A} (P : A -> WorkflowMachines K Sm -> Prop) :
  (forall a, Stable (P a)) -> Stable (fun s => forall a, P a s).
Proof. intros HP s s' He Ha a. eapply HP; eauto. Qed.

#[global] Instance impl_stable (P : Prop) (Q : WorkflowMachines K Sm -> Prop) :
  Stable Q -> Stable (fun s => P -> Q s).
Proof. intros HQ s s' He Hi HP. eapply HQ; eauto. Qed.

(** ** The program logic *)

(** From a state with the invariant and [P], the operation keeps the invariant,
    evolves, does not fail on a missing machine, and establishes [Q]. *)
Definition safe {A} (P : WorkflowMachines K Sm -> Prop) (m : WM A)
    (Q : A -> WorkflowMachines K Sm -> Prop) : Prop :=
  forall s, wm_inv s -> P s ->
    wm_inv (m s).1 /\ evolves s (m s).1 /\ quiet (m s).2 /\
    (forall a, (m s).2 = Ok a -> Q a (m s).1).

Abbreviation any := (fun _ _ => True).

Lemma safe_bind {A B} P (m : WM A) Q (f : A -> WM B) R :
  Stable P -> safe P m Q -> (forall a, safe (fun s => P s /\ Q a s) (f a) R) ->
  safe P (m ≫= f) R.
Proof.
  intros HP Hm Hf s Hi Hs. destruct (Hm s Hi Hs) as (Hi1 & He1 & Hq1 & HQ).
  unfold mbind, M_bind. destruct (m s) as [s1 [a| |msg]]; simpl in *.
  - destruct (Hf a s1 Hi1) as (Hi2 & He2 & Hq2 & HR); [split; [by eapply HP|by apply HQ]|].
    split_and!; [done|by etrans|done..].
  - done.
  - split_and!; [done..| |done]. unfold quiet in *. congruence.
Qed.

Lemma safe_weaken {A} (P P' : WorkflowMachines K Sm -> Prop) (m : WM A) Q Q' :
  safe P' m Q' -> (forall s, P s -> P' s) -> (forall a s, Q' a s -> Q a s) -> safe P m Q.
Proof.
  intros Hm HP HQ s Hi Hs. destruct (Hm s Hi (HP s Hs)) as (?&?&?&?). eauto 10.
Qed.

(** An operation without a precondition. *)
Lemma safe_any {A} P (m : WM A) Q : safe (fun _ => True) m Q -> safe P m Q.
Proof. intros Hm. by eapply safe_weaken. Qed.

Lemma safe_ret {A} P (a : A) (Q : A -> WorkflowMachines K Sm -> Prop) :
  (forall s, P s -> Q a s) -> safe P (mret a) Q.
Proof. intros HQ s Hi Hs. split_and!; [done..|]. intros a' [= <-]. by apply HQ. Qed.

Lemma safe_throw {A} P (e : WFMachinesError) (Q : A -> WorkflowMachines K Sm -> Prop) :
  safe P (throw e) Q.
Proof. intros s Hi Hs. by split_and!. Qed.

Lemma safe_panic {A} P msg (Q : A -> WorkflowMachines K Sm -> Prop) :
  msg <> missing_machine -> safe P (panic msg) Q.
Proof. intros Hm s Hi Hs. split_and!; try done. intros [= ?]. done. Qed.

Lemma safe_lift {A} P (r : outcome WFMachinesError A) (Q : A -> WorkflowMachines K Sm -> Prop) :
  quiet r -> (forall a s, r = Ok a -> P s -> Q a s) -> safe P (lift r) Q.
Proof. intros Hq HQ s Hi Hs. split_and!; [done..|]. simpl. eauto. Qed.

Lemma safe_get P : safe P get (fun x s => refs_in x s).
Proof. intros s Hi Hs. split_and!; [done..|]. by intros a [= <-]. Qed.

Lemma safe_get_any P : safe P get any.
Proof. intros s Hi Hs. by split_and!. Qed.

Lemma safe_modify P (f : WorkflowMachines K Sm -> WorkflowMachines K Sm) :
  (forall s, wm_inv s -> P s -> wm_inv (f s) /\ evolves s (f s)) -> safe P (modify f) any.
Proof. intros Hf s Hi Hs. destruct (Hf s Hi Hs). by split_and!. Qed.

Lemma safe_for_each {A} P (f : A -> WM unit) l :
  Stable P -> (forall a, a ∈ l -> safe P (f a) any) -> safe P (for_each f l) any.
Proof.
  intros HP. induction l as [|a l IH]; intros Hf; simpl; [by apply safe_ret|].
  apply (safe_bind P _ any); [done|apply Hf; by left|].
  intros _. eapply safe_weaken; [apply IH|by intros s [? _]|done].
  intros b Hb. apply Hf. by right.
Qed.

(** ** Access and creation *)

(** An assignment to fields that hold no reference. *)
Ltac frame :=
  apply safe_modify; let s := fresh "s" in let Hi := fresh "Hi" in
  intros s Hi _; split;
  [destruct Hi; split; simpl; assumption || done
  |split; simpl; first [done | reflexivity | by eauto]].

Lemma safe_get_machine k : safe (live k) (get_machine k) (fun m s => has_kind (kind_of m) k s).
Proof.
  intros s Hi [m Hm]. unfold get_machine. rewrite Hm. split_and!; [done..|].
  intros a [= <-]. by exists m.
Qed.

(** Replacing a machine by one of the same type, and the flags. *)
Lemma update_machine_inv k m m' fl s :
  slot_get s.(wm_all_machines) k = Some m -> kind_of m' = kind_of m -> wm_inv s ->
  let s' := set_observed_internal_flags fl
              (set_all_machines (slot_update k m' s.(wm_all_machines)) s) in
  wm_inv s' /\ evolves s s'.
Proof.
  intros Hm Hk Hi s'. assert (evolves s s') as He.
  { split; try done. intros kd j (mj & Hj & <-). unfold has_kind. simpl.
    rewrite slot_get_update. case_decide as Hd; [|by eauto]. subst j.
    rewrite Hm in *. simplify_eq/=. eauto. }
  split; [|done]. destruct (refs_in_stable s s s' He Hi) as [Hl].
  by split.
Qed.

Lemma safe_on_machine {A} k (f : M (Machines * InternalFlags) WFMachinesError A) :
  gentle f -> safe (live k) (on_machine k f) any.
Proof.
  intros Hf s Hi [m Hm]. unfold on_machine. rewrite Hm.
  destruct (Hf m s.(wm_observed_internal_flags)) as [Hk Hq].
  destruct (f (m, _)) as [[m' fl] r]; simpl in *.
  destruct (update_machine_inv k m m' fl s Hm Hk Hi). by split_and!.
Qed.

Lemma insert_machine_inv m s k ms :
  slot_insert m s.(wm_all_machines) = (k, ms) -> wm_inv s ->
  let s' := set_all_machines ms s in
  wm_inv s' /\ evolves s s' /\ has_kind (kind_of m) k s'.
Proof.
  intros Hins Hi s'. assert (evolves s s') as He.
  { split; try done. intros kd j (mj & Hj & Hkd). unfold has_kind; simpl.
    rewrite (slot_get_insert _ _ _ _ _ j Hins). case_decide; [|by eauto].
    subst. rewrite (slot_insert_fresh _ _ _ _ _ Hins) in Hj. done. }
  split_and!; [|done|].
  - destruct (refs_in_stable s s s' He Hi) as [Hl]. split; try done.
  - exists m. simpl. rewrite (slot_get_insert _ _ _ _ _ k Hins). by rewrite decide_True.
Qed.

Lemma safe_insert_machine m :
  safe (fun _ => True) (insert_machine m) (fun k s => has_kind (kind_of m) k s).
Proof.
  intros s Hi _. unfold insert_machine. destruct (slot_insert _ _) as [k ms] eqn:E.
  destruct (insert_machine_inv m s k ms E Hi) as (?&?&?). simpl. split_and!; [done..|].
  by intros a [= <-].
Qed.

Lemma safe_get_machine_key id :
  safe (fun _ => True) (get_machine_key id) (fun k s => has_kind (kind_of_id id) k s).
Proof.
  intros s Hi _. unfold get_machine_key. destruct (_ !! id) as [k|] eqn:E; simpl; [|by split_and!].
  split_and!; [done..|]. intros a [= <-]. by eapply refs_ids.
Qed.

Lemma safe_get_machine_by_msg i :
  safe (fun _ => True) (get_machine_by_msg i) (fun k s => has_kind KUpdate k s).
Proof.
  intros s Hi _. unfold get_machine_by_msg.
  destruct (_ !! i) as [k|] eqn:E; simpl; [|by split_and!].
  split_and!; [done..|]. intros a [= <-]. by eapply refs_msgs.
Qed.

Lemma set_current_time_le t s :
  clock_le s.(wm_current_wf_time) (set_current_time t s).(wm_current_wf_time).
Proof.
  unfold set_current_time. destruct (wm_current_wf_time s) as [c|] eqn:E; simpl; [|done].
  destruct (Z.ltb_spec c t); simpl; [|by rewrite E; simpl]. lia.
Qed.

Lemma set_current_time_cases t s :
  set_current_time t s = s \/ set_current_time t s = set_current_wf_time (Some t) s.
Proof.
  unfold set_current_time. destruct (wm_current_wf_time s) as [c|]; [|by right].
  destruct (c <? t)%Z; [by right|by left].
Qed.

Lemma safe_set_current_time t : safe (fun _ => True) (modify (set_current_time t)) any.
Proof.
  apply safe_modify. intros s Hi _. pose proof (set_current_time_le t s) as Hc.
  destruct (set_current_time_cases t s) as [E|E]; rewrite E in *; [done|].
  split; [by destruct Hi; split|by split].
Qed.

Lemma safe_push_current c : safe (live c.(cam_machine)) (modify (push_current_command c)) any.
Proof.
  apply safe_modify. intros s Hi Hc. split; [|by split].
  destruct Hi; split; try done. intros c'. simpl. rewrite elem_of_app, list_elem_of_singleton.
  intros [Hin| ->]; [exact (refs_current0 c' Hin)|exact Hc].
Qed.

Lemma safe_set_commands cmds :
  safe (fun s => forall c, c ∈ cmds -> live c.(cam_machine) s) (modify (set_commands cmds)) any.
Proof. apply safe_modify. intros s Hi Hc. split; [|by split]. by destruct Hi; split. Qed.

Lemma safe_add_new_command_machine mc md :
  safe (fun _ => True) (add_new_command_machine mc md)
    (fun c s => has_kind (kind_of mc.1) c.(cam_machine) s).
Proof.
  eapply safe_bind; [apply _|apply safe_insert_machine|]. intros k.
  apply safe_ret. by intros s [_ ?].
Qed.

Lemma safe_set_id id k :
  safe (has_kind (kind_of_id id) k)
    (modify (fun s => set_id_to_machine (<[id := k]> s.(wm_id_to_machine)) s)) any.
Proof.
  apply safe_modify. intros s Hi Hk. split; [|by split]. destruct Hi; split; try done.
  intros id' k'. simpl. rewrite lookup_insert. case_decide; [|exact (refs_ids0 id' k')]. subst.
  intros [= <-]. exact Hk.
Qed.

Lemma safe_add_cmd_to_wf_task mc md id :
  safe (fun _ => forall i, id = LangIssued i -> kind_of_id i = kind_of mc.1)
    (add_cmd_to_wf_task mc md id) any.
Proof.
  eapply safe_bind; [apply _|apply safe_any, safe_add_new_command_machine|]. intros c. simpl.
  eapply (safe_bind _ _ any); [apply _| |].
  { destruct id as [i| |].
    - eapply safe_weaken; [apply safe_set_id| |done].
      intros s [Hid ?]. by rewrite (Hid i eq_refl).
    - frame.
    - by apply safe_ret. }
  intros _. eapply (safe_bind _ _ any); [apply _| |].
  { eapply safe_weaken; [apply safe_push_current| |done].
    intros s [[_ ?] _]. by eapply has_kind_live. }
  intros _. by apply safe_ret.
Qed.

(** The same, for its key. *)
Lemma safe_add_cmd_key mc md :
  safe (fun _ => True) (add_cmd_to_wf_task mc md NeverResolves) (fun k s => live k s).
Proof.
  eapply safe_bind; [apply _|apply safe_add_new_command_machine|]. intros c. simpl.
  eapply (safe_bind _ _ any); [apply _|by apply safe_ret|].
  intros _. eapply (safe_bind _ _ any); [apply _| |].
  { eapply safe_weaken; [apply safe_push_current| |done].
    intros s [[_ ?] _]. by eapply has_kind_live. }
  intros _. apply safe_ret. intros s [[[_ ?] _] _]. by eapply has_kind_live.
Qed.

(** ** Operations *)

(** The precondition of a step follows from what is known. *)
Ltac entail :=
  let s := fresh "s" in intros s; intros; destruct_and?; eauto using has_kind_live.

(** One step of a sequence, by its lemma. *)
Ltac step lem :=
  eapply safe_bind; [apply _|eapply safe_weaken; [apply lem|entail|by intros; eassumption]|intros ?].

(** The last step. *)
Ltac last_step lem := eapply safe_weaken; [apply lem|entail|done].

(** An operation whose result says nothing of the state. *)
Lemma safe_create {SM} (c : machine SM -> Machines) f kd :
  (forall fl, quiet (f fl).2) -> (forall m, kind_of (c m) = kd) ->
  safe (fun _ => True) (create c f) (fun mc _ => kind_of mc.1 = kd).
Proof.
  intros Hq Hk s Hi _. unfold create. specialize (Hq s.(wm_observed_internal_flags)).
  destruct (f _) as [[m fl] r]; simpl in *. split_and!.
  - by destruct Hi; split.
  - by split.
  - apply quiet_bind; [done|]. by intros.
  - intros mc. destruct r; simpl; try done. intros [= <-]. simpl. apply Hk.
Qed.

(** A computation on the flags. *)
Lemma safe_flags {A} (f : WorkflowMachines K Sm -> InternalFlags * outcome WFMachinesError A) :
  (forall s, quiet (f s).2) ->
  safe (fun _ => True)
    (fun s => let '(fl, r) := f s in (set_observed_internal_flags fl s, r)) any.
Proof.
  intros Hq s Hi _. specialize (Hq s). destruct (f s) as [fl r]; simpl in *.
  split_and!; [by destruct Hi; split|by split|done|done].
Qed.

Lemma la_method_gentle {A} other (f : MachineM LocalActivity.LocalActivityMachine A) :
  quiet other -> (forall st, quiet (f st).2) -> gentle (la_method other f).
Proof. intros Ho Hf [] fl; simpl; (split; [done|]); first [done|apply Hf]. Qed.

Lemma safe_take_preresolution seq : safe (fun _ => True) (take_preresolution_of seq) any.
Proof. intros s Hi _. simpl. split_and!; [by destruct Hi; split|by split|done|done]. Qed.

Lemma safe_remove_from_queue seq : safe (fun _ => True) (remove_from_queue_of seq) any.
Proof.
  intros s Hi _. unfold remove_from_queue_of. destruct (remove_from_queue _ _) as [d r]; simpl.
  split_and!; [by destruct Hi; split|by split|done|done].
Qed.

Lemma safe_notify_non_replay keys :
  safe (fun s => forall k, k ∈ keys -> live k s) (notify_non_replay keys)
    (fun l s => forall p, p ∈ l -> live p.1 s).
Proof.
  induction keys as [|k keys IH]; simpl; [apply safe_ret; set_solver|].
  eapply safe_bind; [apply _|eapply safe_weaken; [apply safe_get_machine|set_solver|by auto]|].
  intros m. simpl.
  eapply (safe_bind _ _ (fun l s => forall p, p ∈ l -> live p.1 s)); [apply _| |].
  { destruct m; try (apply safe_ret; set_solver).
    eapply safe_bind; [apply _|eapply safe_weaken; [apply safe_on_machine| |by auto]|].
    - apply la_method_gentle; [done|]. apply encountered_quiet.
    - intros s [_ Hk]. by eapply has_kind_live.
    - intros r. apply safe_ret. intros s [[_ Hk] _] p ->%list_elem_of_singleton.
      by eapply has_kind_live. }
  intros l. simpl. eapply safe_bind; [apply _|eapply safe_weaken; [apply IH|set_solver|by auto]|].
  intros l'. apply safe_ret. intros s Hs p [Hp|Hp]%elem_of_app; destruct_and!; eauto.
Qed.

(** The creation of a machine of the given type. *)
Ltac create_step kd q :=
  eapply safe_bind;
  [apply _|apply safe_any, (safe_create _ _ kd); [intros ?; apply q|done]|intros ?; simpl].

(** Its addition to the task, under an id of its type. *)
Ltac add_step :=
  eapply (safe_bind _ _ any);
  [apply _
  |eapply safe_weaken; [apply safe_add_cmd_to_wf_task
                       |intros ? ? ? [= ?]; destruct_and?; subst; simpl; congruence|done]
  |intros ?; by apply safe_ret].

Section process.
  Variable process : K -> list MachineResponse -> WM unit.
  Hypothesis process_safe : forall k r, safe (live k) (process k r) any.

Lemma safe_task_started id time : safe (fun _ => True) (task_started process id time) any.
Proof.
  eapply (safe_bind _ _ any); [apply _|frame|]. intros _.
  eapply (safe_bind _ _ any); [apply _|frame|]. intros _.
  eapply (safe_bind _ _ any); [apply _|apply safe_any, safe_set_current_time|]. intros _.
  eapply safe_bind; [apply _|apply safe_get|]. intros x. simpl.
  destruct (wm_replaying x); [by apply safe_ret|].
  eapply safe_bind; [apply _|eapply safe_weaken; [apply safe_notify_non_replay| |by auto]|].
  { intros s Hs k Hk%slot_keys_get. destruct_and!. by eapply refs_machines. }
  intros l. apply safe_for_each; [apply _|]. intros [k r] Hin. simpl.
  eapply safe_weaken; [apply process_safe| |done]. intros s [_ Hl]. by apply (Hl (k, r)).
Qed.

Lemma safe_request_cancel smk seq :
  safe (live smk) (request_cancel_local_activity process smk seq) any.
Proof.
  eapply (safe_bind _ _ any); [apply _|apply safe_any, safe_take_preresolution|].
  intros [preres|]; simpl.
  { eapply (safe_bind _ _ any); [apply _|eapply safe_weaken; [apply safe_on_machine|entail|done]|].
    - apply la_method_gentle; [done|]. intros st. apply try_resolve_with_dat_quiet.
    - intros r. last_step process_safe. }
  eapply (safe_bind _ _ any); [apply _|apply safe_any, safe_remove_from_queue|].
  intros [act|]; simpl; [|frame].
  eapply (safe_bind _ _ any); [apply _|eapply safe_weaken; [apply safe_on_machine|entail|done]|].
  - apply la_method_gentle; [done|]. intros st. apply try_resolve_quiet.
  - intros r. last_step process_safe.
Qed.

Lemma safe_new_core_originated attrs : safe (fun _ => True) (new_core_originated_command attrs) any.
Proof.
  destruct attrs; try apply safe_throw; simpl.
  - create_step KCancelExternal new_cancel_external_quiet. add_step.
  - add_step.
Qed.

Lemma safe_process_response smk r : safe (live smk) (process_response process smk r) any.
Proof.
  destruct r; simpl; try frame.
  - apply safe_modify. intros s Hi _. case_decide; [done|].
    split; [by destruct Hi; split|by split].
  - last_step safe_push_current.
  - apply safe_modify. intros s Hi _. destruct (wm_replaying s); [done|].
    split; [by destruct Hi; split|by split].
  - apply safe_any, safe_new_core_originated.
  - last_step safe_push_current.
  - apply safe_any, safe_task_started.
  - apply safe_request_cancel.
  - destruct t as [t|]; [apply safe_any, safe_set_current_time|by apply safe_modify].
Qed.

End process.

Lemma safe_process_at depth smk r : safe (live smk) (process_at depth smk r) any.
Proof.
  revert smk r. induction depth as [|depth IH]; intros smk r; simpl; [by apply safe_panic|].
  eapply (safe_bind _ _ any); [apply _|eapply safe_weaken; [apply safe_get_machine|done|done]|].
  intros _. apply safe_for_each; [apply _|]. intros a _.
  eapply safe_weaken; [apply safe_process_response, IH|by intros s [??]|done].
Qed.

Lemma safe_process_machine_responses smk r :
  safe (live smk) (process_machine_responses smk r) any.
Proof. apply safe_process_at. Qed.

Lemma safe_submachine_handle_event k d : safe (live k) (submachine_handle_event k d) any.
Proof.
  eapply (safe_bind _ _ any); [apply _|apply safe_on_machine, handle_event_gentle|].
  intros r. last_step safe_process_machine_responses.
Qed.

Lemma safe_add_new_protocol_machine m i :
  kind_of m = KUpdate ->
  safe (fun _ => True) (add_new_protocol_machine m i) (fun k s => live k s).
Proof.
  intros Hm. eapply safe_bind; [apply _|apply safe_insert_machine|]. intros k. simpl. rewrite Hm.
  eapply (safe_bind _ _ any); [apply _| |].
  { apply safe_modify. intros s Hi [_ Hk]. split; [|by split]. destruct Hi; split; try done.
    intros j k'. simpl. rewrite lookup_insert. case_decide; [|exact (refs_msgs0 j k')].
    intros [= <-]. exact Hk. }
  intros _. apply safe_ret. intros s [[_ ?] _]. by eapply has_kind_live.
Qed.

Lemma safe_handle_protocol_message msg : safe (fun _ => True) (handle_protocol_message msg) any.
Proof.
  eapply (safe_bind _ _ any); [apply _| |].
  { destruct (im_sequencing_id msg) as [[]|]; [by apply safe_ret|apply safe_throw..]. }
  intros seq. eapply (safe_bind _ _ any); [apply _|apply safe_get_any|].
  intros x. eapply (safe_bind _ _ any); [apply _|apply safe_lift; [apply update_init_quiet|done]|].
  intros um. eapply safe_bind; [apply _|by apply safe_any, safe_add_new_protocol_machine|].
  intros k. last_step safe_process_machine_responses.
Qed.

(** ** Preparing commands *)

Lemma safe_retain cmds :
  safe (fun s => forall c, c ∈ cmds -> live c.(cam_machine) s) (retain_not_cancelled cmds)
    (fun l s => forall c, c ∈ l -> live c.(cam_machine) s).
Proof.
  induction cmds as [|c cmds IH]; simpl; [apply safe_ret; set_solver|].
  eapply (safe_bind _ _ any);
    [apply _|eapply safe_weaken; [apply safe_get_machine|set_solver|done]|].
  intros m. eapply (safe_bind _ _ any);
    [apply _|apply safe_lift; [apply machines_was_cancelled_quiet|done]|].
  intros b. simpl. eapply safe_bind; [apply _|eapply safe_weaken; [apply IH|set_solver|by auto]|].
  intros l. apply safe_ret. intros s [[[Hc _] _] Hl] c' Hin. destruct b; [by apply Hl|].
  apply elem_of_cons in Hin as [->|Hin]; [apply Hc; by left|by apply Hl].
Qed.

Lemma safe_pop_current :
  safe (fun _ => True) pop_current_command
    (fun o s => forall c, o = Some c -> live c.(cam_machine) s).
Proof.
  intros s Hi _. unfold pop_current_command.
  destruct (wm_current_wf_task_commands s) as [|c rest] eqn:E; simpl.
  { split_and!; [done..|]. by intros a [= <-]. }
  assert (live c.(cam_machine) s) by (eapply refs_current; [done|rewrite E; by left]).
  split_and!; [|by split|done|by intros a [= <-] c' [= <-]].
  destruct Hi; split; try done. simpl. intros c' Hin. apply refs_current0. rewrite E. by right.
Qed.

Lemma safe_prepare_command c : safe (live c.(cam_machine)) (prepare_command c) any.
Proof.
  eapply (safe_bind _ _ any); [apply _|eapply safe_weaken; [apply safe_get_machine|done|done]|].
  intros m. eapply (safe_bind _ _ any);
    [apply _|apply safe_lift; [apply machines_was_cancelled_quiet|done]|].
  intros [|]; simpl; [by apply safe_ret|].
  eapply (safe_bind _ _ any); [apply _| |].
  { destruct (cam_command c); [|by apply safe_ret].
    eapply (safe_bind _ _ any);
      [apply _|eapply safe_weaken; [apply safe_on_machine, handle_command_gentle|entail|done]|].
    intros r. last_step safe_process_machine_responses. }
  intros _. apply safe_modify. intros s Hi Hs. destruct_and!. split; [|by split].
  destruct Hi; split; try done. simpl. intros c'.
  rewrite elem_of_app, list_elem_of_singleton. intros [Hin| ->]; [exact (refs_commands0 c' Hin)|].
  assumption.
Qed.

Lemma safe_prepare_loop fuel : safe (fun _ => True) (prepare_loop fuel) any.
Proof.
  induction fuel as [|fuel IH]; simpl; [by apply safe_panic|].
  eapply safe_bind; [apply _|apply safe_pop_current|]. intros [c|]; simpl; [|by apply safe_ret].
  eapply (safe_bind _ _ any); [apply _|eapply safe_weaken; [apply safe_prepare_command| |done]|].
  { intros s [_ Hc]. by apply Hc. }
  intros _. by apply safe_any.
Qed.

Lemma safe_prepare_commands : safe (fun _ => True) prepare_commands any.
Proof.
  eapply safe_bind; [apply _|apply safe_get|]. intros x. simpl.
  eapply safe_bind; [apply _|eapply safe_weaken; [apply safe_retain| |by auto]|].
  { intros s [_ Hx]. apply Hx. }
  intros kept. eapply (safe_bind _ _ any); [apply _|eapply safe_weaken; [apply safe_set_commands| |done]|].
  { by intros s [_ Hk]. }
  intros _. exact (safe_any _ _ _ (safe_prepare_loop (S _))).
Qed.

(** ** Commands from lang *)

Lemma safe_add_terminal_command now mc md :
  safe (fun _ => True) (add_terminal_command now mc md) any.
Proof.
  eapply safe_bind; [apply _|apply safe_add_new_command_machine|]. intros c. simpl.
  apply safe_modify. intros s Hi [_ Hc]. split; [|by split].
  destruct Hi; split; try done. simpl. intros c'.
  rewrite elem_of_app, list_elem_of_singleton. intros [Hin| ->]; [exact (refs_current0 c' Hin)|].
  by eapply (has_kind_live _ _ s).
Qed.

Lemma safe_cancel_machine id variant f :
  (forall ms fl, match f ms fl with
                 | Some r => kind_of r.1.1 = kind_of ms /\ quiet r.2
                 | None => True
                 end) ->
  safe (fun _ => True) (cancel_machine id variant f) any.
Proof.
  intros Hf. eapply safe_bind; [apply _|apply safe_get_machine_key|]. intros k. simpl.
  eapply (safe_bind _ _ any); [apply _|eapply safe_weaken; [apply safe_on_machine|entail|done]|].
  - intros ms fl. specialize (Hf ms fl). destruct (f ms fl) as [[st r]|]; simpl in *; [|done].
    destruct Hf. split; [done|]. by apply quiet_map_err.
  - intros r. last_step safe_process_machine_responses.
Qed.

Lemma safe_add_local_activity now attrs : safe (fun _ => True) (add_local_activity now attrs) any.
Proof.
  eapply (safe_bind _ _ any);
    [apply _|apply safe_lift; [apply quiet_map_err, from_schedule_la_quiet|done]|].
  intros a. simpl. eapply (safe_bind _ _ any); [apply _|apply safe_get_any|].
  intros x. eapply (safe_bind _ _ any); [apply _|apply safe_any, safe_take_preresolution|].
  intros p. eapply (safe_bind _ _ any); [apply _|apply safe_any, safe_flags|].
  { intros s. apply new_local_activity_quiet. }
  intros la. eapply safe_bind; [apply _|apply safe_any, safe_insert_machine|].
  intros k. simpl. eapply (safe_bind _ _ any); [apply _|eapply safe_weaken; [apply safe_set_id|entail|done]|].
  intros _. last_step safe_process_machine_responses.
Qed.

Lemma safe_set_patch_marker attrs md : safe (fun _ => True) (set_patch_marker attrs md) any.
Proof.
  eapply (safe_bind _ _ any); [apply _|apply safe_get_any|]. intros x. simpl.
  assert (safe (fun s => True /\ True)
    (patch ← (fun s' =>
        let '(fl, r) := Patch.has_change attrs.(SetPatchMarker_patch_id) x.(wm_replaying)
                          attrs.(SetPatchMarker_deprecated)
                          (bool_decide (is_Some (x.(wm_encountered_patch_markers)
                                                   !! attrs.(SetPatchMarker_patch_id))))
                          (dom x.(wm_encountered_patch_markers))
                          s'.(wm_observed_internal_flags) in
        (set_observed_internal_flags fl s', r)) : WM _;
      let '((m, c), other_cmds) := patch in
      mkey ← add_cmd_to_wf_task (M_Patch m, c) md NeverResolves;
      _ ← process_machine_responses mkey other_cmds;
      modify (fun s => set_encountered_patch_markers
        (<[attrs.(SetPatchMarker_patch_id) := {| created_command := true |}]>
           s.(wm_encountered_patch_markers)) s)) any) as Hnew.
  { eapply (safe_bind _ _ any); [apply _|apply safe_any, safe_flags|].
    { intros s. apply has_change_quiet. }
    intros [[m c] other]. eapply safe_bind; [apply _|apply safe_any, safe_add_cmd_key|].
    intros k. simpl. eapply (safe_bind _ _ any); [apply _| |].
    { eapply safe_weaken; [apply safe_process_machine_responses|entail|done]. }
    intros _. frame. }
  destruct (_ !! _) as [[[|]]|] eqn:E; [by apply safe_ret|done..].
Qed.

Lemma safe_update_response ur : safe (fun _ => True) (update_response ur) any.
Proof.
  eapply safe_bind; [apply _|apply safe_get_machine_by_msg|]. intros k.
  eapply (safe_bind _ _ any); [apply _|eapply safe_weaken; [apply safe_on_machine|entail|done]|].
  - intros [] fl; (split; [done|]); first [done|apply update_response_quiet].
  - intros r. last_step safe_process_machine_responses.
Qed.

(** The cancellations of [cancel_machine!] are gentle. *)
Ltac cancel_gentle q :=
  apply safe_any, safe_cancel_machine; intros [] ?; first [exact I|(split; [done|exact (q _)])].

(** The creation of the machine that ends the workflow. *)
Ltac terminal_step kd q := create_step kd q; apply safe_any, safe_add_terminal_command.

Lemma safe_handle_driven_command now cmd : safe (fun _ => True) (handle_driven_command now cmd) any.
Proof.
  destruct cmd as [v md]. unfold handle_driven_command; cbn [wfc_variant wfc_metadata].
  destruct v.
  - by apply safe_ret.
  - eapply (safe_bind _ _ any); [apply _|apply safe_get_any|]. intros x.
    create_step KActivity new_activity_quiet. add_step.
  - apply safe_add_local_activity.
  - cancel_gentle activity_cancel_quiet.
  - cancel_gentle la_cancel_quiet.
  - create_step KTimer new_timer_quiet. add_step.
  - cancel_gentle timer_cancel_quiet.
  - terminal_step KCompleteWorkflow complete_workflow_quiet.
  - terminal_step KFailWorkflow fail_workflow_quiet.
  - by apply safe_panic.
  - eapply (safe_bind _ _ any); [apply _|apply safe_get_any|]. intros x.
    terminal_step KContinueAsNewWorkflow continue_as_new_quiet.
  - terminal_step KCancelWorkflow cancel_workflow_quiet.
  - apply safe_set_patch_marker.
  - eapply (safe_bind _ _ any); [apply _|apply safe_get_any|]. intros x.
    create_step KChildWorkflow new_child_quiet. add_step.
  - cancel_gentle (child_cancel_quiet (CancelChildWorkflowExecution_reason a)).
  - destruct (RequestCancelExternalWorkflowExecution_workflow_execution a); [|apply safe_throw].
    eapply (safe_bind _ _ any); [apply _|apply safe_get_any|]. intros x.
    create_step KCancelExternal new_cancel_external_quiet. add_step.
  - eapply (safe_bind _ _ (fun mc _ => kind_of mc.1 = KSignalExternal)); [apply _| |].
    { intros s Hi _. pose proof (new_signal_external_quiet a
        s.(wm_worker_config).(cfg_namespace) s.(wm_observed_internal_flags)) as Hq.
      destruct (SignalExternal.new_external_signal _ _ _) as [[[m fl] c]| |]; simpl in *.
      - split_and!; [by destruct Hi; split|by split|done|by intros mc [= <-]].
      - by split_and!.
      - split_and!; [done..| |done]. unfold quiet in *. congruence. }
    intros mc. add_step.
  - cancel_gentle signal_cancel_quiet.
  - eapply (safe_bind _ _ any); [apply _|frame|]. intros _.
    eapply (safe_bind _ _ any); [apply _| |].
    { intros s Hi _. destruct (UpsertSearchAttributes.upsert_search_attrs _ _ _) as [fl [m c]].
      split_and!; [by destruct Hi; split|by split|done|done]. }
    intros mc. add_step.
  - simpl. add_step.
  - apply safe_update_response.
  - simpl. add_step.
  - cancel_gentle nexus_cancel_quiet.
Qed.

Lemma safe_handle_driven_results now l : safe (fun _ => True) (handle_driven_results now l) any.
Proof. apply safe_for_each; [apply _|]. intros [i c] _. apply safe_handle_driven_command. Qed.

Lemma safe_iterate_machines now : safe (fun _ => True) (iterate_machines now) any.
Proof.
  eapply (safe_bind _ _ any); [apply _| |].
  { intros s Hi _. destruct (Driven.fetch_workflow_iteration_output _) as [d r]; simpl.
    split_and!; [by destruct Hi; split|by split|done|done]. }
  intros l. eapply (safe_bind _ _ any); [apply _|apply safe_any, safe_handle_driven_results|].
  intros _. apply safe_any, safe_prepare_commands.
Qed.

Lemma safe_local_resolution r : safe (fun _ => True) (local_resolution r) any.
Proof.
  eapply safe_bind; [apply _|apply safe_get_machine_key|]. intros k. simpl.
  eapply (safe_bind _ _ any); [apply _|eapply safe_weaken; [apply safe_on_machine|entail|done]|].
  - apply la_method_gentle; [done|]. intros st. apply try_resolve_quiet.
  - intros l. eapply (safe_bind _ _ any);
      [apply _|eapply safe_weaken; [apply safe_process_machine_responses|entail|done]|].
    intros _. eapply (safe_bind _ _ any); [apply _|frame|]. intros _. by apply safe_ret.
Qed.

Lemma safe_sendable_commands cmds :
  safe (fun s => forall c, c ∈ cmds -> live c.(cam_machine) s) (sendable_commands cmds) any.
Proof.
  induction cmds as [|c cmds IH]; simpl; [by apply safe_ret|].
  eapply (safe_bind _ _ any);
    [apply _|eapply safe_weaken; [apply safe_get_machine|set_solver|done]|].
  intros m. eapply (safe_bind _ _ any);
    [apply _|apply safe_lift; [apply is_final_state_quiet|done]|].
  intros b. eapply (safe_bind _ _ any); [apply _|eapply safe_weaken; [apply IH|set_solver|done]|].
  intros l. by apply safe_ret.
Qed.

Lemma safe_get_commands : safe (fun _ => True) get_commands any.
Proof.
  eapply (safe_bind _ _ any); [apply _|frame|]. intros _.
  eapply safe_bind; [apply _|apply safe_get|]. intros x.
  eapply safe_weaken; [apply safe_sendable_commands| |done]. intros s [_ Hx]. apply Hx.
Qed.

(** ** History events *)

Lemma patch_marker_handling_quiet e m n : quiet (patch_marker_handling e m n).
Proof.
  unfold patch_marker_handling. destruct (get_patch_marker_details e) as [[name dep]|].
  - destruct m as [[]|]; simpl; try (by destruct dep). by destruct (_ && _).
  - by destruct m as [[]|].
Qed.

Lemma safe_consume_command d next queue :
  safe (fun s => forall c, c ∈ queue -> live c.(cam_machine) s) (consume_command d next queue)
    (fun r s => forall c, r = inr c -> live c.(cam_machine) s).
Proof.
  induction queue as [|c queue IH]; simpl.
  { eapply (safe_bind _ _ any);
      [apply _|apply safe_lift; [apply patch_marker_handling_quiet|done]|].
    intros []; [by apply safe_ret|apply safe_throw..]. }
  eapply (safe_bind _ _ any);
    [apply _|eapply safe_weaken; [apply safe_get_machine|set_solver|done]|].
  intros m. eapply (safe_bind _ _ any);
    [apply _|apply safe_lift; [apply patch_marker_handling_quiet|done]|].
  intros []; simpl; [by apply safe_ret| |].
  - eapply (safe_bind _ _ any);
      [apply _|eapply safe_weaken; [apply safe_set_commands|set_solver|done]|].
    intros _. eapply safe_weaken; [apply IH|set_solver|done].
  - eapply (safe_bind _ _ any);
      [apply _|eapply safe_weaken; [apply safe_set_commands|set_solver|done]|].
    intros _. eapply (safe_bind _ _ any);
      [apply _|apply safe_lift; [apply machines_was_cancelled_quiet|done]|].
    intros []; simpl; [eapply safe_weaken; [apply IH|set_solver|done]|].
    eapply (safe_bind _ _ any);
      [apply _|eapply safe_weaken; [apply safe_submachine_handle_event|set_solver|done]|].
    intros _. apply safe_ret. intros s Hs c' [= <-]. destruct_and!. set_solver.
Qed.

Lemma safe_handle_la_marker d : safe (fun _ => True) (handle_la_marker d) any.
Proof.
  unfold handle_la_marker. destruct (is_local_activity_marker _); [|by apply safe_ret].
  eapply (safe_bind _ _ any); [apply _| |].
  { destruct (event_local_activity_marker_data _); [by apply safe_ret|apply safe_throw]. }
  intros md. eapply safe_bind; [apply _|apply safe_any, safe_get_machine_key|]. intros k. simpl.
  eapply (safe_bind _ _ any); [apply _|eapply safe_weaken; [apply safe_get_machine|entail|done]|].
  intros []; try apply safe_throw.
  eapply (safe_bind _ _ any); [apply _|apply safe_lift; [apply marker_special_quiet|done]|].
  intros []; simpl; [|by apply safe_ret].
  eapply (safe_bind _ _ any);
    [apply _|eapply safe_weaken; [apply safe_submachine_handle_event|entail|done]|].
  intros _. by apply safe_ret.
Qed.

Lemma safe_record_event k e :
  safe (live k) (modify (fun s => set_machines_by_event_id
    (<[e := k]> s.(wm_machines_by_event_id)) s)) any.
Proof.
  apply safe_modify. intros s Hi Hk. split; [|by split]. destruct Hi; split; try done.
  intros e' k'. simpl. rewrite lookup_insert. case_decide; [|exact (refs_events0 e' k')].
  intros [= <-]. exact Hk.
Qed.

Lemma safe_handle_command_event d next : safe (fun _ => True) (handle_command_event d next) any.
Proof.
  eapply (safe_bind _ _ any); [apply _|apply safe_handle_la_marker|].
  intros []; simpl; [by apply safe_ret|].
  eapply safe_bind; [apply _|apply safe_get|]. intros x.
  eapply safe_bind; [apply _|eapply safe_weaken; [apply safe_consume_command| |by auto]|].
  { intros s [_ Hx]. apply Hx. }
  intros [eho|c]; [by apply safe_ret|].
  eapply (safe_bind _ _ any); [apply _|eapply safe_weaken; [apply safe_get_machine| |done]|].
  { intros s [_ Hc]. by apply Hc. }
  intros m. eapply (safe_bind _ _ any);
    [apply _|apply safe_lift; [apply is_final_state_quiet|done]|].
  intros b. eapply (safe_bind _ _ any); [apply _| |intros _; by apply safe_ret].
  destruct b; [by apply safe_ret|]. eapply safe_weaken; [apply safe_record_event| |done].
  intros s Hs. destruct_and!. eauto.
Qed.

(** The start of the workflow sets its clock. *)
Lemma safe_set_start_time t :
  safe (fun _ => True)
    (modify (fun s => set_current_time t (set_workflow_start_time (Some t) s))) any.
Proof.
  apply safe_modify. intros s Hi _.
  set (x := set_workflow_start_time (Some t) s).
  pose proof (set_current_time_le t x) as Hc.
  destruct (set_current_time_cases t x) as [E|E]; rewrite E in *;
    (split; [by destruct Hi; split|by split]).
Qed.

Lemma safe_handle_workflow_started e attrs :
  safe (fun _ => True) (handle_workflow_started e attrs) any.
Proof.
  eapply (safe_bind _ _ any); [apply _| |intros _; frame].
  destruct (HistoryEvent_event_time e) as [st|]; [|by apply safe_ret].
  destruct (timestamp_try_into st); [apply safe_set_start_time|apply safe_throw].
Qed.

Lemma safe_handle_non_stateful_event d : safe (fun _ => True) (handle_non_stateful_event d) any.
Proof.
  unfold handle_non_stateful_event.
  destruct (EventType_try_from _) as [[]|]; try apply safe_throw.
  - destruct (HistoryEvent_attributes _) as [[]|]; try apply safe_throw.
    apply safe_handle_workflow_started.
  - eapply (safe_bind _ _ any); [apply _|apply safe_get_any|]. intros x.
    eapply safe_bind; [apply _|apply safe_any, safe_insert_machine|]. intros k. simpl.
    eapply (safe_bind _ _ any);
      [apply _|eapply safe_weaken; [apply safe_submachine_handle_event|entail|done]|].
    intros _. last_step safe_record_event.
  - destruct (HistoryEvent_attributes _) as [[]|]; try (by apply safe_ret). frame.
  - destruct (HistoryEvent_attributes _) as [[]|]; try (by apply safe_ret). frame.
Qed.

Lemma safe_wm_handle_event d next : safe (fun _ => True) (wm_handle_event d next) any.
Proof.
  unfold wm_handle_event. eapply (safe_bind _ _ any); [apply _| |intros _].
  { case_match; [frame|by apply safe_ret]. }
  case_match.
  { case_match; [apply safe_throw|by apply safe_ret]. }
  case_match.
  { case_match; [by apply safe_ret|apply safe_throw]. }
  case_match; [apply safe_any, safe_handle_command_event|].
  eapply (safe_bind _ _ any); [apply _| |intros _].
  { destruct (HistoryEvent_attributes _) as [[]|]; try (by apply safe_ret). frame. }
  eapply (safe_bind _ _ any); [apply _| |intros _; by apply safe_ret].
  destruct (get_initial_command_event_id _) as [id|];
    [|apply safe_any, safe_handle_non_stateful_event].
  eapply safe_bind; [apply _|apply safe_get|]. intros x.
  destruct (_ !! id) as [k|] eqn:E; [|apply safe_throw].
  eapply safe_weaken; [apply safe_submachine_handle_event| |done].
  intros s [_ Hx]. by eapply refs_events.
Qed.

(** ** Applying a workflow task *)

Lemma from_event_quiet e : quiet (IncomingProtocolMessage_from_event e).
Proof.
  unfold IncomingProtocolMessage_from_event. destruct (HistoryEvent_attributes e) as [[]|]; try done.
  all: repeat first [done | apply quiet_bind; [|done] | case_match].
  all: unfold UpdateRequest_try_from; by repeat case_match.
Qed.

Lemma safe_admit_update e admitted : safe (fun _ => True) (admit_update e admitted) any.
Proof.
  eapply (safe_bind _ _ any); [apply _|apply safe_lift; [apply quiet_map_err, from_event_quiet|done]|].
  intros msg. eapply (safe_bind _ _ any); [apply _|apply safe_get_any|]. intros x.
  case_match; [by apply safe_ret|].
  eapply (safe_bind _ _ any); [apply _|frame|]. intros _. by apply safe_ret.
Qed.

Lemma safe_process_messages_before eid : safe (fun _ => True) (process_messages_before eid) any.
Proof.
  eapply (safe_bind _ _ any); [apply _|apply safe_get_any|]. intros x.
  eapply (safe_bind _ _ any); [apply _|frame|]. intros _.
  apply safe_for_each; [apply _|]. intros m _. apply safe_any, safe_handle_protocol_message.
Qed.

Lemma safe_apply_event final e next admitted b :
  safe (fun _ => True) (apply_event final e next admitted b) any.
Proof.
  eapply (safe_bind _ _ any); [apply _|apply safe_get_any|]. intros x.
  case_match; [apply safe_throw|].
  eapply (safe_bind _ _ any); [apply _|case_match; [frame|by apply safe_ret]|intros _].
  eapply (safe_bind _ _ any); [apply _| |intros admitted'].
  { case_match; [apply safe_any, safe_admit_update|by apply safe_ret]. }
  eapply (safe_bind _ _ any);
    [apply _|apply safe_any, safe_process_messages_before|intros _].
  eapply (safe_bind _ _ any); [apply _| |intros handled].
  { case_match; [|by apply safe_ret].
    eapply (safe_bind _ _ any); [apply _|apply safe_get_any|]. intros y.
    eapply (safe_bind _ _ any); [apply _|apply safe_any, safe_wm_handle_event|].
    intros eho. by apply safe_ret. }
  eapply (safe_bind _ _ any); [apply _|frame|]. intros _. by apply safe_ret.
Qed.

Lemma safe_apply_events final events admitted b :
  safe (fun _ => True) (apply_events final events admitted b) any.
Proof.
  revert admitted b. induction events as [|e events IH]; intros admitted b; simpl.
  { by apply safe_ret. }
  eapply (safe_bind _ _ any); [apply _|apply safe_apply_event|].
  intros [admitted' b']. apply safe_any, IH.
Qed.

(** ** Looking ahead *)

Definition action_live (a : DelayedAction) s : Prop :=
  match a with WakeLa k _ => live k s | ProtocolMessage _ => True end.

#[local] Instance action_live_stable a : Stable (action_live a).
Proof. destruct a as [k d|m]; [exact (live_stable k)|exact (const_stable True)]. Qed.

Lemma safe_peek_event e admitted :
  safe (fun _ => True) (peek_event e admitted)
    (fun r s => forall a, a ∈ r.2 -> action_live a s).
Proof.
  unfold peek_event. destruct (get_patch_marker_details e) as [[id dep]|].
  { eapply (safe_bind _ _ any); [apply _|frame|]. intros _. apply safe_ret. set_solver. }
  case_match.
  - destruct (into_local_activity_marker_details e) as [dat|]; [|apply safe_throw].
    eapply safe_bind; [apply _|apply safe_get|]. intros x.
    destruct (_ !! _) as [k|] eqn:E.
    + apply safe_ret. intros s [_ Hx] a ->%list_elem_of_singleton.
      eapply has_kind_live. by eapply refs_ids.
    + eapply (safe_bind _ _ any); [apply _|frame|]. intros _. apply safe_ret. set_solver.
  - destruct (HistoryEvent_attributes e) as [[]|]; try (apply safe_ret; set_solver).
    eapply (safe_bind _ _ any); [apply _| |].
    { destruct (admitted !! _); [by apply safe_ret|].
      apply safe_lift; [apply quiet_map_err, from_event_quiet|done]. }
    intros msg. apply safe_ret. by intros s _ a' ->%list_elem_of_singleton.
Qed.

Lemma safe_peek_events events admitted :
  safe (fun _ => True) (peek_events events admitted)
    (fun l s => forall a, a ∈ l -> action_live a s).
Proof.
  revert admitted. induction events as [|e events IH]; intros admitted; simpl.
  { apply safe_ret. set_solver. }
  eapply safe_bind; [apply _|apply safe_peek_event|]. intros [admitted' l]. simpl.
  eapply safe_bind; [apply _|apply safe_any, IH|]. intros l'. apply safe_ret.
  intros s Hs a [Ha|Ha]%elem_of_app; destruct_and!; eauto.
Qed.

Lemma safe_delayed_action a : safe (action_live a) (delayed_action a) any.
Proof.
  destruct a as [k dat|m]; simpl; [|apply safe_handle_protocol_message].
  eapply (safe_bind _ _ any); [apply _|eapply safe_weaken; [apply safe_get_machine|done|done]|].
  intros []; try (by apply safe_ret).
  eapply (safe_bind _ _ any); [apply _|apply safe_lift; [apply will_accept_quiet|done]|].
  intros []; [|frame].
  eapply (safe_bind _ _ any); [apply _|eapply safe_weaken; [apply safe_on_machine|entail|done]|].
  - apply la_method_gentle; [done|]. intros st. apply try_resolve_with_dat_quiet.
  - intros r. last_step safe_process_machine_responses.
Qed.

Lemma take_next_wft_sequence_quiet from u : quiet (take_next_wft_sequence from u).2.
Proof.
  unfold take_next_wft_sequence, build_next_wft. by repeat case_match.
Qed.

Lemma safe_take_next : safe (fun _ => True) take_next any.
Proof.
  intros s Hi _. unfold take_next.
  pose proof (take_next_wft_sequence_quiet s.(wm_current_started_event_id)
                s.(wm_last_history_from_server)) as Hq.
  destruct (take_next_wft_sequence _ _) as [u [n|[]|msg]]; simpl in *;
    (split_and!; [by destruct Hi; split|by split| |done]); [done|].
  unfold quiet in *. congruence.
Qed.

Lemma begin_sequence_inv events s :
  wm_inv s -> wm_inv (begin_sequence events s) /\ evolves s (begin_sequence events s).
Proof.
  assert (forall o x, wm_inv x -> wm_inv (apply_opt_wft_complete o x) /\
            evolves x (apply_opt_wft_complete o x)) as Hwtc.
  { intros [wtc|] x Hx; simpl; [|done]. unfold apply_wft_complete_data.
    case_match; (split; [by destruct Hx; split|by split]). }
  assert (forall evs x, wm_inv x -> wm_inv (apply_completions evs x) /\
            evolves x (apply_completions evs x)) as Hc.
  { induction evs as [|e evs IH]; intros x Hx; simpl; [done|].
    destruct (Hwtc (event_wft_completed e) x Hx) as [H1 E1].
    destruct evs as [|e' evs].
    - destruct (Hwtc (peek_next_wft_completed
        (wm_last_history_from_server (apply_opt_wft_complete (event_wft_completed e) x))
        (HistoryEvent_event_id e)) _ H1) as [H2 E2]. simpl. split; [done|by etrans].
    - destruct (IH _ H1) as [H2 E2]. split; [done|by etrans]. }
  intros Hi. destruct (Hc events s Hi) as [H1 E1].
  unfold begin_sequence. set (x := apply_completions events s) in *.
  assert (wm_inv (set_replaying false x) /\ evolves s (set_replaying false x)) as [H2 E2].
  { split; [by destruct H1; split|]. etrans; [done|by split]. }
  destruct (last events) as [e|]; [|by destruct events].
  destruct (is_wft_started e); [|by destruct events].
  destruct events as [|]; (split; [by destruct H1; split|etrans; [eassumption|by split]]).
Qed.

Lemma safe_apply_next : safe (fun _ => True) apply_next_wft_from_history any.
Proof.
  eapply (safe_bind _ _ any); [apply _|apply safe_get_any|]. intros x.
  destruct (wm_have_seen_terminal_event x).
  { eapply (safe_bind _ _ any); [apply _|frame|]. intros _. by apply safe_ret. }
  eapply (safe_bind _ _ any); [apply _|apply safe_any, safe_take_next|]. intros n.
  eapply (safe_bind _ _ any); [apply _| |].
  { destruct n; [by apply safe_ret..|apply safe_throw]. }
  intros [events final].
  eapply (safe_bind _ _ any); [apply _| |].
  { apply safe_modify. intros s Hi _. by apply begin_sequence_inv. }
  intros _. eapply (safe_bind _ _ any); [apply _|apply safe_any, safe_apply_events|].
  intros admitted. eapply (safe_bind _ _ any); [apply _|apply safe_get_any|]. intros y.
  eapply safe_bind; [apply _|apply safe_any, safe_peek_events|]. intros l.
  eapply (safe_bind _ _ any); [apply _| |intros _; by apply safe_ret].
  apply safe_for_each; [apply _|]. intros a Ha.
  eapply safe_weaken; [apply safe_delayed_action| |done]. intros s [_ Hl]. by apply Hl.
Qed.

Lemma safe_new_work u msgs : safe (fun _ => True) (new_work_from_server u msgs) any.
Proof.
  eapply (safe_bind _ _ any); [apply _|frame|]. intros _.
  eapply (safe_bind _ _ any); [apply _|frame|]. intros _.
  eapply (safe_bind _ _ any); [apply _|apply safe_any, safe_apply_next|].
  intros _. by apply safe_ret.
Qed.

End safety.
