(* ===== verification/WMRun.v ===== *)
(** * Runs of the workflow machines

    The operations that the rest of the worker performs on a run's
    [WorkflowMachines], any sequence of them from a new run, and what holds
    along it: references are not dangling and have the type they stand for,
    workflow time does not go back, the run keeps its identity. *)
From Stdlib Require Import ZArith Lia.
From stdpp Require Import base option list strings gmap.
From S2P Require Import Prelude Flags Protos ProtoExt CoreProtos Fsm TimerMachine.
From S2P Require Import ActivityMachine ChildWorkflowMachine NexusMachine.
From S2P Require Import LocalActivityMachine WorkflowTaskMachine UpdateMachine.
From S2P Require Import ExternalMachines TerminalMachines SideMachines LocalActs.
From S2P Require Import DrivenWorkflow Machines MachinePanics MachineCalls HistoryUpdate.
From S2P Require Import WMState WorkflowMachines WMSafety.
Import LocalActs.

Section run.
  Context {X : Externs} {K : Type} {Sm : Type -> Type}.
  Context {HED : EqDecision K} {HC : Countable K} {HSM : SlotMap K Sm}.
  Implicit Types (s : WorkflowMachines K Sm) (k : K).
  Abbreviation WM := (M (WorkflowMachines K Sm) WFMachinesError).

(** The calls, with the readings of clocks they make.  [OpSend] is the send of
    lang's commands on the channel of the driven workflow. *)
Inductive wm_op :=
| OpNewWork (update : HistoryUpdate) (messages : list IncomingProtocolMessage)
| OpNewHistory (update : HistoryUpdate)
| OpApplyNext
| OpSend (cmds : list WFCommand)
| OpIterate (now : nat -> Z)
| OpLocalResolution (r : LocalActivityResolution)
| OpDrainLocalActivities (now : ValidScheduleLA -> Z)
| OpGetCommands
| OpActivation
| OpMetadata (iter_core : gset CoreInternalFlags -> list CoreInternalFlags)
    (iter_lang : gset Z -> list Z)
| OpLangFlags (flags : list Z)
| OpTakeMessages.

Definition ignore {A} (m : WM A) : WM unit := _ ← m; mret tt.

Definition run_op (op : wm_op) : WM unit :=
  match op with
  | OpNewWork u msgs => new_work_from_server u msgs
  | OpNewHistory u => new_history_from_server u
  | OpApplyNext => ignore apply_next_wft_from_history
  | OpSend cmds =>
      modify (fun s => set_drive_me (Driven.send_commands cmds s.(wm_drive_me)) s)
  | OpIterate now => iterate_machines now
  | OpLocalResolution r => ignore (local_resolution r)
  | OpDrainLocalActivities now => modify (fun s => (drain_queued_local_activities now s).1)
  | OpGetCommands => ignore get_commands
  | OpActivation => modify (fun s => (get_wf_activation s).1)
  | OpMetadata ic il => modify (fun s => (get_metadata_for_wft_complete ic il s).1)
  | OpLangFlags flags => modify (add_lang_used_flags flags)
  | OpTakeMessages => modify (fun s => (take_messages s).1)
  end.

(** A sequence of calls: the final state and the result of each.  The state an
    error leaves behind is the one the next call finds. *)
Fixpoint run_ops (ops : list wm_op) s
  : WorkflowMachines K Sm * list (outcome WFMachinesError unit) :=
  match ops with
  | [] => (s, [])
  | op :: ops =>
      let '(s, r) := run_op op s in
      let '(s, rs) := run_ops ops s in
      (s, r :: rs)
  end.

Lemma run_ops_app ops1 ops2 s :
  (run_ops (ops1 ++ ops2) s).1 = (run_ops ops2 (run_ops ops1 s).1).1.
Proof.
  revert s. induction ops1 as [|op ops1 IH]; intros s; simpl; [done|].
  destruct (run_op op s) as [s' r]. specialize (IH s').
  destruct (run_ops (ops1 ++ ops2) s'), (run_ops ops1 s'). done.
Qed.

Section safe.
  Context {HSL : SlotMapLaws K Sm}.

Lemma new_inv basics d : wm_inv (WorkflowMachines_new (K := K) (Sm := Sm) basics d).
Proof.
  split; simpl; try done; set_solver.
Qed.

Lemma safe_ignore {A} (m : WM A) :
  safe (fun _ => True) m (fun _ _ => True) -> safe (fun _ => True) (ignore m) (fun _ _ => True).
Proof.
  intros Hm. eapply (safe_bind _ _ (fun _ _ => True)); [apply _|done|]. intros a.
  by apply safe_ret.
Qed.

(** An assignment to fields that the invariant does not look at. *)
Ltac plain :=
  apply safe_modify; let s := fresh "s" in let Hi := fresh "Hi" in
  intros s Hi _; split; [by destruct Hi; split|by split].

Lemma safe_run_op op : safe (fun _ => True) (run_op op) (fun _ _ => True).
Proof.
  destruct op; simpl.
  - apply safe_new_work.
  - intros s Hi _. apply (safe_new_work update s.(wm_protocol_msgs) s Hi I).
  - apply safe_ignore, safe_apply_next.
  - plain.
  - apply safe_iterate_machines.
  - apply safe_ignore, safe_local_resolution.
  - apply safe_modify. intros s Hi _. unfold drain_queued_local_activities.
    destruct (take_all_reqs _ _ _ _ _) as [d reqs]. simpl.
    split; [by destruct Hi; split|by split].
  - apply safe_ignore, safe_get_commands.
  - apply safe_modify. intros s Hi _. unfold get_wf_activation. simpl. case_match;
      (split; [by destruct Hi; split|by split]).
  - apply safe_modify. intros s Hi _. unfold get_metadata_for_wft_complete.
    destruct (gather_for_wft_complete _ _ _). simpl. split; [by destruct Hi; split|by split].
  - plain.
  - plain.
Qed.

Lemma run_ops_safe ops s :
  wm_inv s ->
  wm_inv (run_ops ops s).1 /\ evolves s (run_ops ops s).1 /\ Forall quiet (run_ops ops s).2.
Proof.
  revert s. induction ops as [|op ops IH]; intros s Hi; simpl; [done|].
  destruct (safe_run_op op s Hi I) as (Hi' & He & Hq & _).
  destruct (run_op op s) as [s' r]; simpl in *.
  destruct (IH s' Hi') as (Hi'' & He' & Hqs). destruct (run_ops ops s') as [s'' rs]; simpl in *.
  split_and!; [done|by etrans|by constructor].
Qed.


(** (type).  In every state a run can reach, a command id is bound to a
    machine of the type it names - a timer id to a timer machine, and so on -
    and the instance id of an update to an update machine. *)
Theorem command_ids_are_typed (basics : RunBasics) (d : Driven.DrivenWorkflow)
    (ops : list wm_op) (id : CommandID) (k : K) :
  let s := (run_ops ops (WorkflowMachines_new basics d)).1 in
  s.(wm_id_to_machine) !! id = Some k ->
  exists m, slot_get s.(wm_all_machines) k = Some m /\ kind_of m = kind_of_id id.
Proof.
  intros s Hk. destruct (run_ops_safe ops _ (new_inv basics d)) as (Hi & _).
  by eapply refs_ids.
Qed.

(** C28 (invariant).  Workflow time does not go back: whatever calls follow, the
    time of the run is later or the same.  The end of the workflow, once seen,
    is not forgotten, and the run keeps its ids. *)
Theorem workflow_time_is_monotone (basics : RunBasics) (d : Driven.DrivenWorkflow)
    (before after : list wm_op) :
  let s := (run_ops before (WorkflowMachines_new basics d)).1 in
  let s' := (run_ops after s).1 in
  clock_le s.(wm_current_wf_time) s'.(wm_current_wf_time) /\
  (s.(wm_have_seen_terminal_event) = true -> s'.(wm_have_seen_terminal_event) = true) /\
  (workflow_is_finished s = true -> workflow_is_finished s' = true) /\
  s'.(wm_run_id) = basics.(rb_run_id) /\ s'.(wm_workflow_id) = basics.(rb_workflow_id).
Proof.
  intros s s'. destruct (run_ops_safe before _ (new_inv basics d)) as (Hi & He & _).
  destruct (run_ops_safe after s Hi) as (_ & He' & _). fold s s' in Hi, He, He'.
  split_and!; [apply He'|apply He'| |by rewrite (ev_run _ _ He'), (ev_run _ _ He)
              |by rewrite (ev_id _ _ He'), (ev_id _ _ He)].
  unfold workflow_is_finished. intros Hf. pose proof (ev_end _ _ He') as Hend.
  destruct (wm_workflow_end_time s); [|done]. by destruct Hend as [t ->]; [eexists|].
Qed.

End safe.
End run.
Arguments wm_op : clear implicits.

(** ** A run, from its start to the firing of a timer *)
Module Example.

#[local] Instance externs : Externs :=
  {| ext_time := example_time; ext_patch_json := example_patch_json;
     ext_la_json := example_la_json; ext_set_json := Patch.example_set_json;
     ext_update := Update.example_encode;
     ext_request := {| unpack_as_request _ := Err "not an update" |};
     sip_hash13 s := Z.of_nat (String.length s) |}.

Abbreviation machines := (WorkflowMachines N counted_map).

Definition ev (id : Z) (ty : EventType) (a : HistAttributes) : HistoryEvent :=
  {| HistoryEvent_event_id := id;
     HistoryEvent_event_time := Some {| Timestamp_seconds := id; Timestamp_nanos := 0 |};
     HistoryEvent_event_type := EventType_as_i32 ty; HistoryEvent_version := 0;
     HistoryEvent_task_id := 0; HistoryEvent_worker_may_ignore := false;
     HistoryEvent_user_metadata := None; HistoryEvent_attributes := Some a |}.

Definition started_attributes : WorkflowExecutionStartedEventAttributes :=
  {| WorkflowExecutionStartedEv_workflow_type := None;
     WorkflowExecutionStartedEv_parent_workflow_namespace := EmptyString;
     WorkflowExecutionStartedEv_parent_workflow_namespace_id := EmptyString;
     WorkflowExecutionStartedEv_parent_workflow_execution := None;
     WorkflowExecutionStartedEv_parent_initiated_event_id := 0;
     WorkflowExecutionStartedEv_task_queue := None; WorkflowExecutionStartedEv_input := None;
     WorkflowExecutionStartedEv_workflow_execution_timeout := None;
     WorkflowExecutionStartedEv_workflow_run_timeout := None;
     WorkflowExecutionStartedEv_workflow_task_timeout :=
       Some {| Duration_seconds := 10; Duration_nanos := 0 |};
     WorkflowExecutionStartedEv_continued_execution_run_id := EmptyString;
     WorkflowExecutionStartedEv_initiator := 0;
     WorkflowExecutionStartedEv_continued_failure := None;
     WorkflowExecutionStartedEv_last_completion_result := None;
     WorkflowExecutionStartedEv_original_execution_run_id := "run";
     WorkflowExecutionStartedEv_identity := EmptyString;
     WorkflowExecutionStartedEv_first_execution_run_id := EmptyString;
     WorkflowExecutionStartedEv_retry_policy := None; WorkflowExecutionStartedEv_attempt := 1;
     WorkflowExecutionStartedEv_workflow_execution_expiration_time := None;
     WorkflowExecutionStartedEv_cron_schedule := EmptyString;
     WorkflowExecutionStartedEv_first_workflow_task_backoff := None;
     WorkflowExecutionStartedEv_memo := None;
     WorkflowExecutionStartedEv_search_attributes := None;
     WorkflowExecutionStartedEv_header := None;
     WorkflowExecutionStartedEv_parent_initiated_event_version := 0;
     WorkflowExecutionStartedEv_workflow_id := EmptyString;
     WorkflowExecutionStartedEv_root_workflow_execution := None;
     WorkflowExecutionStartedEv_inherited_build_id := EmptyString;
     WorkflowExecutionStartedEv_parent_pinned_worker_deployment_version := EmptyString;
     WorkflowExecutionStartedEv_priority := None;
     WorkflowExecutionStartedEv_inherited_pinned_version := None |}.

Definition wft_scheduled (id : Z) : HistoryEvent :=
  ev id ET_WorkflowTaskScheduled (HA_WorkflowTaskScheduled
    {| WorkflowTaskScheduledEv_task_queue := None;
       WorkflowTaskScheduledEv_start_to_close_timeout := None;
       WorkflowTaskScheduledEv_attempt := 1 |}).

Definition wft_started (id : Z) : HistoryEvent :=
  ev id ET_WorkflowTaskStarted (HA_WorkflowTaskStarted
    {| WorkflowTaskStartedEv_scheduled_event_id := id - 1;
       WorkflowTaskStartedEv_identity := "w"; WorkflowTaskStartedEv_request_id := "r";
       WorkflowTaskStartedEv_suggest_continue_as_new := false;
       WorkflowTaskStartedEv_history_size_bytes := 10 * id;
       WorkflowTaskStartedEv_build_id_redirect_counter := 0 |}).

Definition completed_attributes (id : Z) : WorkflowTaskCompletedEventAttributes :=
  {| WorkflowTaskCompletedEv_scheduled_event_id := id - 2;
     WorkflowTaskCompletedEv_started_event_id := id - 1;
     WorkflowTaskCompletedEv_identity := EmptyString;
     WorkflowTaskCompletedEv_binary_checksum := EmptyString;
     WorkflowTaskCompletedEv_worker_version := None; WorkflowTaskCompletedEv_sdk_metadata := None;
     WorkflowTaskCompletedEv_versioning_behavior := 0;
     WorkflowTaskCompletedEv_worker_deployment_version := EmptyString;
     WorkflowTaskCompletedEv_worker_deployment_name := EmptyString;
     WorkflowTaskCompletedEv_deployment_version := None |}.

Definition first_task : list HistoryEvent :=
  [ev 1 ET_WorkflowExecutionStarted (HA_WorkflowExecutionStarted started_attributes);
   wft_scheduled 2; wft_started 3].

Definition second_task : list HistoryEvent :=
  [ev 4 ET_WorkflowTaskCompleted (HA_WorkflowTaskCompleted (completed_attributes 4));
   ev 5 ET_TimerStarted (HA_TimerStarted
     {| TimerStartedEv_timer_id := "1"; TimerStartedEv_start_to_fire_timeout := None;
        TimerStartedEv_workflow_task_completed_event_id := 4 |});
   ev 6 ET_TimerFired (HA_TimerFired
     {| TimerFiredEv_timer_id := "1"; TimerFiredEv_started_event_id := 5 |});
   wft_scheduled 7; wft_started 8].

Definition update (evs : list HistoryEvent) (prev started : Z) : HistoryUpdate :=
  {| events := evs; previous_wft_started_id := prev; wft_started_id := started;
     has_last_wft := true; wft_count := 1 |}.

Definition basics : RunBasics :=
  {| rb_worker_config := {| cfg_namespace := "ns"; cfg_task_queue := "q";
                            cfg_versioning_strategy := VersioningNone "b";
                            cfg_max_cached_workflows := 10;
                            cfg_ignore_evicts_on_shutdown := false;
                            cfg_workflow_failure_errors := ∅;
                            cfg_workflow_types_to_failure_errors := ∅ |};
     rb_workflow_id := "wf"; rb_workflow_type := "t"; rb_run_id := "run";
     rb_history := update first_task 0 3; rb_sdk_metadata_capability := true;
     rb_sdk_name := "core"; rb_sdk_version := "1" |}.

Definition start_timer : WFCommand :=
  {| wfc_variant := AddTimer {| StartTimer_seq := 1; StartTimer_start_to_fire_timeout := None |};
     wfc_metadata := None |}.

(** The first task: the workflow starts a timer. *)
Definition first_ops : list wm_op :=
  [OpApplyNext; OpActivation; OpSend [start_timer]; OpIterate (fun _ => 0%Z); OpGetCommands].

(** The second one brings its firing. *)
Definition second_ops : list wm_op := [OpNewHistory (update second_task 0 8)].

Definition new_run : machines := WorkflowMachines_new basics Driven.new.

Definition jobs_of (s : machines) : list JobVariant :=
  s.(wm_drive_me).(Driven.outgoing_wf_activation_jobs).

(** The calls succeed, the first task sends one command to start the timer, and
    the second one ends in one job that fires it. *)
Example timer_run :
  Forall (fun r => r = Ok tt) (run_ops (first_ops ++ second_ops) new_run).2 /\
  (get_commands (run_ops first_ops new_run).1).2 =
    Ok [{| Command_command_type := CommandType_as_i32 CT_StartTimer;
           Command_user_metadata := None;
           Command_attributes := Some (CA_StartTimer
             {| StartTimerCmd_timer_id := "1"; StartTimerCmd_start_to_fire_timeout := None |}) |}] /\
  jobs_of (run_ops (first_ops ++ second_ops) new_run).1 = [J_FireTimer {| FireTimer_seq := 1 |}].
Proof.
  split; [|split]; [|vm_compute; reflexivity..].
  assert ((run_ops (first_ops ++ second_ops) new_run).2 = replicate 6 (Ok tt)) as ->
    by (vm_compute; reflexivity).
  by apply Forall_replicate.
Qed.


Lemma command_ids_are_typed_witness :
  exists m, slot_get (run_ops first_ops new_run).1.(wm_all_machines) 1%N = Some m /\
            kind_of m = KTimer.
Proof.
  assert ((run_ops first_ops new_run).1.(wm_id_to_machine) !! CID_Timer 1 = Some 1%N) as E
    by (vm_compute; reflexivity).
  apply (command_ids_are_typed basics Driven.new first_ops (CID_Timer 1)). exact E.
Defined.

Lemma workflow_time_is_monotone_witness :
  clock_le (Some 3000000000%Z) (Some 8000000000%Z) /\
  (run_ops first_ops new_run).1.(wm_current_wf_time) = Some 3000000000%Z /\
  (run_ops second_ops (run_ops first_ops new_run).1).1.(wm_current_wf_time)
    = Some 8000000000%Z.
Proof.
  assert ((run_ops first_ops new_run).1.(wm_current_wf_time) = Some 3000000000%Z) as E1
    by (vm_compute; reflexivity).
  assert ((run_ops second_ops (run_ops first_ops new_run).1).1.(wm_current_wf_time)
          = Some 8000000000%Z) as E2 by (vm_compute; reflexivity).
  split; [|split; [exact E1|exact E2]]. rewrite <- E1, <- E2.
  exact (proj1 (workflow_time_is_monotone (K := N) (Sm := counted_map) basics Driven.new
                  first_ops second_ops)).
Defined.

End Example.
