(* ===== verification/WMLoops.v ===== *)
(** * The loops of the workflow machines end

    [process_machine_responses] calls itself on the responses of the local
    activity machines it notifies or cancels, and [prepare_commands] pops
    commands from a queue that handling a command may extend.  The definitions
    bound both; here, that the bounds are never reached. *)
From Stdlib Require Import ZArith Lia.
From stdpp Require Import base option list strings gmap.
From S2P Require Import Prelude Flags Protos ProtoExt CoreProtos Fsm TimerMachine.
From S2P Require Import ActivityMachine ChildWorkflowMachine NexusMachine.
From S2P Require Import LocalActivityMachine WorkflowTaskMachine UpdateMachine.
From S2P Require Import ExternalMachines TerminalMachines SideMachines LocalActs.
From S2P Require Import DrivenWorkflow Machines MachinePanics MachineCalls HistoryUpdate.
From S2P Require Import WMState WorkflowMachines WMSafety WMRun.
Import LocalActs.

(** A response that is processed without another call of
    [process_machine_responses]. *)
Definition leaf (r : MachineResponse) : bool :=
  match r with
  | TriggerWFTaskStarted _ _ | RequestCancelLocalActivityResp _ => false
  | _ => true
  end.

(** A leaf that does not queue a command either. *)
Definition passive (r : MachineResponse) : bool :=
  match r with
  | IssueNewCommand _ | NewCoreOriginatedCommand _ | IssueFakeLocalActivityMarker _ => false
  | _ => leaf r
  end.

(** ** Machines fed their own command *)

(** A machine told that its command was sent answers with passive responses. *)
Class PassiveOnCommands (SM : StateMachine) `{TemporalStateMachine SM} : Prop :=
  passive_on_commands : forall ct ev s h sh fl cmds s' m c resps,
    try_from_command_type (SM := SM) ct = Some ev ->
    SM.(transition) s ev = Some h -> (h sh fl).2 = TrOk cmds s' -> c ∈ cmds ->
    adapt_response (SM := SM) m c None = Ok resps -> Forall passive resps.

(** The cases of the command events; a handler that emits nothing leaves no
    command to adapt. *)
Ltac passive_cases :=
  intros ct ev s h sh fl cmds s' m c resps Hev Ht Hh Hc Ha;
  destruct ct; simplify_eq/=; destruct s; simplify_eq/=;
  repeat match goal with
         | H : ?c ∈ [] |- _ => by apply not_elem_of_nil in H
         | H : ?c ∈ [_] |- _ => apply list_elem_of_singleton in H; subst
         end; simplify_eq/=; try by repeat constructor.

#[global] Instance Timer_passive : PassiveOnCommands Timer.TimerMachine.
Proof. passive_cases. Qed.
#[global] Instance Activity_passive : PassiveOnCommands Activity.ActivityMachine.
Proof. passive_cases. Qed.
#[global] Instance CancelExternal_passive : PassiveOnCommands CancelExternal.CancelExternalMachine.
Proof. passive_cases. Qed.
#[global] Instance SignalExternal_passive : PassiveOnCommands SignalExternal.SignalExternalMachine.
Proof. passive_cases. Qed.
#[global] Instance CompleteWorkflow_passive :
  PassiveOnCommands CompleteWorkflow.CompleteWorkflowMachine.
Proof. passive_cases. Qed.
#[global] Instance FailWorkflow_passive : PassiveOnCommands FailWorkflow.FailWorkflowMachine.
Proof. passive_cases. Qed.
#[global] Instance CancelWorkflow_passive :
  PassiveOnCommands CancelWorkflowEnd.CancelWorkflowMachine.
Proof. passive_cases. Qed.
#[global] Instance ContinueAsNew_passive :
  PassiveOnCommands ContinueAsNew.ContinueAsNewWorkflowMachine.
Proof. passive_cases. Qed.
#[global] Instance ModifyProperties_passive :
  PassiveOnCommands ModifyProperties.ModifyWorkflowPropertiesMachine.
Proof. passive_cases. Qed.
#[global] Instance UpsertSearchAttributes_passive :
  PassiveOnCommands UpsertSearchAttributes.UpsertSearchAttributesMachine.
Proof. passive_cases. Qed.
#[global] Instance Child_passive : PassiveOnCommands Child.ChildWorkflowMachine.
Proof. passive_cases. Qed.
#[global] Instance Nexus_passive : PassiveOnCommands Nexus.NexusOperationMachine.
Proof. passive_cases. Qed.

Section loops.
  Context {X : Externs} {K : Type} {Sm : Type -> Type}.
  Context {HED : EqDecision K} {HC : Countable K} {HSM : SlotMap K Sm}.
  Implicit Types (s : WorkflowMachines K Sm) (k : K).
  Abbreviation WM := (M (WorkflowMachines K Sm) WFMachinesError).

#[global] Instance WFTask_passive : PassiveOnCommands WFTask.WorkflowTaskMachine.
Proof. passive_cases. Qed.
#[global] Instance Patch_passive : PassiveOnCommands Patch.PatchMachine.
Proof. passive_cases. Qed.
#[global] Instance LocalActivity_passive : PassiveOnCommands LocalActivity.LocalActivityMachine.
Proof. passive_cases. Qed.
#[global] Instance Update_passive : PassiveOnCommands Update.UpdateMachine.
Proof. passive_cases. Qed.

Lemma handle_command_passive {SM} `{PassiveOnCommands SM} ct st resps :
  (handle_command (SM := SM) ct st).2 = Ok resps -> Forall passive resps.
Proof.
  destruct st as [m fl]. unfold handle_command.
  destruct (try_from_command_type ct) as [ev|] eqn:Hev; [|done]. unfold on_event.
  destruct (state m) as [s|]; simpl; [|by destruct (get_state m)].
  destruct (transition SM s ev) as [h|] eqn:Ht; simpl; [|by destruct (get_state m)].
  destruct (h (shared_state m) fl) as [[sh' fl'] [|cmds s'| |]] eqn:Hh; simpl; try done.
  assert (forall c, c ∈ cmds -> forall m' r, adapt_response m' c None = Ok r -> Forall passive r)
    as Hc.
  { intros c Hin m' r Hr. eapply passive_on_commands; [done|done|by rewrite Hh|done|done]. }
  clear Hh Ht Hev. revert resps.
  induction cmds as [|c cmds IH]; simpl; intros resps; [by intros [= <-]|].
  intros Hr. bind_Ok. simplify_eq. apply Forall_app. split.
  - eapply Hc; [by left|done].
  - apply IH; [|done]. intros c' Hin. apply Hc. by right.
Qed.

Lemma machines_handle_command_passive ct st resps :
  (machines_handle_command ct st).2 = Ok resps -> Forall passive resps.
Proof. destruct st as [[] fl]; apply handle_command_passive. Qed.

(** ** The depth of [process_machine_responses] *)

Lemma adapt_resolved_leaf m dat r :
  LocalActivity.adapt_response m (LocalActivity.Resolved dat) None = Ok r -> Forall leaf r.
Proof.
  simpl. assert (forall b seq, Forall leaf (if b : bool then [AbandonLocalActivity seq] else []))
    as Hab by (intros [] ?; by repeat constructor).
  case_match; [intros [= <-]|intros Hr; bind_Ok; simplify_eq/=]; repeat constructor;
    [apply Hab|apply Forall_app; split; [apply Hab|by repeat constructor]].
Qed.

(** The commands of a local activity told its result. *)
Lemma resolve_commands dat from ls h sh fl cmds ls' c :
  LocalActivity.transition ls (if from : bool then LocalActivity.HandleKnownResult dat
                              else LocalActivity.HandleResult dat) = Some h ->
  (h sh fl).2 = TrOk cmds ls' -> c ∈ cmds -> exists dat', c = LocalActivity.Resolved dat'.
Proof.
  destruct from, ls; intros Ht Hh Hc; simplify_eq/=;
    try unfold LocalActivity.request_sent_on_handle_result in Hh; simplify_eq/=;
    first [by apply not_elem_of_nil in Hc | apply list_elem_of_singleton in Hc; subst; eauto].
Qed.

Lemma try_resolve_dat_leaf dat from st r :
  (LocalActivity._try_resolve dat from st).2 = Ok r -> Forall leaf r.
Proof.
  destruct st as [m fl]. unfold LocalActivity._try_resolve, on_event.
  destruct (state m) as [s|]; simpl; [|by destruct (get_state m)].
  destruct (LocalActivity.transition s _) as [h|] eqn:Ht; simpl; [|by destruct (get_state m)].
  destruct (h (shared_state m) fl) as [[sh' fl'] [|cmds s'| |]] eqn:Hh; simpl; try done.
  assert (forall c, c ∈ cmds -> exists dat', c = LocalActivity.Resolved dat') as Hc.
  { intros c. eapply resolve_commands; [done|by rewrite Hh]. }
  clear Hh Ht. revert r. induction cmds as [|c cmds IH]; simpl; intros r; [by intros [= <-]|].
  destruct (Hc c) as [dat' ->]; [by left|].
  destruct (LocalActivity.adapt_response _ _ None) as [r1| |] eqn:E; [|done..].
  intros Hr. bind_Ok. simplify_eq. apply Forall_app. split; [by eapply adapt_resolved_leaf|].
  apply IH; [|done]. intros c' Hin. apply Hc. by right.
Qed.

Lemma try_resolve_leaf res rt att bo orig st r :
  (LocalActivity.try_resolve res rt att bo orig st).2 = Ok r -> Forall leaf r.
Proof.
  destruct st as [m fl]. unfold LocalActivity.try_resolve.
  case_match; [|done..]. apply try_resolve_dat_leaf.
Qed.

Lemma encountered_leaf st r :
  (LocalActivity.encountered_non_replay_wft st).2 = Ok r -> Forall leaf r.
Proof.
  destruct st as [m fl]. unfold LocalActivity.encountered_non_replay_wft, get_state, on_event.
  destruct (state m) as [s|]; [|done]. destruct s; try (by intros [= <-]); simpl.
  intros [= <-]. by repeat constructor.
Qed.

Lemma la_method_leaf other (f : MachineM LocalActivity.LocalActivityMachine _) k s s' r :
  (forall l, other = Ok l -> Forall leaf l) ->
  (forall st l, (f st).2 = Ok l -> Forall leaf l) ->
  on_machine k (la_method other f) s = (s', Ok r) -> Forall leaf r.
Proof.
  intros Ho Hf. unfold on_machine. destruct (slot_get _ k) as [m|]; [|done].
  unfold la_method. destruct m; try (intros [= _ Hr]; by apply Ho).
  destruct (f (m, _)) as [[m' fl'] r'] eqn:E; simpl. intros [= _ ->].
  apply (Hf (m, wm_observed_internal_flags s)). by rewrite E.
Qed.

Lemma notify_leaf keys s s' l :
  notify_non_replay keys s = (s', Ok l) -> Forall (fun p => Forall leaf p.2) l.
Proof.
  revert s s' l. induction keys as [|k keys IH]; intros s s' l; simpl; [by intros [= _ <-]|].
  unfold mbind, M_bind at 1. destruct (get_machine k s) as [s1 [m| |]]; [|done..].
  assert (forall rs s2, (match m with
    | M_LocalActivity _ =>
        r ← on_machine k (la_method (Ok []) LocalActivity.encountered_non_replay_wft);
        mret [(k, r)]
    | _ => mret []
    end : WM _) s1 = (s2, Ok rs) -> Forall (fun p => Forall leaf p.2) rs) as Hrs.
  { intros rs s2. destruct m; try (by intros [= _ <-]).
    unfold mbind, M_bind. destruct (on_machine k _ s1) as [s3 [r| |]] eqn:E; [|done..].
    intros [= _ <-]. repeat constructor. simpl.
    eapply la_method_leaf; [| |exact E]; [by intros ? [= <-]|apply encountered_leaf]. }
  unfold M_bind at 1. destruct (_ s1) as [s2 [rs| |]] eqn:E1; [|done..].
  unfold M_bind. destruct (notify_non_replay keys s2) as [s3 [rest| |]] eqn:E2; [|done..].
  intros [= _ <-]. apply Forall_app. split; [by eapply Hrs|by eapply IH].
Qed.

Lemma process_response_leaf p q k r :
  leaf r -> process_response (K := K) (Sm := Sm) p k r = process_response q k r.
Proof. by destruct r. Qed.

(** Leaves need no further level. *)
Lemma process_at_leaves n k rs s :
  Forall leaf rs -> process_at (S n) k rs s = process_at 1 k rs s.
Proof.
  intros Hl. simpl. apply M_bind_ext. intros m s' _. apply for_each_ext.
  intros r s'' Hr. rewrite Forall_forall in Hl. by rewrite (process_response_leaf _ (process_at 0) k r (Hl r Hr)).
Qed.

Lemma request_cancel_depth n k seq s :
  request_cancel_local_activity (process_at (S n)) k seq s
  = request_cancel_local_activity (process_at 1) k seq s.
Proof.
  unfold request_cancel_local_activity. apply M_bind_ext. intros [p|] s1 _.
  - apply M_bind_ext. intros more s2 E. apply process_at_leaves.
    eapply la_method_leaf; [| |exact E]; [done|]. intros st l. apply try_resolve_dat_leaf.
  - apply M_bind_ext. intros [a|] s2 _; [|done].
    apply M_bind_ext. intros more s3 E. apply process_at_leaves.
    eapply la_method_leaf; [| |exact E]; [done|]. intros st l. apply try_resolve_leaf.
Qed.

Lemma task_started_depth n id time s :
  task_started (process_at (S n)) id time s = task_started (process_at 1) id time s.
Proof.
  unfold task_started. do 4 (apply M_bind_ext; intros ? ? _).
  case_match; [done|]. apply M_bind_ext. intros l x E. apply for_each_ext.
  intros [k rs] y Hin. apply process_at_leaves.
  pose proof (notify_leaf _ _ _ _ E) as Hl. rewrite Forall_forall in Hl. exact (Hl _ Hin).
Qed.

(** (termination).  Responses are processed in calls nested at most two deep:
    the local activities notified by a started task, or cancelled, never answer
    with a response that notifies or cancels again.  So the bound of the model
    is never reached, and the recursion of the code ends. *)
Theorem process_at_depth (n : nat) (k : K) (rs : list MachineResponse)
    (s : WorkflowMachines K Sm) :
  process_at (2 + n) k rs s = process_machine_responses k rs s.
Proof.
  unfold process_machine_responses. cbn [process_at Nat.add].
  apply M_bind_ext. intros m s1 _. apply for_each_ext. intros r s2 _.
  destruct r; try done; [apply task_started_depth|apply request_cancel_depth].
Qed.

(** ** [prepare_commands] *)

(** Passive responses leave the queued and the prepared commands as they are. *)
Lemma passive_keeps_queue n k r s :
  passive r ->
  (process_response (process_at n) k r s).1.(wm_current_wf_task_commands)
  = s.(wm_current_wf_task_commands) /\
  (process_response (process_at n) k r s).1.(wm_commands) = s.(wm_commands) /\
  (process_response (process_at n) k r s).2 = Ok tt.
Proof.
  destruct r; try done; simpl; intros _; try (by case_match).
  destruct t; [|done]. unfold set_current_time. by repeat case_match.
Qed.

Lemma process_passive_keeps_queue rs k s s' r :
  Forall passive rs -> process_machine_responses k rs s = (s', r) ->
  s'.(wm_current_wf_task_commands) = s.(wm_current_wf_task_commands) /\
  s'.(wm_commands) = s.(wm_commands).
Proof.
  intros Hrs. unfold process_machine_responses. cbn [process_at].
  unfold mbind at 1, M_bind, get_machine. destruct (slot_get _ k); [|by intros [= <- _]].
  revert s. induction rs as [|a rs IH]; intros s; cbn [for_each]; [by intros [= <- _]|].
  apply Forall_cons in Hrs as [Ha Hrs].
  destruct (passive_keeps_queue 1 k a s Ha) as (Hq & Hc & Hok).
  unfold mbind, M_bind. destruct (process_response _ k a s) as [s1 r1]. simpl in *. subst r1.
  intros Hp. rewrite <- Hq, <- Hc. by eapply IH.
Qed.

Lemma on_machine_cases {A} k (f : M (Machines * InternalFlags) WFMachinesError A) s s' r :
  on_machine k f s = (s', r) ->
  s'.(wm_current_wf_task_commands) = s.(wm_current_wf_task_commands) /\
  s'.(wm_commands) = s.(wm_commands) /\
  (forall a, r = Ok a -> exists st, (f st).2 = Ok a).
Proof.
  unfold on_machine. destruct (slot_get _ k) as [m|]; [|by intros [= <- <-]].
  destruct (f (m, _)) as [[m' fl] r'] eqn:E. intros [= <- <-]. split_and!; [done..|].
  intros a ->. eexists. by rewrite E.
Qed.

Lemma prepare_command_keeps_queue c s :
  (prepare_command c s).1.(wm_current_wf_task_commands) = s.(wm_current_wf_task_commands).
Proof.
  unfold prepare_command, mbind at 1, M_bind, get_machine. destruct (slot_get _ _); [|done].
  unfold lift. destruct (machines_was_cancelled _) as [[]| |]; [done| |done..].
  destruct (cam_command c) as [cmd|]; [|done].
  unfold mbind, M_bind. destruct (on_machine _ _ s) as [s1 r] eqn:E.
  apply on_machine_cases in E as (Hq & _ & Hr). destruct r as [rs| |]; [|done..].
  destruct (Hr rs eq_refl) as [st Hst]. apply machines_handle_command_passive in Hst.
  destruct (process_machine_responses _ rs _) as [s2 r2] eqn:Ep.
  apply process_passive_keeps_queue in Ep as [Ep _]; [|done]. rewrite <- Hq, <- Ep. by destruct r2.
Qed.

(** One round of the loop. *)
Lemma prepare_loop_round n s :
  prepare_loop (S n) s =
  match s.(wm_current_wf_task_commands) with
  | [] => (s, Ok tt)
  | c :: rest =>
      (prepare_command c ≫= fun _ => prepare_loop n) (set_current_wf_task_commands rest s)
  end.
Proof.
  cbn [prepare_loop]. unfold mbind at 1, M_bind at 1, pop_current_command.
  by destruct (wm_current_wf_task_commands s).
Qed.

Lemma prepare_loop_enough n s :
  length s.(wm_current_wf_task_commands) <= n ->
  prepare_loop (S n) s = prepare_loop (S (length s.(wm_current_wf_task_commands))) s.
Proof.
  revert s. induction n as [|n IH]; intros s Hn; rewrite !prepare_loop_round;
    destruct (wm_current_wf_task_commands s) as [|c rest] eqn:E; simpl in *; try done; [lia|].
  apply M_bind_ext. intros u s' Hs'.
  pose proof (prepare_command_keeps_queue c (set_current_wf_task_commands rest s)) as Hq.
  rewrite Hs' in Hq. simpl in Hq. rewrite <- Hq. apply IH. rewrite Hq. lia.
Qed.

Lemma prepare_loop_empties n s :
  (prepare_loop n s).2 = Ok tt -> (prepare_loop n s).1.(wm_current_wf_task_commands) = [].
Proof.
  revert s. induction n as [|n IH]; intros s; [done|]. rewrite prepare_loop_round.
  destruct (wm_current_wf_task_commands s) as [|c rest] eqn:E; [done|].
  unfold mbind, M_bind. destruct (prepare_command c _) as [s' [[]| |]]; [apply IH|done..].
Qed.

(** Dropping cancelled commands reads the machines only. *)
Lemma retain_reads cmds s : (retain_not_cancelled cmds s).1 = s.
Proof.
  revert s. induction cmds as [|c cmds IH]; intros s; simpl; [done|].
  unfold mbind, M_bind, get_machine, lift. destruct (slot_get _ _); [|done].
  destruct (machines_was_cancelled _); [|done..]. specialize (IH s).
  by destruct (retain_not_cancelled cmds s) as [s' []].
Qed.

(** C26 (termination).  The loop of [prepare_commands] pops each queued command
    once and ends, with the queue empty unless a command was refused: sending a
    command makes no machine queue another.  A loop with a larger bound does the
    same, and the bound is never what stops it. *)
Theorem prepare_commands_terminates (extra : nat) (s : WorkflowMachines K Sm) :
  prepare_commands s =
    (s0 ← get;
     kept ← retain_not_cancelled s0.(wm_commands);
     _ ← modify (set_commands kept);
     prepare_loop (S (extra + length s0.(wm_current_wf_task_commands)))) s /\
  ((prepare_commands s).2 = Ok tt ->
   (prepare_commands s).1.(wm_current_wf_task_commands) = []).
Proof.
  split.
  - unfold prepare_commands. apply M_bind_ext. intros s0 s1 [= <- <-].
    apply M_bind_ext. intros kept s1 Hk. pose proof (retain_reads (wm_commands s) s) as Hr.
    rewrite Hk in Hr. simpl in Hr. subst s1.
    unfold mbind, M_bind, modify. rewrite (prepare_loop_enough (extra + _)); [done|simpl; lia].
  - unfold prepare_commands, mbind, M_bind, get, modify.
    pose proof (retain_reads (wm_commands s) s) as Hr.
    destruct (retain_not_cancelled _ s) as [s1 [kept| |]]; [|done..].
    simpl in Hr. subst s1. apply prepare_loop_empties.
Qed.

End loops.
