(* ===== verification/WMReplay.v ===== *)
(** * Applying history

    The place a run has reached in its history - the last event processed,
    whether it is replaying, the events and messages that wait - is moved by the
    application of events and by nothing they call.  From it: events are applied
    in order, each once, and the run replays exactly the part of its history
    that was processed before. *)
From Stdlib Require Import ZArith Lia.
From stdpp Require Import base option list strings gmap.
From S2P Require Import Prelude Flags Protos ProtoExt CoreProtos Fsm TimerMachine.
From S2P Require Import ActivityMachine ChildWorkflowMachine NexusMachine.
From S2P Require Import LocalActivityMachine WorkflowTaskMachine UpdateMachine.
From S2P Require Import ExternalMachines TerminalMachines SideMachines LocalActs.
From S2P Require Import DrivenWorkflow Machines MachinePanics MachineCalls HistoryUpdate.
From S2P Require Import WMState WorkflowMachines WMSafety WMRun WMLoops.
Import LocalActs.

Create HintDb keeps.

Section replay.
  Context {X : Externs} {K : Type} {Sm : Type -> Type}.
  Context {HED : EqDecision K} {HC : Countable K} {HSM : SlotMap K Sm}.
  Implicit Types (s : WorkflowMachines K Sm) (k : K).
  Abbreviation WM := (M (WorkflowMachines K Sm) WFMachinesError).

(** The place in the history; while replaying, also the messages to send. *)
Definition cursor s
  : Z * bool * HistoryUpdate * option (list Message) :=
  (s.(wm_last_processed_event), s.(wm_replaying), s.(wm_last_history_from_server),
   if s.(wm_replaying) then Some s.(wm_message_outbox) else None).

(** The operation does not move it, also when it fails. *)
Definition keeps {A} (m : WM A) : Prop := forall s, cursor (m s).1 = cursor s.

Lemma keeps_bind {A B} (m : WM A) (f : A -> WM B) :
  keeps m -> (forall a, keeps (f a)) -> keeps (m ≫= f).
Proof.
  intros Hm Hf s. specialize (Hm s). unfold mbind, M_bind.
  destruct (m s) as [s' [a| |]]; simpl in *; [|done..]. by rewrite (Hf a s').
Qed.

Lemma keeps_ret {A} (a : A) : keeps (mret a).
Proof. by intros s. Qed.
Lemma keeps_throw {A} (e : WFMachinesError) : keeps (throw e : WM A).
Proof. by intros s. Qed.
Lemma keeps_panic {A} msg : keeps (panic msg : WM A).
Proof. by intros s. Qed.
Lemma keeps_lift {A} (r : outcome WFMachinesError A) : keeps (lift r).
Proof. by intros s. Qed.
Lemma keeps_get : keeps get.
Proof. by intros s. Qed.

Lemma keeps_for_each {A} (f : A -> WM unit) l : (forall a, keeps (f a)) -> keeps (for_each f l).
Proof.
  intros Hf. induction l as [|a l IH]; simpl; [apply keeps_ret|by apply keeps_bind].
Qed.

Lemma keeps_on_machine {A} k (f : M (Machines * InternalFlags) WFMachinesError A) :
  keeps (on_machine k f).
Proof.
  intros s. unfold on_machine. destruct (slot_get _ k); [|done]. by destruct (f _) as [[]].
Qed.

Lemma keeps_create {SM} (c : machine SM -> Machines) f : keeps (create c f).
Proof. intros s. unfold create. by destruct (f _) as [[]]. Qed.

Lemma keeps_set_time t : keeps (modify (set_current_time t)).
Proof. intros s. simpl. unfold set_current_time. by repeat case_match. Qed.

Hint Resolve keeps_ret keeps_throw keeps_panic keeps_lift keeps_get keeps_on_machine keeps_create
  keeps_set_time : keeps.

(** Opens sequences, loops and cases; assignments to other fields compute. *)
Ltac keeps :=
  repeat first
    [ solve [auto with keeps]
    | apply keeps_bind; [|intros ?]
    | apply keeps_for_each; intros ?
    | solve [intros ?; simpl; unfold set_current_time; repeat case_match; done]
    | case_match ].

(** What keeping the place says of each part of it. *)
Lemma keeps_parts {A} (m : WM A) s :
  keeps m ->
  (m s).1.(wm_last_processed_event) = s.(wm_last_processed_event) /\
  (m s).1.(wm_replaying) = s.(wm_replaying) /\
  (m s).1.(wm_last_history_from_server) = s.(wm_last_history_from_server) /\
  (s.(wm_replaying) = true -> (m s).1.(wm_message_outbox) = s.(wm_message_outbox)).
Proof.
  intros Hm. specialize (Hm s). unfold cursor in Hm. injection Hm as H1 H2 H3 H5.
  split_and!; try done. intros E. rewrite H2, E in H5. by injection H5.
Qed.

Lemma keeps_insert_machine m : keeps (insert_machine m).
Proof. intros s. unfold insert_machine. by destruct (slot_insert _ _). Qed.
Hint Resolve keeps_insert_machine : keeps.

Lemma keeps_get_machine k : keeps (get_machine k).
Proof. unfold get_machine. keeps. Qed.
Lemma keeps_get_machine_key id : keeps (get_machine_key id).
Proof. unfold get_machine_key. keeps. Qed.
Lemma keeps_get_machine_by_msg i : keeps (get_machine_by_msg i).
Proof. unfold get_machine_by_msg. keeps. Qed.
Lemma keeps_take_preresolution seq : keeps (take_preresolution_of seq).
Proof. unfold take_preresolution_of. keeps. Qed.
Lemma keeps_remove_from_queue seq : keeps (remove_from_queue_of seq).
Proof. unfold remove_from_queue_of. keeps. Qed.
Hint Resolve keeps_get_machine keeps_get_machine_key keeps_get_machine_by_msg
  keeps_take_preresolution keeps_remove_from_queue : keeps.

Lemma keeps_add_cmd mc md id : keeps (add_cmd_to_wf_task mc md id).
Proof. unfold add_cmd_to_wf_task, add_new_command_machine. keeps. Qed.
Lemma keeps_add_protocol_machine m i : keeps (add_new_protocol_machine m i).
Proof. unfold add_new_protocol_machine. keeps. Qed.
Hint Resolve keeps_add_cmd keeps_add_protocol_machine : keeps.

Lemma keeps_notify keys : keeps (notify_non_replay keys).
Proof. induction keys; simpl; keeps. Qed.
Hint Resolve keeps_notify : keeps.

Lemma keeps_new_core_originated a : keeps (new_core_originated_command a).
Proof. unfold new_core_originated_command. keeps. Qed.
Hint Resolve keeps_new_core_originated : keeps.

Lemma keeps_process_at depth k r : keeps (process_at depth k r).
Proof.
  revert k r. induction depth as [|depth IH]; intros k r; simpl; [keeps|].
  apply keeps_bind; [auto with keeps|]. intros _. apply keeps_for_each. intros a.
  destruct a; simpl; unfold task_started, request_cancel_local_activity; keeps; try apply IH.
  intros s. simpl. unfold cursor. by destruct (wm_replaying s) eqn:E; simpl; rewrite E.
Qed.

Lemma keeps_process_machine_responses k r : keeps (process_machine_responses k r).
Proof. apply keeps_process_at. Qed.
Hint Resolve keeps_process_machine_responses : keeps.

Lemma keeps_submachine_handle_event k d : keeps (submachine_handle_event k d).
Proof. unfold submachine_handle_event. keeps. Qed.
Lemma keeps_handle_protocol_message m : keeps (handle_protocol_message m).
Proof. unfold handle_protocol_message. keeps. Qed.
Hint Resolve keeps_submachine_handle_event keeps_handle_protocol_message : keeps.

Lemma keeps_consume_command d next q : keeps (consume_command d next q).
Proof. induction q; simpl; keeps. Qed.
Lemma keeps_handle_la_marker d : keeps (handle_la_marker d).
Proof. unfold handle_la_marker. keeps. Qed.
Hint Resolve keeps_consume_command keeps_handle_la_marker : keeps.

Lemma keeps_handle_command_event d next : keeps (handle_command_event d next).
Proof. unfold handle_command_event. keeps. Qed.
Lemma keeps_handle_non_stateful d : keeps (handle_non_stateful_event d).
Proof.
  unfold handle_non_stateful_event, handle_workflow_started.
  destruct (EventType_try_from _) as [[]|]; keeps.
Qed.
Hint Resolve keeps_handle_command_event keeps_handle_non_stateful : keeps.

Lemma keeps_wm_handle_event d next : keeps (wm_handle_event d next).
Proof. unfold wm_handle_event. keeps. Qed.
Hint Resolve keeps_wm_handle_event : keeps.

(** ** Commands of lang *)

Lemma keeps_retain cmds : keeps (retain_not_cancelled cmds).
Proof. induction cmds; simpl; keeps. Qed.
Hint Resolve keeps_retain : keeps.

Lemma keeps_prepare_loop fuel : keeps (prepare_loop fuel).
Proof.
  induction fuel; simpl; unfold prepare_command, pop_current_command; keeps.
Qed.

Lemma keeps_prepare_commands : keeps prepare_commands.
Proof.
  unfold prepare_commands. apply keeps_bind; [auto with keeps|]. intros s0.
  do 2 (apply keeps_bind; [keeps|]; intros ?). apply keeps_prepare_loop.
Qed.

Lemma keeps_cancel_machine id v f : keeps (cancel_machine id v f).
Proof. unfold cancel_machine. keeps. Qed.
Lemma keeps_add_terminal now mc md : keeps (add_terminal_command now mc md).
Proof. unfold add_terminal_command, add_new_command_machine. keeps. Qed.
Lemma keeps_add_local_activity now a : keeps (add_local_activity now a).
Proof. unfold add_local_activity. keeps. Qed.
Lemma keeps_set_patch_marker a md : keeps (set_patch_marker a md).
Proof. unfold set_patch_marker. keeps. Qed.
Lemma keeps_update_response ur : keeps (update_response ur).
Proof. unfold update_response. keeps. Qed.
Hint Resolve keeps_cancel_machine keeps_add_terminal keeps_add_local_activity
  keeps_set_patch_marker keeps_update_response : keeps.

Lemma keeps_handle_driven_command now c : keeps (handle_driven_command now c).
Proof. unfold handle_driven_command. destruct (wfc_variant c); keeps. Qed.

Lemma keeps_iterate_machines now : keeps (iterate_machines now).
Proof.
  unfold iterate_machines, handle_driven_results. apply keeps_bind; [keeps|]. intros l.
  apply keeps_bind; [|intros _; apply keeps_prepare_commands].
  apply keeps_for_each. intros [i c]. apply keeps_handle_driven_command.
Qed.

Lemma keeps_local_resolution r : keeps (local_resolution r).
Proof. unfold local_resolution. keeps. Qed.

Lemma keeps_get_commands : keeps get_commands.
Proof.
  unfold get_commands. do 2 (apply keeps_bind; [keeps|]; intros ?).
  induction (wm_commands _); simpl; keeps.
Qed.

(** ** The look ahead *)

Lemma keeps_peek_events events admitted : keeps (peek_events events admitted).
Proof.
  revert admitted. induction events as [|e events IH]; intros admitted; simpl; [keeps|].
  unfold peek_event. keeps; apply IH.
Qed.

Lemma keeps_delayed_action a : keeps (delayed_action a).
Proof. unfold delayed_action. keeps. Qed.

(** ** The application of events *)

Lemma keeps_admit_update e admitted : keeps (admit_update e admitted).
Proof. unfold admit_update. keeps. Qed.
Lemma keeps_process_messages id : keeps (process_messages_before id).
Proof. unfold process_messages_before. keeps. Qed.
Hint Resolve keeps_admit_update keeps_process_messages : keeps.

(** What ends the replay: an event of the last task, after the part of the
    history processed before, that the workflow did not cause itself. *)
Definition ends_replay (u : HistoryUpdate) (final : bool) (e : HistoryEvent) : bool :=
  final && (u.(previous_wft_started_id) <? e.(HistoryEvent_event_id))%Z
  && bool_decide (event_type e <> ET_WorkflowTaskCompleted) && negb (is_command_event e).

(** The continuation of an operation that keeps the place runs from it. *)
Lemma bind_keeps {A B} (m : WM A) (f : A -> WM B) s
    (P : WorkflowMachines K Sm * outcome WFMachinesError B -> Prop) :
  keeps m ->
  (forall a s1, cursor s1 = cursor s -> P (f a s1)) ->
  (forall s1 r, cursor s1 = cursor s -> (forall b, r <> Ok b) -> P (s1, r)) ->
  P ((m ≫= f) s).
Proof.
  intros Hm Hok Hbad. specialize (Hm s). unfold mbind, M_bind.
  destruct (m s) as [s1 []]; simpl in Hm; [by auto|by apply Hbad..].
Qed.

(** An event in order, in three parts: the replay may end, what the event
    causes keeps the place, the event counts as processed. *)
Lemma apply_event_spec final e next admitted b s :
  let r := apply_event final e next admitted b s in
  if (e.(HistoryEvent_event_id) =? s.(wm_last_processed_event) + 1)%Z then
    exists s1,
      cursor s1 = cursor (if s.(wm_replaying) && ends_replay s.(wm_last_history_from_server) final e
                          then set_replaying false s else s) /\
      r.1 = match r.2 with
            | Ok _ => set_last_processed_event e.(HistoryEvent_event_id) s1
            | _ => s1
            end
  else r.1 = s /\ exists msg, r.2 = Err (Fatal msg).
Proof.
  unfold apply_event. set (eid := HistoryEvent_event_id e).
  rewrite get_bind. destruct (eid =? _)%Z; cbn [negb]; [|split; [done|by eexists]].
  set (s0 := if _ && ends_replay _ _ _ then _ else s).
  erewrite (Ok_bind _ _ s s0 tt).
  2: { unfold s0, ends_replay, eid. rewrite !andb_assoc. by case_match. }
  set (P := fun r : WorkflowMachines K Sm * outcome WFMachinesError
                      (gmap string IncomingProtocolMessage * bool) =>
    exists s1, cursor s1 = cursor s0 /\
      r.1 = match r.2 with Ok _ => set_last_processed_event eid s1 | _ => s1 end).
  assert (forall s1 r, cursor s1 = cursor s0 -> (forall b, r <> Ok b) -> P (s1, r)) as Hbad.
  { intros s1 r Hs1 Hr. exists s1. split; [done|]. destruct r; [by destruct (Hr a)|done..]. }
  apply (bind_keeps _ _ _ P); [keeps| |done]. intros adm s1 H1.
  apply (bind_keeps _ _ _ P); [keeps| |by rewrite H1]. intros _ s2 H2.
  apply (bind_keeps _ _ _ P); [keeps| |by rewrite H2, H1]. intros h s3 H3.
  exists s3. split; [by rewrite H3, H2, H1|done].
Qed.


(** The same, as what the caller sees. *)
Lemma apply_event_place final e next admitted b s s' r :
  apply_event final e next admitted b s = (s', r) ->
  s'.(wm_last_history_from_server) = s.(wm_last_history_from_server) /\
  (s'.(wm_replaying) = true ->
   s.(wm_replaying) = true /\ s'.(wm_message_outbox) = s.(wm_message_outbox)) /\
  match r with
  | Ok _ =>
      e.(HistoryEvent_event_id) = (s.(wm_last_processed_event) + 1)%Z /\
      s'.(wm_last_processed_event) = (s.(wm_last_processed_event) + 1)%Z /\
      s'.(wm_replaying) = s.(wm_replaying) && negb (ends_replay s.(wm_last_history_from_server) final e)
  | _ => s'.(wm_last_processed_event) = s.(wm_last_processed_event)
  end.
Proof.
  intros Hr. pose proof (apply_event_spec final e next admitted b s) as H. rewrite Hr in H.
  simpl in H. destruct (Z.eqb_spec e.(HistoryEvent_event_id) (s.(wm_last_processed_event) + 1)%Z)
    as [He|He]; [|by destruct H as [-> [msg ->]]].
  destruct H as (s1 & Hc & ->). unfold cursor in Hc.
  destruct (wm_replaying s) eqn:Er, (ends_replay _ _ _) eqn:Ee; simpl in Hc;
    rewrite ?Er in Hc; injection Hc as H1 H2 H3 H4; rewrite ?H2 in H4; simplify_eq/=;
    destruct r; simpl; rewrite ?H2, ?He; split_and!; try done; congruence.
Qed.

(** Whatever the outcome, the events processed are a prefix of the sequence with
    consecutive ids that start after the last one processed before, and all of it
    on success.  The run stays in replay unless an event of the last task ends
    it, a replay that ended does not resume, and while it lasts no message is
    queued. *)
Lemma events_place (final : bool) (events : list HistoryEvent)
    (admitted : gmap string IncomingProtocolMessage) (b : bool) (s : WorkflowMachines K Sm) :
  let r := apply_events final events admitted b s in
  exists n, n <= length events /\
    HistoryEvent_event_id <$> take n events = seqZ (s.(wm_last_processed_event) + 1) (Z.of_nat n) /\
    r.1.(wm_last_processed_event) = (s.(wm_last_processed_event) + Z.of_nat n)%Z /\
    r.1.(wm_last_history_from_server) = s.(wm_last_history_from_server) /\
    (r.1.(wm_replaying) = true ->
     s.(wm_replaying) = true /\ r.1.(wm_message_outbox) = s.(wm_message_outbox)) /\
    match r.2 with
    | Ok _ =>
        n = length events /\
        r.1.(wm_replaying) = s.(wm_replaying)
          && negb (existsb (ends_replay s.(wm_last_history_from_server) final) events)
    | _ => n < length events
    end.
Proof.
  revert admitted b s. induction events as [|e events IH]; intros admitted b s; simpl.
  { exists 0. rewrite Z.add_0_r, andb_true_r. by split_and!. }
  unfold mbind, M_bind. destruct (apply_event final e _ admitted b s) as [s1 r1] eqn:E.
  apply apply_event_place in E as (Hh & Hrep & Hr1).
  destruct r1 as [[admitted' b']|err|msg]; simpl;
    [|exists 0; rewrite Hr1, Z.add_0_r; split_and!; (done || lia)..].
  destruct Hr1 as (He & Hl & Hre). destruct (IH admitted' b' s1) as (n & Hn & Hids & Hl' & Hh' & Hrep' & Hres).
  destruct (apply_events final events admitted' b' s1) as [s' r']; simpl in *.
  exists (S n). split_and!; [lia| |lia|by rewrite Hh'| |].
  - rewrite seqZ_cons by lia. rewrite firstn_cons, fmap_cons, He, Hids, Hl. f_equal.
    f_equal; lia.
  - intros Ht. destruct (Hrep' Ht) as [Ht1 ->]. by apply Hrep.
  - destruct r'; [|lia..]. destruct Hres as [-> ->]. split; [done|].
    by rewrite Hh, Hre, negb_orb, andb_assoc.
Qed.

(** ** One workflow task *)

(** Processed events stay processed; a run in replay was in replay, and queued
    no message meanwhile. *)
Record advances s s' : Prop := {
  adv_last : (s.(wm_last_processed_event) <= s'.(wm_last_processed_event))%Z;
  adv_replay : s'.(wm_replaying) = true ->
    s.(wm_replaying) = true /\ s'.(wm_message_outbox) = s.(wm_message_outbox);
}.

#[global] Instance advances_preorder : PreOrder advances.
Proof.
  split; [by split|]. intros s1 s2 s3 [L1 R1] [L2 R2]. split; [lia|].
  intros H. destruct (R2 H) as [H2 ->]. by apply R1.
Qed.

Definition advancing {A} (m : WM A) : Prop := forall s, advances s (m s).1.

Lemma keeps_advancing {A} (m : WM A) : keeps m -> advancing m.
Proof.
  intros Hm s. destruct (keeps_parts m s Hm) as (H1 & H2 & _ & H4).
  split; [lia|]. rewrite H2. auto.
Qed.

Lemma advancing_bind {A B} (m : WM A) (f : A -> WM B) :
  advancing m -> (forall a, advancing (f a)) -> advancing (m ≫= f).
Proof.
  intros Hm Hf s. specialize (Hm s). unfold mbind, M_bind.
  destruct (m s) as [s' [a| |]]; simpl in *; [|done..]. etrans; [done|apply Hf].
Qed.

Lemma advancing_events final events admitted b : advancing (apply_events final events admitted b).
Proof.
  intros s. destruct (events_place final events admitted b s) as (n & _ & _ & Hl & _ & Hr & _).
  split; [lia|done].
Qed.

Lemma take_next_place s :
  let s' := (take_next s).1 in
  s'.(wm_last_processed_event) = s.(wm_last_processed_event) /\
  s'.(wm_replaying) = s.(wm_replaying) /\ s'.(wm_message_outbox) = s.(wm_message_outbox).
Proof. unfold take_next. by destruct (take_next_wft_sequence _ _). Qed.

(** Reading what a completed task recorded moves nothing. *)
Definition same_place s s' : Prop :=
  s'.(wm_last_processed_event) = s.(wm_last_processed_event) /\
  s'.(wm_replaying) = s.(wm_replaying) /\
  s'.(wm_last_history_from_server) = s.(wm_last_history_from_server) /\
  s'.(wm_message_outbox) = s.(wm_message_outbox).

Lemma apply_opt_wft_complete_place o s : same_place s (apply_opt_wft_complete o s).
Proof. destruct o as [wtc|]; [|done]. simpl. unfold apply_wft_complete_data. by case_match. Qed.

Lemma apply_completions_place events s : same_place s (apply_completions events s).
Proof.
  revert s. induction events as [|e events IH]; intros s; [done|]. cbn [apply_completions].
  destruct (apply_opt_wft_complete_place (event_wft_completed e) s) as (A1 & A2 & A3 & A4).
  set (s1 := apply_opt_wft_complete _ s) in *. set (o := peek_next_wft_completed _ _).
  destruct events as [|e' events].
  - destruct (apply_opt_wft_complete_place o s1) as (B1 & B2 & B3 & B4).
    simpl. split_and!; congruence.
  - destruct (IH s1) as (B1 & B2 & B3 & B4). split_and!; congruence.
Qed.

Lemma begin_sequence_place events s :
  let s' := begin_sequence events s in
  s'.(wm_last_processed_event) = s.(wm_last_processed_event) /\
  (s'.(wm_replaying) = true -> s.(wm_replaying) = true) /\
  s'.(wm_last_history_from_server) = s.(wm_last_history_from_server) /\
  s'.(wm_message_outbox) = s.(wm_message_outbox).
Proof.
  destruct (apply_completions_place events s) as (A1 & A2 & A3 & A4). unfold begin_sequence.
  destruct events as [|e events], (last _); try case_match; simpl in *;
    (split_and!; [done|first [done|by intros; rewrite <- A2]|done|done]).
Qed.

Lemma advancing_apply_next : advancing apply_next_wft_from_history.
Proof.
  apply advancing_bind; [apply keeps_advancing, keeps_get|]. intros x. case_match.
  { apply advancing_bind; [|intros _; apply keeps_advancing, keeps_ret]. by intros s. }
  apply advancing_bind.
  { intros s. destruct (take_next_place s) as (H1 & H2 & H3).
    split; [lia|]. by rewrite H2, H3. }
  intros next. apply advancing_bind; [apply keeps_advancing; keeps|]. intros [events final].
  apply advancing_bind.
  { intros s. destruct (begin_sequence_place events s) as (H1 & H2 & _ & H3).
    split; [simpl; lia|simpl; auto]. }
  intros _. apply advancing_bind; [apply advancing_events|]. intros admitted.
  apply keeps_advancing. apply keeps_bind; [apply keeps_get|]. intros y.
  apply keeps_bind; [apply keeps_peek_events|]. intros l.
  apply keeps_bind; [|intros _; apply keeps_ret].
  apply keeps_for_each, keeps_delayed_action.
Qed.

Lemma apply_next_in_order (s s' : WorkflowMachines K Sm) (n : nat) :
  apply_next_wft_from_history s = (s', Ok n) ->
  s'.(wm_last_processed_event) = (s.(wm_last_processed_event) + Z.of_nat n)%Z /\
  (s.(wm_have_seen_terminal_event) = true -> n = 0 /\ s'.(wm_replaying) = false) /\
  (n <> 0 -> exists evts final,
     take_next_wft_sequence s.(wm_current_started_event_id) s.(wm_last_history_from_server)
     = (s'.(wm_last_history_from_server), Ok (WFT evts final)) /\
     HistoryEvent_event_id
       <$> filter (fun e => (s.(wm_last_processed_event) < e.(HistoryEvent_event_id))%Z) evts
     = seqZ (s.(wm_last_processed_event) + 1) (Z.of_nat n)).
Proof.
  unfold apply_next_wft_from_history. rewrite get_bind.
  destruct (wm_have_seen_terminal_event s) eqn:Ht.
  { intros [= <- <-]. simpl. split_and!; [lia|done|done]. }
  intros (s1 & next & H1 & H)%bind_Ok_inv.
  apply bind_Ok_inv in H as (s1' & [events final] & H2 & H). simpl in H.
  assert (s1' = s1) as -> by (destruct next; simpl in H2; by inversion H2).
  apply bind_Ok_inv in H as (s2 & [] & [= <-] & H).
  apply bind_Ok_inv in H as (s3 & admitted & H3 & H). rewrite get_bind in H.
  assert (cursor s' = cursor s3 /\ n = length events) as [Hc ->].
  { apply bind_Ok_inv in H as (s4 & l & H4 & H). apply bind_Ok_inv in H as (s5 & [] & H5 & [= <- <-]).
    split; [|done]. transitivity (cursor s4).
    - pose proof (keeps_for_each delayed_action l keeps_delayed_action s4) as Hk. by rewrite H5 in Hk.
    - pose proof (keeps_peek_events (peek_next_wft_sequence s3.(wm_last_history_from_server)
        s.(wm_current_started_event_id)) admitted s3) as Hk. by rewrite H4 in Hk. }
  unfold cursor in Hc. injection Hc as Hl _ Hh _.
  pose proof (events_place final events ∅ true (begin_sequence events s1)) as (m & _ & Hids & Hl3 & Hh3 & _ & Hm).
  rewrite H3 in Hl3, Hh3, Hm. simpl in *. destruct Hm as [-> _].
  destruct (begin_sequence_place events s1) as (Hb & _ & Hbh & _). simpl in Hb, Hbh.
  destruct (take_next_place s) as (Htl & _). rewrite H1 in Htl. simpl in Htl.
  split_and!; [lia|done|]. intros Hn. destruct next as [|evts fin|]; inversion H2; subst; [done|].
  exists evts, final. split.
  - rewrite Hh, Hh3, Hbh. unfold take_next in H1.
    destruct (take_next_wft_sequence _ _) as [u [n|[]|]]; by simplify_eq/=.
  - rewrite firstn_all in Hids. rewrite Hids. f_equal; lia.
Qed.


(** ** Any sequence of operations *)

Lemma advancing_ignore {A} (m : WM A) : advancing m -> advancing (ignore m).
Proof.
  intros Hm. apply advancing_bind; [done|]. intros a. apply keeps_advancing, keeps_ret.
Qed.

(** New history sets whether the run replays, before it is applied. *)
Lemma new_history_place u s :
  let s' := (new_history_from_server u s).1 in
  (s.(wm_last_processed_event) <= s'.(wm_last_processed_event))%Z /\
  (s'.(wm_replaying) = true -> s'.(wm_message_outbox) = s.(wm_message_outbox)).
Proof.
  unfold new_history_from_server.
  erewrite (Ok_bind (modify _) _ s _ tt) by reflexivity.
  set (s0 := set_replaying _ _).
  destruct (advancing_ignore _ advancing_apply_next s0) as [Hl Hr]. split; [exact Hl|].
  intros H. by destruct (Hr H).
Qed.

Lemma run_op_place op s :
  let s' := (run_op op s).1 in
  (s.(wm_last_processed_event) <= s'.(wm_last_processed_event))%Z /\
  (s'.(wm_replaying) = true ->
   forall m, m ∈ s'.(wm_message_outbox) -> m ∈ s.(wm_message_outbox)).
Proof.
  assert (forall {A} (f : WM A), advancing f ->
    (s.(wm_last_processed_event) <= (f s).1.(wm_last_processed_event))%Z /\
    ((f s).1.(wm_replaying) = true ->
     forall m, m ∈ (f s).1.(wm_message_outbox) -> m ∈ s.(wm_message_outbox))) as Hadv.
  { intros A f Hf. destruct (Hf s) as [Hl Hr]. split; [done|]. intros H. by destruct (Hr H) as [_ ->]. }
  destruct op; cbn [run_op]; try (apply Hadv, keeps_advancing; by intros x).
  - change (new_work_from_server update messages s)
      with (new_history_from_server update (set_protocol_msgs messages s)).
    destruct (new_history_place update (set_protocol_msgs messages s)) as [Hl Hr].
    split; [exact Hl|]. intros H m. by rewrite (Hr H).
  - destruct (new_history_place update s) as [Hl Hr]. split; [exact Hl|].
    intros H m. by rewrite (Hr H).
  - apply Hadv, advancing_ignore, advancing_apply_next.
  - apply Hadv, keeps_advancing, keeps_iterate_machines.
  - apply Hadv, advancing_ignore, keeps_advancing, keeps_local_resolution.
  - apply Hadv, keeps_advancing. intros x. unfold drain_queued_local_activities. simpl.
    by destruct (take_all_reqs _ _ _ _ _).
  - apply Hadv, advancing_ignore, keeps_advancing, keeps_get_commands.
  - apply Hadv, keeps_advancing. intros x. unfold get_wf_activation. simpl. by case_match.
  - apply Hadv, keeps_advancing. intros x. unfold get_metadata_for_wft_complete. simpl.
    by destruct (gather_for_wft_complete _ _ _).
  - simpl. split; [lia|]. intros _ m Hm. by apply not_elem_of_nil in Hm.
Qed.

(** C27 (safety).  A run that replays adds nothing to the messages it will send:
    after any operation that leaves it in replay, every queued message was queued
    before. *)
Theorem replay_queues_no_message (op : wm_op) (s : WorkflowMachines K Sm) (m : Message) :
  (run_op op s).1.(wm_replaying) = true ->
  m ∈ (run_op op s).1.(wm_message_outbox) -> m ∈ s.(wm_message_outbox).
Proof. intros H. exact (proj2 (run_op_place op s) H m). Qed.

(** (invariant).  Processed events stay processed: over any sequence of
    operations, after errors too, the last processed event does not go back. *)
Theorem processed_events_stay_processed (ops : list wm_op) (s : WorkflowMachines K Sm) :
  (s.(wm_last_processed_event) <= (run_ops ops s).1.(wm_last_processed_event))%Z.
Proof.
  revert s. induction ops as [|op ops IH]; intros s; simpl; [done|].
  destruct (run_op_place op s) as [Hl _]. destruct (run_op op s) as [s1 r]. specialize (IH s1).
  destruct (run_ops ops s1). simpl in *. lia.
Qed.

End replay.

(** ** The properties at the example run *)
Module ReplayExample.
Import WMRun.Example.
#[local] Existing Instance externs.

Definition after_first_task : machines := (apply_next_wft_from_history new_run).1.


Definition a_message : Message :=
  {| Message_id := "m"; Message_protocol_instance_id := "u"; Message_body := None;
     Message_sequencing_id := None |}.

Definition replaying_run : machines :=
  set_message_outbox [a_message] (set_replaying true after_first_task).

Lemma replay_queues_no_message_witness :
  (run_op OpGetCommands replaying_run).1.(wm_replaying) = true /\
  a_message ∈ replaying_run.(wm_message_outbox).
Proof.
  assert ((run_op OpGetCommands replaying_run).1.(wm_replaying) = true) as E
    by (vm_compute; reflexivity).
  split; [exact E|]. apply (replay_queues_no_message OpGetCommands replaying_run a_message E).
  assert ((run_op OpGetCommands replaying_run).1.(wm_message_outbox) = [a_message]) as ->
    by (vm_compute; reflexivity).
  apply list_elem_of_singleton. reflexivity.
Defined.

End ReplayExample.
