(* ===== verification/WMCommands.v ===== *)
(** * Commands and the events that answer them

    Commands are queued in the order lang issued them and are matched, in that
    order, with the command events of the history. *)
From Stdlib Require Import ZArith Lia.
From stdpp Require Import base option list strings gmap.
From S2P Require Import Prelude Flags Protos ProtoExt CoreProtos Fsm TimerMachine.
From S2P Require Import ActivityMachine ChildWorkflowMachine NexusMachine.
From S2P Require Import LocalActivityMachine WorkflowTaskMachine UpdateMachine.
From S2P Require Import ExternalMachines TerminalMachines SideMachines LocalActs.
From S2P Require Import DrivenWorkflow Machines MachinePanics MachineCalls HistoryUpdate.
From S2P Require Import WMState WorkflowMachines WMSafety WMRun WMLoops WMReplay.
Import LocalActs.

Section commands.
  Context {X : Externs} {K : Type} {Sm : Type -> Type}.
  Context {HED : EqDecision K} {HC : Countable K} {HSM : SlotMap K Sm}.
  Implicit Types (s : WorkflowMachines K Sm) (k : K).
  Abbreviation WM := (M (WorkflowMachines K Sm) WFMachinesError).

(** ** Sending *)

Lemma get_machine_Ok k s s' m :
  get_machine k s = (s', Ok m) -> s' = s /\ slot_get s.(wm_all_machines) k = Some m.
Proof. unfold get_machine. destruct (slot_get _ k); naive_solver. Qed.

Lemma prepare_command_appends c s s' :
  prepare_command c s = (s', Ok tt) ->
  s'.(wm_commands) = s.(wm_commands) \/ s'.(wm_commands) = s.(wm_commands) ++ [c].
Proof.
  intros (s1 & m & [-> _]%get_machine_Ok & H)%bind_Ok_inv.
  apply bind_Ok_inv in H as (s1 & [] & [= <- _] & H); [by inversion H; left|right].
  apply bind_Ok_inv in H as (s2 & [] & H & [= <-]). simpl.
  assert (s2.(wm_commands) = s.(wm_commands)) as ->; [|done].
  destruct (cam_command c) as [cmd|]; [|by inversion H].
  apply bind_Ok_inv in H as (s3 & rs & (_ & Hc & Hr)%on_machine_cases & H).
  destruct (Hr rs eq_refl) as [st Hst]. apply machines_handle_command_passive in Hst.
  apply process_passive_keeps_queue in H as [_ H]; [|done]. congruence.
Qed.

Lemma prepare_loop_in_order n s :
  (prepare_loop n s).2 = Ok tt ->
  exists sent, (prepare_loop n s).1.(wm_commands) = s.(wm_commands) ++ sent /\
    sent `sublist_of` s.(wm_current_wf_task_commands).
Proof.
  revert s. induction n as [|n IH]; intros s; [done|]. rewrite prepare_loop_round.
  destruct (wm_current_wf_task_commands s) as [|c rest] eqn:E.
  { intros _. exists []. by rewrite app_nil_r. }
  pose proof (prepare_command_appends c (set_current_wf_task_commands rest s)) as Hc.
  pose proof (prepare_command_keeps_queue c (set_current_wf_task_commands rest s)) as Hq.
  unfold mbind, M_bind. destruct (prepare_command c _) as [s1 [[]| |]]; [|done..]. simpl in *.
  intros H. destruct (IH s1 H) as (sent & -> & Hs). rewrite Hq in Hs.
  destruct (Hc s1 eq_refl) as [->| ->].
  - exists sent. split; [done|by constructor].
  - exists (c :: sent). split; [by rewrite <- app_assoc|by constructor].
Qed.

Lemma retain_sublist cmds s s' kept :
  retain_not_cancelled cmds s = (s', Ok kept) -> kept `sublist_of` cmds.
Proof.
  revert s s' kept. induction cmds as [|c cmds IH]; intros s s' kept; simpl; [by intros [= _ <-]|].
  unfold mbind, M_bind, get_machine, lift. destruct (slot_get _ _); [|done].
  destruct (machines_was_cancelled _) as [b| |]; [|done..].
  destruct (retain_not_cancelled cmds s) as [s1 [rest| |]] eqn:E; [|done..].
  intros [= _ <-]. apply IH in E. destruct b; by constructor.
Qed.

(** C20 (functional).  Preparing the commands of a task neither invents, repeats
    nor reorders: the prepared commands are some of those prepared before, in
    their order, followed by some of the commands queued by lang, in the order
    lang issued them, and the queue is empty. *)
Theorem commands_sent_in_order (s : WorkflowMachines K Sm) :
  (prepare_commands s).2 = Ok tt ->
  exists kept sent,
    (prepare_commands s).1.(wm_commands) = kept ++ sent /\
    kept `sublist_of` s.(wm_commands) /\
    sent `sublist_of` s.(wm_current_wf_task_commands) /\
    (prepare_commands s).1.(wm_current_wf_task_commands) = [].
Proof.
  unfold prepare_commands. rewrite get_bind. unfold mbind, M_bind, modify.
  pose proof (retain_reads (wm_commands s) s) as Hr.
  destruct (retain_not_cancelled _ s) as [s1 [kept| |]] eqn:E; [|done..].
  simpl in Hr. subst s1. intros H. pose proof (prepare_loop_empties _ _ H).
  destruct (prepare_loop_in_order _ _ H) as (sent & Hc & Hs).
  exists kept, sent. split_and!; [exact Hc|by eapply retain_sublist|exact Hs|done].
Qed.

(** ** Matching *)

(** The commands that an event passes over: the command of a patch, when the
    event is not a patch marker, and a command cancelled before it was sent. *)
Definition passed_over (e : HistoryEvent) s (c : CommandAndMachine K) : Prop :=
  exists m, slot_get s.(wm_all_machines) c.(cam_machine) = Some m /\
    ((kind_of m = KPatch /\ get_patch_marker_details e = None) \/
     machines_was_cancelled (E := WFMachinesError) m = Ok true).

Lemma set_commands_set l l' s : set_commands l (set_commands l' s) = set_commands l s.
Proof. done. Qed.

Lemma patch_marker_skip e m next b :
  patch_marker_handling e m next = Ok (SkipEvent b) ->
  exists name, get_patch_marker_details e = Some (name, true).
Proof.
  unfold patch_marker_handling. destruct (get_patch_marker_details e) as [[name [|]]|].
  - by eauto.
  - destruct m as [[]|]; simpl; try done. by rewrite andb_false_r.
  - by destruct m as [[]|].
Qed.

Lemma patch_marker_skip_command e m next :
  patch_marker_handling e (Some m) next = Ok SkipCommand ->
  kind_of m = KPatch /\ get_patch_marker_details e = None.
Proof.
  unfold patch_marker_handling. destruct (get_patch_marker_details e) as [[name dep]|].
  - destruct m; simpl; try (by destruct dep). by case_match.
  - by destruct m.
Qed.

Lemma consume_command_spec d next q s s' r :
  consume_command d next q (set_commands q s) = (s', Ok r) ->
  match r with
  | inr c => exists skipped rest,
      q = skipped ++ c :: rest /\ Forall (passed_over d.(event) s) skipped /\
      ~ passed_over d.(event) s c /\
      submachine_handle_event c.(cam_machine) d (set_commands rest s) = (s', Ok tt)
  | inl o => exists skipped rest name b,
      q = skipped ++ rest /\ Forall (passed_over d.(event) s) skipped /\
      get_patch_marker_details d.(event) = Some (name, true) /\ o = SkipEvent b /\
      s' = set_commands rest s
  end.
Proof.
  revert s' r. induction q as [|c q IH]; intros s' r; cbn [consume_command].
  { unfold mbind, M_bind, lift.
    destruct (patch_marker_handling _ None next) as [[b| |]| |] eqn:E; simpl; try done.
    intros [= <- <-]. apply patch_marker_skip in E as [name Hn].
    exists [], [], name, b. by split_and!. }
  intros H. apply bind_Ok_inv in H as (s1 & m & Hm & H).
  apply get_machine_Ok in Hm as [-> Hg]. simpl in Hg.
  apply bind_Ok_inv in H as (s2 & eho & [= <- Heho] & H).
  assert (passed_over (event d) s c -> consume_command d next q (set_commands q s) = (s', Ok r) ->
    match r with
    | inr c' => exists skipped rest,
        c :: q = skipped ++ c' :: rest /\ Forall (passed_over d.(event) s) skipped /\
        ~ passed_over d.(event) s c' /\
        submachine_handle_event c'.(cam_machine) d (set_commands rest s) = (s', Ok tt)
    | inl o => exists skipped rest name b,
        c :: q = skipped ++ rest /\ Forall (passed_over d.(event) s) skipped /\
        get_patch_marker_details d.(event) = Some (name, true) /\ o = SkipEvent b /\
        s' = set_commands rest s
    end) as Hskip.
  { intros Hc Hq. specialize (IH s' r Hq). destruct r as [o|c'].
    - destruct IH as (sk & rest & name & b & -> & ? & ? & ? & ?).
      exists (c :: sk), rest, name, b. split_and!; auto.
    - destruct IH as (sk & rest & -> & ? & ? & ?). exists (c :: sk), rest. split_and!; auto. }
  destruct eho as [b| |].
  - inversion H; subst. apply patch_marker_skip in Heho as [name Hn].
    exists [], (c :: q), name, b. by split_and!.
  - apply Hskip; [|by rewrite modify_bind in H].
    apply patch_marker_skip_command in Heho. exists m. eauto.
  - rewrite modify_bind, set_commands_set in H.
    apply bind_Ok_inv in H as (s3 & cancelled & [= <- Hcan] & H).
    destruct cancelled; [apply Hskip; [by exists m; eauto|done]|].
    apply bind_Ok_inv in H as (s4 & [] & Hsub & [= <- <-]).
    exists [], q. split_and!; [done|done| |done].
    intros (m' & Hm' & Hc). rewrite Hg in Hm'. injection Hm' as <-.
    destruct Hc as [[Hk Hd]|Hcan']; [|congruence].
    unfold patch_marker_handling in Heho. rewrite Hd in Heho. by destruct m.
Qed.

Lemma set_commands_same s : set_commands s.(wm_commands) s = s.
Proof. by destruct s. Qed.

(** C19 (functional).  A command event is given to the first command waiting for
    one: the commands before it are those of patches the history does not know
    and those cancelled before they were sent, and they are dropped.  Only a
    marker of a deprecated patch is skipped without a command. *)
Theorem command_events_matched_in_order (d : HistEventData) (next : option HistoryEvent)
    (s s' : WorkflowMachines K Sm) (r : EventHandlingOutcome + CommandAndMachine K) :
  consume_command d next s.(wm_commands) s = (s', Ok r) ->
  match r with
  | inr c => exists skipped rest,
      s.(wm_commands) = skipped ++ c :: rest /\ Forall (passed_over d.(event) s) skipped /\
      ~ passed_over d.(event) s c /\
      submachine_handle_event c.(cam_machine) d (set_commands rest s) = (s', Ok tt)
  | inl o => exists skipped rest name b,
      s.(wm_commands) = skipped ++ rest /\ Forall (passed_over d.(event) s) skipped /\
      get_patch_marker_details d.(event) = Some (name, true) /\ o = SkipEvent b /\
      s' = set_commands rest s
  end.
Proof.
  intros H. apply (consume_command_spec d next). by rewrite set_commands_same.
Qed.

Lemma consume_command_none d next q s :
  get_patch_marker_details d.(event) = None -> Forall (passed_over d.(event) s) q ->
  exists msg, consume_command d next q (set_commands q s)
              = (set_commands [] s, Err (Nondeterminism msg)).
Proof.
  intros Hp. induction q as [|c q IH]; intros Hq; cbn [consume_command].
  { unfold mbind, M_bind, lift, patch_marker_handling. rewrite Hp. by eexists. }
  apply Forall_cons in Hq as [(m & Hm & Hc) Hq].
  rewrite (Ok_bind (get_machine _) _ _ (set_commands (c :: q) s) m)
    by (unfold get_machine; simpl; by rewrite Hm).
  destruct Hc as [[Hk _]|Hc].
  - rewrite (Ok_bind (lift _) _ _ (set_commands (c :: q) s) SkipCommand).
    + rewrite modify_bind, set_commands_set. by apply IH.
    + unfold lift, patch_marker_handling. rewrite Hp. by destruct m.
  - rewrite (Ok_bind (lift _) _ _ (set_commands (c :: q) s) Normal).
    + rewrite modify_bind, set_commands_set.
      rewrite (Ok_bind (lift _) _ _ (set_commands q s) true); [by apply IH|by unfold lift; rewrite Hc].
    + unfold lift, patch_marker_handling. rewrite Hp. by destruct m.
Qed.

(** (error).  An event that no command waits for is a nondeterminism error,
    and the commands it passed over are gone. *)
Theorem unmatched_event_is_nondeterminism (d : HistEventData) (next : option HistoryEvent)
    (s : WorkflowMachines K Sm) :
  get_patch_marker_details d.(event) = None ->
  Forall (passed_over d.(event) s) s.(wm_commands) ->
  exists msg, consume_command d next s.(wm_commands) s
              = (set_commands [] s, Err (Nondeterminism msg)).
Proof.
  intros Hp Hq. destruct (consume_command_none d next _ s Hp Hq) as [msg H].
  rewrite set_commands_same in H. by exists msg.
Qed.

End commands.

(** ** The properties at the example run *)
Module CommandsExample.
Import WMRun.Example.
#[local] Existing Instance externs.

(** The start of a timer, as lang issued it. *)
Definition with_timer : machines := (handle_driven_command 0 start_timer new_run).1.

Lemma commands_sent_in_order_witness :
  exists kept sent,
    (prepare_commands with_timer).1.(wm_commands) = kept ++ sent /\
    kept `sublist_of` with_timer.(wm_commands) /\
    sent `sublist_of` with_timer.(wm_current_wf_task_commands) /\
    (prepare_commands with_timer).1.(wm_current_wf_task_commands) = [].
Proof.
  assert ((prepare_commands with_timer).2 = Ok tt) as E by (vm_compute; reflexivity).
  exact (commands_sent_in_order with_timer E).
Defined.

Definition sent_timer : machines := (prepare_commands with_timer).1.

Definition timer_started : HistEventData :=
  {| event := ev 5 ET_TimerStarted (HA_TimerStarted
       {| TimerStartedEv_timer_id := "1"; TimerStartedEv_start_to_fire_timeout := None;
          TimerStartedEv_workflow_task_completed_event_id := 4 |});
     replaying := false; current_task_is_last_in_history := true |}.

Lemma command_events_matched_in_order_witness :
  exists c skipped rest,
    sent_timer.(wm_commands) = skipped ++ c :: rest /\
    Forall (passed_over timer_started.(event) sent_timer) skipped /\
    ~ passed_over timer_started.(event) sent_timer c.
Proof.
  set (r := consume_command timer_started None sent_timer.(wm_commands) sent_timer).
  assert (exists c, r.2 = Ok (inr c)) as [c E] by (eexists; vm_compute; reflexivity).
  assert (r = (r.1, Ok (inr c))) as H by (rewrite <- E; apply surjective_pairing).
  destruct (command_events_matched_in_order timer_started None sent_timer r.1 (inr c) H)
    as (skipped & rest & H1 & H2 & H3 & _).
  exists c, skipped, rest. auto.
Defined.

Lemma unmatched_event_is_nondeterminism_witness :
  exists msg, consume_command timer_started None new_run.(wm_commands) new_run
              = (set_commands [] new_run, Err (Nondeterminism msg)).
Proof.
  apply (unmatched_event_is_nondeterminism timer_started None new_run).
  - vm_compute. reflexivity.
  - constructor.
Defined.

End CommandsExample.
