(* ===== verification/WorkflowTasks.v ===== *)
(** * Workflow tasks and activations (worker/workflow/mod.rs)

    The data that the run, the cache, the stream of inputs and the completion
    path exchange; the buffer of tasks of a busy run; the validation of lang's
    completions; the order of the jobs of an activation; the reservation of
    slots for activities that may be executed eagerly. *)
From Stdlib Require Import ZArith Lia Sorted.
From stdpp Require Import base option list strings gmap sorting.
From S2P Require Import Prelude Flags Protos ProtoExt CoreProtos Fsm LocalActs DrivenWorkflow.
From S2P Require Import HistoryUpdate.

Definition LEGACY_QUERY_ID : string := "legacy_query".
Definition MAX_EAGER_ACTIVITY_RESERVATIONS_PER_WORKFLOW_TASK : nat := 3.

(** ** Enumerations *)

(** [remove_from_cache::EvictionReason]. *)
Inductive EvictionReason :=
| ER_Unspecified
| ER_CacheFull
| ER_CacheMiss
| ER_Nondeterminism
| ER_LangFail
| ER_LangRequested
| ER_TaskNotFound
| ER_UnhandledCommand
| ER_Fatal
| ER_PaginationOrHistoryFetch
| ER_WorkflowExecutionEnding.

#[global] Instance EvictionReason_eq_dec : EqDecision EvictionReason.
Proof. solve_decision. Defined.

Definition EvictionReason_as_i32 (r : EvictionReason) : Z :=
  match r with
  | ER_Unspecified => 0
  | ER_CacheFull => 1
  | ER_CacheMiss => 2
  | ER_Nondeterminism => 3
  | ER_LangFail => 4
  | ER_LangRequested => 5
  | ER_TaskNotFound => 6
  | ER_UnhandledCommand => 7
  | ER_Fatal => 8
  | ER_PaginationOrHistoryFetch => 9
  | ER_WorkflowExecutionEnding => 10
  end%Z.

Inductive WorkflowTaskFailedCause :=
| FC_Unspecified
| FC_UnhandledCommand
| FC_BadScheduleActivityAttributes
| FC_BadRequestCancelActivityAttributes
| FC_BadStartTimerAttributes
| FC_BadCancelTimerAttributes
| FC_BadRecordMarkerAttributes
| FC_BadCompleteWorkflowExecutionAttributes
| FC_BadFailWorkflowExecutionAttributes
| FC_BadCancelWorkflowExecutionAttributes
| FC_BadRequestCancelExternalWorkflowExecutionAttributes
| FC_BadContinueAsNewAttributes
| FC_StartTimerDuplicateId
| FC_ResetStickyTaskQueue
| FC_WorkflowWorkerUnhandledFailure
| FC_BadSignalWorkflowExecutionAttributes
| FC_BadStartChildExecutionAttributes
| FC_ForceCloseCommand
| FC_FailoverCloseCommand
| FC_BadSignalInputSize
| FC_ResetWorkflow
| FC_BadBinary
| FC_ScheduleActivityDuplicateId
| FC_BadSearchAttributes
| FC_NonDeterministicError
| FC_BadModifyWorkflowPropertiesAttributes
| FC_PendingChildWorkflowsLimitExceeded
| FC_PendingActivitiesLimitExceeded
| FC_PendingSignalsLimitExceeded
| FC_PendingRequestCancelLimitExceeded
| FC_BadUpdateWorkflowExecutionMessage
| FC_UnhandledUpdate
| FC_BadScheduleNexusOperationAttributes
| FC_PendingNexusOperationsLimitExceeded
| FC_BadRequestCancelNexusOperationAttributes
| FC_FeatureDisabled
| FC_GrpcMessageTooLarge.

Definition WorkflowTaskFailedCause_as_i32 (c : WorkflowTaskFailedCause) : Z :=
  match c with
  | FC_Unspecified => 0
  | FC_UnhandledCommand => 1
  | FC_BadScheduleActivityAttributes => 2
  | FC_BadRequestCancelActivityAttributes => 3
  | FC_BadStartTimerAttributes => 4
  | FC_BadCancelTimerAttributes => 5
  | FC_BadRecordMarkerAttributes => 6
  | FC_BadCompleteWorkflowExecutionAttributes => 7
  | FC_BadFailWorkflowExecutionAttributes => 8
  | FC_BadCancelWorkflowExecutionAttributes => 9
  | FC_BadRequestCancelExternalWorkflowExecutionAttributes => 10
  | FC_BadContinueAsNewAttributes => 11
  | FC_StartTimerDuplicateId => 12
  | FC_ResetStickyTaskQueue => 13
  | FC_WorkflowWorkerUnhandledFailure => 14
  | FC_BadSignalWorkflowExecutionAttributes => 15
  | FC_BadStartChildExecutionAttributes => 16
  | FC_ForceCloseCommand => 17
  | FC_FailoverCloseCommand => 18
  | FC_BadSignalInputSize => 19
  | FC_ResetWorkflow => 20
  | FC_BadBinary => 21
  | FC_ScheduleActivityDuplicateId => 22
  | FC_BadSearchAttributes => 23
  | FC_NonDeterministicError => 24
  | FC_BadModifyWorkflowPropertiesAttributes => 25
  | FC_PendingChildWorkflowsLimitExceeded => 26
  | FC_PendingActivitiesLimitExceeded => 27
  | FC_PendingSignalsLimitExceeded => 28
  | FC_PendingRequestCancelLimitExceeded => 29
  | FC_BadUpdateWorkflowExecutionMessage => 30
  | FC_UnhandledUpdate => 31
  | FC_BadScheduleNexusOperationAttributes => 32
  | FC_PendingNexusOperationsLimitExceeded => 33
  | FC_BadRequestCancelNexusOperationAttributes => 34
  | FC_FeatureDisabled => 35
  | FC_GrpcMessageTooLarge => 36
  end%Z.

Definition WorkflowTaskFailedCause_try_from (z : Z) : option WorkflowTaskFailedCause :=
  match z with
  | 0 => Some FC_Unspecified
  | 1 => Some FC_UnhandledCommand
  | 2 => Some FC_BadScheduleActivityAttributes
  | 3 => Some FC_BadRequestCancelActivityAttributes
  | 4 => Some FC_BadStartTimerAttributes
  | 5 => Some FC_BadCancelTimerAttributes
  | 6 => Some FC_BadRecordMarkerAttributes
  | 7 => Some FC_BadCompleteWorkflowExecutionAttributes
  | 8 => Some FC_BadFailWorkflowExecutionAttributes
  | 9 => Some FC_BadCancelWorkflowExecutionAttributes
  | 10 => Some FC_BadRequestCancelExternalWorkflowExecutionAttributes
  | 11 => Some FC_BadContinueAsNewAttributes
  | 12 => Some FC_StartTimerDuplicateId
  | 13 => Some FC_ResetStickyTaskQueue
  | 14 => Some FC_WorkflowWorkerUnhandledFailure
  | 15 => Some FC_BadSignalWorkflowExecutionAttributes
  | 16 => Some FC_BadStartChildExecutionAttributes
  | 17 => Some FC_ForceCloseCommand
  | 18 => Some FC_FailoverCloseCommand
  | 19 => Some FC_BadSignalInputSize
  | 20 => Some FC_ResetWorkflow
  | 21 => Some FC_BadBinary
  | 22 => Some FC_ScheduleActivityDuplicateId
  | 23 => Some FC_BadSearchAttributes
  | 24 => Some FC_NonDeterministicError
  | 25 => Some FC_BadModifyWorkflowPropertiesAttributes
  | 26 => Some FC_PendingChildWorkflowsLimitExceeded
  | 27 => Some FC_PendingActivitiesLimitExceeded
  | 28 => Some FC_PendingSignalsLimitExceeded
  | 29 => Some FC_PendingRequestCancelLimitExceeded
  | 30 => Some FC_BadUpdateWorkflowExecutionMessage
  | 31 => Some FC_UnhandledUpdate
  | 32 => Some FC_BadScheduleNexusOperationAttributes
  | 33 => Some FC_PendingNexusOperationsLimitExceeded
  | 34 => Some FC_BadRequestCancelNexusOperationAttributes
  | 35 => Some FC_FeatureDisabled
  | 36 => Some FC_GrpcMessageTooLarge
  | _ => None
  end%Z.

Definition WorkflowTaskFailedCause_from (r : EvictionReason) : WorkflowTaskFailedCause :=
  match r with
  | ER_Nondeterminism => FC_NonDeterministicError
  | _ => FC_Unspecified
  end.

(** [enums::v1::VersioningBehavior]. *)
Inductive VersioningBehavior :=
| VB_Unspecified
| VB_Pinned
| VB_AutoUpgrade.

#[global] Instance VersioningBehavior_eq_dec : EqDecision VersioningBehavior.
Proof. solve_decision. Defined.

Definition VersioningBehavior_try_from (z : Z) : option VersioningBehavior :=
  match z with
  | 0 => Some VB_Unspecified
  | 1 => Some VB_Pinned
  | 2 => Some VB_AutoUpgrade
  | _ => None
  end%Z.

(** ** Completions from lang (workflow_completion.proto) *)

Record completion_Failure := {
  cf_failure : option Failure;
  cf_force_cause : Z;
}.

Record completion_Success := {
  cs_commands : list WorkflowCommand;
  cs_used_internal_flags : list Z;
  cs_versioning_behavior : Z;
}.

Inductive completion_Status :=
| Successful (s : completion_Success)
| Failed (f : completion_Failure).

Record WorkflowActivationCompletion := {
  wac_run_id : string;
  wac_status : option completion_Status;
}.

(** [From<failure::v1::Failure> for Failure]. *)
Definition completion_Failure_from (f : Failure) : completion_Failure :=
  {| cf_failure := Some f;
     cf_force_cause := WorkflowTaskFailedCause_as_i32 FC_Unspecified |}.

(** [WorkflowActivationCompletion::is_empty]. *)
Definition completion_is_empty (c : WorkflowActivationCompletion) : bool :=
  match c.(wac_status) with
  | Some (Successful s) => bool_decide (length s.(cs_commands) = 0)
  | _ => false
  end.

(** [legacy_query_failure] (protosext/mod.rs). *)
Definition legacy_query_failure (f : completion_Failure) : QueryResult :=
  {| QueryResult_query_id := LEGACY_QUERY_ID;
     QueryResult_variant := Some (QueryResult_Failed (default Failure_default f.(cf_failure))) |}.

(** ** Errors of the machines *)

(** [Display] of [WFMachinesError]. *)
Definition WFMachinesError_display (e : WFMachinesError) : string :=
  match e with
  | Nondeterminism msg => "[TMPRL1100] Nondeterminism error: " +:+ msg
  | Fatal msg => "Fatal error in workflow machines: " +:+ msg
  end.

Definition evict_reason (e : WFMachinesError) : EvictionReason :=
  match e with
  | Nondeterminism _ => ER_Nondeterminism
  | Fatal _ => ER_Fatal
  end.

Definition as_failure (e : WFMachinesError) : completion_Failure :=
  {| cf_failure := Some (application_failure (WFMachinesError_display e) false);
     cf_force_cause :=
       WorkflowTaskFailedCause_as_i32 (WorkflowTaskFailedCause_from (evict_reason e)) |}.

(** ** Activations *)

(** [create_evict_activation] (sdk-core-protos/src/lib.rs). *)
Definition create_evict_activation (run_id message : string) (reason : EvictionReason)
  : WorkflowActivation :=
  {| WorkflowActivation_run_id := run_id;
     WorkflowActivation_timestamp := None;
     WorkflowActivation_is_replaying := false;
     WorkflowActivation_history_length := 0;
     WorkflowActivation_jobs :=
       [{| WorkflowActivationJob_variant := Some (J_RemoveFromCache
             {| RemoveFromCache_message := message;
                RemoveFromCache_reason := EvictionReason_as_i32 reason |}) |}];
     WorkflowActivation_available_internal_flags := [];
     WorkflowActivation_history_size_bytes := 0;
     WorkflowActivation_continue_as_new_suggested := false;
     WorkflowActivation_deployment_version_for_current_task := None |}.

Definition is_only_eviction (a : WorkflowActivation) : bool :=
  match a.(WorkflowActivation_jobs) with
  | [{| WorkflowActivationJob_variant := Some (J_RemoveFromCache _) |}] => true
  | _ => false
  end.

(** [WorkflowActivationExt::is_legacy_query] (protosext/mod.rs). *)
Definition is_legacy_query (a : WorkflowActivation) : bool :=
  match a.(WorkflowActivation_jobs) with
  | [{| WorkflowActivationJob_variant := Some (J_QueryWorkflow qr) |}] =>
      String.eqb qr.(QueryWorkflow_query_id) LEGACY_QUERY_ID
  | _ => false
  end.

Definition with_jobs (a : WorkflowActivation) (jobs : list WorkflowActivationJob)
  : WorkflowActivation :=
  {| WorkflowActivation_run_id := a.(WorkflowActivation_run_id);
     WorkflowActivation_timestamp := a.(WorkflowActivation_timestamp);
     WorkflowActivation_is_replaying := a.(WorkflowActivation_is_replaying);
     WorkflowActivation_history_length := a.(WorkflowActivation_history_length);
     WorkflowActivation_jobs := jobs;
     WorkflowActivation_available_internal_flags :=
       a.(WorkflowActivation_available_internal_flags);
     WorkflowActivation_history_size_bytes := a.(WorkflowActivation_history_size_bytes);
     WorkflowActivation_continue_as_new_suggested :=
       a.(WorkflowActivation_continue_as_new_suggested);
     WorkflowActivation_deployment_version_for_current_task :=
       a.(WorkflowActivation_deployment_version_for_current_task) |}.

Definition with_history_length (a : WorkflowActivation) (n : Z) : WorkflowActivation :=
  {| WorkflowActivation_run_id := a.(WorkflowActivation_run_id);
     WorkflowActivation_timestamp := a.(WorkflowActivation_timestamp);
     WorkflowActivation_is_replaying := a.(WorkflowActivation_is_replaying);
     WorkflowActivation_history_length := n;
     WorkflowActivation_jobs := a.(WorkflowActivation_jobs);
     WorkflowActivation_available_internal_flags :=
       a.(WorkflowActivation_available_internal_flags);
     WorkflowActivation_history_size_bytes := a.(WorkflowActivation_history_size_bytes);
     WorkflowActivation_continue_as_new_suggested :=
       a.(WorkflowActivation_continue_as_new_suggested);
     WorkflowActivation_deployment_version_for_current_task :=
       a.(WorkflowActivation_deployment_version_for_current_task) |}.

Inductive ActivationOrAuto :=
| LangActivation (a : WorkflowActivation)
| ReadyForQueries (a : WorkflowActivation)
| Autocomplete (run_id : string)
| AutoFail (run_id : string) (machines_err : WFMachinesError).

(** [RunUpdateAct] (managed_run.rs). *)
Definition RunUpdateAct := option ActivationOrAuto.

(** ** Tasks *)

(** A permit of the slot supplier is identified by a number. *)
Record PermittedWFT := {
  pwft_work : PreparedWFT;
  pwft_permit : N;
  pwft_paginator : HistoryPaginator;
}.

Record WFTWithPaginator := {
  wwp_wft : PreparedWFT;
  wwp_paginator : HistoryPaginator;
}.

Record WorkflowTaskInfo := {
  wti_task_token : string;
  wti_attempt : Z;
  wti_wf_id : string;
}.

Record OutstandingTask := {
  ot_info : WorkflowTaskInfo;
  ot_pending_queries : list QueryWorkflow;
  ot_start_time : Z;
  ot_permit : N;
}.

Definition has_pending_legacy_query (t : OutstandingTask) : bool :=
  existsb (fun q => String.eqb q.(QueryWorkflow_query_id) LEGACY_QUERY_ID)
    t.(ot_pending_queries).

Inductive OutstandingActivation :=
| OA_Normal
| OA_Eviction
| OA_LegacyQuery
| OA_Autocomplete.

#[global] Instance OutstandingActivation_eq_dec : EqDecision OutstandingActivation.
Proof. solve_decision. Defined.

Record RequestEvictMsg := {
  rem_run_id : string;
  rem_message : string;
  rem_reason : EvictionReason;
  rem_auto_reply_fail_tt : option string;
}.

(** [CacheMissFetchReq] and [NextPageReq]. *)
Inductive HistoryFetchReq :=
| FetchFull (original_wft : PermittedWFT)
| FetchNextPage (paginator : HistoryPaginator).

(** ** What a completion leads to *)

Inductive ActivationAction :=
| WftComplete (commands : list Command) (messages : list Message)
    (query_responses : list QueryResult) (force_new_wft : bool)
    (sdk_metadata : WorkflowTaskCompletedMetadata) (versioning_behavior : VersioningBehavior)
| RespondLegacyQuery (result : QueryResult).

Record ServerCommandsWithWorkflowInfo := {
  scwi_task_token : string;
  scwi_action : ActivationAction;
}.

Inductive FailedActivationWFTReport :=
| Report (task_token : string) (cause : WorkflowTaskFailedCause) (failure : completion_Failure)
| ReportLegacyQueryFailure (task_token : string) (failure : completion_Failure).

Inductive ActivationCompleteOutcome :=
| ReportWFTSuccess (report : ServerCommandsWithWorkflowInfo)
| ReportWFTFail (outcome : FailedActivationWFTReport)
| DoNothing
| WFTFailedDontReport.

Record ActivationCompleteResult := {
  acr_replaying : bool;
  acr_outcome : ActivationCompleteOutcome;
}.

Inductive WFTReportStatus :=
| Reported (reset_last_started_to : option Z) (completion_time : Z)
| NotReported
| DropWft.

Inductive EvictionRequestResult :=
| EvictionRequested (attempt : option Z) (resp : RunUpdateAct)
| NotFound
| EvictionAlreadyRequested (attempt : option Z).

Definition into_run_update_resp (r : EvictionRequestResult) : RunUpdateAct :=
  match r with
  | EvictionRequested _ resp => resp
  | NotFound | EvictionAlreadyRequested _ => None
  end.

Inductive ValidatedCompletion :=
| VC_Success (run_id : string) (commands : list WFCommand) (used_flags : list Z)
    (versioning_behavior : VersioningBehavior)
| VC_Fail (run_id : string) (failure : completion_Failure) (is_autocomplete : bool).

Definition vc_run_id (c : ValidatedCompletion) : string :=
  match c with
  | VC_Success r _ _ _ => r
  | VC_Fail r _ _ => r
  end.

(** [CompleteWfError::MalformedWorkflowCompletion]. *)
Record CompleteWfError := {
  cwe_reason : string;
  cwe_run_id : string;
}.

(** [LocalResolution::is_la_cancel_confirmation]. *)
Definition is_la_cancel_confirmation (r : LocalActivityResolution) : bool :=
  match r.(lar_result) with
  | LAR_Cancelled _ => true
  | _ => false
  end.

(** ** Buffered tasks *)
Module Buffer.

Record BufferedTasks := {
  wft : option PermittedWFT;
  query_only_tasks : list PermittedWFT;
  query_only_tasks_for_buffered : list PermittedWFT;
}.

(** [Default]. *)
Definition empty : BufferedTasks :=
  {| wft := None; query_only_tasks := []; query_only_tasks_for_buffered := [] |}.

Definition buffer (task : PermittedWFT) (b : BufferedTasks) : BufferedTasks :=
  if is_query_only task.(pwft_work) then
    match b.(wft) with
    | None => {| wft := b.(wft); query_only_tasks := b.(query_only_tasks) ++ [task];
                 query_only_tasks_for_buffered := b.(query_only_tasks_for_buffered) |}
    | Some _ => {| wft := b.(wft); query_only_tasks := b.(query_only_tasks);
                   query_only_tasks_for_buffered :=
                     b.(query_only_tasks_for_buffered) ++ [task] |}
    end
  else
    {| wft := Some task; query_only_tasks := b.(query_only_tasks);
       query_only_tasks_for_buffered :=
         match b.(wft) with
         | Some _ => []
         | None => b.(query_only_tasks_for_buffered)
         end |}.

Definition has_tasks (b : BufferedTasks) : bool :=
  match b.(wft), b.(query_only_tasks) with
  | None, [] => false
  | _, _ => true
  end.

Definition get_next_wft (b : BufferedTasks) : BufferedTasks * option PermittedWFT :=
  match b.(query_only_tasks) with
  | q :: qs => ({| wft := b.(wft); query_only_tasks := qs;
                   query_only_tasks_for_buffered := b.(query_only_tasks_for_buffered) |}, Some q)
  | [] =>
      match b.(wft) with
      | Some t =>
          match b.(query_only_tasks_for_buffered) with
          | q :: qs => ({| wft := Some t; query_only_tasks := [];
                           query_only_tasks_for_buffered := qs |}, Some q)
          | [] => ({| wft := None; query_only_tasks := [];
                      query_only_tasks_for_buffered := [] |}, Some t)
          end
      | None => (b, None)
      end
  end.

End Buffer.
Export Buffer (BufferedTasks, has_tasks, get_next_wft).

(** ** Validation of completions *)

(** [collect] into a [Result] of the commands. *)
Fixpoint collect_commands (cs : list WorkflowCommand) : option (list WFCommand) :=
  match cs with
  | [] => Some []
  | c :: cs => c ← WFCommand_try_from c; cs ← collect_commands cs; Some (c :: cs)
  end.

Definition is_legacy_query_response (c : WFCommand) : bool :=
  match c.(wfc_variant) with
  | QueryResponse q => String.eqb q.(QueryResult_query_id) LEGACY_QUERY_ID
  | _ => false
  end.

(** [debug_commands] is the text of the derived [Debug] of the commands. *)
Definition validate_completion (debug_commands : list WFCommand -> string)
    (completion : WorkflowActivationCompletion) (is_autocomplete : bool)
  : outcome CompleteWfError ValidatedCompletion :=
  match completion.(wac_status) with
  | Some (Successful success) =>
      match collect_commands success.(cs_commands) with
      | None =>
          Err {| cwe_reason := "At least one workflow command in the completion contained an empty variant";
                 cwe_run_id := completion.(wac_run_id) |}
      | Some commands =>
          if (1 <? length commands)%nat && existsb is_legacy_query_response commands then
            Err {| cwe_reason := "Workflow completion had a legacy query response along with other commands. This is not allowed and constitutes an error in the lang SDK. Commands: " +:+ debug_commands commands;
                   cwe_run_id := completion.(wac_run_id) |}
          else
            Ok (VC_Success completion.(wac_run_id) commands success.(cs_used_internal_flags)
                  (default VB_Unspecified
                     (VersioningBehavior_try_from success.(cs_versioning_behavior))))
      end
  | Some (Failed failure) => Ok (VC_Fail completion.(wac_run_id) failure is_autocomplete)
  | None =>
      Err {| cwe_reason := "Workflow completion had empty status field";
             cwe_run_id := completion.(wac_run_id) |}
  end.

(** ** The order of jobs *)

Definition variant_ordinal (v : JobVariant) : nat :=
  match v with
  | J_InitializeWorkflow _ => 0
  | J_NotifyHasPatch _ => 1
  | J_UpdateRandomSeed _ => 2
  | J_SignalWorkflow _ => 3
  | J_DoUpdate _ => 3
  | J_ResolveActivity ra => if ra.(ResolveActivity_is_local) then 5 else 4
  | J_QueryWorkflow _ => 6
  | J_RemoveFromCache _ => 7
  | _ => 4
  end.

(** The ordinal of a job, where the comparison has a variant to unwrap. *)
Definition job_ordinal (j : WorkflowActivationJob) : nat :=
  from_option variant_ordinal 0 j.(WorkflowActivationJob_variant).

(** [slice::sort_by] is a stable sort: elements with equal ordinals keep their
    order. *)
Fixpoint stable_insert {A} (key : A -> nat) (x : A) (l : list A) : list A :=
  match l with
  | [] => [x]
  | y :: l => if (key y <? key x)%nat then y :: stable_insert key x l else x :: y :: l
  end.

Fixpoint stable_sort {A} (key : A -> nat) (l : list A) : list A :=
  match l with
  | [] => []
  | x :: l => stable_insert key x (stable_sort key l)
  end.

(** The comparison unwraps the variants; a slice of fewer than two elements is
    sorted without a comparison. *)
Definition prepare_to_ship_activation {E} (wfa : WorkflowActivation)
  : outcome E WorkflowActivation :=
  let jobs := wfa.(WorkflowActivation_jobs) in
  if (1 <? length jobs)%nat
     && existsb (fun j => match j.(WorkflowActivationJob_variant) with
                          | None => true | Some _ => false end) jobs
  then Panic "called Option::unwrap() on a None value"
  else Ok (with_jobs wfa (stable_sort job_ordinal jobs)).

(** ** Eager activities *)
Section eager.
  (** The handle of the activity task manager: its state, the reservation of a
      slot, and the permits it gives. *)
  Context {Handle Permit : Type} (reserve_slot : Handle -> Handle * option Permit).

Definition with_request_eager_execution (a : ScheduleActivityTaskCommandAttributes) (v : bool)
  : ScheduleActivityTaskCommandAttributes :=
  {| ScheduleActivityTaskCmd_activity_id := a.(ScheduleActivityTaskCmd_activity_id);
     ScheduleActivityTaskCmd_activity_type := a.(ScheduleActivityTaskCmd_activity_type);
     ScheduleActivityTaskCmd_task_queue := a.(ScheduleActivityTaskCmd_task_queue);
     ScheduleActivityTaskCmd_header := a.(ScheduleActivityTaskCmd_header);
     ScheduleActivityTaskCmd_input := a.(ScheduleActivityTaskCmd_input);
     ScheduleActivityTaskCmd_schedule_to_close_timeout :=
       a.(ScheduleActivityTaskCmd_schedule_to_close_timeout);
     ScheduleActivityTaskCmd_schedule_to_start_timeout :=
       a.(ScheduleActivityTaskCmd_schedule_to_start_timeout);
     ScheduleActivityTaskCmd_start_to_close_timeout :=
       a.(ScheduleActivityTaskCmd_start_to_close_timeout);
     ScheduleActivityTaskCmd_heartbeat_timeout := a.(ScheduleActivityTaskCmd_heartbeat_timeout);
     ScheduleActivityTaskCmd_retry_policy := a.(ScheduleActivityTaskCmd_retry_policy);
     ScheduleActivityTaskCmd_request_eager_execution := v;
     ScheduleActivityTaskCmd_use_workflow_build_id :=
       a.(ScheduleActivityTaskCmd_use_workflow_build_id);
     ScheduleActivityTaskCmd_priority := a.(ScheduleActivityTaskCmd_priority) |}.

(** The command with the flag off. *)
Definition refuse_eager (c : Command) (a : ScheduleActivityTaskCommandAttributes) : Command :=
  {| Command_command_type := c.(Command_command_type);
     Command_user_metadata := c.(Command_user_metadata);
     Command_attributes := Some (CA_ScheduleActivityTask (with_request_eager_execution a false)) |}.

(** One command: the command to send and the permit reserved for it. *)
Definition reserve_for (task_queue : string) (already : nat) (cmd : Command)
    (handle : option Handle) : option Handle * Command * option Permit :=
  match cmd.(Command_attributes) with
  | Some (CA_ScheduleActivityTask attrs) =>
      if attrs.(ScheduleActivityTaskCmd_request_eager_execution) then
        let same_task_queue :=
          match attrs.(ScheduleActivityTaskCmd_task_queue) with
          | Some q => String.eqb q.(TaskQueue_name) task_queue
          | None => false
          end in
        if same_task_queue && (already <? MAX_EAGER_ACTIVITY_RESERVATIONS_PER_WORKFLOW_TASK)%nat
        then
          match handle with
          | Some h =>
              match reserve_slot h with
              | (h, Some p) => (Some h, cmd, Some p)
              | (h, None) => (Some h, refuse_eager cmd attrs, None)
              end
          | None => (None, refuse_eager cmd attrs, None)
          end
        else (handle, refuse_eager cmd attrs, None)
      else (handle, cmd, None)
  | _ => (handle, cmd, None)
  end.

(** The loop over the commands; [reserved] is what was reserved before. *)
Fixpoint reserve_loop (task_queue : string) (cmds : list Command) (handle : option Handle)
    (reserved : list Permit) : option Handle * list Command * list Permit :=
  match cmds with
  | [] => (handle, [], reserved)
  | cmd :: cmds =>
      let '(handle, cmd, p) := reserve_for task_queue (length reserved) cmd handle in
      let '(handle, cmds, reserved) :=
        reserve_loop task_queue cmds handle
          (match p with Some p => reserved ++ [p] | None => reserved end) in
      (handle, cmd :: cmds, reserved)
  end.

Definition reserve_activity_slots_for_outgoing_commands (task_queue : string)
    (cmds : list Command) (handle : option Handle) : option Handle * list Command * list Permit :=
  reserve_loop task_queue cmds handle [].

(** What is handed to the activity task manager; [has_handle] tells whether the
    worker has one. *)
Definition handle_eager_activities {Act E} (has_handle : bool) (reserved_act_permits : list Permit)
    (eager_acts : list Act) : outcome E (list (Permit * Act)) :=
  if has_handle then Ok (zip reserved_act_permits eager_acts)
  else match eager_acts with
       | [] => Ok []
       | _ => Panic "Requested eager activity execution but this worker has no activity task manager! This is an internal bug, Core should not have asked for tasks."
       end.

End eager.

(** ** Properties *)

(** *** The order of jobs *)

Lemma stable_insert_perm {A} (key : A -> nat) x l : stable_insert key x l ≡ₚ x :: l.
Proof. induction l as [|y l IH]; simpl; [done|]. case_match; [|done]. rewrite IH. constructor. Qed.

Lemma stable_sort_perm {A} (key : A -> nat) l : stable_sort key l ≡ₚ l.
Proof. induction l as [|x l IH]; simpl; [done|]. by rewrite stable_insert_perm, IH. Qed.

Definition key_le {A} (key : A -> nat) (x y : A) : Prop := key x <= key y.

Lemma stable_insert_sorted {A} (key : A -> nat) x l :
  StronglySorted (key_le key) l -> StronglySorted (key_le key) (stable_insert key x l).
Proof.
  induction 1 as [|y l Hs IH Hy]; simpl; [repeat constructor|].
  destruct (Nat.ltb_spec (key y) (key x)) as [Hlt|Hge].
  - constructor; [done|]. rewrite stable_insert_perm. constructor; [unfold key_le; lia|done].
  - repeat constructor; [done..|exact Hge|].
    eapply Forall_impl; [exact Hy|]. unfold key_le. intros; lia.
Qed.

Lemma stable_sort_sorted {A} (key : A -> nat) l : StronglySorted (key_le key) (stable_sort key l).
Proof. induction l; simpl; [constructor|by apply stable_insert_sorted]. Qed.

Lemma stable_insert_filter {A} (key : A -> nat) n x l :
  filter (fun y => key y = n) (stable_insert key x l) = filter (fun y => key y = n) (x :: l).
Proof.
  induction l as [|y l IH]; simpl; [done|].
  destruct (Nat.ltb_spec (key y) (key x)) as [Hlt|Hge]; [|done].
  rewrite filter_cons, IH, !filter_cons. repeat case_decide; (done || lia).
Qed.

Lemma stable_sort_filter {A} (key : A -> nat) n l :
  filter (fun y => key y = n) (stable_sort key l) = filter (fun y => key y = n) l.
Proof.
  induction l as [|x l IH]; simpl; [done|]. rewrite stable_insert_filter, !filter_cons, IH.
  done.
Qed.

(** An activation whose jobs all have a variant is shipped without a panic:
    the jobs sent to lang are those of the activation, in the order
    initialization, patches, random seed, signals and updates, everything else,
    local activity resolutions, queries, evictions, and jobs of the same rank
    keep the order in which they were queued. *)
Theorem jobs_shipped_in_order {E} wfa :
  Forall (fun j => is_Some j.(WorkflowActivationJob_variant)) wfa.(WorkflowActivation_jobs) ->
  exists out, prepare_to_ship_activation (E := E) wfa = Ok (with_jobs wfa out)
    /\ out ≡ₚ wfa.(WorkflowActivation_jobs)
    /\ StronglySorted (key_le job_ordinal) out
    /\ forall n, filter (fun j => job_ordinal j = n) out
                 = filter (fun j => job_ordinal j = n) wfa.(WorkflowActivation_jobs).
Proof.
  intros Hv. exists (stable_sort job_ordinal wfa.(WorkflowActivation_jobs)).
  split; [|auto using stable_sort_perm, stable_sort_sorted, stable_sort_filter].
  unfold prepare_to_ship_activation.
  match goal with |- context [existsb ?f ?l] => replace (existsb f l) with false end;
    [by rewrite andb_false_r|].
  symmetry. induction Hv as [|j l [v Hj] _ IH]; simpl; [done|]. by rewrite Hj, IH.
Qed.

(** *** Buffered tasks *)
Module BufferFacts.
Import Buffer.

(** What the buffer will give, in order. *)
Definition pending (b : BufferedTasks) : list PermittedWFT :=
  b.(query_only_tasks) ++
  match b.(wft) with
  | Some t => b.(query_only_tasks_for_buffered) ++ [t]
  | None => []
  end.

(** Queries are only kept for a task that is buffered. *)
Definition buffer_inv (b : BufferedTasks) : Prop :=
  b.(wft) = None -> b.(query_only_tasks_for_buffered) = [].

Lemma buffer_inv_buffer t b : buffer_inv b -> buffer_inv (buffer t b).
Proof. unfold buffer_inv, buffer. intros Hi. repeat case_match; simpl; naive_solver. Qed.

Lemma get_next_wft_pending b :
  buffer_inv b ->
  buffer_inv (get_next_wft b).1
  /\ match pending b with
     | t :: rest => get_next_wft b = ((get_next_wft b).1, Some t)
                    /\ pending (get_next_wft b).1 = rest
     | [] => get_next_wft b = (b, None)
     end.
Proof.
  unfold buffer_inv, pending, get_next_wft. destruct b as [w qs qb]; simpl. intros Hi.
  destruct qs as [|q qs], w as [t|], qb as [|q' qb]; simpl; naive_solver.
Qed.

Lemma has_tasks_pending b : has_tasks b = true <-> pending b <> [].
Proof.
  unfold has_tasks, pending. destruct b as [[t|] [|q qs] qb]; simpl; split; try done.
  intros _ ?%(f_equal length). rewrite length_app in *. simpl in *. lia.
Qed.

(** Taking tasks until there is none. *)
Fixpoint drain (n : nat) (b : BufferedTasks) : list PermittedWFT :=
  match n with
  | 0 => []
  | S n => match get_next_wft b with
           | (b, Some t) => t :: drain n b
           | (_, None) => []
           end
  end.

Lemma drain_pending n b : buffer_inv b -> length (pending b) <= n -> drain n b = pending b.
Proof.
  revert b. induction n as [|n IH]; intros b Hi Hn; simpl.
  - by apply Nat.le_0_r, length_zero_iff_nil in Hn as ->.
  - destruct (get_next_wft_pending b Hi) as [Hi' Hp].
    destruct (pending b) as [|t rest]; [by rewrite Hp|]. destruct Hp as [-> Hr].
    rewrite <-Hr. f_equal. apply IH; [done|]. rewrite Hr. simpl in Hn. lia.
Qed.

(** The specification: a task that advances history makes those before it, and
    the queries asked after them, obsolete; the queries asked before the first
    such task are about the task being processed and stay. *)
Definition is_query (t : PermittedWFT) : Prop := is_query_only t.(pwft_work) = true.

Fixpoint leading_queries (l : list PermittedWFT) : list PermittedWFT :=
  match l with
  | t :: l => if is_query_only t.(pwft_work) then t :: leading_queries l else []
  | [] => []
  end.

(** The last task that advances history, preceded by the queries that follow it. *)
Fixpoint latest (l : list PermittedWFT) (acc : option (list PermittedWFT * PermittedWFT))
  : list PermittedWFT :=
  match l with
  | [] => match acc with Some (qs, t) => qs ++ [t] | None => [] end
  | t :: l =>
      if is_query_only t.(pwft_work)
      then latest l (match acc with Some (qs, w) => Some (qs ++ [t], w) | None => None end)
      else latest l (Some ([], t))
  end.

Definition buffer_all (l : list PermittedWFT) (b : BufferedTasks) : BufferedTasks :=
  foldl (fun b t => buffer t b) b l.

Lemma buffer_all_inv l b : buffer_inv b -> buffer_inv (buffer_all l b).
Proof. revert b. induction l; simpl; auto using buffer_inv_buffer. Qed.

Lemma pending_buffer_all l b :
  buffer_inv b ->
  pending (buffer_all l b)
  = b.(query_only_tasks)
    ++ match b.(wft) with Some _ => [] | None => leading_queries l end
    ++ latest l (w ← b.(wft); Some (b.(query_only_tasks_for_buffered), w)).
Proof.
  revert b. induction l as [|t l IH]; intros b Hi; simpl.
  - unfold pending. by destruct (wft b).
  - rewrite (IH (buffer t b)) by (by apply buffer_inv_buffer).
    unfold buffer. destruct (is_query_only _); destruct b as [[w|] qs qb]; simpl; try done.
    + by rewrite <-app_assoc.
    + specialize (Hi eq_refl). simpl in Hi. by subst qb.
Qed.

Lemma latest_length l qs t : length (latest l (Some (qs, t))) <= length l + length qs + 1.
Proof.
  revert qs t. induction l as [|t' l IH]; intros qs t; simpl; [rewrite length_app; simpl; lia|].
  case_match; [specialize (IH (qs ++ [t']) t); rewrite length_app in IH; simpl in IH
              |specialize (IH [] t'); simpl in IH]; lia.
Qed.

Lemma leading_latest_length l : length (leading_queries l) + length (latest l None) <= length l.
Proof.
  induction l as [|t l IH]; simpl; [lia|]. case_match; simpl; [lia|].
  pose proof (latest_length l [] t). simpl in *. lia.
Qed.

Lemma latest_not_nil l qs t : latest l (Some (qs, t)) <> [].
Proof.
  revert qs t. induction l as [|t' l IH]; intros qs t; simpl; [by destruct qs|case_match; auto].
Qed.

End BufferFacts.

(** *** Eager activities *)
Section eager_facts.
  Context {Handle Permit : Type} (reserve_slot : Handle -> Handle * option Permit).

(** The command asks the server for eager execution. *)
Definition asks_eager (c : Command) : bool :=
  match c.(Command_attributes) with
  | Some (CA_ScheduleActivityTask a) => a.(ScheduleActivityTaskCmd_request_eager_execution)
  | _ => false
  end.

(** The same command, at most with the flag off. *)
Definition at_most_refused (before after : Command) : Prop :=
  after = before \/ asks_eager before = true
    /\ exists a, before.(Command_attributes) = Some (CA_ScheduleActivityTask a)
                 /\ after = refuse_eager before a.

Lemma reserve_for_spec tq n cmd h h' cmd' p :
  reserve_for reserve_slot tq n cmd h = (h', cmd', p) ->
  at_most_refused cmd cmd'
  /\ (if asks_eager cmd' then 1 else 0) = (match p with Some _ => 1 | None => 0 end)
  /\ (is_Some p -> n < MAX_EAGER_ACTIVITY_RESERVATIONS_PER_WORKFLOW_TASK)
  /\ (h = None -> h' = None /\ p = None).
Proof.
  unfold reserve_for, at_most_refused, asks_eager. intros Hr.
  destruct (Command_attributes cmd) as [[]|] eqn:Ha; simplify_eq/=; rewrite ?Ha;
    try (split_and!; [by left|done|by intros []|done]).
  destruct (ScheduleActivityTaskCmd_request_eager_execution v) eqn:He; simplify_eq/=;
    rewrite ?Ha, ?He; [|split_and!; [by left|done|by intros []|done]].
  destruct (_ && _) eqn:Hc; simplify_eq/=;
    [|split_and!; [right; eauto|done|by intros []|done]].
  apply andb_true_iff in Hc as [_ Hlt%Nat.ltb_lt].
  destruct h as [h|]; simplify_eq/=; [|split_and!; [right; eauto|done|by intros []|done]].
  destruct (reserve_slot h) as [h2 [p2|]]; simplify_eq/=; rewrite ?Ha, ?He;
    (split_and!; [try (by left); right; eauto|done| |done]); [done|by intros []].
Qed.

Lemma reserve_loop_spec tq cmds h reserved h' cmds' reserved' :
  reserve_loop reserve_slot tq cmds h reserved = (h', cmds', reserved') ->
  Forall2 at_most_refused cmds cmds'
  /\ length reserved' = length reserved + length (filter (fun c => asks_eager c = true) cmds')
  /\ (length reserved <= MAX_EAGER_ACTIVITY_RESERVATIONS_PER_WORKFLOW_TASK ->
      length reserved' <= MAX_EAGER_ACTIVITY_RESERVATIONS_PER_WORKFLOW_TASK)
  /\ (h = None -> reserved' = reserved).
Proof.
  revert h reserved h' cmds' reserved'.
  induction cmds as [|cmd cmds IH]; intros h reserved h' cmds' reserved' Hl; simplify_eq/=;
    [split_and!; [constructor|simpl; lia|done|done]|].
  destruct (reserve_for _ _ _ _ _) as [[h1 cmd1] p] eqn:Hr.
  destruct (reserve_loop _ _ _ _ _) as [[h2 cmds2] r2] eqn:Hl2. simplify_eq.
  apply reserve_for_spec in Hr as (Hrel & Hcnt & Hmax & Hno).
  apply IH in Hl2 as (Hrels & Hlen & Hle & Hsame).
  rewrite filter_cons. split_and!; [by constructor|..].
  - rewrite Hlen. destruct p, (asks_eager cmd1); try done; rewrite ?length_app;
      repeat case_decide; simpl; (done || lia).
  - intros Hr. apply Hle. destruct p; [|done]. rewrite length_app. simpl.
    specialize (Hmax ltac:(done)). lia.
  - intros Hh. destruct (Hno Hh) as [-> ->]. by apply Hsame.
Qed.

Lemma zip_snd_all {A B} (l : list A) (k : list B) : length k <= length l -> (zip l k).*2 = k.
Proof. revert l. induction k as [|x k IH]; intros [|y l]; simpl; intros Hk; try done; [lia|]. f_equal. apply IH. lia. Qed.

(** C37 When a workflow task is completed, the commands that still ask for eager
    execution are exactly as many as the slots reserved for them, at most three;
    every other field of every command is as lang gave it, the flag is only ever
    turned off, and a worker that has no activities asks for none.  So, if the
    server returns no more activities than it was asked for, each of them gets a
    slot and none is dropped. *)
Theorem eager_requests_match_reservations {Act E} tq cmds h h' cmds' reserved (acts : list Act) :
  reserve_activity_slots_for_outgoing_commands reserve_slot tq cmds h = (h', cmds', reserved) ->
  Forall2 at_most_refused cmds cmds'
  /\ length (filter (fun c => asks_eager c = true) cmds') = length reserved
  /\ length reserved <= MAX_EAGER_ACTIVITY_RESERVATIONS_PER_WORKFLOW_TASK
  /\ (length acts <= length (filter (fun c => asks_eager c = true) cmds') ->
      exists tasks, handle_eager_activities (E := E) (match h with Some _ => true | None => false end)
                      reserved acts = Ok tasks /\ tasks.*2 = acts).
Proof.
  unfold reserve_activity_slots_for_outgoing_commands. intros Hr.
  destruct (reserve_loop_spec _ _ _ _ _ _ _ Hr) as (Hrel & Hlen & Hmax & Hno). simpl in Hlen.
  split_and!; [done|done|apply Hmax; simpl; lia|]. rewrite <-Hlen. intros Hacts.
  unfold handle_eager_activities. destruct h as [h|].
  - eexists. split; [done|]. by apply zip_snd_all.
  - rewrite (Hno eq_refl) in Hacts. destruct acts; simpl in Hacts; [|lia]. by exists [].
Qed.
End eager_facts.
