(* ===== verification/ManagedRun.v ===== *)
(** * A managed run (worker/workflow/managed_run.rs)

    One workflow run in the cache: its machines, the workflow task it is
    processing, the activation lang has, the tasks that arrived meanwhile, what
    waits for local activities or for a page of history, and its eviction. *)
From Stdlib Require Import ZArith Lia SpecFloat.
From stdpp Require Import base option list strings gmap.
From S2P Require Import Prelude Flags Protos ProtoExt CoreProtos Fsm LocalActs DrivenWorkflow.
From S2P Require Import Machines HistoryUpdate WMState WorkflowMachines WorkflowTasks TimeArith.

(** ** Sequences of commands *)

(** The responses to queries of a list of commands, and the other commands. *)
Definition query_result (c : WFCommand) : option QueryResult :=
  match c.(wfc_variant) with
  | QueryResponse qr => Some qr
  | _ => None
  end.

(** The loop of [filter_map], with the vectors that it fills. *)
Fixpoint split_commands (commands : list WFCommand)
  : list WFCommand * list WFCommand * list QueryResult :=
  match commands with
  | [] => ([], [], [])
  | c :: commands =>
      let '(cmds, terminals, query_results) := split_commands commands in
      match query_result c with
      | Some qr => (cmds, terminals, qr :: query_results)
      | None =>
          if is_terminal c.(wfc_variant) then (cmds, c :: terminals, query_results)
          else (c :: cmds, terminals, query_results)
      end
  end.

Definition preprocess_command_sequence (commands : list WFCommand)
  : list WFCommand * list QueryResult :=
  let '(commands, terminals, query_results) := split_commands commands in
  (commands ++ match terminals with
               | first_terminal :: _ => [first_terminal]
               | [] => []
               end, query_results).

Fixpoint old_behavior (seen_terminal : bool) (commands : list WFCommand)
  : list WFCommand * list QueryResult :=
  match commands with
  | [] => ([], [])
  | c :: commands =>
      match query_result c with
      | Some qr => let '(cmds, qrs) := old_behavior seen_terminal commands in (cmds, qr :: qrs)
      | None =>
          if seen_terminal then old_behavior seen_terminal commands
          else let '(cmds, qrs) := old_behavior (is_terminal c.(wfc_variant)) commands in
               (c :: cmds, qrs)
      end
  end.

Definition preprocess_command_sequence_old_behavior (commands : list WFCommand)
  : list WFCommand * list QueryResult := old_behavior false commands.

(** 0.8 in single precision. *)
Definition WFT_HEARTBEAT_TIMEOUT_FRACTION : spec_float := S754_finite false 13421773 (-24).

(** ** What waits *)

(** The sender of a response channel is a number. *)
Definition RespChan := N.

Record CompletionDataForWFT := {
  cd_task_token : string;
  cd_query_responses : list QueryResult;
  cd_has_pending_query : bool;
  cd_activation_was_eviction : bool;
  cd_is_forced_failure : bool;
  cd_versioning_behavior : VersioningBehavior;
}.

Record WaitingOnLAs := {
  wola_wft_timeout : Z;
  wola_completion_dat : option (CompletionDataForWFT * option RespChan);
  wola_hb_timeout_handle : N;
}.

Record RunActivationCompletion := {
  rac_task_token : string;
  rac_start_time : Z;
  rac_commands : list WFCommand;
  rac_activation_was_eviction : bool;
  rac_has_pending_query : bool;
  rac_query_responses : list QueryResult;
  rac_used_flags : list Z;
  rac_is_forced_failure : bool;
  rac_resp_chan : option RespChan;
  rac_versioning_behavior : VersioningBehavior;
}.

Record FulfillableActivationComplete := {
  fac_result : ActivationCompleteResult;
  fac_resp_chan : option RespChan;
}.

Inductive ActOrFulfill :=
| OutgoingAct (a : option ActivationOrAuto)
| FulfillableComplete (c : option FulfillableActivationComplete).

Record RunUpdateErr := {
  rue_source : WFMachinesError;
  rue_complete_resp_chan : option RespChan;
}.

(** [From<WFMachinesError> for RunUpdateErr]. *)
Definition RunUpdateErr_from (e : WFMachinesError) : RunUpdateErr :=
  {| rue_source := e; rue_complete_resp_chan := None |}.

(** ** Effects

    What a run does outside of itself, and the answers of the outside, which may
    depend on everything done before: readings of clocks, the local activity
    manager behind the request sink, whether the receiver of a response channel
    is still there, the iteration order of the flag sets. *)
Inductive effect :=
| EClock
| ESink (reqs : list LocalActRequest)
| EAbort (handle : N)
| EReply (chan : RespChan) (result : ActivationCompleteResult).

Class RunEnv := {
  instant_now : list effect -> Z;
  command_times : list effect -> nat -> Z;
  schedule_times : list effect -> ValidScheduleLA -> Z;
  sink_answer : list effect -> list LocalActRequest -> list LocalActivityResolution;
  chan_open : list effect -> RespChan -> bool;
  iter_core : list effect -> gset CoreInternalFlags -> list CoreInternalFlags;
  iter_lang : list effect -> gset Z -> list Z;
  debug_failure : completion_Failure -> string;
}.

(** The calls of a run recurse into one another; the functions take the depth
    they may reach, and fail with [OutOfFuel] beyond it. *)
Inductive Depth := OutOfFuel.

(** [Result::map]. *)
#[global] Instance sum_fmap {E} : FMap (sum E) := fun A B f r =>
  match r with inl e => inl e | inr a => inr (f a) end.

Section managed_run.
  Context {X : Externs} {K : Type} {Sm : Type -> Type} `{Countable K} `{SlotMap K Sm}.
  Context {R : RunEnv}.

Record ManagedRun := mkRun {
  mr_wfm : WorkflowMachines K Sm;
  mr_waiting_on_la : option WaitingOnLAs;
  mr_am_broken : bool;
  mr_wft : option OutstandingTask;
  mr_activation : option OutstandingActivation;
  mr_task_buffer : BufferedTasks;
  mr_trying_to_evict : option RequestEvictMsg;
  mr_paginator : option HistoryPaginator;
  mr_completion_waiting_on_page_fetch : option RunActivationCompletion;
  mr_config : WorkerConfig;
}.

Definition set_wfm (x : WorkflowMachines K Sm) (r : ManagedRun) : ManagedRun :=
  mkRun x r.(mr_waiting_on_la) r.(mr_am_broken) r.(mr_wft) r.(mr_activation) r.(mr_task_buffer)
    r.(mr_trying_to_evict) r.(mr_paginator) r.(mr_completion_waiting_on_page_fetch)
    r.(mr_config).

Definition set_waiting_on_la (x : option WaitingOnLAs) (r : ManagedRun) : ManagedRun :=
  mkRun r.(mr_wfm) x r.(mr_am_broken) r.(mr_wft) r.(mr_activation) r.(mr_task_buffer)
    r.(mr_trying_to_evict) r.(mr_paginator) r.(mr_completion_waiting_on_page_fetch)
    r.(mr_config).

Definition set_am_broken (x : bool) (r : ManagedRun) : ManagedRun :=
  mkRun r.(mr_wfm) r.(mr_waiting_on_la) x r.(mr_wft) r.(mr_activation) r.(mr_task_buffer)
    r.(mr_trying_to_evict) r.(mr_paginator) r.(mr_completion_waiting_on_page_fetch)
    r.(mr_config).

Definition set_wft (x : option OutstandingTask) (r : ManagedRun) : ManagedRun :=
  mkRun r.(mr_wfm) r.(mr_waiting_on_la) r.(mr_am_broken) x r.(mr_activation) r.(mr_task_buffer)
    r.(mr_trying_to_evict) r.(mr_paginator) r.(mr_completion_waiting_on_page_fetch)
    r.(mr_config).

Definition set_activation (x : option OutstandingActivation) (r : ManagedRun) : ManagedRun :=
  mkRun r.(mr_wfm) r.(mr_waiting_on_la) r.(mr_am_broken) r.(mr_wft) x r.(mr_task_buffer)
    r.(mr_trying_to_evict) r.(mr_paginator) r.(mr_completion_waiting_on_page_fetch)
    r.(mr_config).

Definition set_task_buffer (x : BufferedTasks) (r : ManagedRun) : ManagedRun :=
  mkRun r.(mr_wfm) r.(mr_waiting_on_la) r.(mr_am_broken) r.(mr_wft) r.(mr_activation) x
    r.(mr_trying_to_evict) r.(mr_paginator) r.(mr_completion_waiting_on_page_fetch)
    r.(mr_config).

Definition set_trying_to_evict (x : option RequestEvictMsg) (r : ManagedRun) : ManagedRun :=
  mkRun r.(mr_wfm) r.(mr_waiting_on_la) r.(mr_am_broken) r.(mr_wft) r.(mr_activation)
    r.(mr_task_buffer) x r.(mr_paginator) r.(mr_completion_waiting_on_page_fetch)
    r.(mr_config).

Definition set_paginator (x : option HistoryPaginator) (r : ManagedRun) : ManagedRun :=
  mkRun r.(mr_wfm) r.(mr_waiting_on_la) r.(mr_am_broken) r.(mr_wft) r.(mr_activation)
    r.(mr_task_buffer) r.(mr_trying_to_evict) x r.(mr_completion_waiting_on_page_fetch)
    r.(mr_config).

Definition set_completion_waiting_on_page_fetch (x : option RunActivationCompletion) (r : ManagedRun) : ManagedRun :=
  mkRun r.(mr_wfm) r.(mr_waiting_on_la) r.(mr_am_broken) r.(mr_wft) r.(mr_activation)
    r.(mr_task_buffer) r.(mr_trying_to_evict) r.(mr_paginator) x r.(mr_config).

Abbreviation WM := (M (WorkflowMachines K Sm) WFMachinesError).

(** A call on a run: the run and the effects so far, latest first. *)
Abbreviation RM E := (M (ManagedRun * list effect) E).

Definition the_run {E} : RM E ManagedRun := fun '(r, t) => ((r, t), Ok r).
Definition on_run {E} (f : ManagedRun -> ManagedRun) : RM E unit :=
  fun '(r, t) => ((f r, t), Ok tt).
Definition emit {E} (e : effect) : RM E unit := fun '(r, t) => ((r, e :: t), Ok tt).

(** A call that consults the outside, whose answers depend on the effects so far. *)
Definition with_trace {E A} (f : list effect -> RM E A) : RM E A := fun '(r, t) => f t (r, t).

(** A call on the machines of the run. *)
Definition on_machines {A} (m : WM A) : RM WFMachinesError A :=
  fun '(r, t) => let '(w, res) := m r.(mr_wfm) in ((set_wfm w r, t), res).

(** A call that returns no [Result]. *)
Definition on_machines_pure {E A} (f : WorkflowMachines K Sm -> WorkflowMachines K Sm * A)
  : RM E A :=
  fun '(r, t) => let '(w, a) := f r.(mr_wfm) in ((set_wfm w r, t), Ok a).

(** [?] with a conversion of the error. *)
Definition convert_err {E F A} (f : E -> F) (m : RM E A) : RM F A :=
  fun s => let '(s, r) := m s in (s, map_err f r).

(** The [Result] of a call as a value. *)
Definition attempt {E F A} (m : RM E A) : RM F (E + A) :=
  fun s => match m s with
           | (s, Ok a) => (s, Ok (inr a))
           | (s, Err e) => (s, Ok (inl e))
           | (s, Panic msg) => (s, Panic msg)
           end.

(** A call whose body has no [?]: an error is not among its outcomes. *)
Definition infallible {F A} (m : RM WFMachinesError A) : RM F A :=
  fun s => match m s with
           | (s, Ok a) => (s, Ok a)
           | (s, Err _) => (s, Panic "unreachable")
           | (s, Panic msg) => (s, Panic msg)
           end.

Definition run_id_of (r : ManagedRun) : string := r.(mr_wfm).(wm_run_id).

(** [Instant::now]. *)
Definition now {E} : RM E Z := fun '(r, t) => ((r, EClock :: t), Ok (instant_now t)).

(** [LocalActivityRequestSink::sink_reqs]. *)
Definition sink_reqs {E} (reqs : list LocalActRequest) : RM E (list LocalActivityResolution) :=
  fun '(r, t) => ((r, ESink reqs :: t), Ok (sink_answer t reqs)).

(** [AbortHandle::new_pair]: a handle that was not used before. *)
Definition new_handle {E} : RM E N := fun '(r, t) => ((r, t), Ok (N.of_nat (length t))).

Definition sink_heartbeat_timeout_start {E} (run_id : string) (wft_start_time wft_timeout : Z)
  : RM E N :=
  delay ← lift (mul_f32 wft_timeout WFT_HEARTBEAT_TIMEOUT_FRACTION);
  deadline ← lift (instant_add wft_start_time delay);
  abort_handle ← new_handle;
  _ ← sink_reqs [LA_StartHeartbeatTimeout run_id deadline abort_handle];
  mret abort_handle.

(** ** The workflow manager *)

(** [WorkflowManager::get_next_activation]. *)
Definition wm_activation : WM WorkflowActivation :=
  fun s => let '(s, a) := get_wf_activation s in (s, Ok a).

Definition get_next_activation : WM WorkflowActivation :=
  activation ← wm_activation;
  match activation.(WorkflowActivation_jobs) with
  | _ :: _ => mret activation
  | [] => _ ← apply_next_wft_from_history; wm_activation
  end.

Definition manager_new_work_from_server (update : HistoryUpdate)
    (messages : list IncomingProtocolMessage) : WM WorkflowActivation :=
  _ ← new_work_from_server update messages;
  get_next_activation.

Definition feed_history_from_new_page (update : HistoryUpdate) : WM unit :=
  new_history_from_server update.

(** The loop; every round but the last takes events off the history that is known. *)
Fixpoint apply_tasks (rounds : nat) : WM unit :=
  match rounds with
  | 0 => panic "out of rounds"
  | S rounds =>
      consumed_events ← apply_next_wft_from_history;
      s ← get;
      if (consumed_events =? 0)%nat || negb s.(wm_replaying) || has_pending_jobs s
      then mret tt else apply_tasks rounds
  end.

Definition apply_next_task_if_ready : WM unit :=
  s ← get;
  if has_pending_jobs s then mret tt
  else apply_tasks (S (length s.(wm_last_history_from_server).(events))).

Definition push_commands_and_iterate (times : nat -> Z) (cmds : list WFCommand) : WM unit :=
  _ ← modify (fun s => set_drive_me (Driven.send_commands cmds s.(wm_drive_me)) s);
  iterate_machines times.

(** [MachinesWFTResponseContent::commands().peek().is_some()]: the commands are
    looked at until one can be sent. *)
Fixpoint any_sendable (cmds : list (CommandAndMachine K)) : WM bool :=
  match cmds with
  | [] => mret false
  | c :: cmds =>
      m ← get_machine c.(cam_machine);
      final ← lift (is_final_state m);
      match final : bool, c.(cam_command) with
      | false, Real _ => mret true
      | _, _ => any_sendable cmds
      end
  end.

Definition peek_commands : WM bool :=
  _ ← modify (fun s =>
        set_observed_internal_flags (write_all_known s.(wm_observed_internal_flags)) s);
  s ← get;
  any_sendable s.(wm_commands).

(** ** Questions about a run *)

(** [ManagedRun::new], before the first task. *)
Definition new_managed_run (basics : RunBasics) : ManagedRun :=
  {| mr_wfm := WorkflowMachines_new basics Driven.new;
     mr_waiting_on_la := None;
     mr_am_broken := false;
     mr_wft := None;
     mr_activation := None;
     mr_task_buffer := Buffer.empty;
     mr_trying_to_evict := None;
     mr_paginator := None;
     mr_completion_waiting_on_page_fetch := None;
     mr_config := basics.(rb_worker_config) |}.

Definition is_some {A} (o : option A) : bool :=
  match o with Some _ => true | None => false end.

Definition is_nil {A} (l : list A) : bool :=
  match l with [] => true | _ :: _ => false end.

Definition more_pending_work (r : ManagedRun) : bool :=
  is_some r.(mr_wft) && has_pending_jobs r.(mr_wfm).

Definition activation_is_eviction (r : ManagedRun) : bool :=
  match r.(mr_activation) with Some OA_Eviction => true | _ => false end.

Definition pending_work_is_legacy_query (r : ManagedRun) : bool :=
  match r.(mr_activation) with Some OA_LegacyQuery => true | _ => false end
  || match r.(mr_wft) with Some t => has_pending_legacy_query t | None => false end.

Definition has_any_pending_work (ignore_evicts ignore_buffered : bool) (r : ManagedRun) : bool :=
  let evict_work := if ignore_evicts then false else is_some r.(mr_trying_to_evict) in
  let act_work := if ignore_evicts
                  then match r.(mr_activation) with
                       | Some OA_Eviction | None => false
                       | Some _ => true
                       end
                  else is_some r.(mr_activation) in
  let buffered := if ignore_buffered then false else has_tasks r.(mr_task_buffer) in
  is_some r.(mr_wft) || buffered || more_pending_work r || act_work || evict_work.

(** [buffer_wft_if_outstanding_work]. *)
Definition buffer_wft_if_outstanding_work (work : PermittedWFT) (r : ManagedRun)
  : ManagedRun * option PermittedWFT :=
  if is_some r.(mr_activation) || is_some r.(mr_trying_to_evict) || more_pending_work r
  then (set_task_buffer (Buffer.buffer work r.(mr_task_buffer)) r, None)
  else (r, Some work).

Definition has_buffered_wft (r : ManagedRun) : bool := has_tasks r.(mr_task_buffer).

(** [finish_activation]. *)
Definition finish_activation (pred : OutstandingActivation -> bool) (r : ManagedRun)
  : ManagedRun * (bool * BufferedTasks) :=
  let '(r, evict) :=
    match r.(mr_activation) with
    | Some a => if pred a then (set_activation None r, bool_decide (a = OA_Eviction))
                else (r, false)
    | None => (r, false)
    end in
  if evict then (set_task_buffer Buffer.empty r, (true, r.(mr_task_buffer)))
  else (r, (false, Buffer.empty)).

(** [put_queries_in_act], on the activation and the queries of the task. *)
Definition put_queries_in_act (act : WorkflowActivation) (wft : OutstandingTask)
  : WorkflowActivation * OutstandingTask :=
  if is_nil wft.(ot_pending_queries) then (act, wft)
  else if has_pending_legacy_query wft && negb (is_nil act.(WorkflowActivation_jobs))
  then (act, wft)
  else
    (with_jobs act (act.(WorkflowActivation_jobs)
       ++ ((fun q => {| WorkflowActivationJob_variant := Some (J_QueryWorkflow q) |})
           <$> wft.(ot_pending_queries))),
     {| ot_info := wft.(ot_info); ot_pending_queries := [];
        ot_start_time := wft.(ot_start_time); ot_permit := wft.(ot_permit) |}).

(** ** Local activities *)

Definition notify_of_local_result (res : LocalActivityResolution) : RM WFMachinesError unit :=
  _ ← on_machines (local_resolution res); mret tt.

Definition sink_la_requests (new_local_acts : list LocalActRequest) : RM WFMachinesError unit :=
  immediate_resolutions ← sink_reqs new_local_acts;
  for_each notify_of_local_result immediate_resolutions.

(** ** Incoming tasks *)

(** [_incoming_wft], where the activation of the task is obtained. *)
Definition activation_of_wft (work : PreparedWFT) : RM RunUpdateErr WorkflowActivation :=
  if is_real work.(pw_update) then
    convert_err RunUpdateErr_from
      (on_machines (manager_new_work_from_server work.(pw_update) work.(pw_messages)))
  else
    r ← convert_err RunUpdateErr_from (on_machines get_next_activation);
    run ← the_run;
    if is_nil r.(WorkflowActivation_jobs) then
      throw (RunUpdateErr_from
        (Fatal ("Machines created for " +:+ run_id_of run +:+ " with no jobs")))
    else mret r.

(** [_incoming_wft], where the activation has no jobs. *)
Definition wft_without_jobs (start_time : Z) : RM RunUpdateErr (option ActivationOrAuto) :=
  run ← the_run;
  if (0 <? outstanding_local_activity_count run.(mr_wfm))%nat then
    match run.(mr_waiting_on_la) with
    | Some lawait =>
        match lawait.(wola_completion_dat) with
        | Some _ => panic "Should not have completion dat when getting new wft & empty jobs"
        | None =>
            _ ← emit (EAbort lawait.(wola_hb_timeout_handle));
            h ← sink_heartbeat_timeout_start (run_id_of run) start_time
                  lawait.(wola_wft_timeout);
            _ ← on_run (set_waiting_on_la (Some
                  {| wola_wft_timeout := lawait.(wola_wft_timeout);
                     wola_completion_dat := None;
                     wola_hb_timeout_handle := h |}));
            mret None
        end
    | None => panic "Got a new WFT while there are outstanding local activities, but there was no waiting on LA info."
    end
  else mret (Some (Autocomplete (run_id_of run))).

Definition _incoming_wft (pwft : PermittedWFT) : RM RunUpdateErr (option ActivationOrAuto) :=
  start_time ← now;
  let work := pwft.(pwft_work) in
  let legacy_query_from_poll := query_to_job LEGACY_QUERY_ID <$> work.(pw_legacy_query) in
  if negb (is_nil work.(pw_query_requests)) && is_some legacy_query_from_poll then
    throw (RunUpdateErr_from (Fatal "Server issued both normal and legacy query"))
  else
    _ ← on_run (fun r => set_wft (Some
          {| ot_info := {| wti_task_token := work.(pw_task_token);
                           wti_attempt := work.(pw_attempt);
                           wti_wf_id := work.(pw_execution).(WorkflowExecution_workflow_id) |};
             ot_pending_queries := work.(pw_query_requests)
               ++ match legacy_query_from_poll with Some lq => [lq] | None => [] end;
             ot_start_time := start_time;
             ot_permit := pwft.(pwft_permit) |})
          (set_paginator (Some pwft.(pwft_paginator)) r));
    run ← the_run;
    if is_some legacy_query_from_poll
       && (work.(pw_update).(wft_started_id) =? 0)%Z
       && (work.(pw_update).(previous_wft_started_id)
           <? run.(mr_wfm).(wm_current_started_event_id))%Z
    then mret (Some (AutoFail (run_id_of run) (Fatal "Query expired")))
    else
      activation ← activation_of_wft work;
      if is_nil activation.(WorkflowActivation_jobs) then wft_without_jobs start_time
      else mret (Some (LangActivation activation)).

(** [mark_wft_complete]; the latency metric is left out. *)
Definition mark_wft_complete {E} (report_status : WFTReportStatus)
  : RM E (option OutstandingTask) :=
  run ← the_run;
  _ ← on_run (set_wft None);
  match report_status with
  | Reported reset_last_started_to _ =>
      _ ← match reset_last_started_to with
          | Some id => on_run (fun r => set_wfm (reset_last_started_id id r.(mr_wfm)) r)
          | None => mret tt
          end;
      _ ← sink_reqs [LA_IndicateWorkflowTaskCompleted (run_id_of run)];
      mret run.(mr_wft)
  | _ => mret run.(mr_wft)
  end.

(** ** More activations *)

Definition _check_more_activations : RM RunUpdateErr (option ActivationOrAuto) :=
  run ← the_run;
  if is_some run.(mr_activation) then mret None
  else
    _ ← (if is_some run.(mr_trying_to_evict)
         then convert_err RunUpdateErr_from (sink_la_requests [LA_CancelAllInRun (run_id_of run)])
         else mret tt);
    run ← the_run;
    match run.(mr_wft) with
    | None => mret None
    | Some wft =>
        if has_pending_jobs run.(mr_wfm) && negb run.(mr_am_broken) then
          act ← convert_err RunUpdateErr_from (on_machines get_next_activation);
          mret (Some (LangActivation act))
        else if negb run.(mr_am_broken) && negb (is_nil wft.(ot_pending_queries)) then
          act ← on_machines_pure get_wf_activation;
          mret (Some (ReadyForQueries act))
        else
          mret match run.(mr_trying_to_evict) with
               | Some wte => Some (LangActivation
                   (create_evict_activation (run_id_of run) wte.(rem_message) wte.(rem_reason)))
               | None => None
               end
    end.

(** ** Finishing a completion *)

(** [ManagedRun::preprocess_command_sequence]. *)
Definition run_preprocess_command_sequence {E} (commands : list WFCommand)
  : RM E (list WFCommand * list QueryResult) :=
  run ← the_run;
  if run.(mr_wfm).(wm_replaying) then
    let '(fl, used) := try_use MoveTerminalCommands false
                         run.(mr_wfm).(wm_observed_internal_flags) in
    _ ← on_run (fun r => set_wfm (set_observed_internal_flags fl r.(mr_wfm)) r);
    mret (if used : bool then preprocess_command_sequence commands
          else preprocess_command_sequence_old_behavior commands)
  else mret (preprocess_command_sequence commands).

(** [prepare_complete_resp], what is sent to the server. *)
Definition report_success {E} (data : CompletionDataForWFT) (force_new_wft : bool)
  : RM E ActivationCompleteOutcome :=
  run ← the_run;
  cm ← (if run.(mr_am_broken) && data.(cd_activation_was_eviction) then mret ([], [])
        else commands ← infallible (on_machines get_commands);
             messages ← on_machines_pure take_messages;
             mret (commands, messages)) : RM E (list Command * list Message);
  md ← with_trace (fun t =>
         on_machines_pure (get_metadata_for_wft_complete (iter_core t) (iter_lang t)));
  mret (ReportWFTSuccess
    {| scwi_task_token := data.(cd_task_token);
       scwi_action := WftComplete cm.1 cm.2 data.(cd_query_responses) force_new_wft md
                        data.(cd_versioning_behavior) |}).

Definition prepare_complete_resp {E} (resp_chan : option RespChan) (data : CompletionDataForWFT)
    (due_to_heartbeat_timeout : bool) : RM E FulfillableActivationComplete :=
  run ← the_run;
  let replaying := run.(mr_wfm).(wm_replaying) in
  let has_pending_jobs := has_pending_jobs run.(mr_wfm) in
  let have_seen_terminal_event := run.(mr_wfm).(wm_have_seen_terminal_event) in
  let have_pending_la_resolutions := has_pending_la_resolutions run.(mr_wfm) in
  _ ← (if data.(cd_activation_was_eviction)
       then _ ← infallible (on_machines peek_commands); mret tt
       else mret tt) : RM E unit;
  let has_query_responses := negb (is_nil data.(cd_query_responses)) in
  let is_query_playback := data.(cd_has_pending_query) && negb has_query_responses in
  let should_respond := negb (has_pending_jobs
                              || (replaying && negb data.(cd_is_forced_failure))
                              || is_query_playback
                              || data.(cd_activation_was_eviction)
                              || have_seen_terminal_event) in
  let force_new_wft := due_to_heartbeat_timeout
                       || (has_query_responses && have_pending_la_resolutions) in
  outcome ← (if should_respond || has_query_responses
             then report_success data force_new_wft else mret DoNothing);
  mret {| fac_result := {| acr_replaying := replaying; acr_outcome := outcome |};
          fac_resp_chan := resp_chan |}.

(** [FulfillableActivationComplete::fulfill]. *)
Definition fulfill {E} (f : FulfillableActivationComplete) : RM E unit :=
  match f.(fac_resp_chan) with
  | Some chan => emit (EReply chan f.(fac_result))
  | None => mret tt
  end.

(** [_process_completion], the closure that updates the machines. *)
Definition apply_completion (completion : RunActivationCompletion)
    (update_from_new_page : option HistoryUpdate) : RM WFMachinesError (option (Z * Z)) :=
  _ ← emit EClock;
  _ ← with_trace (fun t =>
        on_machines (push_commands_and_iterate (command_times t) completion.(rac_commands)));
  _ ← match update_from_new_page with
      | Some update => on_machines (feed_history_from_new_page update)
      | None => mret tt
      end;
  run ← the_run;
  _ ← (if negb completion.(rac_activation_was_eviction) && negb run.(mr_am_broken)
       then on_machines apply_next_task_if_ready else mret tt);
  new_local_acts ← with_trace (fun t =>
         on_machines_pure (drain_queued_local_activities (schedule_times t)));
  _ ← sink_la_requests new_local_acts;
  run ← the_run;
  if (outstanding_local_activity_count run.(mr_wfm) =? 0)%nat then mret None
  else
    match si ← run.(mr_wfm).(wm_drive_me).(Driven.started_attrs);
          si.(wsi_workflow_task_timeout) with
    | Some wft_timeout => mret (Some (completion.(rac_start_time), wft_timeout))
    | None => throw (Fatal "Workflow's start attribs were missing a well formed task timeout")
    end.

Definition data_of_completion (c : RunActivationCompletion) : CompletionDataForWFT :=
  {| cd_task_token := c.(rac_task_token);
     cd_query_responses := c.(rac_query_responses);
     cd_has_pending_query := c.(rac_has_pending_query);
     cd_activation_was_eviction := c.(rac_activation_was_eviction);
     cd_is_forced_failure := c.(rac_is_forced_failure);
     cd_versioning_behavior := c.(rac_versioning_behavior) |}.

(** [_process_completion], when local activities keep the completion waiting. *)
Definition wait_on_las {E} (c : RunActivationCompletion) (start_t wft_timeout : Z) : RM E unit :=
  run ← the_run;
  _ ← match run.(mr_waiting_on_la) with
      | Some wola => emit (EAbort wola.(wola_hb_timeout_handle))
      | None => mret tt
      end;
  h ← sink_heartbeat_timeout_start (run_id_of run) start_t wft_timeout;
  on_run (set_waiting_on_la (Some
    {| wola_wft_timeout := wft_timeout;
       wola_completion_dat := Some (data_of_completion c, c.(rac_resp_chan));
       wola_hb_timeout_handle := h |})).

Definition _process_completion (c : RunActivationCompletion)
    (update_from_new_page : option HistoryUpdate)
  : RM RunUpdateErr (option FulfillableActivationComplete) :=
  let data := data_of_completion c in
  _ ← on_run (fun r => set_wfm (add_lang_used_flags c.(rac_used_flags) r.(mr_wfm)) r);
  if c.(rac_activation_was_eviction) then
    f ← prepare_complete_resp c.(rac_resp_chan) data false; mret (Some f)
  else
    outcome ← attempt (apply_completion c update_from_new_page);
    match outcome with
    | inr None => f ← prepare_complete_resp c.(rac_resp_chan) data false; mret (Some f)
    | inr (Some (start_t, wft_timeout)) => _ ← wait_on_las c start_t wft_timeout; mret None
    | inl e => throw {| rue_source := e; rue_complete_resp_chan := c.(rac_resp_chan) |}
    end.

Definition _fetched_page_completion (update : HistoryUpdate) (paginator : HistoryPaginator)
  : RM RunUpdateErr (option FulfillableActivationComplete) :=
  _ ← on_run (set_paginator (Some paginator));
  run ← the_run;
  match run.(mr_completion_waiting_on_page_fetch) with
  | Some d =>
      _ ← on_run (set_completion_waiting_on_page_fetch None);
      _process_completion d (Some update)
  | None =>
      throw (RunUpdateErr_from
        (Fatal "Tried to apply next-page-fetch update to a run that wasn't handling a completion"))
  end.

Definition _local_resolution (res : LocalActivityResolution)
  : RM RunUpdateErr (option FulfillableActivationComplete) :=
  _ ← convert_err RunUpdateErr_from (notify_of_local_result res);
  run ← the_run;
  match (outstanding_local_activity_count run.(mr_wfm) =? 0)%nat, run.(mr_waiting_on_la) with
  | true, Some wait_dat =>
      _ ← on_run (set_waiting_on_la None);
      _ ← emit (EAbort wait_dat.(wola_hb_timeout_handle));
      match wait_dat.(wola_completion_dat) with
      | Some (completion_dat, resp_chan) =>
          f ← prepare_complete_resp resp_chan completion_dat false; mret (Some f)
      | None => mret None
      end
  | _, _ => mret None
  end.

Definition _heartbeat_timeout {E} : RM E bool :=
  run ← the_run;
  match run.(mr_waiting_on_la) with
  | Some wait_dat =>
      _ ← emit (EAbort wait_dat.(wola_hb_timeout_handle));
      match wait_dat.(wola_completion_dat) with
      | Some (completion_dat, resp_chan) =>
          _ ← on_run (set_waiting_on_la (Some
                {| wola_wft_timeout := wait_dat.(wola_wft_timeout);
                   wola_completion_dat := None;
                   wola_hb_timeout_handle := wait_dat.(wola_hb_timeout_handle) |}));
          compl ← prepare_complete_resp resp_chan completion_dat true;
          _ ← fulfill compl;
          mret false
      | None => mret true
      end
  | None => mret false
  end.

(** ** Updates of a run

    The bodies of the functions that call one another, over the functions they
    call. *)
Section bodies.
  Variable incoming_wft : PermittedWFT -> RM Depth RunUpdateAct.
  Variable successful_completion : list WFCommand -> list Z -> VersioningBehavior ->
    option RespChan -> bool -> RM Depth (HistoryPaginator + RunUpdateAct).
  Variable failed_completion : WorkflowTaskFailedCause -> EvictionReason -> completion_Failure ->
    bool -> option RespChan -> RM Depth RunUpdateAct.
  Variable request_eviction : RequestEvictMsg -> RM Depth EvictionRequestResult.
  Variable update_to_acts : RunUpdateErr + ActOrFulfill -> RM Depth RunUpdateAct.
  Variable reply_to_complete : ActivationCompleteOutcome -> option RespChan -> RM Depth unit.

Definition insert_outstanding_activation (act : ActivationOrAuto) : RM Depth unit :=
  let act_type :=
    match act with
    | LangActivation act | ReadyForQueries act =>
        if is_only_eviction act then OA_Eviction
        else if is_legacy_query act then OA_LegacyQuery
        else OA_Normal
    | Autocomplete _ | AutoFail _ _ => OA_Autocomplete
    end in
  run ← the_run;
  match run.(mr_activation) with
  | Some _ => panic "Attempted to insert a new outstanding activation, but there already was one outstanding"
  | None => on_run (set_activation (Some act_type))
  end.

(** [update_to_acts], the activation that goes out. *)
Definition outgoing (maybe_act : option ActivationOrAuto) : RM Depth RunUpdateAct :=
  run ← the_run;
  match maybe_act with
  | Some (LangActivation a) => mret (Some (LangActivation a))
  | Some (ReadyForQueries act) =>
      match run.(mr_wft) with
      | Some wft =>
          let '(act, wft) := put_queries_in_act act wft in
          _ ← on_run (set_wft (Some wft));
          mret (Some (LangActivation act))
      | None => mret None
      end
  | Some (Autocomplete rid) => mret (Some (Autocomplete rid))
  | Some (AutoFail rid e) => mret (Some (AutoFail rid e))
  | None =>
      mret match run.(mr_trying_to_evict) with
           | Some reason =>
               if negb (is_some run.(mr_activation)) && negb (more_pending_work run) then
                 Some (LangActivation (with_history_length
                   (create_evict_activation (run_id_of run) reason.(rem_message)
                      reason.(rem_reason))
                   (i64_as_u32 run.(mr_wfm).(wm_last_processed_event))))
               else None
           | None => None
           end
  end.

(** [update_to_acts], after the activation that goes out was determined. *)
Definition settle (r : RunUpdateAct) : RM Depth RunUpdateAct :=
  run ← the_run;
  let idle := match r with
              | None | Some (Autocomplete _) => negb (has_any_pending_work false true run)
              | _ => false
              end in
  if idle then
    let '(buf, next) := get_next_wft run.(mr_task_buffer) in
    _ ← on_run (set_task_buffer buf);
    match next with
    | Some bufft => incoming_wft bufft
    | None => mret None
    end
  else
    match r with
    | Some a => _ ← insert_outstanding_activation a; mret (Some a)
    | None => mret None
    end.

Definition update_to_acts_body (outcome : RunUpdateErr + ActOrFulfill) : RM Depth RunUpdateAct :=
  match outcome with
  | inr act_or_fulfill =>
      let '(maybe_act, maybe_fulfill) :=
        match act_or_fulfill with
        | OutgoingAct a => (a, None)
        | FulfillableComplete c => (None, c)
        end in
      run ← the_run;
      checked ← (if more_pending_work run && negb (is_some maybe_act)
                 then attempt _check_more_activations else mret (inr maybe_act));
      match checked with
      | inl e => update_to_acts (inl e)
      | inr maybe_act =>
          r ← outgoing maybe_act;
          _ ← match maybe_fulfill with Some f => fulfill f | None => mret tt end;
          settle r
      end
  | inl fail =>
      _ ← on_run (set_am_broken true);
      match fail.(rue_complete_resp_chan) with
      | Some resp_chan =>
          let fail_cause := match fail.(rue_source) with
                            | Nondeterminism _ => FC_NonDeterministicError
                            | Fatal _ => FC_Unspecified
                            end in
          failed_completion fail_cause (evict_reason fail.(rue_source))
            (as_failure fail.(rue_source)) true (Some resp_chan)
      | None =>
          run ← the_run;
          mret (Some (AutoFail (run_id_of run) fail.(rue_source)))
      end
  end.

Definition incoming_wft_body (pwft : PermittedWFT) : RM Depth RunUpdateAct :=
  res ← attempt (_incoming_wft pwft);
  update_to_acts (OutgoingAct <$> res).

Definition check_more_activations_body : RM Depth RunUpdateAct :=
  res ← attempt _check_more_activations;
  update_to_acts (OutgoingAct <$> res).

Definition process_completion_body (completion : RunActivationCompletion)
  : RM Depth RunUpdateAct :=
  res ← attempt (_process_completion completion None);
  update_to_acts (FulfillableComplete <$> res).

(** [reply_to_complete]. *)
Definition completer_missing : string :=
  "The workflow task completer went missing! This likely indicates an SDK bug, please report.".

Definition reply_to_complete_body (outcome : ActivationCompleteOutcome)
    (chan : option RespChan) : RM Depth unit :=
  run ← the_run;
  match chan with
  | Some chan =>
      is_open ← with_trace (fun t => mret (chan_open t chan));
      _ ← emit (EReply chan {| acr_replaying := run.(mr_wfm).(wm_replaying);
                               acr_outcome := outcome |});
      if is_open : bool then mret tt
      else
        _ ← request_eviction {| rem_run_id := run_id_of run;
                                rem_message := completer_missing;
                                rem_reason := ER_Fatal;
                                rem_auto_reply_fail_tt := None |};
        mret tt
  | None => mret tt
  end.

(** [successful_completion], when the run has no workflow task. *)
Definition completion_without_wft (resp_chan : option RespChan)
  : RM Depth (HistoryPaginator + RunUpdateAct) :=
  run ← the_run;
  outcome ← match run.(mr_trying_to_evict) with
            | Some te =>
                match te.(rem_auto_reply_fail_tt) with
                | Some token =>
                    _ ← on_run (set_trying_to_evict (Some
                          {| rem_run_id := te.(rem_run_id); rem_message := te.(rem_message);
                             rem_reason := te.(rem_reason); rem_auto_reply_fail_tt := None |}));
                    mret (ReportWFTFail (Report token FC_Unspecified
                      (completion_Failure_from (application_failure te.(rem_message) true))))
                | None => mret DoNothing
                end
            | None => mret DoNothing
            end;
  _ ← reply_to_complete outcome resp_chan;
  mret (inr None).

Definition paginator_absent : string :=
  "Run's paginator was absent when attempting to fetch next history page. This is a Core SDK bug.".

(** [successful_completion], when the commands are to be applied. *)
Definition completion_with_wft (process_completion : RunActivationCompletion -> RM Depth RunUpdateAct)
    (wft : OutstandingTask) (commands : list WFCommand) (used_flags : list Z)
    (versioning_behavior : VersioningBehavior) (resp_chan : option RespChan)
    (is_forced_failure : bool) : RM Depth (HistoryPaginator + RunUpdateAct) :=
  '(commands, query_responses) ← run_preprocess_command_sequence commands;
  run ← the_run;
  let rac := {| rac_task_token := wft.(ot_info).(wti_task_token);
                rac_start_time := wft.(ot_start_time);
                rac_commands := commands;
                rac_activation_was_eviction := activation_is_eviction run;
                rac_has_pending_query := negb (is_nil wft.(ot_pending_queries));
                rac_query_responses := query_responses;
                rac_used_flags := used_flags;
                rac_is_forced_failure := is_forced_failure;
                rac_resp_chan := resp_chan;
                rac_versioning_behavior := versioning_behavior |} in
  if ready_to_apply_next_wft run.(mr_wfm) then
    acts ← process_completion rac; mret (inr acts)
  else
    match run.(mr_paginator) with
    | Some paginator =>
        _ ← on_run (fun r => set_completion_waiting_on_page_fetch (Some rac) (set_paginator None r));
        mret (inl paginator)
    | None =>
        acts ← update_to_acts (inl {| rue_source := Fatal paginator_absent;
                                      rue_complete_resp_chan := resp_chan |});
        mret (inr acts)
    end.

Definition successful_completion_body
    (process_completion : RunActivationCompletion -> RM Depth RunUpdateAct)
    (commands : list WFCommand) (used_flags : list Z) (versioning_behavior : VersioningBehavior)
    (resp_chan : option RespChan) (is_forced_failure : bool)
  : RM Depth (HistoryPaginator + RunUpdateAct) :=
  run ← the_run;
  match run.(mr_wft) with
  | None => completion_without_wft resp_chan
  | Some wft =>
      match (match commands with
             | [c] => if is_legacy_query_response c then query_result c else None
             | _ => None
             end) with
      | Some qr =>
          _ ← reply_to_complete (ReportWFTSuccess
                {| scwi_task_token := wft.(ot_info).(wti_task_token);
                   scwi_action := RespondLegacyQuery qr |}) resp_chan;
          mret (inr None)
      | None =>
          completion_with_wft process_completion wft commands used_flags versioning_behavior
            resp_chan is_forced_failure
      end
  end.

(** [failed_completion], the eviction of the run. *)
Definition evict_after_failure (is_no_report_query_fail : bool) (message : string)
    (reason : EvictionReason) : RM Depth (bool * RunUpdateAct) :=
  if is_no_report_query_fail then mret (false, None)
  else
    run ← the_run;
    evict_req_outcome ← request_eviction
      {| rem_run_id := run_id_of run; rem_message := message; rem_reason := reason;
         rem_auto_reply_fail_tt := None |};
    mret (match evict_req_outcome with
          | EvictionRequested (Some attempt) _ | EvictionAlreadyRequested (Some attempt) =>
              (attempt <=? 1)%Z
          | _ => false
          end, into_run_update_resp evict_req_outcome).

Definition is_fetch_failure (reason : EvictionReason) : bool :=
  match reason with
  | ER_Unspecified | ER_PaginationOrHistoryFetch => true
  | _ => false
  end.

Definition fail_workflow_command (failure : completion_Failure) : WFCommand :=
  {| wfc_variant := FailWorkflowCmd {| FailWorkflowExecution_failure := failure.(cf_failure) |};
     wfc_metadata := None |}.

Definition fails_workflow (cause : WorkflowTaskFailedCause) (run : ManagedRun) : bool :=
  match cause with
  | FC_NonDeterministicError =>
      should_fail_workflow run.(mr_config) run.(mr_wfm).(wm_workflow_type) WET_Nondeterminism
  | _ => false
  end.

(** [failed_completion], what the completion is answered. *)
Definition report_failure (token : string) (cause : WorkflowTaskFailedCause)
    (failure : completion_Failure) (resp_chan : option RespChan)
    (is_no_report_query_fail should_report : bool) (rur : RunUpdateAct)
  : RM Depth RunUpdateAct :=
  run ← the_run;
  let reply outcome := (_ ← reply_to_complete outcome resp_chan; mret rur) in
  if pending_work_is_legacy_query run then
    if is_no_report_query_fail then reply WFTFailedDontReport
    else reply (ReportWFTFail (ReportLegacyQueryFailure token failure))
  else if should_report then
    if fails_workflow cause run then
      r ← successful_completion [fail_workflow_command failure] [] VB_Unspecified resp_chan true;
      mret match r with inr acts => acts | inl _ => None end
    else reply (ReportWFTFail (Report token cause failure))
  else reply WFTFailedDontReport.

Definition failed_completion_body (cause : WorkflowTaskFailedCause) (reason : EvictionReason)
    (failure : completion_Failure) (is_auto_fail : bool) (resp_chan : option RespChan)
  : RM Depth RunUpdateAct :=
  run ← the_run;
  match run.(mr_wft) with
  | None => _ ← reply_to_complete DoNothing resp_chan; mret None
  | Some wft =>
      let message := "Workflow activation completion failed: " +:+ debug_failure failure in
      let is_no_report_query_fail :=
        pending_work_is_legacy_query run && is_auto_fail && is_fetch_failure reason in
      '(should_report, rur) ← evict_after_failure is_no_report_query_fail message reason;
      report_failure wft.(ot_info).(wti_task_token) cause failure resp_chan
        is_no_report_query_fail should_report rur
  end.

Definition keeps_queries (reason : EvictionReason) : bool :=
  match reason with
  | ER_CacheFull | ER_WorkflowExecutionEnding => true
  | _ => false
  end.

Definition clear_queries (wft : OutstandingTask) : OutstandingTask :=
  {| ot_info := wft.(ot_info); ot_pending_queries := [];
     ot_start_time := wft.(ot_start_time); ot_permit := wft.(ot_permit) |}.

(** [request_eviction], without a completion that waits for the page. *)
Definition store_eviction (check_more_activations : RM Depth RunUpdateAct)
    (info : RequestEvictMsg) (attempts : option Z) : RM Depth EvictionRequestResult :=
  run ← the_run;
  if negb (activation_is_eviction run) && negb (is_some run.(mr_trying_to_evict)) then
    _ ← (if negb (keeps_queries info.(rem_reason)) && negb (pending_work_is_legacy_query run)
         then on_run (fun r => set_wft (clear_queries <$> r.(mr_wft)) r)
         else mret tt);
    _ ← on_run (set_trying_to_evict (Some info));
    acts ← check_more_activations;
    mret (EvictionRequested attempts acts)
  else
    _ ← on_run (set_trying_to_evict (Some info));
    mret (EvictionAlreadyRequested attempts).

Definition request_eviction_body (check_more_activations : RM Depth RunUpdateAct)
    (info : RequestEvictMsg) : RM Depth EvictionRequestResult :=
  run ← the_run;
  let attempts := (fun wt => wt.(ot_info).(wti_attempt)) <$> run.(mr_wft) in
  match run.(mr_completion_waiting_on_page_fetch), info.(rem_reason) with
  | Some c, ER_PaginationOrHistoryFetch =>
      _ ← on_run (set_completion_waiting_on_page_fetch None);
      run_upd ← failed_completion FC_Unspecified info.(rem_reason)
                  (completion_Failure_from (application_failure info.(rem_message) false))
                  true c.(rac_resp_chan);
      mret (EvictionRequested attempts run_upd)
  | _, _ => store_eviction check_more_activations info attempts
  end.

End bodies.

Fixpoint update_to_acts (n : nat) (outcome : RunUpdateErr + ActOrFulfill)
  : RM Depth RunUpdateAct :=
  match n with
  | 0 => throw OutOfFuel
  | S n => update_to_acts_body (incoming_wft n) (failed_completion n) (update_to_acts n) outcome
  end
with incoming_wft (n : nat) (pwft : PermittedWFT) : RM Depth RunUpdateAct :=
  match n with
  | 0 => throw OutOfFuel
  | S n => incoming_wft_body (update_to_acts n) pwft
  end
with failed_completion (n : nat) (cause : WorkflowTaskFailedCause) (reason : EvictionReason)
    (failure : completion_Failure) (is_auto_fail : bool) (resp_chan : option RespChan)
  : RM Depth RunUpdateAct :=
  match n with
  | 0 => throw OutOfFuel
  | S n => failed_completion_body (successful_completion n) (request_eviction n)
             (reply_to_complete n) cause reason failure is_auto_fail resp_chan
  end
with request_eviction (n : nat) (info : RequestEvictMsg) : RM Depth EvictionRequestResult :=
  match n with
  | 0 => throw OutOfFuel
  | S n => request_eviction_body (failed_completion n) (check_more_activations n) info
  end
with check_more_activations (n : nat) : RM Depth RunUpdateAct :=
  match n with
  | 0 => throw OutOfFuel
  | S n => check_more_activations_body (update_to_acts n)
  end
with successful_completion (n : nat) (commands : list WFCommand) (used_flags : list Z)
    (versioning_behavior : VersioningBehavior) (resp_chan : option RespChan)
    (is_forced_failure : bool) : RM Depth (HistoryPaginator + RunUpdateAct) :=
  match n with
  | 0 => throw OutOfFuel
  | S n => successful_completion_body (update_to_acts n) (reply_to_complete n)
             (process_completion n) commands used_flags versioning_behavior resp_chan
             is_forced_failure
  end
with process_completion (n : nat) (completion : RunActivationCompletion)
  : RM Depth RunUpdateAct :=
  match n with
  | 0 => throw OutOfFuel
  | S n => process_completion_body (update_to_acts n) completion
  end
with reply_to_complete (n : nat) (outcome : ActivationCompleteOutcome) (chan : option RespChan)
  : RM Depth unit :=
  match n with
  | 0 => throw OutOfFuel
  | S n => reply_to_complete_body (request_eviction n) outcome chan
  end.

Definition fetched_page_completion (n : nat) (update : HistoryUpdate)
    (paginator : HistoryPaginator) : RM Depth RunUpdateAct :=
  res ← attempt (_fetched_page_completion update paginator);
  update_to_acts n (FulfillableComplete <$> res).

Definition run_local_resolution (n : nat) (res : LocalActivityResolution) : RM Depth RunUpdateAct :=
  res ← attempt (_local_resolution res);
  update_to_acts n (FulfillableComplete <$> res).

Definition heartbeat_timeout (n : nat) : RM Depth RunUpdateAct :=
  autocomplete ← _heartbeat_timeout;
  run ← the_run;
  update_to_acts n (inr (OutgoingAct
    (if autocomplete : bool then Some (Autocomplete (run_id_of run)) else None))).

End managed_run.
