(* ===== verification/ManagedRunFacts.v ===== *)
(** * Facts about managed runs

    The order of the commands given to the machines; the functions of a run
    return; a completion is answered exactly once; one activation at a time;
    what is reported to the server when an activation fails. *)
From Stdlib Require Import ZArith Lia.
From stdpp Require Import base option list strings gmap.
From S2P Require Import Prelude Flags Protos ProtoExt CoreProtos Fsm LocalActs DrivenWorkflow.
From S2P Require Import Machines HistoryUpdate WMState WorkflowMachines WorkflowTasks TimeArith ManagedRun.

(** ** Sequences of commands *)

Definition terminal (c : WFCommand) : Prop := is_terminal c.(wfc_variant) = true.

#[global] Instance terminal_dec c : Decision (terminal c).
Proof. unfold terminal. apply _. Defined.

Definition responds (c : WFCommand) : Prop := is_Some (query_result c).

#[global] Instance responds_dec c : Decision (responds c).
Proof. unfold responds. apply _. Defined.

Definition ordinary (c : WFCommand) : Prop := ~ terminal c /\ ~ responds c.

Lemma responds_not_terminal c : responds c -> ~ terminal c.
Proof.
  unfold responds, terminal, query_result. by destruct (wfc_variant c); intros [].
Qed.

Lemma split_commands_spec l :
  split_commands l = (filter ordinary l, filter terminal l, omap query_result l).
Proof.
  induction l as [|c l IH]; simpl; [done|]. rewrite IH. rewrite !filter_cons.
  destruct (query_result c) as [qr|] eqn:Hq.
  - assert (responds c) as Hr by (by eexists). pose proof (responds_not_terminal c Hr).
    rewrite (decide_False (P := ordinary c)) by (intros []; done).
    by rewrite (decide_False (P := terminal c)).
  - assert (~ responds c) by (unfold responds; rewrite Hq; by intros []).
    destruct (is_terminal (wfc_variant c)) eqn:Ht.
    + rewrite (decide_False (P := ordinary c)) by (intros [Hn _]; by apply Hn).
      by rewrite (decide_True (P := terminal c)).
    + assert (~ terminal c) by (unfold terminal; congruence).
      rewrite (decide_True (P := ordinary c)) by done.
      by rewrite (decide_False (P := terminal c)).
Qed.

(** The commands given to the machines are lang's commands that do not end the
    workflow, in lang's order, followed by the first that does, if any; the
    responses to queries are taken out, in order. *)
Theorem commands_before_the_terminal_one (l : list WFCommand) :
  preprocess_command_sequence l
  = (filter ordinary l ++ take 1 (filter terminal l), omap query_result l).
Proof.
  unfold preprocess_command_sequence. rewrite split_commands_spec.
  by destruct (filter terminal l).
Qed.

Lemma old_behavior_queries seen l : (old_behavior seen l).2 = omap query_result l.
Proof.
  revert seen. induction l as [|c l IH]; intros seen; simpl; [done|].
  destruct (query_result c).
  - specialize (IH seen). destruct (old_behavior seen l). simpl in *. by f_equal.
  - destruct seen; [apply IH|]. specialize (IH (is_terminal (wfc_variant c))).
    by destruct (old_behavior _ l).
Qed.

Lemma old_behavior_after_terminal l : (old_behavior true l).1 = [].
Proof.
  induction l as [|c l IH]; simpl; [done|]. destruct (query_result c); [|done].
  by destruct (old_behavior true l).
Qed.

(** Nothing that the machines should see follows a command that ends the workflow. *)
Fixpoint ends_with_terminal (l : list WFCommand) : Prop :=
  match l with
  | [] => True
  | c :: l => if decide (terminal c) then filter ordinary l = [] else ends_with_terminal l
  end.

Lemma ordinary_cons_app_inj (x y : WFCommand) l1 l2 : x :: l1 = y :: l2 <-> x = y /\ l1 = l2.
Proof. naive_solver. Qed.

Lemma old_behavior_spec l :
  (old_behavior false l).1 = filter ordinary l ++ take 1 (filter terminal l)
  <-> ends_with_terminal l.
Proof.
  induction l as [|c l IH]; simpl; [done|]. rewrite !filter_cons.
  destruct (query_result c) as [qr|] eqn:Hq.
  - assert (responds c) as Hr by (by eexists). pose proof (responds_not_terminal c Hr).
    rewrite !(decide_False (P := terminal c)) by done.
    rewrite (decide_False (P := ordinary c)) by (intros []; done).
    by destruct (old_behavior false l).
  - assert (~ responds c) by (unfold responds; rewrite Hq; by intros []).
    destruct (is_terminal (wfc_variant c)) eqn:Ht.
    + rewrite (decide_False (P := ordinary c)) by (intros [Hn _]; by apply Hn).
      rewrite !(decide_True (P := terminal c)) by done.
      pose proof (old_behavior_after_terminal l) as Ho.
      destruct (old_behavior true l) as [cmds qrs]. simpl in *. subst cmds.
      destruct (filter ordinary l) as [|x xs]; simpl; [done|]. split; [|done].
      intros Heq%(f_equal length). simpl in Heq. rewrite length_app in Heq. simpl in Heq. lia.
    + assert (~ terminal c) by (unfold terminal; congruence).
      rewrite !(decide_False (P := terminal c)) by done.
      rewrite (decide_True (P := ordinary c)) by done.
      destruct (old_behavior false l) as [cmds qrs]. simpl in *.
      rewrite ordinary_cons_app_inj, <-IH. naive_solver.
Qed.

(** The two treatments of lang's commands agree exactly when no command for the
    machines follows one that ends the workflow: histories recorded without the
    [MoveTerminalCommands] flag replay the same wherever the flag would not
    have mattered. *)
Theorem terminal_reordering_agrees (l : list WFCommand) :
  preprocess_command_sequence l = preprocess_command_sequence_old_behavior l
  <-> ends_with_terminal l.
Proof.
  unfold preprocess_command_sequence. rewrite split_commands_spec.
  unfold preprocess_command_sequence_old_behavior.
  replace (match filter terminal l with
           | first_terminal :: _ => [first_terminal]
           | [] => []
           end) with (take 1 (filter terminal l)) by (by destruct (filter terminal l)).
  rewrite <-old_behavior_spec. pose proof (old_behavior_queries false l) as Hq.
  destruct (old_behavior false l) as [cmds qrs]. simpl in *. subst qrs. naive_solver.
Qed.

Section facts.
  Context {X : Externs} {K : Type} {Sm : Type -> Type} `{Countable K} `{SlotMap K Sm}.
  Context {R : RunEnv}.
  Abbreviation Run := (ManagedRun (K := K) (Sm := Sm)).
  Abbreviation State := (Run * list effect)%type.
  Abbreviation RM E := (M State E).
  Implicit Types (s : State) (r : Run) (t : list effect).

(** ** A relation that every step keeps *)
Section within.
  Context (T : State -> State -> Prop) `{!PreOrder T}.

Definition within {E A} (m : RM E A) : Prop := forall s, T s (m s).1.

Lemma within_bind {E A B} (m : RM E A) (f : A -> RM E B) :
  within m -> (forall a, within (f a)) -> within (m ≫= f).
Proof.
  intros Hm Hf s. specialize (Hm s). unfold mbind, M_bind.
  destruct (m s) as [s' [a| |]]; simpl in *; [|done..]. etrans; [done|apply Hf].
Qed.

Lemma within_ret {E A} (a : A) : within (mret a : RM E A).
Proof. intros s. simpl. reflexivity. Qed.

Lemma within_throw {E A} (e : E) : within (throw e : RM E A).
Proof. intros s. simpl. reflexivity. Qed.

Lemma within_panic {E A} msg : within (panic msg : RM E A).
Proof. intros s. simpl. reflexivity. Qed.

Lemma within_lift {E A} (o : outcome E A) : within (lift o : RM E A).
Proof. intros s. simpl. reflexivity. Qed.

Lemma within_the_run {E} : within (the_run : RM E Run).
Proof. intros [r t]. simpl. reflexivity. Qed.

Lemma within_new_handle {E} : within (new_handle : RM E N).
Proof. intros [r t]. simpl. reflexivity. Qed.

Lemma within_convert {E F A} (f : E -> F) (m : RM E A) : within m -> within (convert_err f m).
Proof. intros Hm s. specialize (Hm s). unfold convert_err. by destruct (m s). Qed.

Lemma within_attempt {E F A} (m : RM E A) : within m -> within (attempt m : RM F (E + A)).
Proof. intros Hm s. specialize (Hm s). unfold attempt. by destruct (m s) as [? []]. Qed.

Lemma within_infallible {F A} (m : RM WFMachinesError A) :
  within m -> within (infallible m : RM F A).
Proof. intros Hm s. specialize (Hm s). unfold infallible. by destruct (m s) as [? []]. Qed.

Lemma within_for_each {E A} (f : A -> RM E unit) l :
  (forall a, within (f a)) -> within (for_each f l).
Proof.
  intros Hf. induction l as [|a l IH]; simpl; [apply within_ret|by apply within_bind].
Qed.

Lemma within_trace {E A} (f : list effect -> RM E A) :
  (forall t, within (f t)) -> within (with_trace f).
Proof. intros Hf [r t]. apply Hf. Qed.

End within.

(** Decomposes a call into its steps. *)
Ltac within_step :=
  first
    [ apply within_ret | apply within_throw | apply within_panic | apply within_lift
    | apply within_the_run | apply within_new_handle
    | apply within_convert | apply within_attempt | apply within_infallible
    | (apply within_for_each; intros) | (apply within_trace; intros)
    | (apply within_bind; [| |intros])
    | match goal with |- PreOrder _ => apply _ end
    | case_match ].

(** *** Steps that do not touch the buffered tasks and the eviction *)

Record same_tasks (s s' : State) : Prop := {
  st_buffer : s'.1.(mr_task_buffer) = s.1.(mr_task_buffer);
  st_config : s'.1.(mr_config) = s.1.(mr_config);
  st_evict : s'.1.(mr_trying_to_evict) = s.1.(mr_trying_to_evict);
}.

#[global] Instance same_tasks_preorder : PreOrder same_tasks.
Proof. split; [by split|]. intros s1 s2 s3 [] []. split; congruence. Qed.

Abbreviation calm := (within same_tasks).

Lemma calm_on_run {E} f :
  (forall r, mr_task_buffer (f r) = mr_task_buffer r /\ mr_config (f r) = mr_config r
             /\ mr_trying_to_evict (f r) = mr_trying_to_evict r) ->
  calm (on_run f : RM E unit).
Proof. intros Hf [r t]. destruct (Hf r) as (? & ? & ?). by split. Qed.

Lemma calm_emit {E} e : calm (emit e : RM E unit).
Proof. intros [r t]. by split. Qed.

Lemma calm_now {E} : calm (now : RM E Z).
Proof. intros [r t]. by split. Qed.

Lemma calm_sink {E} reqs : calm (sink_reqs reqs : RM E _).
Proof. intros [r t]. by split. Qed.

Lemma calm_machines {A} (m : M (WorkflowMachines K Sm) WFMachinesError A) :
  calm (on_machines m).
Proof. intros [r t]. unfold on_machines. destruct (m (mr_wfm r)). by split. Qed.

Lemma calm_machines_pure {E A} f : calm (on_machines_pure f : RM E A).
Proof. intros [r t]. unfold on_machines_pure. destruct (f (mr_wfm r)). by split. Qed.

Ltac calm :=
  repeat first
    [ within_step
    | apply calm_emit | apply calm_now | apply calm_sink | apply calm_machines
    | apply calm_machines_pure
    | (apply calm_on_run; by intros) ].

Lemma calm_heartbeat_start {E} rid st d : calm (sink_heartbeat_timeout_start rid st d : RM E N).
Proof. unfold sink_heartbeat_timeout_start. calm. Qed.

Lemma calm_notify res : calm (notify_of_local_result res).
Proof. unfold notify_of_local_result. calm. Qed.

Lemma calm_sink_la reqs : calm (sink_la_requests reqs).
Proof. unfold sink_la_requests. calm. Qed.

Lemma calm_incoming w : calm (_incoming_wft w).
Proof. unfold _incoming_wft, activation_of_wft, wft_without_jobs. calm. Qed.

Lemma calm_check_more : calm _check_more_activations.
Proof. unfold _check_more_activations. calm. Qed.

Lemma calm_report_success {E} d f : calm (report_success d f : RM E _).
Proof. unfold report_success. calm. Qed.

Lemma calm_prepare {E} c d b : calm (prepare_complete_resp c d b : RM E _).
Proof. unfold prepare_complete_resp. calm. Qed.

Lemma calm_fulfill {E} f : calm (fulfill f : RM E unit).
Proof. unfold fulfill. calm. Qed.

Lemma calm_process_completion c u : calm (_process_completion c u).
Proof. unfold _process_completion, apply_completion, wait_on_las. calm. Qed.

Lemma calm_fetched_page u p : calm (_fetched_page_completion u p).
Proof. unfold _fetched_page_completion. calm; apply calm_process_completion. Qed.

Lemma calm_local_resolution res : calm (_local_resolution res).
Proof. unfold _local_resolution. calm. Qed.

Lemma calm_heartbeat {E} : calm (_heartbeat_timeout : RM E bool).
Proof. unfold _heartbeat_timeout. calm; apply calm_fulfill. Qed.

Lemma calm_outgoing a : calm (outgoing a).
Proof. unfold outgoing. calm. Qed.

Lemma calm_insert a : calm (insert_outstanding_activation a).
Proof. unfold insert_outstanding_activation. calm. Qed.

Lemma calm_preprocess {E} cmds : calm (run_preprocess_command_sequence cmds : RM E _).
Proof. unfold run_preprocess_command_sequence. calm. Qed.

(** *** One level of the recursion *)

Lemma update_to_acts_S n o :
  update_to_acts (S n) o
  = update_to_acts_body (incoming_wft n) (failed_completion n) (update_to_acts n) o.
Proof. done. Qed.

Lemma incoming_wft_S n w : incoming_wft (S n) w = incoming_wft_body (update_to_acts n) w.
Proof. done. Qed.

Lemma failed_completion_S n cause reason failure auto chan :
  failed_completion (S n) cause reason failure auto chan
  = failed_completion_body (successful_completion n) (request_eviction n) (reply_to_complete n)
      cause reason failure auto chan.
Proof. done. Qed.

Lemma request_eviction_S n info :
  request_eviction (S n) info
  = request_eviction_body (failed_completion n) (check_more_activations n) info.
Proof. done. Qed.

Lemma check_more_activations_S n :
  check_more_activations (S n) = check_more_activations_body (update_to_acts n).
Proof. done. Qed.

Lemma successful_completion_S n cmds flags vb chan forced :
  successful_completion (S n) cmds flags vb chan forced
  = successful_completion_body (update_to_acts n) (reply_to_complete n) (process_completion n)
      cmds flags vb chan forced.
Proof. done. Qed.

Lemma process_completion_S n c :
  process_completion (S n) c = process_completion_body (update_to_acts n) c.
Proof. done. Qed.

Lemma reply_to_complete_S n out chan :
  reply_to_complete (S n) out chan = reply_to_complete_body (request_eviction n) out chan.
Proof. done. Qed.

#[local] Opaque update_to_acts incoming_wft failed_completion request_eviction
  check_more_activations successful_completion process_completion reply_to_complete.

(** ** The calls return

    The recursion ends: a task taken off the buffer, the completion that waits
    for a page and the first request of an eviction are used up. *)

Definition weight (b : BufferedTasks) : nat :=
  length b.(Buffer.query_only_tasks) + length b.(Buffer.query_only_tasks_for_buffered)
  + match b.(Buffer.wft) with Some _ => 1 | None => 0 end.

Lemma get_next_wft_weight b b' w : get_next_wft b = (b', Some w) -> weight b' < weight b.
Proof.
  unfold get_next_wft, weight. destruct b as [[t|] [|q qs] [|q' qb]]; simpl; intros; simplify_eq/=;
    lia.
Qed.

Lemma get_next_wft_none b b' : get_next_wft b = (b', None) -> b' = b.
Proof.
  unfold get_next_wft. destruct b as [[t|] [|q qs] [|q' qb]]; simpl; intros; by simplify_eq/=.
Qed.

(** The configuration does not ask for nondeterminism to fail the workflow. *)
Definition never_fails_workflow (c : WorkerConfig) : Prop :=
  forall ty, should_fail_workflow c ty WET_Nondeterminism = false.

Definition bounded (b : nat) (s : State) : Prop :=
  weight s.1.(mr_task_buffer) <= b /\ never_fails_workflow s.1.(mr_config).

Definition returns {A} (b : nat) (m : RM Depth A) (s : State) : Prop :=
  wp m (fun _ => bounded b) (fun _ _ => False) (fun _ _ => True) s.

Lemma bounded_calm b s s' : same_tasks s s' -> bounded b s -> bounded b s'.
Proof. intros [Hb Hc] []. unfold bounded. by rewrite Hb, Hc. Qed.

Lemma returns_attempt {E A B} b (m : RM E A) (f : E + A -> RM Depth B) s :
  calm m -> bounded b s -> (forall x s', bounded b s' -> returns b (f x) s') ->
  returns b (attempt m ≫= f) s.
Proof.
  intros Hm Hs Hf. pose proof (bounded_calm b _ _ (Hm s) Hs) as Hb. unfold returns, wp.
  unfold mbind, M_bind, attempt. destruct (m s) as [s' [a|e|msg]]; simpl in *; [..|done];
    by apply Hf.
Qed.

(** A step that does not raise. *)
Definition silent {E A} (m : RM E A) : Prop := forall s e, (m s).2 <> Err e.

Lemma returns_bind {A B} b (m : RM Depth A) (f : A -> RM Depth B) s :
  returns b m s -> (forall a s', bounded b s' -> returns b (f a) s') -> returns b (m ≫= f) s.
Proof. intros Hm Hf. apply wp_bind. eapply wp_mono; [exact Hm|auto..]. Qed.

Lemma returns_calm {A} b (m : RM Depth A) s : calm m -> silent m -> bounded b s -> returns b m s.
Proof.
  intros Hm Hr Hs. pose proof (bounded_calm b _ _ (Hm s) Hs). specialize (Hr s).
  unfold returns, wp. destruct (m s) as [s' []]; simpl in *; [done| |done].
  by eapply Hr.
Qed.

Lemma silent_bind {E A B} (m : RM E A) (f : A -> RM E B) :
  silent m -> (forall a, silent (f a)) -> silent (m ≫= f).
Proof.
  intros Hm Hf s e. specialize (Hm s). unfold mbind, M_bind.
  destruct (m s) as [s' []]; simpl in *; [apply Hf|naive_solver|done].
Qed.

Lemma silent_the_run {E} : silent (the_run : RM E _).
Proof. by intros [r t]. Qed.

Lemma silent_on_run {E} f : silent (on_run f : RM E _).
Proof. by intros [r t]. Qed.

Lemma silent_emit {E} e : silent (emit e : RM E _).
Proof. by intros [r t]. Qed.

Lemma silent_ret {E A} (a : A) : silent (mret a : RM E A).
Proof. done. Qed.

Lemma silent_panic {E A} msg : silent (panic msg : RM E A).
Proof. done. Qed.

Lemma silent_trace {E A} (f : list effect -> RM E A) :
  (forall t, silent (f t)) -> silent (with_trace f).
Proof. intros Hf [r t]. apply Hf. Qed.

Lemma silent_infallible {E A} (m : RM WFMachinesError A) : silent (infallible m : RM E A).
Proof. intros s e. unfold infallible. by destruct (m s) as [? []]. Qed.

Lemma silent_attempt {E F A} (m : RM E A) : silent (attempt m : RM F _).
Proof. intros s e. unfold attempt. by destruct (m s) as [? []]. Qed.

Lemma silent_pure {E A} f : silent (on_machines_pure f : RM E A).
Proof. intros [r t] e. unfold on_machines_pure. by destruct (f (mr_wfm r)). Qed.

Lemma silent_sink {E} reqs : silent (sink_reqs reqs : RM E _).
Proof. by intros [r t]. Qed.

Ltac silent :=
  repeat first
    [ apply silent_infallible | apply silent_pure | apply silent_sink
    | apply silent_the_run | apply silent_on_run | apply silent_emit | apply silent_ret
    | apply silent_panic | (apply silent_trace; intros) | (apply silent_bind; [|intros])
    | case_match ].

Lemma silent_outgoing a : silent (outgoing a).
Proof. unfold outgoing. silent. Qed.

Lemma silent_insert a : silent (insert_outstanding_activation a).
Proof. unfold insert_outstanding_activation. silent. Qed.

Lemma silent_fulfill {E} f : silent (fulfill f : RM E _).
Proof. unfold fulfill. silent. Qed.

Lemma silent_prepare {E} c d b : silent (prepare_complete_resp c d b : RM E _).
Proof. unfold prepare_complete_resp, report_success. silent. Qed.


Lemma instant_add_no_err {E} d x e : instant_add (E := E) d x <> Err e.
Proof. unfold instant_add. by case_match. Qed.

Lemma silent_heartbeat_start {E} rid st d :
  silent (sink_heartbeat_timeout_start rid st d : RM E N).
Proof.
  unfold sink_heartbeat_timeout_start.
  apply silent_bind; [intros s e He; by apply mul_f32_no_err in He|intros].
  apply silent_bind; [intros s e He; by apply instant_add_no_err in He|intros].
  by intros [r t].
Qed.

Lemma silent_wait_on_las {E} c st d : silent (wait_on_las c st d : RM E unit).
Proof.
  unfold wait_on_las. apply silent_bind; [apply silent_the_run|intros].
  apply silent_bind; [silent|intros]. apply silent_bind; [apply silent_heartbeat_start|intros].
  apply silent_on_run.
Qed.

Lemma silent_heartbeat {E} : silent (_heartbeat_timeout : RM E _).
Proof. unfold _heartbeat_timeout. silent; first [apply silent_prepare|apply silent_fulfill]. Qed.

Lemma silent_mark_complete {E} st : silent (mark_wft_complete st : RM E _).
Proof. unfold mark_wft_complete. silent. Qed.

Lemma silent_preprocess {E} cmds : silent (run_preprocess_command_sequence cmds : RM E _).
Proof. unfold run_preprocess_command_sequence. silent. Qed.

(** The errors of the call hold no response channel. *)
Definition chanless {A} (m : RM RunUpdateErr A) : Prop :=
  forall s e, (m s).2 = Err e -> e.(rue_complete_resp_chan) = None.

Lemma chanless_bind {A B} (m : RM RunUpdateErr A) (f : A -> RM RunUpdateErr B) :
  chanless m -> (forall a, chanless (f a)) -> chanless (m ≫= f).
Proof.
  intros Hm Hf s e. specialize (Hm s). unfold mbind, M_bind.
  destruct (m s) as [s' []]; simpl in *; [apply Hf|naive_solver|done].
Qed.

Lemma chanless_convert {A} (m : RM WFMachinesError A) :
  chanless (convert_err RunUpdateErr_from m).
Proof. intros s e. unfold convert_err. destruct (m s) as [s' []]; naive_solver. Qed.

Lemma chanless_throw {A} e : chanless (throw (RunUpdateErr_from e) : RM RunUpdateErr A).
Proof. intros s e' Heq. by simplify_eq/=. Qed.

Lemma chanless_ret {A} (a : A) : chanless (mret a).
Proof. done. Qed.

Lemma chanless_panic {A} msg : chanless (panic msg : RM RunUpdateErr A).
Proof. done. Qed.

Lemma chanless_on_run f : chanless (on_run f).
Proof. by intros [r t]. Qed.

Lemma chanless_the_run : chanless the_run.
Proof. by intros [r t]. Qed.

Lemma chanless_now : chanless now.
Proof. by intros [r t]. Qed.

Lemma chanless_emit e : chanless (emit e).
Proof. by intros [r t]. Qed.

Lemma chanless_pure {A} f : chanless (on_machines_pure f : RM RunUpdateErr A).
Proof. intros [r t]. unfold on_machines_pure. by destruct (f (mr_wfm r)). Qed.

Lemma silent_chanless {A} (m : RM RunUpdateErr A) : silent m -> chanless m.
Proof. intros Hm s e He. by apply Hm in He. Qed.

Ltac chanless :=
  repeat first
    [ apply chanless_ret | apply chanless_panic | apply chanless_on_run | apply chanless_the_run
    | apply chanless_now | apply chanless_emit | apply chanless_pure | apply chanless_convert
    | apply chanless_throw | apply silent_chanless, silent_heartbeat_start
    | (apply chanless_bind; [|intros]) | case_match ].

Lemma incoming_chanless w : chanless (_incoming_wft w).
Proof. unfold _incoming_wft, activation_of_wft, wft_without_jobs. chanless. Qed.

Lemma check_more_chanless : chanless _check_more_activations.
Proof. unfold _check_more_activations. chanless. Qed.

Definition no_chan {A} (o : RunUpdateErr + A) : Prop :=
  match o with inl e => e.(rue_complete_resp_chan) = None | inr _ => True end.

Lemma returns_chanless {A B} b (m : RM RunUpdateErr A) (f : RunUpdateErr + A -> RM Depth B) s :
  calm m -> chanless m -> bounded b s ->
  (forall x s', no_chan x -> bounded b s' -> returns b (f x) s') ->
  returns b (attempt m ≫= f) s.
Proof.
  intros Hm Hc Hs Hf. pose proof (bounded_calm b _ _ (Hm s) Hs) as Hb. specialize (Hc s).
  unfold returns, wp, mbind, M_bind, attempt.
  destruct (m s) as [s' [a|e|msg]]; simpl in *; [..|done]; apply Hf; simpl; auto.
Qed.

(** *** From the innermost calls outwards *)

Lemma returns_the_run {B} b (f : Run -> RM Depth B) s :
  bounded b s -> returns b (f s.1) s -> returns b (the_run ≫= f) s.
Proof. by destruct s. Qed.

Lemma returns_on_run {B} b g (f : unit -> RM Depth B) s :
  returns b (f tt) (g s.1, s.2) -> returns b (on_run g ≫= f) s.
Proof. by destruct s. Qed.

Lemma settle_returns b n act s :
  (forall w s', weight s'.1.(mr_task_buffer) < b -> never_fails_workflow s'.1.(mr_config) ->
     returns b (incoming_wft n w) s') ->
  bounded b s -> returns b (settle (incoming_wft n) act) s.
Proof.
  intros Hin Hs. unfold settle. apply returns_the_run; [done|].
  destruct (match act with None | Some (Autocomplete _) => _ | _ => _ end).
  - destruct (get_next_wft _) as [buf [w|]] eqn:Hn; apply returns_on_run.
    + apply get_next_wft_weight in Hn. destruct Hs. apply Hin; simpl; [lia|done].
    + apply get_next_wft_none in Hn as ->. destruct Hs. by split.
  - destruct act; [|done]. apply returns_bind; [|done].
    apply returns_calm; [apply calm_insert|apply silent_insert|done].
Qed.

Lemma update_none_returns n e s b :
  bounded b s -> e.(rue_complete_resp_chan) = None -> returns b (update_to_acts (S n) (inl e)) s.
Proof.
  intros Hs He. rewrite update_to_acts_S. apply returns_on_run. rewrite He. apply returns_the_run; by destruct s.
Qed.

Lemma update_returns b n o s :
  no_chan o -> bounded b s -> 2 * b + 2 <= n -> returns b (update_to_acts n o) s.
Proof.
  revert n o s. induction b as [b IH] using lt_wf_ind. intros n o s Ho Hs Hn.
  destruct n as [|n]; [lia|]. destruct o as [e|o]; [by apply update_none_returns|].
  rewrite update_to_acts_S. unfold update_to_acts_body.
  destruct (match o with OutgoingAct a => _ | FulfillableComplete c => _ end) as [act ful].
  apply returns_the_run; [done|].
  assert (forall x s', no_chan x -> bounded b s' ->
    returns b match x with
              | inl e => update_to_acts n (inl e)
              | inr a => r ← outgoing a;
                  _ ← match ful with Some f => fulfill f | None => mret tt end;
                  settle (incoming_wft n) r
              end s') as Hrest.
  { intros [e|a] s' Hx Hs'; [destruct n as [|n]; [lia|]; by apply update_none_returns|].
    apply returns_bind; [apply returns_calm; [apply calm_outgoing|apply silent_outgoing|done]|].
    intros r s2 Hs2. apply returns_bind.
    { destruct ful; [|done].
      apply returns_calm; [apply calm_fulfill|apply silent_fulfill|done]. }
    intros _ s3 Hs3. apply settle_returns; [|done]. intros w s4 Hw Hc.
    destruct n as [|n]; [lia|]. rewrite incoming_wft_S. unfold incoming_wft_body.
    set (b' := weight (mr_task_buffer s4.1)) in *.
    assert (returns b' (attempt (_incoming_wft w) ≫= fun res => update_to_acts n (OutgoingAct <$> res)) s4)
      as Hr; [|eapply wp_mono; [exact Hr|intros ?? []; split; [lia|done]|auto..]].
    apply returns_chanless; [apply calm_incoming|apply incoming_chanless|done|].
    intros x5 s5 Hx5 Hs5. apply IH; [lia|by destruct x5|done|lia]. }
  destruct (more_pending_work s.1 && negb (is_some act)).
  - apply returns_chanless; [apply calm_check_more|apply check_more_chanless|done|done].
  - by apply (Hrest (inr act)).
Qed.

Lemma check_more_returns b n s :
  bounded b s -> 2 * b + 3 <= n -> returns b (check_more_activations n) s.
Proof.
  intros Hs Hn. destruct n as [|n]; [lia|]. rewrite check_more_activations_S.
  apply returns_chanless; [apply calm_check_more|apply check_more_chanless|done|].
  intros x s' Hx Hs'. apply update_returns; [by destruct x|done|lia].
Qed.

Lemma incoming_returns b n w s :
  bounded b s -> 2 * b + 3 <= n -> returns b (incoming_wft n w) s.
Proof.
  intros Hs Hn. destruct n as [|n]; [lia|]. rewrite incoming_wft_S.
  apply returns_chanless; [apply calm_incoming|apply incoming_chanless|done|].
  intros x s' Hx Hs'. apply update_returns; [by destruct x|done|lia].
Qed.

Lemma store_eviction_returns b n info att s :
  bounded b s -> 2 * b + 3 <= n ->
  returns b (store_eviction (check_more_activations n) info att) s.
Proof.
  intros Hs Hn. unfold store_eviction. apply returns_the_run; [done|]. case_match.
  - apply returns_bind; [case_match; [by destruct s|done]|]. intros _ s1 Hs1.
    apply returns_on_run. apply returns_bind; [|done].
    apply check_more_returns; [by destruct s1|done].
  - by apply returns_on_run.
Qed.

(** An eviction that is not about a page that a completion waits for. *)
Lemma evict_plain_returns b n info s :
  s.1.(mr_completion_waiting_on_page_fetch) = None
    \/ info.(rem_reason) <> ER_PaginationOrHistoryFetch ->
  bounded b s -> 2 * b + 4 <= n -> returns b (request_eviction n info) s.
Proof.
  intros Hp Hs Hn. destruct n as [|n]; [lia|]. rewrite request_eviction_S. unfold request_eviction_body.
  apply returns_the_run; [done|]. repeat case_match;
    try (apply store_eviction_returns; [done|lia]).
  naive_solver.
Qed.

Lemma reply_returns b n out chan s :
  bounded b s -> 2 * b + 5 <= n -> returns b (reply_to_complete n out chan) s.
Proof.
  intros Hs Hn. destruct n as [|n]; [lia|]. rewrite reply_to_complete_S. unfold reply_to_complete_body.
  apply returns_the_run; [done|]. destruct chan as [chan|]; [|done].
  apply returns_bind; [by destruct s|]. intros op s1 Hs1.
  apply returns_bind; [by destruct s1|]. intros _ s2 Hs2. destruct op; [done|].
  apply returns_bind; [|done]. apply evict_plain_returns; [by right|done|lia].
Qed.

Lemma report_failure_returns b n token cause failure chan nr rep rur s :
  bounded b s -> 2 * b + 5 <= n ->
  returns b (report_failure (successful_completion n) (reply_to_complete n) token cause failure
               chan nr rep rur) s.
Proof.
  intros Hs Hn. unfold report_failure. apply returns_the_run; [done|].
  assert (fails_workflow cause s.1 = false) as ->.
  { destruct Hs as [_ Hc]. unfold fails_workflow. destruct cause; (done || apply Hc). }
  repeat case_match; (apply returns_bind; [by apply reply_returns|done]).
Qed.

(** Failing a completion, over what is known of the eviction. *)
Lemma failed_returns_from b n cause reason failure auto chan s :
  (forall info s', info.(rem_reason) = reason ->
     s'.1.(mr_completion_waiting_on_page_fetch) = s.1.(mr_completion_waiting_on_page_fetch) ->
     bounded b s' -> returns b (request_eviction n info) s') ->
  bounded b s -> 2 * b + 5 <= n ->
  returns b (failed_completion (S n) cause reason failure auto chan) s.
Proof.
  intros Hev Hs Hn. rewrite failed_completion_S. unfold failed_completion_body.
  apply returns_the_run; [done|]. destruct (mr_wft s.1) as [wft|].
  2: { apply returns_bind; [by apply reply_returns|done]. }
  apply returns_bind.
  { unfold evict_after_failure. case_match; [done|]. apply returns_the_run; [done|].
    apply returns_bind; [by apply Hev|done]. }
  intros [report rur] s1 Hs1. by apply report_failure_returns.
Qed.

Lemma failed_plain_returns b n cause reason failure auto chan s :
  s.1.(mr_completion_waiting_on_page_fetch) = None ->
  bounded b s -> 2 * b + 6 <= n ->
  returns b (failed_completion n cause reason failure auto chan) s.
Proof.
  intros Hw Hs Hn. destruct n as [|n]; [lia|]. apply failed_returns_from; [|done|lia].
  intros info s' Hi Hw' Hs'. apply evict_plain_returns; [left; congruence|done|lia].
Qed.

Lemma evict_returns b n info s :
  bounded b s -> 2 * b + 7 <= n -> returns b (request_eviction n info) s.
Proof.
  intros Hs Hn. destruct (mr_completion_waiting_on_page_fetch s.1) as [c|] eqn:Hw;
    [|apply evict_plain_returns; [by left|done|lia]].
  destruct (decide (rem_reason info = ER_PaginationOrHistoryFetch)) as [Hr|];
    [|apply evict_plain_returns; [by right|done|lia]].
  destruct n as [|n]; [lia|]. rewrite request_eviction_S. unfold request_eviction_body.
  apply returns_the_run; [done|]. rewrite Hw, Hr. apply returns_on_run.
  apply returns_bind; [|done]. apply failed_plain_returns; [done|by destruct s|lia].
Qed.

Lemma failed_returns b n cause reason failure auto chan s :
  bounded b s -> 2 * b + 8 <= n ->
  returns b (failed_completion n cause reason failure auto chan) s.
Proof.
  intros Hs Hn. destruct n as [|n]; [lia|]. apply failed_returns_from; [|done|lia].
  intros info s' _ _ Hs'. apply evict_returns; [done|lia].
Qed.

Lemma update_any_returns b n o s :
  bounded b s -> 2 * b + 9 <= n -> returns b (update_to_acts n o) s.
Proof.
  intros Hs Hn. destruct o as [e|o]; [|apply update_returns; [done..|lia]].
  destruct (rue_complete_resp_chan e) eqn:He; [|apply update_returns; [done..|lia]].
  destruct n as [|n]; [lia|]. rewrite update_to_acts_S. unfold update_to_acts_body.
  apply returns_on_run. rewrite He. apply failed_returns; [by destruct s|lia].
Qed.

Lemma process_returns b n c s :
  bounded b s -> 2 * b + 10 <= n -> returns b (process_completion n c) s.
Proof.
  intros Hs Hn. destruct n as [|n]; [lia|]. rewrite process_completion_S.
  apply returns_attempt; [apply calm_process_completion|done|].
  intros x s' Hs'. apply update_any_returns; [done|lia].
Qed.

Lemma successful_returns b n cmds flags vb chan forced s :
  bounded b s -> 2 * b + 11 <= n ->
  returns b (successful_completion n cmds flags vb chan forced) s.
Proof.
  intros Hs Hn. destruct n as [|n]; [lia|]. rewrite successful_completion_S.
  unfold successful_completion_body. apply returns_the_run; [done|].
  assert (forall out s', bounded b s' -> returns b (reply_to_complete n out chan) s') as Hr.
  { intros. apply reply_returns; [done|lia]. }
  destruct (mr_wft s.1) as [wft|].
  2: { unfold completion_without_wft. apply returns_the_run; [done|].
       apply returns_bind; [repeat case_match; by destruct s|]. intros out s1 Hs1.
       apply returns_bind; [by apply Hr|done]. }
  match goal with |- returns _ (match ?x with Some _ => _ | None => _ end) _ => destruct x end;
    [by apply returns_bind; [apply Hr|]|].
  unfold completion_with_wft. apply returns_bind.
  { apply returns_calm; [apply calm_preprocess|apply silent_preprocess|done]. }
  intros [cmds' qrs] s1 Hs1. apply returns_the_run; [done|]. repeat case_match.
  - apply returns_bind; [apply process_returns; [done|lia]|done].
  - by apply returns_on_run.
  - apply returns_bind; [apply update_any_returns; [done|lia]|done].
Qed.

(** ** The calls that the cache and the stream of inputs make *)

Inductive run_input :=
| RI_IncomingWft (w : PermittedWFT)
| RI_Successful (commands : list WFCommand) (used_flags : list Z) (vb : VersioningBehavior)
    (chan : option RespChan)
| RI_Failed (cause : WorkflowTaskFailedCause) (reason : EvictionReason)
    (failure : completion_Failure) (is_auto_fail : bool) (chan : option RespChan)
| RI_FetchedPage (update : HistoryUpdate) (paginator : HistoryPaginator)
| RI_LocalResolution (res : LocalActivityResolution)
| RI_Heartbeat
| RI_Evict (info : RequestEvictMsg)
| RI_CheckMore
| RI_MarkComplete (status : WFTReportStatus)
| RI_Finish (pred : OutstandingActivation -> bool)
| RI_Buffer (w : PermittedWFT).

(** The activation that the call gives, if any. *)
Definition run_step (n : nat) (i : run_input) : RM Depth RunUpdateAct :=
  match i with
  | RI_IncomingWft w => incoming_wft n w
  | RI_Successful cmds flags vb chan =>
      res ← successful_completion n cmds flags vb chan false;
      mret match res with inr acts => acts | inl _ => None end
  | RI_Failed cause reason failure auto chan => failed_completion n cause reason failure auto chan
  | RI_FetchedPage u p => fetched_page_completion n u p
  | RI_LocalResolution res => run_local_resolution n res
  | RI_Heartbeat => heartbeat_timeout n
  | RI_Evict info => res ← request_eviction n info; mret (into_run_update_resp res)
  | RI_CheckMore => check_more_activations n
  | RI_MarkComplete status => _ ← mark_wft_complete status; mret None
  | RI_Finish pred => _ ← on_run (fun r => (finish_activation pred r).1); mret None
  | RI_Buffer w => _ ← on_run (fun r => (buffer_wft_if_outstanding_work w r).1); mret None
  end.

Lemma returns_not_out {A} b (m : RM Depth A) s : returns b m s -> (m s).2 <> Err OutOfFuel.
Proof. unfold returns, wp. by destruct (m s) as [s' []]. Qed.


(** ** Response channels

    Lang's call to complete an activation waits on a response channel.  The
    channel is with the run while local activities or a page of history hold up
    the completion. *)

Definition waiting_chan (r : Run) : option RespChan :=
  w ← r.(mr_waiting_on_la); d ← w.(wola_completion_dat); d.2.

Definition page_chan (r : Run) : option RespChan :=
  c ← r.(mr_completion_waiting_on_page_fetch); c.(rac_resp_chan).

Definition held (r : Run) : list RespChan :=
  option_list (waiting_chan r) ++ option_list (page_chan r).

Definition replied (t : list effect) : list RespChan :=
  omap (fun e => match e with EReply c _ => Some c | _ => None end) t.

(** The channels answered meanwhile and those held after are those given and
    those held before. *)
Definition accounts (given : list RespChan) (s s' : State) : Prop :=
  exists answered, replied s'.2 = answered ++ replied s.2
    /\ answered ++ held s'.1 ≡ₚ given ++ held s.1.

(** At most one completion is held up. *)
Definition single (r : Run) : Prop :=
  is_Some r.(mr_completion_waiting_on_page_fetch) -> waiting_chan r = None.

Definition idle (r : Run) : Prop :=
  r.(mr_completion_waiting_on_page_fetch) = None /\ waiting_chan r = None.

Lemma accounts_refl s : accounts [] s s.
Proof. by exists []. Qed.

Lemma accounts_trans g1 g2 s1 s2 s3 :
  accounts g1 s1 s2 -> accounts g2 s2 s3 -> accounts (g1 ++ g2) s1 s3.
Proof.
  intros (n1 & Hr1 & Hh1) (n2 & Hr2 & Hh2). exists (n2 ++ n1). split.
  - by rewrite Hr2, Hr1, app_assoc.
  - rewrite <-app_assoc, (Permutation_app_comm n1), app_assoc, Hh2, <-app_assoc.
    rewrite (Permutation_app_comm (held s2.1)), Hh1, app_assoc.
    by rewrite (Permutation_app_comm g2 g1).
Qed.

(** What waits and what was answered does not change. *)
Record same_chans (s s' : State) : Prop := {
  sc_activation : s'.1.(mr_activation) = s.1.(mr_activation);
  sc_waiting : s'.1.(mr_waiting_on_la) = s.1.(mr_waiting_on_la);
  sc_page : s'.1.(mr_completion_waiting_on_page_fetch)
            = s.1.(mr_completion_waiting_on_page_fetch);
  sc_replied : replied s'.2 = replied s.2;
}.

#[global] Instance same_chans_preorder : PreOrder same_chans.
Proof. split; [by split|]. intros s1 s2 s3 [] []. split; congruence. Qed.

Lemma same_chans_held s s' : same_chans s s' -> held s'.1 = held s.1.
Proof. intros [_ Hw Hp _]. unfold held, waiting_chan, page_chan. by rewrite Hw, Hp. Qed.

Lemma same_chans_accounts s s' : same_chans s s' -> accounts [] s s'.
Proof.
  intros Hs. exists []. split; [apply Hs|]. by rewrite (same_chans_held _ _ Hs).
Qed.

Lemma same_chans_idle s s' : same_chans s s' -> idle s.1 -> idle s'.1.
Proof. intros [_ Hw Hp _] []. split; [congruence|]. unfold waiting_chan in *. by rewrite Hw. Qed.

Lemma same_chans_single s s' : same_chans s s' -> single s.1 -> single s'.1.
Proof. intros [_ Hw Hp _] Hs. unfold single, waiting_chan in *. by rewrite Hw, Hp. Qed.

Lemma idle_single r : idle r -> single r.
Proof. intros [Hp Hw] _. done. Qed.

Lemma idle_held r : idle r -> held r = [].
Proof. intros [Hp Hw]. unfold held, page_chan. by rewrite Hp, Hw. Qed.

Abbreviation level := (within same_chans).

Lemma level_on_run {E} f :
  (forall r, mr_activation (f r) = mr_activation r
     /\ mr_waiting_on_la (f r) = mr_waiting_on_la r
     /\ mr_completion_waiting_on_page_fetch (f r) = mr_completion_waiting_on_page_fetch r) ->
  level (on_run f : RM E unit).
Proof. intros Hf [r t]. destruct (Hf r) as (?&?&?). by split. Qed.

Definition not_reply (e : effect) : Prop := match e with EReply _ _ => False | _ => True end.

Lemma level_emit {E} e : not_reply e -> level (emit e : RM E unit).
Proof. intros He [r t]. by destruct e. Qed.

Lemma level_sink {E} reqs : level (sink_reqs reqs : RM E _).
Proof. intros [r t]. by split. Qed.

Lemma level_machines {A} (m : M (WorkflowMachines K Sm) WFMachinesError A) : level (on_machines m).
Proof. intros [r t]. unfold on_machines. destruct (m (mr_wfm r)). by split. Qed.

Lemma level_machines_pure {E A} f : level (on_machines_pure f : RM E A).
Proof. intros [r t]. unfold on_machines_pure. destruct (f (mr_wfm r)). by split. Qed.

Ltac level :=
  repeat first
    [ within_step | (apply level_emit; done) | apply level_sink | apply level_machines
    | apply level_machines_pure | (apply level_on_run; by intros) ].

Lemma level_apply c u : level (apply_completion c u).
Proof. unfold apply_completion, sink_la_requests. level. Qed.

Lemma level_notify res : level (notify_of_local_result res).
Proof. unfold notify_of_local_result. level. Qed.

Lemma level_prepare {E} c d b : level (prepare_complete_resp c d b : RM E _).
Proof. unfold prepare_complete_resp, report_success. level. Qed.

Lemma level_preprocess {E} cmds : level (run_preprocess_command_sequence cmds : RM E _).
Proof. unfold run_preprocess_command_sequence. level. Qed.

Lemma level_heartbeat_start {E} rid st d : level (sink_heartbeat_timeout_start rid st d : RM E N).
Proof. unfold sink_heartbeat_timeout_start. level. Qed.

(** *** Calls while lang has an activation *)

(** What is known when the call returns. *)
Definition ends {E A} (m : RM E A) (Q : A -> State -> Prop) (s : State) : Prop :=
  wp m Q (fun _ _ => True) (fun _ _ => True) s.

Lemma ends_bind {E A B} (m : RM E A) (f : A -> RM E B) Q s :
  ends m (fun a => ends (f a) Q) s -> ends (m ≫= f) Q s.
Proof. apply wp_bind. Qed.

Lemma ends_mono {E A} (m : RM E A) (Q Q' : A -> State -> Prop) s :
  ends m Q s -> (forall a s', Q a s' -> Q' a s') -> ends m Q' s.
Proof. intros Hm HQ. eapply wp_mono; [exact Hm|auto..]. Qed.

Lemma ends_level {E A} (m : RM E A) s : level m -> ends m (fun _ => same_chans s) s.
Proof. intros Hm. specialize (Hm s). unfold ends, wp. by destruct (m s) as [s' []]. Qed.

Lemma wp_the_run {E B} (f : Run -> RM E B) Q Er Pa s :
  wp (f s.1) Q Er Pa s -> wp (the_run ≫= f) Q Er Pa s.
Proof. by destruct s. Qed.

Lemma wp_on_run {E B} g (f : unit -> RM E B) Q Er Pa s :
  wp (f tt) Q Er Pa (g s.1, s.2) -> wp (on_run g ≫= f) Q Er Pa s.
Proof. by destruct s. Qed.

Lemma wp_emit {E B} e (f : unit -> RM E B) Q Er Pa s :
  wp (f tt) Q Er Pa (s.1, e :: s.2) -> wp (emit e ≫= f) Q Er Pa s.
Proof. by destruct s. Qed.

Lemma ends_the_run {E B} (f : Run -> RM E B) Q s : ends (f s.1) Q s -> ends (the_run ≫= f) Q s.
Proof. apply wp_the_run. Qed.

Lemma ends_on_run {E B} g (f : unit -> RM E B) Q s :
  ends (f tt) Q (g s.1, s.2) -> ends (on_run g ≫= f) Q s.
Proof. apply wp_on_run. Qed.

Lemma ends_emit {E B} e (f : unit -> RM E B) Q s :
  ends (f tt) Q (s.1, e :: s.2) -> ends (emit e ≫= f) Q s.
Proof. apply wp_emit. Qed.

Lemma ends_attempt {E F A} (m : RM E A) (Q : E + A -> State -> Prop) s :
  wp m (fun a => Q (inr a)) (fun e => Q (inl e)) (fun _ _ => True) s ->
  ends (attempt m : RM F (E + A)) Q s.
Proof. unfold ends, wp, attempt. by destruct (m s) as [s' []]. Qed.

Lemma prepare_chan {E} c d b s :
  ends (prepare_complete_resp c d b : RM E _)
    (fun f s' => same_chans s s' /\ f.(fac_resp_chan) = c) s.
Proof.
  pose proof (level_prepare (E := E) c d b s) as Hl. unfold ends, wp.
  destruct (prepare_complete_resp c d b s) as [s' [f| |]] eqn:Hp; [|done..].
  split; [done|]. unfold prepare_complete_resp in Hp. unfold the_run in Hp at 1. destruct s as [r t].
  repeat (apply bind_Ok_inv in Hp as (? & ? & _ & Hp)). unfold mret, M_ret in Hp. by simplify_eq.
Qed.

(** No activation is given out, but for the order to fail the task. *)
Definition no_activation (act : RunUpdateAct) : Prop :=
  match act with None | Some (AutoFail _ _) => True | _ => False end.

(** The outcome of a call that was given channels, while lang has activation [a]. *)
Definition answers (a : OutstandingActivation) (given : list RespChan) (s : State)
    (act : RunUpdateAct) (s' : State) : Prop :=
  s'.1.(mr_activation) = Some a /\ accounts given s s' /\ single s'.1 /\ no_activation act.

Lemma check_more_busy a s :
  s.1.(mr_activation) = Some a -> _check_more_activations s = (s, Ok None).
Proof.
  intros Ha. unfold _check_more_activations. destruct s as [r t].
  unfold mbind, M_bind. simpl in *. by rewrite Ha.
Qed.

Lemma outgoing_busy a s : s.1.(mr_activation) = Some a -> outgoing None s = (s, Ok None).
Proof.
  intros Ha. unfold outgoing. destruct s as [r t]. unfold mbind, M_bind. simpl in *.
  rewrite Ha. by destruct (mr_trying_to_evict r).
Qed.

Lemma settle_busy a f s : s.1.(mr_activation) = Some a -> settle f None s = (s, Ok None).
Proof.
  intros Ha. unfold settle, has_any_pending_work. destruct s as [r t]. unfold mbind, M_bind.
  simpl in *. rewrite Ha. simpl. by rewrite !orb_true_r.
Qed.

Definition no_act (o : ActOrFulfill) : Prop :=
  match o with OutgoingAct (Some _) => False | _ => True end.

Definition fulfillable (o : ActOrFulfill) : option FulfillableActivationComplete :=
  match o with OutgoingAct _ => None | FulfillableComplete c => c end.

(** An update without an activation of its own, while lang has one. *)
Lemma update_busy n a o s :
  s.1.(mr_activation) = Some a -> no_act o ->
  update_to_acts (S n) (inr o) s
  = (match fulfillable o with Some f => fulfill f | None => mret tt end ≫= fun _ => mret None) s.
Proof.
  intros Ha Ho. rewrite update_to_acts_S. unfold update_to_acts_body.
  replace (match o with OutgoingAct x => (x, None) | FulfillableComplete c => (None, c) end)
    with (None : option ActivationOrAuto, fulfillable o) by (by destruct o as [[]|]).
  transitivity ((r ← outgoing None;
                 _ ← match fulfillable o with Some f => fulfill f | None => mret tt end;
                 settle (incoming_wft n) r) s).
  - destruct s as [r t]. unfold the_run. unfold mbind at 1, M_bind at 1.
    destruct (more_pending_work r && _); [|done].
    unfold mbind at 1, M_bind at 1, attempt. by rewrite (check_more_busy a).
  - unfold mbind at 1, M_bind at 1. rewrite (outgoing_busy a) by done.
    apply M_bind_ext. intros [] s' Hf. rewrite (settle_busy a); [done|].
    assert (s'.1.(mr_activation) = s.1.(mr_activation)) as ->; [|done].
    destruct (fulfillable o) as [f|]; [|unfold mret, M_ret in Hf; by simplify_eq].
    unfold fulfill, emit, mret, M_ret in Hf. destruct s as [r t], (fac_resp_chan f); by simplify_eq/=.
Qed.

Lemma update_busy_answers n a o s :
  s.1.(mr_activation) = Some a -> single s.1 -> no_act o ->
  ends (update_to_acts (S n) (inr o))
    (answers a (option_list (f ← fulfillable o; f.(fac_resp_chan))) s) s.
Proof.
  intros Ha Hs Ho. unfold ends, wp. rewrite (update_busy n a) by done.
  destruct s as [r t], (fulfillable o) as [f|]; simpl; [|split_and!; [done|apply accounts_refl|done..]].
  unfold mbind, M_bind, fulfill. destruct (fac_resp_chan f) as [c|]; simpl.
  - split_and!; [done|exists [c]; by split|done..].
  - split_and!; [done|apply accounts_refl|done..].
Qed.

(** Calls that leave what waits as it is. *)
Definition stays (given : list RespChan) (s s' : State) : Prop :=
  s'.1.(mr_activation) = s.1.(mr_activation)
  /\ s'.1.(mr_waiting_on_la) = s.1.(mr_waiting_on_la)
  /\ s'.1.(mr_completion_waiting_on_page_fetch) = s.1.(mr_completion_waiting_on_page_fetch)
  /\ replied s'.2 = given ++ replied s.2.

Lemma stays_same s s' : stays [] s s' <-> same_chans s s'.
Proof. split; [intros (?&?&?&?); by split|intros []; by split_and!]. Qed.

Lemma stays_accounts g s s' : stays g s s' -> accounts g s s'.
Proof.
  intros (_ & Hw & Hp & Hr). exists g. split; [done|].
  unfold held, waiting_chan, page_chan. by rewrite Hw, Hp.
Qed.

Lemma stays_trans g g' s1 s2 s3 : stays g s1 s2 -> stays g' s2 s3 -> stays (g' ++ g) s1 s3.
Proof.
  intros (Ha & Hw & Hp & Hr) (Ha' & Hw' & Hp' & Hr'). unfold stays.
  rewrite Ha', Hw', Hp', Hr', Hr, app_assoc. done.
Qed.

Lemma check_more_stays n a s :
  s.1.(mr_activation) = Some a ->
  ends (check_more_activations n) (fun act s' => s' = s /\ act = None) s.
Proof.
  intros Ha. destruct n as [|[|n]]; [done|..]; rewrite check_more_activations_S;
    unfold check_more_activations_body, ends, wp, mbind, M_bind, attempt;
    rewrite (check_more_busy a) by done; [done|].
  unfold sum_fmap; simpl. by rewrite (update_busy n a).
Qed.

Lemma evict_plain_stays n a info s :
  s.1.(mr_activation) = Some a ->
  s.1.(mr_completion_waiting_on_page_fetch) = None
    \/ info.(rem_reason) <> ER_PaginationOrHistoryFetch ->
  ends (request_eviction n info)
    (fun res s' => stays [] s s' /\ into_run_update_resp res = None) s.
Proof.
  intros Ha Hp. destruct n as [|n]; [done|]. rewrite request_eviction_S. unfold request_eviction_body.
  apply ends_the_run.
  assert (forall att, ends (store_eviction (check_more_activations n) info att)
    (fun res s' => stays [] s s' /\ into_run_update_resp res = None) s) as Hst.
  { intros att. unfold store_eviction. apply ends_the_run. destruct (negb _ && negb _).
    - apply ends_bind. eapply ends_mono; [apply ends_level; case_match; level|].
      intros ? s1 H1. apply ends_on_run. apply ends_bind.
      eapply ends_mono; [apply (check_more_stays _ a); simpl; by rewrite (sc_activation _ _ H1)|].
      intros act s2 [-> ->]. split; [|done]. apply stays_same. destruct H1. by split.
    - apply ends_on_run. split; [|done]. by apply stays_same. }
  repeat case_match; try apply Hst. naive_solver.
Qed.

Lemma reply_stays n a out chan s :
  s.1.(mr_activation) = Some a ->
  ends (reply_to_complete n out chan) (fun _ => stays (option_list chan) s) s.
Proof.
  intros Ha. destruct n as [|n]; [done|]. rewrite reply_to_complete_S. unfold reply_to_complete_body.
  apply ends_the_run. destruct chan as [chan|]; [|by apply stays_same].
  apply ends_bind. eapply ends_mono; [apply ends_level; level|]. intros op s1 H1.
  apply ends_emit. destruct op.
  - destruct H1. split_and!; [done..|]. simpl. by f_equal.
  - apply ends_bind. eapply ends_mono;
      [apply (evict_plain_stays _ a); [simpl; by rewrite (sc_activation _ _ H1)|by right]|].
    intros ? s2 [(H2 & Hw & Hp & Hr) _]. destruct H1. unfold stays.
    simpl in *. split_and!; congruence.
Qed.

(** *** Processing a completion *)

Definition chan_of (o : RunUpdateErr + option FulfillableActivationComplete) : option RespChan :=
  match o with
  | inl e => e.(rue_complete_resp_chan)
  | inr f => f ← f; f.(fac_resp_chan)
  end.

(** The outcome of [_process_completion]: the completion is done or fails, or it
    waits for local activities. *)
Definition processed (c : RunActivationCompletion) (s : State)
    (o : RunUpdateErr + option FulfillableActivationComplete) (s' : State) : Prop :=
  s'.1.(mr_activation) = s.1.(mr_activation)
  /\ s'.1.(mr_completion_waiting_on_page_fetch) = s.1.(mr_completion_waiting_on_page_fetch)
  /\ replied s'.2 = replied s.2
  /\ (s'.1.(mr_waiting_on_la) = s.1.(mr_waiting_on_la) /\ chan_of o = c.(rac_resp_chan)
      \/ waiting_chan s'.1 = c.(rac_resp_chan) /\ o = inr None).

Lemma ends_silent {E A} (m : RM E A) Q Er s :
  silent m -> ends m Q s -> wp m Q Er (fun _ _ => True) s.
Proof.
  intros Hm. specialize (Hm s). unfold ends, wp.
  destruct (m s) as [s' []]; simpl in *; try done. naive_solver.
Qed.

Lemma prepared c d s s' o :
  same_chans s s' -> d.(fac_resp_chan) = c.(rac_resp_chan) -> o = inr (Some d) ->
  processed c s o s'.
Proof. intros [] Hd ->. split_and!; [done..|]. left. done. Qed.

Lemma wait_chans {E} c st d s :
  ends (wait_on_las c st d : RM E unit)
    (fun _ s' => s'.1.(mr_activation) = s.1.(mr_activation)
       /\ s'.1.(mr_completion_waiting_on_page_fetch) = s.1.(mr_completion_waiting_on_page_fetch)
       /\ replied s'.2 = replied s.2 /\ waiting_chan s'.1 = c.(rac_resp_chan)) s.
Proof.
  unfold wait_on_las. apply ends_the_run. apply ends_bind.
  eapply ends_mono; [apply ends_level; case_match; level|]. intros ? s1 H1.
  apply ends_bind. eapply ends_mono; [apply ends_level, level_heartbeat_start|]. intros h s2 H2.
  pose proof (transitivity H1 H2) as [Ha Hw Hp Hr]. destruct s2. by split_and!.
Qed.

Lemma process_chans c u s :
  ends (attempt (_process_completion c u) : RM Depth _) (processed c s) s.
Proof.
  apply ends_attempt. unfold _process_completion. apply wp_bind.
  apply ends_silent; [apply silent_on_run|]. eapply ends_mono; [apply ends_level; level|].
  intros ? s1 H1. simpl in H1.
  assert (forall s2, same_chans s s2 ->
    wp (f ← prepare_complete_resp (rac_resp_chan c) (data_of_completion c) false; mret (Some f))
       (fun a => processed c s (inr a)) (fun e => processed c s (inl e))
       (fun _ _ => True) s2) as Hprep.
  { intros s2 H2. apply wp_bind. apply ends_silent; [apply silent_prepare|].
    eapply ends_mono; [apply prepare_chan|]. intros f s3 [H3 Hf].
    eapply prepared; [by etrans|done..]. }
  destruct (rac_activation_was_eviction c); [by apply Hprep|].
  apply wp_bind. apply ends_silent; [apply silent_attempt|].
  eapply ends_mono; [apply ends_level; apply within_attempt, level_apply|].
  intros [e|[[st d]|]] s2 H2; [..|apply Hprep; exact (transitivity H1 H2)].
  - pose proof (transitivity H1 H2) as [Ha Hw Hp Hr]. apply wp_throw.
    split_and!; [done..|]. by left.
  - apply wp_bind. apply ends_silent; [apply silent_wait_on_las|].
    eapply ends_mono; [apply wait_chans|]. intros ? s3 (Ha3 & Hp3 & Hr3 & Hw3).
    pose proof (transitivity H1 H2) as [Ha Hw Hp Hr].
    split_and!; [congruence..|]. right. by split.
Qed.

(** *** Completions, failures and evictions while lang has an activation *)

Lemma answers_after a g s s1 act s2 : stays [] s s1 -> answers a g s1 act s2 -> answers a g s act s2.
Proof.
  intros H1%stays_accounts (Ha & Hc & Hs & Hn). split_and!; [done| |done..].
  apply (accounts_trans [] g _ _ _ H1 Hc).
Qed.

Lemma stays_answers a g s s' act :
  s.1.(mr_activation) = Some a -> single s.1 -> stays g s s' -> no_activation act ->
  answers a g s act s'.
Proof.
  intros Ha Hs Hst Hn. pose proof (stays_accounts _ _ _ Hst) as Hc.
  destruct Hst as (Ha' & Hw & Hp & Hr). split_and!; [congruence|done| |done].
  unfold single, waiting_chan in *. by rewrite Hw, Hp.
Qed.

Lemma stays_idle s s' : stays [] s s' -> idle s.1 -> idle s'.1.
Proof. rewrite stays_same. apply same_chans_idle. Qed.

Section mutual.
  Context (a : OutstandingActivation) (n : nat).

Definition updates : Prop := forall e s,
  s.1.(mr_activation) = Some a -> single s.1 ->
  idle s.1 \/ e.(rue_complete_resp_chan) = None ->
  ends (update_to_acts n (inl e)) (answers a (option_list e.(rue_complete_resp_chan)) s) s.

Definition fails : Prop := forall cause reason failure auto chan s,
  s.1.(mr_activation) = Some a -> idle s.1 ->
  ends (failed_completion n cause reason failure auto chan)
    (answers a (option_list chan) s) s.

Definition succeeds : Prop := forall cmds flags vb chan forced s,
  s.1.(mr_activation) = Some a -> idle s.1 ->
  ends (successful_completion n cmds flags vb chan forced)
    (fun res => answers a (option_list chan) s
       match res with inr act => act | inl _ => None end) s.

Definition processes : Prop := forall c s,
  s.1.(mr_activation) = Some a -> idle s.1 ->
  ends (process_completion n c) (answers a (option_list c.(rac_resp_chan)) s) s.

End mutual.

(** What follows the processing of a completion. *)
Lemma update_after_process a n c o s s1 :
  updates a (S n) -> s.1.(mr_activation) = Some a -> idle s.1 -> processed c s o s1 ->
  ends (update_to_acts (S n) (FulfillableComplete <$> o))
    (answers a (option_list c.(rac_resp_chan)) s) s1.
Proof.
  intros Hu Ha Hi (Ha1 & Hp1 & Hr1 & [[Hw Hc]|[Hw ->]]).
  - assert (same_chans s s1) as H1 by done. rewrite <-Hc.
    assert (forall act s2, answers a (option_list (chan_of o)) s1 act s2 ->
              answers a (option_list (chan_of o)) s act s2) as Hback.
    { intros act s2. apply answers_after. by apply stays_same. }
    pose proof (same_chans_idle _ _ H1 Hi) as Hi1.
    destruct o as [e|f]; (eapply ends_mono; [|exact Hback]).
    + apply Hu; [congruence|by apply idle_single|by left].
    + apply (update_busy_answers n a (FulfillableComplete f)); [congruence|by apply idle_single|done].
  - eapply ends_mono; [apply (update_busy_answers n a (FulfillableComplete None));
      [congruence| |done]|]; simpl.
    { intros [c' Hc']. destruct Hi. congruence. }
    intros act s2 (Ha2 & (n2 & Hr2 & Hh2) & Hs2 & Hn2). split_and!; [done| |done..].
    exists n2. split; [congruence|]. rewrite Hh2, (idle_held s.1) by done. unfold held, page_chan.
    destruct Hi as [Hp _]. by rewrite Hp1, Hp, Hw.
Qed.

Lemma processes_step a n : updates a n -> processes a (S n).
Proof.
  intros Hu c s Ha Hi. rewrite process_completion_S. apply ends_bind.
  eapply ends_mono; [apply process_chans|]. intros o s1 H1.
  destruct n as [|n]; [done|]. by apply update_after_process.
Qed.

Lemma report_failure_answers a n token cause failure chan nr rep s :
  succeeds a n -> s.1.(mr_activation) = Some a -> idle s.1 ->
  ends (report_failure (successful_completion n) (reply_to_complete n) token cause failure
          chan nr rep None) (answers a (option_list chan) s) s.
Proof.
  intros Hsucc Ha Hi. unfold report_failure. apply ends_the_run.
  assert (forall out, ends (_ ← reply_to_complete n out chan; mret None)
            (answers a (option_list chan) s) s) as Hreply.
  { intros out. apply ends_bind. eapply ends_mono; [by apply (reply_stays _ a)|].
    intros ? s1 H1. apply stays_answers; [done|by apply idle_single|done|done]. }
  repeat case_match; try apply Hreply.
  apply ends_bind. eapply ends_mono; [by apply Hsucc|done].
Qed.

Lemma fails_step a n : succeeds a n -> fails a (S n).
Proof.
  intros Hsucc cause reason failure auto chan s Ha Hi.
  rewrite failed_completion_S. unfold failed_completion_body. apply ends_the_run.
  destruct (mr_wft s.1) as [wft|].
  2: { apply ends_bind. eapply ends_mono; [by apply (reply_stays _ a)|].
       intros ? s1 H1. apply stays_answers; [done|by apply idle_single|done|done]. }
  apply ends_bind. unfold evict_after_failure.
  case_match; [by apply report_failure_answers|]. apply ends_the_run. apply ends_bind.
  eapply ends_mono; [apply (evict_plain_stays _ a); [done|left; apply Hi]|].
  intros res s1 [Hs1 ->]. apply wp_ret. cbv beta iota. eapply ends_mono.
  - apply report_failure_answers; [done|destruct Hs1; congruence|by apply (stays_idle s)].
  - intros act s2. by apply answers_after.
Qed.

Lemma updates_step a n : fails a n -> updates a (S n).
Proof.
  intros Hf e s Ha Hs Hi. rewrite update_to_acts_S. unfold update_to_acts_body.
  apply ends_on_run. destruct (rue_complete_resp_chan e) as [c|] eqn:Hc.
  - destruct Hi as [Hi|]; [|done]. eapply ends_mono; [by apply Hf|]. intros act s1 H1.
    eapply answers_after; [|exact H1]. by apply stays_same.
  - apply ends_the_run. apply stays_answers; [done|done|by apply stays_same|done].
Qed.

Lemma completion_without_wft_answers a n chan s :
  s.1.(mr_activation) = Some a -> idle s.1 ->
  ends (completion_without_wft (reply_to_complete n) chan)
    (fun res => answers a (option_list chan) s
       match res with inr act => act | inl _ => None end) s.
Proof.
  intros Ha Hi. unfold completion_without_wft. apply ends_the_run. apply ends_bind.
  eapply ends_mono; [apply ends_level; repeat case_match; level|]. intros out s1 H1. simpl in H1.
  apply ends_bind. eapply ends_mono; [apply (reply_stays _ a); destruct H1; congruence|].
  intros ? s2 H2. eapply answers_after; [by apply stays_same|].
  apply stays_answers; [destruct H1; congruence| |done|done].
  by apply idle_single, (same_chans_idle s).
Qed.

Lemma succeeds_step a n : updates a n -> processes a n -> succeeds a (S n).
Proof.
  intros Hu Hp cmds flags vb chan forced s Ha Hi. rewrite successful_completion_S.
  unfold successful_completion_body. apply ends_the_run.
  destruct (mr_wft s.1) as [wft|]; [|by apply completion_without_wft_answers].
  match goal with |- ends (match ?x with Some _ => _ | None => _ end) _ _ => destruct x end.
  { apply ends_bind. eapply ends_mono; [by apply (reply_stays _ a)|]. intros ? s1 H1.
    by apply stays_answers; [|apply idle_single| |]. }
  unfold completion_with_wft. apply ends_bind.
  eapply ends_mono; [apply ends_level, level_preprocess|]. intros [cmds' qrs] s1 H1. simpl in H1.
  assert (s1.1.(mr_activation) = Some a) as Ha1 by (destruct H1; congruence).
  pose proof (same_chans_idle _ _ H1 Hi) as Hi1. apply stays_same in H1.
  apply ends_the_run. case_match; [|case_match].
  - apply ends_bind. eapply ends_mono; [by apply Hp|]. intros act s2 Hs2. by eapply answers_after.
  - apply ends_on_run. eapply answers_after; [done|]. split_and!; [done| |by intros _; apply Hi1|done].
    exists []. split; [done|]. rewrite (idle_held s1.1) by done. destruct Hi1 as [_ Hw].
    unfold held, page_chan. simpl. unfold waiting_chan in *. simpl. by rewrite Hw, app_nil_r.
  - apply ends_bind. eapply ends_mono; [apply Hu; [done|by apply idle_single|by left]|].
    intros act s2 Hs2. by eapply answers_after.
Qed.

Lemma all_answer a n : updates a n /\ fails a n /\ succeeds a n /\ processes a n.
Proof.
  induction n as [|n (Hu & Hf & Hs & Hp)]; [done|].
  auto using updates_step, fails_step, succeeds_step, processes_step.
Qed.

Lemma single_unless_waiting r : waiting_chan r = None -> single r.
Proof. by intros Hw _. Qed.

(** A channel that was held is given to the call. *)
Lemma answers_release a g s s1 act s2 :
  s1.1.(mr_activation) = s.1.(mr_activation) -> replied s1.2 = replied s.2 ->
  held s.1 ≡ₚ g ++ held s1.1 -> answers a g s1 act s2 -> answers a [] s act s2.
Proof.
  intros Ha Hr Hh (Ha2 & (n2 & Hr2 & Hh2) & Hs & Hn). split_and!; [done| |done..].
  exists n2. split; [congruence|]. rewrite Hh2. by symmetry.
Qed.

Lemma evict_answers n a info s :
  s.1.(mr_activation) = Some a -> single s.1 ->
  ends (request_eviction n info) (fun res => answers a [] s (into_run_update_resp res)) s.
Proof.
  intros Ha Hs.
  assert (mr_completion_waiting_on_page_fetch s.1 = None
          \/ info.(rem_reason) <> ER_PaginationOrHistoryFetch ->
          ends (request_eviction n info) (fun res => answers a [] s (into_run_update_resp res)) s)
    as Hplain.
  { intros Hp. eapply ends_mono; [by apply (evict_plain_stays _ a)|].
    intros res s1 [H1 ->]. by apply stays_answers. }
  destruct (mr_completion_waiting_on_page_fetch s.1) as [c|] eqn:Hw; [|by apply Hplain; left].
  destruct (decide (info.(rem_reason) = ER_PaginationOrHistoryFetch)) as [Hr|];
    [|by apply Hplain; right].
  destruct n as [|n]; [done|]. rewrite request_eviction_S. unfold request_eviction_body.
  apply ends_the_run. rewrite Hw, Hr. apply ends_on_run. apply ends_bind.
  assert (waiting_chan s.1 = None) as Hwc by (apply Hs; by eexists).
  eapply ends_mono; [apply (all_answer a n); [done|split; [done|exact Hwc]]|].
  intros act s1 H1. eapply answers_release; [..|exact H1]; [done..|].
  unfold held, page_chan. rewrite Hw, Hwc. simpl.
  replace (waiting_chan _) with (None : option RespChan) by (symmetry; exact Hwc).
  by rewrite app_nil_r.
Qed.

Lemma fetched_answers n a u p s :
  s.1.(mr_activation) = Some a -> single s.1 ->
  ends (fetched_page_completion (S n) u p) (answers a [] s) s.
Proof.
  intros Ha Hs. unfold fetched_page_completion, _fetched_page_completion.
  destruct (mr_completion_waiting_on_page_fetch s.1) as [c|] eqn:Hw.
  - assert (waiting_chan s.1 = None) as Hwc by (apply Hs; by eexists).
    set (s1 := (set_completion_waiting_on_page_fetch None (set_paginator (Some p) s.1), s.2)).
    apply ends_bind.
    eapply (ends_mono _ (processed c s1)).
    { pose proof (process_chans c (Some u) s1) as Hpc. unfold ends, wp, attempt in *.
      destruct s as [r t]. unfold mbind, M_bind. simpl in *. by rewrite Hw. }
    intros o s2 H2. eapply ends_mono.
    + apply (update_after_process a n c o s1); [apply all_answer|done| |done]. split; done.
    + intros act s3. apply answers_release; [done..|]. unfold held, page_chan.
      rewrite Hw, Hwc. simpl. replace (waiting_chan _) with (None : option RespChan) by done.
      by rewrite app_nil_r.
  - apply ends_bind. eapply (ends_mono _ (fun o s' => same_chans s s'
      /\ exists e, o = inl (RunUpdateErr_from e))).
    { destruct s as [r t]. unfold ends, wp, attempt, mbind, M_bind. simpl in *. rewrite Hw.
      split; [done|by eexists]. }
    intros o s1 [H1 [e ->]]. eapply ends_mono;
      [apply (all_answer a (S n)); [destruct H1; congruence|by apply (same_chans_single s)|by right]|].
    intros act s2. by apply answers_after, stays_same.
Qed.

(** The channel of the completion that the last local activity lets go on. *)
Lemma resolution_chans res s :
  ends (attempt (_local_resolution res) : RM Depth _)
    (fun o s' => s'.1.(mr_activation) = s.1.(mr_activation)
       /\ replied s'.2 = replied s.2
       /\ s'.1.(mr_completion_waiting_on_page_fetch) = s.1.(mr_completion_waiting_on_page_fetch)
       /\ (same_chans s s' /\ chan_of o = None
           \/ waiting_chan s'.1 = None /\ chan_of o = waiting_chan s.1
              /\ exists f, o = inr f)) s.
Proof.
  apply ends_attempt. unfold _local_resolution. apply wp_bind.
  eapply (wp_mono _ (fun _ => same_chans s) _
            (fun e s' => same_chans s s' /\ e.(rue_complete_resp_chan) = None) _ (fun _ _ => True)).
  - pose proof (level_notify res s) as Hl. unfold wp, convert_err.
    destruct (notify_of_local_result res s) as [s' []]; by simpl in *.
  - intros ? s1 H1. apply wp_the_run. destruct (_ =? 0);
      [|destruct H1; split_and!; [done..|by left]].
    destruct (mr_waiting_on_la s1.1) as [w|] eqn:Hw; [|destruct H1; split_and!; [done..|by left]].
    apply wp_on_run, wp_emit.
    assert (waiting_chan s.1 = d ← w.(wola_completion_dat); d.2) as Hwc.
    { unfold waiting_chan. by rewrite <-(sc_waiting _ _ H1), Hw. }
    rewrite Hwc. destruct (wola_completion_dat w) as [[d c]|] eqn:Hd.
    + apply wp_bind. apply ends_silent; [apply silent_prepare|].
      eapply ends_mono; [apply prepare_chan|]. intros f s2 [H2 Hf].
      destruct H1, H2. simpl in *.
      split_and!; [congruence..|]. right. split_and!; [|done|by eexists].
      unfold waiting_chan. by rewrite sc_waiting1.
    + destruct H1. split_and!; [done..|]. right. split_and!; [done|done|by eexists].
  - intros e s1 [H1 He]. destruct H1. split_and!; [done..|]. left. split; [done|exact He].
  - done.
Qed.

Lemma local_resolution_answers n a res s :
  s.1.(mr_activation) = Some a -> single s.1 ->
  ends (run_local_resolution (S n) res) (answers a [] s) s.
Proof.
  intros Ha Hs. unfold run_local_resolution. apply ends_bind.
  eapply ends_mono; [apply resolution_chans|]. intros o s1 (Ha1 & Hr1 & Hp1 & Hw).
  assert (single s1.1) as Hs1.
  { destruct Hw as [[H1 _]|[Hw _]]; [by apply (same_chans_single s)|by apply single_unless_waiting]. }
  eapply (ends_mono _ (answers a (option_list (chan_of o)) s1)).
  - destruct o as [e|f].
    + apply (all_answer a (S n)); [congruence|done|].
      destruct Hw as [[_ Hc]|(_ & _ & f & ?)]; [by right|done].
    + apply (update_busy_answers n a (FulfillableComplete f)); [congruence|done|done].
  - intros act s2. apply answers_release; [done..|]. unfold held, page_chan. rewrite Hp1.
    destruct Hw as [[H1 ->]|(-> & -> & _)]; [|done]. unfold waiting_chan.
    by rewrite (sc_waiting _ _ H1).
Qed.

Definition given (i : run_input) : list RespChan :=
  match i with
  | RI_Successful _ _ _ chan | RI_Failed _ _ _ _ chan => option_list chan
  | _ => []
  end.

(** The heartbeat timer of a completion that waits. *)
Definition heartbeat_of_completion (r : Run) : Prop :=
  forall w, r.(mr_waiting_on_la) = Some w -> is_Some w.(wola_completion_dat).

(** The inputs of a run while lang has an activation.  Lang completes an
    activation when no completion is held up; a new task is buffered; the
    activation is not finished before its completion was answered. *)
Definition busy_input (i : run_input) (r : Run) : Prop :=
  match i with
  | RI_Successful _ _ _ _ | RI_Failed _ _ _ _ _ => idle r
  | RI_Heartbeat => single r /\ heartbeat_of_completion r
  | RI_IncomingWft _ | RI_Finish _ => False
  | _ => single r
  end.

Lemma heartbeat_answers n a s :
  s.1.(mr_activation) = Some a -> single s.1 -> heartbeat_of_completion s.1 ->
  ends (heartbeat_timeout (S n)) (answers a [] s) s.
Proof.
  intros Ha Hs Hh. unfold heartbeat_timeout. apply ends_bind. unfold _heartbeat_timeout.
  apply ends_the_run. destruct (mr_waiting_on_la s.1) as [w|] eqn:Hw.
  2: { apply wp_ret. apply ends_the_run. by apply (update_busy_answers n a (OutgoingAct None)). }
  apply ends_emit. destruct (Hh w Hw) as [[d c] Hd]. rewrite Hd. apply ends_on_run.
  apply ends_bind. eapply ends_mono; [apply prepare_chan|]. intros f s1 [H1 Hf]. simpl in H1.
  assert (waiting_chan s1.1 = None) as Hw1 by (unfold waiting_chan; by rewrite (sc_waiting _ _ H1)).
  assert (waiting_chan s.1 = c) as Hwc by (unfold waiting_chan; by rewrite Hw; simpl; rewrite Hd).
  apply ends_bind. unfold fulfill. rewrite Hf.
  eapply (ends_mono _ (fun _ s2 => stays (option_list c) s1 s2)).
  { destruct s1, c; by split_and!. }
  intros ? s2 H2. apply ends_the_run.
  assert (single s2.1) as Hs2.
  { destruct H2 as (_ & Hw2 & _). intros _. unfold waiting_chan in *. by rewrite Hw2. }
  eapply ends_mono; [apply (update_busy_answers n a (OutgoingAct None)); [|done|done]|].
  { destruct H2 as [-> _]. by rewrite (sc_activation _ _ H1). }
  intros act s3 (Ha3 & Hc3 & Hs3 & Hn3). apply stays_accounts in H2.
  pose proof (accounts_trans _ _ _ _ _ H2 Hc3) as Hc. simpl in Hc. rewrite app_nil_r in Hc.
  eapply (answers_release a (option_list c) s s1);
    [by rewrite (sc_activation _ _ H1)|by rewrite (sc_replied _ _ H1)| |done].
  unfold held, page_chan. by rewrite Hw1, Hwc, (sc_page _ _ H1).
Qed.

(** C4 While lang has an activation, no call on the run gives lang another one;
    and the response channels are accounted for: those answered during a call,
    together with those that wait for local activities or for a page of history
    after it, are exactly those that waited before and the one the call was
    given.  So every completion is answered once, whatever fails meanwhile. *)
Theorem completions_answered_once (n : nat) (i : run_input) (a : OutstandingActivation)
    (s s' : State) (act : RunUpdateAct) :
  s.1.(mr_activation) = Some a -> busy_input i s.1 ->
  run_step (S n) i s = (s', Ok act) ->
  s'.1.(mr_activation) = Some a
  /\ (exists answered, replied s'.2 = answered ++ replied s.2
        /\ answered ++ held s'.1 ≡ₚ given i ++ held s.1)
  /\ no_activation act.
Proof.
  intros Ha Hi Hst.
  assert (ends (run_step (S n) i) (answers a (given i) s) s) as Hends;
    [|unfold ends, wp in Hends; rewrite Hst in Hends; by destruct Hends as (?&?&_&?)].
  clear Hst s' act. destruct i; simpl in *; try done.
  - apply ends_bind. eapply ends_mono; [by apply (all_answer a (S n))|done].
  - by apply (all_answer a (S n)).
  - by apply fetched_answers.
  - by apply local_resolution_answers.
  - by destruct Hi; apply heartbeat_answers.
  - apply ends_bind. eapply ends_mono; [by apply (evict_answers _ a)|done].
  - eapply ends_mono; [by apply (check_more_stays _ a)|]. intros act s1 [-> ->].
    by apply stays_answers; [..|apply stays_same|].
  - apply ends_bind. eapply ends_mono; [apply ends_level; unfold mark_wft_complete; level|].
    intros ? s1 H1. by apply stays_answers; [..|apply stays_same|].
  - apply ends_on_run. apply stays_answers; [done|done| |done].
    unfold buffer_wft_if_outstanding_work. case_match; by split_and!.
Qed.

(** When the heartbeat timer of a run elapses while lang has an activation and
    no completion waits - a local activity was resolved after a heartbeat and
    others still run - the handler panics: it records an activation of its own
    next to the one that lang has. *)
Theorem heartbeat_during_activation_panics (n : nat) (a : OutstandingActivation)
    (w : WaitingOnLAs) (s : State) :
  s.1.(mr_activation) = Some a -> s.1.(mr_waiting_on_la) = Some w ->
  w.(wola_completion_dat) = None ->
  (run_step (S n) RI_Heartbeat s).2
  = Panic "Attempted to insert a new outstanding activation, but there already was one outstanding".
Proof.
  intros Ha Hw Hd. destruct s as [r t]. simpl in *.
  unfold heartbeat_timeout, _heartbeat_timeout, mbind, M_bind. simpl. rewrite Hw. simpl.
  rewrite Hd. simpl. rewrite update_to_acts_S. unfold update_to_acts_body, mbind, M_bind. simpl.
  rewrite andb_false_r. simpl.
  unfold settle, has_any_pending_work, insert_outstanding_activation, mbind, M_bind. simpl.
  rewrite Ha. simpl. rewrite !orb_true_r. simpl. by rewrite Ha.
Qed.

(** ** What is reported when an activation fails *)

Definition replies (t : list effect) : list (RespChan * ActivationCompleteResult) :=
  omap (fun e => match e with EReply c res => Some (c, res) | _ => None end) t.

Definition attempt_of (res : EvictionRequestResult) : option Z :=
  match res with
  | EvictionRequested att _ | EvictionAlreadyRequested att => att
  | NotFound => None
  end.

(** What an eviction requested while lang has an activation leaves as it is. *)
Record same_failure (s s' : State) : Prop := {
  sf_trace : s'.2 = s.2;
  sf_machines : s'.1.(mr_wfm) = s.1.(mr_wfm);
  sf_config : s'.1.(mr_config) = s.1.(mr_config);
  sf_activation : s'.1.(mr_activation) = s.1.(mr_activation);
  sf_legacy : pending_work_is_legacy_query s'.1 = pending_work_is_legacy_query s.1;
}.

Lemma evict_plain_same n a info s :
  s.1.(mr_activation) = Some a ->
  s.1.(mr_completion_waiting_on_page_fetch) = None
    \/ info.(rem_reason) <> ER_PaginationOrHistoryFetch ->
  ends (request_eviction n info)
    (fun res s' => same_failure s s'
       /\ attempt_of res = (fun w => w.(ot_info).(wti_attempt)) <$> s.1.(mr_wft)
       /\ into_run_update_resp res = None) s.
Proof.
  intros Ha Hp. destruct n as [|n]; [done|]. rewrite request_eviction_S. unfold request_eviction_body.
  apply ends_the_run.
  set (att := (fun w => w.(ot_info).(wti_attempt)) <$> s.1.(mr_wft)).
  assert (ends (store_eviction (check_more_activations n) info att)
    (fun res s' => same_failure s s' /\ attempt_of res = att /\ into_run_update_resp res = None) s)
    as Hst.
  { unfold store_eviction. apply ends_the_run. destruct (negb _ && negb _).
    - apply ends_bind. eapply (ends_mono _ (fun _ s1 => same_failure s s1)).
      { destruct s as [r t]. case_match; [|by split]. split; try done. simpl.
        apply andb_true_iff in H1 as [_ H1%negb_true_iff]. simpl in H1. rewrite H1.
        unfold pending_work_is_legacy_query in *. simpl in *.
        apply orb_false_iff in H1 as [-> _]. by destruct (mr_wft r). }
      intros ? s1 [Ht Hm Hc Hact Hl]. apply ends_on_run. apply ends_bind.
      eapply ends_mono; [apply (check_more_stays _ a); simpl; congruence|].
      intros act s2 [-> ->]. by split_and!; [split|..].
    - apply ends_on_run. by split_and!; [split|..]. }
  repeat case_match; try apply Hst. naive_solver.
Qed.

Lemma reply_exact n a out chan s :
  s.1.(mr_activation) = Some a ->
  ends (reply_to_complete n out (Some chan))
    (fun _ s' => replies s'.2 = (chan, {| acr_replaying := s.1.(mr_wfm).(wm_replaying);
                                          acr_outcome := out |}) :: replies s.2) s.
Proof.
  intros Ha. destruct n as [|n]; [done|]. rewrite reply_to_complete_S. unfold reply_to_complete_body.
  apply ends_the_run. apply ends_bind. destruct s as [r t].
  unfold with_trace, ends at 1, wp. simpl. apply ends_emit. simpl. case_match; [done|].
  apply ends_bind. eapply ends_mono; [apply (evict_plain_same _ a); [done|by right]|].
  intros ? [r2 t2] [[Ht] _]. simpl in *. by subst t2.
Qed.

(** The answer to the completion that failed. *)
Definition failure_outcome (wft : OutstandingTask) (cause : WorkflowTaskFailedCause)
    (reason : EvictionReason) (failure : completion_Failure) (is_auto_fail legacy : bool)
  : ActivationCompleteOutcome :=
  if legacy then
    if is_auto_fail && is_fetch_failure reason then WFTFailedDontReport
    else ReportWFTFail (ReportLegacyQueryFailure wft.(ot_info).(wti_task_token) failure)
  else if (wft.(ot_info).(wti_attempt) <=? 1)%Z
  then ReportWFTFail (Report wft.(ot_info).(wti_task_token) cause failure)
  else WFTFailedDontReport.

(** The channel was answered so, once. *)
Definition answered_with (s : State) (chan : RespChan) (out : ActivationCompleteOutcome)
    (s' : State) : Prop :=
  replies s'.2 = (chan, {| acr_replaying := s.1.(mr_wfm).(wm_replaying); acr_outcome := out |})
                 :: replies s.2.

Lemma reply_after_eviction n a s s1 chan out :
  s.1.(mr_activation) = Some a -> same_failure s s1 ->
  ends (_ ← reply_to_complete n out (Some chan); mret (None : RunUpdateAct))
    (fun _ => answered_with s chan out) s1.
Proof.
  intros Ha [Ht Hm _ Hact _]. apply ends_bind.
  eapply ends_mono; [apply (reply_exact _ a); congruence|]. intros ? s2.
  unfold answered_with. by rewrite Ht, Hm.
Qed.

Lemma failed_outcome n a wft cause reason failure auto chan s :
  s.1.(mr_activation) = Some a -> s.1.(mr_wft) = Some wft ->
  s.1.(mr_completion_waiting_on_page_fetch) = None ->
  never_fails_workflow s.1.(mr_config) ->
  ends (failed_completion n cause reason failure auto (Some chan))
    (fun _ => answered_with s chan (failure_outcome wft cause reason failure auto
                                      (pending_work_is_legacy_query s.1))) s.
Proof.
  intros Ha Hw Hp Hc. destruct n as [|n]; [done|].
  rewrite failed_completion_S. unfold failed_completion_body. apply ends_the_run. rewrite Hw.
  apply ends_bind. unfold evict_after_failure, failure_outcome.
  destruct (pending_work_is_legacy_query s.1) eqn:Hl; simpl.
  - destruct (auto && is_fetch_failure reason) eqn:Hq; simpl.
    + apply ends_the_run. rewrite Hl. by apply (reply_after_eviction _ a).
    + apply ends_the_run, ends_bind.
      eapply ends_mono; [apply (evict_plain_same _ a); [done|by left]|].
      intros res s1 (Hs1 & _ & ->). apply wp_ret. apply ends_the_run.
      rewrite (sf_legacy _ _ Hs1), Hl. by apply (reply_after_eviction _ a).
  - apply ends_the_run, ends_bind.
    eapply ends_mono; [apply (evict_plain_same _ a); [done|by left]|].
    intros res s1 (Hs1 & Hatt & ->). apply wp_ret. apply ends_the_run.
    rewrite (sf_legacy _ _ Hs1), Hl.
    assert (fails_workflow cause s1.1 = false) as ->.
    { unfold fails_workflow. rewrite (sf_config _ _ Hs1). destruct cause; (done || apply Hc). }
    rewrite Hw in Hatt. simpl in Hatt.
    destruct res as [[att|] x| |[att|]]; simpl in *; simplify_eq;
      destruct (wti_attempt (ot_info wft) <=? 1)%Z; by apply (reply_after_eviction _ a).
Qed.

(** A completion that reports a failure, or that the machines reject, is
    answered as follows, when nondeterminism does not fail workflows.  A task
    whose first attempt failed is reported to the server as failed, a later
    attempt is dropped; a query of the old kind is answered as a query, never as
    a failed task, and dropped when its history could not be fetched, so that it
    can be retried. *)
Theorem failed_activation_outcome (n : nat) (a : OutstandingActivation) (wft : OutstandingTask)
    (cause : WorkflowTaskFailedCause) (reason : EvictionReason) (failure : completion_Failure)
    (is_auto_fail : bool) (chan : RespChan) (s s' : State) (act : RunUpdateAct) :
  s.1.(mr_activation) = Some a -> s.1.(mr_wft) = Some wft ->
  s.1.(mr_completion_waiting_on_page_fetch) = None ->
  never_fails_workflow s.1.(mr_config) ->
  failed_completion n cause reason failure is_auto_fail (Some chan) s = (s', Ok act) ->
  replies s'.2
  = (chan, {| acr_replaying := s.1.(mr_wfm).(wm_replaying);
              acr_outcome := failure_outcome wft cause reason failure is_auto_fail
                               (pending_work_is_legacy_query s.1) |}) :: replies s.2.
Proof.
  intros Ha Hw Hp Hc Hf.
  pose proof (failed_outcome n a wft cause reason failure is_auto_fail chan s Ha Hw Hp Hc) as Hends.
  unfold ends, wp in Hends. by rewrite Hf in Hends.
Qed.
End facts.
