(* ===== verification/ManagedRunSafety.v ===== *)
(** * Managed runs drive their machines

    A managed run acts on its workflow machines only through the operations of
    [WMRun]; what holds of every sequence of those holds of the machines of a
    run, whatever tasks, completions and failures the run meets. *)
From Stdlib Require Import ZArith Lia.
From stdpp Require Import base option list strings gmap.
From S2P Require Import Prelude Flags Protos ProtoExt CoreProtos Fsm LocalActs DrivenWorkflow.
From S2P Require Import Machines MachinePanics MachineCalls HistoryUpdate WMState WorkflowMachines WMSafety WMRun.
From S2P Require Import WMLoops WMReplay WorkflowTasks TimeArith ManagedRun ManagedRunFacts.

Section drives.
  Context {X : Externs} {K : Type} {Sm : Type -> Type}.
  Context {HED : EqDecision K} {HC : Countable K} {HSM : SlotMap K Sm} {HSL : SlotMapLaws K Sm}.
  Context {R : RunEnv}.
  Abbreviation WM := (M (WorkflowMachines K Sm) WFMachinesError).
  Abbreviation Run := (ManagedRun (K := K) (Sm := Sm)).
  Abbreviation State := (Run * list effect)%type.
  Abbreviation RM E := (M State E).
  Implicit Types (w : WorkflowMachines K Sm) (s : State).

(** ** Calls on the machines *)

(** The machines are in a state that operations lead to. *)
Definition reaches (w w' : WorkflowMachines K Sm) : Prop :=
  exists ops, w' = (run_ops ops w).1.

#[global] Instance reaches_preorder : PreOrder reaches.
Proof.
  split; [by exists []|]. intros w1 w2 w3 [ops1 ->] [ops2 ->]. exists (ops1 ++ ops2).
  by rewrite run_ops_app.
Qed.

Lemma reaches_op op w : reaches w (run_op op w).1.
Proof. exists [op]. simpl. by destruct (run_op op w). Qed.

Lemma reaches_inv w w' : reaches w w' -> wm_inv w -> wm_inv w'.
Proof. intros [ops ->] Hi. by apply run_ops_safe. Qed.

(** The call is a sequence of operations and finds every machine it looks for. *)
Definition driven {A} (m : WM A) : Prop :=
  forall w, wm_inv w -> reaches w (m w).1 /\ (m w).2 <> Panic missing_machine.

Lemma driven_bind {A B} (m : WM A) (f : A -> WM B) :
  driven m -> (forall a, driven (f a)) -> driven (m ≫= f).
Proof.
  intros Hm Hf w Hi. destruct (Hm w Hi) as [Hr Hq]. unfold mbind, M_bind.
  destruct (m w) as [w' [a|e|msg]]; simpl in *; [|done|split; [done|by intros [= ->]]].
  destruct (Hf a w') as [Hr' Hq']; [by eapply reaches_inv|]. split; [by etrans|done].
Qed.

Lemma driven_ret {A} (a : A) : driven (mret a).
Proof. intros w Hi. by split. Qed.

Lemma driven_get : driven get.
Proof. intros w Hi. by split. Qed.

Lemma driven_op {A} op (m : WM A) :
  (forall w, (run_op op w).1 = (m w).1) ->
  (forall w, wm_inv w -> (m w).2 <> Panic missing_machine) -> driven m.
Proof. intros Hop Hq w Hi. split; [rewrite <-Hop; apply reaches_op|by apply Hq]. Qed.

Lemma ignore_state {A} (m : WM A) w : (ignore m w).1 = (m w).1.
Proof. unfold ignore, mbind, M_bind. by destruct (m w) as [? []]. Qed.

Lemma safe_quiet {A} (m : WM A) Q w :
  safe (fun _ => True) m Q -> wm_inv w -> (m w).2 <> Panic missing_machine.
Proof. intros Hm Hi. by apply Hm. Qed.

Lemma driven_activation : driven wm_activation.
Proof.
  apply (driven_op OpActivation); intros w; unfold wm_activation; simpl;
    by destruct (get_wf_activation w).
Qed.

Lemma driven_apply_next : driven apply_next_wft_from_history.
Proof.
  apply (driven_op OpApplyNext); [intros w; apply ignore_state|].
  intros w. apply (safe_quiet _ _ _ safe_apply_next).
Qed.

Lemma driven_next_activation : driven get_next_activation.
Proof.
  unfold get_next_activation. apply driven_bind; [apply driven_activation|]. intros a.
  case_match; [|apply driven_ret].
  apply driven_bind; [apply driven_apply_next|]. intros _. apply driven_activation.
Qed.

Lemma driven_new_work u msgs : driven (manager_new_work_from_server u msgs).
Proof.
  unfold manager_new_work_from_server. apply driven_bind; [|intros; apply driven_next_activation].
  apply (driven_op (OpNewWork u msgs)); [done|]. intros w. apply (safe_quiet _ _ _ (safe_new_work _ _)).
Qed.

Lemma driven_feed u : driven (feed_history_from_new_page u).
Proof.
  apply (driven_op (OpNewHistory u)); [done|]. intros w.
  apply (safe_quiet _ _ _ (safe_run_op (OpNewHistory u))).
Qed.

Lemma driven_apply_tasks n : driven (apply_tasks n).
Proof.
  induction n as [|n IH]; simpl; [by intros w Hi; split|].
  apply driven_bind; [apply driven_apply_next|]. intros c.
  apply driven_bind; [apply driven_get|]. intros w. case_match; [apply driven_ret|done].
Qed.

Lemma driven_apply_if_ready : driven apply_next_task_if_ready.
Proof.
  unfold apply_next_task_if_ready. apply driven_bind; [apply driven_get|]. intros w.
  case_match; [apply driven_ret|apply driven_apply_tasks].
Qed.

Lemma driven_push times cmds : driven (push_commands_and_iterate times cmds).
Proof.
  unfold push_commands_and_iterate. apply driven_bind; [by apply (driven_op (OpSend cmds))|].
  intros _. apply (driven_op (OpIterate times)); [done|]. intros w.
  apply (safe_quiet _ _ _ (safe_iterate_machines _)).
Qed.

Lemma driven_local_resolution r : driven (local_resolution r).
Proof.
  apply (driven_op (OpLocalResolution r)); [intros w; apply ignore_state|].
  intros w. apply (safe_quiet _ _ _ (safe_local_resolution _)).
Qed.

Lemma driven_get_commands : driven get_commands.
Proof.
  apply (driven_op OpGetCommands); [intros w; apply ignore_state|].
  intros w. apply (safe_quiet _ _ _ safe_get_commands).
Qed.

Lemma get_machine_state k w : (get_machine k w).1 = w.
Proof. unfold get_machine. by case_match. Qed.

Lemma sendable_state cmds w : (sendable_commands cmds w).1 = w.
Proof.
  revert w. induction cmds as [|c cmds IH]; intros w; simpl; [done|].
  unfold mbind, M_bind. pose proof (get_machine_state (cam_machine c) w) as Hg.
  destruct (get_machine _ w) as [w1 [m|e|msg]]; simpl in *; subst; try done. unfold lift.
  destruct (is_final_state m) as [b|e|msg]; simpl; try done. specialize (IH w).
  by destruct (sendable_commands cmds w) as [? []].
Qed.

Lemma any_sendable_state cmds w : (any_sendable cmds w).1 = w.
Proof.
  revert w. induction cmds as [|c cmds IH]; intros w; simpl; [done|].
  unfold mbind, M_bind. pose proof (get_machine_state (cam_machine c) w) as Hg.
  destruct (get_machine _ w) as [w1 [m|e|msg]]; simpl in *; subst; try done. unfold lift.
  destruct (is_final_state m) as [b|e|msg]; simpl; try done.
  by destruct b, (cam_command c).
Qed.

Lemma safe_any_sendable cmds :
  safe (fun w => forall c, c ∈ cmds -> live c.(cam_machine) w) (any_sendable cmds)
    (fun _ _ => True).
Proof.
  induction cmds as [|c cmds IH]; simpl; [by apply safe_ret|].
  eapply (safe_bind _ _ (fun _ _ => True));
    [apply _|eapply safe_weaken; [apply safe_get_machine|set_solver|done]|].
  intros m. eapply (safe_bind _ _ (fun _ _ => True));
    [apply _|apply safe_lift; [apply is_final_state_quiet|done]|].
  intros b. destruct b, (cam_command c); try (by apply safe_ret);
    (eapply safe_weaken; [apply IH|set_solver|done]).
Qed.

Lemma driven_peek : driven peek_commands.
Proof.
  apply (driven_op OpGetCommands).
  - intros w. unfold peek_commands. simpl. rewrite ignore_state. unfold get_commands.
    unfold mbind, M_bind. simpl. by rewrite sendable_state, any_sendable_state.
  - intros w Hi. unfold peek_commands, mbind, M_bind. simpl.
    apply safe_any_sendable; [by destruct Hi; split|]. simpl. intros c Hc.
    by apply (refs_commands _ _ Hi).
Qed.

(** ** The loop that applies tasks *)

Lemma take_next_shrinks from u u' evts final :
  take_next_wft_sequence from u = (u', Ok (WFT evts final)) ->
  length u'.(events) < length u.(events).
Proof.
  unfold take_next_wft_sequence. intros Ht.
  set (v := match starting_index_after_skipping u from with
            | Some ix => with_events u (drop ix u.(events)) | None => u end) in Ht.
  assert (length v.(events) <= length u.(events)) as Hv.
  { unfold v. destruct (starting_index_after_skipping u from); [simpl; rewrite length_drop|]; lia. }
  assert (forall n, build_next_wft v n = (u', Ok (WFT evts final)) ->
                    length u'.(events) < length u.(events)) as Hb.
  { intros n. unfold build_next_wft. destruct (Nat.ltb_spec n (length v.(events))); [|done].
    intros [= <- _ _]. simpl. rewrite length_drop. lia. }
  repeat case_match; simplify_eq; eauto.
Qed.

Lemma apply_tasks_rounds n m (w : WorkflowMachines K Sm) :
  length w.(wm_last_history_from_server).(events) < n ->
  length w.(wm_last_history_from_server).(events) < m ->
  apply_tasks n w = apply_tasks m w.
Proof.
  revert m w. induction n as [|n IH]; intros [|m] w Hn Hm; [lia..|]. simpl.
  apply M_bind_ext. intros c w' Hw. rewrite !get_bind. case_match eqn:Hc; [done|].
  apply orb_false_iff in Hc as [[Hc%Nat.eqb_neq _]%orb_false_iff _].
  apply apply_next_in_order in Hw as (_ & _ & Hw). destruct (Hw Hc) as (evts & final & Ht & _).
  apply take_next_shrinks in Ht. apply IH; lia.
Qed.

(** The loop that applies the tasks of the history after a completion ends:
    each round but the last takes events off the history that is known, so that
    the number of its events bounds the rounds, and more rounds change nothing. *)
Theorem replay_loop_ends (extra : nat) (w : WorkflowMachines K Sm) :
  has_pending_jobs w = false ->
  apply_tasks (S (length w.(wm_last_history_from_server).(events)) + extra) w
  = apply_next_task_if_ready w.
Proof.
  intros Hj. unfold apply_next_task_if_ready. rewrite get_bind, Hj.
  apply apply_tasks_rounds; lia.
Qed.

(** ** Calls on the run *)

Definition steers {E A} (m : RM E A) : Prop :=
  forall s, wm_inv s.1.(mr_wfm) ->
    reaches s.1.(mr_wfm) (m s).1.1.(mr_wfm) /\ (m s).2 <> Panic missing_machine.

Lemma steers_bind {E A B} (m : RM E A) (f : A -> RM E B) :
  steers m -> (forall a, steers (f a)) -> steers (m ≫= f).
Proof.
  intros Hm Hf s Hi. destruct (Hm s Hi) as [Hr Hq]. unfold mbind, M_bind.
  destruct (m s) as [s' [a|e|msg]]; simpl in *; [|done|split; [done|by intros [= ->]]].
  destruct (Hf a s') as [Hr' Hq']; [by eapply reaches_inv|]. split; [by etrans|done].
Qed.

Lemma steers_ret {E A} (a : A) : steers (mret a : RM E A).
Proof. intros s Hi. by split. Qed.

Lemma steers_throw {E A} (e : E) : steers (throw e : RM E A).
Proof. intros s Hi. by split. Qed.

Lemma steers_panic {E A} msg : msg <> missing_machine -> steers (panic msg : RM E A).
Proof. intros Hm s Hi. split; [done|]. intros ?. by simplify_eq/=. Qed.

Lemma steers_lift {E A} (o : outcome E A) : o <> Panic missing_machine -> steers (lift o : RM E A).
Proof. intros Ho s Hi. by split. Qed.

Lemma steers_the_run {E} : steers (the_run : RM E _).
Proof. intros [r t] Hi. by split. Qed.

Lemma steers_new_handle {E} : steers (new_handle : RM E _).
Proof. intros [r t] Hi. by split. Qed.

Lemma steers_emit {E} e : steers (emit e : RM E _).
Proof. intros [r t] Hi. by split. Qed.

Lemma steers_now {E} : steers (now : RM E _).
Proof. intros [r t] Hi. by split. Qed.

Lemma steers_sink {E} reqs : steers (sink_reqs reqs : RM E _).
Proof. intros [r t] Hi. by split. Qed.

Lemma steers_on_run {E} f :
  (forall r, reaches r.(mr_wfm) (f r).(mr_wfm)) -> steers (on_run f : RM E _).
Proof. intros Hf [r t] Hi. by split. Qed.

Lemma steers_machines {A} (m : WM A) : driven m -> steers (on_machines m).
Proof.
  intros Hm [r t] Hi. destruct (Hm _ Hi) as [Hr Hq]. unfold on_machines. simpl in *.
  by destruct (m (mr_wfm r)).
Qed.

Lemma steers_pure {E A} f :
  (forall w, reaches w (f w).1) -> steers (on_machines_pure f : RM E A).
Proof.
  intros Hf [r t] Hi. specialize (Hf (mr_wfm r)). unfold on_machines_pure. simpl in *.
  by destruct (f (mr_wfm r)).
Qed.

Lemma steers_convert {E F A} (f : E -> F) (m : RM E A) : steers m -> steers (convert_err f m).
Proof.
  intros Hm s Hi. destruct (Hm s Hi) as [Hr Hq]. unfold convert_err.
  destruct (m s) as [s' []]; simpl in *; (split; [done|by intros [= ->]]).
Qed.

Lemma steers_attempt {E F A} (m : RM E A) : steers m -> steers (attempt m : RM F _).
Proof.
  intros Hm s Hi. destruct (Hm s Hi) as [Hr Hq]. unfold attempt.
  destruct (m s) as [s' []]; simpl in *; (split; [done|by intros [= ->]]).
Qed.

Lemma steers_infallible {F A} (m : RM WFMachinesError A) : steers m -> steers (infallible m : RM F A).
Proof.
  intros Hm s Hi. destruct (Hm s Hi) as [Hr Hq]. unfold infallible.
  destruct (m s) as [s' []]; simpl in *; (split; [done|by intros [= ->]]).
Qed.

Lemma steers_for_each {E A} (f : A -> RM E unit) l :
  (forall a, steers (f a)) -> steers (for_each f l).
Proof. intros Hf. induction l; simpl; [apply steers_ret|by apply steers_bind]. Qed.

Lemma steers_trace {E A} (f : list effect -> RM E A) :
  (forall t, steers (f t)) -> steers (with_trace f).
Proof. intros Hf [r t]. apply Hf. Qed.

Lemma reaches_flags w op : reaches w (run_op op w).1.
Proof. apply reaches_op. Qed.

Ltac steer :=
  repeat first
    [ apply steers_ret | apply steers_throw | (apply steers_panic; done)
    | apply steers_the_run | apply steers_new_handle | apply steers_emit | apply steers_now
    | apply steers_sink | apply steers_convert | apply steers_attempt | apply steers_infallible
    | (apply steers_for_each; intros) | (apply steers_trace; intros)
    | (apply steers_machines;
       first [ apply driven_next_activation | apply driven_new_work | apply driven_feed
             | apply driven_apply_if_ready | apply driven_push | apply driven_local_resolution
             | apply driven_get_commands | apply driven_peek ])
    | (apply steers_on_run; intros; reflexivity)
    | (apply steers_bind; [|intros])
    | case_match ].

Lemma mul_f32_quiet {E} d x : mul_f32 (E := E) d x <> Panic missing_machine.
Proof. unfold mul_f32, from_secs. repeat case_match; done. Qed.

Lemma instant_add_quiet {E} d x : instant_add (E := E) d x <> Panic missing_machine.
Proof. unfold instant_add. by case_match. Qed.

Lemma steers_heartbeat_start {E} rid st d : steers (sink_heartbeat_timeout_start rid st d : RM E N).
Proof.
  unfold sink_heartbeat_timeout_start.
  apply steers_bind; [apply steers_lift, mul_f32_quiet|intros].
  apply steers_bind; [apply steers_lift, instant_add_quiet|intros]. steer.
Qed.

#[local] Opaque sink_heartbeat_timeout_start.

Lemma steers_incoming p : steers (_incoming_wft p).
Proof.
  unfold _incoming_wft, activation_of_wft, wft_without_jobs.
  steer; apply steers_heartbeat_start.
Qed.

Lemma steers_activation {E} : steers (on_machines_pure get_wf_activation : RM E _).
Proof. apply steers_pure. intros w. apply (reaches_op OpActivation). Qed.

Lemma steers_check_more : steers _check_more_activations.
Proof. unfold _check_more_activations, sink_la_requests. steer; apply steers_activation. Qed.

Lemma steers_prepare {E} c d b : steers (prepare_complete_resp c d b : RM E _).
Proof.
  unfold prepare_complete_resp, report_success. steer.
  - apply steers_pure. intros w. apply (reaches_op OpTakeMessages).
  - apply steers_pure. intros w. apply (reaches_op (OpMetadata _ _)).
Qed.

#[local] Opaque prepare_complete_resp.

Lemma steers_apply c u : steers (apply_completion c u).
Proof.
  unfold apply_completion, sink_la_requests. steer.
  apply steers_pure. intros w. apply (reaches_op (OpDrainLocalActivities _)).
Qed.

#[local] Opaque apply_completion.

Lemma steers_lang_flags {E} flags :
  steers (on_run (fun r : Run => set_wfm (add_lang_used_flags flags (mr_wfm r)) r) : RM E _).
Proof. apply steers_on_run. intros r. apply (reaches_op (OpLangFlags flags)). Qed.

Lemma steers_process c u : steers (_process_completion c u).
Proof.
  unfold _process_completion, wait_on_las. apply steers_bind; [apply steers_lang_flags|intros].
  steer; first [apply steers_prepare|apply steers_apply|apply steers_heartbeat_start].
Qed.

#[local] Opaque _process_completion.

Lemma steers_fetched u p : steers (_fetched_page_completion u p).
Proof. unfold _fetched_page_completion. steer; apply steers_process. Qed.

Lemma steers_resolution res : steers (_local_resolution res).
Proof. unfold _local_resolution, notify_of_local_result. steer; apply steers_prepare. Qed.

Lemma steers_heartbeat {E} : steers (_heartbeat_timeout : RM E _).
Proof. unfold _heartbeat_timeout, fulfill. steer; apply steers_prepare. Qed.

Lemma try_use_reads f fl : (try_use f false fl).1 = fl.
Proof. by destruct fl. Qed.

Lemma set_flags_same w : set_observed_internal_flags w.(wm_observed_internal_flags) w = w.
Proof. by destruct w. Qed.

Lemma steers_preprocess {E} cmds : steers (run_preprocess_command_sequence cmds : RM E _).
Proof.
  intros [r t] Hi. unfold run_preprocess_command_sequence, mbind, M_bind. simpl.
  destruct (wm_replaying (mr_wfm r)); [|by split].
  pose proof (try_use_reads MoveTerminalCommands (wm_observed_internal_flags (mr_wfm r))) as Hf.
  destruct (try_use _ _ _) as [fl used]. simpl in *. subst fl. rewrite set_flags_same. by split.
Qed.

#[local] Opaque _incoming_wft _check_more_activations _fetched_page_completion
  _local_resolution run_preprocess_command_sequence.

(** *** The functions that call one another *)

Lemma steers_outgoing a : steers (outgoing a).
Proof. unfold outgoing. steer. Qed.

Lemma steers_insert a : steers (insert_outstanding_activation a).
Proof. unfold insert_outstanding_activation. steer. Qed.

Definition all_steer (n : nat) : Prop :=
  (forall o, steers (update_to_acts n o))
  /\ (forall p, steers (incoming_wft n p))
  /\ (forall c r f a ch, steers (failed_completion n c r f a ch))
  /\ (forall i, steers (request_eviction n i))
  /\ steers (check_more_activations n)
  /\ (forall c f v ch b, steers (successful_completion n c f v ch b))
  /\ (forall c, steers (process_completion n c))
  /\ (forall o ch, steers (reply_to_complete n o ch)).

Lemma steers_all n : all_steer n.
Proof.
  induction n as [|n (Hu & Hin & Hf & Hev & Hc & Hs & Hp & Hr)].
  { split_and!; intros; apply steers_throw. }
  split_and!; intros.
  - rewrite update_to_acts_S. unfold update_to_acts_body, settle, fulfill.
    steer; first [apply steers_check_more|apply steers_outgoing|apply steers_insert|auto].
  - rewrite incoming_wft_S. unfold incoming_wft_body. steer; [apply steers_incoming|auto].
  - rewrite failed_completion_S. unfold failed_completion_body, evict_after_failure, report_failure.
    steer; auto.
  - rewrite request_eviction_S. unfold request_eviction_body, store_eviction. steer; auto.
  - rewrite check_more_activations_S. unfold check_more_activations_body.
    steer; [apply steers_check_more|auto].
  - rewrite successful_completion_S.
    unfold successful_completion_body, completion_without_wft, completion_with_wft.
    steer; first [apply steers_preprocess|auto].
  - rewrite process_completion_S. unfold process_completion_body.
    steer; [apply steers_process|auto].
  - rewrite reply_to_complete_S. unfold reply_to_complete_body. steer; auto.
Qed.

(** ** Sequences of calls *)

(** A reset of the run to an earlier task drops machines. *)
Definition no_reset (i : run_input) : Prop :=
  match i with RI_MarkComplete (Reported (Some _) _) => False | _ => True end.

Lemma steers_step n i : no_reset i -> steers (run_step n i).
Proof.
  destruct (steers_all n) as (Hu & Hin & Hf & Hev & Hc & Hs & Hp & Hr).
  destruct i; simpl; intros Hi; auto.
  - steer; auto.
  - unfold fetched_page_completion. steer; [apply steers_fetched|auto].
  - unfold run_local_resolution. steer; [apply steers_resolution|auto].
  - unfold heartbeat_timeout. apply steers_bind; [apply steers_heartbeat|intros]. steer; auto.
  - steer; auto.
  - unfold mark_wft_complete. steer; done.
  - apply steers_bind; [|intros; apply steers_ret]. apply steers_on_run. intros r.
    unfold finish_activation. repeat case_match; by simplify_eq/=.
  - apply steers_bind; [|intros; apply steers_ret]. apply steers_on_run. intros r.
    unfold buffer_wft_if_outstanding_work. by case_match.
Qed.

(** The calls one after the other, each with its depth; a call that panics ends
    the sequence. *)
Fixpoint run_steps (inputs : list (nat * run_input)) (s : State)
  : State * list (outcome Depth RunUpdateAct) :=
  match inputs with
  | [] => (s, [])
  | (n, i) :: inputs =>
      match run_step n i s with
      | (s, Panic msg) => (s, [Panic msg])
      | (s, r) => let '(s, rs) := run_steps inputs s in (s, r :: rs)
      end
  end.

(** From a new run, in any sequence of tasks, completions, failures, fetched
    pages, local activity results, heartbeats and evictions, the machines of the
    run are where a sequence of the operations of [WorkflowMachines] takes them,
    and no call panics for a machine that is missing.  So what is proved of all
    sequences of operations on the machines holds of the machines of a run. *)
Theorem run_drives_machines (basics : RunBasics) (t : list effect)
    (inputs : list (nat * run_input)) :
  Forall (fun i => no_reset i.2) inputs ->
  let '(s, rs) := run_steps inputs (new_managed_run basics, t) in
  (exists ops, s.1.(mr_wfm) = (run_ops ops (WorkflowMachines_new basics Driven.new)).1)
  /\ Forall (fun r => r <> Panic missing_machine) rs.
Proof.
  assert (forall s, wm_inv s.1.(mr_wfm) -> Forall (fun i => no_reset i.2) inputs ->
    reaches s.1.(mr_wfm) (run_steps inputs s).1.1.(mr_wfm)
    /\ Forall (fun r => r <> Panic missing_machine) (run_steps inputs s).2) as Hall.
  { induction inputs as [|[n i] inputs IH]; intros s Hi Hr; [done|]. inversion Hr as [|?? Hi0 Hr0]; subst.
    simpl in *. destruct (steers_step n i Hi0 s Hi) as [Hre Hq].
    destruct (run_step n i s) as [s1 r]. simpl in *.
    destruct (IH s1 (reaches_inv _ _ Hre Hi) Hr0) as [Hre1 Hq1].
    destruct (run_steps inputs s1) as [s2 rs]. simpl in *.
    destruct r; simpl; (split; [by (done || etrans)|by repeat constructor]). }
  intros Hr. destruct (Hall (new_managed_run basics, t) (new_inv basics _) Hr) as [Hre Hq].
  by destruct (run_steps inputs _).
Qed.
End drives.
