(* ===== verification/ManagedRunExamples.v ===== *)
(** * Runs at work

    Managed runs on concrete tasks: two local activities that outlast their
    workflow task, a timer, a failure; and what the theorems about managed runs
    say there. *)
From Stdlib Require Import ZArith Lia.
From stdpp Require Import base option list strings gmap.
From S2P Require Import Prelude Flags Protos ProtoExt CoreProtos Fsm LocalActs DrivenWorkflow.
From S2P Require Import Machines HistoryUpdate WMState WorkflowMachines WMRun WorkflowTasks.
From S2P Require Import ManagedRun ManagedRunFacts ManagedRunSafety.

Module RunExample.
Import WMRun.Example.
#[local] Existing Instance externs.

(** Clocks that count, no immediate resolutions, receivers that listen. *)
#[local] Instance env : RunEnv :=
  {| instant_now t := Z.of_nat (length t);
     command_times _ _ := 0%Z;
     schedule_times _ _ := 0%Z;
     sink_answer _ _ := [];
     chan_open _ _ := true;
     iter_core _ s := elements s;
     iter_lang _ s := elements s;
     debug_failure _ := EmptyString |}.

Definition paginator : HistoryPaginator :=
  HistoryPaginator_new [] 0 0 "wf" "run" Done.

Definition task (token : string) (attempt : Z) (u : HistoryUpdate) : PermittedWFT :=
  {| pwft_work := {| pw_task_token := token; pw_attempt := attempt;
                     pw_execution := {| WorkflowExecution_workflow_id := "wf";
                                        WorkflowExecution_run_id := "run" |};
                     pw_workflow_type := "t"; pw_legacy_query := None; pw_query_requests := [];
                     pw_update := u; pw_messages := [] |};
     pwft_permit := 0; pwft_paginator := paginator |}.

Definition run_basics : RunBasics :=
  {| rb_worker_config := basics.(rb_worker_config);
     rb_workflow_id := "wf"; rb_workflow_type := "t"; rb_run_id := "run";
     rb_history := dummy; rb_sdk_metadata_capability := true;
     rb_sdk_name := "core"; rb_sdk_version := "1" |}.

Definition new_state : ManagedRun (K := N) (Sm := counted_map) * list effect :=
  (new_managed_run run_basics, []).

Definition local_activity (seq : Z) : WFCommand :=
  {| wfc_variant := AddLocalActivity
       {| ScheduleLocalActivity_seq := seq; ScheduleLocalActivity_activity_id := to_string seq;
          ScheduleLocalActivity_activity_type := "t"; ScheduleLocalActivity_attempt := 1;
          ScheduleLocalActivity_original_schedule_time := None;
          ScheduleLocalActivity_headers := ∅; ScheduleLocalActivity_arguments := [];
          ScheduleLocalActivity_schedule_to_close_timeout :=
            Some {| Duration_seconds := 60; Duration_nanos := 0 |};
          ScheduleLocalActivity_schedule_to_start_timeout := None;
          ScheduleLocalActivity_start_to_close_timeout := None;
          ScheduleLocalActivity_retry_policy := None;
          ScheduleLocalActivity_local_retry_threshold := None;
          ScheduleLocalActivity_cancellation_type := 0 |};
     wfc_metadata := None |}.

Definition resolution (seq : Z) : LocalActivityResolution :=
  {| lar_seq := seq; lar_result := LAR_Completed {| ar_Success_result := None |};
     lar_runtime := 0; lar_attempt := 1; lar_backoff := None; lar_original_schedule_time := None |}.

(** The task after a heartbeat: nothing happened. *)
Definition heartbeat_task : list HistoryEvent :=
  [ev 4 ET_WorkflowTaskCompleted (HA_WorkflowTaskCompleted (completed_attributes 4));
   wft_scheduled 5; wft_started 6].

(** Two local activities; the timer of the task elapses; a new task is started for
    them; one of them is done and lang is told. *)
Definition two_local_activities : list (nat * run_input) :=
  [(20, RI_IncomingWft (task "t1" 1 (update first_task 0 3)));
   (20, RI_Successful [local_activity 1; local_activity 2] [] VB_Unspecified (Some 1%N));
   (20, RI_Heartbeat);
   (20, RI_MarkComplete (Reported None 0));
   (20, RI_Finish (fun _ => true));
   (20, RI_IncomingWft (task "t2" 1 (update heartbeat_task 3 6)));
   (20, RI_LocalResolution (resolution 1))].

Definition state_after (inputs : list (nat * run_input))
  : ManagedRun (K := N) (Sm := counted_map) * list effect := (run_steps inputs new_state).1.


(** The completion with the two local activities waits for them: its channel is
    held, and nothing was answered. *)
Lemma completions_answered_once_witness :
  exists s' act,
    run_step 20 (RI_Successful [local_activity 1; local_activity 2] [] VB_Unspecified (Some 1%N))
      (state_after (take 1 two_local_activities)) = (s', Ok act)
    /\ held s'.1 = [1%N] /\ replied s'.2 = []
    /\ s'.1.(mr_activation) = Some OA_Normal /\ no_activation act.
Proof.
  destruct (run_step 20 _ (state_after (take 1 two_local_activities))) as [s' r] eqn:E.
  assert (r = Ok None) as Er by (replace r with (s', r).2 by done; rewrite <-E; vm_compute; reflexivity).
  assert (held s'.1 = [1%N]) as Eh
    by (replace s' with (s', r).1 by done; rewrite <-E; vm_compute; reflexivity).
  assert (replied s'.2 = []) as Ep
    by (replace s' with (s', r).1 by done; rewrite <-E; vm_compute; reflexivity).
  subst r. exists s', None. split; [reflexivity|]. split; [exact Eh|]. split; [exact Ep|].
  assert ((state_after (take 1 two_local_activities)).1.(mr_activation) = Some OA_Normal) as Ea
    by (vm_compute; reflexivity).
  assert (idle (state_after (take 1 two_local_activities)).1) as Ei
    by (split; vm_compute; reflexivity).
  destruct (completions_answered_once 19
    (RI_Successful [local_activity 1; local_activity 2] [] VB_Unspecified (Some 1%N))
    OA_Normal _ s' None Ea Ei E) as (Ha & _ & Hn).
  split; [exact Ha|exact Hn].
Defined.

(** Lang reports a failure of the first attempt: the task is failed. *)
Definition lang_failure : completion_Failure :=
  completion_Failure_from (application_failure "boom" false).

Lemma failed_activation_outcome_witness :
  exists s' act,
    failed_completion 20 FC_Unspecified ER_LangFail lang_failure false (Some 1%N)
      (state_after (take 1 two_local_activities)) = (s', Ok act)
    /\ replies s'.2
       = [(1%N, {| acr_replaying := false;
                   acr_outcome := ReportWFTFail (Report "t1" FC_Unspecified lang_failure) |})].
Proof.
  set (s := state_after (take 1 two_local_activities)).
  destruct (failed_completion 20 _ _ _ _ _ s) as [s' r] eqn:E.
  assert (r = Ok None) as Er by (replace r with (s', r).2 by done; rewrite <-E; vm_compute; reflexivity).
  subst r. exists s', None. split; [reflexivity|].
  assert (s.1.(mr_activation) = Some OA_Normal) as Ea by (vm_compute; reflexivity).
  assert (exists wft, s.1.(mr_wft) = Some wft /\ wft.(ot_info).(wti_attempt) = 1%Z
          /\ wft.(ot_info).(wti_task_token) = "t1") as (wft & Ew & Eatt & Etok)
    by (vm_compute; eexists; split; [reflexivity|split; reflexivity]).
  assert (s.1.(mr_completion_waiting_on_page_fetch) = None) as Ep by (vm_compute; reflexivity).
  assert (s.1.(mr_config) = rb_worker_config run_basics) as Ec by (vm_compute; reflexivity).
  assert (s.1.(mr_wfm).(wm_replaying) = false) as Erep by (vm_compute; reflexivity).
  assert (pending_work_is_legacy_query s.1 = false) as El by (vm_compute; reflexivity).
  assert (replies s.2 = []) as Et by (vm_compute; reflexivity).
  rewrite (failed_activation_outcome 20 OA_Normal wft FC_Unspecified ER_LangFail lang_failure
             false 1%N s s' None Ea Ew Ep ltac:(rewrite Ec; intros ty; reflexivity) E).
  rewrite Erep, El, Et. unfold failure_outcome. rewrite Eatt, Etok. reflexivity.
Defined.

(** The run with the two local activities goes on as expected ... *)
Lemma run_drives_machines_witness :
  (exists ops, (state_after two_local_activities).1.(mr_wfm)
               = (run_ops ops (WorkflowMachines_new run_basics Driven.new)).1)
  /\ (state_after two_local_activities).1.(mr_activation) = Some OA_Normal.
Proof.
  split; [|vm_compute; reflexivity].
  pose proof (run_drives_machines (K := N) (Sm := counted_map) run_basics [] two_local_activities
                ltac:(repeat constructor)) as H.
  unfold state_after, new_state. destruct (run_steps _ _) as [s rs]. exact (proj1 H).
Defined.

(** ... and panics if the timer of its second task elapses before lang has
    handled the result of the first local activity. *)
Lemma heartbeat_during_activation_panics_witness :
  (run_step 20 RI_Heartbeat (state_after two_local_activities)).2
  = Panic "Attempted to insert a new outstanding activation, but there already was one outstanding".
Proof.
  assert ((state_after two_local_activities).1.(mr_activation) = Some OA_Normal) as Ea
    by (vm_compute; reflexivity).
  assert (exists w, (state_after two_local_activities).1.(mr_waiting_on_la) = Some w
          /\ w.(wola_completion_dat) = None) as (w & Ew & Ed)
    by (vm_compute; eexists; split; reflexivity).
  exact (heartbeat_during_activation_panics 19 OA_Normal w (state_after two_local_activities)
           Ea Ew Ed).
Defined.

(** Two queries and two tasks arrive while the run is busy. *)
Definition query_task (token : string) : PermittedWFT :=
  {| pwft_work := {| pw_task_token := token; pw_attempt := 1;
                     pw_execution := {| WorkflowExecution_workflow_id := "wf";
                                        WorkflowExecution_run_id := "run" |};
                     pw_workflow_type := "t";
                     pw_legacy_query := Some {| WorkflowQuery_query_type := "q";
                                                WorkflowQuery_query_args := None;
                                                WorkflowQuery_header := None |};
                     pw_query_requests := []; pw_update := update [] 3 0; pw_messages := [] |};
     pwft_permit := 0; pwft_paginator := paginator |}.

Definition arrivals : list PermittedWFT :=
  [query_task "q1"; task "t1" 1 (update first_task 0 3);
   query_task "q2"; task "t2" 1 (update first_task 0 3)].


(** An eviction and a patch: the patch goes first. *)
Definition two_jobs : WorkflowActivation :=
  with_jobs (create_evict_activation "run" "m" ER_CacheFull)
    [{| WorkflowActivationJob_variant := Some (J_RemoveFromCache
          {| RemoveFromCache_message := "m"; RemoveFromCache_reason := 1 |}) |};
     {| WorkflowActivationJob_variant := Some (J_NotifyHasPatch
          {| NotifyHasPatch_patch_id := "p" |}) |}].

Lemma jobs_shipped_in_order_witness :
  exists out, prepare_to_ship_activation (E := Depth) two_jobs = Ok (with_jobs two_jobs out)
    /\ length out = 2.
Proof.
  destruct (jobs_shipped_in_order (E := Depth) two_jobs) as (out & Hout & Hp & _);
    [repeat constructor; eexists; reflexivity|].
  exists out. split; [exact Hout|]. apply Permutation_length in Hp. exact Hp.
Defined.

(** One slot for two activities that ask for it. *)
Definition eager_command : Command :=
  {| Command_command_type := 1; Command_user_metadata := None;
     Command_attributes := Some (CA_ScheduleActivityTask
       {| ScheduleActivityTaskCmd_activity_id := "1";
          ScheduleActivityTaskCmd_activity_type := None;
          ScheduleActivityTaskCmd_task_queue := Some (TaskQueue_from "q");
          ScheduleActivityTaskCmd_header := None; ScheduleActivityTaskCmd_input := None;
          ScheduleActivityTaskCmd_schedule_to_close_timeout := None;
          ScheduleActivityTaskCmd_schedule_to_start_timeout := None;
          ScheduleActivityTaskCmd_start_to_close_timeout := None;
          ScheduleActivityTaskCmd_heartbeat_timeout := None;
          ScheduleActivityTaskCmd_retry_policy := None;
          ScheduleActivityTaskCmd_request_eager_execution := true;
          ScheduleActivityTaskCmd_use_workflow_build_id := false;
          ScheduleActivityTaskCmd_priority := None |}) |}.

Definition take_slot (free : nat) : nat * option nat :=
  match free with O => (O, None) | S n => (n, Some n) end.

Lemma eager_requests_match_reservations_witness :
  exists h' cmds' reserved tasks,
    reserve_activity_slots_for_outgoing_commands take_slot "q" [eager_command; eager_command]
      (Some 1) = (h', cmds', reserved)
    /\ length reserved = 1 /\ handle_eager_activities (E := Depth) true reserved ["a"] = Ok tasks
    /\ tasks.*2 = ["a"].
Proof.
  destruct (reserve_activity_slots_for_outgoing_commands take_slot "q"
    [eager_command; eager_command] (Some 1)) as [[h' cmds'] reserved] eqn:E.
  assert (length reserved = 1) as El
    by (replace reserved with (h', cmds', reserved).2 by reflexivity; rewrite <-E; reflexivity).
  destruct (eager_requests_match_reservations (E := Depth) take_slot _ _ _ _ _ _ ["a"] E)
    as (_ & Hlen & _ & Ht).
  destruct Ht as (tasks & Ht & Hs); [rewrite Hlen, El; reflexivity|].
  exists h', cmds', reserved, tasks. split; [reflexivity|]. split; [exact El|]. split; [exact Ht|exact Hs].
Defined.

(** The machines of a new run whose first task is known. *)
Lemma replay_loop_ends_witness : apply_tasks 10 new_run = apply_next_task_if_ready new_run.
Proof.
  assert (has_pending_jobs new_run = false) as Hj by (vm_compute; reflexivity).
  assert (length new_run.(wm_last_history_from_server).(events) = 3) as El
    by (vm_compute; reflexivity).
  pose proof (replay_loop_ends 6 new_run Hj) as H. rewrite El in H. exact H.
Defined.
End RunExample.
