(* ===== verification/RunCache.v ===== *)
(** * The cache of runs (worker/workflow/run_cache.rs)

    The runs a worker keeps, in the order of their last use, over the [lru]
    crate and over what a run offers to the cache and to the stream of inputs. *)
From Stdlib Require Import ZArith Lia.
From stdpp Require Import base option list strings gmap.
From S2P Require Import Prelude Flags Protos ProtoExt CoreProtos Fsm LocalActs DrivenWorkflow.
From S2P Require Import Machines HistoryUpdate WMState WorkflowMachines WorkflowTasks ManagedRun.

(** ** Association lists, most recently used first *)
Section assoc.
  Context {V : Type}.
  Implicit Types (l : list (string * V)).

Fixpoint assoc (k : string) l : option V :=
  match l with
  | [] => None
  | (k', v) :: l => if String.eqb k k' then Some v else assoc k l
  end.

Fixpoint remove_key (k : string) l : list (string * V) :=
  match l with
  | [] => []
  | (k', v) :: l => if String.eqb k k' then l else (k', v) :: remove_key k l
  end.

Fixpoint assign (k : string) (v : V) l : list (string * V) :=
  match l with
  | [] => []
  | (k', v') :: l => if String.eqb k k' then (k', v) :: l else (k', v') :: assign k v l
  end.

Definition promote (k : string) l : list (string * V) :=
  match assoc k l with
  | Some v => (k, v) :: remove_key k l
  | None => l
  end.

Lemma assoc_remove_length k l v :
  assoc k l = Some v -> S (length (remove_key k l)) = length l.
Proof.
  induction l as [|[k' v'] l IH]; simpl; [done|]. destruct (String.eqb k k'); [done|].
  intros Hk. simpl. by rewrite IH.
Qed.

Lemma promote_length k l : length (promote k l) = length l.
Proof. unfold promote. destruct (assoc k l) eqn:Hk; [|done]. by eapply assoc_remove_length. Qed.

Lemma assign_length k v l : length (assign k v l) = length l.
Proof. induction l as [|[k' v'] l IH]; simpl; [done|]. destruct (String.eqb k k'); simpl; auto. Qed.

Lemma remove_length k l : length (remove_key k l) <= length l.
Proof. induction l as [|[k' v'] l IH]; simpl; [lia|]. destruct (String.eqb k k'); simpl; lia. Qed.

Lemma assoc_promote k k' l : assoc k (promote k' l) = assoc k l.
Proof.
  unfold promote. destruct (assoc k' l) as [v|] eqn:Hk'; [|done]. simpl.
  destruct (String.eqb_spec k k') as [->|Hne]; [done|]. clear Hk'.
  induction l as [|[k1 v1] l IH]; simpl; [done|].
  destruct (String.eqb_spec k' k1) as [->|]; simpl.
  - by rewrite (proj2 (String.eqb_neq k k1)).
  - by destruct (String.eqb k k1).
Qed.

Lemma assoc_assign k k' v l :
  assoc k (assign k' v l) = if String.eqb k k' then (fun _ => v) <$> assoc k l else assoc k l.
Proof.
  induction l as [|[k1 v1] l IH]; simpl; [by destruct (String.eqb k k')|].
  destruct (String.eqb_spec k' k1) as [->|]; simpl.
  - by destruct (String.eqb_spec k k1).
  - destruct (String.eqb_spec k k1) as [->|]; [|done].
    by rewrite (proj2 (String.eqb_neq k1 k')) by done.
Qed.
End assoc.

(** ** The [lru] crate

    [lru_items] are the entries, most recently used first, as [iter] gives them;
    [lru_touch] is what [get] and [get_mut] do to the order, [lru_set] a write
    through the reference that [get_mut] gives. *)
Class LruCache (C : Type -> Type) := {
  lru_new : forall {V}, nat -> C V;
  lru_cap : forall {V}, C V -> nat;
  lru_items : forall {V}, C V -> list (string * V);
  lru_touch : forall {V}, string -> C V -> C V;
  lru_set : forall {V}, string -> V -> C V -> C V;
  lru_push : forall {V}, string -> V -> C V -> C V * option (string * V);
  lru_pop : forall {V}, string -> C V -> C V * option V;
}.

(** The documented behaviour: [push] gives back the entry it replaces, or the
    least recently used one if the cache was full. *)
Class LruCacheLaws (C : Type -> Type) `{LruCache C} : Prop := {
  lru_new_items : forall V n, lru_items (lru_new (V := V) n) = [];
  lru_new_cap : forall V n, lru_cap (lru_new (V := V) n) = n;
  lru_touch_items : forall V k (c : C V), lru_items (lru_touch k c) = promote k (lru_items c);
  lru_touch_cap : forall V k (c : C V), lru_cap (lru_touch k c) = lru_cap c;
  lru_set_items : forall V k v (c : C V), lru_items (lru_set k v c) = assign k v (lru_items c);
  lru_set_cap : forall V k v (c : C V), lru_cap (lru_set k v c) = lru_cap c;
  lru_push_spec : forall V k v (c : C V),
    lru_cap (lru_push k v c).1 = lru_cap c
    /\ match assoc k (lru_items c) with
       | Some old => lru_items (lru_push k v c).1 = (k, v) :: remove_key k (lru_items c)
                     /\ (lru_push k v c).2 = Some (k, old)
       | None =>
           if (length (lru_items c) <? lru_cap c)%nat
           then lru_items (lru_push k v c).1 = (k, v) :: lru_items c /\ (lru_push k v c).2 = None
           else lru_items (lru_push k v c).1 = (k, v) :: removelast (lru_items c)
                /\ (lru_push k v c).2 = last (lru_items c)
       end;
  lru_pop_spec : forall V k (c : C V),
    lru_cap (lru_pop k c).1 = lru_cap c
    /\ lru_items (lru_pop k c).1 = remove_key k (lru_items c)
    /\ (lru_pop k c).2 = assoc k (lru_items c);
}.

(** A cache as a list, which has the laws. *)
Record list_cache (V : Type) := { lc_cap : nat; lc_items : list (string * V) }.
Arguments lc_cap {V}. Arguments lc_items {V}.

#[global] Instance list_lru : LruCache list_cache :=
  {| lru_new V n := {| lc_cap := n; lc_items := [] |};
     lru_cap V c := c.(lc_cap);
     lru_items V c := c.(lc_items);
     lru_touch V k c := {| lc_cap := c.(lc_cap); lc_items := promote k c.(lc_items) |};
     lru_set V k v c := {| lc_cap := c.(lc_cap); lc_items := assign k v c.(lc_items) |};
     lru_push V k v c :=
       match assoc k c.(lc_items) with
       | Some old => ({| lc_cap := c.(lc_cap); lc_items := (k, v) :: remove_key k c.(lc_items) |},
                      Some (k, old))
       | None =>
           if (length c.(lc_items) <? c.(lc_cap))%nat
           then ({| lc_cap := c.(lc_cap); lc_items := (k, v) :: c.(lc_items) |}, None)
           else ({| lc_cap := c.(lc_cap); lc_items := (k, v) :: removelast c.(lc_items) |},
                 last c.(lc_items))
       end;
     lru_pop V k c := ({| lc_cap := c.(lc_cap); lc_items := remove_key k c.(lc_items) |},
                       assoc k c.(lc_items)) |}.

#[global] Instance list_lru_laws : LruCacheLaws list_cache.
Proof.
  split; try done; intros; simpl. split; repeat case_match; done.
Qed.

(** ** What a run offers

    The methods of [ManagedRun] that the cache and the stream call, on the run
    and the effects of the worker so far. *)
Class RunHandle (H T : Type) := {
  rh_new : RunBasics -> H;
  rh_incoming_wft : PermittedWFT -> M (H * T) Depth RunUpdateAct;
  rh_successful_completion : list WFCommand -> list Z -> VersioningBehavior -> option RespChan ->
    M (H * T) Depth (HistoryPaginator + RunUpdateAct);
  rh_failed_completion : WorkflowTaskFailedCause -> EvictionReason -> completion_Failure -> bool ->
    option RespChan -> M (H * T) Depth RunUpdateAct;
  rh_fetched_page_completion : HistoryUpdate -> HistoryPaginator -> M (H * T) Depth RunUpdateAct;
  rh_local_resolution : LocalActivityResolution -> M (H * T) Depth RunUpdateAct;
  rh_heartbeat_timeout : M (H * T) Depth RunUpdateAct;
  rh_request_eviction : RequestEvictMsg -> M (H * T) Depth EvictionRequestResult;
  rh_check_more_activations : M (H * T) Depth RunUpdateAct;
  rh_mark_wft_complete : WFTReportStatus -> M (H * T) Depth (option OutstandingTask);
  rh_finish_activation : (OutstandingActivation -> bool) -> H -> H * (bool * BufferedTasks);
  rh_buffer_wft_if_outstanding_work : PermittedWFT -> H -> H * option PermittedWFT;
  rh_wft : H -> option OutstandingTask;
  rh_trying_to_evict : H -> option RequestEvictMsg;
  rh_has_buffered_wft : H -> bool;
  rh_have_seen_terminal_event : H -> bool;
  rh_workflow_is_finished : H -> bool;
  rh_has_any_pending_work : bool -> bool -> H -> bool;
}.

(** What the stream relies on: a request to evict for want of a cache slot is
    remembered; a run that is being evicted, or that has a task buffered, has work
    pending. *)
Class RunHandleLaws (H T : Type) `{RunHandle H T} : Prop := {
  rh_eviction_remembered : forall info s s' res,
    info.(rem_reason) = ER_CacheFull ->
    rh_request_eviction info s = (s', Ok res) -> is_Some (rh_trying_to_evict s'.1);
  rh_eviction_is_work : forall ignore_buffered h,
    is_Some (rh_trying_to_evict h) -> rh_has_any_pending_work false ignore_buffered h = true;
  rh_buffered_is_work : forall ignore_evicts h,
    rh_has_buffered_wft h = true -> rh_has_any_pending_work ignore_evicts false h = true;
}.

(** Managed runs, with the depth that their calls may reach. *)
Section managed.
  Context {X : Externs} {K : Type} {Sm : Type -> Type} `{Countable K} `{SlotMap K Sm}.
  Context {R : RunEnv}.

Definition managed_handle (n : nat) : RunHandle (ManagedRun (K := K) (Sm := Sm)) (list effect) :=
  {| rh_new := new_managed_run;
     rh_incoming_wft := incoming_wft n;
     rh_successful_completion cmds flags vb chan := successful_completion n cmds flags vb chan false;
     rh_failed_completion := failed_completion n;
     rh_fetched_page_completion := fetched_page_completion n;
     rh_local_resolution := run_local_resolution n;
     rh_heartbeat_timeout := heartbeat_timeout n;
     rh_request_eviction := request_eviction n;
     rh_check_more_activations := check_more_activations n;
     rh_mark_wft_complete := mark_wft_complete;
     rh_finish_activation := finish_activation;
     rh_buffer_wft_if_outstanding_work := buffer_wft_if_outstanding_work;
     rh_wft := mr_wft;
     rh_trying_to_evict := mr_trying_to_evict;
     rh_has_buffered_wft := has_buffered_wft;
     rh_have_seen_terminal_event r := r.(mr_wfm).(wm_have_seen_terminal_event);
     rh_workflow_is_finished r := workflow_is_finished r.(mr_wfm);
     rh_has_any_pending_work := has_any_pending_work |}.
End managed.

(** ** The cache *)
Section cache.
  Context {C : Type -> Type} `{LruCache C} {Run Tr : Type} `{RunHandle Run Tr}.

Record RunCache := {
  rc_worker_config : WorkerConfig;
  rc_sdk_name_and_version : string * string;
  rc_sdk_metadata_capability : bool;
  rc_runs : C Run;
}.

Definition set_runs (c : C Run) (rc : RunCache) : RunCache :=
  {| rc_worker_config := rc.(rc_worker_config);
     rc_sdk_name_and_version := rc.(rc_sdk_name_and_version);
     rc_sdk_metadata_capability := rc.(rc_sdk_metadata_capability);
     rc_runs := c |}.

(** [RunCache::new]: there is room for one run at least. *)
Definition RunCache_new (config : WorkerConfig) (sdk_name_and_version : string * string)
    (sdk_metadata_capability : bool) : RunCache :=
  {| rc_worker_config := config;
     rc_sdk_name_and_version := sdk_name_and_version;
     rc_sdk_metadata_capability := sdk_metadata_capability;
     rc_runs := lru_new (if (0 <? config.(cfg_max_cached_workflows))%nat
                         then config.(cfg_max_cached_workflows) else 1) |}.

Definition cache_len (rc : RunCache) : nat := length (lru_items rc.(rc_runs)).
Definition is_full (rc : RunCache) : bool := (lru_cap rc.(rc_runs) =? cache_len rc)%nat.
Definition has_run (k : string) (rc : RunCache) : bool :=
  is_some (assoc k (lru_items rc.(rc_runs))).
Definition handles (rc : RunCache) : list Run := (lru_items rc.(rc_runs)).*2.
Definition runs_lru_order (rc : RunCache) : list (string * Run) := reverse (lru_items rc.(rc_runs)).
Definition current_lru_run (rc : RunCache) : option string := fst <$> last (lru_items rc.(rc_runs)).
Definition cache_capacity (rc : RunCache) : nat := rc.(rc_worker_config).(cfg_max_cached_workflows).

(** The cache and the effects. *)
Abbreviation CM := (M (RunCache * Tr) Depth).

(** [get_mut] and what is done with the run. *)
Definition with_run {A} (k : string) (f : M (Run * Tr) Depth A) : CM (option A) :=
  fun '(rc, t) =>
    match assoc k (lru_items rc.(rc_runs)) with
    | Some h =>
        let runs := lru_touch k rc.(rc_runs) in
        let '((h, t), r) := f (h, t) in
        ((set_runs (lru_set k h runs) rc, t),
         match r with Ok a => Ok (Some a) | Err e => Err e | Panic msg => Panic msg end)
    | None => ((rc, t), Ok None)
    end.

(** [instantiate_or_update]. *)
Definition cache_instantiate_or_update (pwft : PermittedWFT) : CM RunUpdateAct :=
  let run_id := pwft.(pwft_work).(pw_execution).(WorkflowExecution_run_id) in
  found ← with_run run_id (rh_incoming_wft pwft);
  match found with
  | Some rur => mret rur
  | None =>
      fun '(rc, t) =>
        let mrh := rh_new
          {| rb_worker_config := rc.(rc_worker_config);
             rb_workflow_id := pwft.(pwft_work).(pw_execution).(WorkflowExecution_workflow_id);
             rb_workflow_type := pwft.(pwft_work).(pw_workflow_type);
             rb_run_id := run_id;
             rb_history := dummy;
             rb_sdk_metadata_capability := rc.(rc_sdk_metadata_capability);
             rb_sdk_name := rc.(rc_sdk_name_and_version).1;
             rb_sdk_version := rc.(rc_sdk_name_and_version).2 |} in
        match rh_incoming_wft pwft (mrh, t) with
        | ((mrh, t), Ok rur) =>
            match lru_push run_id mrh rc.(rc_runs) with
            | (runs, None) => ((set_runs runs rc, t), Ok rur)
            | (runs, Some _) =>
                ((set_runs runs rc, t),
                 Panic "Overflowed run cache! Cache owner is expected to avoid this!")
            end
        | ((_, t), Err e) => ((rc, t), Err e)
        | ((_, t), Panic msg) => ((rc, t), Panic msg)
        end
  end.

(** [remove], without the metrics. *)
Definition cache_remove (k : string) : CM (option Run) :=
  fun '(rc, t) => let '(runs, h) := lru_pop k rc.(rc_runs) in ((set_runs runs rc, t), Ok h).

End cache.
Arguments RunCache : clear implicits.
