(* ===== verification/WorkflowStream.v ===== *)
(** * The stream of workflow inputs (worker/workflow/workflow_stream.rs,
    worker/workflow/wft_extraction.rs)

    The state of all cached runs, driven by workflow tasks, fetched history and
    what happens inside the worker; over the interface that a run offers. *)
From Stdlib Require Import ZArith Lia.
From stdpp Require Import base option list strings gmap.
From S2P Require Import Prelude Flags Protos ProtoExt CoreProtos Fsm LocalActs DrivenWorkflow.
From S2P Require Import Machines HistoryUpdate WMState WorkflowMachines WorkflowTasks ManagedRun RunCache.

(** ** Tasks and fetched history *)

(** [WFTExtractorOutput], without the counters of fetches and the spans. *)
Inductive WFTExtractorOutput :=
| EO_NewWFT (pwft : PermittedWFT)
| EO_FetchResult (pwft : PermittedWFT)
| EO_NextPage (paginator : HistoryPaginator) (update : HistoryUpdate)
| EO_FailedFetch (run_id : string) (err : Status) (auto_reply_fail_tt : option string)
| EO_PollerDead.

Section extractor.
  Context {ClientState : Type}.
  Variable get_workflow_execution_history :
    ClientState -> string -> string -> string -> ClientState * outcome Status GetHistoryResponse.

(** What a poll gives: [None] when the fuel for fetching is spent. *)
Definition extract_wft (fuel : nat) (c : ClientState)
    (stream_in : Status + (ValidPollWFTQResponse * N))
  : option (ClientState * outcome Status WFTExtractorOutput) :=
  match stream_in with
  | inr (wft, permit) =>
      let rid := wft.(wft_workflow_execution).(WorkflowExecution_run_id) in
      let tt_ := wft.(wft_task_token) in
      '(c, r) ← from_poll get_workflow_execution_history fuel c wft;
      Some (c, match r with
               | Ok (pag, prep) => Ok (EO_NewWFT {| pwft_work := prep; pwft_permit := permit;
                                                    pwft_paginator := pag |})
               | Err err => Ok (EO_FailedFetch rid err (Some tt_))
               | Panic msg => Panic msg
               end)
  | inl e => Some (c, Err e)
  end.

(** What a request for history gives. *)
Definition extract_fetch (fuel : nat) (c : ClientState) (fetchreq : HistoryFetchReq)
  : option (ClientState * outcome Status WFTExtractorOutput) :=
  match fetchreq with
  | FetchFull original_wft =>
      let rid := original_wft.(pwft_work).(pw_execution).(WorkflowExecution_run_id) in
      '(c, r) ← from_fetchreq get_workflow_execution_history fuel c original_wft.(pwft_work)
                  original_wft.(pwft_paginator);
      Some (c, match r with
               | Ok (work, pag) =>
                   Ok (EO_FetchResult {| pwft_work := work;
                                         pwft_permit := original_wft.(pwft_permit);
                                         pwft_paginator := pag |})
               | Err err => Ok (EO_FailedFetch rid err None)
               | Panic msg => Panic msg
               end)
  | FetchNextPage paginator =>
      '(c, paginator, r) ← extract_next_update get_workflow_execution_history fuel c paginator;
      Some (c, match r with
               | Ok update => Ok (EO_NextPage paginator update)
               | Err err => Ok (EO_FailedFetch paginator.(run_id) err None)
               | Panic msg => Panic msg
               end)
  end.
End extractor.

(** ** Inputs *)

(** [WFActCompleteMsg]. *)
Record WFActCompleteMsg := {
  acm_completion : ValidatedCompletion;
  acm_response_tx : option RespChan;
}.

(** [PostActivationMsg]. *)
Record PostActivationMsg := {
  pam_run_id : string;
  pam_wft_report_status : WFTReportStatus;
  pam_wft_from_complete : option WFTWithPaginator;
  pam_is_autocomplete : bool;
}.

Inductive LocalInputs :=
| LI_Completion (c : WFActCompleteMsg)
| LI_FetchedPageCompletion (paginator : HistoryPaginator) (update : HistoryUpdate)
| LI_LocalResolution (run_id : string) (res : LocalActivityResolution)
| LI_PostActivation (report : PostActivationMsg)
| LI_RequestEviction (evict : RequestEvictMsg)
| LI_HeartbeatTimeout (run_id : string)
| LI_GetStateInfo.

(** [LocalInputs::run_id]. *)
Definition LocalInputs_run_id (i : LocalInputs) : option string :=
  match i with
  | LI_Completion c => Some (vc_run_id c.(acm_completion))
  | LI_FetchedPageCompletion paginator _ => Some paginator.(run_id)
  | LI_LocalResolution run_id _ => Some run_id
  | LI_PostActivation pa => Some pa.(pam_run_id)
  | LI_RequestEviction re => Some re.(rem_run_id)
  | LI_HeartbeatTimeout hb => Some hb
  | LI_GetStateInfo => None
  end.

Inductive WFStreamInput :=
| NewWft (pwft : PermittedWFT)
| LocalInput (input : LocalInputs)
| PollerDead
| PollerError (e : Status)
| FailedFetch (run_id : string) (err : Status) (auto_reply_fail_tt : option string).

(** The two [From]s through [ExternalPollerInputs]. *)
Definition WFStreamInput_from (v : Status + WFTExtractorOutput) : WFStreamInput :=
  match v with
  | inr (EO_NewWFT pwft) => NewWft pwft
  | inr (EO_FetchResult updated_wft) => NewWft updated_wft
  | inr (EO_NextPage paginator update) => LocalInput (LI_FetchedPageCompletion paginator update)
  | inr (EO_FailedFetch run_id err tt_) => FailedFetch run_id err tt_
  | inr EO_PollerDead => PollerDead
  | inl e => PollerError e
  end.

Inductive NewOrFetchedComplete :=
| CompleteNew (c : WFActCompleteMsg)
| CompleteFetched (update : HistoryUpdate) (paginator : HistoryPaginator).

Definition complete_run_id (c : NewOrFetchedComplete) : string :=
  match c with
  | CompleteNew c => vc_run_id c.(acm_completion)
  | CompleteFetched _ p => p.(run_id)
  end.

(** [WFStreamOutput] or the [PollError]. *)
Inductive StreamOutput :=
| WFStreamOutput (activations : list ActivationOrAuto) (fetch_histories : list HistoryFetchReq)
| ShutDown
| TonicError (e : Status).

Definition workflow_completed (run_id : string) : RequestEvictMsg :=
  {| rem_run_id := run_id; rem_message := "Workflow completed";
     rem_reason := ER_WorkflowExecutionEnding; rem_auto_reply_fail_tt := None |}.

Definition cache_is_full (run_id : string) : RequestEvictMsg :=
  {| rem_run_id := run_id; rem_message := "Workflow cache full";
     rem_reason := ER_CacheFull; rem_auto_reply_fail_tt := None |}.

Definition run_of (pwft : PermittedWFT) : string :=
  pwft.(pwft_work).(pw_execution).(WorkflowExecution_run_id).

(** [buffer_resp_on_full_cache], on the buffered polls. *)
Fixpoint buffer_poll (work : PermittedWFT) (polls : list (list PermittedWFT))
  : list (list PermittedWFT) :=
  match polls with
  | [] => [[work]]
  | w :: polls =>
      if match w with ww :: _ => String.eqb (run_of ww) (run_of work) | [] => false end
      then (w ++ [work]) :: polls
      else w :: buffer_poll work polls
  end.

(** [Vec::pop]. *)
Definition vec_pop {A} (l : list A) : option (A * list A) :=
  match last l with
  | Some a => Some (a, removelast l)
  | None => None
  end.

Section stream.
  Context {C : Type -> Type} `{LruCache C} {Run Tr : Type} `{RunHandle Run Tr}.
  Context (debug_status : Status -> string).

Record WFStream := {
  ws_runs : RunCache C Run;
  ws_buffered_polls_need_cache_slot : list (list PermittedWFT);
  ws_runs_needing_fetching : list HistoryFetchReq;
  ws_shutdown : bool;
  ws_ignore_evicts_on_shutdown : bool;
}.

Definition set_cache (x : RunCache C Run) (s : WFStream) : WFStream :=
  {| ws_runs := x;
     ws_buffered_polls_need_cache_slot := s.(ws_buffered_polls_need_cache_slot);
     ws_runs_needing_fetching := s.(ws_runs_needing_fetching);
     ws_shutdown := s.(ws_shutdown);
     ws_ignore_evicts_on_shutdown := s.(ws_ignore_evicts_on_shutdown) |}.

Definition set_polls (x : list (list PermittedWFT)) (s : WFStream) : WFStream :=
  {| ws_runs := s.(ws_runs);
     ws_buffered_polls_need_cache_slot := x;
     ws_runs_needing_fetching := s.(ws_runs_needing_fetching);
     ws_shutdown := s.(ws_shutdown);
     ws_ignore_evicts_on_shutdown := s.(ws_ignore_evicts_on_shutdown) |}.

Definition set_fetching (x : list HistoryFetchReq) (s : WFStream) : WFStream :=
  {| ws_runs := s.(ws_runs);
     ws_buffered_polls_need_cache_slot := s.(ws_buffered_polls_need_cache_slot);
     ws_runs_needing_fetching := x;
     ws_shutdown := s.(ws_shutdown);
     ws_ignore_evicts_on_shutdown := s.(ws_ignore_evicts_on_shutdown) |}.

Definition set_shutdown (x : bool) (s : WFStream) : WFStream :=
  {| ws_runs := s.(ws_runs);
     ws_buffered_polls_need_cache_slot := s.(ws_buffered_polls_need_cache_slot);
     ws_runs_needing_fetching := s.(ws_runs_needing_fetching);
     ws_shutdown := x;
     ws_ignore_evicts_on_shutdown := s.(ws_ignore_evicts_on_shutdown) |}.

(** The stream's state and the effects of its runs. *)
Abbreviation SM := (M (WFStream * Tr) Depth).

Definition the_stream : SM WFStream := fun s => (s, Ok s.1).
Definition on_stream (f : WFStream -> WFStream) : SM unit := fun '(s, t) => ((f s, t), Ok tt).
Definition on_cache {A} (m : M (RunCache C Run * Tr) Depth A) : SM A :=
  fun '(s, t) => let '((rc, t), r) := m (s.(ws_runs), t) in ((set_cache rc s, t), r).

(** A run that exists, and a function on it. *)
Definition on_run_of {A} (k : string) (f : M (Run * Tr) Depth A) : SM (option A) :=
  on_cache (with_run k f).

(** A method that only changes the run. *)
Definition pure_call {A} (f : Run -> Run * A) : M (Run * Tr) Depth A :=
  fun '(h, t) => let '(h, a) := f h in ((h, t), Ok a).

Definition needs_fetching (req : HistoryFetchReq) : SM unit :=
  on_stream (fun s => set_fetching (s.(ws_runs_needing_fetching) ++ [req]) s).

(** [build_internal]'s first state, of a token that may have been cancelled already. *)
Definition build (config : WorkerConfig) (sdk : string * string) (sdk_metadata_capability : bool)
    (shutdown : bool) : WFStream :=
  {| ws_runs := RunCache_new config sdk sdk_metadata_capability;
     ws_buffered_polls_need_cache_slot := [];
     ws_runs_needing_fetching := [];
     ws_shutdown := shutdown;
     ws_ignore_evicts_on_shutdown := config.(cfg_ignore_evicts_on_shutdown) |}.

(** [_instantiate_or_update]. *)
Definition _instantiate_or_update (pwft : PermittedWFT) : SM (HistoryFetchReq + RunUpdateAct) :=
  found ← on_run_of (run_of pwft) (pure_call (rh_buffer_wft_if_outstanding_work pwft));
  match found with
  | Some None => mret (inr None)
  | Some (Some _) | None =>
      let pwft := match found with Some (Some w) => w | _ => pwft end in
      s ← the_stream;
      if negb (has_run (run_of pwft) s.(ws_runs)) && is_full s.(ws_runs) then
        _ ← on_stream (fun s => set_polls (buffer_poll pwft s.(ws_buffered_polls_need_cache_slot)) s);
        mret (inr None)
      else if negb (has_run (run_of pwft) s.(ws_runs)) && is_incremental pwft.(pwft_work) then
        mret (inl (FetchFull pwft))
      else
        rur ← on_cache (cache_instantiate_or_update pwft);
        mret (inr rur)
  end.

Definition instantiate_or_update (pwft : PermittedWFT) : SM RunUpdateAct :=
  r ← _instantiate_or_update pwft;
  match r with
  | inl histfetch => _ ← needs_fetching histfetch; mret None
  | inr r => mret r
  end.

(** [request_eviction]. *)
Definition stream_request_eviction (info : RequestEvictMsg) : SM EvictionRequestResult :=
  found ← on_run_of info.(rem_run_id) (rh_request_eviction info);
  mret (default NotFound found).

Definition request_eviction_of_lru_run : SM EvictionRequestResult :=
  s ← the_stream;
  match current_lru_run s.(ws_runs) with
  | Some run_id => stream_request_eviction (cache_is_full run_id)
  | None => mret NotFound
  end.

(** [failure.force_cause()]. *)
Definition force_cause (f : completion_Failure) : WorkflowTaskFailedCause :=
  default FC_Unspecified (WorkflowTaskFailedCause_try_from f.(cf_force_cause)).

(** What a completion does to its run. *)
Definition complete_run (complete : NewOrFetchedComplete)
  : M (Run * Tr) Depth (HistoryPaginator + RunUpdateAct) :=
  match complete with
  | CompleteNew {| acm_completion := VC_Success _ commands used_flags vb; acm_response_tx := tx |} =>
      rh_successful_completion commands used_flags vb tx
  | CompleteNew {| acm_completion := VC_Fail _ failure is_autocomplete; acm_response_tx := tx |} =>
      r ← rh_failed_completion (force_cause failure)
            (if is_autocomplete then ER_Unspecified else ER_LangFail) failure is_autocomplete tx;
      mret (inr r)
  | CompleteFetched update paginator =>
      r ← rh_fetched_page_completion update paginator;
      mret (inr r)
  end.

(** [process_completion]. *)
Definition stream_process_completion (complete : NewOrFetchedComplete)
  : SM (list ActivationOrAuto) :=
  found ← on_run_of (complete_run_id complete) (complete_run complete);
  match found with
  | None => mret []
  | Some res =>
      acts ← match res with
             | inr acts => mret (option_list acts)
             | inl npr => _ ← needs_fetching (FetchNextPage npr); mret []
             end;
      s ← the_stream;
      if (cache_capacity s.(ws_runs) =? 0)%nat then
        r ← request_eviction_of_lru_run;
        mret (acts ++ option_list (into_run_update_resp r))
      else mret acts
  end.

Definition is_reported (r : WFTReportStatus) : bool :=
  match r with Reported _ _ => true | _ => false end.

Definition is_not_reported (r : WFTReportStatus) : bool :=
  match r with NotReported => true | _ => false end.

(** [complete_wft]. *)
Definition complete_wft (run_id : string) (status : WFTReportStatus) : SM (option OutstandingTask) :=
  saw_final ← on_run_of run_id (pure_call (fun h => (h, rh_have_seen_terminal_event h)));
  if negb (default false saw_final) && is_not_reported status then mret None
  else
    found ← on_run_of run_id
      (wft ← pure_call (fun h => (h, rh_wft h));
       if match wft with Some w => negb (is_nil w.(ot_pending_queries)) | None => false end
       then mret None
       else rh_mark_wft_complete status);
    mret (mjoin found).

(** [process_post_activation]: the task that the run goes on with, the others
    that were waiting with it. *)
Definition ready_wfts (should_evict : bool) (buffered : option PermittedWFT)
    (wft_from_complete : option PermittedWFT) : SM (list PermittedWFT) :=
  match buffered, wft_from_complete with
  | Some x, _ | None, Some x => mret [x]
  | None, None =>
      if should_evict then
        s ← the_stream;
        match s.(ws_buffered_polls_need_cache_slot) with
        | w :: polls => _ ← on_stream (set_polls polls); mret w
        | [] => mret []
        end
      else mret []
  end.

Definition resume_with (wfts : list PermittedWFT) : SM RunUpdateAct :=
  match vec_pop wfts with
  | Some (first_wft, rest) =>
      res ← instantiate_or_update first_wft;
      _ ← for_each (fun wft => _ ← instantiate_or_update wft; mret tt) rest;
      mret res
  | None => mret None
  end.

(** The end of [process_post_activation], on the run. *)
Definition next_activation (run_id : string) (status : WFTReportStatus)
  : M (Run * Tr) Depth RunUpdateAct :=
  res ← rh_check_more_activations;
  finished ← pure_call (fun h => (h, rh_workflow_is_finished h));
  match res with
  | Some _ => mret res
  | None =>
      if finished && is_reported status then
        r ← rh_request_eviction (workflow_completed run_id);
        mret (into_run_update_resp r)
      else mret None
  end.

(** Deletes the activation if the report is from lang, or if it was to be
    completed internally. *)
Definition finishes (is_autocomplete : bool) (act : OutstandingActivation) : bool :=
  negb is_autocomplete || match act with OA_Autocomplete => true | _ => false end.

Definition process_post_activation (report : PostActivationMsg) : SM RunUpdateAct :=
  let run_id := report.(pam_run_id) in
  maybe_t ← complete_wft run_id report.(pam_wft_report_status);
  let wft_from_complete :=
    match report.(pam_wft_from_complete), maybe_t with
    | Some wft, Some t => Some {| pwft_work := wft.(wwp_wft); pwft_permit := t.(ot_permit);
                                  pwft_paginator := wft.(wwp_paginator) |}
    | _, _ => None
    end in
  found ← on_run_of run_id
    (pure_call (rh_finish_activation (finishes report.(pam_is_autocomplete))));
  res ← match found with
        | Some (should_evict, maybe_buffered) =>
            _ ← (if should_evict : bool then _ ← on_cache (cache_remove run_id); mret tt
                 else mret tt);
            wfts ← ready_wfts should_evict (Buffer.get_next_wft maybe_buffered).2 wft_from_complete;
            resume_with wfts
        | None => mret None
        end;
  match res with
  | Some _ => mret res
  | None =>
      found ← on_run_of run_id (next_activation run_id report.(pam_wft_report_status));
      mret (mjoin found)
  end.

(** [local_resolution], [process_heartbeat_timeout]. *)
Definition stream_local_resolution (run_id : string) (res : LocalActivityResolution)
  : SM RunUpdateAct :=
  found ← on_run_of run_id (rh_local_resolution res); mret (mjoin found).

Definition process_heartbeat_timeout (run_id : string) : SM RunUpdateAct :=
  found ← on_run_of run_id rh_heartbeat_timeout; mret (mjoin found).

(** The runs that [reconcile_buffered] asks to evict, of the runs in LRU order. *)
Fixpoint evict_these (needed : nat) (runs : list (string * Run)) : list string :=
  match needed, runs with
  | 0, _ | _, [] => []
  | S n, (rid, handle) :: runs =>
      if rh_has_buffered_wft handle then evict_these needed runs
      else rid :: evict_these n runs
  end.

Definition num_existing_evictions (rc : RunCache C Run) : nat :=
  length (filter (fun p => is_Some (rh_trying_to_evict p.2)) (runs_lru_order rc)).

Fixpoint request_evictions (run_ids : list string) : SM (list ActivationOrAuto) :=
  match run_ids with
  | [] => mret []
  | run_id :: run_ids =>
      r ← stream_request_eviction (cache_is_full run_id);
      acts ← request_evictions run_ids;
      mret (option_list (into_run_update_resp r) ++ acts)
  end.

Definition reconcile_buffered : SM (list ActivationOrAuto) :=
  s ← the_stream;
  let num_in_buff := length s.(ws_buffered_polls_need_cache_slot) in
  let num_evicts_needed := num_in_buff - num_existing_evictions s.(ws_runs) in
  request_evictions (evict_these num_evicts_needed (runs_lru_order s.(ws_runs))).

(** [shutdown_done], of the number of fetches that are under way. *)
Definition shutdown_done (in_flight : nat) (s : WFStream) : bool :=
  s.(ws_shutdown)
  && negb (0 <? in_flight + length s.(ws_runs_needing_fetching))%nat
  && forallb (fun r => negb (rh_has_any_pending_work s.(ws_ignore_evicts_on_shutdown) false r))
       (handles s.(ws_runs)).

(** [outstanding_wfts], and the answer to [GetStateInfo]. *)
Definition outstanding_wfts (s : WFStream) : nat :=
  length (List.filter (fun h => is_some (rh_wft h)) (handles s.(ws_runs))).

Definition state_info (s : WFStream) : nat * nat := (cache_len s.(ws_runs), outstanding_wfts s).

(** The run of a local input is looked up to record its span. *)
Definition touch_run (input : LocalInputs) : SM unit :=
  match LocalInputs_run_id input with
  | Some rid => _ ← on_run_of rid (pure_call (fun h => (h, tt))); mret tt
  | None => mret tt
  end.

Definition handle_local (input : LocalInputs) : SM (list ActivationOrAuto) :=
  _ ← touch_run input;
  match input with
  | LI_Completion completion => stream_process_completion (CompleteNew completion)
  | LI_FetchedPageCompletion paginator update =>
      stream_process_completion (CompleteFetched update paginator)
  | LI_PostActivation report => a ← process_post_activation report; mret (option_list a)
  | LI_LocalResolution run_id res => a ← stream_local_resolution run_id res; mret (option_list a)
  | LI_HeartbeatTimeout hbt => a ← process_heartbeat_timeout hbt; mret (option_list a)
  | LI_RequestEviction evict =>
      r ← stream_request_eviction evict; mret (option_list (into_run_update_resp r))
  | LI_GetStateInfo => mret []
  end.

(** What follows an input: evictions for the polls that wait, and the output. *)
Definition conclude (in_flight : nat) (activations : list ActivationOrAuto) : SM StreamOutput :=
  more ← reconcile_buffered;
  s ← the_stream;
  if shutdown_done in_flight s then mret ShutDown
  else
    _ ← on_stream (set_fetching []);
    mret (WFStreamOutput (activations ++ more) s.(ws_runs_needing_fetching)).

(** The closure of [build_internal], of an input and the number of fetches that
    are under way when it is handled. *)
Definition handle_input (in_flight : nat) (action : WFStreamInput) : SM StreamOutput :=
  match action with
  | NewWft pwft => a ← instantiate_or_update pwft; conclude in_flight (option_list a)
  | LocalInput input => a ← handle_local input; conclude in_flight a
  | FailedFetch run_id err auto_reply_fail_tt =>
      r ← stream_request_eviction
            {| rem_run_id := run_id;
               rem_message := "Fetching history failed: " +:+ debug_status err;
               rem_reason := ER_PaginationOrHistoryFetch;
               rem_auto_reply_fail_tt := auto_reply_fail_tt |};
      conclude in_flight (option_list (into_run_update_resp r))
  | PollerDead => _ ← on_stream (set_shutdown true); conclude in_flight []
  | PollerError e => mret (TonicError e)
  end.

(** The outputs for a sequence of inputs: none follow [ShutDown]. *)
Fixpoint run_stream (inputs : list (nat * WFStreamInput)) : SM (list StreamOutput) :=
  match inputs with
  | [] => mret []
  | (in_flight, action) :: inputs =>
      o ← handle_input in_flight action;
      match o with
      | ShutDown => mret []
      | _ => os ← run_stream inputs; mret (o :: os)
      end
  end.

End stream.
Arguments WFStream : clear implicits.
