(* ===== verification/WorkflowStreamFacts.v ===== *)
(** * Facts on the stream of workflow inputs

    The cache never overflows, every cached run is one that its own methods
    reach, and polls that wait for a slot have evictions under way. *)
From Stdlib Require Import ZArith Lia.
From stdpp Require Import base option list strings gmap.
From S2P Require Import Prelude Flags Protos ProtoExt CoreProtos Fsm LocalActs DrivenWorkflow.
From S2P Require Import Machines HistoryUpdate WMState WorkflowMachines WorkflowTasks ManagedRun RunCache.
From S2P Require Import WorkflowStream.

Create HintDb calls.

(** ** Keys and entries of a cache *)
Section entries.
  Context {V : Type}.
  Implicit Types (l : list (string * V)).

Lemma assoc_elem k l v : assoc k l = Some v -> (k, v) ∈ l.
Proof.
  induction l as [|[k' v'] l IH]; simpl; [done|].
  destruct (String.eqb_spec k k') as [->|]; [intros [= ->]; by left|right; auto].
Qed.

Lemma assoc_None k l : assoc k l = None <-> k ∉ l.*1.
Proof.
  induction l as [|[k' v'] l IH]; simpl; [split; [intros _; set_solver|done]|].
  destruct (String.eqb_spec k k') as [->|]; set_solver.
Qed.

Lemma assoc_NoDup k v l : NoDup l.*1 -> (k, v) ∈ l -> assoc k l = Some v.
Proof.
  induction l as [|[k' v'] l IH]; simpl; [set_solver|]. intros [Hk Hl]%NoDup_cons Hin.
  apply elem_of_cons in Hin as [[= -> ->]|Hin]; [by rewrite String.eqb_refl|].
  destruct (String.eqb_spec k k') as [->|]; [|auto].
  contradict Hk. apply list_elem_of_fmap. by exists (k', v).
Qed.

Lemma remove_key_submseteq k l : remove_key k l ⊆+ l.
Proof.
  induction l as [|[k' v'] l IH]; simpl; [done|].
  destruct (String.eqb k k'); [by apply submseteq_cons|by apply submseteq_skip].
Qed.

Lemma remove_key_not_in k l : NoDup l.*1 -> k ∉ (remove_key k l).*1.
Proof.
  induction l as [|[k' v'] l IH]; simpl; [set_solver|]. intros [Hk Hl]%NoDup_cons.
  destruct (String.eqb_spec k k') as [->|]; [done|]. set_solver.
Qed.

Lemma promote_Permutation k l : promote k l ≡ₚ l.
Proof.
  unfold promote. destruct (assoc k l) as [v|] eqn:Hk; [|done].
  induction l as [|[k' v'] l IH]; simpl in *; [done|].
  destruct (String.eqb_spec k k') as [->|]; [by injection Hk as ->|].
  rewrite Permutation_swap. by rewrite IH.
Qed.

Lemma assign_keys k v l : (assign k v l).*1 = l.*1.
Proof.
  induction l as [|[k' v'] l IH]; simpl; [done|].
  destruct (String.eqb k k'); csimpl; [done|by f_equal].
Qed.

Lemma Forall_assign (P : string * V -> Prop) k v l :
  Forall P l -> P (k, v) -> Forall P (assign k v l).
Proof.
  intros Hl Hk. induction Hl as [|[k' v'] l Hkv Hl IH]; simpl; [done|].
  destruct (String.eqb_spec k k') as [->|]; by constructor.
Qed.
End entries.

Section facts.
  Context {C : Type -> Type} `{LruCacheLaws C} {Run Tr : Type} `{RunHandle Run Tr}.
  Context (debug_status : Status -> string).
  Abbreviation Stream := (WFStream C Run).
  Abbreviation SM := (M (Stream * Tr) Depth).
  Abbreviation RM := (M (Run * Tr) Depth).
  Implicit Types (s : Stream * Tr) (rc : RunCache C Run) (h : Run) (t : Tr).

Definition items (rc : RunCache C Run) : list (string * Run) := lru_items rc.(rc_runs).

(** The reports of completions that are considered. *)
Section invariant.
  Context (allowed : WFTReportStatus -> Prop).

(** ** The calls that a run receives *)
Inductive run_call : forall {A}, RM A -> Prop :=
| call_incoming_wft w : run_call (rh_incoming_wft w)
| call_successful_completion cmds flags vb chan :
    run_call (rh_successful_completion cmds flags vb chan)
| call_failed_completion cause reason failure auto chan :
    run_call (rh_failed_completion cause reason failure auto chan)
| call_fetched_page u p : run_call (rh_fetched_page_completion u p)
| call_local_resolution res : run_call (rh_local_resolution res)
| call_heartbeat_timeout : run_call rh_heartbeat_timeout
| call_request_eviction info : run_call (rh_request_eviction info)
| call_check_more_activations : run_call rh_check_more_activations
| call_mark_wft_complete status : allowed status -> run_call (rh_mark_wft_complete status)
| call_finish_activation pred : run_call (pure_call (rh_finish_activation pred))
| call_buffer_wft w : run_call (pure_call (rh_buffer_wft_if_outstanding_work w)).

(** A run of the cache: a new one, or what calls make of it. *)
Inductive cached_run : string -> Run -> Prop :=
| cached_new basics : cached_run basics.(rb_run_id) (rh_new basics)
| cached_call {A} (m : RM A) k h t :
    run_call m -> cached_run k h -> cached_run k (m (h, t)).1.1.

(** A panic of a call to such a run. *)
Definition run_panic (msg : string) : Prop :=
  exists k h A (m : RM A) t, cached_run k h /\ run_call m /\ (m (h, t)).2 = Panic msg.

(** Calls in sequence. *)
Definition calls (k : string) {A} (m : RM A) : Prop :=
  forall h t, cached_run k h ->
    cached_run k (m (h, t)).1.1 /\ forall msg, (m (h, t)).2 = Panic msg -> run_panic msg.

Lemma calls_one k {A} (m : RM A) : run_call m -> calls k m.
Proof. intros Hm h t Hh. split; [by constructor|]. intros msg Hp. by exists k, h, A, m, t. Qed.

Lemma calls_ret k {A} (a : A) : calls k (mret a : RM A).
Proof. intros h t Hh. by split. Qed.

Lemma calls_read k {A} (f : Run -> A) : calls k (pure_call (fun h => (h, f h)) : RM A).
Proof. intros h t Hh. by split. Qed.

Lemma calls_bind k {A B} (m : RM A) (f : A -> RM B) :
  calls k m -> (forall a, calls k (f a)) -> calls k (m ≫= f).
Proof.
  intros Hm Hf h t Hh. destruct (Hm h t Hh) as [Hc Hp]. unfold mbind, M_bind.
  destruct (m (h, t)) as [[h' t'] [a|e|msg']]; simpl in *; [by apply Hf|done|].
  split; [done|]. intros msg [= <-]. auto.
Qed.

#[local] Hint Resolve calls_one calls_ret calls_read : calls.
#[local] Hint Constructors run_call : calls.

(** ** Well-formed states *)

(** The runs have different ids, no more of them than the capacity, and each is
    one that calls reach. *)
Definition cache_inv (rc : RunCache C Run) : Prop :=
  NoDup (items rc).*1 /\ length (items rc) <= lru_cap rc.(rc_runs)
  /\ lru_cap rc.(rc_runs) = Nat.max 1 (cache_capacity rc)
  /\ Forall (fun p => cached_run p.1 p.2) (items rc).

Definition stream_inv (s : Stream * Tr) : Prop := cache_inv s.1.(ws_runs).

(** A step keeps the invariant, and panics only where a run does. *)
Definition keeps {A} (m : SM A) : Prop :=
  forall s, stream_inv s ->
    wp m (fun _ => stream_inv) (fun _ => stream_inv)
      (fun msg s' => stream_inv s' /\ run_panic msg) s.

Lemma stream_keeps_bind {A B} (m : SM A) (f : A -> SM B) :
  keeps m -> (forall a, keeps (f a)) -> keeps (m ≫= f).
Proof.
  intros Hm Hf s Hs. apply wp_bind. eapply wp_mono; [by apply Hm| |done..].
  intros a s' Hs'. by apply Hf.
Qed.

Lemma stream_keeps_ret {A} (a : A) : keeps (mret a : SM A).
Proof. by intros s Hs. Qed.

Lemma stream_keeps_the_stream : keeps the_stream.
Proof. by intros s Hs. Qed.

Lemma stream_keeps_on_stream f : (forall x, ws_runs (f x) = ws_runs x) -> keeps (on_stream f).
Proof. intros Hf [x t] Hs. unfold wp, stream_inv in *. simpl in *. by rewrite Hf. Qed.

Lemma stream_keeps_for_each {A} (f : A -> SM unit) l : (forall a, keeps (f a)) -> keeps (for_each f l).
Proof. intros Hf. induction l; simpl; [apply stream_keeps_ret|by apply stream_keeps_bind]. Qed.

Lemma has_run_false k rc : has_run k rc = false <-> k ∉ (items rc).*1.
Proof. unfold has_run, items. rewrite <-assoc_None. by destruct (assoc k _). Qed.

(** A call to a run of the cache. *)
Lemma with_run_inv k {A} (m : RM A) rc t :
  calls k m -> cache_inv rc ->
  cache_inv (with_run k m (rc, t)).1.1
  /\ (forall msg, (with_run k m (rc, t)).2 = Panic msg -> run_panic msg)
  /\ ((with_run k m (rc, t)).2 = Ok None -> has_run k rc = false /\ (with_run k m (rc, t)).1.1 = rc).
Proof.
  intros Hm (Hnd & Hlen & Hmax & Hall). unfold with_run, cache_inv, items in *.
  destruct (assoc k _) as [h|] eqn:Hk; simpl;
    [|split_and!; try done; intros _; unfold has_run; by rewrite Hk].
  pose proof (proj1 (List.Forall_forall _ _) Hall (k, h)) as Hh.
  rewrite <-list_elem_of_In in Hh. specialize (Hh (assoc_elem _ _ _ Hk)).
  destruct (Hm h t Hh) as [Hh' Hp]. destruct (m (h, t)) as [[h' t'] r]. simpl in *.
  rewrite lru_set_items, lru_touch_items, lru_set_cap, lru_touch_cap.
  split; [split_and!|split; [destruct r; naive_solver|by destruct r]].
  - rewrite assign_keys. by rewrite promote_Permutation.
  - by rewrite assign_length, promote_length.
  - done.
  - apply Forall_assign; [|done]. by rewrite promote_Permutation.
Qed.

Lemma stream_keeps_run k {A} (m : RM A) : calls k m -> keeps (on_run_of k m).
Proof.
  intros Hm [x t] Hs. pose proof (with_run_inv k m (ws_runs x) t Hm Hs) as (Hc & Hp & _).
  unfold wp, on_run_of, on_cache, stream_inv in *.
  destruct (with_run k m (ws_runs x, t)) as [[rc t'] []]; simpl in *; auto.
Qed.

(** A run that is pushed when there is room. *)
Lemma push_inv k h rc :
  cache_inv rc -> has_run k rc = false -> is_full rc = false -> cached_run k h ->
  (lru_push k h rc.(rc_runs)).2 = None /\ cache_inv (set_runs (lru_push k h rc.(rc_runs)).1 rc).
Proof.
  intros (Hnd & Hlen & Hmax & Hall) Hk Hfull Hh. unfold cache_inv, items in *. simpl.
  apply has_run_false in Hk. pose proof (proj2 (assoc_None _ _) Hk) as Ha. unfold items in *.
  destruct (lru_push_spec _ k h (rc_runs rc)) as [Hcap Hpush]. rewrite Ha in Hpush.
  apply Nat.eqb_neq in Hfull. unfold cache_len in Hfull.
  destruct (Nat.ltb_spec (length (lru_items (rc_runs rc))) (lru_cap (rc_runs rc))); [|lia].
  destruct Hpush as [Hi Hn]. rewrite Hi, Hcap. simpl. split; [done|].
  split_and!; [by apply NoDup_cons|lia|done|by constructor].
Qed.

Lemma instantiate_inv w rc t :
  cache_inv rc -> has_run (run_of w) rc = true \/ is_full rc = false ->
  cache_inv (cache_instantiate_or_update w (rc, t)).1.1
  /\ forall msg, (cache_instantiate_or_update w (rc, t)).2 = Panic msg -> run_panic msg.
Proof.
  intros Hrc Hroom. unfold cache_instantiate_or_update, mbind, M_bind.
  fold (run_of w). set (m := rh_incoming_wft w).
  assert (forall k, calls k m) as Hcalls by (intros k; eauto with calls).
  destruct (with_run_inv (run_of w) m rc t (Hcalls _) Hrc) as (Hinv & Hp & Hnone).
  destruct (with_run (run_of w) m (rc, t)) as [[rc' t'] [[a|]|e|msg']]; simpl in *;
    [by split| |by split|split; [done|]; intros msg [= <-]; auto].
  destruct (Hnone eq_refl) as [Hno ->]. destruct Hroom as [Hroom|Hroom]; [congruence|].
  match goal with |- context [m (rh_new ?b, t')] => set (basics := b) end.
  destruct (Hcalls (run_of w) (rh_new basics) t' (cached_new basics)) as [Hnew Hpanic].
  destruct (m (rh_new basics, t')) as [[h t''] [a|e|msg']]; simpl in *;
    [|by split|split; [done|]; intros msg [= <-]; auto].
  destruct (push_inv (run_of w) h rc Hrc Hno Hroom Hnew) as [Hok Hpush].
  destruct (lru_push _ _ _) as [runs o]. simpl in *. subst o. by split.
Qed.

Lemma remove_inv k rc t : cache_inv rc -> cache_inv (cache_remove k (rc, t)).1.1.
Proof.
  intros (Hnd & Hlen & Hmax & Hall). unfold cache_remove, cache_inv, items in *.
  destruct (lru_pop_spec _ k (rc_runs rc)) as (Hcap & Hi & _).
  destruct (lru_pop k _) as [runs o]. simpl in *. rewrite Hi, Hcap.
  destruct (submseteq_Permutation _ _ (remove_key_submseteq k (lru_items (rc_runs rc)))) as [l Hp].
  split_and!.
  - rewrite Hp, fmap_app in Hnd. by apply NoDup_app in Hnd as [? _].
  - pose proof (remove_length k (lru_items (rc_runs rc))). lia.
  - done.
  - rewrite Hp, Forall_app in Hall. by destruct Hall.
Qed.

(** ** Every input keeps the invariant *)

Lemma stream_keeps_remove k : keeps (on_cache (cache_remove k)).
Proof.
  intros [x t] Hs. pose proof (remove_inv k (ws_runs x) t Hs) as Hr.
  unfold wp, on_cache, cache_remove, stream_inv in *. by destruct (lru_pop k _).
Qed.

(** Decomposes a step into its parts. *)
Ltac stream_keeps_step :=
  first
    [ apply stream_keeps_ret | apply stream_keeps_the_stream | (apply stream_keeps_on_stream; by intros)
    | apply stream_keeps_remove | (apply stream_keeps_for_each; intros)
    | (apply stream_keeps_run; solve [eauto with calls])
    | (apply stream_keeps_bind; [|intros])
    | case_match ].

(** A task is given to the cache only if it has the run, or room for it. *)
Lemma stream_keeps_place w :
  keeps (x ← the_stream;
         if negb (has_run (run_of w) x.(ws_runs)) && is_full x.(ws_runs) then
           _ ← on_stream (fun x => set_polls (buffer_poll w x.(ws_buffered_polls_need_cache_slot)) x);
           mret (inr None)
         else if negb (has_run (run_of w) x.(ws_runs)) && is_incremental w.(pwft_work) then
           mret (inl (FetchFull w))
         else rur ← on_cache (cache_instantiate_or_update w); mret (inr rur)).
Proof.
  intros [x t] Hs. unfold mbind, M_bind, the_stream, wp. simpl.
  destruct (negb (has_run (run_of w) (ws_runs x)) && is_full (ws_runs x)) eqn:Hfull; [done|].
  destruct (_ && is_incremental _); [done|]. unfold on_cache.
  destruct (instantiate_inv w (ws_runs x) t Hs) as [Hc Hp];
    [destruct (has_run _ _); simpl in *; auto|].
  destruct (cache_instantiate_or_update w (ws_runs x, t)) as [[rc t'] []]; simpl in *; auto.
Qed.

Lemma stream_keeps_instantiate w : keeps (instantiate_or_update w).
Proof.
  assert (keeps (_instantiate_or_update w)) as Hinst.
  { unfold _instantiate_or_update. apply stream_keeps_bind; [apply stream_keeps_run; eauto with calls|].
    intros found. destruct found as [[w'|]|]; [|apply stream_keeps_ret|]; apply stream_keeps_place. }
  unfold instantiate_or_update, needs_fetching. apply stream_keeps_bind; [done|].
  intros r. repeat stream_keeps_step.
Qed.

Lemma stream_keeps_request_eviction info : keeps (stream_request_eviction info).
Proof. unfold stream_request_eviction. repeat stream_keeps_step. Qed.

Lemma stream_keeps_evict_lru : keeps request_eviction_of_lru_run.
Proof.
  unfold request_eviction_of_lru_run.
  repeat first [apply stream_keeps_request_eviction|stream_keeps_step].
Qed.

Lemma calls_complete_run k c : calls k (complete_run c).
Proof.
  unfold complete_run. destruct c as [[[] tx]|]; eauto with calls;
    apply calls_bind; intros; eauto with calls.
Qed.

Lemma calls_next_activation k status : calls k (next_activation k status).
Proof.
  unfold next_activation. apply calls_bind; [eauto with calls|]. intros res.
  apply calls_bind; [eauto with calls|]. intros fin. destruct res; [eauto with calls|].
  destruct (_ && _); [|eauto with calls]. apply calls_bind; eauto with calls.
Qed.

Lemma stream_keeps_process_completion c : keeps (stream_process_completion c).
Proof.
  unfold stream_process_completion, needs_fetching.
  apply stream_keeps_bind; [apply stream_keeps_run, calls_complete_run|]. intros found.
  repeat first [apply stream_keeps_evict_lru|stream_keeps_step].
Qed.

Lemma stream_keeps_complete_wft k status : allowed status -> keeps (complete_wft k status).
Proof.
  intros Hal. unfold complete_wft. apply stream_keeps_bind; [apply stream_keeps_run; eauto with calls|]. intros saw.
  destruct (_ && _); [apply stream_keeps_ret|]. apply stream_keeps_bind; [|intros; apply stream_keeps_ret].
  apply stream_keeps_run, calls_bind; [eauto with calls|]. intros o.
  by destruct (match o with Some _ => _ | None => _ end); eauto with calls.
Qed.

Lemma stream_keeps_ready_wfts b o o' : keeps (ready_wfts b o o').
Proof. unfold ready_wfts. repeat stream_keeps_step. Qed.

Lemma stream_keeps_resume_with l : keeps (resume_with l).
Proof. unfold resume_with. repeat first [apply stream_keeps_instantiate|stream_keeps_step]. Qed.

Lemma stream_keeps_post_activation report :
  allowed report.(pam_wft_report_status) -> keeps (process_post_activation report).
Proof.
  intros Hal. unfold process_post_activation. apply stream_keeps_bind; [by apply stream_keeps_complete_wft|]. intros maybe_t.
  apply stream_keeps_bind; [apply stream_keeps_run; eauto with calls|]. intros found.
  apply stream_keeps_bind.
  - repeat first [apply stream_keeps_ready_wfts|apply stream_keeps_resume_with|stream_keeps_step].
  - intros [a|]; [apply stream_keeps_ret|].
    apply stream_keeps_bind; [apply stream_keeps_run, calls_next_activation|intros; apply stream_keeps_ret].
Qed.

Lemma stream_keeps_request_evictions l : keeps (request_evictions l).
Proof.
  induction l as [|k l IH]; simpl; repeat first [apply stream_keeps_request_eviction|apply IH|stream_keeps_step].
Qed.

Lemma stream_keeps_conclude n acts : keeps (conclude n acts).
Proof.
  unfold conclude, reconcile_buffered.
  repeat first [apply stream_keeps_request_evictions|stream_keeps_step].
Qed.

Definition local_allowed (input : LocalInputs) : Prop :=
  match input with LI_PostActivation report => allowed report.(pam_wft_report_status) | _ => True end.

Definition input_allowed (i : WFStreamInput) : Prop :=
  match i with LocalInput input => local_allowed input | _ => True end.

Lemma stream_keeps_local input : local_allowed input -> keeps (handle_local input).
Proof.
  intros Hal. unfold handle_local, touch_run, stream_local_resolution, process_heartbeat_timeout.
  apply stream_keeps_bind; [destruct (LocalInputs_run_id input); repeat stream_keeps_step|]. intros _.
  destruct input; repeat first [apply stream_keeps_process_completion|by apply stream_keeps_post_activation
    |apply stream_keeps_request_eviction|stream_keeps_step].
Qed.

Lemma stream_keeps_handle_input n i : input_allowed i -> keeps (handle_input debug_status n i).
Proof.
  intros Hal. destruct i; simpl; repeat first [apply stream_keeps_instantiate|by apply stream_keeps_local|apply stream_keeps_conclude
    |apply stream_keeps_request_eviction|stream_keeps_step].
Qed.

Lemma stream_keeps_run_stream inputs :
  Forall (fun i => input_allowed i.2) inputs -> keeps (run_stream debug_status inputs).
Proof.
  induction 1 as [|[n i] inputs Hi Hall IH]; simpl;
    repeat first [by apply stream_keeps_handle_input|apply IH|stream_keeps_step].
Qed.

Lemma build_inv config sdk cap shutdown t : stream_inv (build config sdk cap shutdown, t).
Proof.
  unfold stream_inv, cache_inv, items. simpl. rewrite lru_new_items, lru_new_cap. simpl.
  split_and!; [constructor|lia| |constructor]. unfold cache_capacity. simpl.
  destruct (Nat.ltb_spec 0 (cfg_max_cached_workflows config)); lia.
Qed.

Lemma run_stream_inv (config : WorkerConfig) (sdk : string * string)
    (capability shutdown : bool) (t : Tr) (inputs : list (nat * WFStreamInput)) :
  Forall (fun i => input_allowed i.2) inputs ->
  let '((s, _), r) := run_stream debug_status inputs (build config sdk capability shutdown, t) in
  NoDup (items s.(ws_runs)).*1
  /\ length (items s.(ws_runs)) <= Nat.max 1 (cache_capacity s.(ws_runs))
  /\ Forall (fun p => cached_run p.1 p.2) (items s.(ws_runs))
  /\ forall msg, r = Panic msg -> run_panic msg.
Proof.
  intros Hall.
  pose proof (stream_keeps_run_stream inputs Hall _ (build_inv config sdk capability shutdown t)) as Hk.
  unfold wp in Hk. destruct (run_stream _ _ _) as [[s t'] [a|e|msg]];
    [destruct Hk as (? & ? & Hmax & ?)|destruct Hk as (? & ? & Hmax & ?)
    |destruct Hk as [(? & ? & Hmax & ?) ?]]; simpl in Hmax; rewrite <-Hmax;
    split_and!; try done. by intros msg' [= <-].
Qed.
End invariant.

(** All reports. *)
Definition any_report (_ : WFTReportStatus) : Prop := True.

Lemma any_input i : input_allowed any_report i.
Proof. by destruct i as [|[]| | |]. Qed.

Lemma reachable_inv config sdk capability shutdown t inputs :
  stream_inv any_report
    (run_stream debug_status inputs (build (C := C) config sdk capability shutdown, t)).1.
Proof.
  assert (Forall (fun i => input_allowed any_report i.2) inputs) as Hall
    by (apply Forall_forall; intros; apply any_input).
  pose proof (stream_keeps_run_stream any_report inputs Hall _
    (build_inv any_report config sdk capability shutdown t)) as Hk.
  unfold wp in Hk. destruct (run_stream _ _ _) as [s [a|e|msg]]; [done|done|apply Hk].
Qed.

(** C8 The cache of runs never overflows: whatever the inputs, the runs that are
    cached have different ids and are no more than the cache holds, which is one
    run at least; each is one that the calls of its methods reach from a new run
    with that id; and if an input panics, then it is a call to such a run that
    panics, never the cache. *)
Theorem cache_never_overflows (config : WorkerConfig) (sdk : string * string)
    (capability shutdown : bool) (t : Tr) (inputs : list (nat * WFStreamInput)) :
  let '((s, _), r) := run_stream debug_status inputs (build config sdk capability shutdown, t) in
  NoDup (items s.(ws_runs)).*1
  /\ length (items s.(ws_runs)) <= Nat.max 1 (cache_capacity s.(ws_runs))
  /\ Forall (fun p => cached_run any_report p.1 p.2) (items s.(ws_runs))
  /\ forall msg, r = Panic msg -> run_panic any_report msg.
Proof. apply run_stream_inv, Forall_forall. intros. apply any_input. Qed.

(** ** Polls that wait for a slot *)
Section waiting.
  Context `{!RunHandleLaws Run Tr}.
  Implicit Types (x : Stream).

Definition evicting (k : string) x : Prop :=
  exists h, assoc k (items x.(ws_runs)) = Some h /\ is_Some (rh_trying_to_evict h).

(** What requests to evict the runs [ids] do. *)
Record evicts (ids : list string) x x' : Prop := {
  ev_polls : x'.(ws_buffered_polls_need_cache_slot) = x.(ws_buffered_polls_need_cache_slot);
  ev_flag : x'.(ws_ignore_evicts_on_shutdown) = x.(ws_ignore_evicts_on_shutdown);
  ev_keys : (items x'.(ws_runs)).*1 ≡ₚ (items x.(ws_runs)).*1;
  ev_old : forall k, evicting k x -> evicting k x';
  ev_new : forall k, k ∈ ids -> k ∈ (items x.(ws_runs)).*1 -> evicting k x';
}.

Lemma evicts_one k x t x' t' r :
  stream_request_eviction (cache_is_full k) (x, t) = ((x', t'), Ok r) -> evicts [k] x x'.
Proof.
  unfold stream_request_eviction, on_run_of, on_cache, with_run. intros Hr.
  apply bind_Ok_inv in Hr as ([x1 t1] & found & Hr & [= <- <- <-]). simpl in Hr.
  destruct (assoc k (lru_items _)) as [h|] eqn:Hk; simpl in *.
  - destruct (rh_request_eviction (cache_is_full k) (h, t)) as [[h' t2] [a|e|msg]] eqn:He;
      simplify_eq.
    pose proof (rh_eviction_remembered (cache_is_full k) (h, t) (h', t1) a eq_refl He) as Hev.
    assert (forall k', assoc k' (items (set_runs (lru_set k h' (lru_touch k (rc_runs (ws_runs x))))
              (ws_runs x))) = if String.eqb k' k then Some h' else assoc k' (items (ws_runs x))) as Hi.
    { intros k'. unfold items. simpl. rewrite lru_set_items, lru_touch_items, assoc_assign,
        assoc_promote. destruct (String.eqb_spec k' k) as [->|]; [by rewrite Hk|done]. }
    split; simpl; try done.
    + unfold items. simpl. rewrite lru_set_items, lru_touch_items, assign_keys.
      by rewrite promote_Permutation.
    + intros k' (h1 & Hh1 & Hte). unfold evicting. simpl. rewrite Hi.
      destruct (String.eqb_spec k' k); eauto.
    + intros k' ->%list_elem_of_singleton _. unfold evicting. simpl. rewrite Hi, String.eqb_refl. eauto.
  - simplify_eq. split; try done. intros k' ->%list_elem_of_singleton Hin.
    by apply assoc_None in Hk.
Qed.

Lemma evicts_trans ids1 ids2 x1 x2 x3 :
  evicts ids1 x1 x2 -> evicts ids2 x2 x3 -> evicts (ids1 ++ ids2) x1 x3.
Proof.
  intros [] []. split; try congruence; eauto; [by etrans|].
  intros k [Hk|Hk]%elem_of_app Hin; [auto|]. apply ev_new1; [done|].
  by rewrite ev_keys0.
Qed.

Lemma evicts_requested ids x t x' t' acts :
  request_evictions ids (x, t) = ((x', t'), Ok acts) -> evicts ids x x'.
Proof.
  revert x t acts. induction ids as [|k ids IH]; simpl; intros x t acts Hr.
  - injection Hr as <- <- <-. split; try done. set_solver.
  - apply bind_Ok_inv in Hr as ([x1 t1] & r & Hone & Hr).
    apply bind_Ok_inv in Hr as ([x2 t2] & acts' & Hrest & [= <- <- <-]).
    apply (evicts_trans [k] ids x x1 x2); [by eapply evicts_one|by eapply IH].
Qed.

(** The runs that have no task buffered for themselves. *)
Definition unbuffered (rc : RunCache C Run) : nat :=
  length (filter (fun p => rh_has_buffered_wft p.2 = false) (runs_lru_order rc)).

Lemma evict_these_length n (runs : list (string * Run)) :
  length (evict_these n runs)
  = Nat.min n (length (filter (fun p => rh_has_buffered_wft p.2 = false) runs)).
Proof.
  revert n. induction runs as [|[k h] runs IH]; intros [|n]; try done.
  simpl evict_these. rewrite filter_cons. simpl.
  destruct (rh_has_buffered_wft h); simpl; rewrite IH; done.
Qed.

Lemma evict_these_sublist n (runs : list (string * Run)) : evict_these n runs `sublist_of` runs.*1.
Proof.
  revert n. induction runs as [|[k h] runs IH]; intros [|n]; try done; [apply sublist_nil_l|].
  csimpl. destruct (rh_has_buffered_wft h); by constructor.
Qed.

Lemma count_evicting x l :
  NoDup l -> (forall k, k ∈ l -> evicting k x) -> length l <= num_existing_evictions x.(ws_runs).
Proof.
  intros Hnd Hall. unfold num_existing_evictions, runs_lru_order.
  rewrite <-(length_fmap fst (filter _ _)). apply submseteq_length, NoDup_submseteq; [done|].
  intros k Hk. destruct (Hall k Hk) as (h & Ha & Hte). apply list_elem_of_fmap.
  exists (k, h). split; [done|]. apply list_elem_of_filter. split; [done|].
  apply elem_of_reverse. by apply assoc_elem.
Qed.

Lemma evicting_existing x :
  NoDup (items x.(ws_runs)).*1 ->
  exists l, NoDup l /\ length l = num_existing_evictions x.(ws_runs) /\ forall k, k ∈ l -> evicting k x.
Proof.
  intros Hnd. exists (filter (fun p => is_Some (rh_trying_to_evict p.2)) (runs_lru_order x.(ws_runs))).*1.
  split_and!; [|by rewrite length_fmap|].
  - unfold runs_lru_order. eapply sublist_NoDup; [|apply fmap_sublist, sublist_filter].
    by rewrite fmap_reverse, reverse_Permutation.
  - intros k ([k' h] & -> & [Hte Hin]%list_elem_of_filter)%list_elem_of_fmap. exists h.
    split; [|done]. unfold runs_lru_order in Hin. rewrite elem_of_reverse in Hin.
    exact (assoc_NoDup k' h _ Hnd Hin).
Qed.

Lemma reconcile_evictions x t x' t' acts :
  NoDup (items x.(ws_runs)).*1 ->
  reconcile_buffered (x, t) = ((x', t'), Ok acts) ->
  x'.(ws_buffered_polls_need_cache_slot) = x.(ws_buffered_polls_need_cache_slot)
  /\ num_existing_evictions x.(ws_runs) <= num_existing_evictions x'.(ws_runs)
  /\ Nat.min (length x.(ws_buffered_polls_need_cache_slot) - num_existing_evictions x.(ws_runs))
       (unbuffered x.(ws_runs)) <= num_existing_evictions x'.(ws_runs).
Proof.
  intros Hnd Hr. unfold reconcile_buffered in Hr. apply bind_Ok_inv in Hr as (s1 & x1 & [= <- <-] & Hr).
  apply evicts_requested in Hr as Hev. split; [apply Hev|].
  destruct (evicting_existing x Hnd) as (l & Hl & Hlen & Hall). split.
  - rewrite <-Hlen. apply count_evicting; [done|]. intros k Hk. by eapply ev_old, Hall.
  - unfold unbuffered. rewrite <-evict_these_length.
    set (n := _ - num_existing_evictions _) in *. simpl in *.
    pose proof (evict_these_sublist n (runs_lru_order (ws_runs x))) as Hs.
    unfold runs_lru_order in Hs. rewrite fmap_reverse in Hs. apply count_evicting.
    + eapply sublist_NoDup; [|done]. by rewrite reverse_Permutation.
    + intros k Hk. apply (ev_new _ _ _ Hev); [done|].
      rewrite <-elem_of_reverse. exact (elem_of_sublist _ _ _ Hk Hs).
Qed.

(** Polls that wait for a slot have evictions under way: after the buffered
    polls are reconciled, no eviction was lost, and unless all runs have tasks of
    their own buffered there are at least as many evictions as polls were not
    matched by one before. *)
Theorem reconcile_requests_evictions x t x' t' acts :
  NoDup (items x.(ws_runs)).*1 ->
  reconcile_buffered (x, t) = ((x', t'), Ok acts) ->
  x'.(ws_buffered_polls_need_cache_slot) = x.(ws_buffered_polls_need_cache_slot)
  /\ num_existing_evictions x.(ws_runs) <= num_existing_evictions x'.(ws_runs)
  /\ Nat.min (length x.(ws_buffered_polls_need_cache_slot) - num_existing_evictions x.(ws_runs))
       (unbuffered x.(ws_runs)) <= num_existing_evictions x'.(ws_runs).
Proof. apply reconcile_evictions. Qed.

(** Some run is being evicted, or all of them have tasks of their own to go on with. *)
Definition slot_to_come x : Prop :=
  (exists k, evicting k x)
  \/ Forall (fun p => rh_has_buffered_wft p.2 = true) (items x.(ws_runs)).

Lemma evicting_counted x :
  NoDup (items x.(ws_runs)).*1 -> 0 < num_existing_evictions x.(ws_runs) -> exists k, evicting k x.
Proof.
  intros Hnd Hpos. destruct (evicting_existing x Hnd) as ([|k l] & _ & Hlen & Hall);
    simpl in Hlen; [lia|]. exists k. apply Hall. by left.
Qed.

Lemma all_buffered rc :
  unbuffered rc = 0 -> Forall (fun p => rh_has_buffered_wft p.2 = true) (items rc).
Proof.
  unfold unbuffered, runs_lru_order. intros Hz%length_zero_iff_nil.
  apply Forall_forall. intros p Hp. destruct (rh_has_buffered_wft p.2) eqn:Hb; [done|].
  assert (p ∈ filter (fun p => rh_has_buffered_wft p.2 = false) (reverse (items rc))) as Hf
    by (apply list_elem_of_filter; split; [done|]; by rewrite elem_of_reverse).
  unfold items in Hf. rewrite Hz in Hf. by apply not_elem_of_nil in Hf.
Qed.

Lemma reconcile_progress x t x' t' acts :
  NoDup (items x.(ws_runs)).*1 ->
  reconcile_buffered (x, t) = ((x', t'), Ok acts) ->
  x'.(ws_buffered_polls_need_cache_slot) <> [] -> slot_to_come x'.
Proof.
  intros Hnd Hr Hpolls. destruct (reconcile_evictions _ _ _ _ _ Hnd Hr) as (Hp & Hold & Hnew).
  unfold reconcile_buffered in Hr. apply bind_Ok_inv in Hr as (s1 & x1 & [= <- <-] & Hr). simpl in Hr.
  destruct (decide (0 < num_existing_evictions (ws_runs x'))) as [Hpos|].
  { left. apply evicting_counted; [|done]. by rewrite (ev_keys _ _ _ (evicts_requested _ _ _ _ _ _ Hr)). }
  destruct (ws_buffered_polls_need_cache_slot x) as [|w ps] eqn:Hx; [congruence|]. simpl in *.
  destruct (num_existing_evictions (ws_runs x)) eqn:Hn; [|lia].
  assert (unbuffered (ws_runs x) = 0) as Hu by lia.
  set (ids := evict_these _ _) in *. assert (ids = []) as Hids.
  { apply length_zero_iff_nil. unfold ids. rewrite evict_these_length.
    unfold unbuffered in Hu. lia. }
  rewrite Hids in Hr. injection Hr as <- <- <-. right. by apply all_buffered.
Qed.

(** Every input but an error of the poller ends with [conclude]. *)
Lemma handle_input_concludes n i s s' o :
  stream_inv any_report s -> handle_input debug_status n i s = (s', Ok o) ->
  (exists e, o = TonicError e) \/ exists s1 acts, stream_inv any_report s1 /\ conclude n acts s1 = (s', Ok o).
Proof.
  intros Hs Hi.
  assert (forall A (m : SM A) f, keeps any_report m -> (m ≫= fun a => conclude n (f a)) s = (s', Ok o) ->
    exists s1 acts, stream_inv any_report s1 /\ conclude n acts s1 = (s', Ok o)) as Hthen.
  { intros A m f Hm (s1 & a & H1' & H2')%bind_Ok_inv. specialize (Hm s Hs).
    unfold wp in Hm. rewrite H1' in Hm. eauto. }
  destruct i; simpl in Hi.
  - right. eapply Hthen, Hi. apply stream_keeps_instantiate.
  - right. eapply (Hthen _ _ id), Hi. apply stream_keeps_local, (any_input (LocalInput _)).
  - right. eapply (Hthen _ _ (fun _ => [])), Hi. by apply stream_keeps_on_stream.
  - left. injection Hi as _ <-. eauto.
  - right. eapply (Hthen _ _ (fun r => option_list (into_run_update_resp r))), Hi.
    apply stream_keeps_request_eviction.
Qed.

Lemma conclude_reconciles n acts s s' o :
  conclude n acts s = (s', Ok o) ->
  exists x1 t1 more, reconcile_buffered s = ((x1, t1), Ok more)
    /\ s'.1.(ws_runs) = x1.(ws_runs)
    /\ s'.1.(ws_buffered_polls_need_cache_slot) = x1.(ws_buffered_polls_need_cache_slot)
    /\ (o = ShutDown -> s'.1 = x1 /\ shutdown_done n x1 = true).
Proof.
  intros ([x1 t1] & more & Hr & Ho)%bind_Ok_inv. exists x1, t1, more. split; [done|].
  unfold mbind, M_bind, the_stream in Ho. simpl in Ho.
  destruct (shutdown_done n x1) eqn:Hd; injection Ho as <- <-; by split_and!.
Qed.

(** C9 Polls never wait in vain while runs are cached: after any input has been
    handled, if polls wait for a slot then some cached run is being evicted, or
    all cached runs have tasks of their own to go on with. *)
Theorem waiting_polls_get_slots n i s s' o :
  stream_inv any_report s ->
  handle_input debug_status n i s = (s', Ok o) ->
  (forall e, o <> TonicError e) ->
  s'.1.(ws_buffered_polls_need_cache_slot) <> [] ->
  slot_to_come s'.1.
Proof.
  intros Hs Hi Ho Hpolls. destruct (handle_input_concludes _ _ _ _ _ Hs Hi)
    as [[e ->]|([x t] & acts & Hx & Hc)]; [by destruct (Ho e)|].
  destruct (conclude_reconciles _ _ _ _ _ Hc) as (x1 & t1 & more & Hr & Hruns & Hp & _).
  rewrite Hp in Hpolls. destruct Hx as [Hnd _].
  unfold slot_to_come, evicting. rewrite Hruns. by eapply reconcile_progress.
Qed.

End waiting.
End facts.
