(* ===== verification/ManagedStream.v ===== *)
(** * The stream over managed runs

    Managed runs have what the stream relies on; composed with them, the stream
    drives the workflow machines of every cached run through their operations. *)
From Stdlib Require Import ZArith Lia.
From stdpp Require Import base option list strings gmap.
From S2P Require Import Prelude Flags Protos ProtoExt CoreProtos Fsm LocalActs DrivenWorkflow.
From S2P Require Import Machines MachinePanics MachineCalls HistoryUpdate WMState WorkflowMachines WMSafety WMRun.
From S2P Require Import WMLoops WMReplay WorkflowTasks ManagedRun ManagedRunFacts ManagedRunSafety.
From S2P Require Import RunCache WorkflowStream WorkflowStreamFacts.

Section managed.
  Context {X : Externs} {K : Type} {Sm : Type -> Type}.
  Context {HED : EqDecision K} {HC : Countable K} {HSM : SlotMap K Sm} {HSL : SlotMapLaws K Sm}.
  Context {R : RunEnv}.
  Abbreviation Run := (ManagedRun (K := K) (Sm := Sm)).
  Abbreviation State := (Run * list effect)%type.
  Abbreviation RM E := (M State E).
  Implicit Types (s : State).

(** ** A run that is to be evicted stays so *)

Definition eviction_stays (s s' : State) : Prop :=
  is_Some s.1.(mr_trying_to_evict) -> is_Some s'.1.(mr_trying_to_evict).

#[global] Instance eviction_stays_preorder : PreOrder eviction_stays.
Proof. split; [intros s; unfold eviction_stays; done|]. intros s1 s2 s3 H12 H23 H1. auto. Qed.

Abbreviation stays := (within eviction_stays).

Lemma stays_calm {E A} (m : RM E A) : within same_tasks m -> stays m.
Proof. intros Hm s Hs. unfold eviction_stays. by rewrite (st_evict _ _ (Hm s)). Qed.

Lemma stays_on_run {E} f :
  (forall r : Run, is_Some (mr_trying_to_evict r) -> is_Some (mr_trying_to_evict (f r))) ->
  stays (on_run f : RM E unit).
Proof. intros Hf [r t] Hr. exact (Hf r Hr). Qed.

Ltac stays :=
  repeat first
    [ (apply stays_calm;
       first [ apply calm_emit | apply calm_check_more | apply calm_incoming | apply calm_outgoing
             | apply calm_insert | apply calm_fulfill | apply calm_process_completion
             | apply calm_preprocess ])
    | apply within_ret | apply within_throw | apply within_panic | apply within_lift
    | apply within_the_run | apply within_attempt | (apply within_trace; intros)
    | (apply within_bind; [| |intros])
    | match goal with |- PreOrder _ => apply _ end
    | (apply stays_on_run; by eauto)
    | case_match ].

Definition all_stay (n : nat) : Prop :=
  (forall o, stays (update_to_acts n o))
  /\ (forall p, stays (incoming_wft n p))
  /\ (forall c r f a ch, stays (failed_completion n c r f a ch))
  /\ (forall i, stays (request_eviction n i))
  /\ stays (check_more_activations n)
  /\ (forall c f v ch b, stays (successful_completion n c f v ch b))
  /\ (forall c, stays (process_completion n c))
  /\ (forall o ch, stays (reply_to_complete n o ch)).

Lemma stays_zero : all_stay 0.
Proof. split_and!; intros; apply within_throw; apply _. Qed.

#[local] Opaque update_to_acts incoming_wft failed_completion request_eviction
  check_more_activations successful_completion process_completion reply_to_complete.

Lemma stays_all n : all_stay n.
Proof.
  induction n as [|n (Hu & Hin & Hf & Hev & Hc & Hs & Hp & Hr)].
  { apply stays_zero. }
  split_and!; intros.
  - rewrite update_to_acts_S. unfold update_to_acts_body, settle. stays; auto.
  - rewrite incoming_wft_S. unfold incoming_wft_body. stays; auto.
  - rewrite failed_completion_S. unfold failed_completion_body, evict_after_failure, report_failure.
    stays; auto.
  - rewrite request_eviction_S. unfold request_eviction_body, store_eviction. stays; auto.
  - rewrite check_more_activations_S. unfold check_more_activations_body. stays; auto.
  - rewrite successful_completion_S.
    unfold successful_completion_body, completion_without_wft, completion_with_wft. stays; auto.
  - rewrite process_completion_S. unfold process_completion_body. stays; auto.
  - rewrite reply_to_complete_S. unfold reply_to_complete_body. stays; auto.
Qed.

Lemma store_eviction_remembers n info attempts s s' res :
  store_eviction (check_more_activations n) info attempts s = (s', Ok res) ->
  is_Some s'.1.(mr_trying_to_evict).
Proof.
  destruct (stays_all n) as (_ & _ & _ & _ & Hc & _). unfold store_eviction.
  destruct s as [r0 t0]. intros (s1 & r & [= <- <-] & Hr)%bind_Ok_inv. case_match.
  - apply bind_Ok_inv in Hr as (s2 & ? & _ & Hr).
    apply bind_Ok_inv in Hr as ([r3 t3] & ? & Hset & Hr). destruct s2 as [r2 t2].
    injection Hset as <- <- <-. apply bind_Ok_inv in Hr as (s4 & acts & Hr & [= <- <-]).
    pose proof (Hc (set_trying_to_evict (Some info) r2, t2)) as Hst. rewrite Hr in Hst.
    apply Hst. by eexists.
  - apply bind_Ok_inv in Hr as (s2 & ? & Hset & [= <- <-]).
    injection Hset as <- <-. by eexists.
Qed.

(** Managed runs offer what the stream relies on. *)
#[global] Instance managed_laws n : @RunHandleLaws Run (list effect) (managed_handle n).
Proof.
  split; simpl.
  - intros info [r0 t0] s' res Hinfo Hr. destruct n as [|n]; [done|].
    rewrite request_eviction_S in Hr. unfold request_eviction_body in Hr.
    apply bind_Ok_inv in Hr as (s1 & r & [= <- <-] & Hr). rewrite Hinfo in Hr.
    assert (store_eviction (check_more_activations n) info
      ((fun wt => wti_attempt (ot_info wt)) <$> mr_wft r0) (r0, t0) = (s', Ok res)) as Hst
      by (by repeat case_match).
    by eapply store_eviction_remembers.
  - intros b r Hte. unfold has_any_pending_work. destruct (mr_trying_to_evict r); [|by destruct Hte].
    simpl. by rewrite !orb_true_r.
  - intros b r Hb. unfold has_any_pending_work, has_buffered_wft in *. rewrite Hb.
    simpl. by rewrite orb_true_r.
Qed.

(** ** The machines of cached runs *)

(** Reports that do not reset the run to an earlier task. *)
Definition without_reset (status : WFTReportStatus) : Prop :=
  match status with Reported (Some _) _ => False | _ => True end.

Section drives.
  Context (n : nat).

#[local] Instance the_handle : RunHandle Run (list effect) := managed_handle n.

Lemma steers_pure_call {A} (f : Run -> Run * A) :
  (forall r, mr_wfm (f r).1 = mr_wfm r) -> steers (pure_call f : RM Depth A).
Proof.
  intros Hf [r t] Hr. unfold pure_call. specialize (Hf r). destruct (f r) as [r' a].
  simpl in *. rewrite Hf. by split.
Qed.

Lemma call_steers {A} (m : RM Depth A) : run_call without_reset m -> steers m.
Proof.
  destruct (steers_all n) as (Hu & Hin & Hf & Hev & Hc & Hs & Hp & Hr).
  destruct 1 as [| | | | | | | |status Hst| |]; simpl; auto.
  - apply (steers_step n (RI_FetchedPage u p) I).
  - apply (steers_step n (RI_LocalResolution res) I).
  - apply (steers_step n RI_Heartbeat I).
  - unfold mark_wft_complete. repeat (apply steers_bind; [|intros]);
      first [apply steers_the_run|apply steers_on_run; done|idtac].
    destruct status as [[]| |]; [done|..]; simpl; try apply steers_ret.
    repeat (apply steers_bind; [|intros]); first [apply steers_sink|apply steers_ret].
  - apply steers_pure_call. intros r. unfold finish_activation. repeat case_match; by simplify_eq/=.
  - apply steers_pure_call. intros r. unfold buffer_wft_if_outstanding_work. by case_match.
Qed.

Lemma cached_run_reaches k (r : Run) :
  cached_run without_reset k r ->
  exists basics, basics.(rb_run_id) = k
    /\ reaches (WorkflowMachines_new basics Driven.new) r.(mr_wfm) /\ wm_inv r.(mr_wfm).
Proof.
  induction 1 as [basics|A m k r t Hm _ (basics & Hk & Hre & Hi)].
  - exists basics. split_and!; [done..|]. apply new_inv.
  - destruct (call_steers m Hm (r, t) Hi) as [Hre' _]. exists basics.
    split_and!; [done|by etrans|by eapply reaches_inv].
Qed.

Lemma run_panic_quiet msg : run_panic (Run := Run) without_reset msg -> msg <> missing_machine.
Proof.
  intros (k & r & A & m & t & Hr & Hm & Hp) ->.
  destruct (cached_run_reaches k r Hr) as (_ & _ & _ & Hi).
  by destruct (call_steers m Hm (r, t) Hi) as [_ []].
Qed.

End drives.
End managed.
