(* ===== verification/StreamExamples.v ===== *)
(** * The stream at work

    A worker with room for one run: two polls wait while the run that is cached is
    evicted; and what the theorems about the stream say there. *)
From Stdlib Require Import ZArith Lia.
From stdpp Require Import base option list strings gmap.
From S2P Require Import Prelude Flags Protos ProtoExt CoreProtos Fsm LocalActs DrivenWorkflow.
From S2P Require Import Machines HistoryUpdate WMState WorkflowMachines WMRun WorkflowTasks.
From S2P Require Import ManagedRun ManagedRunFacts ManagedRunSafety ManagedRunExamples.
From S2P Require Import RunCache WorkflowStream WorkflowStreamFacts ManagedStream.

Module StreamExample.
Import WMRun.Example RunExample.
#[local] Existing Instance externs.
#[local] Existing Instance env.
#[local] Instance handle : RunHandle (ManagedRun (K := N) (Sm := counted_map)) (list effect) :=
  managed_handle 20.

(** Room for one run. *)
Definition config : WorkerConfig :=
  {| cfg_namespace := "ns"; cfg_task_queue := "q"; cfg_versioning_strategy := VersioningNone "b";
     cfg_max_cached_workflows := 1; cfg_ignore_evicts_on_shutdown := false;
     cfg_workflow_failure_errors := ∅; cfg_workflow_types_to_failure_errors := ∅ |}.

Definition task_of (run token : string) (u : HistoryUpdate) : PermittedWFT :=
  {| pwft_work := {| pw_task_token := token; pw_attempt := 1;
                     pw_execution := {| WorkflowExecution_workflow_id := "wf";
                                        WorkflowExecution_run_id := run |};
                     pw_workflow_type := "t"; pw_legacy_query := None; pw_query_requests := [];
                     pw_update := u; pw_messages := [] |};
     pwft_permit := 0; pwft_paginator := HistoryPaginator_new [] 0 0 "wf" run Done |}.

Definition completes (run : string) (chan : N) : WFStreamInput :=
  LocalInput (LI_Completion {| acm_completion := VC_Success run [] [] VB_Unspecified;
                               acm_response_tx := Some chan |}).

Definition reports (run : string) (status : WFTReportStatus) : WFStreamInput :=
  LocalInput (LI_PostActivation {| pam_run_id := run; pam_wft_report_status := status;
                                   pam_wft_from_complete := None; pam_is_autocomplete := false |}).

Definition start : WFStream list_cache (ManagedRun (K := N) (Sm := counted_map)) * list effect :=
  (build config ("core", "1") true false, []).

Definition debug_status (s : Status) : string := s.(status_message).

(** Run "a" is cached; a task with the later events of "b", and the first task of
    "c", find the cache full. *)
Definition two_polls_wait : list (nat * WFStreamInput) :=
  [(0, NewWft (task_of "a" "t1" (update first_task 0 3)));
   (0, completes "a" 1%N);
   (0, reports "a" (Reported None 0));
   (0, NewWft (task_of "b" "t2" (update heartbeat_task 3 6)));
   (0, NewWft (task_of "c" "t3" (update first_task 0 3)))].

(** "a" is evicted, the history of "b" is fetched, and that fails. *)
Definition evict_and_fetch : list (nat * WFStreamInput) :=
  [(0, completes "a" 2%N);
   (0, reports "a" NotReported);
   (0, FailedFetch "b" EMPTY_FETCH_ERR None)].

Definition after (inputs : list (nat * WFStreamInput)) := run_stream debug_status inputs start.
Definition state (inputs : list (nat * WFStreamInput)) := (after inputs).1.1.
Definition reached (inputs : list (nat * WFStreamInput)) := (after inputs).1.

#[local] Opaque run_stream handle_input reconcile_buffered.

Lemma cache_never_overflows_witness :
  length (items (state two_polls_wait).(ws_runs)) <= 1.
Proof.
  pose proof (cache_never_overflows debug_status config ("core", "1") true false []
    two_polls_wait) as Hc.
  assert (cache_capacity (state two_polls_wait).(ws_runs) = 1) as E by (vm_compute; reflexivity).
  fold start in Hc. unfold state, after in *.
  destruct (run_stream debug_status two_polls_wait start) as [[s t] r]. simpl in *.
  destruct Hc as (_ & Hc & _). rewrite E in Hc. exact Hc.
Defined.

(** While "b" waits "a" is being evicted. *)
Lemma waiting_polls_get_slots_witness :
  exists s' o, handle_input debug_status 0 (NewWft (task_of "b" "t2" (update heartbeat_task 3 6)))
                 (reached (take 3 two_polls_wait)) = (s', Ok o)
    /\ s'.1.(ws_buffered_polls_need_cache_slot) <> [] /\ slot_to_come s'.1.
Proof.
  destruct (handle_input debug_status 0 _ (reached (take 3 two_polls_wait))) as [s' r] eqn:E.
  assert (exists a, r = Ok (WFStreamOutput [a] [])) as [a Er]
    by (replace r with (s', r).2 by reflexivity; rewrite <-E; vm_compute; eexists; reflexivity).
  assert (length s'.1.(ws_buffered_polls_need_cache_slot) = 1) as El
    by (replace s' with (s', r).1 by reflexivity; rewrite <-E; vm_compute; reflexivity).
  assert (s'.1.(ws_buffered_polls_need_cache_slot) <> []) as Hw by (intros H; rewrite H in El; discriminate).
  subst r. exists s', (WFStreamOutput [a] []). split; [reflexivity|]. split; [exact Hw|].
  apply (waiting_polls_get_slots debug_status _ _ _ _ _
    (reachable_inv debug_status config ("core", "1") true false [] _) E); [discriminate|exact Hw].
Defined.


(** One poll waits and no eviction is under way: one is requested. *)
Definition one_waits : WFStream list_cache (ManagedRun (K := N) (Sm := counted_map)) :=
  set_polls [[task_of "c" "t3" (update first_task 0 3)]] (state (take 3 two_polls_wait)).

Lemma reconcile_requests_evictions_witness :
  exists x' t' acts, reconcile_buffered (one_waits, []) = ((x', t'), Ok acts)
    /\ 1 <= num_existing_evictions x'.(ws_runs).
Proof.
  destruct (reconcile_buffered (one_waits, [])) as [[x' t'] r] eqn:E.
  assert (exists a, r = Ok [a]) as [a Er]
    by (replace r with ((x', t'), r).2 by reflexivity; rewrite <-E; vm_compute; eexists; reflexivity).
  subst r. exists x', t', [a]. split; [reflexivity|].
  assert (Nat.min (length one_waits.(ws_buffered_polls_need_cache_slot)
            - num_existing_evictions one_waits.(ws_runs)) (unbuffered one_waits.(ws_runs)) = 1) as El
    by (vm_compute; reflexivity).
  rewrite <-El. apply (reconcile_requests_evictions one_waits [] x' t' [a]); [|exact E].
  replace (items (ws_runs one_waits)).*1 with ["a"] by (vm_compute; reflexivity).
  apply NoDup_singleton.
Defined.


(** A poll may wait for ever: with room for one run, "a" is evicted for "b" and
    "c", which wait; the history of "b" has to be fetched and that fails.  Now no
    run is cached, the task of "c" waits still, nothing was sent for it, and when
    the poller dies the stream ends and drops it. *)
Theorem failed_fetch_strands_poll :
  let '(s, r) := after (two_polls_wait ++ evict_and_fetch) in
  (exists outputs, r = Ok outputs /\ length outputs = 8)
  /\ s.1.(ws_buffered_polls_need_cache_slot) = [[task_of "c" "t3" (update first_task 0 3)]]
  /\ items s.1.(ws_runs) = []
  /\ (handle_input debug_status 0 PollerDead s).2 = Ok ShutDown.
Proof.
  destruct (after (two_polls_wait ++ evict_and_fetch)) as [s r] eqn:E.
  replace s with (after (two_polls_wait ++ evict_and_fetch)).1 by (rewrite E; reflexivity).
  split; [|split; [vm_compute; reflexivity|split; [|vm_compute; reflexivity]]];
    [|apply length_zero_iff_nil; vm_compute; reflexivity].
  assert (match r with Ok l => length l | _ => 0 end = 8) as Hr
    by (replace r with (s, r).2 by reflexivity; rewrite <-E; vm_compute; reflexivity).
  destruct r as [l|e|msg]; try discriminate Hr. exists l. split; [reflexivity|exact Hr].
Qed.
End StreamExample.
