(* ===== verification/Workflows.v ===== *)
(** * Completions and the server (worker/workflow/mod.rs, worker/workflow/wft_poller.rs)

    What follows a completion once the stream has answered it: the report to the
    server, the eager activities, evictions after errors, and the message that ends
    the activation; activations that are completed without lang; the admission of
    sticky and non-sticky pollers. *)
From Stdlib Require Import ZArith Lia.
From stdpp Require Import base option list strings gmap.
From S2P Require Import Prelude Flags Protos ProtoExt CoreProtos Fsm LocalActs DrivenWorkflow.
From S2P Require Import Machines HistoryUpdate WMState WorkflowMachines WorkflowTasks ManagedRun RunCache.
From S2P Require Import WorkflowStream.

(** ** What is sent to the server *)

Record StickyExecutionAttributes := {
  sea_worker_task_queue : option TaskQueue;
  sea_schedule_to_start_timeout : option Duration;
}.

(** [WorkflowTaskCompletion] (worker/client.rs). *)
Record WorkflowTaskCompletion := {
  wtc_task_token : string;
  wtc_commands : list Command;
  wtc_messages : list Message;
  wtc_sticky_attributes : option StickyExecutionAttributes;
  wtc_query_responses : list QueryResult;
  wtc_return_new_workflow_task : bool;
  wtc_force_create_new_workflow_task : bool;
  wtc_sdk_metadata : WorkflowTaskCompletedMetadata;
  wtc_nonfirst_local_activity_execution_attempts : Z;
  wtc_versioning_behavior : VersioningBehavior;
}.

(** A status of a call, and whether its metadata has [MESSAGE_TOO_LARGE_KEY]. *)
Record RpcStatus := { rs_status : Status; rs_message_too_large : bool }.

Definition INVALID_ARGUMENT : Z := 3.
Definition NOT_FOUND : Z := 5.
Definition DATA_LOSS : Z := 15.

Inductive LegacyQueryResult :=
| LegacyQuerySucceeded (r : QueryResult)
| LegacyQueryFailed (f : completion_Failure).

(** The fields of [RespondWorkflowTaskCompletedResponse] that are read; an activity
    task is a value of a type that is a parameter. *)
Record CompletedResponse (Act : Type) := {
  cr_workflow_task : option PollWorkflowTaskQueueResponse;
  cr_activity_tasks : list Act;
  cr_reset_history_event_id : Z;
}.
Arguments cr_workflow_task {Act}. Arguments cr_activity_tasks {Act}.
Arguments cr_reset_history_event_id {Act}.

(** What happens, in order: calls to the server, messages to the stream, tasks
    given to the activity task manager, and the hook after an activation. *)
Inductive wf_effect (Permit Act : Type) :=
| CompleteCall (c : WorkflowTaskCompletion)
| FailCall (task_token : string) (cause : WorkflowTaskFailedCause) (failure : option Failure)
| QueryCall (task_token : string) (res : LegacyQueryResult)
| ToStream (msg : LocalInputs)
| AddTasks (tasks : list (Permit * Act))
| HookCall (run_id : string) (replaying : bool).
Arguments CompleteCall {Permit Act}. Arguments FailCall {Permit Act}.
Arguments QueryCall {Permit Act}. Arguments ToStream {Permit Act}.
Arguments AddTasks {Permit Act}. Arguments HookCall {Permit Act}.

(** The server, the clock, the activity task manager and the local activity manager,
    as they answer after the effects so far. *)
Class WorkflowsEnv (Handle Permit Act Client : Type) := {
  server_complete : list (wf_effect Permit Act) -> WorkflowTaskCompletion ->
    RpcStatus + CompletedResponse Act;
  server_fail : list (wf_effect Permit Act) -> string -> option RpcStatus;
  server_query : list (wf_effect Permit Act) -> string -> option RpcStatus;
  get_workflow_execution_history :
    Client -> string -> string -> string -> Client * outcome Status GetHistoryResponse;
  reserve_slot : Handle -> Handle * option Permit;
  completion_instant : list (wf_effect Permit Act) -> Z;
  nonfirst_attempt_count : list (wf_effect Permit Act) -> string -> nat;
  iter_queries : gmap string WorkflowQuery -> list (string * WorkflowQuery);
  debug_rpc : Status -> string;
}.

(** [validate_wft]; a [Debug] dump is not part of the message. *)
Definition validate_wft `{AnyRequest}
    (iter_queries : gmap string WorkflowQuery -> list (string * WorkflowQuery))
    (wft : PollWorkflowTaskQueueResponse) : outcome Status ValidPollWFTQResponse :=
  map_err (fun _ =>
      {| code := DATA_LOSS;
         status_message := "Server returned a poll WFT response we couldn't interpret: " |})
    (ValidPollWFTQResponse_try_from iter_queries wft).

Definition grpc_message_too_large : completion_Failure :=
  {| cf_failure := Some (mkFailure "GRPC Message too large" "" "" None None
       (Some (FI_Application
          {| ApplicationFailureInfo_type := "GrpcMessageTooLarge";
             ApplicationFailureInfo_non_retryable := true;
             ApplicationFailureInfo_details := None;
             ApplicationFailureInfo_next_retry_delay := None;
             ApplicationFailureInfo_category := 0 |})));
     cf_force_cause := 0 |}.

(** [x as u32]. *)
Definition usize_as_u32 (n : nat) : Z := (Z.of_nat n mod (u32_max + 1))%Z.

Section workflows.
  Context {Handle Permit Act Client : Type} `{AnyRequest} `{!WorkflowsEnv Handle Permit Act Client}.
  Context (debug_commands : list WFCommand -> string).

(** [Workflows]: what the completion path reads of it. *)
Record Workflows := {
  w_task_queue : string;
  w_sticky_attrs : option StickyExecutionAttributes;
  w_default_versioning_behavior : option VersioningBehavior;
  w_stream_alive : bool;
}.

(** The handle of the activity task manager, the client and the effects so far. *)
Record wstate := {
  ws_handle : option Handle;
  ws_client : Client;
  ws_trace : list (wf_effect Permit Act);
}.

Abbreviation WM := (M wstate Depth).

Definition effects : WM (list (wf_effect Permit Act)) := fun s => (s, Ok s.(ws_trace)).

Definition act (e : wf_effect Permit Act) : WM unit := fun s =>
  ({| ws_handle := s.(ws_handle); ws_client := s.(ws_client); ws_trace := s.(ws_trace) ++ [e] |},
   Ok tt).

Definition with_handle {A} (f : option Handle -> option Handle * A) : WM A := fun s =>
  let '(h, a) := f s.(ws_handle) in
  ({| ws_handle := h; ws_client := s.(ws_client); ws_trace := s.(ws_trace) |}, Ok a).

(** A call of the client that may run out of fuel. *)
Definition with_client {A} (f : Client -> option (Client * A)) : WM A := fun s =>
  match f s.(ws_client) with
  | None => (s, Err OutOfFuel)
  | Some (c, a) =>
      ({| ws_handle := s.(ws_handle); ws_client := c; ws_trace := s.(ws_trace) |}, Ok a)
  end.

(** [send_local]: whether the message was sent. *)
Definition send_local (w : Workflows) (msg : LocalInputs) : WM bool :=
  if w.(w_stream_alive) then _ ← act (ToStream msg); mret true else mret false.

(** [request_eviction]. *)
Definition wf_request_eviction (w : Workflows) (run_id message : string) (reason : EvictionReason)
  : WM unit :=
  _ ← send_local w (LI_RequestEviction
        {| rem_run_id := run_id; rem_message := message; rem_reason := reason;
           rem_auto_reply_fail_tt := None |});
  mret tt.

(** [handle_wft_reporting_errs], of the error that reporting gave, if any. *)
Definition reporting_eviction (err : Status) : EvictionReason :=
  if (err.(code) =? INVALID_ARGUMENT)%Z && String.eqb err.(status_message) "UnhandledCommand"
  then ER_UnhandledCommand
  else if (err.(code) =? NOT_FOUND)%Z then ER_TaskNotFound
  else ER_Fatal.

Definition handle_wft_reporting_errs (w : Workflows) (run_id : string)
    (completer : WM (option Status)) : WM unit :=
  r ← completer;
  match r with
  | Some err =>
      wf_request_eviction w run_id "Error reporting WFT to server" (reporting_eviction err)
  | None => mret tt
  end.

(** [respond_legacy_query]: errors are only logged. *)
Definition respond_legacy_query (tt_ : string) (res : LegacyQueryResult) : WM unit :=
  act (QueryCall tt_ res).

Definition handle_activation_failed (w : Workflows) (run_id : string) (completion_time : Z)
    (outcome : FailedActivationWFTReport) : WM WFTReportStatus :=
  match outcome with
  | Report tt_ cause failure =>
      _ ← handle_wft_reporting_errs w run_id
            (t ← effects;
             _ ← act (FailCall tt_ cause failure.(cf_failure));
             mret (rs_status <$> server_fail t tt_));
      mret (Reported None completion_time)
  | ReportLegacyQueryFailure task_token failure =>
      _ ← respond_legacy_query task_token (LegacyQueryFailed failure);
      mret (Reported None completion_time)
  end.

(** The versioning behavior that is sent. *)
Definition sent_versioning (w : Workflows) (vb : VersioningBehavior) : VersioningBehavior :=
  match w.(w_default_versioning_behavior) with
  | Some default_vb => if bool_decide (vb = VB_Unspecified) then default_vb else vb
  | None => vb
  end.

(** [handle_eager_activities]: what is given to the manager. *)
Definition add_eager (reserved : list Permit) (eager_acts : list Act) : WM unit :=
  s ← get;
  with_permits ← lift (handle_eager_activities (is_some s.(ws_handle)) reserved eager_acts);
  match with_permits with
  | [] => mret tt
  | _ => act (AddTasks with_permits)
  end.

(** The call that completes a task: what goes wrong, the reset and the new task. *)
Definition complete_call (w : Workflows) (run_id : string) (completion_time : Z)
    (completion : WorkflowTaskCompletion) (reserved : list Permit)
  : WM (option Status * option Z * option ValidPollWFTQResponse) :=
  t ← effects;
  _ ← act (CompleteCall completion);
  match server_complete t completion with
  | inr response =>
      let reset := if (0 <? response.(cr_reset_history_event_id))%Z
                   then Some response.(cr_reset_history_event_id) else None in
      let eager wft :=
        _ ← add_eager reserved response.(cr_activity_tasks); mret (None, reset, wft) in
      match response.(cr_workflow_task) with
      | Some wft =>
          match validate_wft iter_queries wft with
          | Err e => mret (Some e, reset, None)
          | Ok wft => eager (Some wft)
          | Panic msg => panic msg
          end
      | None => eager None
      end
  | inl e =>
      if e.(rs_message_too_large) then
        _ ← handle_activation_failed w run_id completion_time
              (Report completion.(wtc_task_token) FC_GrpcMessageTooLarge grpc_message_too_large);
        mret (None, None, None)
      else mret (Some e.(rs_status), None, None)
  end.

Definition handle_activation_completed_success (w : Workflows) (run_id : string)
    (completion_time : Z) (report : ServerCommandsWithWorkflowInfo)
  : WM (WFTReportStatus * option ValidPollWFTQResponse) :=
  match report.(scwi_action) with
  | WftComplete commands messages query_responses force_new_wft sdk_metadata vb =>
      '(commands, reserved) ← with_handle (fun h =>
         let '(h, commands, reserved) :=
           reserve_activity_slots_for_outgoing_commands reserve_slot w.(w_task_queue) commands h in
         (h, (commands, reserved)));
      t ← effects;
      let completion :=
        {| wtc_task_token := report.(scwi_task_token);
           wtc_commands := commands;
           wtc_messages := messages;
           wtc_sticky_attributes := w.(w_sticky_attrs);
           wtc_query_responses := query_responses;
           wtc_return_new_workflow_task := is_some w.(w_sticky_attrs);
           wtc_force_create_new_workflow_task := force_new_wft;
           wtc_sdk_metadata := sdk_metadata;
           wtc_nonfirst_local_activity_execution_attempts :=
             usize_as_u32 (nonfirst_attempt_count t run_id);
           wtc_versioning_behavior := sent_versioning w vb |} in
      '(err, reset, wft) ← complete_call w run_id completion_time completion reserved;
      _ ← handle_wft_reporting_errs w run_id (mret err);
      mret (Reported reset completion_time, wft)
  | RespondLegacyQuery result =>
      _ ← respond_legacy_query report.(scwi_task_token) (LegacyQuerySucceeded result);
      mret (Reported None completion_time, None)
  end.

Definition handle_activation_completed_result (w : Workflows) (run_id : string)
    (outcome : ActivationCompleteOutcome) : WM (WFTReportStatus * option ValidPollWFTQResponse) :=
  t ← effects;
  let completion_time := completion_instant t in
  match outcome with
  | ReportWFTSuccess report =>
      handle_activation_completed_success w run_id completion_time report
  | ReportWFTFail outcome =>
      st ← handle_activation_failed w run_id completion_time outcome; mret (st, None)
  | WFTFailedDontReport => mret (DropWft, None)
  | DoNothing => mret (NotReported, None)
  end.

(** The history of a task that came with the response, of [fuel] pages at most. *)
Definition paginate_from_complete (fuel : nat) (w : Workflows) (run_id : string)
    (wft : option ValidPollWFTQResponse) : WM (option WFTWithPaginator) :=
  match wft with
  | None => mret None
  | Some wft =>
      r ← with_client (fun c => from_poll get_workflow_execution_history fuel c wft);
      match r with
      | Ok (paginator, wft) => mret (Some {| wwp_wft := wft; wwp_paginator := paginator |})
      | Err e =>
          _ ← wf_request_eviction w run_id
                ("Failed to paginate workflow task from completion: " +:+ debug_rpc e) ER_Fatal;
          mret None
      | Panic msg => panic msg
      end
  end.

(** [activation_completed] after the completion was sent; [answer] is what the
    stream says, [None] if it dropped the channel. *)
Definition completer_dropped : string :=
  "Send half of activation complete response channel went missing".

Definition finish_completion (fuel : nat) (w : Workflows) (run_id : string)
    (is_autocomplete has_hook : bool) (answer : option ActivationCompleteResult) : WM unit :=
  match answer with
  | None => wf_request_eviction w run_id completer_dropped ER_Fatal
  | Some result =>
      '(status, wft) ← handle_activation_completed_result w run_id result.(acr_outcome);
      maybe_pwft ← paginate_from_complete fuel w run_id wft;
      _ ← (if has_hook : bool then act (HookCall run_id result.(acr_replaying)) else mret tt);
      _ ← send_local w (LI_PostActivation
            {| pam_run_id := run_id; pam_wft_report_status := status;
               pam_wft_from_complete := maybe_pwft; pam_is_autocomplete := is_autocomplete |});
      mret tt
  end.

Definition unprocessed_completion : string :=
  "A non-empty completion was not processed. Workflow processing may have terminated unexpectedly. This is a bug.".

(** [activation_completed]: [chan] is the new channel, [answers] what the stream says
    on it when the completion is there. *)
Definition activation_completed (fuel : nat) (w : Workflows)
    (completion : WorkflowActivationCompletion) (is_autocomplete has_hook : bool) (chan : RespChan)
    (answers : WFActCompleteMsg -> option ActivationCompleteResult)
  : WM (CompleteWfError + unit) :=
  let is_empty_completion := completion_is_empty completion in
  match validate_completion debug_commands completion is_autocomplete with
  | Err e => mret (inl e)
  | Panic msg => panic msg
  | Ok validated =>
      let run_id := vc_run_id validated in
      let msg := {| acm_completion := validated; acm_response_tx := Some chan |} in
      was_sent ← send_local w (LI_Completion msg);
      if was_sent : bool then
        _ ← finish_completion fuel w run_id is_autocomplete has_hook (answers msg);
        mret (inr tt)
      else if is_empty_completion then mret (inr tt)
      else panic unprocessed_completion
  end.

(** A completion without commands, and one that fails. *)
Definition empty_completion (run_id : string) : WorkflowActivationCompletion :=
  {| wac_run_id := run_id;
     wac_status := Some (Successful {| cs_commands := []; cs_used_internal_flags := [];
                                       cs_versioning_behavior := 0 |}) |}.

Definition failed_completion_of (run_id : string) (e : WFMachinesError) : WorkflowActivationCompletion :=
  {| wac_run_id := run_id; wac_status := Some (Failed (as_failure e)) |}.

(** [next_workflow_activation], of what the stream has sent: the activation for
    lang, an error, or nothing yet. *)
Inductive PollError :=
| PE_ShutDown
| PE_TonicError (e : Status).

Inductive PollResult :=
| PolledActivation (a : WorkflowActivation)
| PolledError (e : PollError)
| PolledNothing.

Fixpoint next_workflow_activation (fuel : nat) (w : Workflows) (chan : RespChan)
    (answers : WFActCompleteMsg -> option ActivationCompleteResult)
    (items : list (ActivationOrAuto + PollError))
  : WM (PollResult * list (ActivationOrAuto + PollError)) :=
  match items with
  | [] => mret (PolledNothing, [])
  | inr e :: items => mret (PolledError e, items)
  | inl al :: items =>
      match al with
      | LangActivation a | ReadyForQueries a =>
          a ← lift (prepare_to_ship_activation a); mret (PolledActivation a, items)
      | Autocomplete run_id =>
          _ ← activation_completed fuel w (empty_completion run_id) true false chan answers;
          next_workflow_activation fuel w (chan + 1)%N answers items
      | AutoFail run_id machines_err =>
          _ ← activation_completed fuel w (failed_completion_of run_id machines_err) true false chan
                answers;
          next_workflow_activation fuel w (chan + 1)%N answers items
      end
  end.

End workflows.

(** ** Admission of pollers *)

(** [wait_if_needed]: whether a poller of the kind may go on. *)
Definition allow_poller (max_slots : nat) (is_sticky : bool)
    (num_sticky_active num_non_sticky_active num_sticky_backlog : nat) : bool :=
  let balance := (num_sticky_active + num_non_sticky_active <? max_slots)%nat in
  let backlog := (1 <? num_sticky_backlog)%nat && (num_sticky_active <? num_sticky_backlog)%nat in
  if negb is_sticky then
    if (num_non_sticky_active =? 0)%nat then true
    else if (num_sticky_active =? 0)%nat && (max_slots <=? num_non_sticky_active + 1)%nat then false
    else if backlog then false
    else balance
  else
    if (num_sticky_active =? 0)%nat then true
    else if (num_non_sticky_active =? 0)%nat && (max_slots <=? num_sticky_active + 1)%nat then false
    else if backlog then true
    else balance.

(** ** What a completion leads to *)
Section facts.
  Context {Handle Permit Act Client : Type} `{AnyRequest} `{!WorkflowsEnv Handle Permit Act Client}.
  Abbreviation Effect := (wf_effect Permit Act).
  Abbreviation State := (wstate (Handle := Handle) (Permit := Permit) (Act := Act) (Client := Client)).
  Abbreviation WM := (M State Depth).

(** A call that returns has effects such that [P]. *)
Definition emits {A} (m : WM A) (P : A -> list Effect -> Prop) : Prop :=
  forall s s' a, m s = (s', Ok a) -> exists new, s'.(ws_trace) = s.(ws_trace) ++ new /\ P a new.

Lemma emits_bind {A B} (m : WM A) (f : A -> WM B) P Q :
  emits m P -> (forall a, emits (f a) (Q a)) ->
  emits (m ≫= f) (fun b new => exists a n1 n2, new = n1 ++ n2 /\ P a n1 /\ Q a b n2).
Proof.
  intros Hm Hf s s' b (s1 & a & H1 & H2)%bind_Ok_inv.
  destruct (Hm _ _ _ H1) as (n1 & Ht1 & HP). destruct (Hf _ _ _ _ H2) as (n2 & Ht2 & HQ).
  exists (n1 ++ n2). rewrite Ht2, Ht1, app_assoc. split; [done|]. by exists a, n1, n2.
Qed.

Lemma emits_mono {A} (m : WM A) (P Q : A -> list Effect -> Prop) :
  emits m P -> (forall a n, P a n -> Q a n) -> emits m Q.
Proof. intros Hm HPQ s s' a Hs. destruct (Hm _ _ _ Hs) as (n & Hn & HP). eauto. Qed.

Lemma emits_then {A B} (m : WM A) (f : A -> WM B) P Q :
  emits m P ->
  (forall a n1, P a n1 -> emits (f a) (fun b n2 => Q b (n1 ++ n2))) ->
  emits (m ≫= f) Q.
Proof.
  intros Hm Hf s s' b (s1 & a & H1 & H2)%bind_Ok_inv.
  destruct (Hm _ _ _ H1) as (n1 & Ht1 & HP). destruct (Hf _ _ HP _ _ _ H2) as (n2 & Ht2 & HQ).
  exists (n1 ++ n2). by rewrite Ht2, Ht1, app_assoc.
Qed.

Lemma emits_ret {A} (a : A) (P : A -> list Effect -> Prop) : P a [] -> emits (mret a : WM A) P.
Proof. intros HP s s' b [= <- <-]. exists []. by rewrite app_nil_r. Qed.

Lemma emits_act e (P : unit -> list Effect -> Prop) : P tt [e] -> emits (act e : WM unit) P.
Proof. intros HP s s' [] [= <-]. by exists [e]. Qed.

Lemma emits_read {A} (f : State -> A) (P : A -> list Effect -> Prop) :
  (forall a, P a []) -> emits (fun s => (s, Ok (f s))) P.
Proof. intros HP s s' b [= <- <-]. exists []. by rewrite app_nil_r. Qed.

Lemma emits_panic {A} msg (P : A -> list Effect -> Prop) : emits (panic msg : WM A) P.
Proof. by intros s s' a [=]. Qed.

(** *** Calls of the server, and ends of activations *)

Definition is_server_call (e : Effect) : bool :=
  match e with CompleteCall _ | FailCall _ _ _ | QueryCall _ _ => true | _ => false end.

Definition server_calls (l : list Effect) : list Effect := List.filter is_server_call l.

Definition is_post (e : Effect) : bool :=
  match e with ToStream (LI_PostActivation _) => true | _ => false end.

Definition posts (l : list Effect) : list Effect := List.filter is_post l.

(** What the server is told of an outcome. *)
Definition reported (outcome : ActivationCompleteOutcome) (calls : list Effect) : Prop :=
  match outcome with
  | ReportWFTSuccess {| scwi_task_token := tok; scwi_action := WftComplete cmds msgs qrs force md _ |} =>
      exists c, c.(wtc_task_token) = tok /\ Forall2 at_most_refused cmds c.(wtc_commands)
        /\ c.(wtc_messages) = msgs
        /\ c.(wtc_query_responses) = qrs /\ c.(wtc_force_create_new_workflow_task) = force
        /\ c.(wtc_sdk_metadata) = md
        /\ (calls = [CompleteCall c]
            \/ calls = [CompleteCall c;
                        FailCall tok FC_GrpcMessageTooLarge grpc_message_too_large.(cf_failure)])
  | ReportWFTSuccess {| scwi_task_token := tok; scwi_action := RespondLegacyQuery qr |} =>
      calls = [QueryCall tok (LegacyQuerySucceeded qr)]
  | ReportWFTFail (Report tok cause f) => calls = [FailCall tok cause f.(cf_failure)]
  | ReportWFTFail (ReportLegacyQueryFailure tok f) => calls = [QueryCall tok (LegacyQueryFailed f)]
  | DoNothing | WFTFailedDontReport => calls = []
  end.

(** What the stream is told of it. *)
Definition status_of (outcome : ActivationCompleteOutcome) (status : WFTReportStatus) : Prop :=
  match outcome, status with
  | DoNothing, NotReported | WFTFailedDontReport, DropWft => True
  | ReportWFTSuccess _, Reported _ _ => True
  | ReportWFTFail _, Reported reset _ => reset = None
  | _, _ => False
  end.

(** Calls that neither report nor end an activation. *)
Definition aside (l : list Effect) : Prop := server_calls l = [] /\ posts l = [].

Lemma server_calls_app l1 l2 : server_calls (l1 ++ l2) = server_calls l1 ++ server_calls l2.
Proof. apply List.filter_app. Qed.
Lemma posts_app l1 l2 : posts (l1 ++ l2) = posts l1 ++ posts l2.
Proof. apply List.filter_app. Qed.

Lemma aside_nil : aside [].
Proof. done. Qed.

Lemma emits_send w msg :
  is_post (ToStream msg) = false -> emits (send_local w msg : WM bool) (fun _ n => aside n).
Proof.
  intros Hm. unfold send_local. destruct (w_stream_alive w); [|by apply emits_ret].
  eapply emits_then; [by apply (emits_act _ (fun _ n => n = [ToStream msg]))|].
  intros ? n ->. apply emits_ret. split; [done|]. by destruct msg.
Qed.

Lemma emits_evict w k m r : emits (wf_request_eviction w k m r : WM unit) (fun _ n => aside n).
Proof.
  eapply emits_then; [by apply emits_send|]. intros b n Hn. apply emits_ret. by rewrite app_nil_r.
Qed.

Lemma emits_errs w k completer P :
  emits completer P ->
  emits (handle_wft_reporting_errs w k completer : WM unit)
    (fun _ n => exists r n1 n2, n = n1 ++ n2 /\ P r n1 /\ aside n2).
Proof.
  intros Hc. eapply emits_then; [exact Hc|]. intros r n1 Hr. destruct r as [e|].
  - eapply emits_mono; [apply emits_evict|]. intros ? n2 Hn. exists (Some e), n1, n2. done.
  - apply emits_ret. exists None, n1, []. done.
Qed.

Lemma emits_effects P : (forall t, P t []) -> emits (effects : WM (list Effect)) P.
Proof. apply emits_read. Qed.

Lemma emits_failed w k time o :
  emits (handle_activation_failed w k time o : WM WFTReportStatus)
    (fun st n => st = Reported None time /\ posts n = []
                 /\ reported (ReportWFTFail o) (server_calls n)).
Proof.
  destruct o as [tok cause f|tok f]; simpl.
  - eapply emits_then.
    { apply (emits_errs _ _ _ (fun _ n => n = [FailCall tok cause f.(cf_failure)])).
      eapply emits_then; [by apply (emits_effects (fun _ n => n = []))|]. intros t ? ->.
      eapply emits_then; [by apply (emits_act _ (fun _ n => n = [FailCall tok cause f.(cf_failure)]))|].
      intros ? ? ->. by apply emits_ret. }
    intros ? ? (r & n1 & n2 & -> & -> & [Hs Hp]). apply emits_ret. rewrite app_nil_r.
    split; [done|]. by rewrite server_calls_app, posts_app, Hs, Hp.
  - eapply emits_then; [by apply (emits_act _ (fun _ n => n = [QueryCall tok (LegacyQueryFailed f)]))|].
    intros ? ? ->. by apply emits_ret.
Qed.

Lemma emits_eager reserved acts : emits (add_eager reserved acts : WM unit) (fun _ n => aside n).
Proof.
  eapply emits_then; [by apply (emits_read (fun s => s) (fun _ n => n = []))|]. intros st ? ->.
  destruct (handle_eager_activities _ _ _) as [l| |msg]; [|by intros ??? [=]..].
  intros s s' a Hs. simpl in Hs. destruct l as [|x l].
  - injection Hs as <-. exists []. by rewrite app_nil_r.
  - injection Hs as <-. by exists [AddTasks (x :: l)].
Qed.

(** The call that completes, and the failure after a message that was too large. *)
Lemma emits_complete_call w k time c reserved :
  emits (complete_call w k time c reserved : WM _)
    (fun _ n => posts n = [] /\
       (server_calls n = [CompleteCall c]
        \/ server_calls n = [CompleteCall c; FailCall c.(wtc_task_token) FC_GrpcMessageTooLarge
                                               grpc_message_too_large.(cf_failure)])).
Proof.
  eapply emits_then; [by apply (emits_effects (fun _ n => n = []))|]. intros t ? ->.
  eapply emits_then; [by apply (emits_act _ (fun _ n => n = [CompleteCall c]))|]. intros ? ? ->.
  assert (forall (reset : option Z) (wft : option ValidPollWFTQResponse) acts,
    emits (_ ← add_eager reserved acts; mret (@None Status, reset, wft) : WM _)
    (fun _ n2 => aside n2)) as Heager.
  { intros. eapply emits_then; [apply emits_eager|]. intros ? n Hn. apply emits_ret.
    by rewrite app_nil_r. }
  assert (forall n2, aside n2 -> posts ([] ++ [CompleteCall c] ++ n2) = [] /\
    (server_calls ([] ++ [CompleteCall c] ++ n2) = [CompleteCall c] \/ server_calls ([] ++ [CompleteCall c] ++ n2)
      = [CompleteCall c; FailCall c.(wtc_task_token) FC_GrpcMessageTooLarge
                             grpc_message_too_large.(cf_failure)])) as Haside.
  { intros n2 [Hs Hp]. rewrite !posts_app, !server_calls_app, Hs, Hp. auto. }
  destruct (server_complete t c) as [e|r].
  - destruct (rs_message_too_large e); [|by apply emits_ret, (Haside [])].
    eapply emits_then; [apply emits_failed|]. intros st n (_ & Hp & Hr). simpl in Hr.
    apply emits_ret. rewrite app_nil_r, !posts_app, !server_calls_app, Hp, Hr. auto.
  - destruct (cr_workflow_task r) as [wft|].
    + destruct (validate_wft _ wft) as [v|e|msg];
        [|by apply emits_ret, (Haside [])|apply emits_panic].
      eapply emits_mono; [apply Heager|]. intros ? n Hn. by apply Haside.
    + eapply emits_mono; [apply Heager|]. intros ? n Hn. by apply Haside.
Qed.

Lemma emits_handle {A} f (P : A -> list Effect -> Prop) :
  (forall h, P (f h).2 []) -> emits (with_handle f : WM A) P.
Proof.
  intros HP s s' a Hs. unfold with_handle in Hs. specialize (HP (ws_handle s)).
  destruct (f (ws_handle s)) as [h b]. injection Hs as <- <-. exists []. by rewrite app_nil_r.
Qed.

Lemma emits_client {A} f (P : A -> list Effect -> Prop) :
  (forall a, P a []) -> emits (with_client f : WM A) P.
Proof.
  intros HP s s' a Hs. unfold with_client in Hs. destruct (f (ws_client s)) as [[c b]|]; [|done].
  injection Hs as <- <-. exists []. by rewrite app_nil_r.
Qed.

Lemma emits_success w k time report :
  emits (handle_activation_completed_success w k time report : WM _)
    (fun r n => status_of (ReportWFTSuccess report) r.1 /\ posts n = []
                /\ reported (ReportWFTSuccess report) (server_calls n)).
Proof.
  destruct report as [tok [cmds msgs qrs force md vb|qr]]; unfold handle_activation_completed_success; simpl.
  - eapply emits_then.
    { apply (emits_handle _ (fun r n => n = [] /\ Forall2 at_most_refused cmds r.1)). intros h.
      destruct (reserve_activity_slots_for_outgoing_commands _ _ _ _) as [[h' cmds'] res] eqn:Hr.
      by destruct (reserve_loop_spec _ _ _ _ _ _ _ _ Hr) as [Hrel _]. }
    intros [cmds' res] ? [-> Hcmds]. simpl in Hcmds.
    eapply emits_then; [by apply (emits_effects (fun _ n => n = []))|]. intros t ? ->.
    eapply emits_then; [apply emits_complete_call|]. intros [[err reset] wft] n [Hp Hc].
    eapply emits_then; [by apply (emits_errs _ _ _ (fun _ n => n = [])), emits_ret|].
    intros ? ? (r & n1 & n2 & -> & -> & [Hs2 Hp2]). apply emits_ret.
    rewrite !posts_app, !server_calls_app, Hp, Hp2, Hs2. simpl. rewrite !app_nil_r.
    split; [done|]. split; [done|]. eexists. split_and!; [| | | | | |exact Hc]; done.
  - eapply emits_then; [by apply (emits_act _ (fun _ n => n = [QueryCall tok (LegacyQuerySucceeded qr)]))|].
    intros ? ? ->. by apply emits_ret.
Qed.

Lemma emits_result w k o :
  emits (handle_activation_completed_result w k o : WM _)
    (fun r n => status_of o r.1 /\ posts n = [] /\ reported o (server_calls n)).
Proof.
  eapply emits_then; [by apply (emits_effects (fun _ n => n = []))|]. intros t ? ->.
  destruct o as [report|o| |]; [apply emits_success| |by apply emits_ret..].
  eapply emits_then; [apply emits_failed|]. intros st n (-> & Hp & Hr).
  apply emits_ret. by rewrite app_nil_r.
Qed.

Lemma emits_paginate fuel w k wft :
  emits (paginate_from_complete fuel w k wft : WM _) (fun _ n => aside n).
Proof.
  destruct wft as [wft|]; [|by apply emits_ret].
  eapply emits_then; [by apply (emits_client _ (fun _ n => n = []))|]. intros r ? ->.
  destruct r as [[pag p']|e|msg]; [by apply emits_ret| |apply emits_panic].
  eapply emits_then; [apply emits_evict|]. intros ? n Hn. apply emits_ret. by rewrite app_nil_r.
Qed.

End facts.

(** Sticky and non-sticky pollers do not starve one another: while fewer pollers
    are active than there are slots, one of the kinds may start another; and a kind
    that already has a poller never takes the last slot while the other has none. *)
Theorem pollers_do_not_starve max_slots sticky non_sticky backlog :
  (sticky + non_sticky < max_slots ->
   allow_poller max_slots true sticky non_sticky backlog = true
   \/ allow_poller max_slots false sticky non_sticky backlog = true)
  /\ (allow_poller max_slots false sticky non_sticky backlog = true ->
      sticky = 0 -> 0 < non_sticky -> non_sticky + 1 < max_slots)
  /\ (allow_poller max_slots true sticky non_sticky backlog = true ->
      non_sticky = 0 -> 0 < sticky -> sticky + 1 < max_slots).
Proof.
  unfold allow_poller. simpl.
  destruct (Nat.eqb_spec non_sticky 0), (Nat.eqb_spec sticky 0); subst; simpl;
    repeat match goal with |- context [(?a <=? ?b)%nat] => destruct (Nat.leb_spec a b) end;
    repeat match goal with |- context [(?a <? ?b)%nat] => destruct (Nat.ltb_spec a b) end;
    simpl; split_and!; intros; try done; try lia; auto.
Qed.

(** ** A completion at work *)
Module WorkflowsExample.

#[local] Instance no_requests : AnyRequest := {| unpack_as_request _ := Err "" |}.

(** A server that accepts everything. *)
#[local] Instance quiet_server : WorkflowsEnv unit unit unit unit :=
  {| server_complete _ _ :=
       inr {| cr_workflow_task := None; cr_activity_tasks := []; cr_reset_history_event_id := 0 |};
     server_fail _ _ := None;
     server_query _ _ := None;
     get_workflow_execution_history c _ _ _ := (c, Err EMPTY_FETCH_ERR);
     reserve_slot h := (h, None);
     completion_instant t := Z.of_nat (length t);
     nonfirst_attempt_count _ _ := 0;
     iter_queries _ := [];
     debug_rpc e := e.(status_message) |}.

Definition workflows : Workflows :=
  {| w_task_queue := "q"; w_sticky_attrs := None; w_default_versioning_behavior := None;
     w_stream_alive := true |}.

Definition idle : wstate (Handle := unit) (Permit := unit) (Act := unit) (Client := unit) :=
  {| ws_handle := Some tt; ws_client := tt; ws_trace := [] |}.

Definition success : ActivationCompleteResult :=
  {| acr_replaying := false;
     acr_outcome := ReportWFTSuccess
       {| scwi_task_token := "t";
          scwi_action := WftComplete [] [] [] false WorkflowTaskCompletedMetadata_default
                           VB_Unspecified |} |}.

End WorkflowsExample.
