(* ===== verification/JsonData.v ===== *)
(** * JSON objects and sorting

    What the payload converters share, on both sides of the native interface:
    stable sorting by a key, maps from strings kept in key order (Elixir maps and
    the [BTreeMap] behind [serde_json::Map], which compare keys bytewise), and the
    values of [serde_json]. *)
From Stdlib Require Import ZArith Lia SpecFloat Ascii String Sorted OrdersEx.
From stdpp Require Import base option list strings sorting sets.
From S2P Require Import Prelude TimeArith.

(** ** Stable sorting *)
Section sort.
  Context {A K : Type} (leb : K -> K -> bool) (key : A -> K).

Fixpoint sort_insert (x : A) (l : list A) : list A :=
  match l with
  | [] => [x]
  | y :: r => if leb (key x) (key y) then x :: l else y :: sort_insert x r
  end.

(** [Enum.sort_by] and [slice::sort_by], which keep the order of equal keys. *)
Definition sort_by (l : list A) : list A := foldr sort_insert [] l.

Lemma sort_insert_perm x l : sort_insert x l ≡ₚ x :: l.
Proof.
  induction l as [|y l IH]; simpl; [done|]. case_match; [done|]. rewrite IH. apply Permutation_swap.
Qed.

Lemma sort_by_perm l : sort_by l ≡ₚ l.
Proof. induction l as [|x l IH]; simpl; [done|]. by rewrite sort_insert_perm, IH. Qed.

(** Elements with a key that is equal to [k] keep their order. *)
Context (P : A -> Prop) `{!forall x, Decision (P x)}.
Hypothesis leb_refl : forall x y, P x -> P y -> leb (key x) (key y) = true.

Lemma sort_insert_filter x l :
  filter P (sort_insert x l) = if decide (P x) then x :: filter P l else filter P l.
Proof.
  induction l as [|y l IH]; cbn [sort_insert]; [rewrite filter_cons; by case_decide|].
  destruct (leb (key x) (key y)) eqn:Hle; [by rewrite filter_cons|].
  rewrite !filter_cons, IH. repeat case_decide; try done.
  by rewrite leb_refl in Hle.
Qed.

Lemma sort_by_filter l : filter P (sort_by l) = filter P l.
Proof.
  induction l as [|x l IH]; simpl; [done|]. rewrite sort_insert_filter, filter_cons, IH. done.
Qed.
End sort.

(** ** Maps from strings *)
Section smap.
  Context {A : Type}.
  Implicit Types l : list (string * A).

Definition string_lt (a b : string) : Prop := String.compare a b = Lt.
Definition string_leb (a b : string) : bool :=
  match String.compare a b with Gt => false | _ => true end.

Fixpoint smap_put (k : string) (v : A) l : list (string * A) :=
  match l with
  | [] => [(k, v)]
  | (k', v') :: r =>
      match String.compare k k' with
      | Lt => (k, v) :: l
      | Eq => (k, v) :: r
      | Gt => (k', v') :: smap_put k v r
      end
  end.

(** [Map.new] and [collect]: the last pair with a key wins. *)
Definition smap_new l : list (string * A) := foldl (fun m kv => smap_put kv.1 kv.2 m) [] l.

Definition smap_get (k : string) l : option A := snd <$> List.find (fun kv => String.eqb kv.1 k) l.

Definition smap_sorted l : Prop := StronglySorted string_lt l.*1.

#[local] Instance string_lt_strict : StrictOrder string_lt.
Proof. exact String_as_OT.lt_strorder. Qed.

Lemma string_compare_spec a b : CompareSpec (a = b) (string_lt a b) (string_lt b a) (String.compare a b).
Proof. exact (String_as_OT.compare_spec a b). Qed.

Lemma string_lt_irrefl a : ~ string_lt a a.
Proof. apply (irreflexivity string_lt). Qed.

Lemma string_leb_refl a : string_leb a a = true.
Proof.
  unfold string_leb. destruct (string_compare_spec a a) as [|H|H]; [done..|].
  by apply string_lt_irrefl in H.
Qed.

Lemma smap_put_keys k v l x : x ∈ (smap_put k v l).*1 -> x = k \/ x ∈ l.*1.
Proof.
  induction l as [|[k' v'] l IH]; simpl; [set_solver|].
  destruct (string_compare_spec k k') as [->| |]; simpl; set_solver.
Qed.

Lemma smap_put_sorted k v l : smap_sorted l -> smap_sorted (smap_put k v l).
Proof.
  unfold smap_sorted. induction l as [|[k' v'] l IH]; simpl; intros Hs; [repeat constructor|].
  inversion Hs as [|? ? Hs' Hall]; subst.
  destruct (string_compare_spec k k') as [->|Hlt|Hgt]; simpl.
  - done.
  - constructor; [done|]. constructor; [done|]. eapply Forall_impl; [exact Hall|].
    intros x Hx. by transitivity k'.
  - constructor; [by apply IH|]. apply Forall_forall. intros x [->|Hx]%smap_put_keys; [done|].
    by rewrite Forall_forall in Hall; apply Hall.
Qed.

Lemma smap_new_snoc l kv : smap_new (l ++ [kv]) = smap_put kv.1 kv.2 (smap_new l).
Proof. unfold smap_new. by rewrite foldl_app. Qed.

Lemma smap_new_sorted l : smap_sorted (smap_new l).
Proof.
  induction l as [|kv l IH] using rev_ind; [constructor|]. rewrite smap_new_snoc.
  by apply smap_put_sorted.
Qed.

Lemma smap_get_cons k k' v l :
  smap_get k ((k', v) :: l) = if decide (k' = k) then Some v else smap_get k l.
Proof.
  unfold smap_get. simpl. destruct (String.eqb_spec k' k); [by rewrite decide_True|by rewrite decide_False].
Qed.

Lemma smap_get_put k k' v l :
  smap_sorted l -> smap_get k' (smap_put k v l) = if decide (k = k') then Some v else smap_get k' l.
Proof.
  unfold smap_sorted. induction l as [|[k1 v1] l IH]; intros Hs; cbn [smap_put].
  { by rewrite smap_get_cons. }
  inversion Hs as [|? ? Hs' Hall]; subst.
  destruct (string_compare_spec k k1) as [->|Hlt|Hgt]; rewrite !smap_get_cons.
  - repeat case_decide; done.
  - repeat case_decide; done.
  - rewrite IH by done. repeat case_decide; simplify_eq; try done.
    by apply string_lt_irrefl in Hgt.
Qed.

Lemma smap_get_last k l :
  smap_get k (smap_new l) = last (filter (fun kv => kv.1 = k) l).*2.
Proof.
  induction l as [|[k' v] l IH] using rev_ind; [done|].
  rewrite smap_new_snoc, smap_get_put by apply smap_new_sorted. cbn [fst snd].
  rewrite filter_app, fmap_app. case_decide as Hk.
  - rewrite (filter_cons_True _ _ []) by done. symmetry. apply last_snoc.
  - rewrite (filter_cons_False _ _ []) by done. rewrite IH. f_equal. symmetry. apply app_nil_r.
Qed.

Lemma smap_get_lt k l : Forall (string_lt k) l.*1 -> smap_get k l = None.
Proof.
  induction l as [|[k' v] l IH]; intros Hf; [done|]. inversion Hf; subst.
  rewrite smap_get_cons, decide_False; [by apply IH|]. intros ->. by eapply string_lt_irrefl.
Qed.

(** A sorted map is what its lookups are. *)
Lemma smap_ext l1 l2 :
  smap_sorted l1 -> smap_sorted l2 -> (forall k, smap_get k l1 = smap_get k l2) -> l1 = l2.
Proof.
  unfold smap_sorted. revert l2.
  induction l1 as [|[k1 v1] l1 IH]; intros [|[k2 v2] l2] Hs1 Hs2 Hg; [done| | |].
  - specialize (Hg k2). rewrite smap_get_cons, decide_True in Hg by done. done.
  - specialize (Hg k1). rewrite smap_get_cons, decide_True in Hg by done. done.
  - inversion Hs1 as [|? ? Hs1' Ha1]; inversion Hs2 as [|? ? Hs2' Ha2]; subst.
    assert (k1 = k2) as <-.
    { destruct (string_compare_spec k1 k2) as [|Hlt|Hgt]; [done| |].
      - specialize (Hg k1). rewrite !smap_get_cons, decide_True in Hg by done.
        rewrite decide_False in Hg by (intros ->; by eapply string_lt_irrefl).
        rewrite smap_get_lt in Hg; [done|]. eapply Forall_impl; [exact Ha2|].
        intros x Hx. by transitivity k2.
      - specialize (Hg k2). rewrite !smap_get_cons, (decide_True (P := k2 = k2)) in Hg by done.
        rewrite decide_False in Hg by (intros ->; by eapply string_lt_irrefl).
        rewrite smap_get_lt in Hg; [done|]. eapply Forall_impl; [exact Ha1|].
        intros x Hx. by transitivity k1. }
    pose proof (Hg k1) as Hv. rewrite !smap_get_cons, !decide_True in Hv by done.
    injection Hv as <-. f_equal. apply IH; [done..|]. intros k. specialize (Hg k).
    rewrite !smap_get_cons in Hg. case_decide; [subst|done]. by rewrite !smap_get_lt.
Qed.

(** Sorting the pairs before making a map of them changes nothing. *)
Lemma smap_new_sort_by l : smap_new (sort_by string_leb fst l) = smap_new l.
Proof.
  apply smap_ext; [apply smap_new_sorted..|]. intros k. rewrite !smap_get_last. do 2 f_equal.
  apply sort_by_filter. intros [a ?] [b ?]. simpl. intros -> ->. apply string_leb_refl.
Qed.

Lemma smap_new_id l : smap_sorted l -> smap_new l = l.
Proof.
  intros Hs. apply smap_ext; [apply smap_new_sorted|done|]. intros k. rewrite smap_get_last.
  revert Hs. unfold smap_sorted. induction l as [|[k' v] l IH]; intros Hs; [done|].
  inversion Hs as [|? ? Hs' Hall]; subst. rewrite smap_get_cons, filter_cons. simpl.
  case_decide as Hk; [subst|by apply IH].
  assert (filter (fun kv : string * A => kv.1 = k) l = []) as ->; [|done].
  apply elem_of_nil_inv. intros [k2 v2] [Hk2 Hin]%list_elem_of_filter. simpl in Hk2. subst.
  rewrite Forall_forall in Hall. eapply string_lt_irrefl, Hall.
  apply list_elem_of_fmap. by exists (k, v2).
Qed.
(** What holds of all pairs holds of those of the map. *)
Lemma smap_new_Forall (P : string * A -> Prop) l : Forall P l -> Forall P (smap_new l).
Proof.
  assert (forall kv m, P kv -> Forall P m -> Forall P (smap_put kv.1 kv.2 m)) as Hput.
  { intros [k v] m Hkv. induction m as [|[k' v'] m IH]; simpl; intros Hm; [by repeat constructor|].
    inversion Hm; subst. case_match; repeat constructor; auto. }
  intros Hl. induction l as [|kv l IH] using rev_ind; [constructor|].
  apply Forall_app in Hl as [Hl Hkv]. rewrite smap_new_snoc. apply Hput; [|by apply IH].
  by inversion Hkv.
Qed.
End smap.

(** ** [serde_json] values

    Numbers are integers of 64 bits, signed or not, or floats. *)
Inductive Number :=
| NumInt (z : Z)
| NumFloat (f : spec_float).

Unset Elimination Schemes.
Inductive Value :=
| VNull
| VBool (b : bool)
| VNumber (n : Number)
| VString (s : string)
| VArray (l : list Value)
| VObject (kvs : list (string * Value)).

Set Elimination Schemes.

(** Induction over the values inside arrays and objects. *)
Lemma Value_ind (P : Value -> Prop) :
  P VNull -> (forall b, P (VBool b)) -> (forall n, P (VNumber n)) -> (forall s, P (VString s)) ->
  (forall l, Forall P l -> P (VArray l)) ->
  (forall kvs, Forall (fun kv => P kv.2) kvs -> P (VObject kvs)) ->
  forall v, P v.
Proof.
  intros Hn Hb Hnum Hs Ha Ho. fix IH 1. intros [|b|n|s|l|kvs]; [done|done|done|done| |].
  - apply Ha. induction l as [|x l IHl]; constructor; [apply IH|exact IHl].
  - apply Ho. induction kvs as [|[k x] l IHl]; constructor; [apply IH|exact IHl].
Qed.

Definition as_i64 (n : Number) : option Z :=
  match n with NumInt z => if (z <=? i64_max)%Z then Some z else None | _ => None end.

Definition as_f64 (n : Number) : option spec_float :=
  match n with NumInt z => Some (f64_from z) | NumFloat f => Some f end.
