(* ===== verification/NativeConverter.v ===== *)
(** * The native payload converters (native/temporal_nif/src/converter.rs)

    Values of [serde_json] to payloads and back, through a chain of converters
    ordered by priority.  The crates [base64] and [serde_json] are interfaces. *)
From Stdlib Require Import ZArith Lia SpecFloat String.
From stdpp Require Import base option list strings gmap.
From S2P Require Import Prelude TimeArith Flags Protos JsonData.

Module Native.

(** ** What the crates promise *)

(** The engine [STANDARD]: its decoder accepts only what its encoder gives. *)
Class Base64 := {
  b64_encode : string -> string;
  b64_decode : string -> option string;
}.
Class Base64Laws `{Base64} : Prop := {
  b64_decode_encode b : b64_decode (b64_encode b) = Some b;
  b64_encode_decode s b : b64_decode s = Some b -> b64_encode b = s;
}.

(** [to_vec] and [from_slice].  A float is read back exactly when its decimal
    form is; the parser is otherwise allowed to be off by a unit. *)
Class SerdeJson := {
  to_vec : Value -> option string;
  from_slice : string -> sum string Value;
  float_exact : spec_float -> Prop;
}.

Definition number_ok `{SerdeJson} (n : Number) : Prop :=
  match n with
  | NumInt z => (-9223372036854775808 <= z <= u64_max)%Z
  | NumFloat f => float_exact f
  end.

(** A value as [serde_json] holds it, with numbers that can be read back. *)
Fixpoint value_ok `{SerdeJson} (v : Value) : Prop :=
  match v with
  | VNumber n => number_ok n
  | VArray l => foldr (fun x P => value_ok x /\ P) True l
  | VObject kvs => smap_sorted kvs /\ foldr (fun kv P => value_ok kv.2 /\ P) True kvs
  | _ => True
  end.

Class SerdeJsonLaws `{SerdeJson} : Prop :=
  from_slice_to_vec v : value_ok v -> exists s, to_vec v = Some s /\ from_slice s = inr v.

(** ** The converters *)
Inductive ConversionError :=
| SerializationFailed
| DepthLimitExceeded (max : Z)
| BinaryTooLarge (size max : Z)
| DeserializationFailed (reason : string)
| NoConverterFound.

Inductive NativeConverter :=
| NativeNil
| NativeBinary (max_size : Z)
| NativeJson (max_depth : Z) (sort_keys : bool).

Section converters.
  Context `{Base64} `{SerdeJson}.

Definition metadata (l : list (string * string)) : gmap string string := list_to_map l.

Definition native_nil_payload : Payload :=
  {| Payload_metadata := metadata [("encoding", "binary/null"); ("sdk", "elixir")];
     Payload_data := "" |}.

Definition native_binary_payload (b : string) : Payload :=
  {| Payload_metadata := metadata [("encoding", "binary/plain"); ("sdk", "elixir")];
     Payload_data := b |}.

Definition native_json_payload (s : string) : Payload :=
  {| Payload_metadata := metadata [("encoding", "json/plain");
                                   ("contentType", "application/json"); ("sdk", "elixir")];
     Payload_data := s |}.

Definition length_of (s : string) : Z := Z.of_nat (String.length s).

Definition binary_to_payload (max_size : Z) (data : Value)
  : outcome ConversionError (option Payload) :=
  match data with
  | VString s =>
      match b64_decode s with
      | Some binary_data =>
          if (max_size <? length_of binary_data)%Z
          then Err (BinaryTooLarge (length_of binary_data) max_size)
          else Ok (Some (native_binary_payload binary_data))
      | None => Ok None
      end
  | _ => Ok None
  end.

(** *** JSON

    No case of [canonicalize_value] fails.  Its pairs are sorted by key alone, so
    the values may be converted first. *)
Fixpoint canonicalize_value (v : Value) : Value :=
  match v with
  | VObject map =>
      VObject (smap_new (sort_by string_leb fst
        (List.map (fun kv => (kv.1, canonicalize_value kv.2)) map)))
  | VArray arr => VArray (List.map canonicalize_value arr)
  | _ => v
  end.

Definition to_deterministic_json (sort_keys : bool) (v : Value)
  : outcome ConversionError string :=
  match to_vec (if sort_keys then canonicalize_value v else v) with
  | Some s => Ok s
  | None => Err SerializationFailed
  end.

Fixpoint validate_depth (max_depth : Z) (v : Value) (current_depth : Z)
  : outcome ConversionError unit :=
  if (max_depth <=? current_depth)%Z then Err (DepthLimitExceeded max_depth)
  else
    match v with
    | VArray arr =>
        (fix items l :=
           match l with
           | [] => Ok tt
           | x :: l => _ ← validate_depth max_depth x (current_depth + 1); items l
           end) arr
    | VObject obj =>
        (fix items l :=
           match l with
           | [] => Ok tt
           | (_, x) :: l => _ ← validate_depth max_depth x (current_depth + 1); items l
           end) obj
    | _ => Ok tt
    end.

Definition json_to_payload (max_depth : Z) (sort_keys : bool) (data : Value)
  : outcome ConversionError (option Payload) :=
  match data with
  | VNull => Ok None
  | _ =>
      _ ← validate_depth max_depth data 0;
      json_bytes ← to_deterministic_json sort_keys data;
      Ok (Some (native_json_payload json_bytes))
  end.

(** *** The trait *)
Definition nil_to_payload (data : Value) : outcome ConversionError (option Payload) :=
  match data with VNull => Ok (Some native_nil_payload) | _ => Ok None end.

Definition native_to_payload (c : NativeConverter) (data : Value)
  : outcome ConversionError (option Payload) :=
  match c with
  | NativeNil => nil_to_payload data
  | NativeBinary max_size => binary_to_payload max_size data
  | NativeJson max_depth sort_keys => json_to_payload max_depth sort_keys data
  end.

Definition native_encoding (c : NativeConverter) : string :=
  match c with
  | NativeNil => "binary/null"
  | NativeBinary _ => "binary/plain"
  | NativeJson _ _ => "json/plain"
  end.

Definition native_has_encoding (e : string) (payload : Payload) : bool :=
  match payload.(Payload_metadata) !! "encoding"%string with
  | Some encoding => String.eqb encoding e
  | None => false
  end.

Definition nil_from_payload (payload : Payload) : outcome ConversionError (option Value) :=
  Ok (if native_has_encoding "binary/null" payload then Some VNull else None).

Definition binary_from_payload (payload : Payload) : outcome ConversionError (option Value) :=
  Ok (if native_has_encoding "binary/plain" payload
      then Some (VString (b64_encode payload.(Payload_data))) else None).

Definition json_from_payload (payload : Payload) : outcome ConversionError (option Value) :=
  if native_has_encoding "json/plain" payload then
    match from_slice payload.(Payload_data) with
    | inr v => Ok (Some v)
    | inl reason => Err (DeserializationFailed reason)
    end
  else Ok None.

Definition native_from_payload (c : NativeConverter) (payload : Payload)
  : outcome ConversionError (option Value) :=
  match c with
  | NativeNil => nil_from_payload payload
  | NativeBinary _ => binary_from_payload payload
  | NativeJson _ _ => json_from_payload payload
  end.

Definition native_priority (c : NativeConverter) : Z :=
  match c with NativeNil => 10 | NativeBinary _ => 20 | NativeJson _ _ => 100 end.

(** ** The chain *)
Definition CompositeConverter_new (converters : list NativeConverter) : list NativeConverter :=
  sort_by Z.leb native_priority converters.

Definition CompositeConverter_default : list NativeConverter :=
  CompositeConverter_new [NativeNil; NativeBinary (1024 * 1024); NativeJson 32 true].

Fixpoint composite_to_payload (converters : list NativeConverter) (data : Value)
  : outcome ConversionError Payload :=
  match converters with
  | [] => Err NoConverterFound
  | converter :: rest =>
      match native_to_payload converter data with
      | Ok (Some payload) => Ok payload
      | Panic m => Panic m
      | _ => composite_to_payload rest data
      end
  end.

(** The first converter of those [sel] accepts that reads the payload. *)
Fixpoint first_value (sel : NativeConverter -> bool) (converters : list NativeConverter)
    (payload : Payload) : outcome ConversionError (option Value) :=
  match converters with
  | [] => Ok None
  | converter :: rest =>
      if sel converter then
        r ← native_from_payload converter payload;
        match r with Some v => Ok (Some v) | None => first_value sel rest payload end
      else first_value sel rest payload
  end.

(** [from_utf8_lossy] gives an ASCII string only of its own bytes. *)
Definition composite_from_payload (converters : list NativeConverter) (payload : Payload)
  : outcome ConversionError Value :=
  by_encoding ←
    match payload.(Payload_metadata) !! "encoding"%string with
    | Some encoding_str =>
        first_value (fun c => String.eqb (native_encoding c) encoding_str) converters payload
    | None => Ok None
    end;
  match by_encoding with
  | Some value => Ok value
  | None =>
      r ← first_value (fun _ => true) converters payload;
      match r with Some value => Ok value | None => Err NoConverterFound end
  end.

Fixpoint composite_to_payloads (converters : list NativeConverter) (values : list Value)
  : outcome ConversionError (list Payload) :=
  match values with
  | [] => Ok []
  | value :: values =>
      payload ← composite_to_payload converters value;
      payloads ← composite_to_payloads converters values; Ok (payload :: payloads)
  end.

Fixpoint composite_from_payloads (converters : list NativeConverter) (payloads : list Payload)
  : outcome ConversionError (list Value) :=
  match payloads with
  | [] => Ok []
  | payload :: payloads =>
      value ← composite_from_payload converters payload;
      values ← composite_from_payloads converters payloads; Ok (value :: values)
  end.
End converters.

(** ** Lemmas *)

(** How deep arrays and objects are nested around a value. *)
Fixpoint nesting (v : Value) : Z :=
  match v with
  | VArray l => foldr (fun x n => Z.max (1 + nesting x) n) 0%Z l
  | VObject kvs => foldr (fun kv n => Z.max (1 + nesting kv.2) n) 0%Z kvs
  | _ => 0
  end.

Lemma nesting_nonneg v : (0 <= nesting v)%Z.
Proof.
  destruct v as [|b|n|s|l|kvs]; simpl; try lia.
  - induction l; simpl; lia.
  - induction kvs as [|[]]; simpl; lia.
Qed.

Lemma depth_join {A} (x y : A) max d a b :
  (d + 1 + a < max)%Z ->
  (if (d + b <? max)%Z then x else y) = if (d + Z.max (1 + a) b <? max)%Z then x else y.
Proof.
  intros Ha. destruct (Z.ltb_spec (d + b) max), (Z.ltb_spec (d + Z.max (1 + a) b) max);
    try done; lia.
Qed.

Section lemmas.
  Context `{Base64Laws} `{SerdeJsonLaws}.

Lemma validate_depth_spec max v d :
  validate_depth max v d =
  if (d + nesting v <? max)%Z then Ok tt else Err (DepthLimitExceeded max).
Proof.
  revert d. induction v as [|b|n|s|l IH|kvs IH] using Value_ind; intros d;
    cbn [validate_depth nesting]; destruct (Z.leb_spec max d) as [Hle|Hlt];
    try (rewrite Z.add_0_r); try (by rewrite (proj2 (Z.ltb_ge _ _)) by lia);
    try (by rewrite (proj2 (Z.ltb_lt _ _)) by lia).
  - pose proof (nesting_nonneg (VArray l)) as Hn. simpl in Hn.
    by rewrite (proj2 (Z.ltb_ge _ _)) by lia.
  - induction l as [|x l IHl]; [simpl; by rewrite (proj2 (Z.ltb_lt _ _)) by lia|].
    inversion IH as [|? ? Hx Hl]; subst. rewrite Hx. cbn [foldr].
    destruct (Z.ltb_spec (d + 1 + nesting x) max); simpl.
    + rewrite (IHl Hl). by apply depth_join.
    + by rewrite (proj2 (Z.ltb_ge _ _)) by lia.
  - pose proof (nesting_nonneg (VObject kvs)) as Hn. simpl in Hn.
    by rewrite (proj2 (Z.ltb_ge _ _)) by lia.
  - induction kvs as [|[k x] l IHl]; [simpl; by rewrite (proj2 (Z.ltb_lt _ _)) by lia|].
    inversion IH as [|? ? Hx Hl]; subst. simpl in Hx. rewrite Hx. cbn [foldr snd].
    destruct (Z.ltb_spec (d + 1 + nesting x) max); simpl.
    + rewrite (IHl Hl). by apply depth_join.
    + by rewrite (proj2 (Z.ltb_ge _ _)) by lia.
Qed.

Lemma canonicalize_ok v : value_ok v -> canonicalize_value v = v.
Proof.
  induction v as [|b|n|s|l IH|kvs IH] using Value_ind; simpl; try done.
  - intros Hok. f_equal. induction l as [|x l IHl]; simpl in *; [done|].
    inversion IH; subst. destruct Hok. f_equal; auto.
  - intros [Hs Hok]. f_equal. rewrite smap_new_sort_by.
    assert (List.map (fun kv => (kv.1, canonicalize_value kv.2)) kvs = kvs) as ->;
      [|by apply smap_new_id].
    clear Hs. induction kvs as [|[k x] l IHl]; simpl in *; [done|].
    inversion IH; subst. destruct Hok. repeat f_equal; auto.
Qed.

(** What the JSON converter makes of a value that is not null. *)
Lemma json_to_payload_ok max sort v :
  value_ok v -> v <> VNull ->
  if (nesting v <? max)%Z
  then exists s, json_to_payload max sort v = Ok (Some (native_json_payload s)) /\ from_slice s = inr v
  else json_to_payload max sort v = Err (DepthLimitExceeded max).
Proof.
  intros Hok Hn. destruct (from_slice_to_vec v Hok) as (s & Hs & Hr).
  assert (json_to_payload max sort v =
    (_ ← validate_depth max v 0;
     json_bytes ← to_deterministic_json sort v;
     Ok (Some (native_json_payload json_bytes)))) as -> by (by destruct v).
  rewrite validate_depth_spec, Z.add_0_l. destruct (nesting v <? max)%Z; [|done].
  exists s. split; [|done]. simpl. unfold to_deterministic_json.
  replace (if sort then canonicalize_value v else v) with v
    by (destruct sort; [by rewrite canonicalize_ok|done]).
  by rewrite Hs.
Qed.

(** A payload is read back by the converter that made it. *)
Lemma native_reads_back c v p :
  value_ok v -> native_to_payload c v = Ok (Some p) ->
  p.(Payload_metadata) !! "encoding"%string = Some (native_encoding c) /\
  native_from_payload c p = Ok (Some v).
Proof.
  intros Hok Hc. destruct c as [|m|m sort]; simpl in Hc.
  - unfold nil_to_payload in Hc. destruct v; simplify_eq. done.
  - unfold binary_to_payload in Hc. destruct v as [| | |s| |]; try done.
    destruct (b64_decode s) as [b|] eqn:Hb; [|done]. case_match; [done|]. simplify_eq.
    split; [done|]. unfold native_from_payload, binary_from_payload. simpl. by rewrite (b64_encode_decode _ _ Hb).
  - assert (v <> VNull) as Hn by (by intros ->).
    pose proof (json_to_payload_ok m sort v Hok Hn) as Hj. case_match; [|congruence].
    destruct Hj as (s & Hs & Hr). rewrite Hs in Hc. simplify_eq. split; [done|].
    unfold native_from_payload, json_from_payload. simpl. by rewrite Hr.
Qed.

(** Reading does not depend on the limits. *)
Lemma native_from_payload_same c c' p :
  native_encoding c = native_encoding c' -> native_from_payload c p = native_from_payload c' p.
Proof. by destruct c, c'. Qed.

Lemma composite_to_payload_inv l v p :
  composite_to_payload l v = Ok p -> exists c, c ∈ l /\ native_to_payload c v = Ok (Some p).
Proof.
  induction l as [|c l IH]; simpl; [done|].
  destruct (native_to_payload c v) as [[p'|]| |] eqn:Hc; intros Hp; simplify_eq.
  - exists c. split; [apply elem_of_cons; by left|done].
  - destruct (IH Hp) as (c' & Hin & Hc'). exists c'. split; [apply elem_of_cons; by right|done].
  - destruct (IH Hp) as (c' & Hin & Hc'). exists c'. split; [apply elem_of_cons; by right|done].
Qed.

Lemma first_value_by_encoding l c p v :
  c ∈ l -> native_from_payload c p = Ok (Some v) ->
  first_value (fun c' => String.eqb (native_encoding c') (native_encoding c)) l p = Ok (Some v).
Proof.
  intros Hin Hc. induction l as [|c' l IH]; [by apply not_elem_of_nil in Hin|]. simpl.
  destruct (String.eqb_spec (native_encoding c') (native_encoding c)) as [He|Hne].
  - by rewrite (native_from_payload_same _ _ _ He), Hc.
  - apply IH. by apply elem_of_cons in Hin as [->|].
Qed.

Lemma composite_reads_back l v p :
  value_ok v -> composite_to_payload l v = Ok p -> composite_from_payload l p = Ok v.
Proof.
  intros Hok (c & Hin & Hc)%composite_to_payload_inv.
  destruct (native_reads_back _ _ _ Hok Hc) as [He Hr].
  unfold composite_from_payload. rewrite He, (first_value_by_encoding l c p v Hin Hr). done.
Qed.

Lemma composite_default_to_payload v :
  value_ok v ->
  if (nesting v <? 32)%Z then exists p, composite_to_payload CompositeConverter_default v = Ok p
  else composite_to_payload CompositeConverter_default v = Err NoConverterFound.
Proof.
  intros Hok. change CompositeConverter_default
    with [NativeNil; NativeBinary (1024 * 1024); NativeJson 32 true].
  assert (v = VNull \/ v <> VNull) as [->|Hn] by (destruct v; auto); [by eexists|].
  pose proof (json_to_payload_ok 32 true v Hok Hn) as Hj.
  assert (composite_to_payload [NativeNil; NativeBinary (1024 * 1024); NativeJson 32 true] v =
    composite_to_payload [NativeBinary (1024 * 1024); NativeJson 32 true] v) as -> by (by destruct v).
  cbn [composite_to_payload native_to_payload].
  destruct (binary_to_payload _ v) as [[p|]| |] eqn:Hb; unfold binary_to_payload in Hb.
  - destruct v; try done. by exists p.
  - destruct (nesting v <? 32)%Z; [destruct Hj as (s & -> & _); by eexists|by rewrite Hj].
  - destruct (nesting v <? 32)%Z; [destruct Hj as (s & -> & _); by eexists|by rewrite Hj].
  - by repeat case_match.
Qed.

End lemmas.
End Native.
