(* ===== verification/PayloadConverters.v ===== *)
(** * The Elixir payload converters (lib/temporal/payload_converter/)

    Terms to payloads and back, through a chain of converters.  An exception is
    the outcome [Panic]; [rescue] catches it.  The libraries Jason and Protobuf
    are interfaces. *)
From Stdlib Require Import ZArith Lia SpecFloat String.
From stdpp Require Import base option list strings pretty.
From S2P Require Import Prelude JsonData.

(** ** Terms

    Proper terms; a map is the list of its pairs in the order in which it is
    enumerated, a struct is a map with the key [:__struct__]. *)
Unset Elimination Schemes.
Inductive ETerm :=
| EAtom (a : string)
| EInt (z : Z)
| EFloat (f : spec_float)
| EBinary (b : string)
| EList (l : list ETerm)
| ETuple (l : list ETerm)
| EMap (kvs : list (ETerm * ETerm))
| EOpaque (n : N).

Set Elimination Schemes.

Notation enil := (EAtom "nil").

Lemma ETerm_ind (P : ETerm -> Prop) :
  (forall a, P (EAtom a)) -> (forall z, P (EInt z)) -> (forall f, P (EFloat f)) ->
  (forall b, P (EBinary b)) -> (forall l, Forall P l -> P (EList l)) ->
  (forall l, Forall P l -> P (ETuple l)) ->
  (forall kvs, Forall (fun kv => P kv.1 /\ P kv.2) kvs -> P (EMap kvs)) ->
  (forall n, P (EOpaque n)) ->
  forall t, P t.
Proof.
  intros Ha Hz Hf Hb Hl Ht Hm Ho. fix IH 1. intros [a|z|f|b|l|l|kvs|n]; [done..| | | |done].
  - apply Hl. induction l as [|x l IHl]; constructor; [apply IH|exact IHl].
  - apply Ht. induction l as [|x l IHl]; constructor; [apply IH|exact IHl].
  - apply Hm. induction kvs as [|[k x] l IHl]; constructor; [split; apply IH|exact IHl].
Qed.

Definition is_atom_named (a : string) (t : ETerm) : bool :=
  match t with EAtom b => String.eqb a b | _ => false end.

(** [%module{}] *)
Definition struct_module (t : ETerm) : option string :=
  match t with
  | EMap kvs =>
      match List.find (fun kv => is_atom_named "__struct__" kv.1) kvs with
      | Some (_, EAtom module) => Some module
      | _ => None
      end
  | _ => None
  end.

(** ** Libraries

    [to_string] of floats, of lists and of structs; modules that implement
    Protobuf messages; Jason. *)
Class ElixirLibs := {
  float_to_string : spec_float -> string;
  list_to_string : list ETerm -> option string;
  map_to_string : list (ETerm * ETerm) -> option string;
  proto_module : string -> bool;
  proto_encode : string -> ETerm -> option string;
  proto_decode : string -> string -> option ETerm;
  existing_atom : string -> bool;
  base64_encode : string -> string;
  base64_decode : string -> option string;
  valid_utf8 : string -> bool;
  jason_encode : ETerm -> option string;
  jason_decode : string -> option ETerm;
}.

Section converters.
  Context `{ElixirLibs}.

(** [Kernel.to_string]; a term that does not implement [String.Chars] raises. *)
Definition to_string (t : ETerm) : option string :=
  match t with
  | EAtom a => Some (if String.eqb a "nil" then "" else a)%string
  | EInt z => Some (pretty z)
  | EFloat f => Some (float_to_string f)
  | EBinary b => Some b
  | EList l => list_to_string l
  | EMap kvs => map_to_string kvs
  | ETuple _ | EOpaque _ => None
  end.

(** ** Payloads and results *)
Record payload := { data : string; metadata : list (string * string) }.

Inductive reason :=
| BinaryTooLarge (size max_size : Z)
| DepthLimitExceeded (max_depth : Z)
| UnsupportedType
| JsonEncodingFailed
| JsonDecodingFailed
| ProtobufEncodingFailed
| ProtobufJsonEncodingFailed
| ProtobufDecodingFailed
| ProtobufJsonDecodingFailed
| MissingMessageType
| NotProtobufModule (module : string)
| UnknownMessageType (type_string : string).

(** [{:ok, a}], [:skip], [{:error, reason}], or an exception. *)
Inductive result (A : Type) :=
| Done (a : A)
| Skip
| Error (r : reason)
| Raise.
#[global] Arguments Done {_}.
#[global] Arguments Skip {_}.
#[global] Arguments Error {_}.
#[global] Arguments Raise {_}.

Inductive converter :=
| NilConverter
| ProtobufConverter (mode_json include_type_url : bool)
| BinaryConverter (max_size : Z)
| JsonConverter (max_depth : Z) (sort_keys : bool).

Definition encoding (c : converter) : string :=
  match c with
  | NilConverter => "binary/null"
  | ProtobufConverter false _ => "proto/binary"
  | ProtobufConverter true _ => "proto/json"
  | BinaryConverter _ => "binary/plain"
  | JsonConverter _ _ => "json/plain"
  end.

Definition priority (c : converter) : Z :=
  match c with
  | NilConverter => 10
  | ProtobufConverter _ _ => 15
  | BinaryConverter _ => 20
  | JsonConverter _ _ => 100
  end.

Definition get_encoding (p : payload) : option string := smap_get "encoding" p.(metadata).

(** ** The JSON converter *)
Fixpoint validate_depth (max_depth : Z) (data : ETerm) (current_depth : Z) : bool :=
  if (max_depth <=? current_depth)%Z then false
  else
    match data with
    | EMap kvs => List.forallb (fun kv => validate_depth max_depth kv.2 (current_depth + 1)) kvs
    | EList l => List.forallb (fun x => validate_depth max_depth x (current_depth + 1)) l
    | _ => true
    end.

(** [collect_results] of results that may raise: the first that is not [:ok]
    decides, but an exception is raised while the results are computed. *)
Fixpoint collect_results {A} (l : list (outcome reason A)) : outcome reason (list A) :=
  match l with
  | [] => Ok []
  | r :: l =>
      match collect_results l, r with
      | Panic m, _ | _, Panic m => Panic m
      | _, Err e => Err e
      | Err e, Ok _ => Err e
      | Ok l, Ok a => Ok (a :: l)
      end
  end.

Definition is_json_atom (a : string) : bool :=
  String.eqb a "nil" || String.eqb a "true" || String.eqb a "false".

Fixpoint prepare_for_encoding (data : ETerm) : outcome reason ETerm :=
  match data with
  | EMap kvs =>
      pairs ← collect_results (List.map (fun kv =>
        prepared_v ← prepare_for_encoding kv.2;
        match to_string kv.1 with
        | Some k => Ok (k, prepared_v)
        | None => Panic "Protocol.UndefinedError"
        end) kvs);
      Ok (EMap ((fun kv => (EBinary kv.1, kv.2)) <$> smap_new (sort_by string_leb fst pairs)))
  | EList l => items ← collect_results (List.map prepare_for_encoding l); Ok (EList items)
  | EAtom a => Ok (if is_json_atom a then data else EBinary a)
  | EBinary _ | EInt _ | EFloat _ => Ok data
  | ETuple _ | EOpaque _ => Err UnsupportedType
  end.

Definition encode_json (data : ETerm) (sort_keys : bool) : outcome reason string :=
  if sort_keys then
    prepared ← prepare_for_encoding data;
    match jason_encode prepared with Some s => Ok s | None => Err JsonEncodingFailed end
  else Panic "FunctionClauseError".

Definition json_to_payload (max_depth : Z) (sort_keys : bool) (data : ETerm) : result payload :=
  if validate_depth max_depth data 0 then
    match encode_json data sort_keys with
    | Ok json_binary =>
        Done {| data := json_binary;
                metadata := [("contentType", "application/json"); ("encoding", "json/plain")] |}
    | Err _ => Error JsonEncodingFailed
    | Panic _ => Raise
    end
  else Error (DepthLimitExceeded max_depth).

(** ** The Protobuf converter *)
Definition get_message_type (module : string) : string :=
  if String.prefix "Elixir." module then String.substring 7 (String.length module - 7) module
  else module.

Definition get_type_url (module : string) : string :=
  "type.googleapis.com/" +:+ get_message_type module.

Definition is_protobuf_struct (t : ETerm) : option string :=
  match struct_module t with
  | Some module => if proto_module module then Some module else None
  | None => None
  end.

Definition type_url (include_type_url : bool) (module : string) : list (string * string) :=
  if include_type_url then [("messageTypeUrl", get_type_url module)] else [].

Definition encode_protobuf (mode_json include_type_url : bool) (module : string) (data : ETerm)
  : result payload :=
  match proto_encode module data with
  | Some encoded =>
      Done (if mode_json
            then {| data := base64_encode encoded;
                    metadata := [("contentType", "application/x-protobuf");
                                 ("encoding", "proto/json");
                                 ("messageType", get_message_type module)]
                                ++ type_url include_type_url module ++ [("sdk", "elixir")] |}
            else {| data := encoded;
                    metadata := [("encoding", "proto/binary");
                                 ("messageType", get_message_type module)]
                                ++ type_url include_type_url module ++ [("sdk", "elixir")] |})
  | None => Error (if mode_json then ProtobufJsonEncodingFailed else ProtobufEncodingFailed)
  end.

Definition get_module_from_metadata (m : list (string * string)) : sum reason string :=
  match smap_get "messageType" m with
  | None => inl MissingMessageType
  | Some type_string =>
      let module := ("Elixir." +:+ type_string)%string in
      if existing_atom module then
        if proto_module module then inr module else inl (NotProtobufModule module)
      else inl (UnknownMessageType type_string)
  end.

Definition decode_protobuf_binary (p : payload) : result ETerm :=
  match get_module_from_metadata p.(metadata) with
  | inr module =>
      match proto_decode module p.(data) with
      | Some decoded => Done decoded
      | None => Error ProtobufDecodingFailed
      end
  | inl reason => Error reason
  end.

Definition decode_protobuf_json (p : payload) : result ETerm :=
  match get_module_from_metadata p.(metadata) with
  | inr module =>
      match base64_decode p.(data) ≫= proto_decode module with
      | Some decoded => Done decoded
      | None => Error ProtobufJsonDecodingFailed
      end
  | inl reason => Error reason
  end.

Definition has_encoding (e : string) (p : payload) : bool :=
  match get_encoding p with Some e' => String.eqb e e' | None => false end.

Definition protobuf_to_payload (mode_json include_type_url : bool) (t : ETerm) : result payload :=
  match is_protobuf_struct t with
  | Some module => encode_protobuf mode_json include_type_url module t
  | None => Skip
  end.

Definition protobuf_from_payload (p : payload) : result ETerm :=
  if has_encoding "proto/binary" p then decode_protobuf_binary p
  else if has_encoding "proto/json" p then decode_protobuf_json p else Skip.

Definition json_from_payload (p : payload) : result ETerm :=
  if has_encoding "json/plain" p then
    match jason_decode p.(data) with
    | Some decoded => Done decoded
    | None => Error JsonDecodingFailed
    end
  else Skip.

(** ** The converters of [nil] and of binaries *)
Definition nil_to_payload (t : ETerm) : result payload :=
  if is_atom_named "nil" t
  then Done {| data := ""; metadata := [("encoding", "binary/null")] |} else Skip.

Definition nil_from_payload (p : payload) : result ETerm :=
  if has_encoding "binary/null" p then Done enil else Skip.

Definition byte_size (b : string) : Z := Z.of_nat (String.length b).

Definition binary_to_payload (max_size : Z) (t : ETerm) : result payload :=
  match t with
  | EBinary b =>
      if (byte_size b <=? max_size)%Z
      then Done {| data := b; metadata := [("encoding", "binary/plain")] |}
      else Error (BinaryTooLarge (byte_size b) max_size)
  | _ => Skip
  end.

Definition binary_from_payload (p : payload) : result ETerm :=
  if has_encoding "binary/plain" p then Done (EBinary p.(data)) else Skip.

(** ** The behaviour (payload_converter.ex) *)
Definition to_payload (c : converter) (t : ETerm) : result payload :=
  match c with
  | NilConverter => nil_to_payload t
  | ProtobufConverter mode_json include_type_url => protobuf_to_payload mode_json include_type_url t
  | BinaryConverter max_size => binary_to_payload max_size t
  | JsonConverter max_depth sort_keys => json_to_payload max_depth sort_keys t
  end.

Definition from_payload (c : converter) (p : payload) : result ETerm :=
  match c with
  | NilConverter => nil_from_payload p
  | ProtobufConverter _ _ => protobuf_from_payload p
  | BinaryConverter _ => binary_from_payload p
  | JsonConverter _ _ => json_from_payload p
  end.

(** ** The chain (payload_converter/chain.ex) *)
Inductive chain_error :=
| NoConverterFoundFor (t : ETerm)
| ConversionFailed (r : reason) (p : payload)
| NoConverterFound.

Definition sort_converters_by_priority (l : list converter) : list converter :=
  sort_by Z.leb priority l.

Fixpoint try_converters_for_data (t : ETerm) (l : list converter) : option payload :=
  match l with
  | [] => None
  | c :: rest =>
      match to_payload c t with
      | Done p => Some p
      | Skip | Error _ | Raise => try_converters_for_data t rest
      end
  end.

Definition convert_single_data (t : ETerm) (l : list converter) : sum chain_error payload :=
  match try_converters_for_data t l with
  | Some p => inr p
  | None => inl (NoConverterFoundFor t)
  end.

Fixpoint try_converters_for_payload (p : payload) (l : list converter) : sum chain_error ETerm :=
  match l with
  | [] => inl NoConverterFound
  | c :: rest =>
      match from_payload c p with
      | Done t => inr t
      | Skip | Error _ | Raise => try_converters_for_payload p rest
      end
  end.

Definition select_converter_by_encoding (l : list converter) (e : option string)
  : option converter :=
  match e with
  | None => None
  | Some e => List.find (fun c => String.eqb (encoding c) e) l
  end.

(** No [from_payload] raises. *)
Definition convert_single_payload (p : payload) (l : list converter) : sum chain_error ETerm :=
  match select_converter_by_encoding l (get_encoding p) with
  | Some c =>
      match from_payload c p with
      | Done t => inr t
      | Error r => inl (ConversionFailed r p)
      | Skip | Raise => try_converters_for_payload p l
      end
  | None => try_converters_for_payload p l
  end.

Fixpoint extract_results {A} (l : list (sum chain_error A)) : sum chain_error (list A) :=
  match l with
  | [] => inr []
  | inl e :: _ => inl e
  | inr a :: l => match extract_results l with inr l => inr (a :: l) | inl e => inl e end
  end.

Definition chain_to_payload (t : ETerm) (l : list converter) : sum chain_error payload :=
  convert_single_data t (sort_converters_by_priority l).

Definition chain_to_payloads (ts : list ETerm) (l : list converter)
  : sum chain_error (list payload) :=
  extract_results ((fun t => convert_single_data t (sort_converters_by_priority l)) <$> ts).

Definition chain_from_payload (p : payload) (l : list converter) : sum chain_error ETerm :=
  convert_single_payload p l.

Definition chain_from_payloads (ps : list payload) (l : list converter)
  : sum chain_error (list ETerm) :=
  extract_results ((fun p => convert_single_payload p l) <$> ps).

Definition default_converter_chain : list converter :=
  [NilConverter; ProtobufConverter false true; BinaryConverter (1024 * 1024);
   JsonConverter 32 true].
End converters.
