(* ===== verification/PayloadConverterFacts.v ===== *)
(** * What the Elixir payload converters guarantee

    A term that was converted to a payload is read back as the term it was
    prepared to, which is the term itself when it is JSON data with string keys.
    Which terms are accepted, and how lists of terms are converted. *)
From Stdlib Require Import ZArith Lia SpecFloat Ascii String Sorted.
From stdpp Require Import base option list strings pretty.
From S2P Require Import Prelude JsonData PayloadConverters.

(** ** What the libraries promise *)

(** The terms Jason is given: JSON data, with the keys of a map in order. *)
Definition of_string_map (m : list (string * ETerm)) : ETerm :=
  EMap ((fun kv => (EBinary kv.1, kv.2)) <$> m).

Unset Elimination Schemes.
Inductive json_shape : ETerm -> Prop :=
| js_atom a : is_json_atom a = true -> json_shape (EAtom a)
| js_int z : json_shape (EInt z)
| js_float f : json_shape (EFloat f)
| js_binary b : json_shape (EBinary b)
| js_list l : Forall json_shape l -> json_shape (EList l)
| js_map m : smap_sorted m -> Forall (fun kv => json_shape kv.2) m -> json_shape (of_string_map m).
Set Elimination Schemes.

(** All strings of a term, keys included, are valid UTF-8. *)
Fixpoint utf8_strings `{ElixirLibs} (t : ETerm) : bool :=
  match t with
  | EBinary b => valid_utf8 b
  | EList l => List.forallb utf8_strings l
  | EMap kvs => List.forallb (fun kv => utf8_strings kv.1 && utf8_strings kv.2) kvs
  | _ => true
  end.

Fixpoint ascii_only (s : string) : bool :=
  match s with
  | EmptyString => true
  | String c s => (N_of_ascii c <? 128)%N && ascii_only s
  end.

Class ElixirLaws `{ElixirLibs} : Prop := {
  utf8_ascii s : ascii_only s = true -> valid_utf8 s = true;
  utf8_app a b : valid_utf8 a = true -> valid_utf8 b = true -> valid_utf8 (a +:+ b) = true;
  utf8_module m : proto_module m = true -> valid_utf8 (get_message_type m) = true;
  jason_reads_back t s : json_shape t -> jason_encode t = Some s -> jason_decode s = Some t;
  jason_encodes t : json_shape t -> utf8_strings t = true -> is_Some (jason_encode t);
  proto_reads_back m t s :
    proto_module m = true -> struct_module t = Some m -> proto_encode m t = Some s ->
    proto_decode m s = Some t;
  proto_module_named m :
    proto_module m = true -> String.prefix "Elixir." m = true /\ existing_atom m = true;
  base64_reads_back b : base64_decode (base64_encode b) = Some b;
}.

(** ** Lemmas *)
Lemma collect_results_Ok {A} (l : list (outcome reason A)) r :
  collect_results l = Ok r -> Forall2 (fun o a => o = Ok a) l r.
Proof.
  revert r. induction l as [|o l IH]; intros r; simpl; [intros [= <-]; constructor|].
  destruct (collect_results l) as [r'|e|m], o as [a|e'|m']; intros [= <-].
  constructor; [done|by apply IH].
Qed.

Lemma collect_results_all {A} (r : list A) : collect_results (Ok <$> r) = Ok r.
Proof. induction r as [|a r IH]; simpl; [done|]. change (list_fmap _ _ Ok r) with (Ok (E := reason) <$> r). by rewrite IH. Qed.

Section facts.
  Context `{ElixirLaws}.

(** Preparing JSON data changes nothing. *)
Lemma prepare_json_shape t : json_shape t -> prepare_for_encoding t = Ok t.
Proof.
  induction t as [a|z|f|b|l IH|l IH|kvs IH|n] using ETerm_ind; intros Hs;
    inversion Hs as [? Ha| | | |? Hl|m Hm Hf]; subst; simpl.
  - by rewrite Ha.
  - done.
  - done.
  - done.
  - replace (List.map prepare_for_encoding l) with (Ok (E := reason) <$> l).
    + by rewrite collect_results_all.
    + clear Hs. induction l as [|x l IHl]; [done|]. simpl. inversion IH; inversion Hl; subst.
      f_equal; [symmetry; auto|by apply IHl].
  - match goal with |- context [collect_results ?L] =>
      assert (L = Ok (E := reason) <$> m) as -> end.
    + clear Hs Hm. induction m as [|[k v] m IHm]; [done|]. simpl.
      apply Forall_cons in IH as [[_ IHv] IH], Hf as [Hv Hf].
      simpl in *. rewrite (IHv Hv). simpl. f_equal. by apply IHm.
    + rewrite collect_results_all. simpl. rewrite smap_new_sort_by, smap_new_id by done. done.
Qed.

(** What is prepared is JSON data. *)
Lemma prepare_shape t t' : prepare_for_encoding t = Ok t' -> json_shape t'.
Proof.
  revert t'. induction t as [a|z|f|b|l IH|l IH|kvs IH|n] using ETerm_ind; intros t' Ht; simpl in Ht;
    simplify_eq; try by constructor.
  - destruct (is_json_atom a) eqn:Ha; by constructor.
  - bind_Ok. simplify_eq. apply collect_results_Ok in Ha. constructor.
    clear -IH Ha. revert IH. remember (List.map _ l) as L. revert l HeqL.
    induction Ha as [|o r L R Ho Ha IHa]; intros [|x l] HL IH; simplify_eq/=; constructor.
    + inversion IH; subst. eauto.
    + inversion IH; subst. by eapply IHa.
  - bind_Ok. simplify_eq. apply collect_results_Ok in Ha.
    rewrite smap_new_sort_by. apply js_map; [apply smap_new_sorted|].
    apply (smap_new_Forall (fun kv => json_shape kv.2)).
    clear -IH Ha. revert IH. remember (List.map _ kvs) as L. revert kvs HeqL.
    induction Ha as [|o r L R Ho Ha IHa]; intros [|[k x] l] HL IH; try done;
      injection HL as -> ->; constructor.
    + apply Forall_cons in IH as [[_ IHx] _]. simpl in Ho. destruct (prepare_for_encoding x) as [v| |] eqn:Hx; simpl in Ho; try done.
      destruct (to_string k); simplify_eq/=. by apply IHx.
    + apply Forall_cons in IH as [_ IH]. by eapply IHa.
Qed.

(** *** Depth *)

(** How deep maps and lists are nested around a term. *)
Fixpoint term_nesting (t : ETerm) : Z :=
  match t with
  | EList l => foldr (fun x n => Z.max (1 + term_nesting x) n) 0%Z l
  | EMap kvs => foldr (fun kv n => Z.max (1 + term_nesting kv.2) n) 0%Z kvs
  | _ => 0
  end.

Lemma validate_depth_nesting max t d :
  validate_depth max t d = (d + term_nesting t <? max)%Z.
Proof.
  assert (forall t, 0 <= term_nesting t)%Z as Hnn.
  { intros [| | | |l| |l|]; simpl; try lia; induction l as [|x l]; simpl; lia. }
  revert d. induction t as [a|z|f|b|l IH|l IH|kvs IH|n] using ETerm_ind; intros d;
    cbn [validate_depth term_nesting]; destruct (Z.leb_spec max d) as [Hle|Hlt];
    try (symmetry; apply Z.ltb_ge; lia); try (symmetry; apply Z.ltb_lt; lia).
  - symmetry. apply Z.ltb_ge. pose proof (Hnn (EList l)) as Hn. simpl in Hn. lia.
  - induction l as [|x l IHl]; simpl; [symmetry; apply Z.ltb_lt; lia|].
    apply Forall_cons in IH as [Hx Hl]. rewrite Hx, IHl by done. lia.
  - symmetry. apply Z.ltb_ge. pose proof (Hnn (EMap kvs)) as Hn. simpl in Hn. lia.
  - induction kvs as [|[k x] l IHl]; simpl; [symmetry; apply Z.ltb_lt; lia|].
    apply Forall_cons in IH as [[_ Hx] Hl]. simpl in Hx. rewrite Hx, IHl by done. lia.
Qed.

(** ** Conversion of one term *)

(** The term that arrives. *)
Definition encodes_as_protobuf (t : ETerm) : option string :=
  m ← is_protobuf_struct t; proto_encode m t.

Definition received (t : ETerm) : ETerm :=
  if encodes_as_protobuf t is Some _ then t
  else match prepare_for_encoding t with Ok t' => t' | _ => t end.

Definition standard_chain (mode_json include_type_url : bool) (max_size max_depth : Z)
  : list converter :=
  [NilConverter; ProtobufConverter mode_json include_type_url; BinaryConverter max_size;
   JsonConverter max_depth true].

(** The terms the chain has a converter for. *)
Definition convertible (max_size max_depth : Z) (t : ETerm) : Prop :=
  is_Some (encodes_as_protobuf t) \/ t = enil \/
  (exists b, t = EBinary b /\ (byte_size b <= max_size)%Z) \/
  exists t', (term_nesting t < max_depth)%Z /\ prepare_for_encoding t = Ok t' /\
             is_Some (jason_encode t').

Lemma substring_full s : String.substring 0 (String.length s) s = s.
Proof. induction s as [|c s IH]; simpl; [done|by rewrite IH]. Qed.

Lemma get_message_type_inv m :
  String.prefix "Elixir." m = true -> ("Elixir." +:+ get_message_type m)%string = m.
Proof.
  intros Hp. unfold get_message_type. rewrite Hp. revert Hp.
  do 7 (destruct m as [|? m]; [done|]; simpl; case_match; [subst|done]).
  intros _. simpl. by rewrite Nat.sub_0_r, substring_full.
Qed.

(** *** The Protobuf converter *)
Lemma encode_protobuf_read_back mode url m t p max depth :
  is_protobuf_struct t = Some m -> encode_protobuf mode url m t = Done p ->
  chain_from_payload p (standard_chain mode url max depth) = inr t.
Proof.
  intros Hm Hp. unfold is_protobuf_struct in Hm.
  destruct (struct_module t) as [m'|] eqn:Hs; [|done]. case_match eqn:Hpm; [|done]. simplify_eq.
  unfold encode_protobuf in Hp. destruct (proto_encode m t) as [e|] eqn:He; [|done].
  destruct (proto_module_named m Hpm) as [Hn Hex].
  pose proof (proto_reads_back m t e Hpm Hs He) as Hd. simplify_eq.
  unfold chain_from_payload, convert_single_payload, select_converter_by_encoding.
  destruct mode, url; simpl; unfold protobuf_from_payload, decode_protobuf_json, decode_protobuf_binary,
    get_module_from_metadata; simpl; rewrite (get_message_type_inv m Hn), Hex, Hpm;
    rewrite ?base64_reads_back; simpl; by rewrite Hd.
Qed.

(** ** Round trip *)
Lemma standard_chain_sorted mode url max depth :
  sort_converters_by_priority (standard_chain mode url max depth) = standard_chain mode url max depth.
Proof. reflexivity. Qed.

(** What the converters after the one for Protobuf messages do. *)
Lemma plain_term_read_back t p mode url max depth :
  try_converters_for_data t [BinaryConverter max; JsonConverter depth true] = Some p ->
  exists t', prepare_for_encoding t = Ok t' /\
    chain_from_payload p (standard_chain mode url max depth) = inr t'.
Proof.
  cbn [try_converters_for_data]. intros Hp.
  assert ((exists b, t = EBinary b /\ p = {| data := b; metadata := [("encoding", "binary/plain")] |})
    \/ json_to_payload depth true t = Done p)%string as [(b & -> & ->)|Hj].
  { cbn [to_payload] in Hp. unfold binary_to_payload in Hp. destruct t as [| | |b| | | |]; try (by right; case_match; simplify_eq).
    destruct (byte_size b <=? max)%Z; [left; exists b; by simplify_eq|].
    right. by case_match; simplify_eq. }
  { exists (EBinary b). split; [done|]. by destruct mode. }
  unfold json_to_payload, encode_json in Hj. case_match; [|done].
  destruct (prepare_for_encoding t) as [t'| |] eqn:Ht; simpl in Hj; try done.
  destruct (jason_encode t') as [s|] eqn:Hs; [|done]. simplify_eq. exists t'. split; [done|].
  pose proof (jason_reads_back t' s (prepare_shape _ _ Ht) Hs) as Hd.
  unfold chain_from_payload, convert_single_payload, select_converter_by_encoding.
  destruct mode; simpl; unfold json_from_payload; simpl; by rewrite Hd.
Qed.

(** The chain, one converter at a time. *)
Lemma try_standard_chain t mode url max depth :
  try_converters_for_data t (standard_chain mode url max depth) =
  if is_atom_named "nil" t then Some {| data := ""; metadata := [("encoding", "binary/null")] |}
  else match m ← is_protobuf_struct t; e ← proto_encode m t; Some (m, e) with
       | Some (m, e) => if encode_protobuf mode url m t is Done p then Some p else None
       | None => try_converters_for_data t [BinaryConverter max; JsonConverter depth true]
       end.
Proof.
  cbn [standard_chain try_converters_for_data to_payload]. unfold nil_to_payload, protobuf_to_payload.
  destruct (is_atom_named "nil" t); [done|]. destruct (is_protobuf_struct t) as [m|]; [|done].
  unfold encode_protobuf, mbind, option_bind. destruct (proto_encode m t) as [e|] eqn:E; cbn beta iota; rewrite ?E; reflexivity.
Qed.

Lemma chain_read_back t p mode url max depth :
  chain_to_payload t (standard_chain mode url max depth) = inr p ->
  chain_from_payload p (standard_chain mode url max depth) = inr (received t).
Proof.
  unfold chain_to_payload. rewrite standard_chain_sorted. unfold convert_single_data, received.
  rewrite try_standard_chain. unfold encodes_as_protobuf. intros Hp.
  destruct (is_atom_named "nil" t) eqn:Hn.
  { destruct t as [a| | | | | | |]; try done. apply String.eqb_eq in Hn as <-. simplify_eq.
    by destruct mode. }
  destruct (is_protobuf_struct t) as [m|] eqn:Hm; cbn [mbind option_bind] in *;
    [destruct (proto_encode m t) as [e|] eqn:He; cbn [mbind option_bind] in *|].
  1: { destruct (encode_protobuf mode url m t) as [p'| | |] eqn:Hpe; cbn beta iota in Hp; rewrite ?Hpe in Hp; simplify_eq.
       by apply encode_protobuf_read_back with m. }
  all: destruct (try_converters_for_data t _) as [p'|] eqn:Htry; simplify_eq;
       by destruct (plain_term_read_back t p mode url max depth Htry) as (t' & -> & ->).
Qed.

(** Which terms are converted. *)
Lemma json_accepts depth t :
  (exists p, json_to_payload depth true t = Done p) <->
  exists t', (term_nesting t < depth)%Z /\ prepare_for_encoding t = Ok t' /\ is_Some (jason_encode t').
Proof.
  unfold json_to_payload, encode_json. rewrite validate_depth_nesting, Z.add_0_l.
  destruct (Z.ltb_spec (term_nesting t) depth) as [Hlt|Hge]; [|split; [by intros [??]|intros (? & ? & _); lia]].
  destruct (prepare_for_encoding t) as [t'|e|m]; simpl; [|split; [by intros [??]|naive_solver]..].
  destruct (jason_encode t') as [s|] eqn:Hs; split; [|naive_solver| |].
  - intros _. exists t'. by rewrite Hs.
  - by intros [??].
  - intros (t2 & _ & [= <-] & [s' Hs']). congruence.
Qed.

Lemma chain_accepts t mode url max depth :
  (exists p, chain_to_payload t (standard_chain mode url max depth) = inr p) <->
  convertible max depth t.
Proof.
  unfold chain_to_payload. rewrite standard_chain_sorted. unfold convert_single_data, convertible.
  rewrite try_standard_chain. unfold encodes_as_protobuf.
  destruct (is_atom_named "nil" t) eqn:Hn.
  { destruct t as [a| | | | | | |]; try done. apply String.eqb_eq in Hn as <-.
    split; [intros _; right; by left|by eexists]. }
  assert (t <> enil) as Hne by (by intros ->).
  assert ((exists p, try_converters_for_data t [BinaryConverter max; JsonConverter depth true] = Some p)
    <-> (exists b, t = EBinary b /\ (byte_size b <= max)%Z) \/
        exists p, json_to_payload depth true t = Done p) as Hrest.
  { cbn [try_converters_for_data to_payload]. unfold binary_to_payload.
    destruct t as [| | |b| | | |]; try (case_match; naive_solver).
    destruct (Z.leb_spec (byte_size b) max); [naive_solver|].
    split; [case_match; naive_solver|]. intros [(b' & [= <-] & ?)|[p ->]]; [lia|by eexists]. }
  rewrite json_accepts in Hrest.
  destruct (is_protobuf_struct t) as [m|] eqn:Hm; cbn [mbind option_bind];
    [destruct (proto_encode m t) as [e|] eqn:He; cbn [mbind option_bind]|].
  1: { unfold encode_protobuf. rewrite He. split; [intros _; left; by eexists|by eexists]. }
  all: destruct (try_converters_for_data t _) as [p|] eqn:Htry;
       [split; [intros _; do 2 right; apply Hrest; by eexists|by eexists]|];
       split; [by intros [??]|]; intros [[??]|[?|Hr]]; [done..|];
       apply Hrest in Hr as [p ?]; congruence.
Qed.

(** C16 A term that the chain turns into a payload is read back as the term it stands
    for: itself for a Protobuf message, otherwise the term with atoms and keys as strings,
    and itself for JSON data with string keys.  The chain converts exactly the messages
    that encode, [nil], binaries within the size limit, and terms that nest less than the
    depth limit and can be prepared and encoded as JSON; JSON data in UTF-8 is among them. *)
Theorem elixir_payload_roundtrip t mode url max depth :
  let chain := standard_chain mode url max depth in
  (forall p, chain_to_payload t chain = inr p -> chain_from_payload p chain = inr (received t)) /\
  ((exists p, chain_to_payload t chain = inr p) <-> convertible max depth t) /\
  (json_shape t ->
     received t = t /\
     ((term_nesting t < depth)%Z -> utf8_strings t = true -> convertible max depth t)).
Proof.
  intros chain. split; [intros p; apply chain_read_back|]. split; [apply chain_accepts|].
  intros Hs. pose proof (prepare_json_shape t Hs) as Hp. split.
  - unfold received. rewrite Hp. by case_match.
  - intros Hn Hu. do 3 right. exists t. eauto using jason_encodes.
Qed.

(** ** Lists of terms *)
Lemma extract_results_spec {A B} (f : A -> sum chain_error B) l :
  match extract_results (f <$> l) with
  | inr r => Forall2 (fun a b => f a = inr b) l r
  | inl e => exists l1 a l2 r1, l = l1 ++ a :: l2 /\ f a = inl e /\
               Forall2 (fun a b => f a = inr b) l1 r1
  end.
Proof.
  induction l as [|a l IH]; simpl; [constructor|]. destruct (f a) as [e|b] eqn:Ha.
  - exists [], a, l, []. by repeat constructor.
  - destruct (extract_results _) as [e|r]; [|by constructor].
    destruct IH as (l1 & a' & l2 & r1 & -> & He & H1). exists (a :: l1), a', l2, (b :: r1).
    split; [done|]. split; [done|]. by constructor.
Qed.

Lemma extract_results_all {A B} (f : A -> sum chain_error B) l r :
  Forall2 (fun a b => f a = inr b) l r -> extract_results (f <$> l) = inr r.
Proof.
  induction 1 as [|a b l r Ha Hl IH]; [done|]. rewrite fmap_cons. cbn [extract_results].
  by rewrite Ha, IH.
Qed.

Lemma payloads_read_back ts ps mode url max depth :
  chain_to_payloads ts (standard_chain mode url max depth) = inr ps ->
  Forall2 (fun t p => chain_to_payload t (standard_chain mode url max depth) = inr p) ts ps /\
  chain_from_payloads ps (standard_chain mode url max depth) = inr (received <$> ts).
Proof.
  set (chain := standard_chain mode url max depth). intros Hp.
  pose proof (extract_results_spec (fun t => chain_to_payload t chain) ts) as Hx.
  change (extract_results _) with (chain_to_payloads ts chain) in Hx. rewrite Hp in Hx.
  split; [done|]. apply extract_results_all.
  clear -Hx H0. induction Hx; simpl; constructor; [by apply chain_read_back|done].
Qed.

(** Lists are converted element by element, in order: [to_payloads] gives the
    payloads of all terms, which [from_payloads] reads back, or the error of the first
    term that is not converted. *)
Theorem elixir_payloads_in_order ts mode url max depth :
  let chain := standard_chain mode url max depth in
  match chain_to_payloads ts chain with
  | inr ps =>
      Forall2 (fun t p => chain_to_payload t chain = inr p) ts ps /\
      chain_from_payloads ps chain = inr (received <$> ts)
  | inl e =>
      exists ts1 t ts2, ts = ts1 ++ t :: ts2 /\ e = NoConverterFoundFor t /\
        ~ convertible max depth t /\ Forall (convertible max depth) ts1
  end.
Proof.
  intros chain. destruct (chain_to_payloads ts chain) as [e|ps] eqn:Hp; [|by apply payloads_read_back].
  pose proof (extract_results_spec (fun t => chain_to_payload t chain) ts) as Hx.
  change (extract_results _) with (chain_to_payloads ts chain) in Hx. rewrite Hp in Hx.
  destruct Hx as (l1 & t & l2 & r1 & -> & He & H1). exists l1, t, l2. split; [done|].
  split; [|split].
  - unfold chain_to_payload, convert_single_data in He. by case_match; simplify_eq.
  - intros [p Hc]%(chain_accepts t mode url max depth). unfold chain in He. congruence.
  - clear He Hp. induction H1; constructor; [|done].
    apply (chain_accepts _ mode url max depth). by eexists.
Qed.
End facts.
