(* ===== verification/ElixirClient.v ===== *)
(** * The Elixir client (lib/temporal/client.ex, lib/temporal/client/config.ex)

    The configuration of a client, from the environment and from options, and
    the process that connects and sends requests through the native functions.
    Logging and telemetry are left out.  The text functions of Elixir that depend
    on the Unicode tables, the environment and the files are interfaces. *)
From Stdlib Require Import ZArith Lia Ascii String.
From stdpp Require Import base option list strings pretty.
From S2P Require Import Prelude JsonData PayloadConverters.

Class ElixirText := {
  string_trim : string -> string;
  string_downcase : string -> string;
  integer_parse : string -> option Z;
  read_regular_file : string -> option string;
}.

(** ** Configuration *)
Inductive payload_converter_type :=
| PCT_Nil | PCT_Binary | PCT_Json | PCT_Protobuf.

Inductive payload_converter_spec :=
| PCS_Default
| PCS_List (l : list payload_converter_type).

Record payload_converter_options := {
  json_max_depth : option Z;
  json_atom_handling : option string;
  binary_max_size : option Z;
  protobuf_mode_json : option bool;
  protobuf_include_type_url : option bool;
}.

Definition no_options : payload_converter_options :=
  {| json_max_depth := None; json_atom_handling := None; binary_max_size := None;
     protobuf_mode_json := None; protobuf_include_type_url := None |}.

(** The fields hold any term; [nil] is [None] where the code tests for it. *)
Record Config := {
  cfg_host : ETerm;
  cfg_namespace : ETerm;
  cfg_task_queue : ETerm;
  cfg_tls : ETerm;
  cfg_retries : ETerm;
  cfg_identity : ETerm;
  cfg_headers : ETerm;
  cfg_payload_converter : payload_converter_spec;
  cfg_payload_converter_options : payload_converter_options;
}.

(** A map literal with atom keys. *)
Definition atom_map (l : list (string * ETerm)) : ETerm :=
  EMap ((fun kv => (EAtom kv.1, kv.2)) <$> l).

(** [m[:key]] and [Map.get(m, :key)] *)
Definition atom_get (k : string) (t : ETerm) : option ETerm :=
  match t with
  | EMap kvs => snd <$> List.find (fun kv => is_atom_named k kv.1) kvs
  | _ => None
  end.

Definition is_nil (t : ETerm) : bool := is_atom_named "nil" t.
Definition or_nil (o : option ETerm) : ETerm := default enil o.

(** [nil] and [false] are not true. *)
Definition truthy (t : ETerm) : bool := negb (is_nil t || is_atom_named "false" t).
Definition or_else (t d : ETerm) : ETerm := if truthy t then t else d.

Definition default_retries : list (string * ETerm) :=
  [("initial_backoff_ms", EInt 100); ("max_attempts", EInt 3); ("max_backoff_ms", EInt 5000)].

Section config.
  Context `{ElixirLibs} `{ElixirText}.

(** *** From the environment *)
Definition get_env (env : list (string * string)) (k : string) : option string := smap_get k env.
Definition opt_term (o : option string) : ETerm := from_option EBinary enil o.

Definition parse_int (s : option string) (dflt : Z) : Z :=
  match s with
  | None => dflt
  | Some str => match integer_parse str with
                | Some i => if (0 <=? i)%Z then i else dflt
                | None => dflt
                end
  end.

Definition parse_bool (s : option string) : ETerm :=
  match s with
  | None => enil
  | Some v =>
      let v := string_downcase (string_trim v) in
      if String.eqb v "true" || String.eqb v "1" then EAtom "true"
      else if String.eqb v "false" || String.eqb v "0" then EAtom "false" else enil
  end.

Definition parse_converter_type (s : string) : option payload_converter_type :=
  if String.eqb s "nil" then None
  else if String.eqb s "binary" then Some PCT_Binary
  else if String.eqb s "json" then Some PCT_Json
  else None.

(** [String.split(s, ",")] *)
Fixpoint split_comma (s acc : string) : list string :=
  match s with
  | EmptyString => [acc]
  | String c r => if Ascii.eqb c ","%char then acc :: split_comma r "" else split_comma r (acc +:+ String c "")
  end.

(** [nil] stands for the converter of [nil], and the list drops what is [nil]. *)
Definition parse_payload_converter (s : option string) : payload_converter_spec :=
  match s with
  | None => PCS_Default
  | Some str =>
      let str := string_downcase (string_trim str) in
      if String.eqb str "default" then PCS_Default
      else if String.eqb str "json" then PCS_List [PCT_Json]
      else PCS_List (omap (fun s => parse_converter_type (string_trim s)) (split_comma str ""))
  end.

Definition parse_atom_handling (s : option string) : string :=
  match s with
  | None => "string"
  | Some str =>
      let str := string_downcase (string_trim str) in
      if String.eqb str "atom" || String.eqb str "error" then str else "string"
  end.

Fixpoint contains_char (c : ascii) (s : string) : bool :=
  match s with EmptyString => false | String d r => Ascii.eqb c d || contains_char c r end.

Definition maybe_read_pem_or_path (val : string) : string :=
  if contains_char "/"%char val || contains_char "\"%char val
  then default val (read_regular_file val) else val.

Definition header_prefix : string := "TEMPORAL_HEADER_".

Definition env_headers (env : list (string * string)) : ETerm :=
  let named := List.filter (fun kv => String.prefix header_prefix kv.1) env in
  EMap ((fun kv => (EBinary kv.1, EBinary kv.2)) <$>
    smap_new ((fun kv => (string_downcase
      (String.substring 16 (String.length kv.1 - 16) kv.1), kv.2)) <$> named)).

Definition env_tls (env : list (string * string)) : ETerm :=
  let pem k := opt_term (maybe_read_pem_or_path <$> get_env env k) in
  let maybe :=
    [("ca_cert", pem "TEMPORAL_TLS_CA"); ("client_cert", pem "TEMPORAL_TLS_CERT");
     ("client_key", pem "TEMPORAL_TLS_KEY");
     ("insecure_skip_verify", parse_bool (get_env env "TEMPORAL_TLS_INSECURE_SKIP_VERIFY"));
     ("server_name", opt_term (get_env env "TEMPORAL_TLS_SERVER_NAME"))]%string in
  let empty t := is_nil t || match t with EBinary "" => true | _ => false end in
  if List.existsb (fun kv => negb (empty kv.2)) maybe then atom_map maybe else enil.

Definition from_env (env : list (string * string)) : Config :=
  let var k d := EBinary (default d (get_env env k)) in
  {| cfg_host := var "TEMPORAL_HOST" "localhost:7233";
     cfg_namespace := var "TEMPORAL_NAMESPACE" "default";
     cfg_task_queue := var "TEMPORAL_TASK_QUEUE" "default";
     cfg_tls := env_tls env;
     cfg_retries := atom_map
       [("initial_backoff_ms", EInt (parse_int (get_env env "TEMPORAL_RETRY_INITIAL_BACKOFF_MS") 100));
        ("max_attempts", EInt (parse_int (get_env env "TEMPORAL_RETRY_MAX_ATTEMPTS") 3));
        ("max_backoff_ms", EInt (parse_int (get_env env "TEMPORAL_RETRY_MAX_BACKOFF_MS") 5000))];
     cfg_identity := opt_term (get_env env "TEMPORAL_IDENTITY");
     cfg_headers := env_headers env;
     cfg_payload_converter := parse_payload_converter (get_env env "TEMPORAL_PAYLOAD_CONVERTER");
     cfg_payload_converter_options :=
       {| json_max_depth := Some (parse_int (get_env env "TEMPORAL_JSON_MAX_DEPTH") 32);
          json_atom_handling :=
            Some (parse_atom_handling (get_env env "TEMPORAL_JSON_ATOM_HANDLING"));
          binary_max_size := Some (parse_int (get_env env "TEMPORAL_BINARY_MAX_SIZE") (1024 * 1024));
          protobuf_mode_json := None; protobuf_include_type_url := None |} |}%string.

(** *** Converters *)
Definition resolve_single_converter (o : payload_converter_options) (c : payload_converter_type)
  : converter :=
  match c with
  | PCT_Nil => NilConverter
  | PCT_Binary => BinaryConverter (default (1024 * 1024)%Z o.(binary_max_size))
  | PCT_Json => JsonConverter (default 32%Z o.(json_max_depth)) true
  | PCT_Protobuf => ProtobufConverter (default false o.(protobuf_mode_json))
                      (default true o.(protobuf_include_type_url))
  end.

Definition resolve_payload_converter (spec : payload_converter_spec)
    (o : payload_converter_options) : list converter :=
  let l := match spec with
           | PCS_Default => [PCT_Nil; PCT_Protobuf; PCT_Binary; PCT_Json]
           | PCS_List l => l
           end in
  sort_by Z.leb priority (resolve_single_converter o <$> l).

(** *** Validation *)
Inductive config_error :=
| RequiredField (f : string)
| NonNegativeIntegerRequired (f : string)
| TlsInvalidBoolean
| TlsInvalid.

(** [to_string] raises for terms that are no text. *)
Definition text (t : ETerm) : outcome (list config_error) string :=
  match to_string t with Some s => Ok s | None => Panic "Protocol.UndefinedError" end.

Definition normalize (cfg : Config) : outcome (list config_error) Config :=
  host ← text cfg.(cfg_host);
  namespace ← text cfg.(cfg_namespace);
  task_queue ← text cfg.(cfg_task_queue);
  identity ←
    (if truthy cfg.(cfg_identity) then
       match cfg.(cfg_identity) with
       | EBinary b => Ok (EBinary (string_trim b))
       | _ => Panic "FunctionClauseError"
       end
     else Ok cfg.(cfg_identity));
  Ok {| cfg_host := EBinary (string_trim host);
        cfg_namespace := EBinary (string_downcase (string_trim namespace));
        cfg_task_queue := EBinary (string_trim task_queue);
        cfg_tls := cfg.(cfg_tls); cfg_retries := cfg.(cfg_retries); cfg_identity := identity;
        cfg_headers := or_else cfg.(cfg_headers) (EMap []);
        cfg_payload_converter := cfg.(cfg_payload_converter);
        cfg_payload_converter_options := cfg.(cfg_payload_converter_options) |}.

Definition blank (t : ETerm) : bool :=
  is_nil t || match t with EBinary "" => true | _ => false end.

(** [Map.merge]: the pairs of the second map replace those of the first. *)
Definition map_merge (d : list (string * ETerm)) (t : ETerm) : outcome (list config_error) ETerm :=
  match t with
  | EMap kvs =>
      Ok (EMap (((fun kv => (EAtom kv.1, kv.2)) <$>
                 List.filter (fun kv => negb (bool_decide (is_Some (atom_get kv.1 t)))) d) ++ kvs))
  | _ => Panic "BadMapError"
  end.

Definition check_nonneg (f : string) (retries : ETerm) : list config_error :=
  match atom_get f retries with
  | Some (EInt z) => if (0 <=? z)%Z then [] else [NonNegativeIntegerRequired f]
  | _ => [NonNegativeIntegerRequired f]
  end.

Definition check_tls (tls : ETerm) : list config_error :=
  if is_nil tls then []
  else match tls with
       | EMap _ =>
           match or_nil (atom_get "insecure_skip_verify" tls) with
           | EAtom a => if is_json_atom a then [] else [TlsInvalidBoolean]
           | _ => [TlsInvalidBoolean]
           end
       | _ => [TlsInvalid]
       end.

(** The errors are given in the order in which they are found. *)
Definition validate (cfg : Config) : outcome (list config_error) Config :=
  cfg ← normalize cfg;
  retries ← map_merge default_retries (or_else cfg.(cfg_retries) (EMap []));
  let req f (t : ETerm) := if blank t then [RequiredField f] else [] in
  let errs :=
    (req "host"%string cfg.(cfg_host) ++ req "namespace"%string cfg.(cfg_namespace)
     ++ req "task_queue"%string cfg.(cfg_task_queue)
     ++ check_nonneg "max_attempts" retries ++ check_nonneg "initial_backoff_ms" retries
     ++ check_nonneg "max_backoff_ms" retries ++ check_tls cfg.(cfg_tls)) in
  match errs with
  | [] => Ok {| cfg_host := cfg.(cfg_host); cfg_namespace := cfg.(cfg_namespace);
                cfg_task_queue := cfg.(cfg_task_queue); cfg_tls := cfg.(cfg_tls);
                cfg_retries := retries; cfg_identity := cfg.(cfg_identity);
                cfg_headers := cfg.(cfg_headers);
                cfg_payload_converter := cfg.(cfg_payload_converter);
                cfg_payload_converter_options := cfg.(cfg_payload_converter_options) |}
  | _ => Err errs
  end.

(** ** The client process *)

(** [Keyword.get] *)
Definition keyword_get (opts : list (string * ETerm)) (k : string) : option ETerm :=
  snd <$> List.find (fun kv => String.eqb kv.1 k) opts.

Definition opts_to_cfg (opts : list (string * ETerm)) : outcome (list config_error) Config :=
  let get k d := default d (keyword_get opts k) in
  let host_opt := or_else (or_nil (keyword_get opts "host")) (or_nil (keyword_get opts "target_url")) in
  host ← text (or_else host_opt (EBinary "localhost:7233"));
  namespace ← text (get "namespace" (EBinary "default"));
  task_queue ← text (get "task_queue" (EBinary "default"));
  Ok {| cfg_host := EBinary host; cfg_namespace := EBinary namespace;
        cfg_task_queue := EBinary task_queue; cfg_tls := or_nil (keyword_get opts "tls");
        cfg_retries := get "retries" (EMap []); cfg_identity := or_nil (keyword_get opts "identity");
        cfg_headers := get "headers" (EMap []);
        cfg_payload_converter := PCS_Default;
        cfg_payload_converter_options := no_options |}%string.

(** [Map.merge] of two structs: the second has every key of the first. *)
Definition struct_merge (cfg opts : Config) : Config := opts.

Definition spec_term (spec : payload_converter_spec) : ETerm :=
  match spec with
  | PCS_Default => EAtom "default"
  | PCS_List l => EList ((fun c => EAtom match c with
                                        | PCT_Nil => "nil" | PCT_Binary => "binary"
                                        | PCT_Json => "json" | PCT_Protobuf => "protobuf"
                                        end) <$> l)
  end.

Definition options_term (o : payload_converter_options) : ETerm :=
  let field {A} k (f : A -> ETerm) (v : option A) := (fun a => (k, f a)) <$> option_list v in
  atom_map (field "binary_max_size"%string EInt o.(binary_max_size)
            ++ field "json_atom_handling"%string EAtom o.(json_atom_handling)
            ++ field "json_max_depth"%string EInt o.(json_max_depth)).

Definition to_nif_config (cfg : Config) : list (string * ETerm) :=
  [("target_host", cfg.(cfg_host)); ("namespace", cfg.(cfg_namespace));
   ("task_queue", cfg.(cfg_task_queue)); ("identity", cfg.(cfg_identity));
   ("headers", cfg.(cfg_headers)); ("tls_config", cfg.(cfg_tls));
   ("retries", cfg.(cfg_retries)); ("payload_converter", spec_term cfg.(cfg_payload_converter));
   ("payload_converter_options", options_term cfg.(cfg_payload_converter_options))]%string.

(** [{:ok, cfg} = Config.validate(cfg)] raises when it does not match. *)
Definition build_config (env : list (string * string)) (opts : list (string * ETerm))
  : outcome (list config_error) (list (string * ETerm)) :=
  o ← opts_to_cfg opts;
  match validate (struct_merge (from_env env) o) with
  | Ok cfg => Ok (to_nif_config cfg)
  | Err _ => Panic "MatchError"
  | Panic m => Panic m
  end.
End config.

(** *** State and calls *)
Inductive status := Connected | Connecting | Disconnected | ErrorStatus.
#[global] Instance status_eq_dec : EqDecision status.
Proof. solve_decision. Defined.

Record client_state := {
  cs_config : list (string * ETerm);
  cs_client_resource : option N;
  cs_status : status;
  cs_connect_attempts : Z;
}.

(** The native functions, as their behaviour declares them; what they answer is
    up to the server. *)
Record native := {
  client_connect : list (string * ETerm) -> sum ETerm N;
  client_start_workflow : N -> list (string * ETerm) -> sum ETerm (list (string * ETerm));
  client_signal_workflow : N -> list (string * ETerm) -> sum ETerm unit;
  client_query_workflow : N -> list (string * ETerm) -> sum ETerm ETerm;
}.

Inductive native_call :=
| CallConnect
| CallStart (resource : N) (params : list (string * ETerm))
| CallSignal (resource : N) (params : list (string * ETerm))
| CallQuery (resource : N) (params : list (string * ETerm)).

Inductive reply :=
| ReplyOk
| ReplyStatus (s : status)
| ReplyHandle (m : list (string * ETerm))
| ReplyResult (t : ETerm)
| ReplyError (e : ETerm)
| ReplyNotConnected.

Section client.
  Context `{ElixirLibs} (native : native).

Definition list_wrap (t : ETerm) : list ETerm :=
  if is_nil t then [] else match t with EList l => l | _ => [t] end.

(** A payload as the map the converters give. *)
Definition payload_term (p : payload) : ETerm :=
  atom_map [("data"%string, EBinary p.(data));
            ("metadata"%string, EMap ((fun kv => (EBinary kv.1, EBinary kv.2)) <$> p.(metadata)))].

Definition convert_input (v : ETerm) : ETerm :=
  match chain_to_payloads (list_wrap v) default_converter_chain with
  | inr payloads => EList (payload_term <$> payloads)
  | inl _ => EList []
  end.

(** The pairs of the parameters, with string keys.  The fields named in [texts]
    become text, those named in [raw] and all others are passed on.  A key that is
    neither an atom nor a binary, and text that is none, raise. *)
Fixpoint normalize_params (texts : list string) (params : list (ETerm * ETerm))
  : option (list (string * ETerm)) :=
  match params with
  | [] => Some []
  | (k, v) :: rest =>
      kv ← match k with
           | EAtom a =>
               if bool_decide (a ∈ texts) then s ← to_string v; Some (a, EBinary s)
               else if String.eqb a "input" then Some (a, convert_input v)
               else Some (a, v)
           | EBinary b => Some (b, v)
           | _ => None
           end;
      rest ← normalize_params texts rest; Some (kv :: rest)
  end.

Definition workflow_texts : list string := ["workflow_type"; "task_queue"; "workflow_id"; "request_id"].
Definition signal_texts : list string := ["workflow_id"; "run_id"; "signal_name"; "namespace"].
Definition query_texts : list string := ["workflow_id"; "run_id"; "query_type"; "namespace"].

Definition normalize_workflow_params (params : list (ETerm * ETerm)) : option (list (string * ETerm)) :=
  smap_new <$> normalize_params workflow_texts params.
Definition normalize_signal_params (params : list (ETerm * ETerm)) : option (list (string * ETerm)) :=
  smap_new <$> normalize_params signal_texts params.
Definition normalize_query_params (params : list (ETerm * ETerm)) : option (list (string * ETerm)) :=
  smap_new <$> normalize_params query_texts params.

Definition init (config : list (string * ETerm)) : client_state :=
  {| cs_config := config; cs_client_resource := None; cs_status := Disconnected;
     cs_connect_attempts := 0 |}.

Definition connected (r : N) (attempts : Z) (s : client_state) : client_state :=
  {| cs_config := s.(cs_config); cs_client_resource := Some r; cs_status := Connected;
     cs_connect_attempts := attempts |}.
Definition failed (attempts : Z) (s : client_state) : client_state :=
  {| cs_config := s.(cs_config); cs_client_resource := s.(cs_client_resource);
     cs_status := ErrorStatus; cs_connect_attempts := attempts |}.

(** [handle_continue(:connect, _)], when the client connects on start. *)
Definition handle_continue_connect (s : client_state) : list native_call * client_state :=
  ([CallConnect],
   match client_connect native s.(cs_config) with
   | inr r => connected r s.(cs_connect_attempts) s
   | inl _ => failed s.(cs_connect_attempts) s
   end).

Definition handle_call_connect (s : client_state) : list native_call * reply * client_state :=
  if bool_decide (s.(cs_status) = Connected) then ([], ReplyOk, s)
  else match client_connect native s.(cs_config) with
       | inr r => ([CallConnect], ReplyOk, connected r 0 s)
       | inl e => ([CallConnect], ReplyError e, failed (s.(cs_connect_attempts) + 1) s)
       end.

Definition ensure_connected (s : client_state) : list native_call * client_state :=
  if bool_decide (s.(cs_status) = Connected) then ([], s)
  else ([CallConnect],
        match client_connect native s.(cs_config) with
        | inr r => connected r 0 s
        | inl _ => failed (s.(cs_connect_attempts) + 1) s
        end).

(** A request: connect if need be, prepare the parameters, call.  [None] is the
    crash of the process. *)
Definition request {A} (s : client_state) (params : option (list (string * ETerm)))
    (make : N -> list (string * ETerm) -> native_call)
    (call : N -> list (string * ETerm) -> sum ETerm A) (answer : A -> reply)
  : option (list native_call * reply * client_state) :=
  let '(calls, s) := ensure_connected s in
  match s.(cs_status), s.(cs_client_resource) with
  | Connected, Some r =>
      params ← params;
      Some (calls ++ [make r params],
            match call r params with inr a => answer a | inl e => ReplyError e end, s)
  | Connected, None => None
  | _, _ => Some (calls, ReplyNotConnected, s)
  end.

Inductive client_request :=
| ReqConnect
| ReqStatus
| ReqStartWorkflow (params : list (ETerm * ETerm))
| ReqSignalWorkflow (params : list (ETerm * ETerm))
| ReqQueryWorkflow (params : list (ETerm * ETerm)).

Definition handle_call (req : client_request) (s : client_state)
  : option (list native_call * reply * client_state) :=
  match req with
  | ReqConnect => Some (handle_call_connect s)
  | ReqStatus => Some ([], ReplyStatus s.(cs_status), s)
  | ReqStartWorkflow params =>
      request s (normalize_workflow_params params) CallStart (client_start_workflow native)
        (fun handle => ReplyHandle (smap_new handle))
  | ReqSignalWorkflow params =>
      request s (normalize_signal_params params) CallSignal (client_signal_workflow native)
        (fun _ => ReplyOk)
  | ReqQueryWorkflow params =>
      request s (normalize_query_params params) CallQuery (client_query_workflow native) ReplyResult
  end.
End client.
