(* ===== verification/NativeClient.v ===== *)
(** * The native functions (native/temporal_nif/src/lib.rs, client.rs, worker.rs)

    What the native functions read of the terms they are given, the requests
    they build for the server, and the tasks they hand to Elixir.  The decoders of
    the Rustler crate, files and the server are interfaces. *)
From Stdlib Require Import ZArith Lia String.
From stdpp Require Import base option list strings gmap pretty.
From S2P Require Import Prelude TimeArith Flags Protos ActivityTasks JsonData.
From S2P Require Import NativeConverter PayloadConverters.

(** ** Decoding terms

    [Term::decode] at the types that are used; a [HashMap] is the list of its
    pairs. *)
Class Rustler := {
  decode_string : ETerm -> option string;
  decode_binary : ETerm -> option string;
  decode_bytes : ETerm -> option string;
  decode_atom : ETerm -> option string;
  decode_bool : ETerm -> option bool;
  decode_uint : Z -> ETerm -> option Z;
  decode_list : ETerm -> option (list ETerm);
  decode_map : forall K V, (ETerm -> option K) -> (ETerm -> option V) -> ETerm -> option (list (K * V));
  from_utf8_lossy : string -> string;
}.
#[global] Arguments decode_map {_ K V}.

(** What the crate documents: a [String] is a binary in UTF-8, a [Vec<u8>] a list
    of integers, an unsigned integer one in range, a [HashMap] a map whose keys
    and values all decode. *)
Class RustlerLaws `{Rustler} `{ElixirLibs} : Prop := {
  decode_string_spec t :
    decode_string t = match t with EBinary b => if valid_utf8 b then Some b else None | _ => None end;
  decode_binary_spec t : decode_binary t = match t with EBinary b => Some b | _ => None end;
  decode_bytes_binary b : decode_bytes (EBinary b) = None;
  decode_atom_spec t : decode_atom t = match t with EAtom a => Some a | _ => None end;
  decode_bool_spec t :
    decode_bool t = match t with
                    | EAtom a => if String.eqb a "true" then Some true
                                 else if String.eqb a "false" then Some false else None
                    | _ => None
                    end;
  decode_uint_spec max t :
    decode_uint max t = match t with
                        | EInt z => if (0 <=? z)%Z && (z <=? max)%Z then Some z else None
                        | _ => None
                        end;
  decode_list_spec t : decode_list t = match t with EList l => Some l | _ => None end;
  decode_map_spec {K V} (dk : ETerm -> option K) (dv : ETerm -> option V) t :
    decode_map dk dv t =
      match t with
      | EMap kvs => mapM (fun kv => k ← dk kv.1; v ← dv kv.2; Some (k, v)) kvs
      | _ => None
      end;
}.

Section decoding.
  Context `{Rustler}.

Definition string_map (t : ETerm) : option (list (string * ETerm)) := decode_map decode_string Some t.

Definition get {A} (k : string) (m : list (string * A)) : option A :=
  snd <$> List.find (fun kv => String.eqb kv.1 k) m.

Definition get_string (k : string) (m : list (string * ETerm)) : option string :=
  t ← get k m; decode_string t.
Definition get_uint (max : Z) (k : string) (m : list (string * ETerm)) : option Z :=
  t ← get k m; decode_uint max t.
Definition get_bool (k : string) (m : list (string * ETerm)) : option bool :=
  t ← get k m; decode_bool t.

Definition required (k : string) (m : list (string * ETerm)) : outcome string string :=
  match get k m with
  | Some t => match decode_string t with
              | Some s => Ok s
              | None => Err (k +:+ " must be a string")
              end
  | None => Err (k +:+ " is required")
  end.

(** ** Payloads *)
Definition decode_metadata (t : ETerm) : gmap string string :=
  match decode_map decode_bytes decode_bytes t with
  | Some m => list_to_map ((fun kv => (from_utf8_lossy kv.1, kv.2)) <$> m)
  | None =>
      match decode_map decode_string decode_bytes t with
      | Some m => list_to_map m
      | None => from_option list_to_map ∅ (decode_map decode_string decode_string t)
      end
  end.

Definition decode_data (t : ETerm) : string :=
  match decode_binary t with
  | Some b => b
  | None => match decode_bytes t with
            | Some b => b
            | None => default ""%string (decode_string t)
            end
  end.

Definition decode_data_fallback (t : ETerm) : string :=
  match decode_bytes t with Some b => b | None => default ""%string (decode_string t) end.

Definition term_to_payload (term : ETerm) : outcome string Payload :=
  match decode_map decode_atom Some term with
  | Some payload_map =>
      Ok {| Payload_metadata := from_option decode_metadata ∅ (get "metadata" payload_map);
             Payload_data := from_option decode_data ""%string (get "data" payload_map) |}
  | None =>
      match string_map term with
      | None => Err "Failed to decode payload as map (tried both atom and string keys)"%string
      | Some payload_map =>
          match get "metadata" payload_map with
          | None => Ok ∅
          | Some t => match decode_map decode_string decode_string t with
                      | Some m => Ok (list_to_map m)
                      | None => Err "Failed to decode metadata as map"%string
                      end
          end ≫= fun metadata : gmap string string =>
          Ok {| Payload_metadata := metadata;
                 Payload_data := from_option decode_data_fallback ""%string (get "data" payload_map) |}
      end
  end.

(** The payloads of a request, if all of them decode. *)
Definition decode_input (m : list (string * ETerm)) : option (list Payload) :=
  term ← get "input" m; l ← decode_list term;
  mapM (fun t => match term_to_payload t with Ok p => Some p | _ => None end) l.

(** ** Connecting (lib.rs, client.rs) *)
Record ClientTlsConfig := {
  client_cert_path : option string;
  client_key_path : option string;
  ca_cert_path : option string;
}.

Record RetryOptions := {
  max_attempts : Z;
  initial_backoff_ms : Z;
  max_backoff_ms : Z;
}.

Record ClientOptions := {
  co_tls : option ClientTlsConfig;
  co_client_name : option string;
  co_client_version : option string;
  co_identity : option string;
  co_api_key : option string;
  co_skip_system_info : bool;
  co_headers : option (list (string * string));
  co_retries : option RetryOptions;
}.

(** [write_temp_pem] gives the path of a new file. *)
Context (write_temp_pem : string -> string -> outcome string string).

Definition parse_tls_config (config_map : list (string * ETerm))
  : outcome string (option ClientTlsConfig) :=
  match (match get "tls_config" config_map with Some t => Some t | None => get "tls" config_map end) with
  | None => Ok None
  | Some tls_term =>
      match string_map tls_term with
      | None => Ok None
      | Some tls_map =>
          cert_and_key ←
            match get_string "client_cert_path" tls_map, get_string "client_key_path" tls_map,
                  get_string "client_cert" tls_map, get_string "client_key" tls_map with
            | Some cp, Some kp, _, _ => Ok (Some cp, Some kp)
            | _, _, Some cert, Some key =>
                cert_path ← write_temp_pem "temporal_cert" cert;
                key_path ← write_temp_pem "temporal_key" key;
                Ok (Some cert_path, Some key_path)
            | _, _, _, _ => Ok (None, None)
            end;
          ca_cert_path ←
            match get_string "ca_cert_path" tls_map, get_string "ca_cert" tls_map with
            | Some p, _ => Ok (Some p)
            | None, Some pem => p ← write_temp_pem "temporal_ca" pem; Ok (Some p)
            | None, None => Ok None
            end;
          Ok (Some {| client_cert_path := cert_and_key.1; client_key_path := cert_and_key.2;
                      ca_cert_path := ca_cert_path |})
      end
  end.

Definition parse_retries (config_map : list (string * ETerm)) : option RetryOptions :=
  term ← get "retries" config_map;
  m ← string_map term;
  Some {| max_attempts := default 3%Z (get_uint u32_max "max_attempts" m);
          initial_backoff_ms := default 100%Z (get_uint u64_max "initial_backoff_ms" m);
          max_backoff_ms := default 5000%Z (get_uint u64_max "max_backoff_ms" m) |}.

Definition parse_converters (config_map : list (string * ETerm)) : list Native.NativeConverter :=
  let opt k d := default d (t ← get "payload_converter_options" config_map;
                            m ← string_map t; get_uint u64_max k m) in
  let binary_max := opt "binary_max_size"%string (1024 * 1024)%Z in
  let json_depth := opt "json_max_depth"%string 32%Z in
  let make item :=
    s ← decode_string item;
    if String.eqb s "nil" then Some Native.NativeNil
    else if String.eqb s "binary" then Some (Native.NativeBinary binary_max)
    else if String.eqb s "json" then Some (Native.NativeJson json_depth true)
    else None in
  match get "payload_converter" config_map ≫= decode_list with
  | Some list =>
      match omap make list with
      | [] => Native.CompositeConverter_default
      | v => Native.CompositeConverter_new v
      end
  | None => Native.CompositeConverter_default
  end.

(** What [client_connect] reads of its argument before it connects. *)
Definition client_connect_args (config_term : ETerm)
  : outcome string (string * string * list Native.NativeConverter * ClientOptions) :=
  match string_map config_term with
  | None => Err "Configuration must be a map"%string
  | Some config_map =>
      target_url ← required "target_host" config_map;
      namespace ← required "namespace" config_map;
      tls ← parse_tls_config config_map;
      Ok (target_url, namespace, parse_converters config_map,
          {| co_tls := tls; co_client_name := get_string "client_name" config_map;
             co_client_version := get_string "client_version" config_map;
             co_identity := get_string "identity" config_map;
             co_api_key := get_string "api_key" config_map;
             co_skip_system_info := default true (get_bool "skip_system_info" config_map);
             co_headers := t ← get "headers" config_map; decode_map decode_string decode_string t;
             co_retries := parse_retries config_map |})
  end.

(** The options of the connection that [ClientResource::connect] opens. *)
Record Connection := {
  cn_url : string;
  cn_client_name : string;
  cn_client_version : string;
  cn_skip_get_system_info : bool;
  cn_identity : option string;
  cn_api_key : option string;
  cn_headers : option (list (string * string));
  cn_retry : option (Z * Z * Z);   (** initial and largest interval in ns, retries *)
  cn_ca_cert : option string;
  cn_client_tls : option (string * string);
}.

Context (url_ok : string -> bool) (read_file : string -> outcome string string).

Definition contains (sub s : string) : bool := if String.index 0 sub s is Some _ then true else false.

Definition traverses (path : string) : bool := contains "../" path || contains "..\" path.

Definition connect (target_url : string) (options : ClientOptions) : outcome string Connection :=
  let scheme := (if options.(co_tls) is Some _ then "https" else "http")%string in
  let full_url := (scheme +:+ "://" +:+ target_url)%string in
  if negb (url_ok full_url) then Err ("Invalid URL '" +:+ full_url +:+ "'")%string
  else
    tls ←
      match options.(co_tls) with
      | None => Ok (None, None)
      | Some tls_config =>
          ca ← match tls_config.(ca_cert_path) with
               | None => Ok None
               | Some ca_path =>
                   if traverses ca_path then Err "Invalid CA cert path"%string
                   else d ← read_file ca_path; Ok (Some d)
               end;
          client ← match tls_config.(client_cert_path), tls_config.(client_key_path) with
                   | Some cert_path, Some key_path =>
                       if traverses cert_path || traverses key_path
                       then Err "Invalid cert or key path"%string
                       else cert ← read_file cert_path; key ← read_file key_path;
                            Ok (Some (cert, key))
                   | _, _ => Ok None
                   end;
          Ok (ca, client)
      end;
    Ok {| cn_url := full_url;
          cn_client_name := default "temporal-elixir-sdk"%string options.(co_client_name);
          cn_client_version := default "0.1.0"%string options.(co_client_version);
          cn_skip_get_system_info := options.(co_skip_system_info);
          cn_identity := options.(co_identity); cn_api_key := options.(co_api_key);
          cn_headers := options.(co_headers);
          cn_retry := (fun r => (r.(initial_backoff_ms) * 1000000, r.(max_backoff_ms) * 1000000,
                                 r.(max_attempts))%Z) <$> options.(co_retries);
          cn_ca_cert := tls.1; cn_client_tls := tls.2 |}.

Definition client_connect_opens (config_term : ETerm)
  : outcome string (Connection * string * list Native.NativeConverter) :=
  args ← client_connect_args config_term;
  let '(target_url, namespace, converters, options) := args in
  conn ← connect target_url options;
  Ok (conn, namespace, converters).

(** ** Requests *)
Record WorkflowStartParams := {
  sp_workflow_id : string;
  sp_workflow_type : string;
  sp_task_queue : string;
  sp_input : option (list Payload);
  sp_request_id : option string;
  sp_execution_timeout : option Z;
  sp_run_timeout : option Z;
  sp_task_timeout : option Z;
}.

Record WorkflowSignalParams := {
  gp_workflow_id : string;
  gp_run_id : option string;
  gp_signal_name : string;
  gp_input : option (list Payload);
  gp_namespace : option string;
}.

Record WorkflowQueryParams := {
  qp_workflow_id : string;
  qp_run_id : option string;
  qp_query_type : string;
  qp_input : option (list Payload);
  qp_namespace : option string;
}.

Definition params_map (params : ETerm) : outcome string (list (string * ETerm)) :=
  match string_map params with Some m => Ok m | None => Err "Parameters must be a map"%string end.

Definition start_params (params : ETerm) : outcome string WorkflowStartParams :=
  m ← params_map params;
  workflow_id ← required "workflow_id" m;
  workflow_type ← required "workflow_type" m;
  task_queue ← required "task_queue" m;
  Ok {| sp_workflow_id := workflow_id; sp_workflow_type := workflow_type;
        sp_task_queue := task_queue; sp_input := decode_input m;
        sp_request_id := get_string "request_id" m;
        sp_execution_timeout := get_uint u64_max "execution_timeout" m;
        sp_run_timeout := get_uint u64_max "run_timeout" m;
        sp_task_timeout := get_uint u64_max "task_timeout" m |}.

Definition signal_params (params : ETerm) : outcome string WorkflowSignalParams :=
  m ← params_map params;
  workflow_id ← required "workflow_id" m;
  signal_name ← required "signal_name" m;
  Ok {| gp_workflow_id := workflow_id; gp_run_id := get_string "run_id" m;
        gp_signal_name := signal_name; gp_input := decode_input m;
        gp_namespace := get_string "namespace" m |}.

Definition query_params (params : ETerm) : outcome string WorkflowQueryParams :=
  m ← params_map params;
  workflow_id ← required "workflow_id" m;
  query_type ← required "query_type" m;
  Ok {| qp_workflow_id := workflow_id; qp_run_id := get_string "run_id" m;
        qp_query_type := query_type; qp_input := decode_input m;
        qp_namespace := get_string "namespace" m |}.

(** The fields of the requests that are set. *)
Record StartWorkflowExecutionRequest := {
  sr_namespace : string;
  sr_workflow_id : string;
  sr_workflow_type : option WorkflowType;
  sr_task_queue : option TaskQueue;
  sr_input : option Payloads;
  sr_request_id : string;
  sr_workflow_execution_timeout : option Duration;
  sr_workflow_run_timeout : option Duration;
  sr_workflow_task_timeout : option Duration;
}.

Record SignalWorkflowExecutionRequest := {
  gr_namespace : string;
  gr_workflow_execution : option WorkflowExecution;
  gr_signal_name : string;
  gr_input : option Payloads;
  gr_request_id : string;
}.

Record QueryWorkflowRequest := {
  qr_namespace : string;
  qr_execution : option WorkflowExecution;
  qr_query_type : string;
  qr_query_args : option Payloads;
}.

Definition input_payloads (input : option (list Payload)) : option Payloads :=
  match input with
  | Some (_ :: _ as payloads) => Some {| Payloads_payloads := payloads |}
  | _ => None
  end.

(** [uuid] is the fresh id. *)
Definition start_request (namespace uuid : string) (p : WorkflowStartParams)
  : StartWorkflowExecutionRequest :=
  {| sr_namespace := namespace; sr_workflow_id := p.(sp_workflow_id);
     sr_workflow_type := Some {| WorkflowType_name := p.(sp_workflow_type) |};
     sr_task_queue := Some {| TaskQueue_name := p.(sp_task_queue); TaskQueue_kind := 0;
                              TaskQueue_normal_name := "" |};
     sr_input := input_payloads p.(sp_input);
     sr_request_id := default uuid p.(sp_request_id);
     sr_workflow_execution_timeout := None; sr_workflow_run_timeout := None;
     sr_workflow_task_timeout := None |}.

Definition signal_request (namespace uuid : string) (p : WorkflowSignalParams)
  : SignalWorkflowExecutionRequest :=
  {| gr_namespace := default namespace p.(gp_namespace);
     gr_workflow_execution := Some {| WorkflowExecution_workflow_id := p.(gp_workflow_id);
                                      WorkflowExecution_run_id := default ""%string p.(gp_run_id) |};
     gr_signal_name := p.(gp_signal_name); gr_input := input_payloads p.(gp_input);
     gr_request_id := uuid |}.

Definition query_request (namespace : string) (p : WorkflowQueryParams) : QueryWorkflowRequest :=
  {| qr_namespace := default namespace p.(qp_namespace);
     qr_execution := Some {| WorkflowExecution_workflow_id := p.(qp_workflow_id);
                             WorkflowExecution_run_id := default ""%string p.(qp_run_id) |};
     qr_query_type := p.(qp_query_type); qr_query_args := input_payloads p.(qp_input) |}.

(** ** Answers *)
Fixpoint json_value_to_elixir_term (v : Value) : ETerm :=
  match v with
  | VNull => enil
  | VBool b => EAtom (if b then "true" else "false")
  | VNumber n => match as_i64 n with
                 | Some i => EInt i
                 | None => match as_f64 n with Some f => EFloat f | None => enil end
                 end
  | VString s => EBinary s
  | VArray arr => EList (List.map json_value_to_elixir_term arr)
  | VObject obj => EMap (List.map (fun kv => (EBinary kv.1, json_value_to_elixir_term kv.2)) obj)
  end.

(** The server rejected the query, or gave the payloads of its result. *)
Inductive QueryWorkflowResponse :=
| QueryRejected (status : Z)
| QueryResult (payloads : option (list Payload)).

Section answers.
  Context `{Native.Base64} `{Native.SerdeJson}.

Definition query_answer (converters : list Native.NativeConverter) (r : QueryWorkflowResponse)
  : outcome string ETerm :=
  match r with
  | QueryRejected status => Err ("Query rejected: " +:+ pretty status)%string
  | QueryResult (Some (first_payload :: _)) =>
      match Native.composite_from_payload converters first_payload with
      | Ok value => Ok (json_value_to_elixir_term value)
      | Err _ => Err "Failed to deserialize query result"%string
      | Panic m => Panic m
      end
  | QueryResult _ => Ok enil
  end.
End answers.

Definition start_answer (workflow_id run_id : string) : list (string * ETerm) :=
  [("run_id", EBinary run_id); ("workflow_id", EBinary workflow_id);
   ("first_execution_run_id", EBinary run_id)]%string.
End decoding.
