(* ===== verification/NativeWorker.v ===== *)
(** * The native worker (native/temporal_nif/src/worker.rs, lib.rs)

    The worker resource, which starts a core worker when it is first polled, and
    the tasks it hands to Elixir.  The core worker is an interface; its polls are
    serialised by a lock. *)
From Stdlib Require Import ZArith Lia String.
From stdpp Require Import base option list strings gmap.
From S2P Require Import Prelude TimeArith Flags Protos ActivityTasks JsonData.
From S2P Require Import NativeConverter PayloadConverters NativeClient.

(** ** Configuration *)
Record WorkerConfig := {
  wc_namespace : string;
  wc_task_queue : string;
  wc_max_cached_workflows : Z;
  wc_max_outstanding_workflow_tasks : Z;
  wc_max_outstanding_activities : Z;
  wc_max_outstanding_local_activities : Z;
  wc_no_remote_activities : bool;
  wc_sticky_queue_schedule_to_start_timeout_ms : Z;
  wc_max_heartbeat_throttle_interval_ms : Z;
  wc_default_heartbeat_throttle_interval_ms : Z;
}.

(** What a core worker is given of it. *)
Record CoreWorkerConfig := {
  cw_namespace : string;
  cw_task_queue : string;
  cw_max_outstanding_workflow_tasks : Z;
  cw_max_outstanding_activities : Z;
  cw_max_outstanding_local_activities : Z;
}.

Section new.
  Context `{Rustler}.

Definition worker_config (config_map : list (string * ETerm)) : outcome string WorkerConfig :=
  namespace ← match get "namespace" config_map with
              | Some term => match decode_string term with
                             | Some ns => Ok ns
                             | None => Err "namespace must be a string"%string
                             end
              | None => Ok "default"%string
              end;
  task_queue ← required "task_queue" config_map;
  let usize k d := default d (get_uint u64_max k config_map) in
  let u32 k d := default d (get_uint u32_max k config_map) in
  Ok {| wc_namespace := namespace; wc_task_queue := task_queue;
        wc_max_cached_workflows := usize "max_cached_workflows" 0;
        wc_max_outstanding_workflow_tasks := usize "max_outstanding_workflow_tasks" 100;
        wc_max_outstanding_activities := usize "max_outstanding_activities" 100;
        wc_max_outstanding_local_activities := usize "max_outstanding_local_activities" 100;
        wc_no_remote_activities := default false (get_bool "no_remote_activities" config_map);
        wc_sticky_queue_schedule_to_start_timeout_ms :=
          u32 "sticky_queue_schedule_to_start_timeout_ms" 10000;
        wc_max_heartbeat_throttle_interval_ms := u32 "max_heartbeat_throttle_interval_ms" 60000;
        wc_default_heartbeat_throttle_interval_ms :=
          u32 "default_heartbeat_throttle_interval_ms" 5000 |}%string%Z.
End new.

(** ** The resource *)
Record WorkerResource (W : Type) := {
  wr_config : WorkerConfig;
  wr_core_worker : option W;
  wr_is_running : bool;
}.
#[global] Arguments wr_config {_}.
#[global] Arguments wr_core_worker {_}.
#[global] Arguments wr_is_running {_}.

Definition WorkerResource_new {W} (config : WorkerConfig) : outcome string (WorkerResource W) :=
  if String.eqb config.(wc_namespace) "" then Err "Namespace cannot be empty"%string
  else if String.eqb config.(wc_task_queue) "" then Err "Task queue cannot be empty"%string
  else if (config.(wc_max_outstanding_workflow_tasks) =? 0)%Z
  then Err "Max outstanding workflow tasks must be greater than 0"%string
  else if (config.(wc_max_outstanding_activities) =? 0)%Z
  then Err "Max outstanding activities must be greater than 0"%string
  else Ok {| wr_config := config; wr_core_worker := None; wr_is_running := false |}.

Definition worker_new `{Rustler} {W} (config_term : ETerm) : outcome string (WorkerResource W) :=
  match string_map config_term with
  | None => Err "Configuration must be a map"%string
  | Some m => config ← worker_config m; WorkerResource_new config
  end.

(** ** Tasks for Elixir *)
Record WorkflowTaskData := {
  wt_run_id : string;
  wt_workflow_execution : WorkflowExecution;
  wt_workflow_type : string;
  wt_started_event_id : Z;
  wt_previous_started_event_id : Z;
  wt_attempt : Z;
  wt_history_events : string;
}.

Record ActivityTaskData := {
  atd_task_token : string;
  atd_workflow_execution : WorkflowExecution;
  atd_activity_id : string;
  atd_activity_type : string;
  atd_input : string;
  atd_scheduled_time_ms : Z;
  atd_schedule_to_close_timeout_ms : Z;
  atd_start_to_close_timeout_ms : Z;
  atd_heartbeat_timeout_ms : Z;
  atd_attempt : Z;
}.

(** [i64] arithmetic of a release build. *)
Definition i64_wrap (z : Z) : Z := ((z + 9223372036854775808) mod 18446744073709551616 - 9223372036854775808)%Z.

(** [seconds * 1000 + (nanos as i64) / 1_000_000] *)
Definition to_ms (seconds nanos : Z) : Z :=
  i64_wrap (i64_wrap (seconds * 1000) + Z.quot nanos 1000000).

Definition u32_as_i32 (z : Z) : Z := if (z <=? 2147483647)%Z then z else (z - 4294967296)%Z.

Section tasks.
  Context `{Native.SerdeJson}.

Definition num (z : Z) : Value := VNumber (NumInt z).
Definition opt_num (z : option Z) : Value := from_option num VNull z.

Definition initialize_of (jobs : list WorkflowActivationJob) : option InitializeWorkflow :=
  head (omap (fun job => match job.(WorkflowActivationJob_variant) with
                         | Some (J_InitializeWorkflow i) => Some i
                         | _ => None
                         end) jobs).

Definition convert_workflow_activation (a : WorkflowActivation) : outcome string WorkflowTaskData :=
  let init := initialize_of a.(WorkflowActivation_jobs) in
  let run_id := a.(WorkflowActivation_run_id) in
  let activation_info := VObject
    [("history_length", num a.(WorkflowActivation_history_length));
     ("is_replaying", VBool a.(WorkflowActivation_is_replaying));
     ("job_count", num (Z.of_nat (List.length a.(WorkflowActivation_jobs))));
     ("run_id", VString run_id);
     ("timestamp", opt_num (Timestamp_seconds <$> a.(WorkflowActivation_timestamp)))]%string in
  match Native.to_vec activation_info with
  | None => Err "Failed to serialize activation info"%string
  | Some history_events =>
      Ok {| wt_run_id := run_id;
            wt_workflow_execution :=
              {| WorkflowExecution_workflow_id :=
                   from_option InitializeWorkflow_workflow_id "unknown"%string init;
                 WorkflowExecution_run_id := run_id |};
            wt_workflow_type := from_option InitializeWorkflow_workflow_type "unknown"%string init;
            wt_started_event_id := a.(WorkflowActivation_history_length);
            wt_previous_started_event_id := 0; wt_attempt := 1;
            wt_history_events := history_events |}
  end.

Definition convert_activity_task (t : ActivityTask) : outcome string ActivityTaskData :=
  match t.(at_variant) with
  | Some (ActivityTask_Cancel _) => Err "Received activity cancel task, not start task"%string
  | None => Err "Activity task has no variant"%string
  | Some (ActivityTask_Start start) =>
      let input_info := VObject
        [("activity_id", VString start.(act_Start_activity_id));
         ("activity_type", VString start.(act_Start_activity_type));
         ("input_size", num (Z.of_nat (List.length start.(act_Start_input))));
         ("scheduled_time", opt_num (Timestamp_seconds <$> start.(act_Start_scheduled_time)))]%string in
      let ms (d : option Duration) :=
        from_option (fun d => to_ms d.(Duration_seconds) d.(Duration_nanos)) 0%Z d in
      match Native.to_vec input_info with
      | None => Err "Failed to serialize activity input"%string
      | Some input =>
          Ok {| atd_task_token := t.(at_task_token);
                atd_workflow_execution :=
                  default {| WorkflowExecution_workflow_id := "unknown";
                             WorkflowExecution_run_id := "unknown" |}
                    start.(act_Start_workflow_execution);
                atd_activity_id := start.(act_Start_activity_id);
                atd_activity_type := start.(act_Start_activity_type); atd_input := input;
                atd_scheduled_time_ms :=
                  from_option (fun ts => to_ms ts.(Timestamp_seconds) ts.(Timestamp_nanos)) 0%Z
                    start.(act_Start_scheduled_time);
                atd_schedule_to_close_timeout_ms := ms start.(act_Start_schedule_to_close_timeout);
                atd_start_to_close_timeout_ms := ms start.(act_Start_start_to_close_timeout);
                atd_heartbeat_timeout_ms := ms start.(act_Start_heartbeat_timeout);
                atd_attempt := u32_as_i32 start.(act_Start_attempt) |}
      end
  end.

(** ** Polling

    [init_worker] is given what the builder of the configuration is, and gives a
    core worker or the message of the step that failed; a poll of it gives a task, says
    that it shuts down, fails, or takes longer than the timeout. *)
Inductive PollOutcome (A : Type) :=
| PolledTask (a : A)
| PolledShutDown
| PolledError (e : string)
| PollTimedOut.

Context {W : Type} (init_worker : CoreWorkerConfig -> outcome string W).

Definition initialize_core_worker (r : WorkerResource W) : outcome string (WorkerResource W) :=
  if r.(wr_is_running) then Ok r
  else
    match init_worker
            {| cw_namespace := r.(wr_config).(wc_namespace);
               cw_task_queue := r.(wr_config).(wc_task_queue);
               cw_max_outstanding_workflow_tasks := r.(wr_config).(wc_max_outstanding_workflow_tasks);
               cw_max_outstanding_activities := r.(wr_config).(wc_max_outstanding_activities);
               cw_max_outstanding_local_activities :=
                 r.(wr_config).(wc_max_outstanding_local_activities) |} with
    | Ok w => Ok {| wr_config := r.(wr_config); wr_core_worker := Some w; wr_is_running := true |}
    | Err e => Err e
    | Panic m => Panic m
    end.

Definition stop (r : WorkerResource W) : WorkerResource W :=
  {| wr_config := r.(wr_config); wr_core_worker := None; wr_is_running := false |}.

(** A poll of the resource, given how the core worker is polled. *)
Definition poll_task {A B} (poll : W -> PollOutcome A) (convert : A -> outcome string B)
    (wrap : string) (failed : string) (r : WorkerResource W) : outcome string (option B) :=
  if negb r.(wr_is_running) then Err "Worker is not running"%string
  else
    match r.(wr_core_worker) with
    | None => Err "SDK Core worker not initialized"%string
    | Some w =>
        match poll w with
        | PolledTask _ a =>
            match convert a with
            | Ok b => Ok (Some b)
            | Err e => Err (wrap +:+ e)%string
            | Panic m => Panic m
            end
        | PolledShutDown _ => Ok None
        | PolledError _ e => Err (failed +:+ e)%string
        | PollTimedOut _ => Err "Polling timeout"%string
        end
    end.

Definition poll_workflow_task (poll : W -> PollOutcome WorkflowActivation) :=
  poll_task poll convert_workflow_activation "Failed to convert workflow activation: "
    "SDK Core polling error: ".

Definition poll_activity_task (poll : W -> PollOutcome ActivityTask) :=
  poll_task poll convert_activity_task "Failed to convert activity task: "
    "SDK Core activity polling error: ".

Definition sanitize_polling_error (error : string) : string :=
  if contains "not running" error then "Worker not running"
  else if contains "timeout" error then "Operation timeout"
  else if contains "connection" error then "Connection error"
  else "Polling error".

(** The native function: start the worker if need be, then poll. *)
Definition worker_poll {B} (poll : WorkerResource W -> outcome string (option B))
    (r : WorkerResource W) : WorkerResource W * outcome string (option B) :=
  let finish (r : WorkerResource W) (o : outcome string (option B)) :=
    (r, match o with
        | Ok t => Ok t
        | Err e => Err (sanitize_polling_error e)
        | Panic m => Panic m
        end) in
  match initialize_core_worker r with
  | Ok r' => finish r' (poll r')
  | Err e => finish r (Err e)
  | Panic m => finish r (Panic m)
  end.

Definition worker_poll_workflow_task (poll : W -> PollOutcome WorkflowActivation) :=
  worker_poll (poll_workflow_task poll).
Definition worker_poll_activity_task (poll : W -> PollOutcome ActivityTask) :=
  worker_poll (poll_activity_task poll).
End tasks.
