(* ===== verification/NativeWorkerFacts.v ===== *)
(** * What the native worker guarantees

    Tasks handed to Elixir, and the core worker behind them. *)
From Stdlib Require Import ZArith Lia String Sorted.
From stdpp Require Import base option list strings gmap.
From S2P Require Import Prelude TimeArith Flags Protos ActivityTasks JsonData.
From S2P Require Import NativeConverter PayloadConverters ElixirClient NativeClient NativeWorker.

(** ** Times *)

(** The range of protobuf durations and timestamps, ten thousand years, without
    negative fractions. *)
Definition proto_time (seconds nanos : Z) : Prop :=
  (0 <= seconds <= 315576000000 /\ 0 <= nanos < 1000000000)%Z.

(** [ms] is the time in whole milliseconds. *)
Definition whole_ms (seconds nanos ms : Z) : Prop :=
  (ms * 1000000 <= seconds * 1000000000 + nanos < (ms + 1) * 1000000)%Z.

Lemma i64_wrap_small z : (-9223372036854775808 <= z <= 9223372036854775807)%Z -> i64_wrap z = z.
Proof. intros Hz. unfold i64_wrap. rewrite Z.mod_small; lia. Qed.

Lemma to_ms_exact s n : proto_time s n -> whole_ms s n (to_ms s n).
Proof.
  intros [Hs Hn]. unfold to_ms, whole_ms. rewrite Z.quot_div_nonneg by lia.
  pose proof (Z.div_mod n 1000000 ltac:(lia)). pose proof (Z.mod_pos_bound n 1000000 ltac:(lia)).
  rewrite (i64_wrap_small (s * 1000)) by lia. rewrite i64_wrap_small by lia. lia.
Qed.

Definition duration_ms (d : option Duration) (ms : Z) : Prop :=
  match d with
  | Some d => whole_ms d.(Duration_seconds) d.(Duration_nanos) ms
  | None => ms = 0%Z
  end.

Definition duration_valid (d : option Duration) : Prop :=
  match d with Some d => proto_time d.(Duration_seconds) d.(Duration_nanos) | None => True end.

(** ** Activity tasks *)
Section tasks.
  Context `{Native.SerdeJsonLaws}.

(** A task as core gives it, with times and sizes in range. *)
Record start_valid (s : act_Start) : Prop := {
  sv_scheduled : match s.(act_Start_scheduled_time) with
                 | Some t => proto_time t.(Timestamp_seconds) t.(Timestamp_nanos)
                 | None => True
                 end;
  sv_schedule_to_close : duration_valid s.(act_Start_schedule_to_close_timeout);
  sv_start_to_close : duration_valid s.(act_Start_start_to_close_timeout);
  sv_heartbeat : duration_valid s.(act_Start_heartbeat_timeout);
  sv_input : (Z.of_nat (length s.(act_Start_input)) <= u64_max)%Z;
  sv_attempt : (0 <= s.(act_Start_attempt) <= 2147483647)%Z;
}.

(** C39 The native worker hands over every activity that core starts: same token, same
    activity, workflow and attempt, and the scheduled time and the timeouts in whole
    milliseconds (zero when not set), without overflow.  A cancellation is not handed
    over: it is read from core and becomes an error. *)
Theorem activity_task_handed_over t :
  match t.(at_variant) with
  | Some (ActivityTask_Start s) =>
      start_valid s ->
      exists d, convert_activity_task t = Ok d /\
        d.(atd_task_token) = t.(at_task_token) /\ d.(atd_activity_id) = s.(act_Start_activity_id) /\
        d.(atd_activity_type) = s.(act_Start_activity_type) /\
        (forall w, s.(act_Start_workflow_execution) = Some w -> d.(atd_workflow_execution) = w) /\
        d.(atd_attempt) = s.(act_Start_attempt) /\
        duration_ms s.(act_Start_schedule_to_close_timeout) d.(atd_schedule_to_close_timeout_ms) /\
        duration_ms s.(act_Start_start_to_close_timeout) d.(atd_start_to_close_timeout_ms) /\
        duration_ms s.(act_Start_heartbeat_timeout) d.(atd_heartbeat_timeout_ms) /\
        match s.(act_Start_scheduled_time) with
        | Some ts => whole_ms ts.(Timestamp_seconds) ts.(Timestamp_nanos) d.(atd_scheduled_time_ms)
        | None => d.(atd_scheduled_time_ms) = 0%Z
        end
  | Some (ActivityTask_Cancel _) | None => exists e, convert_activity_task t = Err e
  end.
Proof.
  destruct t as [token [[s|c]|]]; simpl; [|by eexists..]. intros [H1 H2 H3 H4 H5 H6].
  unfold convert_activity_task. simpl.
  match goal with |- context [Native.to_vec ?i] =>
    destruct (Native.from_slice_to_vec i) as (v & -> & _) end.
  { split; [repeat constructor|]. simpl. unfold opt_num, num. split_and!; try done.
    - simpl. lia.
    - destruct (act_Start_scheduled_time s); simpl; [|done]. destruct H1. unfold u64_max. lia. }
  eexists. split; [reflexivity|]. simpl. split_and!; try done.
  - by intros w ->.
  - unfold u32_as_i32. destruct (Z.leb_spec (act_Start_attempt s) 2147483647); lia.
  - destruct (act_Start_schedule_to_close_timeout s); [by apply to_ms_exact|done].
  - destruct (act_Start_start_to_close_timeout s); [by apply to_ms_exact|done].
  - destruct (act_Start_heartbeat_timeout s); [by apply to_ms_exact|done].
  - destruct (act_Start_scheduled_time s); [by apply to_ms_exact|done].
Qed.
End tasks.

(** ** The worker behind a resource *)
Section worker.
  Context `{Rustler} `{Native.SerdeJson} {W : Type}.

(** A resource polled and stopped in any order; starting a core worker may go
    differently each time. *)
Inductive worker_reach (config_term : ETerm) : WorkerResource W -> Prop :=
| wre_new r : worker_new config_term = Ok r -> worker_reach config_term r
| wre_poll {B} init (poll : WorkerResource W -> outcome string (option B)) r :
    worker_reach config_term r -> worker_reach config_term (worker_poll init poll r).1
| wre_stop r : worker_reach config_term r -> worker_reach config_term (stop r).

Record worker_ok (r : WorkerResource W) : Prop := {
  wo_running : r.(wr_is_running) = true <-> is_Some r.(wr_core_worker);
  wo_namespace : r.(wr_config).(wc_namespace) <> ""%string;
  wo_task_queue : r.(wr_config).(wc_task_queue) <> ""%string;
  wo_workflow_tasks : r.(wr_config).(wc_max_outstanding_workflow_tasks) <> 0%Z;
  wo_activities : r.(wr_config).(wc_max_outstanding_activities) <> 0%Z;
}.

Lemma new_ok config r : WorkerResource_new config = Ok r -> worker_ok r /\ wr_config r = config.
Proof.
  unfold WorkerResource_new.
  destruct (String.eqb_spec (wc_namespace config) ""), (String.eqb_spec (wc_task_queue config) "");
    try done.
  destruct (Z.eqb_spec (wc_max_outstanding_workflow_tasks config) 0),
    (Z.eqb_spec (wc_max_outstanding_activities config) 0); try done.
  intros [= <-].
  split; [|done]. constructor; simpl; (done || by intros [??]).
Qed.

(** What [init_worker] is asked for. *)
Definition core_config (c : WorkerConfig) : CoreWorkerConfig :=
  {| cw_namespace := c.(wc_namespace); cw_task_queue := c.(wc_task_queue);
     cw_max_outstanding_workflow_tasks := c.(wc_max_outstanding_workflow_tasks);
     cw_max_outstanding_activities := c.(wc_max_outstanding_activities);
     cw_max_outstanding_local_activities := c.(wc_max_outstanding_local_activities) |}.

(** The core worker that a poll uses: the one it has, or a new one. *)
Definition polled_worker (init : CoreWorkerConfig -> outcome string W) (r : WorkerResource W)
  : outcome string W :=
  match r.(wr_core_worker) with Some w => Ok w | None => init (core_config r.(wr_config)) end.

(** The answer of a poll, given what core answers. *)
Definition poll_answer {A B} (convert : A -> outcome string B) (wrap failed : string)
    (o : PollOutcome A) : outcome string (option B) :=
  match o with
  | PolledTask _ a =>
      match convert a with
      | Ok b => Ok (Some b)
      | Err e => Err (sanitize_polling_error (wrap +:+ e))
      | Panic m => Panic m
      end
  | PolledShutDown _ => Ok None
  | PolledError _ e => Err (sanitize_polling_error (failed +:+ e))
  | PollTimedOut _ => Err "Operation timeout"%string
  end.

Lemma poll_effect {A B} init (poll : W -> PollOutcome A) (convert : A -> outcome string B) wrap failed r :
  worker_ok r ->
  worker_poll init (poll_task poll convert wrap failed) r =
  match polled_worker init r with
  | Ok w =>
      ({| wr_config := r.(wr_config); wr_core_worker := Some w; wr_is_running := true |},
       poll_answer convert wrap failed (poll w))
  | Err e => (r, Err (sanitize_polling_error e))
  | Panic m => (r, Panic m)
  end.
Proof.
  intros Hok. destruct r as [c w run]. destruct (wo_running _ Hok) as [Hr1 Hr2]. simpl in *.
  unfold worker_poll, initialize_core_worker, polled_worker. simpl.
  destruct run, w as [w|].
  - unfold poll_task, poll_answer. simpl. by destruct (poll w) as [a| | |]; [destruct (convert a)|..].
  - by destruct (Hr1 eq_refl).
  - by specialize (Hr2 (ex_intro _ w eq_refl)).
  - unfold core_config. simpl. destruct (init _) as [w| |]; simpl; [|done..].
    unfold poll_task, poll_answer. simpl. by destruct (poll w) as [a| | |]; [destruct (convert a)|..].
Qed.

Lemma worker_reach_ok config_term r :
  worker_reach config_term r ->
  worker_ok r /\ exists m, string_map config_term = Some m /\ worker_config m = Ok r.(wr_config).
Proof.
  induction 1 as [r Hn|B init poll r _ [Hok IH]|r _ [Hok IH]].
  - unfold worker_new in Hn. destruct (string_map config_term) as [m|]; [|done].
    apply outcome_bind_Ok in Hn as (c & Hc & [Hok <-]%new_ok). eauto.
  - unfold worker_poll, initialize_core_worker. destruct (wr_is_running r) eqn:Hrun; [by split|].
    destruct (init _) as [w| |]; [|by split..]. split; [|done].
    destruct Hok. by constructor.
  - split; [|done]. destruct Hok. constructor; simpl; (done || by intros [??]).
Qed.

End worker.
