(* ===== verification/ElixirFacts.v ===== *)
(** * What the Elixir client guarantees

    The process makes requests only with a connection; what lang gives as the
    input of a workflow is what the request for the server holds; which settings
    reach the connection. *)
From Stdlib Require Import ZArith Lia Ascii String.
From stdpp Require Import base option list strings gmap pretty.
From S2P Require Import Prelude Flags Protos JsonData NativeConverter.
From S2P Require Import PayloadConverters PayloadConverterFacts ElixirClient NativeClient.

(** ** The process *)
Section process.
  Context `{ElixirLibs}.

(** The states of a client, whatever the native functions answer at each call. *)
Inductive client_reach (config : list (string * ETerm)) : client_state -> Prop :=
| cr_init : client_reach config (init config)
| cr_continue nat s calls s' :
    client_reach config s -> s.(cs_status) = Disconnected ->
    handle_continue_connect nat s = (calls, s') -> client_reach config s'
| cr_call nat req s calls r s' :
    client_reach config s -> handle_call nat req s = Some (calls, r, s') -> client_reach config s'.

Definition client_ok (config : list (string * ETerm)) (s : client_state) : Prop :=
  s.(cs_config) = config /\ (s.(cs_status) = Connected <-> is_Some s.(cs_client_resource)) /\
  s.(cs_status) <> Connecting /\ (0 <= s.(cs_connect_attempts))%Z.

Definition call_resource (c : native_call) : option N :=
  match c with
  | CallConnect => None
  | CallStart r _ | CallSignal r _ | CallQuery r _ => Some r
  end.

(** What a request does: it keeps a connection, or opens one, or is refused
    because that failed. *)
Record request_ok (nat : native) (s : client_state) (calls : list native_call) (r : reply)
    (s' : client_state) : Prop := {
  ro_kept : s.(cs_status) = Connected -> s' = s /\ CallConnect ∉ calls;
  ro_resource c n : c ∈ calls -> call_resource c = Some n -> s'.(cs_client_resource) = Some n;
  ro_refused : r = ReplyNotConnected ->
    calls = [CallConnect] /\ s'.(cs_status) = ErrorStatus /\
    exists e, client_connect nat s.(cs_config) = inl e;
  ro_once : length calls <= 2;
  ro_attempts : s.(cs_status) <> Connected ->
    head calls = Some CallConnect /\
    s'.(cs_connect_attempts) = match client_connect nat s.(cs_config) with
                               | inr _ => 0%Z
                               | inl _ => (s.(cs_connect_attempts) + 1)%Z
                               end;
}.

Lemma request_effect {A} nat config s params make (call : N -> list (string * ETerm) -> sum ETerm A)
    answer calls r s' :
  client_ok config s -> (forall n p, call_resource (make n p) = Some n) ->
  (forall a, answer a <> ReplyNotConnected) ->
  request nat s params make call answer = Some (calls, r, s') ->
  client_ok config s' /\ request_ok nat s calls r s'.
Proof.
  intros (Hc & Hs & Hn & Ha) Hmake Hans. unfold request, ensure_connected.
  case_bool_decide as Hst.
  - rewrite Hst. destruct (proj1 Hs Hst) as [n Hr]. rewrite Hr.
    destruct params as [p|]; simpl; [|done]. intros [= <- <- <-].
    split; [by split_and!|]. constructor; simpl.
    + intros _. split; [done|]. intros Hin%list_elem_of_singleton.
      specialize (Hmake n p). by rewrite <- Hin in Hmake.
    + intros c k ->%list_elem_of_singleton. rewrite Hmake. congruence.
    + case_match; [done|]. by intros ?%Hans.
    + lia.
    + done.
  - destruct (client_connect nat (cs_config s)) as [e|n] eqn:Hcon; simpl.
    + intros [= <- <- <-]. split.
      * split_and!; simpl; [done| |done|lia]. split; [done|]. intros Hr.
        by apply Hs in Hr.
      * constructor; simpl; try done; [| |lia|].
        -- intros c k ->%list_elem_of_singleton. done.
        -- intros _. eauto.
        -- by rewrite Hcon.
    + destruct params as [p|]; simpl; [|done]. intros [= <- <- <-]. split.
      * split_and!; simpl; [done| |done|lia]. split; [by eexists|done].
      * constructor; simpl; try done; [| |].
        -- intros c k [->|[->|[]%not_elem_of_nil]%elem_of_cons]%elem_of_cons; [done|].
           rewrite Hmake. congruence.
        -- case_match; [done|]. by intros ?%Hans.
        -- by rewrite Hcon.
Qed.

Lemma continue_effect nat config s calls s' :
  client_ok config s -> s.(cs_status) = Disconnected ->
  handle_continue_connect nat s = (calls, s') -> client_ok config s'.
Proof.
  intros (Hc & Hs & Hn & Ha) Hst [= <- <-]. unfold client_ok.
  destruct (client_connect _ _); simpl; split_and!; try done.
  - split; [done|]. intros Hr%Hs. congruence.
Qed.

(** What [connect] does: nothing with a connection, else it says whether one was
    opened. *)
Definition connect_ok (nat : native) (s : client_state) (calls : list native_call) (r : reply)
    (s' : client_state) : Prop :=
  match s.(cs_status), client_connect nat s.(cs_config) with
  | Connected, _ => calls = [] /\ r = ReplyOk /\ s' = s
  | _, inr n => calls = [CallConnect] /\ r = ReplyOk /\ s'.(cs_client_resource) = Some n
  | _, inl e => calls = [CallConnect] /\ r = ReplyError e /\ s'.(cs_status) = ErrorStatus
  end.

Lemma connect_effect nat config s calls r s' :
  client_ok config s -> handle_call_connect nat s = (calls, r, s') ->
  client_ok config s' /\ connect_ok nat s calls r s'.
Proof.
  intros (Hc & Hs & Hn & Ha). unfold handle_call_connect, connect_ok.
  case_bool_decide as Hst; [intros [= <- <- <-]; by rewrite Hst|].
  assert (Hr : ~ is_Some (cs_client_resource s)) by (by rewrite <- Hs).
  destruct (client_connect _ _); intros [= <- <- <-]; split;
    try (unfold client_ok; simpl; split_and!; (done || lia || idtac));
    try (by destruct (cs_status s)); by split.
Qed.

Definition params_of (req : client_request) : option (list (string * ETerm)) :=
  match req with
  | ReqConnect | ReqStatus => Some []
  | ReqStartWorkflow p => normalize_workflow_params p
  | ReqSignalWorkflow p => normalize_signal_params p
  | ReqQueryWorkflow p => normalize_query_params p
  end.

Definition call_ok (nat : native) (req : client_request) (s : client_state)
    (calls : list native_call) (r : reply) (s' : client_state) : Prop :=
  match req with
  | ReqConnect => connect_ok nat s calls r s'
  | ReqStatus => calls = [] /\ r = ReplyStatus s.(cs_status) /\ s' = s
  | _ => request_ok nat s calls r s'
  end.

Lemma call_effect nat config req s calls r s' :
  client_ok config s -> handle_call nat req s = Some (calls, r, s') ->
  client_ok config s' /\ call_ok nat req s calls r s'.
Proof.
  intros Hok. destruct req; simpl.
  - intros [= Hc]. by eapply connect_effect.
  - by intros [= <- <- <-].
  - by apply request_effect.
  - by apply request_effect.
  - by apply request_effect.
Qed.

Lemma request_crash {A} nat config s params make (call : N -> list (string * ETerm) -> sum ETerm A)
    answer :
  client_ok config s -> request nat s params make call answer = None -> params = None.
Proof.
  intros (Hc & Hs & Hn & Ha). unfold request, ensure_connected. case_bool_decide as Hst.
  - rewrite Hst. destruct (proj1 Hs Hst) as [n ->]. by destruct params.
  - by destruct (client_connect _ _), params.
Qed.

Lemma call_crash nat config req s :
  client_ok config s -> handle_call nat req s = None -> params_of req = None.
Proof. intros Hok. destruct req; simpl; try done; by eapply request_crash. Qed.

Lemma client_reach_ok config s : client_reach config s -> client_ok config s.
Proof.
  induction 1 as [|nat s calls s' _ IH Hst Hc|nat req s calls r s' _ IH Hc].
  - split_and!; simpl; (done || by intros [? ?]).
  - by eapply continue_effect.
  - by eapply call_effect.
Qed.

(** C15 However the native functions answer, a client is connected exactly when it
    holds a connection; it makes each request with the connection it holds, keeps
    that connection, opens one first (once) when it has none, counts the failures
    in a row, and answers that it is not connected only when opening one for this
    very request failed.  Only parameters that are no text crash it. *)
Theorem client_calls_connected config nat req s :
  client_reach config s ->
  client_ok config s /\
  match handle_call nat req s with
  | Some (calls, r, s') => client_reach config s' /\ client_ok config s' /\ call_ok nat req s calls r s'
  | None => params_of req = None
  end.
Proof.
  intros Hr. pose proof (client_reach_ok _ _ Hr) as Hok. split; [done|].
  destruct (handle_call nat req s) as [[[calls r] s']|] eqn:Hc.
  - destruct (call_effect _ _ _ _ _ _ _ Hok Hc). split; [|done]. by eapply cr_call.
  - by eapply call_crash.
Qed.
End process.

(** ** The input of a request *)
Section input.
  Context `{HE : ElixirLibs} `{HR : Rustler}.
  Context {HEL : ElixirLaws} {HRL : RustlerLaws}.

(** *** Decoding what the client encodes *)
Definition utf8_metadata (p : payload) : Prop :=
  Forall (fun kv => valid_utf8 kv.1 = true /\ valid_utf8 kv.2 = true) p.(metadata).

Definition native_payload (p : payload) : Payload :=
  {| Payload_metadata := list_to_map p.(metadata); Payload_data := p.(data) |}.

Lemma mapM_fmap_Some {A B C} (f : A -> B) (g : B -> option C) (h : A -> C) l :
  Forall (fun a => g (f a) = Some (h a)) l -> mapM g (f <$> l) = Some (h <$> l).
Proof. intros Hl. by apply mapM_Some, Forall2_fmap, Forall_Forall2_diag. Qed.

Lemma decode_metadata_binaries l :
  Forall (fun kv => valid_utf8 kv.1 = true /\ valid_utf8 kv.2 = true) l ->
  decode_metadata (EMap ((fun kv => (EBinary kv.1, EBinary kv.2)) <$> l)) = list_to_map l.
Proof.
  intros Hl. unfold decode_metadata.
  assert (decode_map decode_string decode_string
            (EMap ((fun kv => (EBinary kv.1, EBinary kv.2)) <$> l)) = Some l) as Hs.
  { rewrite decode_map_spec. rewrite (mapM_fmap_Some _ _ id), list_fmap_id; [done|].
    eapply Forall_impl; [exact Hl|]. intros [k v] [Hk Hv]. simpl in *.
    by rewrite !decode_string_spec, Hk, Hv. }
  rewrite Hs, !decode_map_spec. destruct l as [|[k v] l]; simpl; [done|].
  rewrite !decode_bytes_binary. cbn [mbind option_bind].
  apply Forall_cons in Hl as [[Hk _] _]. simpl in Hk. by rewrite decode_string_spec, Hk.
Qed.

Lemma payload_decodes p : utf8_metadata p -> term_to_payload (payload_term p) = Ok (native_payload p).
Proof.
  intros Hp. unfold term_to_payload, payload_term, atom_map. rewrite decode_map_spec. simpl.
  rewrite !decode_atom_spec. cbn [mbind option_bind]. unfold get, native_payload. simpl.
  rewrite decode_metadata_binaries by done. unfold decode_data. by rewrite decode_binary_spec.
Qed.

Lemma type_url_utf8 url m :
  proto_module m = true ->
  Forall (fun kv => valid_utf8 kv.1 = true /\ valid_utf8 kv.2 = true) (type_url url m).
Proof.
  intros Hm. destruct url; constructor; [|done]. split; [by apply utf8_ascii|].
  apply utf8_app; [by apply utf8_ascii|by apply utf8_module].
Qed.

(** Every payload the client makes has metadata in UTF-8. *)
Lemma to_payload_utf8 t p mode url max depth :
  chain_to_payload t (standard_chain mode url max depth) = inr p -> utf8_metadata p.
Proof.
  unfold chain_to_payload, convert_single_data, utf8_metadata. rewrite standard_chain_sorted, try_standard_chain.
  assert (forall a, ascii_only a = true -> valid_utf8 a = true) as Ha by apply utf8_ascii.
  destruct (is_atom_named "nil" t); [intros [= <-]; repeat constructor; by apply Ha|].
  unfold is_protobuf_struct.
  destruct (struct_module t) as [m|]; [destruct (proto_module m) eqn:Hm|]; cbn [mbind option_bind].
  1: destruct (proto_encode m t) as [e|] eqn:He; cbn [mbind option_bind].
  1: { unfold encode_protobuf. rewrite He.
       destruct mode; intros [= <-]; simpl; repeat constructor; try (by apply Ha);
         try (by apply utf8_module); apply Forall_app; split;
         (by apply type_url_utf8) || (repeat constructor; by apply Ha). }
  all: cbn [try_converters_for_data to_payload]; unfold binary_to_payload, json_to_payload;
       repeat case_match; intros [= <-]; simplify_eq; repeat constructor; by apply Ha.
Qed.

(** *** Parameters *)
Definition param_name (k : ETerm) : string := match k with EAtom a | EBinary a => a | _ => "" end.

(** Parameters with distinct names, in UTF-8. *)
Definition named_params (params : list (ETerm * ETerm)) : Prop :=
  NoDup ((fun kv => param_name kv.1) <$> params) /\
  Forall (fun kv => valid_utf8 (param_name kv.1) = true) params.

Definition normal_value (texts : list string) (kv : ETerm * ETerm) : option ETerm :=
  match kv.1 with
  | EAtom a => if bool_decide (a ∈ texts) then EBinary <$> to_string kv.2
               else if String.eqb a "input" then Some (convert_input kv.2) else Some kv.2
  | EBinary _ => Some kv.2
  | _ => None
  end.

Lemma normalize_params_spec texts params l :
  normalize_params texts params = Some l ->
  Forall2 (fun kv kv' => kv'.1 = param_name kv.1 /\ normal_value texts kv = Some kv'.2) params l.
Proof.
  revert l. induction params as [|[k v] params IH]; intros l; simpl; [intros [= <-]; constructor|].
  unfold normal_value. destruct k as [a| | |b| | | |]; cbn [mbind option_bind]; try done;
    destruct (normalize_params texts params) as [l'|]; cbn [mbind option_bind];
    repeat case_match; try destruct (to_string v) as [w|] eqn:Hv; cbn [mbind option_bind];
    intros [= <-]; constructor; auto; simpl; rewrite ?Hv; repeat case_match; done.
Qed.

Lemma smap_new_get {A} k (v : A) l : NoDup l.*1 -> (k, v) ∈ l -> smap_get k (smap_new l) = Some v.
Proof.
  intros Hnd Hin. rewrite smap_get_last.
  apply list_elem_of_split in Hin as (l1 & l2 & ->). rewrite fmap_app, fmap_cons in Hnd. simpl in Hnd.
  apply NoDup_app in Hnd as (_ & Hd1 & Hd2). apply NoDup_cons in Hd2 as [Hd2 _].
  rewrite filter_app, filter_cons_True by done.
  assert (forall l : list (string * A), k ∉ l.*1 -> filter (fun kv : string * A => kv.1 = k) l = []) as Hf.
  { intros l Hk. apply elem_of_nil_inv. intros [k' v'] [Hk' Hl]%list_elem_of_filter. simpl in Hk'. subst.
    apply Hk, list_elem_of_fmap. by exists (k, v'). }
  rewrite (Hf l2 Hd2), fmap_app. apply last_snoc.
Qed.

Section params.
  Context (texts : list string) (params : list (ETerm * ETerm)) (l : list (string * ETerm)).
  Hypothesis Hnamed : named_params params.
  Hypothesis Hl : normalize_params texts params = Some l.

Lemma normal_names : l.*1 = (fun kv => param_name kv.1) <$> params.
Proof using Hl.
  pose proof (normalize_params_spec _ _ _ Hl) as Hf. clear Hl Hnamed.
  induction Hf as [|? ? ? ? [H1 H2] _ IH]; [done|]. by rewrite !fmap_cons, H1, IH.
Qed.

(** The native function reads the map the client made. *)
Lemma params_decode : string_map (of_string_map (smap_new l)) = Some (smap_new l).
Proof using All.
  destruct Hnamed as [_ Hu]. unfold string_map, of_string_map. rewrite decode_map_spec.
  rewrite (mapM_fmap_Some _ _ id), list_fmap_id; [done|].
  apply smap_new_Forall.
  assert (Forall (fun k => valid_utf8 k = true) l.*1) as Hk.
  { rewrite normal_names. by apply Forall_fmap. }
  apply Forall_fmap in Hk. eapply Forall_impl; [exact Hk|]. intros [k v] Hkv. simpl in *.
  by rewrite decode_string_spec, Hkv.
Qed.

Lemma param_value a v w :
  (EAtom a, v) ∈ params -> normal_value texts (EAtom a, v) = Some w ->
  get a (smap_new l) = Some w.
Proof using All.
  intros Hin Hv. apply smap_new_get; [rewrite normal_names; apply Hnamed|].
  apply list_elem_of_lookup in Hin as [i Hi].
  pose proof (normalize_params_spec _ _ _ Hl) as Hf.
  destruct (Forall2_lookup_l _ _ _ _ _ Hf Hi) as ([k' w'] & Hi' & Hk' & Hw'). simpl in *.
  apply list_elem_of_lookup. exists i. rewrite Hi'. by simplify_eq.
Qed.

(** A field given as text. *)
Definition given (f s : string) : Prop :=
  f ∈ texts /\ valid_utf8 s = true /\ exists t, (EAtom f, t) ∈ params /\ to_string t = Some s.

Lemma given_required f s : given f s -> required f (smap_new l) = Ok s.
Proof using All.
  intros (Hf & Hu & t & Hin & Hs). unfold required.
  rewrite (param_value f t (EBinary s) Hin).
  - by rewrite decode_string_spec, Hu.
  - unfold normal_value. simpl. by rewrite bool_decide_eq_true_2, Hs.
Qed.

(** *** The input *)
Definition delivers (v : ETerm) (input : option Payloads) : Prop :=
  match chain_to_payloads (list_wrap v) default_converter_chain with
  | inr ps =>
      input = input_payloads (Some (native_payload <$> ps)) /\
      chain_from_payloads ps default_converter_chain = inr (received <$> list_wrap v)
  | inl _ => input = None
  end.

Lemma input_decodes v :
  "input"%string ∉ texts -> (EAtom "input", v) ∈ params ->
  delivers v (input_payloads (decode_input (smap_new l))).
Proof using All.
  intros Ht Hin. unfold decode_input, delivers.
  rewrite (param_value "input" v (convert_input v) Hin)
    by (unfold normal_value; simpl; by rewrite bool_decide_eq_false_2).
  cbn [mbind option_bind]. unfold convert_input. rewrite decode_list_spec.
  destruct (chain_to_payloads _ _) as [e|ps] eqn:Hps; [done|]. cbn [mbind option_bind].
  destruct (payloads_read_back _ _ false true (1024 * 1024) 32 Hps) as [Hto Hfrom].
  split; [|done]. rewrite (mapM_fmap_Some _ _ native_payload); [done|].
  clear -Hto HEL HRL. induction Hto as [|t p ts ps Hp _ IH]; constructor; [|done].
  rewrite payload_decodes; [done|]. by eapply to_payload_utf8.
Qed.
End params.


(** The same for signals and queries: the name and the workflow are those that
    were given, and the arguments those of the request, or none when one of them has
    no converter. *)
Theorem signal_and_query_delivered v id name namespace uuid :
  (forall params m,
     named_params params -> normalize_signal_params params = Some m ->
     given signal_texts params "workflow_id" id -> given signal_texts params "signal_name" name ->
     (EAtom "input", v) ∈ params ->
     exists p, signal_params (of_string_map m) = Ok p /\
       let r := signal_request namespace uuid p in
       WorkflowExecution_workflow_id <$> r.(gr_workflow_execution) = Some id /\
       r.(gr_signal_name) = name /\ delivers v r.(gr_input)) /\
  (forall params m,
     named_params params -> normalize_query_params params = Some m ->
     given query_texts params "workflow_id" id -> given query_texts params "query_type" name ->
     (EAtom "input", v) ∈ params ->
     exists p, query_params (of_string_map m) = Ok p /\
       let r := query_request namespace p in
       WorkflowExecution_workflow_id <$> r.(qr_execution) = Some id /\
       r.(qr_query_type) = name /\ delivers v r.(qr_query_args)).
Proof.
  unfold normalize_signal_params, normalize_query_params, signal_params, query_params, params_map.
  split; intros params m Hn; (destruct (normalize_params _ _) as [l|] eqn:Hl; [|done]);
    intros [= <-] Hid Hname Hv; rewrite (params_decode _ _ _ Hn Hl); cbn [mbind outcome_bind];
    rewrite (given_required _ _ _ Hn Hl _ _ Hid); cbn [mbind outcome_bind];
    rewrite (given_required _ _ _ Hn Hl _ _ Hname); cbn [mbind outcome_bind];
    (eexists; split; [done|]; split_and!; try done;
     apply (input_decodes _ _ _ Hn Hl); [by apply (bool_decide_eq_false_1 _)|done]).
Qed.
End input.

(** ** The settings of a connection *)
Section settings.
  Context `{HE : ElixirLibs} `{HT : ElixirText} `{HR : Rustler}.
  Context {HEL : ElixirLaws} {HRL : RustlerLaws}.
  Context (write_temp_pem : string -> string -> outcome string string).
  Context (url_ok : string -> bool) (read_file : string -> outcome string string).

Definition binary_key (kv : ETerm * ETerm) : bool :=
  match kv.1 with EBinary b => valid_utf8 b | _ => false end.

(** A map the native functions can read. *)
Definition readable_map (t : ETerm) : bool :=
  match t with EMap kvs => List.forallb binary_key kvs | _ => false end.

Lemma string_map_readable t : is_Some (string_map t) <-> readable_map t = true.
Proof using HRL.
  unfold string_map. rewrite decode_map_spec. destruct t as [| | | | | |kvs|]; simpl; try (by split; [intros [??]|]).
  rewrite <- not_eq_None_Some, mapM_None. rewrite List.forallb_forall. split.
  - intros Hn kv Hin%list_elem_of_In. destruct (binary_key kv) eqn:Hb; [done|]. destruct Hn.
    apply Exists_exists. exists kv. split; [done|]. rewrite decode_string_spec. unfold binary_key in Hb.
    by repeat case_match; simplify_eq.
  - intros Ha (kv & Hin%list_elem_of_In & Hk)%Exists_exists. specialize (Ha kv Hin).
    rewrite decode_string_spec in Hk. unfold binary_key in Ha. by repeat case_match; simplify_eq.
Qed.

Lemma unreadable_None t : readable_map t = false -> string_map t = None.
Proof using HRL.
  intros Hr. destruct (string_map t) as [m|] eqn:Hm; [|done].
  assert (is_Some (string_map t)) as Hs%string_map_readable by (by eexists). congruence.
Qed.

(** The defaults are merged in with atoms as keys. *)
Lemma merged_unreadable d t t' :
  d <> [] -> map_merge d t = Ok t' -> readable_map t' = false.
Proof using.
  intros Hd. destruct t as [| | | | | |kvs|]; try done. intros [= <-]. simpl.
  apply not_true_is_false. rewrite List.forallb_app, andb_true_iff. intros [Hf Hk].
  destruct d as [|[k v] d]; [done|]. cbn [List.filter fst] in Hf. case_bool_decide as Hs.
  - destruct Hs as [w Hw]. unfold atom_get in Hw. destruct (List.find _ _) as [kv|] eqn:Hfind; [|done].
    apply List.find_some in Hfind as [Hin Ha]. rewrite List.forallb_forall in Hk.
    specialize (Hk kv Hin). unfold binary_key in Hk. by destruct kv as [[] ?].
  - done.
Qed.

Definition option_host (opts : list (string * ETerm)) : ETerm :=
  or_else (or_else (or_nil (keyword_get opts "host")) (or_nil (keyword_get opts "target_url")))
    (EBinary "localhost:7233").
Definition option_namespace (opts : list (string * ETerm)) : ETerm :=
  default (EBinary "default") (keyword_get opts "namespace").

(** The configuration for the native functions, and where its fields come from. *)
Lemma build_config_Ok env opts cfg :
  build_config env opts = Ok cfg ->
  exists host namespace task_queue identity headers retries,
    to_string (option_host opts) = Some host /\
    to_string (option_namespace opts) = Some namespace /\
    readable_map retries = false /\
    cfg = to_nif_config
      {| cfg_host := EBinary (string_trim host);
         cfg_namespace := EBinary (string_downcase (string_trim namespace));
         cfg_task_queue := task_queue; cfg_tls := or_nil (keyword_get opts "tls");
         cfg_retries := retries; cfg_identity := identity; cfg_headers := headers;
         cfg_payload_converter := PCS_Default; cfg_payload_converter_options := no_options |}.
Proof using.
  unfold build_config, opts_to_cfg. unfold text at 1 2 3.
  change (or_else _ (EBinary "localhost:7233")) with (option_host opts).
  change (default (EBinary "default") (keyword_get opts "namespace")) with (option_namespace opts).
  destruct (to_string (option_host opts)) as [host|]; [|done]. cbn [mbind outcome_bind].
  destruct (to_string (option_namespace opts)) as [namespace|]; [|done]. cbn [mbind outcome_bind].
  destruct (to_string (default _ _)) as [queue|]; [|done]. cbn [mbind outcome_bind].
  unfold struct_merge, validate, normalize. cbn [cfg_host cfg_namespace cfg_task_queue cfg_identity text to_string mbind outcome_bind].
  destruct (if truthy _ then _ else _) as [identity| |]; cbn [mbind outcome_bind]; try done.
  cbn [cfg_retries cfg_tls cfg_headers cfg_payload_converter cfg_payload_converter_options].
  destruct (map_merge _ _) as [retries| |] eqn:Hm; cbn [mbind outcome_bind]; try done.
  destruct (_ ++ _) as [|? ?]; [|done]. intros [= <-]. do 6 eexists.
  split; [done|]. split; [done|]. split; [|done].
  by eapply merged_unreadable; [|exact Hm].
Qed.

Lemma nif_config_reads c : string_map (of_string_map (to_nif_config c)) = Some (to_nif_config c).
Proof using HEL HRL.
  unfold string_map, of_string_map. rewrite decode_map_spec.
  rewrite (mapM_fmap_Some _ _ id), list_fmap_id; [done|].
  repeat constructor; simpl; rewrite decode_string_spec; cbn [fst]; by rewrite utf8_ascii.
Qed.

(** TLS files are read for a map with strings as keys only. *)
Lemma parse_tls_unreadable c :
  readable_map c.(cfg_tls) = false -> parse_tls_config write_temp_pem (to_nif_config c) = Ok None.
Proof using HRL. intros Hr. unfold parse_tls_config. simpl. by rewrite unreadable_None. Qed.

Lemma parse_tls_readable c tls :
  readable_map c.(cfg_tls) = true -> parse_tls_config write_temp_pem (to_nif_config c) = Ok tls ->
  is_Some tls.
Proof using HRL.
  intros [m Hm]%string_map_readable. unfold parse_tls_config. simpl. rewrite Hm. intros Ht.
  by repeat (apply outcome_bind_Ok in Ht as (? & _ & Ht)); simplify_eq.
Qed.

Lemma required_inv k m s : required k m = Ok s -> get k m = Some (EBinary s).
Proof using HRL.
  unfold required. destruct (get k m) as [t|]; [|done]. rewrite decode_string_spec.
  destruct t; try done. destruct (valid_utf8 _); [by intros [= <-]|done].
Qed.

Lemma connect_args_inv c url namespace converters o :
  client_connect_args write_temp_pem (of_string_map (to_nif_config c))
    = Ok (url, namespace, converters, o) ->
  c.(cfg_host) = EBinary url /\ c.(cfg_namespace) = EBinary namespace /\
  converters = parse_converters (to_nif_config c) /\
  o.(co_retries) = parse_retries (to_nif_config c) /\
  parse_tls_config write_temp_pem (to_nif_config c) = Ok o.(co_tls).
Proof using HEL HRL.
  unfold client_connect_args. rewrite nif_config_reads. intros Ho.
  apply outcome_bind_Ok in Ho as (u & Hu%required_inv & Ho).
  apply outcome_bind_Ok in Ho as (n & Hn%required_inv & Ho).
  apply outcome_bind_Ok in Ho as (tls & Ht & Ho). injection Ho as <- <- <- <-.
  injection Hu as Hu. injection Hn as Hn. done.
Qed.

Lemma connect_inv url o conn :
  connect url_ok read_file url o = Ok conn ->
  conn.(cn_url) = (if o.(co_tls) is Some _ then "https" else "http") +:+ "://" +:+ url /\
  (o.(co_retries) = None -> conn.(cn_retry) = None) /\
  (o.(co_tls) = None -> conn.(cn_ca_cert) = None /\ conn.(cn_client_tls) = None).
Proof using.
  unfold connect. case_match; [done|]. intros Hc.
  apply outcome_bind_Ok in Hc as ([ca client] & Htls & Hc). injection Hc as <-. simpl.
  split; [done|]. split; [by intros ->|]. intros Hn. rewrite Hn in Htls. by simplify_eq.
Qed.

(** C40 What a client asks of the connection depends on its options, never on the
    environment: the host, without spaces around it, and the namespace, in lower case, are
    those of the options.  The retry settings and the converter settings never arrive.  TLS is
    used exactly when the option is a map with strings as keys; with atoms as keys, as
    the documentation has them, the connection is not encrypted. *)
Theorem connection_settings env opts cfg conn namespace converters :
  build_config env opts = Ok cfg ->
  client_connect_opens write_temp_pem url_ok read_file (of_string_map cfg)
    = Ok (conn, namespace, converters) ->
  let tls := readable_map (or_nil (keyword_get opts "tls")) in
  (forall env', build_config env' opts = Ok cfg) /\
  (exists h, to_string (option_host opts) = Some h /\
     conn.(cn_url) = (if tls then "https" else "http") +:+ "://" +:+ string_trim h) /\
  string_downcase ∘ string_trim <$> to_string (option_namespace opts) = Some namespace /\
  conn.(cn_retry) = None /\ converters = Native.CompositeConverter_default /\
  (tls = false -> conn.(cn_ca_cert) = None /\ conn.(cn_client_tls) = None).
Proof using HEL HRL.
  intros Hb Ho tls. split; [by intros env'|].
  destruct (build_config_Ok _ _ _ Hb) as (h & ns & q & i & hd & r & Hh & Hns & Hr & ->). clear Hb.
  set (c := {| cfg_host := _ |}) in Ho.
  apply outcome_bind_Ok in Ho as ([[[u n] cs] o] & Ha & Ho).
  apply outcome_bind_Ok in Ho as (conn' & Hc & Ho). injection Ho as -> -> ->.
  apply connect_args_inv in Ha as (Hu & Hn & -> & Hre & Ht). injection Hu as <-. injection Hn as <-.
  apply connect_inv in Hc as (-> & Hretry & Hnone).
  assert ((if co_tls o is Some _ then true else false) = tls) as Hdec.
  { destruct tls eqn:Htls; [by destruct (parse_tls_readable c _ Htls Ht) as [? ->]|].
    rewrite (parse_tls_unreadable c Htls) in Ht. by injection Ht as <-. }
  split; [|split; [|split; [|split]]].
  - exists h. split; [done|]. rewrite <- Hdec. by destruct (co_tls o).
  - by rewrite Hns.
  - apply Hretry. rewrite Hre. unfold parse_retries. simpl. by rewrite unreadable_None.
  - unfold parse_converters. simpl. by rewrite decode_list_spec.
  - intros Hf. apply Hnone. rewrite Hf in Hdec. by destruct (co_tls o).
Qed.
End settings.

(** ** Query results *)

(** A binary that the Elixir converters would read back as it was sent reaches the
    caller of a query as base64 text instead: the native converters hold bytes as
    base64, and nothing decodes it on the way to Elixir. *)
Theorem query_binary_result_encoded `{ElixirLibs} `{Native.Base64} `{Native.SerdeJson} b :
  (byte_size b <= 1024 * 1024)%Z ->
  exists p,
    chain_to_payload (EBinary b) default_converter_chain = inr p /\
    chain_from_payload p default_converter_chain = inr (EBinary b) /\
    query_answer Native.CompositeConverter_default (QueryResult (Some [native_payload p]))
      = Ok (EBinary (Native.b64_encode b)).
Proof.
  intros Hb. exists {| data := b; metadata := [("encoding", "binary/plain")]%string |}.
  split; [|by split]. unfold chain_to_payload, convert_single_data.
  change (sort_converters_by_priority _) with default_converter_chain. simpl.
  by rewrite (proj2 (Z.leb_le _ _) Hb).
Qed.
