(* ===== verification/ElixirExamples.v ===== *)
(** * The Elixir client and the native functions on concrete data

    Instances of the interfaces, with the laws they promise, and the theorems at
    concrete inputs.  JSON text is stood for by a coding of values as strings of
    binary digits, base64 by a prefix; UTF-8 by ASCII. *)
From Stdlib Require Import ZArith Lia SpecFloat Ascii String Sorted.
From stdpp Require Import base option list strings gmap countable.
From S2P Require Import Prelude TimeArith Flags Protos ActivityTasks JsonData NativeConverter.
From S2P Require Import PayloadConverters PayloadConverterFacts ElixirClient NativeClient.
From S2P Require Import NativeWorker NativeWorkerFacts ElixirFacts.

Module ElixirExample.

(** ** A coding of countable data as strings *)
Fixpoint pos_string (p : positive) : string :=
  match p with
  | xH => ""
  | xO p => String "0"%char (pos_string p)
  | xI p => String "1"%char (pos_string p)
  end.

Fixpoint string_pos (s : string) : positive :=
  match s with
  | EmptyString => xH
  | String c s => if Ascii.eqb c "0"%char then xO (string_pos s) else xI (string_pos s)
  end.

Lemma string_pos_string p : string_pos (pos_string p) = p.
Proof. induction p as [p IH|p IH|]; simpl; by rewrite ?IH. Qed.

Definition code `{Countable A} (a : A) : string := pos_string (encode a).
Definition uncode `{Countable A} (s : string) : option A := decode (string_pos s).

Lemma uncode_code `{Countable A} (a : A) : uncode (code a) = Some a.
Proof. unfold uncode, code. by rewrite string_pos_string, decode_encode. Qed.

#[export] Instance spec_float_eq_dec : EqDecision spec_float.
Proof. solve_decision. Defined.
#[export] Instance spec_float_countable : Countable spec_float.
Proof.
  refine (inj_countable'
    (fun f => match f with
              | S754_zero s => inl (inl s) | S754_infinity s => inl (inr s)
              | S754_nan => inr None | S754_finite s m e => inr (Some (s, m, e))
              end)
    (fun x => match x with
              | inl (inl s) => S754_zero s | inl (inr s) => S754_infinity s
              | inr None => S754_nan | inr (Some (s, m, e)) => S754_finite s m e
              end) _); by intros [].
Defined.

(** *** Values *)
Definition value_leaf : Type := bool + Z + spec_float + string.

Fixpoint value_tree (v : Value) : gen_tree value_leaf :=
  match v with
  | VNull => GenNode 0 []
  | VBool b => GenLeaf (inl (inl (inl b)))
  | VNumber (NumInt z) => GenLeaf (inl (inl (inr z)))
  | VNumber (NumFloat f) => GenLeaf (inl (inr f))
  | VString s => GenLeaf (inr s)
  | VArray l => GenNode 1 (List.map value_tree l)
  | VObject kvs => GenNode 2 (List.map (fun kv => GenNode 3 [GenLeaf (inr kv.1); value_tree kv.2]) kvs)
  end.

Fixpoint tree_value (t : gen_tree value_leaf) : Value :=
  match t with
  | GenLeaf (inl (inl (inl b))) => VBool b
  | GenLeaf (inl (inl (inr z))) => VNumber (NumInt z)
  | GenLeaf (inl (inr f)) => VNumber (NumFloat f)
  | GenLeaf (inr s) => VString s
  | GenNode 1 l => VArray (List.map tree_value l)
  | GenNode 2 l =>
      VObject (List.map (fun t => match t with
                                  | GenNode _ [GenLeaf (inr k); v] => (k, tree_value v)
                                  | _ => ("", VNull)
                                  end) l)
  | _ => VNull
  end.

Lemma tree_value_tree v : tree_value (value_tree v) = v.
Proof.
  induction v as [|b|[z|f]|s|l IH|kvs IH] using Value_ind; simpl; try done; f_equal.
  - induction IH as [|v l Hv _ IH]; simpl; [done|]. by rewrite Hv, IH.
  - induction IH as [|[k v] l Hv _ IH]; simpl in *; [done|]. by rewrite Hv, IH.
Qed.

(** *** Terms *)
Definition term_leaf : Type := string + Z + spec_float + string + N.

Fixpoint term_tree (t : ETerm) : gen_tree term_leaf :=
  match t with
  | EAtom a => GenLeaf (inl (inl (inl (inl a))))
  | EInt z => GenLeaf (inl (inl (inl (inr z))))
  | EFloat f => GenLeaf (inl (inl (inr f)))
  | EBinary b => GenLeaf (inl (inr b))
  | EOpaque n => GenLeaf (inr n)
  | EList l => GenNode 0 (List.map term_tree l)
  | ETuple l => GenNode 1 (List.map term_tree l)
  | EMap kvs => GenNode 2 (List.map (fun kv => GenNode 3 [term_tree kv.1; term_tree kv.2]) kvs)
  end.

Fixpoint tree_term (t : gen_tree term_leaf) : ETerm :=
  match t with
  | GenLeaf (inl (inl (inl (inl a)))) => EAtom a
  | GenLeaf (inl (inl (inl (inr z)))) => EInt z
  | GenLeaf (inl (inl (inr f))) => EFloat f
  | GenLeaf (inl (inr b)) => EBinary b
  | GenLeaf (inr n) => EOpaque n
  | GenNode 0 l => EList (List.map tree_term l)
  | GenNode 1 l => ETuple (List.map tree_term l)
  | GenNode _ l =>
      EMap (List.map (fun t => match t with
                               | GenNode _ [k; v] => (tree_term k, tree_term v)
                               | _ => (enil, enil)
                               end) l)
  end.

Lemma tree_term_tree t : tree_term (term_tree t) = t.
Proof.
  induction t as [a|z|f|b|l IH|l IH|kvs IH|n] using ETerm_ind; simpl; try done; f_equal.
  1,2: induction IH as [|v l Hv _ IH]; simpl; [done|]; by rewrite Hv, IH.
  induction IH as [|[k v] l [Hk Hv] _ IH]; simpl in *; [done|]. by rewrite Hk, Hv, IH.
Qed.

(** ** Instances *)
Definition prefix_encode (b : string) : string := String "="%char b.
Definition prefix_decode (s : string) : option string :=
  match s with String c b => if Ascii.eqb c "="%char then Some b else None | EmptyString => None end.

#[export] Instance base64 : Native.Base64 :=
  {| Native.b64_encode := prefix_encode; Native.b64_decode := prefix_decode |}.
#[export] Instance base64_laws : Native.Base64Laws.
Proof.
  constructor; [done|]. intros [|c s] b; simpl; [done|].
  destruct (Ascii.eqb_spec c "="%char); [by intros [= ->]; subst|done].
Qed.

#[export] Instance serde_json : Native.SerdeJson :=
  {| Native.to_vec := fun v => Some (code (value_tree v));
     Native.from_slice := fun s => match uncode s with
                                   | Some t => inr (tree_value t)
                                   | None => inl "expected value"%string
                                   end;
     Native.float_exact := fun _ => True |}.
#[export] Instance serde_json_laws : Native.SerdeJsonLaws.
Proof.
  intros v _. exists (code (value_tree v)). split; [done|].
  unfold Native.from_slice, serde_json. by rewrite uncode_code, tree_value_tree.
Qed.

Definition message_module : string := "Elixir.Greeting".

#[export] Instance elixir_libs : ElixirLibs :=
  {| float_to_string := fun f => code f;
     list_to_string := fun _ => None; map_to_string := fun _ => None;
     proto_module := String.eqb message_module;
     proto_encode := fun _ t => Some (code (term_tree t));
     proto_decode := fun _ s => tree_term <$> uncode s;
     existing_atom := String.eqb message_module;
     base64_encode := prefix_encode; base64_decode := prefix_decode;
     valid_utf8 := ascii_only;
     jason_encode := fun t => Some (code (term_tree t));
     jason_decode := fun s => tree_term <$> uncode s |}.

Lemma ascii_only_app a b :
  ascii_only a = true -> ascii_only b = true -> ascii_only (a +:+ b) = true.
Proof.
  induction a as [|c a IH]; simpl; [done|]. rewrite !andb_true_iff. intros [Hc Ha] Hb. auto.
Qed.

#[export] Instance elixir_laws : ElixirLaws.
Proof.
  constructor; unfold valid_utf8, proto_module, jason_encode, jason_decode, proto_encode, proto_decode,
    existing_atom, elixir_libs; try done.
  - apply ascii_only_app.
  - by intros m <-%String.eqb_eq.
  - intros t s _ [= <-]. by rewrite uncode_code; cbn [fmap option_fmap option_map]; rewrite tree_term_tree.
  - intros m t s _ _ [= <-]. by rewrite uncode_code; cbn [fmap option_fmap option_map]; rewrite tree_term_tree.
  - by intros m <-%String.eqb_eq.
Qed.

#[export] Instance elixir_text : ElixirText :=
  {| string_trim := id; string_downcase := id; integer_parse := fun _ => None;
     read_regular_file := fun _ => None |}.

Definition byte_of (t : ETerm) : option ascii :=
  match t with
  | EInt z => if (0 <=? z)%Z && (z <? 256)%Z then Some (ascii_of_N (Z.to_N z)) else None
  | _ => None
  end.

#[export] Instance rustler : Rustler :=
  {| decode_string := fun t => match t with
                               | EBinary b => if ascii_only b then Some b else None
                               | _ => None
                               end;
     decode_binary := fun t => match t with EBinary b => Some b | _ => None end;
     decode_bytes := fun t => match t with
                              | EList l => String.string_of_list_ascii <$> mapM byte_of l
                              | _ => None
                              end;
     decode_atom := fun t => match t with EAtom a => Some a | _ => None end;
     decode_bool := fun t => match t with
                             | EAtom a => if String.eqb a "true" then Some true
                                          else if String.eqb a "false" then Some false else None
                             | _ => None
                             end;
     decode_uint := fun max t => match t with
                                 | EInt z => if (0 <=? z)%Z && (z <=? max)%Z then Some z else None
                                 | _ => None
                                 end;
     decode_list := fun t => match t with EList l => Some l | _ => None end;
     decode_map := fun K V dk dv t =>
       match t with
       | EMap kvs => mapM (fun kv => k ← dk kv.1; v ← dv kv.2; Some (k, v)) kvs
       | _ => None
       end;
     from_utf8_lossy := id |}.
#[export] Instance rustler_laws : RustlerLaws.
Proof. by constructor. Qed.

(** ** The converters *)
Definition sample_value : Value :=
  VObject [("items"%string, VArray [VNumber (NumInt 3); VString "=text"; VNull])].


Definition sample_term : ETerm := EMap [(EAtom "count", EInt 3); (EAtom "ok", EAtom "true")].

Lemma elixir_payload_roundtrip_witness :
  exists p, chain_to_payload sample_term default_converter_chain = inr p /\
    chain_from_payload p default_converter_chain
      = inr (EMap [(EBinary "count", EInt 3); (EBinary "ok", EAtom "true")]).
Proof.
  destruct (elixir_payload_roundtrip sample_term false true (1024 * 1024) 32) as (Hback & _ & _).
  eexists. split; [reflexivity|]. apply Hback. reflexivity.
Defined.

Lemma elixir_payloads_in_order_witness :
  (exists ps, chain_to_payloads [EInt 1; enil; sample_term] default_converter_chain = inr ps /\
     chain_from_payloads ps default_converter_chain = inr (received <$> [EInt 1; enil; sample_term])) /\
  chain_to_payloads [EInt 1; ETuple []; ETuple [EInt 2]] default_converter_chain
    = inl (NoConverterFoundFor (ETuple [])).
Proof.
  split; [|reflexivity].
  destruct (elixir_payloads_in_order [EInt 1; enil; sample_term] false true (1024 * 1024) 32)
    as [_ Hback].
  eexists. split; [reflexivity|exact Hback].
Defined.

(** ** The client *)
Definition down : native :=
  {| client_connect := fun _ => inl (EAtom "unavailable");
     client_start_workflow := fun _ _ => inl enil; client_signal_workflow := fun _ _ => inl enil;
     client_query_workflow := fun _ _ => inl enil |}.
Definition up : native :=
  {| client_connect := fun _ => inr 7%N;
     client_start_workflow := fun _ _ => inr (start_answer "w" "r");
     client_signal_workflow := fun _ _ => inr tt; client_query_workflow := fun _ _ => inr (EInt 1) |}.

Definition after_failure : client_state := failed 1 (init []).
Definition query_status : client_request := ReqQueryWorkflow [(EAtom "workflow_id", EBinary "w")].

(** A request that finds the server down, and one after it that connects. *)
Lemma client_calls_connected_witness :
  handle_call down query_status (init []) = Some ([CallConnect], ReplyNotConnected, after_failure) /\
  match handle_call up query_status after_failure with
  | Some (calls, r, s') => client_reach [] s' /\ client_ok [] s' /\
      calls = [CallConnect; CallQuery 7 [("workflow_id"%string, EBinary "w")]] /\
      r = ReplyResult (EInt 1) /\ request_ok up after_failure calls r s'
  | None => False
  end.
Proof.
  assert (handle_call down query_status (init []) = Some ([CallConnect], ReplyNotConnected, after_failure))
    as Hf by reflexivity.
  split; [exact Hf|].
  destruct (client_calls_connected [] up query_status after_failure
              (cr_call _ _ _ _ _ _ _ (cr_init _) Hf)) as [_ Hc].
  destruct Hc as (Hr & Hok & Hreq). simpl. split; [exact Hr|]. split; [exact Hok|].
  split; [reflexivity|]. split; [reflexivity|exact Hreq].
Defined.

(** ** Requests *)
Definition start_call (v : ETerm) : list (ETerm * ETerm) :=
  [(EAtom "input", v); (EAtom "task_queue", EBinary "q"); (EAtom "workflow_id", EAtom "w");
   (EAtom "workflow_type", EBinary "T")].

Lemma given_in texts params f s t :
  bool_decide (f ∈ texts) = true -> ascii_only s = true -> (EAtom f, t) ∈ params ->
  to_string t = Some s -> given texts params f s.
Proof. intros Hf Hs Hin Ht. split; [by apply bool_decide_eq_true_1 in Hf|]. split; [done|]. by exists t. Qed.

Ltac find_given t := apply (given_in _ _ _ _ t); [reflexivity|reflexivity|set_solver|reflexivity].

Lemma named_check params :
  bool_decide (NoDup ((fun kv => param_name kv.1) <$> params)) = true ->
  List.forallb (fun kv => ascii_only (param_name kv.1)) params = true -> named_params params.
Proof.
  intros Hd%bool_decide_eq_true_1 Hu. split; [done|]. rewrite List.forallb_forall in Hu.
  apply Forall_forall. intros kv Hin. by apply (Hu kv).
Qed.

Definition signal_call (field : string) (v : ETerm) : list (ETerm * ETerm) :=
  [(EAtom "input", v); (EAtom field, EBinary "go"); (EAtom "workflow_id", EBinary "w")].

Lemma signal_and_query_delivered_witness :
  (exists m p, normalize_signal_params (signal_call "signal_name" (EInt 1)) = Some m /\
     signal_params (of_string_map m) = Ok p /\
     delivers (EInt 1) (gr_input (signal_request "default" "u" p))) /\
  (exists m p, normalize_query_params (signal_call "query_type" (EInt 1)) = Some m /\
     query_params (of_string_map m) = Ok p /\
     delivers (EInt 1) (qr_query_args (query_request "default" p))).
Proof.
  destruct (signal_and_query_delivered (EInt 1) "w" "go" "default" "u") as [Hs Hq]. split.
  - destruct (Hs (signal_call "signal_name" (EInt 1)) _
                (named_check (signal_call "signal_name" (EInt 1)) eq_refl eq_refl) eq_refl)
      as (p & Hp & _ & _ & Hd).
    1: find_given (EBinary "w"). 1: find_given (EBinary "go").
    + set_solver.
    + do 2 eexists. split; [reflexivity|]. split; [exact Hp|exact Hd].
  - destruct (Hq (signal_call "query_type" (EInt 1)) _
                (named_check (signal_call "query_type" (EInt 1)) eq_refl eq_refl) eq_refl)
      as (p & Hp & _ & _ & Hd).
    1: find_given (EBinary "w"). 1: find_given (EBinary "go").
    + set_solver.
    + do 2 eexists. split; [reflexivity|]. split; [exact Hp|exact Hd].
Defined.

(** ** Settings *)
Definition tls_opts : list (string * ETerm) :=
  [("host", EBinary "prod:7233"); ("namespace", EBinary "Prod");
   ("tls", EMap [(EAtom "ca_cert", EBinary "pem"); (EAtom "insecure_skip_verify", EAtom "false")])]%string.

Definition tls_env : list (string * string) := [("TEMPORAL_HOST", "elsewhere:7233")]%string.
Definition tls_connects : ETerm -> outcome string (Connection * string * list Native.NativeConverter) :=
  client_connect_opens (fun _ _ => Err "no space"%string) (fun _ => true)
    (fun _ => Err "no file"%string).

Definition tls_cfg : list (string * ETerm) :=
  match build_config tls_env tls_opts with Ok cfg => cfg | _ => [] end.

Lemma connection_settings_witness :
  build_config tls_env tls_opts = Ok tls_cfg /\
  exists conn namespace converters,
    tls_connects (of_string_map tls_cfg) = Ok (conn, namespace, converters) /\
    conn.(cn_url) = "http://prod:7233"%string /\ conn.(cn_ca_cert) = None.
Proof.
  assert (build_config tls_env tls_opts = Ok tls_cfg) as Hb by (vm_compute; reflexivity).
  split; [exact Hb|].
  destruct (tls_connects (of_string_map tls_cfg)) as [[[conn namespace] converters]|e|m] eqn:Hc.
  2,3: vm_compute in Hc; discriminate Hc.
  destruct (connection_settings (fun _ _ => Err "no space"%string) (fun _ => true)
              (fun _ => Err "no file"%string) tls_env tls_opts tls_cfg conn namespace converters Hb Hc)
    as (_ & (h & Hh & Hurl) & _ & _ & _ & Hno).
  injection Hh as <-. exists conn, namespace, converters. split; [reflexivity|].
  split; [exact Hurl|]. destruct (Hno eq_refl) as [Hca _]. exact Hca.
Defined.

Lemma query_binary_result_encoded_witness :
  exists p, chain_from_payload p default_converter_chain = inr (EBinary "bytes") /\
    query_answer Native.CompositeConverter_default (QueryResult (Some [native_payload p]))
      = Ok (EBinary "=bytes").
Proof.
  destruct (query_binary_result_encoded "bytes") as (p & _ & H1 & H2); [vm_compute; congruence|].
  exists p. split; [exact H1|exact H2].
Defined.

(** ** The worker *)
Definition sample_start : act_Start :=
  {| act_Start_workflow_namespace := "default"; act_Start_workflow_type := "T";
     act_Start_workflow_execution := Some {| WorkflowExecution_workflow_id := "w";
                                             WorkflowExecution_run_id := "r" |};
     act_Start_activity_id := "1"; act_Start_activity_type := "A"; act_Start_header_fields := ∅;
     act_Start_input := []; act_Start_heartbeat_details := [];
     act_Start_scheduled_time := Some {| Timestamp_seconds := 1700000000; Timestamp_nanos := 999999 |};
     act_Start_current_attempt_scheduled_time := None; act_Start_started_time := None;
     act_Start_attempt := 2;
     act_Start_schedule_to_close_timeout := None;
     act_Start_start_to_close_timeout := Some {| Duration_seconds := 1; Duration_nanos := 500000000 |};
     act_Start_heartbeat_timeout := None; act_Start_retry_policy := None;
     act_Start_priority := None; act_Start_is_local := false |}%Z.
Definition sample_task : ActivityTask :=
  {| at_task_token := "token"; at_variant := Some (ActivityTask_Start sample_start) |}.

Lemma activity_task_handed_over_witness :
  exists d, convert_activity_task sample_task = Ok d /\ d.(atd_task_token) = "token"%string /\
    whole_ms 1 500000000 d.(atd_start_to_close_timeout_ms).
Proof.
  destruct (activity_task_handed_over sample_task) as (d & Hd & Ht & _ & _ & _ & _ & _ & Hms & _).
  - constructor; simpl; unfold proto_time, duration_valid, u64_max; simpl; lia || done.
  - exists d. split; [exact Hd|]. split; [exact Ht|exact Hms].
Defined.

Definition worker_term : ETerm := EMap [(EBinary "task_queue", EBinary "q")].

End ElixirExample.
