(* ===== verification/NexusManager.v ===== *)
(** * The manager of Nexus tasks (worker/nexus.rs)

    Nexus tasks polled from the server, their timeouts, their completion and the
    end of the stream of tasks.  Metrics are left out.  The stretches of code
    between two points at which it waits are functions on the state, so that a
    sequence of them is an interleaving. *)
From Stdlib Require Import ZArith Lia SpecFloat Ascii String.
From stdpp Require Import base option list strings gmap.
From S2P Require Import Prelude TimeArith Flags Protos.

(** ** Messages *)
Record NexusLink := { NexusLink_url : string; NexusLink_type : string }.

Record NexusFailure := {
  NexusFailure_message : string;
  NexusFailure_metadata : gmap string string;
  NexusFailure_details : string;
}.

Record StartOperationRequest := {
  so_service : string;
  so_operation : string;
  so_request_id : string;
  so_callback : string;
  so_payload : option Payload;
  so_callback_header : gmap string string;
  so_links : list NexusLink;
}.

Record CancelOperationRequest := {
  xo_service : string;
  xo_operation : string;
  xo_operation_id : string;
  xo_operation_token : string;
}.

Inductive NexusRequestVariant :=
| NR_StartOperation (s : StartOperationRequest)
| NR_CancelOperation (c : CancelOperationRequest).

Record NexusRequest := {
  nr_header : gmap string string;
  nr_scheduled_time : option Timestamp;
  nr_variant : option NexusRequestVariant;
}.

Record PollNexusTaskQueueResponse := {
  pnr_task_token : string;
  pnr_request : option NexusRequest;
}.

Inductive StartOperationResponse :=
| SO_Sync (payload : option Payload) (links : list NexusLink)
| SO_Async (operation_id : string) (links : list NexusLink) (operation_token : string)
| SO_OperationError (operation_state : string) (failure : option NexusFailure).

Inductive NexusResponseVariant :=
| NV_StartOperation (r : option StartOperationResponse)
| NV_CancelOperation.

Record NexusResponse := { nresp_variant : option NexusResponseVariant }.

Record HandlerError := {
  he_error_type : string;
  he_failure : option NexusFailure;
  he_retry_behavior : Z;
}.

Inductive NexusTaskCompletion_Status :=
| NTC_Completed (c : NexusResponse)
| NTC_Error (e : HandlerError)
| NTC_AckCancel (b : bool).

Inductive NexusTaskCancelReason := NTCR_TimedOut | NTCR_WorkerShutdown.

Record CancelNexusTask := { cnt_task_token : string; cnt_reason : NexusTaskCancelReason }.

Inductive NexusTask :=
| NT_Task (t : PollNexusTaskQueueResponse)
| NT_CancelTask (c : CancelNexusTask).

(** ** The timeout header *)

(** What [char::is_whitespace] accepts, in UTF-8. *)
Definition bytes (l : list nat) : string := string_of_list_ascii (ascii_of_nat <$> l).

Definition whitespace : list string :=
  bytes <$> [[9]; [10]; [11]; [12]; [13]; [32]; [194; 133]; [194; 160]; [225; 154; 128];
             [226; 128; 128]; [226; 128; 129]; [226; 128; 130]; [226; 128; 131]; [226; 128; 132];
             [226; 128; 133]; [226; 128; 134]; [226; 128; 135]; [226; 128; 136]; [226; 128; 137];
             [226; 128; 138]; [226; 128; 168]; [226; 128; 169]; [226; 128; 175]; [226; 129; 159];
             [227; 128; 128]].

(** One round for each byte is enough. *)
Fixpoint trim_start_of (spaces : list string) (n : nat) (s : string) : string :=
  match n, List.find (fun w => String.prefix w s) spaces with
  | S n, Some w => trim_start_of spaces n
                     (String.substring (String.length w) (String.length s - String.length w) s)
  | _, _ => s
  end.

Definition string_rev (s : string) : string := string_of_list_ascii (rev (list_ascii_of_string s)).

Definition trim (s : string) : string :=
  let s := trim_start_of whitespace (String.length s) s in
  string_rev (trim_start_of (string_rev <$> whitespace) (String.length s) (string_rev s)).

Definition is_ascii_digit (c : ascii) : bool :=
  let n := nat_of_ascii c in (48 <=? n) && (n <=? 57).

Definition is_dot (c : ascii) : bool := Ascii.eqb c ".".

(** [split_at] the first character that is neither a digit nor a dot. *)
Fixpoint split_value (s : string) : string * string :=
  match s with
  | EmptyString => (EmptyString, EmptyString)
  | String c r =>
      if is_ascii_digit c || is_dot c
      then let '(v, u) := split_value r in (String c v, u)
      else (EmptyString, s)
  end.

(** [parse::<f64>] of digits and dots: the nearest double of the digits [n] with
    [k] of them after the dot. *)
Fixpoint scan_digits (s : string) (n : Z) (k : nat) (seen : bool) : option (Z * nat) :=
  match s with
  | EmptyString => Some (n, k)
  | String c r =>
      if is_dot c then if seen then None else scan_digits r n k true
      else scan_digits r (10 * n + Z.of_nat (nat_of_ascii c - 48)) (if seen then S k else k) seen
  end.

Definition f64_div : spec_float -> spec_float -> spec_float := SFdiv 53 1024.

Definition parse_f64 (s : string) : option spec_float :=
  if String.eqb s "" || String.eqb s "." then None
  else
    '(n, k) ← scan_digits s 0 0 false;
    Some (match n with
          | Zpos m => f64_div (S754_finite false m 0) (S754_finite false (Z.to_pos (10 ^ Z.of_nat k)) 0)
          | _ => S754_zero false
          end).

(** [Duration::from_secs_f64] panics, [try_from_secs_f64] fails. *)
Definition parse_request_timeout (timeout : string) : outcome string Z :=
  let '(value, unit) := split_value (trim timeout) in
  let value := match parse_f64 value with
               | Some v => Ok v
               | None => Err "invalid float literal"%string
               end in
  if String.eqb unit "m" then v ← value; from_secs (f64_mul (f64_from 60) v)
  else if String.eqb unit "s" then v ← value; from_secs v
  else if String.eqb unit "ms" then
    v ← value;
    match from_secs (E := string) (f64_div v (f64_from 1000)) with
    | Ok d => Ok d
    | Err e => Err e
    | Panic m => Err m
    end
  else Err "Invalid timeout format"%string.

(** ** State *)
Inductive RequestKind := RK_Start | RK_Cancel.
#[global] Instance RequestKind_eq_dec : EqDecision RequestKind.
Proof. solve_decision. Defined.

Record NexusInFlightTask := {
  nif_request_kind : RequestKind;
  nif_timeout_task : option N;
  nif_slot_info : string * string;
}.

Inductive NexusServerCall :=
| CompleteNexusTask (tok : string) (c : NexusResponse)
| FailNexusTask (tok : string) (e : HandlerError).

Inductive NexusGrace := NG_Idle | NG_Sleeping (deadline : Z) | NG_Done.

(** The map of outstanding tasks, the channel of cancellations, the tasks that
    sleep until a timeout, the completions that wait for the server and the calls
    made; whether the source has ended, the future of [take_until] waits for a
    notification or has ended. *)
Record NexusManager := {
  nm_outstanding : gmap string NexusInFlightTask;
  nm_cancels : list CancelNexusTask;
  nm_timers : gmap N (string * Z);
  nm_next : N;
  nm_completing : list string;
  nm_calls : list NexusServerCall;
  nm_source_done : bool;
  nm_grace : NexusGrace;
  nm_waiting : bool;
  nm_ended : bool;
  nm_poll_returned_shutdown : bool;
  nm_ever_polled : bool;
}.

Definition NexusManager_new : NexusManager :=
  {| nm_outstanding := ∅; nm_cancels := []; nm_timers := ∅; nm_next := 0; nm_completing := [];
     nm_calls := []; nm_source_done := false; nm_grace := NG_Idle; nm_waiting := false;
     nm_ended := false; nm_poll_returned_shutdown := false; nm_ever_polled := false |}.

Definition set_tasks (o : gmap string NexusInFlightTask) (t : gmap N (string * Z)) (n : N)
    (s : NexusManager) : NexusManager :=
  {| nm_outstanding := o; nm_cancels := s.(nm_cancels); nm_timers := t; nm_next := n;
     nm_completing := s.(nm_completing); nm_calls := s.(nm_calls);
     nm_source_done := s.(nm_source_done); nm_grace := s.(nm_grace); nm_waiting := s.(nm_waiting);
     nm_ended := s.(nm_ended); nm_poll_returned_shutdown := s.(nm_poll_returned_shutdown);
     nm_ever_polled := s.(nm_ever_polled) |}.

Definition set_cancels (c : list CancelNexusTask) (s : NexusManager) : NexusManager :=
  {| nm_outstanding := s.(nm_outstanding); nm_cancels := c; nm_timers := s.(nm_timers);
     nm_next := s.(nm_next); nm_completing := s.(nm_completing); nm_calls := s.(nm_calls);
     nm_source_done := s.(nm_source_done); nm_grace := s.(nm_grace); nm_waiting := s.(nm_waiting);
     nm_ended := s.(nm_ended); nm_poll_returned_shutdown := s.(nm_poll_returned_shutdown);
     nm_ever_polled := s.(nm_ever_polled) |}.

Definition set_completing (c : list string) (calls : list NexusServerCall) (s : NexusManager)
  : NexusManager :=
  {| nm_outstanding := s.(nm_outstanding); nm_cancels := s.(nm_cancels);
     nm_timers := s.(nm_timers); nm_next := s.(nm_next); nm_completing := c; nm_calls := calls;
     nm_source_done := s.(nm_source_done); nm_grace := s.(nm_grace); nm_waiting := s.(nm_waiting);
     nm_ended := s.(nm_ended); nm_poll_returned_shutdown := s.(nm_poll_returned_shutdown);
     nm_ever_polled := s.(nm_ever_polled) |}.

Definition set_end (d : bool) (g : NexusGrace) (w e : bool) (s : NexusManager) : NexusManager :=
  {| nm_outstanding := s.(nm_outstanding); nm_cancels := s.(nm_cancels);
     nm_timers := s.(nm_timers); nm_next := s.(nm_next); nm_completing := s.(nm_completing);
     nm_calls := s.(nm_calls); nm_source_done := d; nm_grace := g; nm_waiting := w; nm_ended := e;
     nm_poll_returned_shutdown := s.(nm_poll_returned_shutdown);
     nm_ever_polled := s.(nm_ever_polled) |}.

Definition set_polled (r : bool) (s : NexusManager) : NexusManager :=
  {| nm_outstanding := s.(nm_outstanding); nm_cancels := s.(nm_cancels);
     nm_timers := s.(nm_timers); nm_next := s.(nm_next); nm_completing := s.(nm_completing);
     nm_calls := s.(nm_calls); nm_source_done := s.(nm_source_done); nm_grace := s.(nm_grace);
     nm_waiting := s.(nm_waiting); nm_ended := s.(nm_ended);
     nm_poll_returned_shutdown := s.(nm_poll_returned_shutdown) || r; nm_ever_polled := true |}.

(** [notify_waiters] wakes the future that waits, if it does. *)
Definition notify_waiters (s : NexusManager) : NexusManager :=
  set_end s.(nm_source_done) s.(nm_grace) false s.(nm_ended) s.

(** ** The stream of tasks *)
Definition REQUEST_TIMEOUT_HEADER : string := "Request-Timeout".

Definition request_info (t : PollNexusTaskQueueResponse) : string * string * RequestKind :=
  match r ← t.(pnr_request); r.(nr_variant) with
  | Some (NR_StartOperation s) => (s.(so_service), s.(so_operation), RK_Start)
  | Some (NR_CancelOperation c) => (c.(xo_service), c.(xo_operation), RK_Cancel)
  | None => (""%string, ""%string, RK_Start)
  end.

(** The timeout of a task, if its header has one that can be read. *)
Definition request_timeout (t : PollNexusTaskQueueResponse) : outcome Empty_set (option Z) :=
  match r ← t.(pnr_request); r.(nr_header) !! REQUEST_TIMEOUT_HEADER with
  | None => Ok None
  | Some timeout_str =>
      match parse_request_timeout timeout_str with
      | Ok d => Ok (Some d)
      | Err _ => Ok None
      | Panic m => Panic m
      end
  end.

Definition poll_task (now : Z) (t : PollNexusTaskQueueResponse) (s : NexusManager)
  : outcome Empty_set (NexusManager * NexusTask) :=
  timeout_dur ← request_timeout t;
  let '(service, operation, request_kind) := request_info t in
  let tok := t.(pnr_task_token) in
  let timeout_task := (fun _ => s.(nm_next)) <$> timeout_dur in
  let timers := from_option (fun d => <[s.(nm_next) := (tok, (now + d)%Z)]> s.(nm_timers))
                  s.(nm_timers) timeout_dur in
  Ok (set_tasks
        (<[tok := {| nif_request_kind := request_kind; nif_timeout_task := timeout_task;
                     nif_slot_info := (service, operation) |}]> s.(nm_outstanding))
        timers (s.(nm_next) + 1)%N s, NT_Task t).

Inductive TaskStreamInput :=
| TSI_Poll (r : sum Z PollNexusTaskQueueResponse)
| TSI_SourceComplete.

Inductive nexus_poll :=
| NexusTaskPolled (t : NexusTask)
| NexusError (code : Z)
| NexusShutDown.

(** What [next_nexus_task] does with what there is: cancellations are taken
    first.  [None] in place of the result is an item that is filtered out, and
    no result that the poll waits. *)
Definition next_nexus_task (now : Z) (input : option TaskStreamInput) (s : NexusManager)
  : option (outcome Empty_set (NexusManager * option nexus_poll)) :=
  if s.(nm_ended) then Some (Ok (set_polled true s, Some NexusShutDown))
  else
    let s := set_polled false s in
    match s.(nm_cancels) with
    | c :: rest => Some (Ok (set_cancels rest s, Some (NexusTaskPolled (NT_CancelTask c))))
    | [] =>
        if s.(nm_source_done) then None
        else
          input ← input;
          Some match input with
               | TSI_Poll (inr t) => '(s, t) ← poll_task now t s; Ok (s, Some (NexusTaskPolled t))
               | TSI_Poll (inl code) => Ok (s, Some (NexusError code))
               | TSI_SourceComplete => Ok (set_end true s.(nm_grace) s.(nm_waiting) s.(nm_ended) s, None)
               end
    end.

Definition timeout_elapsed (now : Z) (h : N) (s : NexusManager) : option NexusManager :=
  '(tok, deadline) ← s.(nm_timers) !! h;
  if (deadline <=? now)%Z
  then Some (set_cancels (s.(nm_cancels) ++ [{| cnt_task_token := tok; cnt_reason := NTCR_TimedOut |}])
               (set_tasks s.(nm_outstanding) (delete h s.(nm_timers)) s.(nm_next) s))
  else None.

(** *** The end of the stream *)

(** One check of the loop that waits for the outstanding tasks; when there are
    none, the grace period is aborted and the stream ends. *)
Definition wait_outstanding (s : NexusManager) : option NexusManager :=
  if negb s.(nm_source_done) || s.(nm_waiting) || s.(nm_ended) then None
  else if bool_decide (s.(nm_outstanding) = ∅)
  then Some (set_end true NG_Done false true s)
  else Some (set_end true s.(nm_grace) true false s).

Definition grace_begin (grace_period : option Z) (now : Z) (s : NexusManager)
  : option NexusManager :=
  match s.(nm_grace), grace_period with
  | NG_Idle, Some gp =>
      if s.(nm_source_done) && negb s.(nm_ended)
      then Some (set_end true (NG_Sleeping (now + gp)) s.(nm_waiting) false s) else None
  | _, _ => None
  end.

(** [iter] lists the tokens in the order of the map. *)
Definition grace_elapsed (iter : gmap string NexusInFlightTask -> list string) (now : Z)
    (s : NexusManager) : option NexusManager :=
  match s.(nm_grace) with
  | NG_Sleeping deadline =>
      if (deadline <=? now)%Z && negb s.(nm_ended)
      then Some (set_cancels
             (s.(nm_cancels) ++
              ((fun tok => {| cnt_task_token := tok; cnt_reason := NTCR_WorkerShutdown |}) <$>
               iter s.(nm_outstanding)))
             (set_end s.(nm_source_done) NG_Done s.(nm_waiting) false s))
      else None
  | _ => None
  end.

(** [shutdown] returns. *)
Definition shutdown_returns (s : NexusManager) : bool :=
  negb s.(nm_ever_polled) || s.(nm_poll_returned_shutdown).

(** ** Completions *)
Inductive CompleteNexusError := MalformedNexusCompletion (reason : string).

Definition malformed (k : RequestKind) (c : NexusResponse) : option string :=
  match c.(nresp_variant) with
  | Some (NV_StartOperation _) =>
      if bool_decide (k = RK_Start) then None
      else Some "Nexus response was StartOperation but request was not"%string
  | Some NV_CancelOperation =>
      if bool_decide (k = RK_Cancel) then None
      else Some "Nexus response was CancelOperation but request was not"%string
  | None => Some "Nexus completion must contain a status variant "%string
  end.

(** [complete_task], until it waits for the server. *)
Definition complete_task (tok : string) (status : NexusTaskCompletion_Status) (s : NexusManager)
  : NexusManager * outcome CompleteNexusError unit :=
  match s.(nm_outstanding) !! tok with
  | None => (s, Ok tt)
  | Some task_info =>
      let timers := from_option (fun jh => delete jh s.(nm_timers)) s.(nm_timers)
                      task_info.(nif_timeout_task) in
      let s := set_tasks (delete tok s.(nm_outstanding)) timers s.(nm_next) s in
      let call c := (set_completing (s.(nm_completing) ++ [tok]) (c :: s.(nm_calls)) s, Ok tt) in
      match status with
      | NTC_Completed c =>
          match malformed task_info.(nif_request_kind) c with
          | Some reason => (s, Err (MalformedNexusCompletion reason))
          | None => call (CompleteNexusTask tok c)
          end
      | NTC_AckCancel _ => (notify_waiters s, Ok tt)
      | NTC_Error e => call (FailNexusTask tok e)
      end
  end.

(** The server has answered; errors are logged. *)
Definition complete_answered (i : nat) (s : NexusManager) : option NexusManager :=
  _ ← s.(nm_completing) !! i;
  Some (notify_waiters (set_completing (delete i s.(nm_completing)) s.(nm_calls) s)).

(** ** Examples of timeouts *)
Example timeout_seconds : parse_request_timeout " 1.5s " = Ok 1500000000%Z.
Proof. vm_compute. reflexivity. Qed.
Example timeout_minutes : parse_request_timeout "2m" = Ok 120000000000%Z.
Proof. vm_compute. reflexivity. Qed.
Example timeout_millis : parse_request_timeout "12.3ms" = Ok 12300000%Z.
Proof. vm_compute. reflexivity. Qed.
