(* ===== verification/NexusManagerFacts.v ===== *)
(** * What the manager of Nexus tasks guarantees

    Runs of the manager, with the tasks handed to lang and the completions that
    ended: every task is outstanding, being answered or ended, and is answered at
    most once, in the way its request asks for.  Shutdown, and how it goes wrong. *)
From Stdlib Require Import ZArith Lia String.
From stdpp Require Import base option list strings gmap.
From S2P Require Import Prelude TimeArith Flags Protos NexusManager.

(** ** Runs *)
Record nexus_world := {
  nw_now : Z;
  nw_given : list (string * RequestKind);
  nw_over : list string;
  nw_malformed : bool;
  nw_state : NexusManager;
}.

Definition nexus_world_new (now : Z) : nexus_world :=
  {| nw_now := now; nw_given := []; nw_over := []; nw_malformed := false;
     nw_state := NexusManager_new |}.

Definition with_nexus (s : NexusManager) (w : nexus_world) : nexus_world :=
  {| nw_now := w.(nw_now); nw_given := w.(nw_given); nw_over := w.(nw_over);
     nw_malformed := w.(nw_malformed); nw_state := s |}.

Definition given_by (r : option nexus_poll) : list (string * RequestKind) :=
  match r with
  | Some (NexusTaskPolled (NT_Task t)) => [(t.(pnr_task_token), (request_info t).2)]
  | _ => []
  end.

(** What a completion does to the log: it is over at once when it is malformed or
    acknowledges a cancellation. *)
Definition over_by (tok : string) (status : NexusTaskCompletion_Status) (s : NexusManager)
  : list string :=
  match s.(nm_outstanding) !! tok, status with
  | None, _ => []
  | Some i, NTC_Completed c => if malformed i.(nif_request_kind) c is Some _ then [tok] else []
  | Some _, NTC_AckCancel _ => [tok]
  | Some _, NTC_Error _ => []
  end.

Inductive nexus_step (gp : option Z) (iter : gmap string NexusInFlightTask -> list string)
    (w : nexus_world) : nexus_world -> Prop :=
| nst_time now :
    (w.(nw_now) <= now)%Z ->
    nexus_step gp iter w {| nw_now := now; nw_given := w.(nw_given); nw_over := w.(nw_over);
                            nw_malformed := w.(nw_malformed); nw_state := w.(nw_state) |}
| nst_poll input s r :
    next_nexus_task w.(nw_now) input w.(nw_state) = Some (Ok (s, r)) ->
    Forall (fun t => t.1 ∉ w.(nw_given).*1) (given_by r) ->
    nexus_step gp iter w {| nw_now := w.(nw_now); nw_given := given_by r ++ w.(nw_given);
                            nw_over := w.(nw_over); nw_malformed := w.(nw_malformed);
                            nw_state := s |}
| nst_complete tok status s r :
    complete_task tok status w.(nw_state) = (s, r) ->
    nexus_step gp iter w {| nw_now := w.(nw_now); nw_given := w.(nw_given);
                            nw_over := over_by tok status w.(nw_state) ++ w.(nw_over);
                            nw_malformed := w.(nw_malformed) || (if r is Err _ then true else false);
                            nw_state := s |}
| nst_answered i tok s :
    w.(nw_state).(nm_completing) !! i = Some tok -> complete_answered i w.(nw_state) = Some s ->
    nexus_step gp iter w {| nw_now := w.(nw_now); nw_given := w.(nw_given);
                            nw_over := tok :: w.(nw_over); nw_malformed := w.(nw_malformed);
                            nw_state := s |}
| nst_timeout h s :
    timeout_elapsed w.(nw_now) h w.(nw_state) = Some s -> nexus_step gp iter w (with_nexus s w)
| nst_wait s : wait_outstanding w.(nw_state) = Some s -> nexus_step gp iter w (with_nexus s w)
| nst_grace_begin s :
    grace_begin gp w.(nw_now) w.(nw_state) = Some s -> nexus_step gp iter w (with_nexus s w)
| nst_grace_elapsed s :
    grace_elapsed iter w.(nw_now) w.(nw_state) = Some s -> nexus_step gp iter w (with_nexus s w).

Definition nexus_reach gp iter (w : nexus_world) : Prop :=
  exists now, rtc (nexus_step gp iter) (nexus_world_new now) w.

(** ** The invariant *)
Definition call_token (c : NexusServerCall) : string :=
  match c with CompleteNexusTask tok _ | FailNexusTask tok _ => tok end.

Definition tokens_out (s : NexusManager) : list string := (map_to_list s.(nm_outstanding)).*1.

(** An answer is of the kind its request asks for. *)
Definition call_fits (given : list (string * RequestKind)) (c : NexusServerCall) : Prop :=
  match c with
  | CompleteNexusTask tok c => exists k, (tok, k) ∈ given /\ malformed k c = None
  | FailNexusTask tok _ => tok ∈ given.*1
  end.

Record nexus_inv (w : nexus_world) : Prop := {
  ni_fresh : NoDup w.(nw_given).*1;
  ni_conserved : w.(nw_given).*1 ≡ₚ
    tokens_out w.(nw_state) ++ w.(nw_state).(nm_completing) ++ w.(nw_over);
  ni_calls_once : NoDup (call_token <$> w.(nw_state).(nm_calls));
  ni_calls_gone : forall tok, tok ∈ call_token <$> w.(nw_state).(nm_calls) ->
    w.(nw_state).(nm_outstanding) !! tok = None;
  ni_calls_fit : Forall (call_fits w.(nw_given)) w.(nw_state).(nm_calls);
  ni_called : forall tok, tok ∈ w.(nw_state).(nm_completing) ->
    tok ∈ call_token <$> w.(nw_state).(nm_calls);
  ni_kinds : forall tok i, w.(nw_state).(nm_outstanding) !! tok = Some i ->
    (tok, i.(nif_request_kind)) ∈ w.(nw_given);
  ni_ended : w.(nw_state).(nm_ended) = true ->
    w.(nw_state).(nm_source_done) = true /\ w.(nw_state).(nm_outstanding) = ∅;
  ni_woken : w.(nw_state).(nm_waiting) = true -> w.(nw_malformed) = false ->
    w.(nw_state).(nm_outstanding) <> ∅ \/ w.(nw_state).(nm_completing) <> [];
}.

(** Steps that leave the tasks and the calls as they are. *)
Lemma nexus_inv_frame w s :
  nexus_inv w ->
  s.(nm_outstanding) = w.(nw_state).(nm_outstanding) ->
  s.(nm_completing) = w.(nw_state).(nm_completing) -> s.(nm_calls) = w.(nw_state).(nm_calls) ->
  (s.(nm_ended) = true -> s.(nm_source_done) = true /\ s.(nm_outstanding) = ∅) ->
  (s.(nm_waiting) = true -> w.(nw_state).(nm_waiting) = true \/ s.(nm_outstanding) <> ∅) ->
  nexus_inv (with_nexus s w).
Proof.
  intros [H1 H2 H3 H4 H5 H6 H7 H8 H9] Ho Hc Hl He Hw.
  constructor; simpl; unfold tokens_out; rewrite ?Ho, ?Hc, ?Hl; try done.
  - rewrite Ho in He. done.
  - intros Hws Hm. destruct (Hw Hws) as [Hw'|Hw']; [by apply H9|]. left. by rewrite <- Ho.
Qed.

(** What a poll does to the tasks. *)
Definition same_tasks (s s' : NexusManager) : Prop :=
  s'.(nm_outstanding) = s.(nm_outstanding) /\ s'.(nm_completing) = s.(nm_completing) /\
  s'.(nm_calls) = s.(nm_calls) /\ s'.(nm_waiting) = s.(nm_waiting) /\ s'.(nm_ended) = s.(nm_ended) /\
  (s.(nm_source_done) = true -> s'.(nm_source_done) = true).

Lemma nexus_poll_effect now input s s' r :
  next_nexus_task now input s = Some (Ok (s', r)) ->
  (given_by r = [] /\ same_tasks s s') \/
  exists t info, r = Some (NexusTaskPolled (NT_Task t)) /\ s.(nm_ended) = false /\
    info.(nif_request_kind) = (request_info t).2 /\
    s'.(nm_outstanding) = <[t.(pnr_task_token) := info]> s.(nm_outstanding) /\
    s'.(nm_completing) = s.(nm_completing) /\ s'.(nm_calls) = s.(nm_calls) /\
    s'.(nm_waiting) = s.(nm_waiting) /\ s'.(nm_ended) = false.
Proof.
  unfold next_nexus_task. destruct (nm_ended s) eqn:He.
  { intros [= <- <-]. left. by repeat split. }
  cbn [nm_cancels set_polled nm_source_done].
  destruct (nm_cancels s) as [|c l]; [|intros [= <- <-]; left; by repeat split].
  destruct (nm_source_done s) eqn:Hd; [done|].
  destruct input as [[[code|t]|]|]; cbn [mbind option_bind]; [| | |done].
  - intros [= <- <-]. left. by repeat split.
  - intros Hp. injection Hp as Hp. apply outcome_bind_Ok in Hp as ([s1 t1] & Hp & Ht).
    injection Ht as <- <-. apply outcome_bind_Ok in Hp as (d & _ & Hp).
    destruct (request_info t) as [[service operation] k] eqn:Hk. injection Hp as <- <-.
    right. eexists t, _. rewrite Hk. simpl. by repeat split.
  - intros [= <- <-]. left. by repeat split.
Qed.

Lemma inv_given tok k info w s :
  nexus_inv w -> tok ∉ w.(nw_given).*1 -> w.(nw_state).(nm_ended) = false ->
  info.(nif_request_kind) = k ->
  s.(nm_outstanding) = <[tok := info]> w.(nw_state).(nm_outstanding) ->
  s.(nm_completing) = w.(nw_state).(nm_completing) -> s.(nm_calls) = w.(nw_state).(nm_calls) ->
  s.(nm_ended) = false ->
  nexus_inv {| nw_now := w.(nw_now); nw_given := (tok, k) :: w.(nw_given); nw_over := w.(nw_over);
               nw_malformed := w.(nw_malformed); nw_state := s |}.
Proof.
  intros [H1 H2 H3 H4 H5 H6 H7 H8 H9] Hf Hne Hk Ho Hc Hl He.
  assert (w.(nw_state).(nm_outstanding) !! tok = None) as Hnone.
  { destruct (nm_outstanding (nw_state w) !! tok) as [i|] eqn:Hi; [|done]. destruct Hf.
    apply list_elem_of_fmap. by eexists (tok, _); split; [|apply H7]. }
  assert (forall c, call_fits w.(nw_given) c -> call_fits ((tok, k) :: w.(nw_given)) c) as Hfit.
  { intros [t c|t e]; simpl; [intros (k' & Hin & Hm); exists k'; split; [by right|done]|by right]. }
  constructor; simpl; unfold tokens_out; rewrite ?Ho, ?Hc, ?Hl, ?He; try done.
  - by apply NoDup_cons.
  - rewrite map_to_list_insert by done. simpl. by rewrite H2.
  - intros t Ht. rewrite lookup_insert_ne; [by apply H4|]. intros ->. destruct Hf.
    apply list_elem_of_fmap in Ht as (c & -> & Hin). rewrite Forall_forall in H5.
    specialize (H5 c Hin). destruct c as [t c|t e]; simpl in *; [|done].
    destruct H5 as (k' & Hk' & _). apply list_elem_of_fmap. by exists (t, k').
  - eapply Forall_impl; [exact H5|done].
  - intros t i. rewrite lookup_insert_Some. intros [[<- <-]|[_ Hi]]; [by rewrite Hk; left|].
    right. by apply H7.
  - intros _ _. left. apply insert_non_empty.
Qed.

(** *** Completions *)
Lemma tokens_out_delete tok i (m : gmap string NexusInFlightTask) :
  m !! tok = Some i -> (map_to_list m).*1 ≡ₚ tok :: (map_to_list (delete tok m)).*1.
Proof. intros Hi. by rewrite <- (map_to_list_delete m tok i Hi). Qed.

(** A completion that is over without a call of the server. *)
Lemma inv_over tok i b w s :
  nexus_inv w -> w.(nw_state).(nm_outstanding) !! tok = Some i ->
  s.(nm_outstanding) = delete tok w.(nw_state).(nm_outstanding) ->
  s.(nm_completing) = w.(nw_state).(nm_completing) -> s.(nm_calls) = w.(nw_state).(nm_calls) ->
  s.(nm_ended) = w.(nw_state).(nm_ended) -> (s.(nm_waiting) = true -> b = true) ->
  nexus_inv {| nw_now := w.(nw_now); nw_given := w.(nw_given); nw_over := tok :: w.(nw_over);
               nw_malformed := w.(nw_malformed) || b; nw_state := s |}.
Proof.
  intros [H1 H2 H3 H4 H5 H6 H7 H8 H9] Hi Ho Hc Hl He Hw.
  constructor; simpl; unfold tokens_out; rewrite ?Ho, ?Hc, ?Hl, ?He; try done.
  - rewrite H2. unfold tokens_out. rewrite (tokens_out_delete _ _ _ Hi). simpl. solve_Permutation.
  - intros t Ht. apply lookup_delete_None. right. by apply H4.
  - intros t j [_ Hj]%lookup_delete_Some. by apply H7.
  - intros Hend. destruct (H8 Hend) as [_ Hemp]. by rewrite Hemp in Hi.
  - intros Hws. rewrite (Hw Hws), orb_true_r. done.
Qed.

(** A completion that calls the server. *)
Lemma inv_call tok i c w s :
  nexus_inv w -> w.(nw_state).(nm_outstanding) !! tok = Some i ->
  call_token c = tok -> call_fits w.(nw_given) c ->
  s.(nm_outstanding) = delete tok w.(nw_state).(nm_outstanding) ->
  s.(nm_completing) = w.(nw_state).(nm_completing) ++ [tok] ->
  s.(nm_calls) = c :: w.(nw_state).(nm_calls) -> s.(nm_ended) = w.(nw_state).(nm_ended) ->
  nexus_inv (with_nexus s w).
Proof.
  intros [H1 H2 H3 H4 H5 H6 H7 H8 H9] Hi Ht Hfit Ho Hc Hl He.
  constructor; simpl; unfold tokens_out; rewrite ?Ho, ?Hc, ?Hl, ?He; try done.
  - rewrite H2. unfold tokens_out. rewrite (tokens_out_delete _ _ _ Hi). simpl. solve_Permutation.
  - apply NoDup_cons. rewrite Ht. split; [|done]. intros Hin%H4. congruence.
  - intros t [->|Hin]%elem_of_cons; [rewrite Ht; by apply lookup_delete_eq|].
    apply lookup_delete_None. right. by apply H4.
  - by constructor.
  - intros t [Hin|Hin%list_elem_of_singleton]%elem_of_app; [right; by apply H6|].
    rewrite Hin, <- Ht. by left.
  - intros t j [_ Hj]%lookup_delete_Some. by apply H7.
  - intros Hend. destruct (H8 Hend) as [_ Hemp]. by rewrite Hemp in Hi.
  - intros _ _. right. by destruct (nm_completing (nw_state w)).
Qed.

Lemma inv_complete tok status w s r :
  nexus_inv w -> complete_task tok status w.(nw_state) = (s, r) ->
  nexus_inv {| nw_now := w.(nw_now); nw_given := w.(nw_given);
               nw_over := over_by tok status w.(nw_state) ++ w.(nw_over);
               nw_malformed := w.(nw_malformed) || (if r is Err _ then true else false);
               nw_state := s |}.
Proof.
  intros Hinv. unfold complete_task, over_by. simpl.
  destruct (nm_outstanding (nw_state w) !! tok) as [i|] eqn:Hi.
  2: { intros [= <- <-]. rewrite orb_false_r. by destruct w. }
  assert (tok ∈ w.(nw_given).*1) as Hin.
  { apply list_elem_of_fmap. eexists (tok, _). split; [done|]. by eapply ni_kinds. }
  destruct status as [c|e|b].
  - destruct (malformed (nif_request_kind i) c) as [reason|] eqn:Hm; intros [= <- <-].
    + by eapply inv_over.
    + rewrite orb_false_r. eapply (inv_call tok i (CompleteNexusTask tok c)); try done.
      eexists. split; [by eapply ni_kinds|done].
  - intros [= <- <-]. rewrite orb_false_r. by eapply (inv_call tok i (FailNexusTask tok e)).
  - intros [= <- <-]. by eapply inv_over.
Qed.

Lemma inv_answered i tok w s :
  nexus_inv w -> w.(nw_state).(nm_completing) !! i = Some tok ->
  complete_answered i w.(nw_state) = Some s ->
  nexus_inv {| nw_now := w.(nw_now); nw_given := w.(nw_given); nw_over := tok :: w.(nw_over);
               nw_malformed := w.(nw_malformed); nw_state := s |}.
Proof.
  intros [H1 H2 H3 H4 H5 H6 H7 H8 H9] Hi. unfold complete_answered. rewrite Hi. intros [= <-].
  constructor; simpl; try done.
  - rewrite H2. unfold tokens_out. simpl. apply Permutation_app_head.
    etrans; [apply Permutation_app_tail, (delete_Permutation _ _ _ Hi)|]. solve_Permutation.
  - intros t Ht. apply H6, list_elem_of_In.
    eapply Permutation_in; [symmetry; apply (delete_Permutation _ _ _ Hi)|]. right.
    by apply list_elem_of_In.
Qed.

(** *** All steps *)
Lemma nexus_step_inv gp iter w w' : nexus_inv w -> nexus_step gp iter w w' -> nexus_inv w'.
Proof.
  intros Hinv Hst. pose proof Hinv as [H1 H2 H3 H4 H5 H6 H7 H8 H9].
  destruct Hst as [now Hn|input s r Hp Hf|tok status s r Hc|i tok s Hi Ha|h s Ht|s Hw|s Hg|s Hg].
  - by destruct w.
  - destruct (nexus_poll_effect _ _ _ _ _ Hp)
      as [[-> (Ho & Hc & Hl & Hwt & He & Hd)]|(t & info & -> & Hne & Hk & Ho & Hc & Hl & Hwt & He)].
    + apply (nexus_inv_frame w s Hinv Ho Hc Hl); rewrite ?He, ?Hwt, ?Ho; [|by left].
      intros Hend. destruct (H8 Hend). auto.
    + simpl in *. apply Forall_cons in Hf as [Hf _]. exact (inv_given _ _ info w s Hinv Hf Hne Hk Ho Hc Hl He).
  - by eapply inv_complete.
  - by eapply inv_answered.
  - unfold timeout_elapsed in Ht. destruct (nm_timers _ !! h) as [[tok dl]|]; [|done].
    cbn [mbind option_bind] in Ht. case_match; [|done]. simplify_eq.
    apply nexus_inv_frame; simpl; auto.
  - unfold wait_outstanding in Hw. case_match; [done|]. case_bool_decide as Hemp; simplify_eq;
      apply nexus_inv_frame; simpl; (done || auto).
  - unfold grace_begin in Hg. repeat case_match; simplify_eq; apply nexus_inv_frame; simpl; (done || auto).
  - unfold grace_elapsed in Hg. repeat case_match; simplify_eq; apply nexus_inv_frame; simpl; (done || auto).
Qed.

Lemma nexus_reach_inv gp iter w : nexus_reach gp iter w -> nexus_inv w.
Proof.
  intros [now Hr]. remember (nexus_world_new now) as w0 eqn:H0.
  assert (nexus_inv w0) as Hinv.
  { subst. constructor; simpl; try done; try constructor; by intros ? ?%not_elem_of_nil. }
  clear H0. induction Hr as [|w0 w1 w Hst _ IH]; [done|]. by eapply IH, nexus_step_inv.
Qed.

(** C13 Under any interleaving of polls, completions, timeouts and shutdown, each Nexus
    task given to lang is outstanding, being answered or over, once; the server is
    answered at most once for each, only for tasks that were given, and with a
    response of the kind the request asks for.  When the stream has ended nothing is
    outstanding; while it waits, something is outstanding or being answered, unless
    lang has sent a malformed completion. *)
Theorem nexus_tasks_answered_once gp iter w :
  nexus_reach gp iter w ->
  let s := w.(nw_state) in
  NoDup w.(nw_given).*1 /\
  w.(nw_given).*1 ≡ₚ tokens_out s ++ s.(nm_completing) ++ w.(nw_over) /\
  NoDup (call_token <$> s.(nm_calls)) /\ Forall (call_fits w.(nw_given)) s.(nm_calls) /\
  (s.(nm_ended) = true -> s.(nm_outstanding) = ∅) /\
  (s.(nm_waiting) = true -> w.(nw_malformed) = false ->
     s.(nm_outstanding) <> ∅ \/ s.(nm_completing) <> []).
Proof.
  intros [H1 H2 H3 H4 H5 H6 H7 H8 H9]%nexus_reach_inv. split_and!; try done.
  intros He. by apply H8.
Qed.

(** ** Shutdown that never ends *)
Record stuck (s : NexusManager) : Prop := {
  sk_source : s.(nm_source_done) = true;
  sk_waiting : s.(nm_waiting) = true;
  sk_ended : s.(nm_ended) = false;
  sk_out : s.(nm_outstanding) = ∅;
  sk_completing : s.(nm_completing) = [];
  sk_polled : s.(nm_ever_polled) = true;
  sk_returned : s.(nm_poll_returned_shutdown) = false;
}.

Lemma stuck_step gp iter w w' :
  stuck w.(nw_state) -> nexus_step gp iter w w' -> stuck w'.(nw_state).
Proof.
  intros [H1 H2 H3 H4 H5 H6 H7] Hst.
  destruct Hst as [now Hn|input s r Hp Hf|tok status s r Hc|i tok s Hi Ha|h s Ht|s Hw|s Hg|s Hg];
    simpl; [by constructor|..].
  - unfold next_nexus_task in Hp. rewrite H3 in Hp. cbn [nm_cancels set_polled nm_source_done] in Hp.
    rewrite H1 in Hp. case_match; [done|]. simplify_eq. constructor; simpl; try done. by rewrite H7.
  - unfold complete_task in Hc. rewrite H4, lookup_empty in Hc. simplify_eq. by constructor.
  - by rewrite H5 in Hi.
  - unfold timeout_elapsed in Ht. destruct (nm_timers _ !! h) as [[tok dl]|]; [|done].
    cbn [mbind option_bind] in Ht. case_match; [|done]. simplify_eq. by constructor.
  - unfold wait_outstanding in Hw. by rewrite H1, H2 in Hw.
  - unfold grace_begin in Hg. repeat case_match; simplify_eq; by constructor.
  - unfold grace_elapsed in Hg. repeat case_match; simplify_eq; by constructor.
Qed.

Module NexusExample.

Definition cancel_request : PollNexusTaskQueueResponse :=
  {| pnr_task_token := "t";
     pnr_request := Some
       {| nr_header := {[ REQUEST_TIMEOUT_HEADER := "10s"%string ]}; nr_scheduled_time := None;
          nr_variant := Some (NR_CancelOperation
            {| xo_service := "s"; xo_operation := "o"; xo_operation_id := "";
               xo_operation_token := "1" |}) |} |}.

Definition start_response : NexusTaskCompletion_Status :=
  NTC_Completed {| nresp_variant := Some (NV_StartOperation None) |}.
Definition cancel_response : NexusTaskCompletion_Status :=
  NTC_Completed {| nresp_variant := Some NV_CancelOperation |}.

(** The task is given, the source ends and the stream waits for its completion. *)
Definition polled : NexusManager :=
  match next_nexus_task 0 (Some (TSI_Poll (inr cancel_request))) NexusManager_new with
  | Some (Ok (s, _)) => s
  | _ => NexusManager_new
  end.
Definition source_ended : NexusManager :=
  match next_nexus_task 0 (Some TSI_SourceComplete) polled with
  | Some (Ok (s, _)) => s
  | _ => NexusManager_new
  end.
Definition parked : NexusManager := default NexusManager_new (wait_outstanding source_ended).

Definition world_of (over : list string) (m : bool) (s : NexusManager) : nexus_world :=
  {| nw_now := 0; nw_given := [("t"%string, RK_Cancel)]; nw_over := over; nw_malformed := m;
     nw_state := s |}.

Lemma parked_reachable gp iter :
  rtc (nexus_step gp iter) (nexus_world_new 0) (world_of [] false parked).
Proof.
  eapply rtc_l.
  { apply (nst_poll _ _ _ (Some (TSI_Poll (inr cancel_request))) polled
             (Some (NexusTaskPolled (NT_Task cancel_request)))); [reflexivity|].
    repeat constructor. by apply not_elem_of_nil. }
  eapply rtc_l; [|apply rtc_once].
  { apply (nst_poll _ _ (world_of [] false polled) (Some TSI_SourceComplete) source_ended None);
      [reflexivity|constructor]. }
  by apply (nst_wait _ _ (world_of [] false source_ended)).
Qed.

Lemma complete_reachable gp iter status s r :
  complete_task "t" status parked = (s, r) ->
  nexus_reach gp iter
    (world_of (over_by "t" status parked) (if r is Err _ then true else false) s).
Proof.
  intros Hc. exists 0%Z. eapply rtc_r; [apply parked_reachable|].
  pose proof (nst_complete gp iter (world_of [] false parked) "t" status s r Hc) as Hst.
  simpl in Hst. by rewrite app_nil_r in Hst.
Qed.

(** A completion of the right kind is under way. *)
Lemma nexus_tasks_answered_once_witness :
  exists w, nexus_reach (Some 5%Z) (fun m => (map_to_list m).*1) w /\
    NoDup (call_token <$> w.(nw_state).(nm_calls)) /\ length w.(nw_state).(nm_calls) = 1 /\
    w.(nw_state).(nm_waiting) = true /\ w.(nw_state).(nm_completing) <> [].
Proof.
  pose proof (complete_reachable (Some 5%Z) (fun m => (map_to_list m).*1) cancel_response _ _ eq_refl)
    as Hr.
  eexists. split; [exact Hr|].
  destruct (nexus_tasks_answered_once _ _ _ Hr) as (_ & _ & Hn & _ & _ & Hw).
  split; [exact Hn|]. split; [reflexivity|]. split; [reflexivity|].
  destruct (Hw eq_refl eq_refl) as [Ho|Hc]; [|exact Hc]. by destruct Ho.
Defined.

(** A malformed completion hangs shutdown.  It removes the task without waking the
    stream, which goes on waiting: no poll ever returns [ShutDown], and [shutdown]
    does not return. *)
Theorem malformed_completion_hangs_shutdown gp iter : exists w,
  nexus_reach gp iter w /\
  w.(nw_state).(nm_source_done) = true /\ w.(nw_state).(nm_outstanding) = ∅ /\
  w.(nw_state).(nm_completing) = [] /\
  forall w', rtc (nexus_step gp iter) w w' ->
    w'.(nw_state).(nm_ended) = false /\ shutdown_returns w'.(nw_state) = false.
Proof.
  eexists. split; [by apply (complete_reachable _ _ start_response)|].
  do 3 (split; [reflexivity|]). intros w' Hw.
  assert (stuck w'.(nw_state)) as [? ? ? ? ? Hp Hr].
  { eapply (rtc_ind_r (fun w => stuck w.(nw_state))); [|intros ? ? _ Hst Hs; by eapply stuck_step|exact Hw].
    by constructor. }
  split; [done|]. unfold shutdown_returns. by rewrite Hp, Hr.
Qed.

(** A header with a timeout that is too long makes a poll panic. *)
Theorem long_timeout_panics :
  exists m, parse_request_timeout "20000000000000000000s" = Panic m /\
    forall r : NexusRequest, r.(nr_header) !! REQUEST_TIMEOUT_HEADER = Some "20000000000000000000s"%string ->
      next_nexus_task 0 (Some (TSI_Poll (inr {| pnr_task_token := "t"; pnr_request := Some r |})))
        NexusManager_new = Some (Panic m).
Proof.
  eexists. assert (parse_request_timeout "20000000000000000000s" = Panic
    "cannot convert float seconds to Duration: value is either too big or NaN") as Hp
    by (vm_compute; reflexivity).
  split; [exact Hp|]. intros r Hr. unfold next_nexus_task, poll_task, request_timeout. simpl.
  rewrite Hr, Hp. done.
Qed.
End NexusExample.
