(* ===== verification/ServerRetry.v ===== *)
(** * Retries of server calls (client/src/retry.rs, client/src/lib.rs)

    What the client does when a call of the server fails: give the error to the
    caller, or wait and call again.  The exponential backoff of the [backoff] crate
    is an interface; logging is left out. *)
From Stdlib Require Import ZArith Lia SpecFloat String.
From stdpp Require Import base option list strings gmap.
From S2P Require Import Prelude TimeArith.

(** ** Statuses *)
Inductive Code :=
| Code_Ok | Code_Cancelled | Code_Unknown | Code_InvalidArgument | Code_DeadlineExceeded
| Code_NotFound | Code_AlreadyExists | Code_PermissionDenied | Code_ResourceExhausted
| Code_FailedPrecondition | Code_Aborted | Code_OutOfRange | Code_Unimplemented | Code_Internal
| Code_Unavailable | Code_DataLoss | Code_Unauthenticated.
#[global] Instance Code_eq_dec : EqDecision Code.
Proof. solve_decision. Defined.

(** [status_goaway] says that the source of the error is a transport error whose
    source is an error of [hyper] that prints a closed connection. *)
Record Status := {
  status_code : Code;
  status_message : string;
  status_metadata : gmap string string;
  status_goaway : bool;
}.

Definition RETRYABLE_ERROR_CODES : list Code :=
  [Code_DataLoss; Code_Internal; Code_Unknown; Code_ResourceExhausted; Code_Aborted;
   Code_OutOfRange; Code_Unavailable].

Definition MESSAGE_TOO_LARGE_KEY : string := "message-too-large".
Definition LONG_POLL_FATAL_GRACE : Z := 60 * NANOS_PER_SEC.

(** ** Configuration *)
Record RetryConfig := {
  initial_interval : Z;
  randomization_factor : spec_float;
  multiplier : spec_float;
  max_interval : Z;
  max_elapsed_time : option Z;
  max_retries : Z;
}.

Definition ms (n : Z) : Z := n * 1000000.
Definition secs (n : Z) : Z := n * NANOS_PER_SEC.

(** [0.2] and [1.7] *)
Definition f64_0_2 : spec_float := f64_from_bits 0x3fc999999999999a.
Definition f64_1_7 : spec_float := f64_from_bits 0x3ffb333333333333.

Definition RetryConfig_default : RetryConfig :=
  {| initial_interval := ms 100; randomization_factor := f64_0_2; multiplier := f64_1_7;
     max_interval := secs 5; max_elapsed_time := Some (secs 10); max_retries := 10 |}.
Definition task_poll_retry_policy : RetryConfig :=
  {| initial_interval := ms 200; randomization_factor := f64_0_2; multiplier := f64_from 2;
     max_interval := secs 10; max_elapsed_time := None; max_retries := 0 |}.
Definition throttle_retry_policy : RetryConfig :=
  {| initial_interval := secs 1; randomization_factor := f64_0_2; multiplier := f64_from 2;
     max_interval := secs 10; max_elapsed_time := None; max_retries := 0 |}.
Definition no_retries : RetryConfig :=
  {| initial_interval := 0; randomization_factor := S754_zero false; multiplier := f64_from 1;
     max_interval := 0; max_elapsed_time := None; max_retries := 1 |}.

(** ** The backoff

    [next_backoff] at a time; its answer is [None] once the elapsed time is over the
    limit. *)
Class Backoff (B : Type) := {
  exp_backoff : RetryConfig -> Z -> B;
  next_backoff : Z -> B -> option Z * B;
  get_elapsed_time : Z -> B -> Z;
  backoff_max_interval : B -> Z;
  backoff_limit : B -> option Z;
}.

Class BackoffLaws (B : Type) `{Backoff B} : Prop := {
  exp_backoff_limit c now : backoff_limit (exp_backoff c now) = c.(max_elapsed_time);
  exp_backoff_max c now : backoff_max_interval (exp_backoff c now) = c.(max_interval);
  next_backoff_keeps now b :
    backoff_limit (next_backoff now b).2 = backoff_limit b /\
    backoff_max_interval (next_backoff now b).2 = backoff_max_interval b;
  next_backoff_unlimited now b : backoff_limit b = None -> is_Some (next_backoff now b).1;
}.

(** ** Calls *)
Inductive CallType := CT_Normal | CT_UserLongPoll | CT_TaskLongPoll.
#[global] Instance CallType_eq_dec : EqDecision CallType.
Proof. solve_decision. Defined.

Definition is_long (c : CallType) : bool :=
  match c with CT_UserLongPoll | CT_TaskLongPoll => true | CT_Normal => false end.

(** The extensions of a request. *)
Record Extensions := {
  is_user_long_poll : bool;
  is_worker_task_long_poll : bool;
  no_retry_on_matching : option (Status -> bool);
}.

Record CallInfo := {
  call_type : CallType;
  retry_cfg : RetryConfig;
  retry_short_circuit : option (Status -> bool);
}.

Definition get_call_info (retry_config : RetryConfig) (request : option Extensions) : CallInfo :=
  let call_type :=
    match request with
    | Some ext => if ext.(is_user_long_poll) then CT_UserLongPoll
                  else if ext.(is_worker_task_long_poll) then CT_TaskLongPoll else CT_Normal
    | None => CT_Normal
    end in
  {| call_type := call_type;
     retry_cfg := if bool_decide (call_type = CT_TaskLongPoll) then task_poll_retry_policy
                  else retry_config;
     retry_short_circuit := ext ← request; ext.(no_retry_on_matching) |}.

(** ** The error handler *)
Inductive RetryPolicy :=
| ForwardError (e : Status)
| WaitRetry (d : Z).

Record TonicErrorHandler (B : Type) := {
  teh_backoff : B;
  teh_throttle_backoff : B;
  teh_max_retries : Z;
  teh_call_type : CallType;
  teh_have_retried_goaway_cancel : bool;
  teh_retry_short_circuit : option (Status -> bool);
}.
#[global] Arguments teh_backoff {_}.
#[global] Arguments teh_throttle_backoff {_}.
#[global] Arguments teh_max_retries {_}.
#[global] Arguments teh_call_type {_}.
#[global] Arguments teh_have_retried_goaway_cancel {_}.
#[global] Arguments teh_retry_short_circuit {_}.

Section handler.
  Context {B : Type} `{Backoff B}.

Definition TonicErrorHandler_new (now : Z) (call_info : CallInfo) (throttle_cfg : RetryConfig)
  : TonicErrorHandler B :=
  {| teh_call_type := call_info.(call_type);
     teh_max_retries := call_info.(retry_cfg).(max_retries);
     teh_backoff := exp_backoff call_info.(retry_cfg) now;
     teh_throttle_backoff := exp_backoff throttle_cfg now;
     teh_have_retried_goaway_cancel := false;
     teh_retry_short_circuit := call_info.(retry_short_circuit) |}.

Definition make_future_retry (now : Z) (info : CallInfo) : TonicErrorHandler B :=
  TonicErrorHandler_new now info throttle_retry_policy.

Definition message_too_large (e : Status) : bool :=
  bool_decide (e.(status_code) = Code_ResourceExhausted)
  && (String.prefix "grpc: received message larger than max" e.(status_message)
      || String.prefix "grpc: message after decompression larger than max" e.(status_message)
      || String.prefix "grpc: received message after decompression larger than max"
           e.(status_message)).

Definition mark_too_large (e : Status) : Status :=
  {| status_code := e.(status_code); status_message := e.(status_message);
     status_metadata := <[MESSAGE_TOO_LARGE_KEY := "0"%string]> e.(status_metadata);
     status_goaway := e.(status_goaway) |}.

Definition set_backoffs (b t : B) (h : TonicErrorHandler B) : TonicErrorHandler B :=
  {| teh_backoff := b; teh_throttle_backoff := t; teh_max_retries := h.(teh_max_retries);
     teh_call_type := h.(teh_call_type);
     teh_have_retried_goaway_cancel := h.(teh_have_retried_goaway_cancel);
     teh_retry_short_circuit := h.(teh_retry_short_circuit) |}.

Definition set_goaway (h : TonicErrorHandler B) : TonicErrorHandler B :=
  {| teh_backoff := h.(teh_backoff); teh_throttle_backoff := h.(teh_throttle_backoff);
     teh_max_retries := h.(teh_max_retries); teh_call_type := h.(teh_call_type);
     teh_have_retried_goaway_cancel := true;
     teh_retry_short_circuit := h.(teh_retry_short_circuit) |}.

(** The wait of an error that is retried; throttled calls wait longer. *)
Definition wait_retry (now : Z) (e : Status) (h : TonicErrorHandler B)
  : TonicErrorHandler B * RetryPolicy :=
  match next_backoff now h.(teh_backoff) with
  | (None, b) => (set_backoffs b h.(teh_throttle_backoff) h, ForwardError e)
  | (Some backoff, b) =>
      if bool_decide (e.(status_code) = Code_ResourceExhausted) then
        let '(throttle, t) := next_backoff now h.(teh_throttle_backoff) in
        (set_backoffs b t h, WaitRetry (Z.max backoff (default 0%Z throttle)))
      else (set_backoffs b h.(teh_throttle_backoff) h, WaitRetry backoff)
  end.

(** Zero retries stand for no limit. *)
Definition out_of_retries (current_attempt : Z) (h : TonicErrorHandler B) : bool :=
  (0 <? h.(teh_max_retries))%Z && (h.(teh_max_retries) <=? current_attempt)%Z.

Definition short_circuited (e : Status) (h : TonicErrorHandler B) : bool :=
  match h.(teh_retry_short_circuit) with Some predicate => predicate e | None => false end.

(** Task polls may be cancelled or time out. *)
Definition long_poll_allowed (e : Status) (h : TonicErrorHandler B) : bool :=
  bool_decide (h.(teh_call_type) = CT_TaskLongPoll)
  && bool_decide (e.(status_code) ∈ [Code_Cancelled; Code_DeadlineExceeded]).

(** A connection that goes away is retried once. *)
Definition goaway_retry_allowed (e : Status) (h : TonicErrorHandler B) : bool :=
  negb h.(teh_have_retried_goaway_cancel)
  && bool_decide (e.(status_code) = Code_Cancelled) && e.(status_goaway).

Definition handle (now : Z) (current_attempt : Z) (e : Status) (h : TonicErrorHandler B)
  : TonicErrorHandler B * RetryPolicy :=
  if out_of_retries current_attempt h then (h, ForwardError e)
  else if short_circuited e h then (h, ForwardError e)
  else if message_too_large e then (h, ForwardError (mark_too_large e))
  else
    let goaway := goaway_retry_allowed e h in
    let h := if goaway then set_goaway h else h in
    if bool_decide (e.(status_code) ∈ RETRYABLE_ERROR_CODES) || long_poll_allowed e h || goaway
    then wait_retry now e h
    else if bool_decide (h.(teh_call_type) = CT_TaskLongPoll)
            && (get_elapsed_time now h.(teh_backoff) <=? LONG_POLL_FATAL_GRACE)%Z
    then (h, WaitRetry (backoff_max_interval h.(teh_backoff)))
    else (h, ForwardError e).

(** ** What holds *)

(** The errors of a call, one per attempt, that are all retried. *)
Inductive retried (h : TonicErrorHandler B) : list (Z * Status) -> TonicErrorHandler B -> Prop :=
| retried_nil : retried h [] h
| retried_snoc l h1 now e d h2 :
    retried h l h1 -> handle now (Z.of_nat (S (length l))) e h1 = (h2, WaitRetry d) ->
    retried h (l ++ [(now, e)]) h2.

(** A reason to retry. *)
Definition may_retry (h : TonicErrorHandler B) (now : Z) (e : Status) : Prop :=
  e.(status_code) ∈ RETRYABLE_ERROR_CODES \/
  (h.(teh_call_type) = CT_TaskLongPoll /\
   (e.(status_code) ∈ [Code_Cancelled; Code_DeadlineExceeded] \/
    (get_elapsed_time now h.(teh_backoff) <= LONG_POLL_FATAL_GRACE)%Z)) \/
  goaway_retry_allowed e h = true.

Definition same_call (h h' : TonicErrorHandler B) : Prop :=
  h'.(teh_max_retries) = h.(teh_max_retries) /\ h'.(teh_call_type) = h.(teh_call_type) /\
  h'.(teh_retry_short_circuit) = h.(teh_retry_short_circuit).

Lemma wait_retry_fixed now e h h' p :
  wait_retry now e h = (h', p) ->
  same_call h h' /\ h'.(teh_have_retried_goaway_cancel) = h.(teh_have_retried_goaway_cancel).
Proof.
  unfold wait_retry. destruct (next_backoff now (teh_backoff h)) as [[d|] b];
    [|by intros [= <- _]].
  case_bool_decide; [|by intros [= <- _]].
  destruct (next_backoff now (teh_throttle_backoff h)) as [t b']. by intros [= <- _].
Qed.

(** What a retry says of the error and of the handler after it. *)
Lemma handle_retries now a e h h' d :
  handle now a e h = (h', WaitRetry d) ->
  out_of_retries a h = false /\ short_circuited e h = false /\ message_too_large e = false /\
  may_retry h now e /\ same_call h h' /\
  (goaway_retry_allowed e h = true -> h'.(teh_have_retried_goaway_cancel) = true) /\
  (h.(teh_have_retried_goaway_cancel) = true -> h'.(teh_have_retried_goaway_cancel) = true).
Proof.
  unfold handle, may_retry. destruct (out_of_retries a h); [done|].
  destruct (short_circuited e h); [done|]. destruct (message_too_large e); [done|].
  set (h1 := if goaway_retry_allowed e h then set_goaway h else h). cbn zeta.
  assert (same_call h h1 /\ h1.(teh_backoff) = h.(teh_backoff) /\
    (goaway_retry_allowed e h = true -> h1.(teh_have_retried_goaway_cancel) = true) /\
    (h.(teh_have_retried_goaway_cancel) = true -> h1.(teh_have_retried_goaway_cancel) = true))
    as (Hs & Hb & Hg1 & Hg2) by (unfold h1; by destruct (goaway_retry_allowed e h)).
  destruct Hs as (Hs1 & Hs2 & Hs3). unfold long_poll_allowed. rewrite Hs2.
  destruct (_ || goaway_retry_allowed e h) eqn:Hor.
  - intros (Hs' & Hg')%wait_retry_fixed. destruct Hs' as (Hs1' & Hs2' & Hs3').
    do 3 (split; [done|]). split; [|unfold same_call; rewrite Hg'; repeat split; auto; congruence].
    rewrite !orb_true_iff, andb_true_iff, !bool_decide_eq_true in Hor.
    destruct Hor as [[?|[? ?]]|?]; auto.
  - rewrite Hb. destruct (_ && (_ <=? _)%Z) eqn:Hl; [|done]. intros [= <- _].
    rewrite andb_true_iff, bool_decide_eq_true, Z.leb_le in Hl. destruct Hl.
    do 3 (split; [done|]). split; [auto|]. split; [by repeat split|done].
Qed.

Lemma retried_fixed h l h' : retried h l h' -> same_call h h'.
Proof.
  induction 1 as [|l h1 now e d h2 _ (H1 & H2 & H3) Hh]; [by repeat split|].
  apply handle_retries in Hh as (_ & _ & _ & _ & (H1' & H2' & H3') & _).
  repeat split; congruence.
Qed.

(** No more attempts than the configuration allows. *)
Lemma retried_bound h l h' :
  retried h l h' -> (0 < h.(teh_max_retries))%Z -> (Z.of_nat (length l) < h.(teh_max_retries))%Z.
Proof.
  intros Hr Hm. destruct Hr as [|l h1 now e d h2 Hr Hh]; [simpl; lia|].
  apply retried_fixed in Hr as (H1 & _ & _). apply handle_retries in Hh as (Ho & _).
  unfold out_of_retries in Ho. rewrite H1, length_app in *. simpl.
  destruct (Z.ltb_spec 0 (teh_max_retries h)); [|lia]. simpl in Ho.
  apply Z.leb_gt in Ho. lia.
Qed.

Lemma cancelled_not_retryable : Code_Cancelled ∉ RETRYABLE_ERROR_CODES.
Proof. by apply (bool_decide_eq_false_1 _). Qed.

(** The retries for a connection that went away. *)
Definition goaway_only (h : TonicErrorHandler B) (ne : Z * Status) : Prop :=
  h.(teh_call_type) <> CT_TaskLongPoll /\ ne.2.(status_code) = Code_Cancelled.

Lemma goaway_once h l h' :
  retried h l h' -> forall i j x y,
  l !! i = Some x -> l !! j = Some y -> goaway_only h x -> goaway_only h y -> i = j.
Proof.
  assert (forall l h', retried h l h' -> forall i x, l !! i = Some x -> goaway_only h x ->
    h'.(teh_have_retried_goaway_cancel) = true) as Hgo.
  { intros l0 h0 Hr. induction Hr as [|l0 h1 now e d h2 Hr IH Hh]; intros i x Hi Hx; [done|].
    apply handle_retries in Hh as (_ & _ & _ & Hm & _ & Hg & Hk).
    destruct (retried_fixed _ _ _ Hr) as (_ & Hct & _).
    apply lookup_app_Some in Hi as [Hi|[_ Hi]]; [by eapply Hk, IH|].
    apply list_lookup_singleton_Some in Hi as [_ <-]. destruct Hx as [Hn Hc]. simpl in Hc.
    apply Hg. destruct Hm as [Hin|[[Ht _]|Hg']]; [|congruence|done].
    rewrite Hc in Hin. by apply cancelled_not_retryable in Hin. }
  intros Hr. induction Hr as [|l h1 now e d h2 Hr IH Hh]; intros i j x y Hi Hj Hx Hy; [done|].
  assert (forall k z, l !! k = Some z -> goaway_only h z -> goaway_only h (now, e) -> False) as Hno.
  { intros k z Hk Hz [Hn Hc]. simpl in Hc. pose proof (Hgo _ _ Hr k z Hk Hz) as Ht.
    apply handle_retries in Hh as (_ & _ & _ & Hm & _).
    destruct (retried_fixed _ _ _ Hr) as (_ & Hct & _).
    destruct Hm as [Hin|[[Hl _]|Hg]].
    - rewrite Hc in Hin. by apply cancelled_not_retryable in Hin.
    - congruence.
    - unfold goaway_retry_allowed in Hg. by rewrite Ht in Hg. }
  apply lookup_app_Some in Hi as [Hi|[Hil Hi]]; apply lookup_app_Some in Hj as [Hj|[Hjl Hj]].
  - by eapply IH.
  - apply list_lookup_singleton_Some in Hj as [_ <-]. by destruct (Hno i x).
  - apply list_lookup_singleton_Some in Hi as [_ <-]. by destruct (Hno j y).
  - apply list_lookup_singleton_Some in Hi as [? _]. apply list_lookup_singleton_Some in Hj as [? _]. lia.
Qed.
(** Why each of the errors was retried. *)
Definition retry_reason (h : TonicErrorHandler B) (ne : Z * Status) : Prop :=
  short_circuited ne.2 h = false /\ message_too_large ne.2 = false /\
  (ne.2.(status_code) ∈ RETRYABLE_ERROR_CODES \/ h.(teh_call_type) = CT_TaskLongPoll \/
   (ne.2.(status_code) = Code_Cancelled /\ ne.2.(status_goaway) = true)).

Lemma retried_reasons h l h' : retried h l h' -> Forall (retry_reason h) l.
Proof.
  induction 1 as [|l h1 now e d h2 Hr IH Hh]; [constructor|].
  apply Forall_app. split; [done|]. apply Forall_singleton.
  destruct (retried_fixed _ _ _ Hr) as (_ & Ht & Hs).
  apply handle_retries in Hh as (_ & Hsc & Hm & Hr' & _).
  unfold short_circuited in Hsc. rewrite Hs in Hsc. split; [done|]. split; [done|].
  destruct Hr' as [?|[[? _]|Hg]]; simpl; [auto|right; left; congruence|].
  unfold goaway_retry_allowed in Hg. rewrite !andb_true_iff, bool_decide_eq_true in Hg.
  right. right. tauto.
Qed.

(** *** Task polls *)
Context `{!BackoffLaws B}.

Definition unlimited (h : TonicErrorHandler B) : Prop :=
  h.(teh_max_retries) = 0%Z /\ backoff_limit h.(teh_backoff) = None.

Lemma wait_retry_unlimited now e h :
  unlimited h -> exists h' d, wait_retry now e h = (h', WaitRetry d) /\ unlimited h'.
Proof.
  intros [Hm Hl]. unfold wait_retry.
  destruct (next_backoff_unlimited now _ Hl) as [d Hd].
  destruct (next_backoff_keeps now (teh_backoff h)) as [Hk _].
  destruct (next_backoff now (teh_backoff h)) as [o b]. simpl in *. subst o.
  case_bool_decide; [destruct (next_backoff now (teh_throttle_backoff h))|];
    (do 2 eexists; split; [done|]; split; simpl; congruence).
Qed.

Lemma handle_unlimited now a e h h' d :
  unlimited h -> handle now a e h = (h', WaitRetry d) -> unlimited h'.
Proof.
  intros [Hm Hl]. unfold handle.
  destruct (out_of_retries a h); [done|]. destruct (short_circuited e h); [done|].
  destruct (message_too_large e); [done|].
  set (h1 := if goaway_retry_allowed e h then set_goaway h else h). cbn zeta.
  assert (unlimited h1) as Hu by (unfold h1; by destruct (goaway_retry_allowed e h)).
  destruct (_ || goaway_retry_allowed e h).
  - destruct (wait_retry_unlimited now e h1 Hu) as (h2 & d2 & -> & Hu2). by intros [= <- _].
  - destruct (_ && (_ <=? _)%Z); [|done]. by intros [= <- _].
Qed.

Lemma retried_unlimited h l h' : unlimited h -> retried h l h' -> unlimited h'.
Proof. intros Hu. induction 1; [done|]. by eapply handle_unlimited. Qed.

Lemma task_poll_retried now a e h :
  unlimited h -> h.(teh_call_type) = CT_TaskLongPoll -> short_circuited e h = false ->
  message_too_large e = false ->
  e.(status_code) ∈ RETRYABLE_ERROR_CODES ++ [Code_Cancelled; Code_DeadlineExceeded] ->
  exists h' d, handle now a e h = (h', WaitRetry d).
Proof.
  intros Hu Ht Hs Hm Hc. unfold handle.
  assert (out_of_retries a h = false) as -> by (unfold out_of_retries; by rewrite (proj1 Hu)).
  rewrite Hs, Hm. set (h1 := if goaway_retry_allowed e h then set_goaway h else h). cbn zeta.
  assert (unlimited h1 /\ h1.(teh_call_type) = CT_TaskLongPoll) as [Hu1 Ht1]
    by (unfold h1; by destruct (goaway_retry_allowed e h)).
  assert (bool_decide (status_code e ∈ RETRYABLE_ERROR_CODES) || long_poll_allowed e h1
    || goaway_retry_allowed e h = true) as ->.
  { unfold long_poll_allowed. rewrite Ht1, !orb_true_iff, andb_true_iff, !bool_decide_eq_true.
    apply elem_of_app in Hc. tauto. }
  destruct (wait_retry_unlimited now e h1 Hu1) as (h2 & d & -> & _). eauto.
Qed.

End handler.

(** ** An example *)
Module RetryExample.

(** A backoff without growth. *)
Definition fixed : Type := RetryConfig * Z.
#[export] Instance fixed_backoff : Backoff fixed :=
  {| exp_backoff := fun c now => (c, now);
     next_backoff := fun now b =>
       (match b.1.(max_elapsed_time) with
        | Some limit => if (limit <? now - b.2)%Z then None else Some b.1.(initial_interval)
        | None => Some b.1.(initial_interval)
        end, b);
     get_elapsed_time := fun now b => (now - b.2)%Z;
     backoff_max_interval := fun b => b.1.(max_interval);
     backoff_limit := fun b => b.1.(max_elapsed_time) |}.
#[export] Instance fixed_backoff_laws : BackoffLaws fixed.
Proof. split; try done. intros now [c t]. simpl. intros ->. by eexists. Qed.

Definition unavailable : Status :=
  {| status_code := Code_Unavailable; status_message := ""; status_metadata := ∅;
     status_goaway := false |}.

Definition first_try : TonicErrorHandler fixed :=
  make_future_retry 0 (get_call_info RetryConfig_default None).

End RetryExample.
