(* ===== verification/Permits.v ===== *)
(** * Permits for slots (abstractions.rs, worker/tuner/fixed_size.rs)

    A worker takes a permit before it polls for a task and keeps it until the
    task is done.  Permits are dealt over a supplier of slots; the dealer counts
    those that exist and those not used yet.  A second dealer over it can be
    closed.  The code runs on several threads: a stretch of code between two
    accesses of shared state is a function on the state, and the calls that are
    under way are part of the state.  Metrics are left out. *)
From Stdlib Require Import ZArith Lia String.
From stdpp Require Import base option list gmap.
From S2P Require Import Prelude TimeArith.
Local Open Scope Z_scope.

(** ** Suppliers of slots *)

(** What a supplier may look at when it is asked for a slot. *)
Record SlotReservationContext := {
  num_issued_slots : Z;
  is_sticky : bool;
}.

(** The trait of suppliers: [reserve_slot] is what it does when its wait is
    over, and [None] while it waits; [drop_slot] is the end of the permit that a
    supplier gave with a slot. *)
Class SlotSupplier (Sup Slot Info : Type) := {
  reserve_slot : SlotReservationContext -> Sup -> option (Slot * Sup);
  try_reserve_slot : SlotReservationContext -> Sup -> option (Slot * Sup);
  mark_slot_used : Slot -> Info -> Sup -> Sup;
  release_slot : Slot -> option Info -> Sup -> Sup;
  drop_slot : Slot -> Sup -> Sup;
  available_slots : Sup -> option Z;
}.

(** A supplier that has a number of slots to give. *)
Class SlotCount (Sup Slot Info : Type) `{!SlotSupplier Sup Slot Info} := {
  slots_free : Sup -> Z;
  slots_free_nonneg : forall sup, 0 <= slots_free sup;
  reserve_slot_takes : forall c sup k sup',
    reserve_slot c sup = Some (k, sup') -> slots_free sup' = slots_free sup - 1;
  try_reserve_slot_takes : forall c sup k sup',
    try_reserve_slot c sup = Some (k, sup') -> slots_free sup' = slots_free sup - 1;
  mark_slot_used_keeps : forall k i sup, slots_free (mark_slot_used k i sup) = slots_free sup;
  release_slot_keeps : forall k i sup, slots_free (release_slot k i sup) = slots_free sup;
  drop_slot_gives : forall k sup, slots_free (drop_slot k sup) = slots_free sup + 1;
}.

(** *** A fixed number of slots

    The semaphore's free permits; a slot is an owned permit of the semaphore,
    which goes back when it is dropped. *)
Record FixedSizeSlotSupplier := { sem : N }.

Definition FixedSizeSlotSupplier_new (size : N) : FixedSizeSlotSupplier := {| sem := size |}.

Definition try_acquire_sem (s : FixedSizeSlotSupplier) : option (unit * FixedSizeSlotSupplier) :=
  if (0 <? s.(sem))%N then Some (tt, {| sem := s.(sem) - 1 |}) else None.

#[export] Instance fixed_size_supplier {Info} : SlotSupplier FixedSizeSlotSupplier unit Info := {
  reserve_slot _ s := try_acquire_sem s;
  try_reserve_slot _ s := try_acquire_sem s;
  mark_slot_used _ _ s := s;
  release_slot _ _ s := s;
  drop_slot _ s := {| sem := s.(sem) + 1 |};
  available_slots s := Some (Z.of_N s.(sem));
}.

Lemma try_acquire_sem_takes s k s' :
  try_acquire_sem s = Some (k, s') -> Z.of_N s'.(sem) = Z.of_N s.(sem) - 1.
Proof. unfold try_acquire_sem. destruct (N.ltb_spec 0 s.(sem)); intros [= <- <-]; simpl; lia. Qed.

#[export] Instance fixed_size_count {Info} : SlotCount FixedSizeSlotSupplier unit Info := {
  slots_free s := Z.of_N s.(sem);
  slots_free_nonneg s := N2Z.is_nonneg _;
  reserve_slot_takes _ := try_acquire_sem_takes;
  try_reserve_slot_takes _ := try_acquire_sem_takes;
  mark_slot_used_keeps _ _ _ := eq_refl;
  release_slot_keeps _ _ _ := eq_refl;
  drop_slot_gives _ s := N2Z.inj_add s.(sem) 1;
}.

(** ** The dealer *)

(** [AtomicUsize::fetch_sub], which wraps.  Counters go up by one for each object
    that exists, so that they do not reach the largest [usize]. *)
Definition fetch_sub (n : Z) : Z := if n =? 0 then u64_max else n - 1.

(** Its [unused_claimants] is there until the permit is used. *)
Record OwnedMeteredSemPermit (Slot Info : Type) := {
  mp_unused : bool;
  mp_slot : Slot;
  mp_info : option Info;
}.
Arguments mp_unused {Slot Info} o.
Arguments mp_slot {Slot Info} o.
Arguments mp_info {Slot Info} o.

(** The dealer with the calls that are under way: those that have seen that there
    are fewer permits than [max_permits], the slots reserved for which no permit
    is built yet, and the slots of permits whose [drop] has run.  Permits are
    named by numbers; [released] lists those released, in order. *)
Record MeteredPermitDealer (Sup Slot Info : Type) := {
  supplier : Sup;
  unused_claimants : Z;
  extant_permits : Z;
  max_permits : option Z;
  checked : nat;
  reserved : list Slot;
  permits : gmap N (OwnedMeteredSemPermit Slot Info);
  next_permit : N;
  dropping : list Slot;
  released : list N;
}.
Arguments supplier {Sup Slot Info} m.
Arguments unused_claimants {Sup Slot Info} m.
Arguments extant_permits {Sup Slot Info} m.
Arguments max_permits {Sup Slot Info} m.
Arguments checked {Sup Slot Info} m.
Arguments reserved {Sup Slot Info} m.
Arguments permits {Sup Slot Info} m.
Arguments next_permit {Sup Slot Info} m.
Arguments dropping {Sup Slot Info} m.
Arguments released {Sup Slot Info} m.

Section dealer.
  Context {Sup Slot Info : Type} `{!SlotSupplier Sup Slot Info}.
  Abbreviation Dealer := (MeteredPermitDealer Sup Slot Info).

Definition MeteredPermitDealer_new (sup : Sup) (max : option Z) : Dealer :=
  {| supplier := sup; unused_claimants := 0; extant_permits := 0; max_permits := max;
     checked := 0; reserved := []; permits := ∅; next_permit := 0; dropping := []; released := [] |}.

Definition available_permits (d : Dealer) : option Z := available_slots d.(supplier).

Definition set_counts (u e : Z) (d : Dealer) : Dealer :=
  {| supplier := d.(supplier); unused_claimants := u; extant_permits := e;
     max_permits := d.(max_permits); checked := d.(checked); reserved := d.(reserved);
     permits := d.(permits); next_permit := d.(next_permit); dropping := d.(dropping);
     released := d.(released) |}.

Definition set_calls (c : nat) (r : list Slot) (dr : list Slot) (d : Dealer) : Dealer :=
  {| supplier := d.(supplier); unused_claimants := d.(unused_claimants);
     extant_permits := d.(extant_permits); max_permits := d.(max_permits); checked := c;
     reserved := r; permits := d.(permits); next_permit := d.(next_permit); dropping := dr;
     released := d.(released) |}.

Definition set_supplier (sup : Sup) (d : Dealer) : Dealer :=
  {| supplier := sup; unused_claimants := d.(unused_claimants);
     extant_permits := d.(extant_permits); max_permits := d.(max_permits);
     checked := d.(checked); reserved := d.(reserved); permits := d.(permits);
     next_permit := d.(next_permit); dropping := d.(dropping); released := d.(released) |}.

Definition set_permits (p : gmap N (OwnedMeteredSemPermit Slot Info)) (n : N) (rel : list N)
    (d : Dealer) : Dealer :=
  {| supplier := d.(supplier); unused_claimants := d.(unused_claimants);
     extant_permits := d.(extant_permits); max_permits := d.(max_permits);
     checked := d.(checked); reserved := d.(reserved); permits := p; next_permit := n;
     dropping := d.(dropping); released := rel |}.

(** The comparison with [max_permits], for which [acquire_owned] waits and at
    which [try_acquire_owned] fails. *)
Definition acquire_check (d : Dealer) : option Dealer :=
  match d.(max_permits) with
  | Some max =>
      if d.(extant_permits) <? max then Some (set_calls (S d.(checked)) d.(reserved) d.(dropping) d)
      else None
  | None => Some (set_calls (S d.(checked)) d.(reserved) d.(dropping) d)
  end.

Definition context (sticky : bool) (d : Dealer) : SlotReservationContext :=
  {| num_issued_slots := d.(extant_permits); is_sticky := sticky |}.

(** The supplier gives a slot to a call that waits for one ([wait]) or tries. *)
Definition acquire_reserve (wait sticky : bool) (d : Dealer) : option Dealer :=
  match d.(checked) with
  | O => None
  | S n =>
      match (if wait then reserve_slot else try_reserve_slot) (context sticky d) d.(supplier) with
      | Some (k, sup) => Some (set_calls n (d.(reserved) ++ [k]) d.(dropping) (set_supplier sup d))
      | None => None
      end
  end.

(** A wait is given up, or no slot is there for a call that only tries. *)
Definition acquire_give_up (d : Dealer) : option Dealer :=
  match d.(checked) with
  | O => None
  | S n => Some (set_calls n d.(reserved) d.(dropping) d)
  end.

(** A permit for the [i]-th reserved slot. *)
Definition build_owned (i : nat) (d : Dealer) : option (N * Dealer) :=
  match d.(reserved) !! i with
  | None => None
  | Some k =>
      let id := d.(next_permit) in
      Some (id,
        set_permits (<[id := {| mp_unused := true; mp_slot := k; mp_info := None |}]> d.(permits))
          (id + 1)%N d.(released)
          (set_calls d.(checked) (delete i d.(reserved)) d.(dropping)
            (set_counts (d.(unused_claimants) + 1) (d.(extant_permits) + 1) d)))
  end.

Definition into_used (id : N) (info : Info) (d : Dealer) : option Dealer :=
  match d.(permits) !! id with
  | None => None
  | Some p =>
      let u := if p.(mp_unused) then fetch_sub d.(unused_claimants) else d.(unused_claimants) in
      Some (set_permits
        (<[id := {| mp_unused := false; mp_slot := p.(mp_slot); mp_info := Some info |}]> d.(permits))
        d.(next_permit) d.(released)
        (set_supplier (mark_slot_used p.(mp_slot) info d.(supplier))
          (set_counts u d.(extant_permits) d)))
  end.

(** [Drop::drop]: the slot is released, then the counter of permits goes down,
    which panics at zero where overflow is checked. *)
Definition drop_permit (id : N) (d : Dealer) : option (outcome Empty_set Dealer) :=
  match d.(permits) !! id with
  | None => None
  | Some p =>
      let u := if p.(mp_unused) then fetch_sub d.(unused_claimants) else d.(unused_claimants) in
      Some (if d.(extant_permits) =? 0 then Panic "attempt to subtract with overflow"%string else
        Ok (set_permits (delete id d.(permits)) d.(next_permit) (d.(released) ++ [id])
          (set_calls d.(checked) d.(reserved) (d.(dropping) ++ [p.(mp_slot)])
            (set_supplier (release_slot p.(mp_slot) p.(mp_info) d.(supplier))
              (set_counts u (d.(extant_permits) - 1) d)))))
  end.

(** The fields of a permit are dropped after [drop]: the slot goes back. *)
Definition drop_fields (i : nat) (d : Dealer) : option Dealer :=
  match d.(dropping) !! i with
  | None => None
  | Some k =>
      Some (set_calls d.(checked) d.(reserved) (delete i d.(dropping))
        (set_supplier (drop_slot k d.(supplier)) d))
  end.

(** ** What can happen to a dealer

    At most [callers] calls that acquire a permit are under way at once. *)
Definition acquiring (d : Dealer) : nat := d.(checked) + length d.(reserved).

Inductive dealer_step (callers : nat) (d : Dealer) : Dealer -> Prop :=
| DS_check d' : (acquiring d < callers)%nat -> acquire_check d = Some d' -> dealer_step callers d d'
| DS_reserve wait sticky d' : acquire_reserve wait sticky d = Some d' -> dealer_step callers d d'
| DS_give_up d' : acquire_give_up d = Some d' -> dealer_step callers d d'
| DS_build i id d' : build_owned i d = Some (id, d') -> dealer_step callers d d'
| DS_used id info d' : into_used id info d = Some d' -> dealer_step callers d d'
| DS_drop id d' : drop_permit id d = Some (Ok d') -> dealer_step callers d d'
| DS_fields i d' : drop_fields i d = Some d' -> dealer_step callers d d'.

Inductive dealer_reach (callers : nat) (sup : Sup) (max : option Z) : Dealer -> Prop :=
| DR_new : dealer_reach callers sup max (MeteredPermitDealer_new sup max)
| DR_step d d' :
    dealer_reach callers sup max d -> dealer_step callers d d' -> dealer_reach callers sup max d'.

(** The permits that are not used yet. *)
Definition unused_permits (d : Dealer) : gmap N (OwnedMeteredSemPermit Slot Info) :=
  filter (fun kv => kv.2.(mp_unused) = true) d.(permits).

Definition mapsize {A} (m : gmap N A) : Z := Z.of_nat (size m).

(** The counters count, and each permit given is there or was released once. *)
Record dealer_inv (callers : nat) (max : option Z) (d : Dealer) : Prop := {
  di_max : d.(max_permits) = max;
  di_extant : d.(extant_permits) = mapsize d.(permits);
  di_unused : d.(unused_claimants) = mapsize (unused_permits d);
  di_bound : forall m, max = Some m ->
    d.(extant_permits) + Z.of_nat (acquiring d) <= m - 1 + Z.of_nat callers;
  di_given : forall id, (id < d.(next_permit))%N <-> id ∈ dom d.(permits) \/ id ∈ d.(released);
  di_once : NoDup d.(released);
  di_gone : forall id, id ∈ d.(released) -> d.(permits) !! id = None;
}.
End dealer.

(** ** What holds of a dealer *)
Lemma mapsize_insert {A} (m : gmap N A) k x :
  m !! k = None -> mapsize (<[k := x]> m) = mapsize m + 1.
Proof. intros H. unfold mapsize. rewrite map_size_insert_None by done. lia. Qed.

Lemma mapsize_delete {A} (m : gmap N A) k :
  is_Some (m !! k) -> mapsize (delete k m) = mapsize m - 1.
Proof.
  intros [x H]. unfold mapsize. rewrite map_size_delete_Some by eauto.
  assert (size m <> 0%nat); [|lia]. intros ->%map_size_empty_iff. done.
Qed.

Lemma mapsize_update {A} (m : gmap N A) k x :
  is_Some (m !! k) -> mapsize (<[k := x]> m) = mapsize m.
Proof. intros [y H]. unfold mapsize. by rewrite map_size_insert, H. Qed.

Lemma mapsize_pos {A} (m : gmap N A) k : is_Some (m !! k) -> 0 < mapsize m.
Proof. intros H. pose proof (mapsize_delete m k H). unfold mapsize in *. lia. Qed.

Lemma fetch_sub_pos n : 0 < n -> fetch_sub n = n - 1.
Proof. intros H. unfold fetch_sub. by rewrite (proj2 (Z.eqb_neq n 0)) by lia. Qed.

Lemma length_delete {A} (l : list A) i x : l !! i = Some x -> length l = S (length (delete i l)).
Proof. intros H. exact (Permutation_length (delete_Permutation l i x H)). Qed.

Section dealer_facts.
  Context {Sup Slot Info : Type} `{!SlotSupplier Sup Slot Info}.
  Abbreviation Dealer := (MeteredPermitDealer Sup Slot Info).
  Implicit Types (d : Dealer).

(** Using or dropping a permit leaves one unused permit less, if it was unused. *)
Lemma unused_count d id p :
  d.(unused_claimants) = mapsize (unused_permits d) -> d.(permits) !! id = Some p ->
  (if p.(mp_unused) then fetch_sub d.(unused_claimants) else d.(unused_claimants)) =
  mapsize (delete id (unused_permits d)).
Proof.
  intros -> Hp. destruct (mp_unused p) eqn:Hu.
  - assert (is_Some (unused_permits d !! id)) as Hs.
    { exists p. apply map_lookup_filter_Some. done. }
    rewrite fetch_sub_pos by (by eapply mapsize_pos). by rewrite mapsize_delete.
  - rewrite delete_id; [done|]. apply map_lookup_filter_None. right.
    intros q Hq. simpl. congruence.
Qed.

Lemma next_fresh callers max d : dealer_inv callers max d -> d.(permits) !! d.(next_permit) = None.
Proof.
  intros I. apply not_elem_of_dom. intros H.
  pose proof (proj2 (di_given _ _ _ I _) (or_introl H)). lia.
Qed.

(** A step that leaves the permits and the counters as they are. *)
Lemma dealer_inv_calls callers max d d' :
  dealer_inv callers max d ->
  d'.(max_permits) = d.(max_permits) -> d'.(extant_permits) = d.(extant_permits) ->
  d'.(unused_claimants) = d.(unused_claimants) -> d'.(permits) = d.(permits) ->
  d'.(next_permit) = d.(next_permit) -> d'.(released) = d.(released) ->
  (forall m, max = Some m ->
     d.(extant_permits) + Z.of_nat (acquiring d') <= m - 1 + Z.of_nat callers) ->
  dealer_inv callers max d'.
Proof.
  intros [] ? He Hu Hp Hn Hr Hb. unfold unused_permits in *.
  split; unfold unused_permits; rewrite ?He, ?Hu, ?Hp, ?Hn, ?Hr; first [congruence | done].
Qed.

Lemma build_owned_inv callers max d i id d' :
  dealer_inv callers max d -> build_owned i d = Some (id, d') -> dealer_inv callers max d'.
Proof.
  intros I Hb. pose proof (next_fresh _ _ _ I) as Hf. destruct I as [Hm He Hu Hbd Hg Ho Hgo].
  unfold build_owned in Hb. destruct (reserved d !! i) as [k|] eqn:Hk; [|done].
  apply length_delete in Hk. injection Hb as <- <-.
  split; simpl; unfold acquiring, unused_permits in *; simpl in *.
  - done.
  - rewrite mapsize_insert by done. lia.
  - rewrite map_filter_insert_True by done. rewrite mapsize_insert; [lia|].
    apply map_lookup_filter_None. by left.
  - intros m Hm'. specialize (Hbd m Hm'). lia.
  - intros j. rewrite dom_insert_L, elem_of_union, elem_of_singleton.
    assert ((j < next_permit d + 1)%N <-> j = next_permit d \/ (j < next_permit d)%N) as -> by lia.
    rewrite Hg. tauto.
  - done.
  - intros j Hj. rewrite lookup_insert_ne; [by apply Hgo|].
    intros <-. pose proof (proj2 (Hg _) (or_intror Hj)). lia.
Qed.

Lemma into_used_inv callers max d id info d' :
  dealer_inv callers max d -> into_used id info d = Some d' -> dealer_inv callers max d'.
Proof.
  intros [Hm He Hu Hbd Hg Ho Hgo] Hb. unfold into_used in Hb.
  destruct (permits d !! id) as [p|] eqn:Hp; [|done]. injection Hb as <-.
  pose proof (unused_count _ _ _ Hu Hp) as Huc.
  split; simpl; unfold acquiring, unused_permits in *; simpl in *; try done.
  - by rewrite mapsize_update by eauto.
  - rewrite map_filter_insert_False by done. by rewrite map_filter_delete.
  - intros j. rewrite Hg, dom_insert_L, elem_of_union, elem_of_singleton.
    assert (id ∈ dom (permits d)) by (apply elem_of_dom; eauto).
    intuition congruence.
  - intros j Hj. rewrite lookup_insert_ne; [by apply Hgo|]. intros <-. by rewrite Hgo in Hp.
Qed.

Lemma drop_permit_inv callers max d id o :
  dealer_inv callers max d -> drop_permit id d = Some o ->
  exists d', o = Ok d' /\ dealer_inv callers max d'.
Proof.
  intros [Hm He Hu Hbd Hg Ho Hgo] Hb. unfold drop_permit in Hb.
  destruct (permits d !! id) as [p|] eqn:Hp; [|done].
  pose proof (mapsize_pos _ _ (ex_intro _ p Hp)) as Hpos.
  rewrite (proj2 (Z.eqb_neq _ 0)) in Hb by lia. injection Hb as <-. eexists. split; [done|].
  pose proof (unused_count _ _ _ Hu Hp) as Huc.
  split; simpl; unfold acquiring, unused_permits in *; simpl in *; try done.
  - rewrite mapsize_delete by eauto. lia.
  - by rewrite map_filter_delete.
  - intros m Hm'. specialize (Hbd m Hm'). lia.
  - intros j. rewrite Hg, dom_delete_L, elem_of_difference, elem_of_singleton, elem_of_app,
      list_elem_of_singleton.
    assert (id ∈ dom (permits d)) by (apply elem_of_dom; eauto).
    destruct (decide (j = id)) as [->|]; tauto.
  - apply NoDup_app. split_and!; [done| |apply NoDup_singleton].
    intros j Hj ->%list_elem_of_singleton. by rewrite Hgo in Hp.
  - intros j [Hj| ->%list_elem_of_singleton]%elem_of_app; [|apply lookup_delete_eq].
    destruct (decide (id = j)) as [->|]; [apply lookup_delete_eq|].
    rewrite lookup_delete_ne by done. by apply Hgo.
Qed.

Lemma dealer_step_inv callers max d d' :
  dealer_inv callers max d -> dealer_step callers d d' -> dealer_inv callers max d'.
Proof.
  intros I Hs. pose proof (di_max _ _ _ I) as Hm. pose proof (di_bound _ _ _ I) as Hbd.
  destruct Hs as [d' Hc H|w st d' H|d' H|i id d' H|id info d' H|id d' H|i d' H].
  - assert (d' = set_calls (S (checked d)) (reserved d) (dropping d) d /\
            forall m, max = Some m -> extant_permits d < m) as [-> Hlt].
    { unfold acquire_check in H. rewrite Hm in H. destruct max as [m|]; [|by injection H as <-].
      destruct (Z.ltb_spec (extant_permits d) m); [|done]. injection H as <-.
      split; [done|]. by intros ? [= <-]. }
    eapply dealer_inv_calls; try done. intros m Hm'. specialize (Hlt m Hm').
    unfold acquiring in *. simpl in *. lia.
  - unfold acquire_reserve in H. destruct (checked d) as [|n] eqn:Hn; [done|].
    destruct ((if w then _ else _) _ _) as [[k sup]|]; [|done]. injection H as <-.
    eapply dealer_inv_calls; try done. intros m Hm'. specialize (Hbd m Hm').
    unfold acquiring in *. simpl in *. rewrite length_app. simpl. lia.
  - unfold acquire_give_up in H. destruct (checked d) as [|n] eqn:Hn; [done|]. injection H as <-.
    eapply dealer_inv_calls; try done. intros m Hm'. specialize (Hbd m Hm').
    unfold acquiring in *. simpl in *. lia.
  - by eapply build_owned_inv.
  - by eapply into_used_inv.
  - destruct (drop_permit_inv _ _ _ _ _ I H) as (? & [= <-] & ?). done.
  - unfold drop_fields in H. destruct (dropping d !! i) as [k|]; [|done]. injection H as <-.
    eapply dealer_inv_calls; try done.
Qed.

Lemma dealer_reach_inv callers sup max d :
  (1 <= callers)%nat -> (forall m, max = Some m -> 0 <= m) ->
  dealer_reach callers sup max d -> dealer_inv callers max d.
Proof.
  intros Hc Hmax. induction 1 as [|d d' _ IH Hs]; [|by eapply dealer_step_inv].
  split; simpl; try done.
  - intros m Hm. unfold acquiring. simpl. specialize (Hmax m Hm). lia.
  - intros id. rewrite dom_empty_L. set_solver by lia.
  - apply NoDup_nil_2.
Qed.

(** *** Slots *)
Context `{!SlotCount Sup Slot Info}.

Definition slots_out (d : Dealer) : Z :=
  Z.of_nat (length d.(reserved)) + mapsize d.(permits) + Z.of_nat (length d.(dropping)).

Lemma dealer_step_slots callers max d d' :
  dealer_inv callers max d -> dealer_step callers d d' ->
  slots_free d'.(supplier) + slots_out d' = slots_free d.(supplier) + slots_out d.
Proof.
  intros I Hs. unfold slots_out.
  destruct Hs as [d' Hc H|w st d' H|d' H|i id d' H|id info d' H|id d' H|i d' H].
  - unfold acquire_check in H. destruct (max_permits d) as [m|]; [case_match; [|done]|];
      by injection H as <-.
  - unfold acquire_reserve in H. destruct (checked d) as [|n] eqn:Hn; [done|].
    destruct ((if w then _ else _) _ _) as [[k sup]|] eqn:Hr; [|done]. injection H as <-. simpl.
    rewrite length_app. simpl.
    assert (slots_free sup = slots_free (supplier d) - 1); [|lia].
    destruct w; [by eapply reserve_slot_takes|by eapply try_reserve_slot_takes].
  - unfold acquire_give_up in H. destruct (checked d); [done|]. by injection H as <-.
  - pose proof (next_fresh _ _ _ I) as Hf. unfold build_owned in H.
    destruct (reserved d !! i) as [k|] eqn:Hk; [|done]. apply length_delete in Hk.
    injection H as <- <-. simpl. rewrite mapsize_insert by done. lia.
  - unfold into_used in H. destruct (permits d !! id) as [p|] eqn:Hp; [|done]. injection H as <-.
    simpl. rewrite mark_slot_used_keeps, mapsize_update by eauto. lia.
  - unfold drop_permit in H. destruct (permits d !! id) as [p|] eqn:Hp; [|done].
    case_match; [done|]. injection H as <-. simpl.
    rewrite release_slot_keeps, mapsize_delete, length_app by eauto. simpl. lia.
  - unfold drop_fields in H. destruct (dropping d !! i) as [k|] eqn:Hk; [|done].
    apply length_delete in Hk. injection H as <-. simpl. rewrite drop_slot_gives. lia.
Qed.

Lemma dealer_reach_slots callers sup max d :
  (1 <= callers)%nat -> (forall m, max = Some m -> 0 <= m) ->
  dealer_reach callers sup max d ->
  slots_free d.(supplier) + slots_out d = slots_free sup.
Proof.
  intros Hc Hmax. induction 1 as [|d d' Hr IH Hs]; [unfold slots_out, mapsize; simpl; rewrite map_size_empty; lia|].
  rewrite <- IH. eapply dealer_step_slots; [|done]. by eapply dealer_reach_inv.
Qed.

(** C12 However the calls of several threads interleave, the
    counters of a dealer are the numbers of permits and of unused permits; each
    permit that was given is held or was released exactly once, and dropping one
    does not panic; every slot of the supplier is free or accounted for, so that
    there are never more permits than slots; and with a maximum there are at most
    as many permits as it says, plus one for every further call that acquires at
    the same time. *)
Theorem permits_accounted callers sup max d :
  (1 <= callers)%nat -> (forall m, max = Some m -> 0 <= m) ->
  dealer_reach callers sup max d ->
  d.(extant_permits) = mapsize d.(permits) /\
  d.(unused_claimants) = mapsize (unused_permits d) /\
  (forall id, (id < d.(next_permit))%N <-> id ∈ dom d.(permits) \/ id ∈ d.(released)) /\
  NoDup d.(released) /\ (forall id, id ∈ d.(released) -> d.(permits) !! id = None) /\
  (forall id o, drop_permit id d = Some o -> exists d', o = Ok d') /\
  slots_free d.(supplier) + slots_out d = slots_free sup /\
  mapsize d.(permits) <= slots_free sup /\
  (forall m, max = Some m -> mapsize d.(permits) <= m + (Z.of_nat callers - 1)).
Proof.
  intros Hc Hmax Hr. pose proof (dealer_reach_inv _ _ _ _ Hc Hmax Hr) as I.
  pose proof (dealer_reach_slots _ _ _ _ Hc Hmax Hr) as Hs.
  pose proof (slots_free_nonneg (supplier d)). unfold slots_out, mapsize in Hs.
  split_and!; try apply I; try done.
  - intros id o Ho. destruct (drop_permit_inv _ _ _ _ _ I Ho) as (d' & -> & _). eauto.
  - unfold mapsize. lia.
  - intros m Hm. pose proof (di_bound _ _ _ I m Hm). rewrite <- (di_extant _ _ _ I). lia.
Qed.
End dealer_facts.

(** ** The dealer that can be closed

    Its counters and the calls that are under way: calls of [try_acquire_owned]
    that have seen that it is open, that have counted their permit, and that did
    not get one; drops that have counted down, and those of them that have seen
    that it is closing; calls of [close] that have made their request.
    [tracked_permits] are those handed out and not dropped.  [overlapped] notes
    that a request was made while a permit was being acquired. *)
Record ClosableMeteredPermitDealer := {
  outstanding_permits : Z;
  close_requested : bool;
  close_completed : bool;
  acq_open : nat;
  acq_counted : nat;
  acq_failed : nat;
  tracked_permits : nat;
  drop_counted : nat;
  drop_closing : nat;
  closing : nat;
  overlapped : bool;
}.

Definition ClosableMeteredPermitDealer_new : ClosableMeteredPermitDealer :=
  {| outstanding_permits := 0; close_requested := false; close_completed := false; acq_open := 0;
     acq_counted := 0; acq_failed := 0; tracked_permits := 0; drop_counted := 0;
     drop_closing := 0; closing := 0; overlapped := false |}.

Definition set_acq (n : Z) (o c f t : nat) (s : ClosableMeteredPermitDealer)
    : ClosableMeteredPermitDealer :=
  {| outstanding_permits := n; close_requested := s.(close_requested);
     close_completed := s.(close_completed); acq_open := o; acq_counted := c; acq_failed := f;
     tracked_permits := t; drop_counted := s.(drop_counted); drop_closing := s.(drop_closing);
     closing := s.(closing); overlapped := s.(overlapped) |}.

Definition set_close (done : bool) (dc dl cl : nat) (s : ClosableMeteredPermitDealer)
    : ClosableMeteredPermitDealer :=
  {| outstanding_permits := s.(outstanding_permits); close_requested := s.(close_requested);
     close_completed := done; acq_open := s.(acq_open); acq_counted := s.(acq_counted);
     acq_failed := s.(acq_failed); tracked_permits := s.(tracked_permits); drop_counted := dc;
     drop_closing := dl; closing := cl; overlapped := s.(overlapped) |}.

(** [close]: the request, then the check whether there are permits. *)
Definition close_request (s : ClosableMeteredPermitDealer) : ClosableMeteredPermitDealer :=
  {| outstanding_permits := s.(outstanding_permits); close_requested := true;
     close_completed := s.(close_completed); acq_open := s.(acq_open);
     acq_counted := s.(acq_counted); acq_failed := s.(acq_failed);
     tracked_permits := s.(tracked_permits); drop_counted := s.(drop_counted);
     drop_closing := s.(drop_closing); closing := S s.(closing);
     overlapped := s.(overlapped) || (0 <? s.(acq_open) + s.(acq_counted) + s.(acq_failed))%nat |}.

Definition close_check (s : ClosableMeteredPermitDealer) : option ClosableMeteredPermitDealer :=
  match s.(closing) with
  | O => None
  | S n =>
      Some (set_close (s.(close_completed) || (s.(outstanding_permits) =? 0))
        s.(drop_counted) s.(drop_closing) n s)
  end.

(** [try_acquire_owned]: a closed dealer fails at once; the permit is counted; the
    dealer below gives one or not ([got]); if not, the count is taken back. *)
Definition try_open (s : ClosableMeteredPermitDealer) : option ClosableMeteredPermitDealer :=
  if s.(close_requested) then None
  else Some (set_acq s.(outstanding_permits) (S s.(acq_open)) s.(acq_counted) s.(acq_failed)
    s.(tracked_permits) s).

Definition try_count (s : ClosableMeteredPermitDealer) : option ClosableMeteredPermitDealer :=
  match s.(acq_open) with
  | O => None
  | S n => Some (set_acq (s.(outstanding_permits) + 1) n (S s.(acq_counted)) s.(acq_failed)
      s.(tracked_permits) s)
  end.

Definition try_inner (got : bool) (s : ClosableMeteredPermitDealer)
    : option ClosableMeteredPermitDealer :=
  match s.(acq_counted) with
  | O => None
  | S n =>
      Some (if got then set_acq s.(outstanding_permits) s.(acq_open) n s.(acq_failed)
                          (S s.(tracked_permits)) s
            else set_acq s.(outstanding_permits) s.(acq_open) n (S s.(acq_failed))
                          s.(tracked_permits) s)
  end.

Definition try_undo (s : ClosableMeteredPermitDealer) : option ClosableMeteredPermitDealer :=
  match s.(acq_failed) with
  | O => None
  | S n => Some (set_acq (fetch_sub s.(outstanding_permits)) s.(acq_open) s.(acq_counted) n
      s.(tracked_permits) s)
  end.

(** [on_permit_dropped]: the count goes down; a closing dealer that has no more
    permits has closed. *)
Definition dropped_count (s : ClosableMeteredPermitDealer) : option ClosableMeteredPermitDealer :=
  match s.(tracked_permits) with
  | O => None
  | S n =>
      Some (set_close s.(close_completed) (S s.(drop_counted)) s.(drop_closing) s.(closing)
        (set_acq (fetch_sub s.(outstanding_permits)) s.(acq_open) s.(acq_counted) s.(acq_failed) n s))
  end.

Definition dropped_closing (s : ClosableMeteredPermitDealer) : option ClosableMeteredPermitDealer :=
  match s.(drop_counted) with
  | O => None
  | S n =>
      Some (set_close s.(close_completed) n
        (if s.(close_requested) then S s.(drop_closing) else s.(drop_closing)) s.(closing) s)
  end.

Definition dropped_check (s : ClosableMeteredPermitDealer) : option ClosableMeteredPermitDealer :=
  match s.(drop_closing) with
  | O => None
  | S n =>
      Some (set_close (s.(close_completed) || (s.(outstanding_permits) =? 0))
        s.(drop_counted) n s.(closing) s)
  end.

(** The steps other than a request to close. *)
Inductive closable_own_step (s s' : ClosableMeteredPermitDealer) : Prop :=
| CS_check : close_check s = Some s' -> closable_own_step s s'
| CS_open : try_open s = Some s' -> closable_own_step s s'
| CS_count : try_count s = Some s' -> closable_own_step s s'
| CS_inner got : try_inner got s = Some s' -> closable_own_step s s'
| CS_undo : try_undo s = Some s' -> closable_own_step s s'
| CS_dropped : dropped_count s = Some s' -> closable_own_step s s'
| CS_drop_closing : dropped_closing s = Some s' -> closable_own_step s s'
| CS_drop_check : dropped_check s = Some s' -> closable_own_step s s'.

Inductive closable_reach : ClosableMeteredPermitDealer -> Prop :=
| CR_new : closable_reach ClosableMeteredPermitDealer_new
| CR_close s : closable_reach s -> closable_reach (close_request s)
| CR_step s s' : closable_reach s -> closable_own_step s s' -> closable_reach s'.

Record closable_inv (s : ClosableMeteredPermitDealer) : Prop := {
  ci_count : s.(outstanding_permits) =
    Z.of_nat (s.(acq_counted) + s.(acq_failed) + s.(tracked_permits));
  ci_requested : s.(close_completed) = true \/ (0 < s.(closing) + s.(drop_closing))%nat ->
    s.(close_requested) = true;
  ci_none : s.(close_requested) = true -> s.(overlapped) = false ->
    (s.(acq_open) + s.(acq_counted) + s.(acq_failed) = 0)%nat;
  ci_returned : s.(close_completed) = true -> s.(overlapped) = false -> s.(tracked_permits) = O;
  ci_done : s.(close_requested) = true -> s.(overlapped) = false -> s.(tracked_permits) = O ->
    (s.(drop_counted) + s.(drop_closing) + s.(closing) = 0)%nat -> s.(close_completed) = true;
  ci_open : s.(close_requested) = false -> s.(overlapped) = false;
}.

Lemma closable_own_step_inv s s' : closable_inv s -> closable_own_step s s' -> closable_inv s'.
Proof.
  intros [Hc Hq Hn Ht Hd Ho] Hs.
  destruct s as [n rq dn ao ac af tr dc dl cl ov]; simpl in *.
  destruct Hs as [H|H|H|got H|H|H|H|H]; cbv [close_check try_open try_count try_inner try_undo
    dropped_count dropped_closing dropped_check set_acq set_close] in H; simpl in H.
  - destruct cl as [|cl]; [done|]. injection H as <-.
    split; simpl; try done; destruct dn, rq, ov; simpl in *; intros; try done; try (by auto with lia);
      try (destruct (Z.eqb_spec n 0)); try done; try lia; try (by auto with lia).
  - destruct rq; [done|]. injection H as <-. split; simpl; try done; try (by intros; lia).
  - destruct ao as [|ao]; [done|]. injection H as <-. split; simpl; try done; try lia;
      intros; exfalso; by (specialize (Hn ltac:(done) ltac:(done)); lia).
  - destruct ac as [|ac]; [done|]. injection H as <-.
    destruct got; split; simpl; try done; try lia; intros; exfalso;
      assert (rq = true) by (by auto); specialize (Hn ltac:(done) ltac:(done)); lia.
  - destruct af as [|af]; [done|]. injection H as <-.
    rewrite fetch_sub_pos by lia. split; simpl; try done; try lia; intros; exfalso;
      assert (rq = true) by (by auto); specialize (Hn ltac:(done) ltac:(done)); lia.
  - destruct tr as [|tr]; [done|]. injection H as <-.
    rewrite fetch_sub_pos by lia. split; simpl; try done; try lia; intros;
      specialize (Ht ltac:(done) ltac:(done)); lia.
  - destruct dc as [|dc]; [done|]. injection H as <-.
    destruct rq; split; simpl; try done; try lia; by (intros; auto with lia).
  - destruct dl as [|dl]; [done|]. injection H as <-.
    split; simpl; try done; destruct dn, rq, ov; simpl in *; intros; try done; try (by auto with lia);
      try (destruct (Z.eqb_spec n 0)); try done; try lia; try (by auto with lia).
Qed.

Lemma close_request_inv s : closable_inv s -> closable_inv (close_request s).
Proof.
  intros [Hc Hq Hn Ht Hd Ho]. split; simpl; try done.
  - intros _ [_ H]%orb_false_iff. apply Nat.ltb_ge in H. lia.
  - intros H1 [H2 _]%orb_false_iff. by apply Ht.
  - intros. lia.
Qed.

Lemma closable_reach_inv s : closable_reach s -> closable_inv s.
Proof.
  induction 1 as [|s _ IH|s s' _ IH Hs].
  - split; simpl; try done; lia.
  - by apply close_request_inv.
  - by eapply closable_own_step_inv.
Qed.

(** No call of [close] or of the drop of a permit is under way. *)
Definition close_settled (s : ClosableMeteredPermitDealer) : Prop :=
  (s.(drop_counted) + s.(drop_closing) + s.(closing) = 0)%nat.

(** A dealer that was not asked to close while a permit was being acquired keeps
    its promises: from the request on no permit is handed out, closing completes
    only after the request and when every permit was returned, and it has
    completed as soon as that is so and no call is under way. *)
Theorem closing_waits_for_permits s :
  closable_reach s -> s.(overlapped) = false ->
  s.(outstanding_permits) = Z.of_nat (s.(acq_counted) + s.(acq_failed) + s.(tracked_permits)) /\
  (s.(close_requested) = true -> try_open s = None /\ try_count s = None /\
     forall got, try_inner got s = None) /\
  (s.(close_completed) = true -> s.(close_requested) = true /\ s.(tracked_permits) = O) /\
  (s.(close_requested) = true -> close_settled s ->
     (s.(close_completed) = true <-> s.(tracked_permits) = O)).
Proof.
  intros [Hc Hq Hn Ht Hd _]%closable_reach_inv Hov. split_and!; [done| | |].
  - intros Hr. specialize (Hn Hr Hov). unfold try_open, try_count, try_inner. rewrite Hr.
    destruct (acq_open s); [|lia]. destruct (acq_counted s); [|lia]. done.
  - auto.
  - intros Hr Hs. split; auto.
Qed.

(** ** Examples *)
Module PermitExample.

(** Runs a sequence of functions on the state. *)
Definition run {A} (fs : list (A -> option A)) (a : A) : option A :=
  foldl (fun o f => o ≫= f) (Some a) fs.

Lemma run_keeps {A} (P : A -> Prop) fs a a' :
  Forall (fun f => forall s s', f s = Some s' -> P s -> P s') fs -> P a -> run fs a = Some a' -> P a'.
Proof.
  unfold run. intros Hfs. revert a. induction Hfs as [|f fs Hf _ IH]; simpl; intros a Ha H.
  - by injection H as <-.
  - destruct (f a) as [a1|] eqn:E; simpl in *; [by eapply IH, H; eapply Hf|].
    exfalso. clear -H. induction fs; simpl in *; [done|auto].
Qed.

Abbreviation FixedDealer := (MeteredPermitDealer FixedSizeSlotSupplier unit unit).

Definition dealer0 : FixedDealer :=
  MeteredPermitDealer_new (FixedSizeSlotSupplier_new 3) (Some 1).

Definition check2 (d : FixedDealer) :=
  if (acquiring d <? 2)%nat then acquire_check d else None.

Definition build0 (d : FixedDealer) :=
  snd <$> build_owned 0 d.

(** Two pollers see that there is no permit yet, and both get one. *)
Definition two_acquired : option FixedDealer :=
  run [check2; check2; acquire_reserve true false; acquire_reserve true true; build0;
       build0; into_used 0 tt] dealer0.

Lemma two_acquired_reach d :
  two_acquired = Some d -> dealer_reach 2 (FixedSizeSlotSupplier_new 3) (Some 1) d.
Proof.
  apply run_keeps; [|apply DR_new].
  repeat apply Forall_cons_2; [intros s s' E R; (eapply DR_step; [exact R|]) ..|apply Forall_nil_2].
  1, 2: unfold check2 in E; destruct (Nat.ltb_spec (acquiring s) 2); [by apply DS_check|done].
  1, 2: by eapply DS_reserve.
  1, 2: unfold build0 in E; destruct (build_owned 0 s) as [[id d']|] eqn:Hb; [|done];
    injection E as <-; by eapply DS_build.
  by eapply DS_used.
Qed.

Lemma permits_accounted_witness :
  exists d, two_acquired = Some d /\
    d.(extant_permits) = mapsize d.(permits) /\
    slots_free (Info := unit) d.(supplier) + slots_out d = 3 /\
    (forall m, Some 1 = Some m -> mapsize d.(permits) <= m + (Z.of_nat 2 - 1)).
Proof.
  destruct two_acquired as [d|] eqn:E; [|by vm_compute in E]. exists d.
  destruct (permits_accounted 2 (FixedSizeSlotSupplier_new 3) (Some 1) d
    ltac:(lia) ltac:(by intros ? [= <-]) (two_acquired_reach d E)) as (H1 & _ & _ & _ & _ & _ & H2 & _ & H3).
  split_and!; [done|exact H1|exact H2|exact H3].
Defined.

(** More permits than [max_permits] exist. *)
Lemma max_permits_exceeded :
  exists d : FixedDealer, dealer_reach 2 (FixedSizeSlotSupplier_new 3) (Some 1) d /\ d.(extant_permits) = 2.
Proof.
  destruct two_acquired as [d|] eqn:E; [|by vm_compute in E]. exists d.
  split; [by apply two_acquired_reach|]. vm_compute in E. by injection E as <-.
Qed.

Definition request (s : ClosableMeteredPermitDealer) := Some (close_request s).

Ltac closable_step :=
  let E := fresh in let R := fresh in
  intros ? ? E R;
  first [ injection E as <-; by apply CR_close
        | eapply CR_step; [exact R|];
          first [by apply CS_check | by apply CS_open | by apply CS_count | by eapply CS_inner
                | by apply CS_undo | by apply CS_dropped | by apply CS_drop_closing
                | by apply CS_drop_check] ].
Ltac closable_steps := repeat apply Forall_cons_2; [closable_step ..|apply Forall_nil_2].

(** A permit is acquired, the dealer is closed, the permit is dropped. *)
Definition closed_in_order : list (ClosableMeteredPermitDealer -> option ClosableMeteredPermitDealer) :=
  [try_open; try_count; try_inner true; request; close_check; dropped_count; dropped_closing;
   dropped_check].

(** A reservation fails while the dealer is asked to close. *)
Definition failed_meanwhile : list (ClosableMeteredPermitDealer -> option ClosableMeteredPermitDealer) :=
  [try_open; try_count; request; close_check; try_inner false; try_undo].

(** A reservation goes on after the dealer was asked to close. *)
Definition late_reservation : list (ClosableMeteredPermitDealer -> option ClosableMeteredPermitDealer) :=
  [try_open; request; close_check; try_count; try_inner true].

Definition after (fs : list (ClosableMeteredPermitDealer -> option ClosableMeteredPermitDealer)) :=
  default ClosableMeteredPermitDealer_new (run fs ClosableMeteredPermitDealer_new).

Lemma after_reach fs :
  Forall (fun f => forall s s', f s = Some s' -> closable_reach s -> closable_reach s') fs ->
  closable_reach (after fs).
Proof.
  intros H. unfold after. destruct (run fs _) as [s|] eqn:E; [|apply CR_new].
  eapply run_keeps; [exact H|apply CR_new|exact E].
Qed.

Lemma closed_in_order_reach : closable_reach (after closed_in_order).
Proof. apply after_reach. closable_steps. Qed.

Lemma closing_waits_for_permits_witness :
  (after closed_in_order).(close_completed) = true <-> (after closed_in_order).(tracked_permits) = O.
Proof.
  refine (proj2 (proj2 (proj2 (closing_waits_for_permits (after closed_in_order)
    closed_in_order_reach _))) _ _); vm_compute; reflexivity.
Defined.

(** A reservation that fails while the dealer is asked to close takes its count
    back without looking whether the dealer is closing: no permit is left, and
    nothing but another request to close will complete the first. *)
Lemma failed_reservation_blocks_close :
  exists s, closable_reach s /\ s.(close_requested) = true /\ s.(tracked_permits) = O /\
    s.(outstanding_permits) = 0 /\ s.(close_completed) = false /\
    forall s', ~ closable_own_step s s'.
Proof.
  exists (after failed_meanwhile). split; [apply after_reach; closable_steps|].
  split_and!; try (by vm_compute). intros s' [H|H|H|got H|H|H|H|H]; by vm_compute in H.
Qed.

(** A reservation that saw the dealer open gets a permit after it has closed. *)
Lemma permit_after_close :
  exists s, closable_reach s /\ s.(close_completed) = true /\ s.(tracked_permits) = 1%nat.
Proof.
  exists (after late_reservation). split; [apply after_reach; closable_steps|]. by vm_compute.
Qed.
End PermitExample.
