(* ===== verification/PollBuffer.v ===== *)
(** * Polling for tasks (pollers/poll_buffer.rs)

    A buffer polls the server for tasks: a loop takes a permit, waits until a
    further poll is allowed and spawns it; the polls put what they get into a
    channel.  How many polls are allowed follows the server's suggestions.  The
    loop and the polls are tasks: what each does between two points at which it
    waits is a function on the state of the buffer, and the atomics a result
    updates are updated in one step.  The delay before a permit is any wait, and
    the callback that notes the backlog of the sticky queue for it is left out. *)
From Stdlib Require Import ZArith Lia SpecFloat String.
From stdpp Require Import base option list strings gmap.
From S2P Require Import Prelude TimeArith Permits ServerRetry.
Local Open Scope Z_scope.

(** ** How many pollers *)
Inductive PollerBehavior :=
| SimpleMaximum (m : Z)
| Autoscaling (minimum maximum initial : Z).

Definition is_autoscaling (b : PollerBehavior) : bool :=
  match b with Autoscaling _ _ _ => true | SimpleMaximum _ => false end.

Definition validate_behavior (b : PollerBehavior) : outcome string unit :=
  match b with
  | SimpleMaximum x =>
      if x <? 1 then Err "SimpleMaximum poller behavior must be at least 1"%string else Ok tt
  | Autoscaling minimum maximum initial =>
      if minimum <? 1 then Err "Autoscaling minimum poller behavior must be at least 1"%string
      else if maximum <? minimum then
        Err "Autoscaling maximum must be greater than or equal to minimum"%string
      else if (initial <? minimum) || (maximum <? initial) then
        Err "Autoscaling initial must be between minimum and maximum"%string
      else Ok tt
  end.

(** [as usize] of a float: towards zero, with saturation. *)
Definition as_usize (x : spec_float) : Z :=
  match x with
  | S754_finite false m e =>
      Z.min u64_max (if 0 <=? e then Z.pos m * 2 ^ e else Z.pos m / 2 ^ (- e))
  | S754_infinity false => u64_max
  | _ => 0
  end.

Definition f32_from : Z -> spec_float := float_from 24 128.
Definition f32_mul : spec_float -> spec_float -> spec_float := SFmul 24 128.

Definition calc_max_nonsticky (max_polls : Z) (ratio : spec_float) : Z :=
  Z.max (as_usize (f32_mul (f32_from max_polls) ratio)) 1.

(** The share of the sticky and of the other poller of workflow tasks. *)
Definition wft_poller_behavior (behavior : PollerBehavior) (nonsticky_to_sticky_poll_ratio : spec_float)
    (is_sticky : bool) : PollerBehavior :=
  match behavior with
  | SimpleMaximum m =>
      if negb is_sticky then SimpleMaximum (calc_max_nonsticky m nonsticky_to_sticky_poll_ratio)
      else SimpleMaximum
             (Z.max (saturating_sub m (calc_max_nonsticky m nonsticky_to_sticky_poll_ratio)) 1)
  | Autoscaling _ _ _ => behavior
  end.

(** ** The scaler *)

(** The answer of a poll. *)
Inductive poll_res (T : Type) :=
| PR_Ok (t : T)
| PR_Err (e : Status).
Arguments PR_Ok {T} t.
Arguments PR_Err {T} e.

(** The trait of tasks: the server's suggestion of a change, and whether the poll
    came back without a task. *)
Class TaskPollerResult (T : Type) := {
  scaling_decision : T -> option Z;
  is_empty : T -> bool;
}.

Record PollScalerReportHandle := {
  ps_max : Z;
  ps_min : Z;
  ps_target : Z;
  ps_ever_saw_scaling_decision : bool;
  ps_behavior : PollerBehavior;
  ps_ingested_this_period : Z;
  ps_ingested_last_period : Z;
  ps_scale_up_allowed : bool;
}.

Definition PollScaler_new (behavior : PollerBehavior) : PollScalerReportHandle :=
  let '(min, max, target) :=
    match behavior with
    | SimpleMaximum m => (1, m, m)
    | Autoscaling minimum maximum initial => (minimum, maximum, initial)
    end in
  {| ps_max := max; ps_min := min; ps_target := target; ps_ever_saw_scaling_decision := false;
     ps_behavior := behavior; ps_ingested_this_period := 0; ps_ingested_last_period := 0;
     ps_scale_up_allowed := true |}.

Definition set_target (t : Z) (h : PollScalerReportHandle) : PollScalerReportHandle :=
  {| ps_max := h.(ps_max); ps_min := h.(ps_min); ps_target := t;
     ps_ever_saw_scaling_decision := h.(ps_ever_saw_scaling_decision);
     ps_behavior := h.(ps_behavior); ps_ingested_this_period := h.(ps_ingested_this_period);
     ps_ingested_last_period := h.(ps_ingested_last_period);
     ps_scale_up_allowed := h.(ps_scale_up_allowed) |}.

Definition set_ingested (saw : bool) (this last : Z) (up : bool) (h : PollScalerReportHandle)
    : PollScalerReportHandle :=
  {| ps_max := h.(ps_max); ps_min := h.(ps_min); ps_target := h.(ps_target);
     ps_ever_saw_scaling_decision := saw; ps_behavior := h.(ps_behavior);
     ps_ingested_this_period := this; ps_ingested_last_period := last;
     ps_scale_up_allowed := up |}.

Definition usize_saturating_add (a b : Z) : Z := Z.min u64_max (a + b).
Definition usize_saturating_div (a b : Z) : Z := a / b.

(** [Ord::clamp] panics when its bounds are the wrong way round. *)
Definition change_target (change : Z -> Z -> Z) (change_by : Z) (h : PollScalerReportHandle)
    : outcome Empty_set PollScalerReportHandle :=
  if h.(ps_max) <? h.(ps_min) then Panic "assertion failed: min <= max"%string
  else Ok (set_target (Z.min (Z.max (change h.(ps_target) change_by) h.(ps_min)) h.(ps_max)) h).

(** [Duration::from_secs(11)] *)
Definition SHORT_POLL : Z := 11 * NANOS_PER_SEC.
Definition timeout_override (h : PollScalerReportHandle) : option Z :=
  if 1 <? h.(ps_ingested_this_period) then Some SHORT_POLL else None.

(** The task that looks every 100ms whether more is ingested than before;
    the factor is [1.1]. *)
Definition ingest_tick (h : PollScalerReportHandle) : PollScalerReportHandle :=
  let ingested := h.(ps_ingested_this_period) in
  let ingested_last := h.(ps_ingested_last_period) in
  set_ingested h.(ps_ever_saw_scaling_decision) 0 ingested
    (as_usize (f64_mul (f64_from ingested_last) (f64_from_bits 0x3ff199999999999a)) <=? ingested) h.

(** Errors that the scaler wants to see. *)
Definition poll_scaling_error_matcher (err : Status) : bool :=
  bool_decide (err.(status_code) ∈ [Code_ResourceExhausted; Code_Cancelled; Code_DeadlineExceeded]).

Definition no_retry (b : PollerBehavior) : option (Status -> bool) :=
  if is_autoscaling b then Some poll_scaling_error_matcher else None.

(** The extensions of the request of a poll ([WorkerClient::poll_workflow_task] and
    its likes). *)
Definition poll_request (b : PollerBehavior) : Extensions :=
  {| is_user_long_poll := false; is_worker_task_long_poll := true;
     no_retry_on_matching := no_retry b |}.

Section scaler.
  Context {T : Type} `{!TaskPollerResult T}.

Definition note_ingested (res : T) (h : PollScalerReportHandle) : PollScalerReportHandle :=
  if negb (is_empty res) then
    set_ingested h.(ps_ever_saw_scaling_decision) (h.(ps_ingested_this_period) + 1)
      h.(ps_ingested_last_period) h.(ps_scale_up_allowed) h
  else h.

Definition note_decision (h : PollScalerReportHandle) : PollScalerReportHandle :=
  set_ingested true h.(ps_ingested_this_period) h.(ps_ingested_last_period)
    h.(ps_scale_up_allowed) h.

(** Whether the answer is passed on, and the scaler after it. *)
Definition poll_result (res : poll_res T) (h : PollScalerReportHandle)
    : outcome Empty_set (PollScalerReportHandle * bool) :=
  match res with
  | PR_Ok res =>
      if negb (is_autoscaling h.(ps_behavior)) then Ok (h, true)
      else
        let h := note_ingested res h in
        match scaling_decision res with
        | Some delta =>
            h ← (if delta <? 0 then change_target saturating_sub (- delta) h
                 else if 0 <? delta then
                   if h.(ps_scale_up_allowed) then change_target usize_saturating_add delta h
                   else Ok h
                 else Ok h);
            Ok (note_decision h, true)
        | None =>
            if h.(ps_ever_saw_scaling_decision) && is_empty res then
              h ← change_target saturating_sub 1 h; Ok (h, true)
            else Ok (h, true)
        end
  | PR_Err e =>
      if is_autoscaling h.(ps_behavior) && h.(ps_ever_saw_scaling_decision) then
        h ← (if bool_decide (e.(status_code) = Code_ResourceExhausted)
             then change_target usize_saturating_div 2 h
             else change_target saturating_sub 1 h);
        Ok (h, false)
      else Ok (h, true)
  end.
End scaler.

(** ** The buffer *)

(** The loop: it waits to be started, it is at its top, it waits for the delay
    before a permit, for a permit, and with its permit until a poll is allowed
    (either about to look, or parked until the number of polls changes); it waits
    for the polls that were spawned; it has ended. *)
Inductive poll_loop (P : Type) :=
| L_WaitStart
| L_Top
| L_Delay
| L_Permit
| L_Allowed (permit : P) (parked : bool)
| L_Drain
| L_Done.
Arguments L_WaitStart {P}.
Arguments L_Top {P}.
Arguments L_Delay {P}.
Arguments L_Permit {P}.
Arguments L_Allowed {P} permit parked.
Arguments L_Drain {P}.
Arguments L_Done {P}.

(** A poll: its permit, the timeout of its call, and the answer when it has come
    and the poll does not count as active any more. *)
Record poll_task (T P : Type) := {
  pt_permit : P;
  pt_timeout : option Z;
  pt_answer : option (poll_res T);
}.
Arguments pt_permit {T P} p.
Arguments pt_timeout {T P} p.
Arguments pt_answer {T P} p.

Record LongPollBuffer (T P : Type) := {
  buffered_polls : list (poll_res (T * P));
  shutdown : bool;
  did_start : bool;
  delays : bool;  (** whether there is a delay before a permit *)
  looping : poll_loop P;
  polls : gmap N (poll_task T P);
  next_poll : N;
  active : Z;
  scaler : PollScalerReportHandle;
}.
Arguments buffered_polls {T P} l.
Arguments shutdown {T P} l.
Arguments did_start {T P} l.
Arguments delays {T P} l.
Arguments looping {T P} l.
Arguments polls {T P} l.
Arguments next_poll {T P} l.
Arguments active {T P} l.
Arguments scaler {T P} l.

Section buffer.
  Context {T P : Type} `{!TaskPollerResult T}.
  Abbreviation Buffer := (LongPollBuffer T P).

Definition LongPollBuffer_new (behavior : PollerBehavior) (delay : bool) : Buffer :=
  {| buffered_polls := []; shutdown := false; did_start := false; delays := delay;
     looping := L_WaitStart; polls := ∅; next_poll := 0; active := 0;
     scaler := PollScaler_new behavior |}.

Definition set_loop (l : poll_loop P) (s : Buffer) : Buffer :=
  {| buffered_polls := s.(buffered_polls); shutdown := s.(shutdown); did_start := s.(did_start);
     delays := s.(delays); looping := l; polls := s.(polls); next_poll := s.(next_poll);
     active := s.(active); scaler := s.(scaler) |}.

Definition set_polls (ps : gmap N (poll_task T P)) (n : N) (a : Z) (s : Buffer) : Buffer :=
  {| buffered_polls := s.(buffered_polls); shutdown := s.(shutdown); did_start := s.(did_start);
     delays := s.(delays); looping := s.(looping); polls := ps; next_poll := n; active := a;
     scaler := s.(scaler) |}.

Definition set_buffered (q : list (poll_res (T * P))) (h : PollScalerReportHandle) (s : Buffer)
    : Buffer :=
  {| buffered_polls := q; shutdown := s.(shutdown); did_start := s.(did_start);
     delays := s.(delays); looping := s.(looping); polls := s.(polls); next_poll := s.(next_poll);
     active := s.(active); scaler := h |}.

Definition set_flags (sd st : bool) (s : Buffer) : Buffer :=
  {| buffered_polls := s.(buffered_polls); shutdown := sd; did_start := st; delays := s.(delays);
     looping := s.(looping); polls := s.(polls); next_poll := s.(next_poll); active := s.(active);
     scaler := s.(scaler) |}.

(** A change of the number of active polls is seen by the parked loop. *)
Definition unpark (l : poll_loop P) : poll_loop P :=
  match l with L_Allowed p _ => L_Allowed p false | _ => l end.

(** *** The loop *)
Definition loop_started (s : Buffer) : option Buffer :=
  match s.(looping) with
  | L_WaitStart => if s.(did_start) then Some (set_loop L_Top s) else None
  | _ => None
  end.

Definition loop_top (s : Buffer) : option Buffer :=
  match s.(looping) with
  | L_Top =>
      Some (set_loop (if s.(shutdown) then L_Drain else if s.(delays) then L_Delay else L_Permit) s)
  | _ => None
  end.

Definition loop_delayed (s : Buffer) : option Buffer :=
  match s.(looping) with L_Delay => Some (set_loop L_Permit s) | _ => None end.

(** The branches that see the shutdown; a permit is dropped. *)
Definition loop_cancelled (s : Buffer) : option (Buffer * list P) :=
  if negb s.(shutdown) then None
  else match s.(looping) with
       | L_WaitStart => Some (set_loop L_Done s, [])
       | L_Delay | L_Permit => Some (set_loop L_Drain s, [])
       | L_Allowed p _ => Some (set_loop L_Drain s, [p])
       | _ => None
       end.

Definition loop_permit (p : P) (s : Buffer) : option Buffer :=
  match s.(looping) with L_Permit => Some (set_loop (L_Allowed p false) s) | _ => None end.

(** [wait_until_allowed]: the poll is spawned, or the loop is parked. *)
Definition loop_allowed (s : Buffer) : option Buffer :=
  match s.(looping) with
  | L_Allowed p false =>
      if (s.(active) <? s.(scaler).(ps_max)) && (s.(active) <? s.(scaler).(ps_target)) then
        Some (set_loop L_Top
          (set_polls (<[s.(next_poll) := {| pt_permit := p;
                                            pt_timeout := timeout_override s.(scaler);
                                            pt_answer := None |}]> s.(polls))
            (s.(next_poll) + 1)%N (s.(active) + 1) s))
      else Some (set_loop (L_Allowed p true) s)
  | _ => None
  end.

(** The loop ends when the polls it spawned have ended. *)
Definition loop_drained (s : Buffer) : option Buffer :=
  match s.(looping) with
  | L_Drain => if decide (s.(polls) = ∅) then Some (set_loop L_Done s) else None
  | _ => None
  end.

(** *** The polls *)

(** The server answers; the poll is not active any more. *)
Definition poll_answered (i : N) (r : poll_res T) (s : Buffer) : option Buffer :=
  match s.(polls) !! i with
  | Some pt =>
      match pt.(pt_answer) with
      | None =>
          Some (set_loop (unpark s.(looping))
            (set_polls (<[i := {| pt_permit := pt.(pt_permit); pt_timeout := pt.(pt_timeout);
                                  pt_answer := Some r |}]> s.(polls)) s.(next_poll)
              (s.(active) - 1) s))
      | Some _ => None
      end
  | None => None
  end.

(** A poll that sees the shutdown drops its permit. *)
Definition poll_cancelled (i : N) (s : Buffer) : option (Buffer * list P) :=
  match s.(polls) !! i with
  | Some pt =>
      match pt.(pt_answer) with
      | None =>
          if s.(shutdown) then
            Some (set_loop (unpark s.(looping))
                   (set_polls (delete i s.(polls)) s.(next_poll) (s.(active) - 1) s),
                  [pt.(pt_permit)])
          else None
      | Some _ => None
      end
  | None => None
  end.

(** The answer with its permit; an error leaves no use for it. *)
Definition with_permit (r : poll_res T) (p : P) : poll_res (T * P) * list P :=
  match r with PR_Ok t => (PR_Ok (t, p), []) | PR_Err e => (PR_Err e, [p]) end.

(** The answer is reported to the scaler and sent, or swallowed. *)
Definition poll_finished (i : N) (s : Buffer) : option (outcome Empty_set (Buffer * list P)) :=
  match s.(polls) !! i with
  | Some pt =>
      match pt.(pt_answer) with
      | Some r =>
          let s1 := set_polls (delete i s.(polls)) s.(next_poll) s.(active) s in
          Some ('(h, pass) ← poll_result r s.(scaler);
                Ok (if pass : bool then
                      let '(m, dropped) := with_permit r pt.(pt_permit) in
                      (set_buffered (s.(buffered_polls) ++ [m]) h s1, dropped)
                    else (set_buffered s.(buffered_polls) h s1, [pt.(pt_permit)])))
      | None => None
      end
  | None => None
  end.

Definition scaler_tick (s : Buffer) : option Buffer :=
  if is_autoscaling s.(scaler).(ps_behavior)
  then Some (set_buffered s.(buffered_polls) (ingest_tick s.(scaler)) s) else None.

(** *** Its interface *)

(** [poll] starts the loop; [recv] gives the next answer, or [None] when the
    channel has no senders left: the loop and all polls have ended. *)
Definition poll (s : Buffer) : Buffer := set_flags s.(shutdown) true s.

Definition recv (s : Buffer) : option (option (poll_res (T * P)) * Buffer) :=
  match s.(buffered_polls) with
  | m :: q => Some (Some m, set_buffered q s.(scaler) s)
  | [] =>
      match s.(looping) with
      | L_Done => if decide (s.(polls) = ∅) then Some (None, s) else None
      | _ => None
      end
  end.

Definition notify_shutdown (s : Buffer) : Buffer := set_flags true s.(did_start) s.

(** ** The poller of workflow tasks: [select!] takes either branch. *)
Record WorkflowTaskPoller := {
  normal_poller : Buffer;
  sticky_poller : option Buffer;
}.

Definition wft_recv (sticky : bool) (s : WorkflowTaskPoller)
    : option (option (poll_res (T * P)) * WorkflowTaskPoller) :=
  match s.(sticky_poller), sticky with
  | Some sq, true =>
      '(m, sq) ← recv sq; Some (m, {| normal_poller := s.(normal_poller); sticky_poller := Some sq |})
  | None, true => None
  | _, false =>
      '(m, np) ← recv s.(normal_poller);
      Some (m, {| normal_poller := np; sticky_poller := s.(sticky_poller) |})
  end.

Definition wft_notify_shutdown (s : WorkflowTaskPoller) : WorkflowTaskPoller :=
  {| normal_poller := notify_shutdown s.(normal_poller);
     sticky_poller := notify_shutdown <$> s.(sticky_poller) |}.
End buffer.
