(* ===== verification/PollBufferFacts.v ===== *)
(** * What holds of a poll buffer and its permits

    A buffer over a dealer of permits that it shares with others, under any
    interleaving of its tasks, of the server's answers and of what the others
    do. *)
From Stdlib Require Import ZArith Lia SpecFloat String.
From stdpp Require Import base option list strings gmap.
From S2P Require Import Prelude TimeArith Permits ServerRetry PollBuffer.
Local Open Scope Z_scope.

(** ** The scaler *)

(** What a validated behaviour gives, and every report keeps. *)
Record scaler_inv (b : PollerBehavior) (h : PollScalerReportHandle) : Prop := {
  si_behavior : h.(ps_behavior) = b;
  si_limits : h.(ps_max) = (PollScaler_new b).(ps_max) /\ h.(ps_min) = (PollScaler_new b).(ps_min);
  si_target : 1 <= h.(ps_min) <= h.(ps_target) /\ h.(ps_target) <= h.(ps_max);
}.

Lemma scaler_new_inv b : validate_behavior b = Ok tt -> scaler_inv b (PollScaler_new b).
Proof.
  intros Hv. destruct b as [m|mi ma ini]; simpl in Hv.
  - destruct (Z.ltb_spec m 1); [done|]. split; simpl; try done; lia.
  - destruct (Z.ltb_spec mi 1); [done|]. destruct (Z.ltb_spec ma mi); [done|].
    destruct (Z.ltb_spec ini mi), (Z.ltb_spec ma ini); simpl in Hv; try discriminate.
    split; simpl; try done; lia.
Qed.

Lemma change_target_inv b f n h :
  scaler_inv b h -> exists h', change_target f n h = Ok h' /\ scaler_inv b h' /\
    h'.(ps_ever_saw_scaling_decision) = h.(ps_ever_saw_scaling_decision).
Proof.
  intros [Hb Hl Ht]. unfold change_target. rewrite (proj2 (Z.ltb_ge _ _)) by lia.
  eexists. split; [done|]. split; [|done]. split; simpl; try done; lia.
Qed.

Lemma set_ingested_inv b saw this last up h :
  scaler_inv b h -> scaler_inv b (set_ingested saw this last up h).
Proof. intros [Hb Hl Ht]. by split. Qed.

Section scaler_facts.
  Context {T : Type} `{!TaskPollerResult T}.

(** Tasks are always passed on; errors are swallowed exactly when polls are scaled
    and the server has decided before. *)
Definition passes (b : PollerBehavior) (saw : bool) (r : poll_res T) : bool :=
  match r with PR_Ok _ => true | PR_Err _ => negb (is_autoscaling b && saw) end.

Lemma poll_result_inv b (r : poll_res T) h :
  scaler_inv b h -> exists h',
    poll_result r h = Ok (h', passes b h.(ps_ever_saw_scaling_decision) r) /\ scaler_inv b h'.
Proof.
  intros I. pose proof (si_behavior _ _ I) as Hb. unfold poll_result. rewrite Hb.
  destruct r as [t|e]; simpl.
  - destruct (is_autoscaling b); simpl; [|by eauto].
    assert (scaler_inv b (note_ingested t h)) as I1.
    { unfold note_ingested. destruct (negb _); [by apply set_ingested_inv|done]. }
    revert I1. generalize (note_ingested t h). intros h1 I1.
    destruct (scaling_decision t) as [delta|].
    + assert (exists h2, (if delta <? 0 then change_target saturating_sub (- delta) h1
         else if 0 <? delta then
           if ps_scale_up_allowed h1 then change_target usize_saturating_add delta h1 else Ok h1
         else Ok h1) = Ok h2 /\ scaler_inv b h2) as (h2 & -> & I2).
      { destruct (delta <? 0); [|destruct (0 <? delta); [destruct (ps_scale_up_allowed h1)|]];
          try (by eauto); edestruct change_target_inv as (h2 & -> & ? & _); eauto. }
      simpl. eexists. split; [done|]. by apply set_ingested_inv.
    + destruct (_ && _); [|by eauto].
      destruct (change_target_inv b saturating_sub 1 h1 I1) as (h2 & -> & ? & _). simpl. eauto.
  - destruct (is_autoscaling b && _); simpl; [|by eauto].
    destruct (bool_decide _).
    + destruct (change_target_inv b usize_saturating_div 2 h I) as (h2 & -> & ? & _). simpl. eauto.
    + destruct (change_target_inv b saturating_sub 1 h I) as (h2 & -> & ? & _). simpl. eauto.
Qed.
End scaler_facts.

(** ** What the polls hold *)
Section collect.
  Context {A X : Type} (f : A -> list X).

Definition collect (m : gmap N A) : list X := map_to_list m ≫= (fun kv => f kv.2).

Lemma collect_empty : collect ∅ = [].
Proof. unfold collect. by rewrite map_to_list_empty. Qed.

Lemma collect_insert m i x : m !! i = None -> collect (<[i := x]> m) ≡ₚ f x ++ collect m.
Proof. intros H. unfold collect. by rewrite (map_to_list_insert m i x H). Qed.

Lemma collect_delete m i x : m !! i = Some x -> collect m ≡ₚ f x ++ collect (delete i m).
Proof. intros H. rewrite <- collect_insert by apply lookup_delete_eq. by rewrite insert_delete_id. Qed.

Lemma collect_update m i x y :
  m !! i = Some x -> collect (<[i := y]> m) ≡ₚ f y ++ collect (delete i m).
Proof. intros H. rewrite <- insert_delete_eq. apply collect_insert, lookup_delete_eq. Qed.
End collect.

Section buffer_facts.
  Context {T P : Type} `{!TaskPollerResult T}.
  Abbreviation Buffer := (LongPollBuffer T P).
  Implicit Types (s : Buffer).

Definition loop_holds (l : poll_loop P) : list P :=
  match l with L_Allowed p _ => [p] | _ => [] end.

Definition task_of {A} (m : poll_res A) : list A :=
  match m with PR_Ok t => [t] | PR_Err _ => [] end.

(** The tasks of a list of answers, with their permits. *)
Definition tasks_of {A} (q : list (poll_res A)) : list A := q ≫= task_of.

(** The task a poll has got and not sent yet. *)
Definition poll_pending (pt : poll_task T P) : list (T * P) :=
  match pt.(pt_answer) with Some (PR_Ok t) => [(t, pt.(pt_permit))] | _ => [] end.

Definition poll_active (pt : poll_task T P) : list unit :=
  match pt.(pt_answer) with None => [tt] | Some _ => [] end.

(** The permits a buffer has. *)
Definition held (s : Buffer) : list P :=
  loop_holds s.(looping) ++ collect (fun pt => [pt.(pt_permit)]) s.(polls) ++
  (tasks_of s.(buffered_polls)).*2.

(** The tasks the server has given and that are still in the buffer. *)
Definition waiting (s : Buffer) : list (T * P) :=
  collect poll_pending s.(polls) ++ tasks_of s.(buffered_polls).

Record buffer_inv (b : PollerBehavior) (s : Buffer) : Prop := {
  bi_scaler : scaler_inv b s.(scaler);
  bi_active : s.(active) = Z.of_nat (length (collect poll_active s.(polls)));
  bi_max : s.(active) <= s.(scaler).(ps_max);
  bi_next : forall i, (s.(next_poll) <= i)%N -> s.(polls) !! i = None;
  bi_done : s.(looping) = L_Done -> s.(polls) = ∅;
  bi_start : s.(looping) = L_WaitStart -> s.(polls) = ∅;
}.

(** What the buffer does by itself, with the permits it drops. *)
Inductive own_step s s' : list P -> Prop :=
| OS_started : loop_started s = Some s' -> own_step s s' []
| OS_top : loop_top s = Some s' -> own_step s s' []
| OS_delayed : loop_delayed s = Some s' -> own_step s s' []
| OS_cancelled rel : loop_cancelled s = Some (s', rel) -> own_step s s' rel
| OS_allowed : loop_allowed s = Some s' -> own_step s s' []
| OS_drained : loop_drained s = Some s' -> own_step s s' []
| OS_poll_cancelled i rel : poll_cancelled i s = Some (s', rel) -> own_step s s' rel
| OS_poll_finished i rel : poll_finished i s = Some (Ok (s', rel)) -> own_step s s' rel
| OS_tick : scaler_tick s = Some s' -> own_step s s' []
| OS_poll : poll s = s' -> own_step s s' []
| OS_shutdown : notify_shutdown s = s' -> own_step s s' [].

(** A step keeps the permits but those it drops, and every task. *)
Definition step_ok (b : PollerBehavior) s s' (rel : list P) : Prop :=
  buffer_inv b s' /\ held s ≡ₚ held s' ++ rel /\ waiting s ≡ₚ waiting s'.

(** A step of the loop that touches no poll. *)
Lemma set_loop_ok b s l rel :
  buffer_inv b s -> loop_holds s.(looping) = loop_holds l ++ rel ->
  (l = L_Done \/ l = L_WaitStart -> s.(polls) = ∅) -> step_ok b s (set_loop l s) rel.
Proof.
  intros [] Hl Hd. split; [|split; [|done]].
  - split; simpl; auto.
  - unfold held. simpl. rewrite Hl. solve_Permutation.
Qed.

Lemma holds_unpark (l : poll_loop P) : loop_holds (unpark l) = loop_holds l.
Proof. by destruct l. Qed.

Lemma unpark_ends (l : poll_loop P) :
  (unpark l = L_Done -> l = L_Done) /\ (unpark l = L_WaitStart -> l = L_WaitStart).
Proof. by destruct l. Qed.

Lemma loop_cancelled_ok b s s' rel :
  buffer_inv b s -> loop_cancelled s = Some (s', rel) -> step_ok b s s' rel.
Proof.
  intros I H. unfold loop_cancelled in H. destruct (shutdown s); [|done]. simpl in H.
  destruct (looping s) eqn:El; simplify_eq;
    (apply set_loop_ok; [done|by rewrite El|]); intros [|]; try done. by eapply bi_start.
Qed.

(** An empty map has no poll to end. *)
Lemma polls_some b s i pt :
  buffer_inv b s -> s.(polls) !! i = Some pt -> s.(looping) <> L_Done /\ s.(looping) <> L_WaitStart.
Proof.
  intros I Hp. split; intros El; [pose proof (bi_done _ _ I El) as He|
    pose proof (bi_start _ _ I El) as He]; rewrite He in Hp; by rewrite lookup_empty in Hp.
Qed.

Lemma loop_allowed_ok b s s' :
  buffer_inv b s -> loop_allowed s = Some s' -> step_ok b s s' [].
Proof.
  intros I H. unfold loop_allowed in H. destruct (looping s) as [| | | |p k| |] eqn:El; try done.
  destruct k; [done|]. destruct ((_ <? _) && _) eqn:Ea; injection H as <-.
  - apply andb_true_iff in Ea as [Ea%Z.ltb_lt _]. destruct I as [Hs Ha Hm Hn Hd Hst].
    assert (polls s !! next_poll s = None) as Hf by (apply Hn; lia).
    split; [|split].
    + split; simpl; try done; try lia.
      * rewrite (Permutation_length (collect_insert poll_active _ _ _ Hf)). simpl. lia.
      * intros i Hi. rewrite lookup_insert_ne by lia. apply Hn. lia.
    + unfold held. simpl. rewrite El. simpl.
      rewrite (collect_insert (fun pt : poll_task T P => [pt_permit pt]) _ _ _ Hf). simpl.
      by rewrite app_nil_r.
    + unfold waiting. simpl. by rewrite (collect_insert poll_pending _ _ _ Hf).
  - apply set_loop_ok; [done|by rewrite El|]. by intros [|].
Qed.

Lemma poll_cancelled_ok b s s' i rel :
  buffer_inv b s -> poll_cancelled i s = Some (s', rel) -> step_ok b s s' rel.
Proof.
  intros I H. unfold poll_cancelled in H. destruct (polls s !! i) as [pt|] eqn:Hp; [|done].
  destruct (pt_answer pt) eqn:Han; [done|]. destruct (shutdown s); [|done].
  destruct (polls_some _ _ _ _ I Hp) as [Hnd Hns]. injection H as <- <-.
  destruct I as [Hs Ha Hm Hn Hd Hst].
  rewrite (Permutation_length (collect_delete poll_active _ _ _ Hp)) in Ha.
  unfold poll_active at 1 in Ha. rewrite Han in Ha. simpl in Ha.
  split; [|split].
  - split; simpl; try done; try lia.
    + intros j Hj. rewrite lookup_delete_None. right. by apply Hn.
    + by intros ?%unpark_ends.
    + by intros ?%unpark_ends.
  - unfold held. simpl. rewrite holds_unpark.
    rewrite (collect_delete (fun pt : poll_task T P => [pt_permit pt]) _ _ _ Hp). solve_Permutation.
  - unfold waiting. simpl. rewrite (collect_delete poll_pending _ _ _ Hp).
    unfold poll_pending at 1. by rewrite Han.
Qed.

Lemma tasks_of_app {A} (q q' : list (poll_res A)) : tasks_of (q ++ q') = tasks_of q ++ tasks_of q'.
Proof. apply bind_app. Qed.

Lemma poll_finished_ok b s i o :
  buffer_inv b s -> poll_finished i s = Some o ->
  exists s' rel, o = Ok (s', rel) /\ step_ok b s s' rel.
Proof.
  intros I H. unfold poll_finished in H. destruct (polls s !! i) as [pt|] eqn:Hp; [|done].
  destruct (pt_answer pt) as [r|] eqn:Han; [|done]. injection H as <-.
  destruct (poll_result_inv b r (scaler s) (bi_scaler _ _ I)) as (h & -> & Ih). simpl.
  pose proof (collect_delete (fun pt : poll_task T P => [pt_permit pt]) _ _ _ Hp) as Hc.
  pose proof (collect_delete poll_pending _ _ _ Hp) as Hw. unfold poll_pending at 2 in Hw.
  rewrite Han in Hw.
  assert (forall q, buffer_inv b (set_buffered q h
    (set_polls (delete i (polls s)) (next_poll s) (active s) s))) as Hinv.
  { destruct (polls_some _ _ _ _ I Hp) as [Hnd Hns]. destruct I as [Hs Ha Hm Hn Hd Hst].
    rewrite (Permutation_length (collect_delete poll_active _ _ _ Hp)) in Ha.
    unfold poll_active at 1 in Ha. rewrite Han in Ha. simpl in Ha.
    intros q. split; simpl; try done.
    - destruct Ih as [_ [-> _] _], Hs as [_ [<- _] _]. done.
    - intros j Hj. rewrite lookup_delete_None. right. by apply Hn. }
  destruct (passes b _ r) eqn:Hpass; [destruct r as [t|e]|]; simpl;
    (do 2 eexists; split; [done|]); (split; [apply Hinv|split]); unfold held, waiting; simpl;
    rewrite ?tasks_of_app, ?fmap_app, ?Hc, ?Hw; simpl; try solve_Permutation.
  destruct r as [t|e]; [done|]. solve_Permutation.
Qed.

Lemma own_step_ok b s s' rel : buffer_inv b s -> own_step s s' rel -> step_ok b s s' rel.
Proof.
  intros I [H|H|H|rel' H|H|H|i rel' H|i rel' H|H|H|H].
  - unfold loop_started in H. destruct (looping s) eqn:El; try done. destruct (did_start s); [|done].
    injection H as <-. apply set_loop_ok; [done|by rewrite El|]. by intros [|].
  - unfold loop_top in H. destruct (looping s) eqn:El; try done. injection H as <-.
    apply set_loop_ok; [done| |]; destruct (shutdown s), (delays s); try (by rewrite El); by intros [|].
  - unfold loop_delayed in H. destruct (looping s) eqn:El; try done. injection H as <-.
    apply set_loop_ok; [done|by rewrite El|]. by intros [|].
  - by apply loop_cancelled_ok.
  - by apply loop_allowed_ok.
  - unfold loop_drained in H. destruct (looping s) eqn:El; try done. case_decide; [|done].
    injection H as <-. apply set_loop_ok; [done|by rewrite El|]. by intros [|].
  - by eapply poll_cancelled_ok.
  - destruct (poll_finished_ok _ _ _ _ I H) as (? & ? & [= <- <-] & ?). done.
  - unfold scaler_tick in H. destruct (is_autoscaling _); [|done]. injection H as <-.
    destruct I as [Hs Ha Hm Hn Hd Hst]. split; [|split].
    + split; simpl; try done. by apply set_ingested_inv.
    + unfold held. simpl. by rewrite app_nil_r.
    + done.
  - subst s'. destruct I. split; [by split|]. unfold held. simpl. by rewrite app_nil_r.
  - subst s'. destruct I. split; [by split|]. unfold held. simpl. by rewrite app_nil_r.
Qed.
End buffer_facts.

(** ** A buffer and its dealer *)
Section world.
  Context {T : Type} `{!TaskPollerResult T}.
  Context {Sup Slot Info : Type} `{!SlotSupplier Sup Slot Info}.
  Abbreviation Dealer := (MeteredPermitDealer Sup Slot Info).

(** The buffer, the dealer, the permits the loop acquired, those the buffer
    dropped, the answers given to its reader, and the tasks the server gave to
    polls with the permits of these. *)
Record poll_world := {
  pw_buffer : LongPollBuffer T N;
  pw_dealer : Dealer;
  pw_acquired : list N;
  pw_dropped : list N;
  pw_delivered : list (poll_res (T * N));
  pw_answered : list (T * N);
}.

Definition poll_world_new (b : PollerBehavior) (delay : bool) (sup : Sup) (max : option Z)
    : poll_world :=
  {| pw_buffer := LongPollBuffer_new b delay; pw_dealer := MeteredPermitDealer_new sup max;
     pw_acquired := []; pw_dropped := []; pw_delivered := []; pw_answered := [] |}.

Fixpoint drop_permits (ps : list N) (d : Dealer) : option (outcome Empty_set Dealer) :=
  match ps with
  | [] => Some (Ok d)
  | p :: ps =>
      match drop_permit p d with Some (Ok d) => drop_permits ps d | o => o end
  end.

(** A task that a poll gets, with the permit of the poll. *)
Definition answer_of (i : N) (r : poll_res T) (s : LongPollBuffer T N) : list (T * N) :=
  match s.(polls) !! i, r with Some pt, PR_Ok t => [(t, pt.(pt_permit))] | _, _ => [] end.

(** The buffer's own steps, with the drops of permits; answers of the server; a
    permit that the dealer builds for the loop; a reader takes an answer; the
    others use the dealer and leave the permits of the buffer alone. *)
Inductive poll_world_step (callers : nat) (w : poll_world) : poll_world -> Prop :=
| PW_own s' rel d' :
    own_step w.(pw_buffer) s' rel -> drop_permits rel w.(pw_dealer) = Some (Ok d') ->
    poll_world_step callers w
      {| pw_buffer := s'; pw_dealer := d'; pw_acquired := w.(pw_acquired);
         pw_dropped := w.(pw_dropped) ++ rel; pw_delivered := w.(pw_delivered);
         pw_answered := w.(pw_answered) |}
| PW_answer i r s' :
    poll_answered i r w.(pw_buffer) = Some s' ->
    poll_world_step callers w
      {| pw_buffer := s'; pw_dealer := w.(pw_dealer); pw_acquired := w.(pw_acquired);
         pw_dropped := w.(pw_dropped); pw_delivered := w.(pw_delivered);
         pw_answered := w.(pw_answered) ++ answer_of i r w.(pw_buffer) |}
| PW_acquire i id d' s' :
    build_owned i w.(pw_dealer) = Some (id, d') -> loop_permit id w.(pw_buffer) = Some s' ->
    poll_world_step callers w
      {| pw_buffer := s'; pw_dealer := d'; pw_acquired := w.(pw_acquired) ++ [id];
         pw_dropped := w.(pw_dropped); pw_delivered := w.(pw_delivered);
         pw_answered := w.(pw_answered) |}
| PW_recv m s' :
    recv w.(pw_buffer) = Some (Some m, s') ->
    poll_world_step callers w
      {| pw_buffer := s'; pw_dealer := w.(pw_dealer); pw_acquired := w.(pw_acquired);
         pw_dropped := w.(pw_dropped); pw_delivered := w.(pw_delivered) ++ [m];
         pw_answered := w.(pw_answered) |}
| PW_others d' :
    dealer_step callers w.(pw_dealer) d' ->
    (forall p, p ∈ held w.(pw_buffer) -> d'.(permits) !! p = w.(pw_dealer).(permits) !! p) ->
    poll_world_step callers w
      {| pw_buffer := w.(pw_buffer); pw_dealer := d'; pw_acquired := w.(pw_acquired);
         pw_dropped := w.(pw_dropped); pw_delivered := w.(pw_delivered);
         pw_answered := w.(pw_answered) |}.

Inductive poll_world_reach (callers : nat) (w0 : poll_world) : poll_world -> Prop :=
| PWR_new : poll_world_reach callers w0 w0
| PWR_step w w' :
    poll_world_reach callers w0 w -> poll_world_step callers w w' -> poll_world_reach callers w0 w'.

(** A permit is there and not used. *)
Definition live (d : Dealer) (p : N) : Prop :=
  exists pm, d.(permits) !! p = Some pm /\ pm.(mp_unused) = true.

Record poll_world_inv (b : PollerBehavior) (callers : nat) (sup : Sup) (max : option Z)
    (w : poll_world) : Prop := {
  wi_buffer : buffer_inv b w.(pw_buffer);
  wi_dealer : dealer_reach callers sup max w.(pw_dealer);
  wi_permits : w.(pw_acquired) ≡ₚ
    held w.(pw_buffer) ++ w.(pw_dropped) ++ (tasks_of w.(pw_delivered)).*2;
  wi_once : NoDup w.(pw_acquired);
  wi_given : Forall (fun p => (p < w.(pw_dealer).(next_permit))%N) w.(pw_acquired);
  wi_live : Forall (live w.(pw_dealer)) (held w.(pw_buffer));
  wi_tasks : w.(pw_answered) ≡ₚ waiting w.(pw_buffer) ++ tasks_of w.(pw_delivered);
}.

(** Dropping permits that are there leaves the others. *)
Lemma drop_permit_lookup p d o :
  drop_permit p d = Some (Ok o) ->
  o.(next_permit) = d.(next_permit) /\ forall q, q <> p -> o.(permits) !! q = d.(permits) !! q.
Proof.
  unfold drop_permit. destruct (permits d !! p); [|done]. case_match; [done|]. intros [= <-].
  simpl. split; [done|]. intros q Hq. by rewrite lookup_delete_ne.
Qed.

Lemma drop_permits_keeps callers sup max ps d d' :
  dealer_reach callers sup max d -> drop_permits ps d = Some (Ok d') ->
  dealer_reach callers sup max d' /\ d'.(next_permit) = d.(next_permit) /\
  forall q, q ∉ ps -> d'.(permits) !! q = d.(permits) !! q.
Proof.
  revert d. induction ps as [|p ps IH]; simpl; intros d Hr H; [by injection H as <-|].
  destruct (drop_permit p d) as [[d1|e|m]|] eqn:Hd; try done.
  destruct (drop_permit_lookup _ _ _ Hd) as [Hn Hl].
  destruct (IH d1) as (Hr' & Hn' & Hl'); [eapply DR_step; [done|by eapply DS_drop]|done|].
  split; [done|]. split; [congruence|]. intros q [Hq Hqs]%not_elem_of_cons.
  rewrite Hl' by done. by apply Hl.
Qed.

(** The permits that a step drops are there, so that it can. *)
Lemma drop_permits_total callers sup max ps d :
  (1 <= callers)%nat -> (forall m, max = Some m -> 0 <= m) -> dealer_reach callers sup max d ->
  NoDup ps -> Forall (live d) ps -> exists d', drop_permits ps d = Some (Ok d').
Proof.
  intros Hc Hm Hr Hnd. revert d Hr. induction Hnd as [|p ps Hp Hnd IH]; intros d Hr Hl; simpl; [eauto|].
  apply Forall_cons in Hl as [(pm & Hpm & _) Hl].
  destruct (drop_permit p d) as [o|] eqn:Hd; [|unfold drop_permit in Hd; by rewrite Hpm in Hd].
  destruct (drop_permit_inv _ _ _ _ _ (dealer_reach_inv _ _ _ _ Hc Hm Hr) Hd) as (d1 & -> & _).
  apply IH; [eapply DR_step; [done|by eapply DS_drop]|].
  destruct (drop_permit_lookup _ _ _ Hd) as [_ Hk].
  eapply Forall_impl; [apply Forall_and; split; [exact Hl|]|].
  - apply Forall_forall. intros q Hq. exact Hq.
  - intros q [(qm & Hq & Hu) Hin]. exists qm. rewrite Hk; [done|]. intros ->. done.
Qed.

Lemma poll_answered_ok b i r (s s' : LongPollBuffer T N) :
  buffer_inv b s -> poll_answered i r s = Some s' ->
  buffer_inv b s' /\ held s' ≡ₚ held s /\ waiting s' ≡ₚ waiting s ++ answer_of i r s.
Proof.
  intros I H. unfold poll_answered in H. unfold answer_of.
  destruct (polls s !! i) as [pt|] eqn:Hp; [|done]. destruct (pt_answer pt) eqn:Han; [done|].
  destruct (polls_some _ _ _ _ I Hp) as [Hnd Hns]. injection H as <-.
  destruct I as [Hs Ha Hm Hn Hd Hst].
  rewrite (Permutation_length (collect_delete poll_active _ _ _ Hp)) in Ha.
  unfold poll_active at 1 in Ha. rewrite Han in Ha. simpl in Ha. split; [|split].
  - split; simpl; try done; try lia.
    + rewrite (Permutation_length (collect_update poll_active _ _ _ _ Hp)). simpl. lia.
    + intros j Hj. rewrite lookup_insert_ne; [by apply Hn|]. intros ->. by rewrite Hn in Hp.
    + by intros ?%unpark_ends.
    + by intros ?%unpark_ends.
  - unfold held. simpl. rewrite holds_unpark.
    rewrite (collect_update (fun pt : poll_task T N => [pt_permit pt]) _ _ _ _ Hp).
    by rewrite (collect_delete (fun pt : poll_task T N => [pt_permit pt]) _ _ _ Hp).
  - unfold waiting. simpl. rewrite (collect_update poll_pending _ _ _ _ Hp).
    rewrite (collect_delete poll_pending (polls s) _ _ Hp).
    unfold poll_pending at 1 3. rewrite Han. simpl. destruct r; solve_Permutation.
Qed.

Lemma recv_ok b m (s s' : LongPollBuffer T N) :
  buffer_inv b s -> recv s = Some (Some m, s') ->
  buffer_inv b s' /\ held s ≡ₚ held s' ++ (task_of m).*2 /\ waiting s ≡ₚ waiting s' ++ task_of m.
Proof.
  intros I H. unfold recv in H. destruct (buffered_polls s) as [|m' q] eqn:Eq.
  { destruct (looping s); try done. by case_decide. }
  injection H as -> <-. destruct I. split; [by split|]. unfold held, waiting. simpl. rewrite Eq.
  change (tasks_of (m :: q)) with (task_of m ++ tasks_of q). rewrite fmap_app.
  split; solve_Permutation.
Qed.

Lemma loop_permit_ok b id (s s' : LongPollBuffer T N) :
  buffer_inv b s -> loop_permit id s = Some s' ->
  buffer_inv b s' /\ held s' = id :: held s /\ waiting s' = waiting s.
Proof.
  intros I H. unfold loop_permit in H. destruct (looping s) eqn:El; try done. injection H as <-.
  destruct I. split; [by split|]. unfold held. simpl. by rewrite El.
Qed.

Lemma build_owned_lookup i id d d' :
  build_owned i d = Some (id, d') -> id = d.(next_permit) /\
  d'.(next_permit) = (id + 1)%N /\ live d' id /\
  forall q, q <> id -> d'.(permits) !! q = d.(permits) !! q.
Proof.
  unfold build_owned. destruct (reserved d !! i) as [k|]; [|done]. intros [= <- <-]. simpl.
  split_and!; [done..| |].
  - eexists. simpl. rewrite lookup_insert_eq. done.
  - intros q Hq. by rewrite lookup_insert_ne.
Qed.

Lemma live_same (d d' : Dealer) ps :
  Forall (live d) ps -> (forall p, p ∈ ps -> d'.(permits) !! p = d.(permits) !! p) ->
  Forall (live d') ps.
Proof.
  intros Hl Hk. apply Forall_forall. intros p Hp. unfold live. rewrite Hk by done.
  by apply (proj1 (Forall_forall _ _) Hl).
Qed.

(** Giving out permits does not take numbers back. *)
Lemma dealer_step_next callers (d d' : Dealer) :
  dealer_step callers d d' -> (d.(next_permit) <= d'.(next_permit))%N.
Proof.
  intros [d1 _ H|w st d1 H|d1 H|i id d1 H|id info d1 H|id d1 H|i d1 H].
  - unfold acquire_check in H. repeat case_match; simplify_eq; simpl; lia.
  - unfold acquire_reserve in H. destruct (checked d); [done|].
    destruct ((if w then _ else _) _ _) as [[k sup]|]; [|done]. injection H as <-. simpl. lia.
  - unfold acquire_give_up in H. repeat case_match; simplify_eq; simpl; lia.
  - apply build_owned_lookup in H as (-> & -> & _). lia.
  - unfold into_used in H. repeat case_match; simplify_eq; simpl; lia.
  - apply drop_permit_lookup in H as [-> _]. lia.
  - unfold drop_fields in H. repeat case_match; simplify_eq; simpl; lia.
Qed.

Lemma own_world_inv b callers sup max w s' rel d' :
  poll_world_inv b callers sup max w -> own_step w.(pw_buffer) s' rel ->
  drop_permits rel w.(pw_dealer) = Some (Ok d') ->
  poll_world_inv b callers sup max
    {| pw_buffer := s'; pw_dealer := d'; pw_acquired := w.(pw_acquired);
       pw_dropped := w.(pw_dropped) ++ rel; pw_delivered := w.(pw_delivered);
       pw_answered := w.(pw_answered) |}.
Proof.
  intros [Ib Id Ip Io Ig Il It] Hs Hd.
  destruct (own_step_ok _ _ _ _ Ib Hs) as (Ib' & Hh & Hw).
  destruct (drop_permits_keeps _ _ _ _ _ _ Id Hd) as (Id' & Hn & Hk).
  split; simpl; [done|done| |done|by rewrite Hn| |by rewrite It, Hw].
  - rewrite Ip, Hh. solve_Permutation.
  - rewrite Hh in Il. apply Forall_app in Il as [Il _]. eapply live_same; [exact Il|].
    intros p Hp. apply Hk. rewrite Ip, Hh in Io. intros Hrel.
    rewrite <- !(assoc_L (++)) in Io. apply NoDup_app in Io as (_ & Hdis & _).
    apply (Hdis p Hp). apply elem_of_app. by left.
Qed.

Lemma poll_world_step_inv b callers sup max w w' :
  poll_world_inv b callers sup max w -> poll_world_step callers w w' ->
  poll_world_inv b callers sup max w'.
Proof.
  intros I Hs. destruct Hs as [s' rel d' Hs Hd|i r s' Hs|i id d' s' Hb Hs|m s' Hs|d' Hs Hk];
    [by eapply own_world_inv| | | |]; destruct I as [Ib Id Ip Io Ig Il It].
  - destruct (poll_answered_ok _ _ _ _ _ Ib Hs) as (Ib' & Hh & Hw).
    split; simpl; [done|done|by rewrite Ip, Hh|done|done|by rewrite Hh|].
    rewrite It, Hw. solve_Permutation.
  - destruct (loop_permit_ok _ _ _ _ Ib Hs) as (Ib' & Hh & Hw).
    destruct (build_owned_lookup _ _ _ _ Hb) as (-> & Hn & Hl & Hk).
    split; simpl; rewrite ?Hh, ?Hw; [done| | | | | |done].
    + eapply DR_step; [done|by eapply DS_build].
    + rewrite Ip. solve_Permutation.
    + apply NoDup_app. split_and!; [done| |apply NoDup_singleton].
      intros p Hp ->%list_elem_of_singleton. apply (proj1 (Forall_forall _ _) Ig) in Hp. lia.
    + rewrite Hn. apply Forall_app. split; [|apply Forall_singleton; lia].
      eapply Forall_impl; [exact Ig|]. simpl. intros. lia.
    + apply Forall_cons. split; [done|]. eapply live_same; [exact Il|]. intros p Hp. apply Hk.
      intros ->. assert (next_permit (pw_dealer w) ∈ pw_acquired w) as Hin
        by (rewrite Ip; apply elem_of_app; by left).
      apply (proj1 (Forall_forall _ _) Ig) in Hin. lia.
  - destruct (recv_ok _ _ _ _ Ib Hs) as (Ib' & Hh & Hw).
    split; simpl; [done|done| |done|done| |].
    + rewrite Ip, Hh, tasks_of_app, fmap_app. unfold tasks_of at 3. simpl. rewrite app_nil_r.
      solve_Permutation.
    + rewrite Hh in Il. by apply Forall_app in Il as [Il _].
    + rewrite It, Hw, tasks_of_app. unfold tasks_of at 3. simpl. rewrite app_nil_r.
      solve_Permutation.
  - split; simpl; try done.
    + by eapply DR_step.
    + eapply Forall_impl; [exact Ig|]. simpl. intros p Hp.
      pose proof (dealer_step_next _ _ _ Hs). lia.
    + by eapply live_same.
Qed.

Lemma poll_world_reach_inv b delay callers sup max w :
  validate_behavior b = Ok tt ->
  poll_world_reach callers (poll_world_new b delay sup max) w -> poll_world_inv b callers sup max w.
Proof.
  intros Hv. induction 1 as [|w w' _ IH Hs]; [|by eapply poll_world_step_inv].
  split; simpl; try done.
  - split; simpl; try done.
    + by apply scaler_new_inv.
    + destruct (scaler_new_inv b Hv) as [_ _ Ht]. lia.
  - apply DR_new.
  - apply NoDup_nil_2.
Qed.

(** Different permits that are there are no more than there are permits. *)
Lemma live_bound (d : Dealer) ps :
  NoDup ps -> Forall (live d) ps -> Z.of_nat (length ps) <= mapsize d.(permits).
Proof.
  intros Hnd Hl. unfold mapsize. rewrite <- (size_dom d.(permits)).
  rewrite <- (size_list_to_set (C := gset N) ps Hnd). apply inj_le, subseteq_size.
  intros p Hp%elem_of_list_to_set. apply elem_of_dom.
  destruct (proj1 (Forall_forall _ _) Hl p Hp) as (pm & -> & _). by eexists.
Qed.

Lemma held_NoDup b callers sup max w :
  poll_world_inv b callers sup max w -> NoDup (held w.(pw_buffer)).
Proof. intros [_ _ Ip Io _ _ _]. rewrite Ip in Io. by apply NoDup_app in Io as [? _]. Qed.

(** A step of the buffer never fails for its permits. *)
Lemma own_step_possible b callers sup max w s' rel :
  (1 <= callers)%nat -> (forall m, max = Some m -> 0 <= m) ->
  poll_world_inv b callers sup max w -> own_step w.(pw_buffer) s' rel ->
  exists d', drop_permits rel w.(pw_dealer) = Some (Ok d').
Proof.
  intros Hc Hm I Hs. pose proof (held_NoDup _ _ _ _ _ I) as Hnd.
  destruct I as [Ib Id _ _ _ Il _]. destruct (own_step_ok _ _ _ _ Ib Hs) as (_ & Hh & _).
  rewrite Hh in Hnd, Il. apply NoDup_app in Hnd as (_ & _ & Hnd).
  apply Forall_app in Il as [_ Il]. by eapply drop_permits_total.
Qed.

Context `{!SlotCount Sup Slot Info}.

(** C11 A buffer and its permits, under any interleaving.  Every permit its loop
    acquires is held in one place, was dropped, or was handed over with a task, and
    only one of these; what it holds are unused permits of the dealer, so that it
    never has more polls and tasks than there are slots.  Every task the server
    gave is handed over or still in the buffer.  The polls that are under way are
    counted and never more than the maximum, and the target stays between the
    limits.  No step panics or fails to drop a permit, and when the reader is told
    that there is nothing more, nothing is left. *)
Theorem polled_tasks_keep_permits b delay callers sup max w :
  validate_behavior b = Ok tt -> (1 <= callers)%nat -> (forall m, max = Some m -> 0 <= m) ->
  poll_world_reach callers (poll_world_new b delay sup max) w ->
  let s := w.(pw_buffer) in
  w.(pw_acquired) ≡ₚ held s ++ w.(pw_dropped) ++ (tasks_of w.(pw_delivered)).*2 /\
  NoDup w.(pw_acquired) /\ Forall (live w.(pw_dealer)) (held s) /\
  Z.of_nat (length (held s)) <= slots_free sup /\
  w.(pw_answered) ≡ₚ waiting s ++ tasks_of w.(pw_delivered) /\
  s.(active) = Z.of_nat (length (collect poll_active s.(polls))) /\
  s.(active) <= (PollScaler_new b).(ps_max) /\
  (PollScaler_new b).(ps_min) <= s.(scaler).(ps_target) <= (PollScaler_new b).(ps_max) /\
  (forall i o, poll_finished i s = Some o -> exists s' rel, o = Ok (s', rel)) /\
  (forall s' rel, own_step s s' rel ->
     exists d', drop_permits rel w.(pw_dealer) = Some (Ok d')) /\
  (forall s', recv s = Some (None, s') -> held s = [] /\ waiting s = []).
Proof.
  intros Hv Hc Hm Hr s. subst s. pose proof (poll_world_reach_inv _ _ _ _ _ _ Hv Hr) as I.
  pose proof (held_NoDup _ _ _ _ _ I) as Hnd.
  destruct (wi_buffer _ _ _ _ _ I) as [[Hb [Hmax Hmin] Ht] Ha Hle _ _ _].
  rewrite <- Hmax, <- Hmin. split_and!; try apply I; try done; try lia.
  - pose proof (live_bound _ _ Hnd (wi_live _ _ _ _ _ I)).
    pose proof (dealer_reach_slots _ _ _ _ Hc Hm (wi_dealer _ _ _ _ _ I)) as Hs.
    pose proof (slots_free_nonneg (supplier (pw_dealer w))). unfold slots_out in Hs. lia.
  - intros i o Ho. destruct (poll_finished_ok _ _ _ _ (wi_buffer _ _ _ _ _ I) Ho) as (s' & rel & -> & _).
    eauto.
  - intros s' rel. by eapply own_step_possible.
  - intros s'. unfold recv, held, waiting. destruct (buffered_polls (pw_buffer w)); [|done].
    destruct (looping (pw_buffer w)); try done. case_decide as He; [|done]. intros _.
    rewrite He, !collect_empty. done.
Qed.
End world.

(** ** Errors of polls *)
Section errors.
  Context {B : Type} `{!Backoff B} `{!BackoffLaws B} {T : Type} `{!TaskPollerResult T}.

(** C33 What becomes of an error of a poll.  With a fixed number of pollers the client
    retries the errors that a poll can meet, without end.  With scaling it does not
    retry throttled, cancelled and timed out polls; the scaler swallows them and
    lowers its target, not below the minimum, once the server has made a decision,
    and until then they are passed on to the reader. *)
Theorem poll_errors_scale cfg b start l h' h (e : Status) now a :
  scaler_inv b h ->
  retried (B := B) (make_future_retry start (get_call_info cfg (Some (poll_request b)))) l h' ->
  (is_autoscaling b = false -> message_too_large e = false ->
   e.(status_code) ∈ RETRYABLE_ERROR_CODES ++ [Code_Cancelled; Code_DeadlineExceeded] ->
   exists h'' d, handle now a e h' = (h'', WaitRetry d)) /\
  (is_autoscaling b = true -> poll_scaling_error_matcher e = true ->
   handle now a e h' = (h', ForwardError e) /\
   (h.(ps_ever_saw_scaling_decision) = false -> poll_result (T := T) (PR_Err e) h = Ok (h, true)) /\
   (h.(ps_ever_saw_scaling_decision) = true -> poll_result (T := T) (PR_Err e) h =
      Ok (set_target (Z.max h.(ps_min)
            (if bool_decide (e.(status_code) = Code_ResourceExhausted)
             then h.(ps_target) / 2 else h.(ps_target) - 1)) h, false))).
Proof.
  intros [Hb _ Ht] Hr. destruct (retried_fixed _ _ _ Hr) as (Hmr & Hct & Hsc). simpl in Hmr, Hct, Hsc.
  split.
  - intros Hau Hl Hc. apply task_poll_retried; [|by rewrite Hct| |done|done].
    + eapply retried_unlimited; [|exact Hr]. split; [done|]. simpl. by rewrite !exp_backoff_limit.
    + unfold short_circuited. rewrite Hsc. unfold no_retry. by rewrite Hau.
  - intros Hau He. split; [|split].
    + unfold handle, out_of_retries, short_circuited. rewrite Hmr, Hsc. unfold no_retry.
      simpl. by rewrite Hau, He.
    + intros Hs. simpl. by rewrite Hb, Hau, Hs.
    + intros Hs. simpl. rewrite Hb, Hau, Hs. unfold change_target, saturating_sub, usize_saturating_div.
      rewrite (proj2 (Z.ltb_ge _ _)) by lia.
      assert (0 <= ps_target h / 2 <= ps_target h).
      { split; [apply Z.div_pos; lia|]. apply Z.div_le_upper_bound; lia. }
      simpl. destruct (bool_decide _); simpl; do 3 f_equal; lia.
Qed.
End errors.

(** ** Examples *)
Module PollExample.
Import RetryExample.

(** A task: its token and the suggestion that comes with it. *)
Record task := { tok : string; delta : option Z }.
#[export] Instance task_result : TaskPollerResult task :=
  {| scaling_decision := delta; is_empty t := bool_decide (t.(tok) = ""%string) |}.

Abbreviation world := (poll_world (T := task) (Sup := FixedSizeSlotSupplier) (Slot := unit) (Info := unit)).

Inductive action :=
| AStarted | ATop | ADrained | AAllowed | AFinished (i : N) | APoll | AShutdown
| AAnswer (i : N) (r : poll_res task) | APermit | ARecv.

Definition own (w : world) (x : LongPollBuffer task N * list N) : option world :=
  match drop_permits x.2 w.(pw_dealer) with
  | Some (Ok d) =>
      Some {| pw_buffer := x.1; pw_dealer := d; pw_acquired := w.(pw_acquired);
              pw_dropped := w.(pw_dropped) ++ x.2; pw_delivered := w.(pw_delivered);
              pw_answered := w.(pw_answered) |}
  | _ => None
  end.

Definition others (w : world) (d : MeteredPermitDealer FixedSizeSlotSupplier unit unit) : world :=
  {| pw_buffer := w.(pw_buffer); pw_dealer := d; pw_acquired := w.(pw_acquired);
     pw_dropped := w.(pw_dropped); pw_delivered := w.(pw_delivered);
     pw_answered := w.(pw_answered) |}.

(** The loop is given a permit in one go. *)
Definition give_permit (w : world) : option world :=
  if (acquiring w.(pw_dealer) <? 1)%nat then
    d1 ← acquire_check w.(pw_dealer); d2 ← acquire_reserve true false d1;
    '(id, d3) ← build_owned 0 d2; s' ← loop_permit id w.(pw_buffer);
    Some {| pw_buffer := s'; pw_dealer := d3; pw_acquired := w.(pw_acquired) ++ [id];
            pw_dropped := w.(pw_dropped); pw_delivered := w.(pw_delivered);
            pw_answered := w.(pw_answered) |}
  else None.

Definition act (w : world) (a : action) : option world :=
  match a with
  | AStarted => s ← loop_started w.(pw_buffer); own w (s, [])
  | ATop => s ← loop_top w.(pw_buffer); own w (s, [])
  | ADrained => s ← loop_drained w.(pw_buffer); own w (s, [])
  | AAllowed => s ← loop_allowed w.(pw_buffer); own w (s, [])
  | AFinished i =>
      match poll_finished i w.(pw_buffer) with Some (Ok x) => own w x | _ => None end
  | APoll => own w (poll w.(pw_buffer), [])
  | AShutdown => own w (notify_shutdown w.(pw_buffer), [])
  | AAnswer i r =>
      s ← poll_answered i r w.(pw_buffer);
      Some {| pw_buffer := s; pw_dealer := w.(pw_dealer); pw_acquired := w.(pw_acquired);
              pw_dropped := w.(pw_dropped); pw_delivered := w.(pw_delivered);
              pw_answered := w.(pw_answered) ++ answer_of i r w.(pw_buffer) |}
  | APermit => give_permit w
  | ARecv =>
      match recv w.(pw_buffer) with
      | Some (Some m, s) =>
          Some {| pw_buffer := s; pw_dealer := w.(pw_dealer); pw_acquired := w.(pw_acquired);
                  pw_dropped := w.(pw_dropped); pw_delivered := w.(pw_delivered) ++ [m];
                  pw_answered := w.(pw_answered) |}
      | _ => None
      end
  end.

Lemma own_reach w0 w x w' :
  poll_world_reach 1 w0 w -> own_step w.(pw_buffer) x.1 x.2 -> own w x = Some w' ->
  poll_world_reach 1 w0 w'.
Proof.
  unfold own. intros Hr Hs H. destruct (drop_permits x.2 _) as [[d|e|m]|] eqn:Hd; try done.
  injection H as <-. eapply PWR_step; [exact Hr|]. by eapply PW_own.
Qed.

Lemma give_permit_reach w0 w w' :
  poll_world_reach 1 w0 w -> give_permit w = Some w' -> poll_world_reach 1 w0 w'.
Proof.
  unfold give_permit. intros Hr H. destruct (Nat.ltb_spec (acquiring (pw_dealer w)) 1) as [Hl|]; [|done].
  destruct (acquire_check (pw_dealer w)) as [d1|] eqn:H1; [|done]. simpl in H.
  destruct (acquire_reserve true false d1) as [d2|] eqn:H2; [|done]. simpl in H.
  destruct (build_owned 0 d2) as [[id d3]|] eqn:H3; [|done]. simpl in H.
  destruct (loop_permit id (pw_buffer w)) as [s'|] eqn:H4; [|done]. injection H as <-.
  assert (poll_world_reach 1 w0 (others w d1)) as Hr1.
  { eapply PWR_step; [exact Hr|]. apply PW_others; [by apply DS_check|]. intros p _.
    unfold acquire_check in H1. repeat case_match; simplify_eq; done. }
  assert (poll_world_reach 1 w0 (others w d2)) as Hr2.
  { eapply PWR_step; [exact Hr1|]. apply (PW_others 1 (others w d1)); [by eapply DS_reserve|].
    intros p _. unfold acquire_reserve in H2. destruct (checked d1); [done|]. simpl in H2.
    destruct (try_acquire_sem _) as [[k sup]|]; [|done]. by injection H2 as <-. }
  eapply PWR_step; [exact Hr2|]. by apply (PW_acquire 1 (others w d2) 0 id d3 s').
Qed.

Lemma act_reach w0 w a w' :
  poll_world_reach 1 w0 w -> act w a = Some w' -> poll_world_reach 1 w0 w'.
Proof.
  intros Hr H. destruct a as [| | | |i| | |i r| |]; simpl in H.
  - destruct (loop_started _) eqn:E; [|done]. eapply own_reach; [done| |exact H]. by apply OS_started.
  - destruct (loop_top _) eqn:E; [|done]. eapply own_reach; [done| |exact H]. by apply OS_top.
  - destruct (loop_drained _) eqn:E; [|done]. eapply own_reach; [done| |exact H]. by apply OS_drained.
  - destruct (loop_allowed _) eqn:E; [|done]. eapply own_reach; [done| |exact H]. by apply OS_allowed.
  - destruct (poll_finished i _) as [[[s rel]|e|m]|] eqn:E; try done.
    eapply own_reach; [done| |exact H]. by eapply OS_poll_finished.
  - eapply own_reach; [done| |exact H]. by apply OS_poll.
  - eapply own_reach; [done| |exact H]. by apply OS_shutdown.
  - destruct (poll_answered i r _) eqn:E; [|done]. injection H as <-.
    eapply PWR_step; [exact Hr|]. by apply PW_answer.
  - by eapply give_permit_reach.
  - destruct (recv _) as [[[m|] s]|] eqn:E; try done. injection H as <-.
    eapply PWR_step; [exact Hr|]. by apply PW_recv.
Qed.

Definition acts (w0 : world) (l : list action) : world :=
  foldl (fun w a => default w (act w a)) w0 l.

Lemma acts_reach w0 l : poll_world_reach 1 w0 (acts w0 l).
Proof.
  unfold acts. cut (forall w, poll_world_reach 1 w0 w ->
    poll_world_reach 1 w0 (foldl (fun w a => default w (act w a)) w l)).
  { intros H. apply H, PWR_new. }
  induction l as [|a l IH]; simpl; intros w Hr; [done|]. apply IH.
  destruct (act w a) eqn:E; [by eapply act_reach|done].
Qed.

Definition scaled : PollerBehavior := Autoscaling 1 5 1.
Definition start : world := poll_world_new scaled false (FixedSizeSlotSupplier_new 5) (Some 5).
Definition a_task (n : option Z) : poll_res task := PR_Ok {| tok := "token"%string; delta := n |}.

(** The loop is started and a task is polled, sent and read. *)
Definition one_task : list action :=
  [APoll; AStarted; ATop; APermit; AAllowed; AAnswer 0 (a_task None); AFinished 0; ARecv].

Lemma polled_tasks_keep_permits_witness :
  (acts start one_task).(pw_delivered) = [PR_Ok ({| tok := "token"%string; delta := None |}, 0%N)] /\
  (acts start one_task).(pw_answered) ≡ₚ
    waiting (acts start one_task).(pw_buffer) ++ tasks_of (acts start one_task).(pw_delivered).
Proof.
  split; [vm_compute; reflexivity|].
  exact (proj1 (proj2 (proj2 (proj2 (proj2 (polled_tasks_keep_permits scaled false 1
    (FixedSizeSlotSupplier_new 5) (Some 5) (acts start one_task) eq_refl (le_n 1)
    (fun m H => match H in _ = o return match o with Some m => 0 <= m | None => True end with
                | eq_refl => Zle_0_pos 5 end) (acts_reach start one_task))))))).
Defined.

Definition timed_out : Status :=
  {| status_code := Code_DeadlineExceeded; status_message := ""%string; status_metadata := ∅;
     status_goaway := false |}.

(** With scaling, a poll that times out before the server has made a decision is
    not retried and passed on. *)
Lemma poll_errors_scale_witness :
  handle (B := RetryExample.fixed) 0 1 timed_out
    (make_future_retry 0 (get_call_info RetryConfig_default (Some (poll_request scaled)))) =
  (make_future_retry 0 (get_call_info RetryConfig_default (Some (poll_request scaled))),
   ForwardError timed_out) /\
  poll_result (T := task) (PR_Err timed_out) (PollScaler_new scaled) = Ok (PollScaler_new scaled, true).
Proof.
  destruct (poll_errors_scale (B := RetryExample.fixed) (T := task) RetryConfig_default scaled 0 []
    _ (PollScaler_new scaled) timed_out 0 1 (scaler_new_inv scaled eq_refl) (retried_nil _)) as [_ H].
  destruct (H eq_refl eq_refl) as (H1 & H2 & _). split; [exact H1|]. apply H2. reflexivity.
Defined.

(** The server asks for three more polls while the loop is parked. *)
Definition scaled_up : list action :=
  [APoll; AStarted; ATop; APermit; AAllowed; ATop; APermit; AAnswer 0 (a_task (Some 3)); AAllowed;
   ATop; APermit; AAllowed; AFinished 0].

(** The loop does not see that the target went up: it stays parked until a poll
    ends, although more polls are allowed. *)
Lemma higher_target_unnoticed :
  exists w, poll_world_reach 1 start w /\
    w.(pw_buffer).(looping) = L_Allowed 2%N true /\ loop_allowed w.(pw_buffer) = None /\
    w.(pw_buffer).(active) = 1 /\ w.(pw_buffer).(scaler).(ps_target) = 4.
Proof.
  exists (acts start scaled_up). split; [apply acts_reach|]. vm_compute. done.
Qed.

(** One buffer has ended after the shutdown, the other has a task. *)
Definition ended : list action := [APoll; AStarted; AShutdown; ATop; ADrained].
Definition task_waits : list action :=
  [APoll; AStarted; ATop; APermit; AAllowed; AAnswer 0 (a_task None); AFinished 0; AShutdown].

(** The poller of workflow tasks may say that there is nothing more when one of
    its buffers has ended, with a task waiting in the other. *)
Lemma ended_poller_hides_task :
  exists wn ws, poll_world_reach 1 start wn /\ poll_world_reach 1 start ws /\
    let p := {| normal_poller := wn.(pw_buffer); sticky_poller := Some ws.(pw_buffer) |} in
    wft_recv false p = Some (None, p) /\ length (waiting ws.(pw_buffer)) = 1%nat.
Proof.
  exists (acts start ended), (acts start task_waits).
  split; [apply acts_reach|]. split; [apply acts_reach|]. vm_compute. done.
Qed.
End PollExample.
