(* ===== verification/WorkerRegistry.v ===== *)
(** * Eager workflow start (client/src/worker_registry/mod.rs, worker/slot_provider.rs)

    A client knows the workers that use it.  When it starts a workflow it reserves
    a slot of a worker for the first task, which the server then returns with the
    answer.  The registry of workers, the slots of a worker, and the start of a
    workflow (client/src/raw.rs, worker/mod.rs). *)
From Stdlib Require Import ZArith Lia String.
From stdpp Require Import base option list strings gmap.
From S2P Require Import Prelude Protos Machines Permits CoreProtos Workflows.
Local Open Scope Z_scope.

(** ** The registry *)
Record SlotKey := {
  sk_namespace : string;
  sk_task_queue : string;
}.
#[global] Instance SlotKey_eq_dec : EqDecision SlotKey.
Proof. solve_decision. Defined.
#[global] Instance SlotKey_countable : Countable SlotKey :=
  inj_countable' (fun k => (k.(sk_namespace), k.(sk_task_queue)))
    (fun '(n, t) => {| sk_namespace := n; sk_task_queue := t |}) ltac:(by intros []).

(** A provider of slots: the worker [W] behind it. *)
Record SlotProvider (W : Type) := {
  sp_namespace : string;
  sp_task_queue : string;
  sp_worker : W;
}.
Arguments sp_namespace {W} s.
Arguments sp_task_queue {W} s.
Arguments sp_worker {W} s.

Record SlotManagerImpl (W : Type) (Sm : Type -> Type) := {
  providers : gmap SlotKey (SlotProvider W);
  index : Sm SlotKey;
}.
Arguments providers {W Sm} s.
Arguments index {W Sm} s.

Section registry.
  Context {W K : Type} {Sm : Type -> Type} `{!EqDecision K} `{!SlotMap K Sm}.
  Abbreviation Manager := (SlotManagerImpl W Sm).

Definition SlotManagerImpl_new : Manager := {| providers := ∅; index := slot_empty |}.

Definition slot_key (p : SlotProvider W) : SlotKey :=
  {| sk_namespace := p.(sp_namespace); sk_task_queue := p.(sp_task_queue) |}.

Definition register (provider : SlotProvider W) (s : Manager) : option K * Manager :=
  let key := slot_key provider in
  match s.(providers) !! key with
  | None =>
      let '(id, idx) := slot_insert key s.(index) in
      (Some id, {| providers := <[key := provider]> s.(providers); index := idx |})
  | Some _ => (None, s)
  end.

Definition unregister (id : K) (s : Manager) : option (SlotProvider W) * Manager :=
  match slot_get s.(index) id with
  | Some key =>
      (s.(providers) !! key,
       {| providers := delete key s.(providers); index := slot_remove id s.(index) |})
  | None => (None, s)
  end.

(** The provider that [try_reserve_wft_slot] asks. *)
Definition provider_for (namespace task_queue : string) (s : Manager) : option (SlotProvider W) :=
  s.(providers) !! {| sk_namespace := namespace; sk_task_queue := task_queue |}.

(** *** What a worker does with its registration *)

(** [initiate_shutdown] *)
Definition disable_eager_start (worker_key : option K) (s : Manager) : Manager :=
  match worker_key with Some key => (unregister key s).2 | None => s end.

(** [replace_client], with the registries of the old and of the new client. *)
Definition replace_client (worker_key : option K) (old new : Manager)
    : option K * Manager * Manager :=
  let '(slot_provider, old) :=
    match worker_key with Some k => unregister k old | None => (None, old) end in
  match slot_provider with
  | Some p => let '(key, new) := register p new in (key, old, new)
  | None => (None, old, new)
  end.

(** ** What the registry promises *)

(** The provider that is registered under a key. *)
Definition registered (s : Manager) (k : K) : option (SlotProvider W) :=
  key ← slot_get s.(index) k; s.(providers) !! key.

Inductive registry_reach : Manager -> Prop :=
| RR_new : registry_reach SlotManagerImpl_new
| RR_register p s : registry_reach s -> registry_reach (register p s).2
| RR_unregister k s : registry_reach s -> registry_reach (unregister k s).2.

Context `{!SlotMapLaws K Sm}.

Record registry_inv (s : Manager) : Prop := {
  ri_one : forall k k' q, slot_get s.(index) k = Some q -> slot_get s.(index) k' = Some q -> k = k';
  ri_index : forall q, (exists k, slot_get s.(index) k = Some q) <-> is_Some (s.(providers) !! q);
  ri_key : forall q p, s.(providers) !! q = Some p -> slot_key p = q;
}.

Lemma register_inv p s : registry_inv s -> registry_inv (register p s).2.
Proof.
  intros I. unfold register. destruct (providers s !! slot_key p) eqn:Hp; [done|].
  destruct (slot_insert (slot_key p) (index s)) as [id idx] eqn:Hi. simpl.
  pose proof (fun j => slot_get_insert _ _ _ _ _ j Hi) as Hg. destruct I as [H1 H2 H3].
  assert (forall k, slot_get (index s) k <> Some (slot_key p)) as Hno.
  { intros k Hk. assert (is_Some (providers s !! slot_key p)) as [? Hs] by (apply H2; eauto).
    congruence. }
  split; simpl.
  - intros k k' q E1 E2. rewrite Hg in E1, E2. pose proof (Hno k). pose proof (Hno k').
    repeat case_decide; try congruence. by eapply H1.
  - intros q. destruct (decide (q = slot_key p)) as [->|Hq].
    + rewrite lookup_insert_eq. split; [eauto|]. intros _. exists id. rewrite Hg. by case_decide.
    + rewrite lookup_insert_ne by done. rewrite <- H2. split; intros [k Hk]; exists k.
      * rewrite Hg in Hk. case_decide; congruence.
      * rewrite Hg. case_decide; [subst|done].
        by rewrite (slot_insert_fresh _ _ _ _ _ Hi) in Hk.
  - intros q p'. rewrite lookup_insert. case_decide; [congruence|apply H3].
Qed.

Lemma unregister_inv k s : registry_inv s -> registry_inv (unregister k s).2.
Proof.
  intros I. unfold unregister. destruct (slot_get (index s) k) as [key|] eqn:Hk; [|done].
  destruct I as [H1 H2 H3]. split; simpl.
  - intros j j' q. rewrite !slot_get_remove. repeat case_decide; try done. apply H1.
  - intros q. rewrite lookup_delete. destruct (decide (key = q)) as [->|Hq].
    + split; [|by intros [? ?]]. intros [j Hj]. rewrite slot_get_remove in Hj.
      case_decide as Hjk; [done|]. by destruct (Hjk (H1 _ _ _ Hj Hk)).
    + rewrite <- H2. split; intros [j Hj]; exists j; rewrite slot_get_remove in *;
        case_decide; subst; congruence.
  - intros q p'. rewrite lookup_delete. case_decide; [done|apply H3].
Qed.

Lemma registry_reach_inv s : registry_reach s -> registry_inv s.
Proof.
  induction 1; [|by apply register_inv|by apply unregister_inv].
  split; simpl.
  - intros k k' q H. by rewrite slot_get_empty in H.
  - intros q. rewrite lookup_empty. split; [|by intros [? ?]]. intros [k Hk].
    by rewrite slot_get_empty in Hk.
  - intros q p H. by rewrite lookup_empty in H.
Qed.

Lemma registered_spec s k p :
  registry_inv s -> registered s k = Some p <->
  slot_get s.(index) k = Some (slot_key p) /\ s.(providers) !! slot_key p = Some p.
Proof.
  intros I. unfold registered. split.
  - intros (q & Hq & Hp)%bind_Some. by rewrite (ri_key _ I _ _ Hp).
  - intros [-> Hp]. done.
Qed.

Lemma provider_for_spec ns tq s p :
  registry_inv s -> provider_for ns tq s = Some p <->
  (exists k, registered s k = Some p) /\ p.(sp_namespace) = ns /\ p.(sp_task_queue) = tq.
Proof.
  intros I. unfold provider_for. split.
  - intros Hp. pose proof (ri_key _ I _ _ Hp) as Hk. injection Hk as Hn Ht.
    split; [|done]. destruct (proj2 (ri_index _ I _) (ex_intro _ p Hp)) as [k Hk].
    exists k. apply registered_spec; [done|]. unfold slot_key. by rewrite Hn, Ht.
  - intros [[k Hk] [<- <-]]. by apply registered_spec in Hk as [_ ?].
Qed.

Lemma register_spec p s id s' :
  registry_inv s -> register p s = (Some id, s') ->
  (forall q j, registered s j = Some q -> slot_key q <> slot_key p) /\ registered s id = None /\
  forall j, registered s' j = if decide (j = id) then Some p else registered s j.
Proof.
  intros I. unfold register. destruct (providers s !! slot_key p) eqn:Hp; [done|].
  destruct (slot_insert (slot_key p) (index s)) as [id' idx] eqn:Hi. intros [= -> <-].
  split_and!.
  - intros q j (_ & Hq)%registered_spec Heq; [|done]. congruence.
  - unfold registered. by rewrite (slot_insert_fresh _ _ _ _ _ Hi).
  - intros j. unfold registered. simpl. rewrite (slot_get_insert _ _ _ _ _ j Hi).
    case_decide; simpl; [by rewrite lookup_insert_eq|].
    destruct (slot_get (index s) j) as [q|] eqn:Hj; simpl; [|done].
    rewrite lookup_insert_ne; [done|]. intros <-.
    assert (is_Some (providers s !! slot_key p)) as [? ?] by (apply (ri_index _ I); eauto). congruence.
Qed.

Lemma unregister_spec k s :
  registry_inv s -> (unregister k s).1 = registered s k /\
  forall j, registered (unregister k s).2 j = if decide (j = k) then None else registered s j.
Proof.
  intros I. unfold unregister, registered.
  destruct (slot_get (index s) k) as [key|] eqn:Hk; simpl.
  - split; [done|]. intros j. rewrite slot_get_remove. case_decide as Hjk; [done|].
    destruct (slot_get (index s) j) as [q|] eqn:Hj; simpl; [|done].
    rewrite lookup_delete_ne; [done|]. intros ->. by destruct (Hjk (ri_one _ I _ _ _ Hj Hk)).
  - split; [done|]. intros j. case_decide; [subst|done]. by rewrite Hk.
Qed.

(** C34 The registry of workers implements a table of the workers registered: there is
    at most one for a namespace and queue, and it is the one asked for slots; a
    registration is refused exactly when there is one, and otherwise adds the worker
    under a new key; a key removes its own worker, and a key that was used before
    removes nothing.  A worker that moves to another client is gone from the old
    one, and at the new one unless its queue is taken there. *)
Theorem worker_registry_refines s :
  registry_reach s ->
  (forall j j' p p', registered s j = Some p -> registered s j' = Some p' ->
     slot_key p = slot_key p' -> j = j') /\
  (forall ns tq p, provider_for ns tq s = Some p <->
     (exists k, registered s k = Some p) /\ p.(sp_namespace) = ns /\ p.(sp_task_queue) = tq) /\
  (forall p, match register p s with
     | (Some id, s') =>
         (forall q j, registered s j = Some q -> slot_key q <> slot_key p) /\
         registered s id = None /\
         forall j, registered s' j = if decide (j = id) then Some p else registered s j
     | (None, s') => s' = s /\ exists j q, registered s j = Some q /\ slot_key q = slot_key p
     end) /\
  (forall k, (unregister k s).1 = registered s k /\
     forall j, registered (unregister k s).2 j = if decide (j = k) then None else registered s j) /\
  (forall k p new key old' new', registered s k = Some p -> registry_reach new ->
     replace_client (Some k) s new = (key, old', new') -> registered old' k = None /\
     match key with
     | Some id => registered new' id = Some p
     | None => new' = new /\ exists j q, registered new j = Some q /\ slot_key q = slot_key p
     end).
Proof.
  assert (forall p s, registry_inv s -> (register p s).1 = None ->
    (register p s).2 = s /\ exists j q, registered s j = Some q /\ slot_key q = slot_key p) as Hno.
  { intros p s0 I0. unfold register. destruct (providers s0 !! slot_key p) as [q|] eqn:Hq;
      [|by destruct (slot_insert _ _)]. intros _. split; [done|].
    pose proof (ri_key _ I0 _ _ Hq) as Heq.
    destruct (proj2 (ri_index _ I0 _) (ex_intro _ q Hq)) as [j Hj].
    exists j, q. split; [|done]. apply registered_spec; [done|]. by rewrite Heq. }
  intros I%registry_reach_inv. split_and!.
  - intros j j' p p' [Hj _]%registered_spec [Hj' _]%registered_spec Heq; [|done..].
    rewrite <- Heq in Hj'. by eapply ri_one.
  - intros. by apply provider_for_spec.
  - intros p. specialize (Hno p s I). destruct (register p s) as [[id|] s'] eqn:Hr; [|by apply Hno].
    by apply register_spec.
  - intros k. by apply unregister_spec.
  - intros k p new key old' new' Hk In%registry_reach_inv. unfold replace_client.
    destruct (unregister_spec k s I) as [H1 H2]. destruct (unregister k s) as [sp old]. simpl in *.
    rewrite H1, Hk. specialize (Hno p new In). destruct (register p new) as [key2 new2] eqn:Hr.
    intros [= <- <- <-]. split; [rewrite H2; by case_decide|].
    destruct key2 as [id|]; [|by apply Hno].
    destruct (register_spec _ _ _ _ In Hr) as (_ & _ & ->). by case_decide.
Qed.
End registry.

(** ** The slots of a worker *)
Section eager.
  Context {Sup Slot Info : Type} `{!SlotSupplier Sup Slot Info} `{!AnyRequest}.
  Context (iter_queries : gmap string WorkflowQuery -> list (string * WorkflowQuery)).
  Context {K : Type} {Sm : Type -> Type} `{!SlotMap K Sm}.
  Abbreviation Dealer := (MeteredPermitDealer Sup Slot Info).

(** [MeteredPermitDealer::try_acquire_owned] without interruption. *)
Definition try_acquire_owned (d : Dealer) : option (N * Dealer) :=
  d1 ← acquire_check d; d2 ← acquire_reserve false false d1; build_owned (length d.(reserved)) d2.

(** What a worker has for eager starts: the dealer of its workflow slots, and the
    channel of tasks with their permits, if there is still a receiver. *)
Record eager_worker := {
  ew_dealer : Dealer;
  ew_external_wfts : list (ValidPollWFTQResponse * N);
  ew_receiving : bool;
}.

Definition set_dealer (d : Dealer) (w : eager_worker) : eager_worker :=
  {| ew_dealer := d; ew_external_wfts := w.(ew_external_wfts); ew_receiving := w.(ew_receiving) |}.

Abbreviation Workers := (gmap N eager_worker).
Abbreviation Manager := (SlotManagerImpl N Sm).

(** [try_reserve_wft_slot] of the registry and of the provider; a slot is the worker
    and the permit. *)
Definition try_reserve_wft_slot (namespace task_queue : string) (m : Manager) (ws : Workers)
    : option ((N * N) * Workers) :=
  p ← provider_for namespace task_queue m;
  w ← ws !! p.(sp_worker);
  '(id, d) ← try_acquire_owned w.(ew_dealer);
  Some ((p.(sp_worker), id), <[p.(sp_worker) := set_dealer d w]> ws).

(** The permit of a slot that is dropped. *)
Definition drop_slot_permit (slot : N * N) (ws : Workers) : outcome Empty_set Workers :=
  match ws !! slot.1 with
  | Some w =>
      match drop_permit slot.2 w.(ew_dealer) with
      | Some o => d ← o; Ok (<[slot.1 := set_dealer d w]> ws)
      | None => Ok ws
      end
  | None => Ok ws
  end.

(** [Slot::schedule_wft]: a task that is not valid, or that nobody receives, leaves
    the permit to be dropped. *)
Definition schedule_wft (slot : N * N) (task : PollWorkflowTaskQueueResponse) (ws : Workers)
    : outcome Empty_set Workers :=
  match validate_wft iter_queries task, ws !! slot.1 with
  | Ok wft, Some w =>
      if w.(ew_receiving) then
        Ok (<[slot.1 := {| ew_dealer := w.(ew_dealer);
                           ew_external_wfts := w.(ew_external_wfts) ++ [(wft, slot.2)];
                           ew_receiving := true |}]> ws)
      else drop_slot_permit slot ws
  | _, _ => drop_slot_permit slot ws
  end.

(** ** The start of a workflow *)
Record start_request := {
  sr_namespace : string;
  sr_task_queue : option string;  (** the name of its queue *)
  sr_request_eager_execution : bool;
}.

(** Before the call: a slot, or a request that is not eager. *)
Definition start_before (m : Manager) (r : start_request) (ws : Workers)
    : option (N * N) * start_request * Workers :=
  if r.(sr_request_eager_execution) then
    match try_reserve_wft_slot r.(sr_namespace) (default ""%string r.(sr_task_queue)) m ws with
    | Some (s, ws) => (Some s, r, ws)
    | None =>
        (None, {| sr_namespace := r.(sr_namespace); sr_task_queue := r.(sr_task_queue);
                  sr_request_eager_execution := false |}, ws)
    end
  else (None, r, ws).

(** After it: the task of an answer ([None] also for an error) goes to the slot. *)
Definition start_after (eager_workflow_task : option PollWorkflowTaskQueueResponse)
    (slot : option (N * N)) (ws : Workers) : outcome Empty_set Workers :=
  match slot with
  | Some s =>
      match eager_workflow_task with
      | Some task => schedule_wft s task ws
      | None => drop_slot_permit s ws
      end
  | None => Ok ws
  end.

Lemma try_acquire_owned_spec d id d' :
  try_acquire_owned d = Some (id, d') ->
  id = d.(next_permit) /\ d'.(released) = d.(released) /\
  (exists k, d'.(permits) = <[id := {| mp_unused := true; mp_slot := k; mp_info := None |}]> d.(permits)) /\
  forall callers sup max, (acquiring d < callers)%nat ->
    dealer_reach callers sup max d -> dealer_reach callers sup max d'.
Proof.
  unfold try_acquire_owned. intros (d1 & H1 & (d2 & H2 & H3)%bind_Some)%bind_Some.
  assert (permits d1 = permits d /\ next_permit d1 = next_permit d /\ released d1 = released d)
    as (E1 & E2 & E3) by (unfold acquire_check in H1; repeat case_match; simplify_eq; done).
  assert (permits d2 = permits d1 /\ next_permit d2 = next_permit d1 /\ released d2 = released d1)
    as (F1 & F2 & F3).
  { unfold acquire_reserve in H2. destruct (checked d1); [done|].
    destruct (try_reserve_slot _ _) as [[k sup]|]; [|done]. by injection H2 as <-. }
  split_and!.
  - unfold build_owned in H3. destruct (reserved d2 !! _); [|done]. injection H3 as <- _. congruence.
  - unfold build_owned in H3. destruct (reserved d2 !! _); [|done]. injection H3 as _ <-. simpl. congruence.
  - unfold build_owned in H3. destruct (reserved d2 !! _) as [k|]; [|done]. injection H3 as <- <-.
    exists k. simpl. congruence.
  - intros callers sup max Hc Hr. eapply DR_step; [|by eapply DS_build].
    eapply DR_step; [|by eapply DS_reserve]. eapply DR_step; [exact Hr|by apply DS_check].
Qed.

(** What the worker of a slot is after the start. *)
Definition scheduled (task : option PollWorkflowTaskQueueResponse) (w : eager_worker)
    : option ValidPollWFTQResponse :=
  match task with
  | Some t =>
      match validate_wft iter_queries t with
      | Ok wft => if w.(ew_receiving) then Some wft else None
      | _ => None
      end
  | None => None
  end.

Lemma drop_slot_permit_spec callers sup max s w (ws : Workers) :
  (1 <= callers)%nat -> (forall m, max = Some m -> 0 <= m) ->
  ws !! s.1 = Some w -> dealer_reach callers sup max w.(ew_dealer) ->
  is_Some (w.(ew_dealer).(permits) !! s.2) ->
  exists d, drop_slot_permit s ws = Ok (<[s.1 := set_dealer d w]> ws) /\
    d.(permits) = delete s.2 w.(ew_dealer).(permits) /\
    d.(released) = w.(ew_dealer).(released) ++ [s.2] /\ dealer_reach callers sup max d.
Proof.
  intros Hc Hm Hw Hr [p Hp]. unfold drop_slot_permit. rewrite Hw.
  destruct (drop_permit s.2 (ew_dealer w)) as [o|] eqn:Ho;
    [|unfold drop_permit in Ho; by rewrite Hp in Ho].
  destruct (drop_permit_inv _ _ _ _ _ (dealer_reach_inv _ _ _ _ Hc Hm Hr) Ho) as (d & -> & _).
  exists d. split; [done|].
  assert (dealer_reach callers sup max d) by (eapply DR_step; [exact Hr|by eapply DS_drop]).
  unfold drop_permit in Ho. rewrite Hp in Ho. case_match; [done|]. injection Ho as <-. done.
Qed.

(** C35 An eager start.  The request asks the server for the first task exactly when a
    slot was reserved at the worker that is registered for the namespace and queue.
    Then a valid task the server returns is given to that worker with the permit;
    in every other case the permit is released.  No other worker is touched, and
    nothing panics. *)
Theorem eager_start_uses_slot callers sup max m r ws slot r' ws1 task :
  (1 <= callers)%nat -> (forall n, max = Some n -> 0 <= n) ->
  (forall i w, ws !! i = Some w ->
     dealer_reach callers sup max w.(ew_dealer) /\ acquiring w.(ew_dealer) = O) ->
  start_before m r ws = (slot, r', ws1) ->
  (r'.(sr_request_eager_execution) = true <-> is_Some slot) /\
  match slot with
  | None => ws1 = ws /\ start_after task slot ws1 = Ok ws
  | Some (i, id) =>
      r' = r /\ exists p w, provider_for r.(sr_namespace) (default ""%string r.(sr_task_queue)) m = Some p /\
        p.(sp_worker) = i /\ ws !! i = Some w /\ id = w.(ew_dealer).(next_permit) /\
        exists w', start_after task slot ws1 = Ok (<[i := w']> ws) /\
          dealer_reach callers sup max w'.(ew_dealer) /\
          match scheduled task w with
          | Some wft =>
              w'.(ew_external_wfts) = w.(ew_external_wfts) ++ [(wft, id)] /\
              is_Some (w'.(ew_dealer).(permits) !! id) /\
              w'.(ew_dealer).(released) = w.(ew_dealer).(released)
          | None =>
              w'.(ew_external_wfts) = w.(ew_external_wfts) /\
              w'.(ew_dealer).(permits) !! id = None /\
              w'.(ew_dealer).(released) = w.(ew_dealer).(released) ++ [id]
          end
  end.
Proof.
  intros Hc Hm Hws. unfold start_before.
  destruct (sr_request_eager_execution r) eqn:He;
    [|intros [= <- <- <-]; split; [by rewrite He; split; [|intros []]|done]].
  destruct (try_reserve_wft_slot _ _ m ws) as [[s ws']|] eqn:Ht; intros [= <- <- <-];
    [|split; [by split; [|intros []]|done]].
  split; [by rewrite He|]. unfold try_reserve_wft_slot in Ht.
  apply bind_Some in Ht as (p & Hp & (w & Hw & ([id d] & Hd & Hs)%bind_Some)%bind_Some).
  injection Hs as <- <-. destruct (Hws _ _ Hw) as [Hr Ha].
  destruct (try_acquire_owned_spec _ _ _ Hd) as (-> & Hrel & (k & Hpm) & Hreach).
  specialize (Hreach callers sup max ltac:(lia) Hr). split; [done|]. exists p, w.
  split_and!; try done.
  set (i := sp_worker p) in *. set (n := next_permit (ew_dealer w)) in *. set (w1 := set_dealer d w).
  assert ((<[i := w1]> ws : Workers) !! (i, n).1 = Some w1) as Hl by apply lookup_insert_eq.
  assert (is_Some (permits (ew_dealer w1) !! n)) as Hlive by (simpl; rewrite Hpm, lookup_insert_eq; done).
  destruct (drop_slot_permit_spec callers sup max (i, n) w1 _ Hc Hm Hl Hreach Hlive)
    as (d2 & Hdrop & Hd2 & Hr2 & Hreach2).
  assert (exists w', drop_slot_permit (i, n) (<[i := w1]> ws) = Ok (<[i := w']> ws) /\
    dealer_reach callers sup max (ew_dealer w') /\
    ew_external_wfts w' = ew_external_wfts w /\ permits (ew_dealer w') !! n = None /\
    released (ew_dealer w') = released (ew_dealer w) ++ [n]) as Hdropped.
  { exists (set_dealer d2 w1). rewrite Hdrop. simpl. rewrite insert_insert_eq. split_and!; try done.
    - by rewrite Hd2, lookup_delete_eq.
    - rewrite Hr2. simpl. by rewrite Hrel. }
  unfold start_after, scheduled, schedule_wft. destruct task as [t|]; [|exact Hdropped].
  destruct (validate_wft iter_queries t) as [wft|e|msg]; [|exact Hdropped..]. rewrite Hl. simpl.
  destruct (ew_receiving w); [|exact Hdropped].
  eexists. rewrite insert_insert_eq. split_and!; done.
Qed.
End eager.

(** ** An example *)
Module RegistryExample.
#[local] Instance no_requests : AnyRequest := {| unpack_as_request _ := Err ""%string |}.

Abbreviation manager := (SlotManagerImpl N counted_map).

Definition provider : SlotProvider N :=
  {| sp_namespace := "default"; sp_task_queue := "queue"; sp_worker := 7%N |}.

(** A worker is registered; a second one for the same queue is refused. *)
Definition one_worker : manager := (register provider SlotManagerImpl_new).2.

Lemma one_worker_reach : registry_reach one_worker.
Proof. apply RR_register, RR_new. Qed.

Lemma worker_registry_refines_witness :
  registered one_worker 0%N = Some provider /\ provider_for "default" "queue" one_worker = Some provider /\
  (register provider one_worker).1 = None /\
  forall j, registered (unregister 0%N one_worker).2 j = if decide (j = 0%N) then None else registered one_worker j.
Proof.
  destruct (worker_registry_refines one_worker one_worker_reach) as (_ & _ & _ & H & _).
  split_and!; [vm_compute; reflexivity..|]. exact (proj2 (H 0%N)).
Defined.

Abbreviation worker := (eager_worker (Sup := FixedSizeSlotSupplier) (Slot := unit) (Info := unit)).

Definition idle : worker :=
  {| ew_dealer := MeteredPermitDealer_new (FixedSizeSlotSupplier_new 2) None;
     ew_external_wfts := []; ew_receiving := true |}.

Definition eager_request : start_request :=
  {| sr_namespace := "default"; sr_task_queue := Some "queue"%string;
     sr_request_eager_execution := true |}.

Definition first_task : PollWorkflowTaskQueueResponse :=
  {| poll_task_token := "token";
     poll_workflow_execution_task_queue := Some {| TaskQueue_name := "queue"; TaskQueue_kind := 1; TaskQueue_normal_name := "" |};
     poll_workflow_execution :=
       Some {| WorkflowExecution_workflow_id := "wf"; WorkflowExecution_run_id := "run" |};
     poll_workflow_type := Some {| WorkflowType_name := "type" |};
     poll_history := Some []; poll_next_page_token := ""; poll_attempt := 1;
     poll_previous_started_event_id := 0; poll_started_event_id := 0; poll_query := None;
     poll_queries := ∅; poll_messages := [] |}.

Definition reserved_start : option (N * N) * start_request * gmap N worker :=
  start_before one_worker eager_request {[7%N := idle]}.

Lemma idle_reach i w :
  ({[7%N := idle]} : gmap N worker) !! i = Some w ->
  dealer_reach 1 (FixedSizeSlotSupplier_new 2) None w.(ew_dealer) /\ acquiring w.(ew_dealer) = O.
Proof. intros [_ <-]%lookup_singleton_Some. split; [apply DR_new|done]. Qed.

Lemma eager_start_uses_slot_witness :
  reserved_start.1.1 = Some (7%N, 0%N) /\
  exists w', start_after (fun _ => []) (Some first_task) (Some (7%N, 0%N)) reserved_start.2 =
    Ok (<[7%N := w']> {[7%N := idle]}) /\ length w'.(ew_external_wfts) = 1%nat.
Proof.
  split; [vm_compute; reflexivity|].
  destruct (eager_start_uses_slot (fun _ => []) 1 (FixedSizeSlotSupplier_new 2) None one_worker
    eager_request {[7%N := idle]} (Some (7%N, 0%N)) eager_request reserved_start.2 (Some first_task)
    (le_n 1) ltac:(discriminate) idle_reach ltac:(vm_compute; reflexivity))
    as (_ & _ & p & w & _ & _ & Hw & _ & w' & H1 & _ & H2).
  exists w'. split; [exact H1|]. apply lookup_singleton_Some in Hw as [_ <-].
  simpl in H2. destruct H2 as [-> _]. reflexivity.
Defined.
End RegistryExample.
